(* ===== verification/_CoqProject ===== *)
-Q . S2P
Prelude.v
GoStr.v
Externs.v
Compress.v
Crypto.v
Stream.v
FS.v
BlobStore.v
LocalStore.v
Conformance.v
ConformLocal.v
StoreConc.v
Blob.v
BlobLocal.v
RateLimit.v
Manifest.v
CloudID.v
FlexTime.v
Validate.v
ManifestIO.v
Hook.v
RestorePath.v
SecureDir.v
Restore.v
RestoreTree.v
RestoreLocal.v
Ignore.v
PipeFile.v
PipeLocal.v
Interleave.v
BufPool.v
Scan.v
Pool.v
Collect.v
Registry.v
Trash.v
RegList.v
Config.v
RestoreRun.v
Keys.v
GcmCache.v
Progress.v
Backup.v
Reports.v
EndToEnd.v
EndWorkers.v
Incremental.v
Cycle.v
History.v
