(* ===== verification/Prelude.v ===== *)
(** gbf-core: a verification library for the Ginkgo backup engine.

    The program (Go, under src/) stores files as encrypted, content-addressed
    blobs and describes a snapshot by a manifest.  A backup hashes, compresses
    and encrypts every file and puts the blobs into a store; a restore reads
    the manifest, fetches, decrypts and verifies the blobs and writes the files
    below a target directory that may be hostile.

    * Parts, files and how they correspond to the code

    - [Prelude] (this file): Go results as [result], bytes, machine integers
      with their wrap-around, big-endian fields, [io.Reader]s, the effect type
      [eff] (state passing with errors) with its [wp] rules, hint databases
      and tactics.
    - [GoStr]: Go's [strings], [strconv], [hex] and Unix [filepath] functions,
      with the lemmas on splitting, joining and cleaning paths.
    - [Externs]: third-party code as type classes: AES-GCM, SHA-256, HKDF,
      Argon2, zstd, S2, zlib, each with a class of documented laws and a toy
      instance ([Toy]) that satisfies them.
    - [Compress]: compress/*.go: the back ends, their size limits, magic checks
      and constructors.
    - [Crypto]: simple/crypto.go: the formats GB1 (small and chunked), GB2 and
      GB3, the GB3 header, the choice between the two readings of a GB1 blob,
      the manifest envelope.
    - [Stream]: simple/stream.go: [encryptFileToWriter] and the streaming
      decoders with the verifying writer.
    - [FS]: fsutil/*.go (Unix): staging, atomic replace, no-replace commit,
      directory sync, over a map of files with a schedule of faults.
    - [BlobStore]: simple/blobstore.go, store_errors.go: the store interface
      ([Class BlobStore]) and its contract ([Class BlobStoreSpec]).
    - [LocalStore]: simple/local_store.go: every operation of [LocalBlobStore];
      the instances [local_store] and [local_store_spec] discharge the
      contract.
    - [Conformance], [ConformLocal]: simple/store_conformance.go: every subtest as
      a program over the interface, and its run on the local store.
    - [StoreConc]: the same store with threads: [putBlob], [Exists] and
      [Delete] as atomic steps over the shared disk, cache and lock table, each
      with its failures.
    - [Blob], [BlobLocal]: simple/hash.go, incompressible.go and the upload and
      download entry points of stream.go, against the interface, and their
      instances at the local store.
    - [RateLimit]: ratelimit/ratelimit.go: the token bucket, in milliseconds.
    - [Manifest]: the data and the in-memory operations of simple/manifest.go
      and the checks of manifest_validate.go; [Validate]: full validation.
    - [FlexTime]: modification times in manifests: [FlexTime.UnmarshalJSON], with
      the calendar of RFC 3339.
    - [CloudID]: cloud and device identifiers of simple/manifest.go: their
      validation, the manifest directory and the base64url layout.
    - [ManifestIO]: manifest files of simple/manifest.go: saving, the checksum
      envelope, loading, and the lookup by time stamp and of the latest one;
      [Hook]: the registered decryption hook of manifests.
    - [RestorePath]: the path sanitiser and link checker of simple/restore.go.
    - [SecureDir]: simple/restore_secure.go and restore_secure_posix.go over a
      file system of inodes that other processes change between system calls.
    - [Restore], [RestoreLocal]: the restore of a manifest of simple/restore.go
      over the store interface and [SecureDir], and its instances at the local
      store; [RestoreTree]: what it does to an abstract tree; [RestoreRun]:
      [SimpleRestore.Run], which chooses and loads the manifest.
    - [Ignore]: fsutil/ignore.go: the ignore file, size filters, literal, glob
      and [**] patterns, with [path.Match].
    - [PipeFile], [PipeLocal]: the backup of one file of simple/pipeline.go
      ([processFile] and all it calls) and of chunk_cdc.go, against the store
      interface, and its instances at the local store, with the warming of its
      cache ([warmStoreCache]); [BufPool]: the pools of
      chunk buffers it uses.
    - [Scan]: the walk of the source tree, empty directories and the count of
      deleted files of simple/pipeline.go.
    - [Pool]: [runUploadWorkers] of simple/pipeline.go as a step relation:
      feeder, channel, workers, mutex, cancellation.
    - [Collect]: the live hashes of a source's manifests and the listings of
      manifests and sources of simple/manifest.go.
    - [Trash]: deleting, trashing and purging manifests of simple/manifest.go,
      with the copy between mounts.
    - [Registry]: the source registry of simple/manifest.go and its update in
      simple/pipeline.go; [RegList]: the listing of all registries.
    - [Config]: simple/config.go, init.go, format_detect.go and the chunking
      polynomial of chunk_cdc.go.
    - [Keys]: simple/keys.go: key files, password envelopes, migration.
    - [GcmCache]: crypto/aes.go (behind vault/encryptor.go): the cipher cache as
      steps of concurrent callers, encryption and key derivation.
    - [Progress]: simple/progress.go as steps of concurrent callers.
    - [Backup]: the constructor and [Run] of simple/pipeline.go, which compose
      the scan, the workers, the manifest files and the registry; [Reports]:
      what a run reports to its progress tracker.
    - [Interleave]: the calls of [processFile] by several workers on one store,
      each store operation being a step of its own.
    - [EndToEnd], [Incremental], [EndWorkers]: a backup run by one worker, with
      or without an earlier snapshot as its baseline, or by any number of
      interleaving workers, and the restore of what it left; [Cycle]: the
      whole run and the whole restore, from the repository on disk to the
      repository on disk; [History]: a repository over any number of runs,
      with backups and blobs removed in between.

    * What the theorems show

    - The whole program: [history_restorable]: after any number of backups of a
      source, each of the tree as it was then, whatever others do to the rest
      of the repository and of the store, and whichever backups were deleted
      or trashed and blobs that are no longer live were removed, a restore
      brings back any of the remaining ones, by its second or as the latest;
      its invariant is the record [intact]. What the theorems on backups ask of
      the contents, the key and the names is in the records [setting], [ready]
      and [next] and in [portable] and [restorable_names]: among others that
      nothing stored starts with the zstd magic number, which
      [magic_content_lost] shows to be needed. [cycle_restores_tree]: on a repository that is ready (the
      record [ready]) a run gets through with a complete snapshot, saves and
      registers it, and a restore of the latest snapshot finds it and lays out
      the source tree. [workers_restore_tree], [backup_restore_tree] and
      [incremental_restore_tree]: whenever a run does succeed with a complete
      snapshot, full or incremental, however its workers interleave, restoring
      it to an empty directory gives the source tree. [run_records] says that
      every run leaves entries the next one can start from.
    - Formats: [decrypt_encrypt], [stream_roundtrip], [upload_path_roundtrip],
      [upload_download], [manifest_roundtrip] are the round trips;
      [stream_refines_decrypt] says the streaming decoder computes what the
      in-memory one does; [encrypt_total], [gb3_header_valid],
      [newSmallBlobIV_spec], [decrypt_ambiguous_small],
      [decrypt_rejects_trailing] fix sizes, headers, nonces and the error
      branches.
    - Store: [local_store_refines_map] refines the local store to a map in
      which the first put wins; [local_put_atomic] and [write_file_atomic] hold
      under every schedule of faults and crashes; [list_exact],
      [warm_cache_exact] and the lemma [wp_ExistsBatch] characterise the queries;
      [concurrent_puts_safe], [disk_integrity], [put_mutual_exclusion]
      hold in every interleaving; [local_store_conforms]: the conformance
      suite passes.
    - Downloads: [download_integrity] and [download_to_file_safe]: nothing with
      a wrong hash is returned or put in place, whatever the store and the disk
      do.
    - Restore: [safe_restore_confined] and [link_checker_exact] for paths;
      [restore_confined]: no manifest, store or concurrent process makes a
      restore change a protected inode; [secure_path_refuses_links];
      [restore_file_exact]: what is restored is verified, and is restored when
      the blobs are there; [restore_refines_tree]: on a quiet disk the restore
      implements a specification on abstract trees; [run_restores_newest]: the
      whole run restores the newest manifest that loads.
    - Manifest: [addfile_keeps_valid], [addemptydir_keeps_valid],
      [manifest_build_exact], [find_added], [validate_exact],
      [flextime_units].
    - Manifest files: [save_load_manifest] is the round trip through the disk,
      encrypted or not; [save_manifest_no_clobber] holds under every schedule
      of faults; [hook_decides_loading] is the effect of registering and
      clearing the hook; [load_latest_newest] says which manifest is the latest;
      [cloudid_confined] and [structured_cloudid_injective] keep the
      directories of different sources below the root and apart.
    - Backup of a file: [process_file_restorable]: a reported entry names blobs
      that are in the store and give the content back;
      [backup_restore_roundtrip] composes it with the restore of that entry;
      [interleaved_uploads] and [interleaving_ends]: this holds in every
      interleaving of several such calls, and every interleaving ends with all
      of them returned.
    - Backup run: [scan_exact] and [dirs_recorded] for the walk;
      [pool_refines_loop], [pool_returns], [pool_counts] for the workers in
      every interleaving; [run_snapshot] and [run_refuses_incomplete] for the
      whole run.
    - Ignore rules: [excluded_exact], [extension_exact],
      [size_filter_roundtrip], [skip_dir_sound], [match_pattern_total].
    - Registry and configuration: [registry_save_load],
      [registry_update_keeps], [registries_listed], [cdc_polynomial_stable],
      [init_once].
    - Keys: [gek1_roundtrip], [init_password_wraps], and [migrate_keeps_key]
      under every schedule of faults; [gcm_cache_transparent] and
      [gcm_cache_returns] in every interleaving, [vault_roundtrip].
    - Progress, buffers and compression: [progress_exact], [run_reported] (what
      the tracker shows against the counters of the result), [buffers_exclusive],
      [compressor_roundtrip].
    - Keeping blobs: [live_hashes_complete]: whatever fails, no reference of a
      manifest that loads is left out silently; [list_manifests_exact] and
      [sources_listed] say what is listed.
    - Deleting: [trash_never_loses] under every schedule of faults and on any
      mounts; [trash_manifest_exact], [delete_manifest_exact],
      [clean_trash_exact] say what goes where.
    - Rate: [limiter_invariant], [rate_respected], [wait_terminates].
    - Behaviour worth knowing, proved as it is: [gb3_chunk_count_wraps],
      [stream_accepts_trailing], [shrunk_file_unreadable],
      [magic_content_lost], [stale_cache_loses_put], [blind_put_replaces],
      [stopped_limiter_blocks],
      [truncated_upload_accepted], [emptied_file_unrestorable],
      [resized_file_invalid], [reincluded_file_skipped],
      [newer_registry_overwritten], [legacy_source_unlisted],
      [capital_hash_unfetchable], [early_nanos_lost].

    * Modelling choices and bounds

    Wire integers and [int64] keep their width; Go [int] and lengths are
    mathematical integers (64-bit build). Loops whose count comes from a
    header run by structural recursion on that count, so no fuel is needed;
    [WaitN] runs over the list of its sleeps, with the 100 ms ticks that fall
    into each, and [wait_terminates] bounds how many are enough; the loops of [PipeFile] and the matcher of [Ignore]
    take fuel from the length of their input, which every iteration shortens
    ([match_pattern_total], and [process_file_restorable] covers every way
    through the former); the walk of [Trash] takes more than the length of
    any path, which [clean_trash_exact] shows to be enough. The source files
    of [PipeFile] may answer differently at every opening; the answers of
    the context are a list, one for each time it is asked. In [Pool] an
    upload is one step with any of its outcomes; in [Interleave] a call of
    [processFile] takes a step for each store operation: it is run again on
    the answers it has had so far, up to the first operation that has none.
    [UploadSpec] is what an upload needs of a store, which the contract of a
    store gives to a caller alone and the true answers of a shared store give
    to each of its callers. Random bytes are a finite
    supply that is threaded through; running out is a failing [rand.Read]. A
    hash in progress is the list of bytes written to it. System calls take
    their failures from a schedule; a schedule that fails from some point on
    is a crash. In [FS] a write is on the disk once it returns
    ([fsync] may fail but is not what makes it durable), directories are
    implied by the files below them and [ENOENT] is never spurious; in [SecureDir] they are inodes. Successive
    writes of one streaming pass into a fresh temporary file are combined
    into one, and the content such a file is left with after a failed pass
    is not tracked. Case mapping is ASCII. Error texts are dropped, error
    sites are constructors.

    * Not modelled

    The Windows variants (Win32 calls); log messages, durations and the
    progress reports of a restore; the third-party chunker, which is a
    parameter; the demo command and the release tools. [Run] has neither the
    calls to the progress tracker nor the warming of the store's cache in it:
    the tracker is only written by a run, and [warm_sane] shows that a store
    is right for the uploads after the warming when it was before. *)

From stdpp Require Import base gmap strings list numbers.
From Stdlib Require Import ZArith Lia.
From Stdlib.Strings Require Import Byte.

Local Open Scope Z_scope.

(** * Results: a Go [(value, error)] pair, of which exactly one is meaningful. *)

Inductive result (E A : Type) : Type :=
| Ok (a : A)
| Err (e : E).
Arguments Ok {E A} a.
Arguments Err {E A} e.

#[export] Instance result_ret E : MRet (result E) := fun A a => Ok a.
#[export] Instance result_bind E : MBind (result E) :=
  fun A B f m => match m with Ok a => f a | Err e => Err e end.

Definition is_ok {E A} (r : result E A) : bool :=
  match r with Ok _ => true | Err _ => false end.

#[export] Instance result_eq_dec {E A} `{!EqDecision E, !EqDecision A} :
  EqDecision (result E A).
Proof. solve_decision. Defined.

Lemma bind_ok_inv {E A B} (f : A -> result E B) m b :
  (m ≫= f) = Ok b -> exists a, m = Ok a /\ f a = Ok b.
Proof. destruct m; cbn; intros H; [eauto | discriminate]. Qed.

(** Inversion of a returned pair that keeps its components as written. *)
Lemma ok_pair_inv {E A B} (a c : A) (b d : B) :
  (Ok (a, b) : result E (A * B)) = Ok (c, d) -> c = a /\ d = b.
Proof. by intros [= -> ->]. Qed.

Lemma ok_inv {E A} (a b : A) : (Ok a : result E A) = Ok b -> b = a.
Proof. by intros [= ->]. Qed.

(** * Bytes.  A Go [byte] is a value of the 256-element type [byte]; [b2z] is
    its unsigned value and [z2b] the conversion [byte(v)] (truncation mod 256). *)

Abbreviation bytes := (list byte).

Definition b2z (b : byte) : Z := Z.of_N (Byte.to_N b).

Definition z2b (z : Z) : byte :=
  match Byte.of_N (Z.to_N (z mod 256)) with Some b => b | None => x00 end.

#[export] Instance byte_eq_dec : EqDecision byte := Byte.byte_eq_dec.

Lemma b2z_range b : 0 <= b2z b < 256.
Proof. unfold b2z. pose proof (Byte.to_N_bounded b). lia. Qed.

Lemma z2b_b2z b : z2b (b2z b) = b.
Proof.
  unfold z2b. rewrite Z.mod_small by apply b2z_range.
  unfold b2z. by rewrite N2Z.id, Byte.of_to_N.
Qed.

Lemma b2z_z2b z : b2z (z2b z) = z mod 256.
Proof.
  unfold z2b. pose proof (Z.mod_pos_bound z 256 ltac:(lia)) as Hb.
  destruct (Byte.of_N (Z.to_N (z mod 256))) as [b|] eqn:E.
  - apply Byte.to_of_N in E. unfold b2z. rewrite E. lia.
  - apply Byte.of_N_None_iff in E. lia.
Qed.

Lemma b2z_inj b1 b2 : b2z b1 = b2z b2 -> b1 = b2.
Proof. intros H. by rewrite <- (z2b_b2z b1), H, z2b_b2z. Qed.

(** [len(data)] of a byte slice, as a Go [int]. *)
Definition blen (l : bytes) : Z := Z.of_nat (length l).

(** [data[:n]], [data[n:]] and [data[a:b]]. *)
Definition upto (n : Z) (l : bytes) : bytes := take (Z.to_nat n) l.
Definition from (n : Z) (l : bytes) : bytes := drop (Z.to_nat n) l.
Definition slice (a b : Z) (l : bytes) : bytes := upto (b - a) (from a l).

Lemma blen_app a b : blen (a ++ b) = blen a + blen b.
Proof. unfold blen. rewrite length_app. lia. Qed.
Lemma blen_nonneg a : 0 <= blen a.
Proof. unfold blen. lia. Qed.
Lemma blen_nil : blen [] = 0. Proof. done. Qed.
Lemma blen_zero a : blen a = 0 -> a = [].
Proof. unfold blen. destruct a; [done | cbn; lia]. Qed.
Lemma blen_upto n l : 0 <= n <= blen l -> blen (upto n l) = n.
Proof. unfold blen, upto. rewrite length_take. lia. Qed.
Lemma blen_upto_min n l : 0 <= n -> blen (upto n l) = Z.min n (blen l).
Proof. unfold blen, upto. rewrite length_take. lia. Qed.
Lemma blen_from n l : 0 <= n <= blen l -> blen (from n l) = blen l - n.
Proof. unfold blen, from. rewrite length_drop. lia. Qed.
Lemma upto_app n a b : n = blen a -> upto n (a ++ b) = a.
Proof. intros ->. unfold upto, blen. rewrite Nat2Z.id. apply take_app_length. Qed.
Lemma from_app n a b : n = blen a -> from n (a ++ b) = b.
Proof. intros ->. unfold from, blen. rewrite Nat2Z.id. apply drop_app_length. Qed.
Lemma upto_app_le n a b : 0 <= n <= blen a -> upto n (a ++ b) = upto n a.
Proof. intros. unfold upto, blen in *. by rewrite take_app_le by lia. Qed.
Lemma from_app_le n a b : 0 <= n <= blen a -> from n (a ++ b) = from n a ++ b.
Proof. intros. unfold from, blen in *. by rewrite drop_app_le by lia. Qed.
Lemma upto_upto m n (l : bytes) : 0 <= m <= n -> upto m (upto n l) = upto m l.
Proof. intros. unfold upto. rewrite take_take. f_equal. lia. Qed.
Lemma upto_all n a : blen a <= n -> upto n a = a.
Proof. intros. unfold upto, blen in *. apply take_ge. lia. Qed.
Lemma from_all n a : blen a <= n -> from n a = [].
Proof. intros. unfold from, blen in *. apply drop_ge. lia. Qed.
Lemma upto_from n a : upto n a ++ from n a = a.
Proof. apply take_drop. Qed.
Lemma from_from m n l : 0 <= m -> 0 <= n -> from m (from n l) = from (n + m) l.
Proof. intros. unfold from. rewrite drop_drop. f_equal. lia. Qed.
Lemma from_0 l : from 0 l = l. Proof. done. Qed.

(** * Machine integers *)

(** Two's complement [int64]. *)
Definition int64 (z : Z) : Z := (z + 2 ^ 63) mod 2 ^ 64 - 2 ^ 63.

Lemma int64_small z : - 2 ^ 63 <= z < 2 ^ 63 -> int64 z = z.
Proof. intros H. unfold int64. rewrite Z.mod_small; lia. Qed.

Lemma int64_add a b : int64 (int64 a + b) = int64 (a + b).
Proof.
  unfold int64. f_equal.
  replace ((a + 2 ^ 63) mod 2 ^ 64 - 2 ^ 63 + b + 2 ^ 63) with ((a + 2 ^ 63) mod 2 ^ 64 + b) by lia.
  rewrite Zplus_mod_idemp_l. f_equal. lia.
Qed.

(** * Big-endian integers ([encoding/binary], [binary.BigEndian]). *)

(** [PutUint16/32/64]: [n] bytes, most significant first, of [v] mod [2^(8n)]. *)
Fixpoint be_put (n : nat) (v : Z) : bytes :=
  match n with
  | O => []
  | S m => z2b (Z.shiftr v (8 * Z.of_nat m)) :: be_put m v
  end.

(** [Uint16/32/64] of the first bytes of a slice. *)
Definition be_get (l : bytes) : Z :=
  foldl (fun acc b => Z.lor (Z.shiftl acc 8) (b2z b)) 0 l.

Lemma length_be_put n v : length (be_put n v) = n.
Proof. induction n; cbn; congruence. Qed.
Lemma blen_be_put n v : blen (be_put n v) = Z.of_nat n.
Proof. unfold blen. by rewrite length_be_put. Qed.

Lemma lor_shiftl_byte a b : 0 <= b < 256 -> Z.lor (Z.shiftl a 8) b = a * 256 + b.
Proof.
  intros Hb. assert (Hl : Z.land (Z.shiftl a 8) b = 0).
  { apply Z.bits_inj'. intros i Hi. rewrite Z.land_spec, Z.bits_0.
    destruct (Z.ltb_spec i 8); [by rewrite Z.shiftl_spec_low by lia |].
    destruct (Z.eq_dec b 0) as [-> | ]; [by rewrite Z.bits_0, andb_false_r |].
    rewrite (Z.bits_above_log2 b i), andb_false_r; [done | lia |].
    apply Z.log2_lt_pow2; [lia |]. apply Z.lt_le_trans with (2 ^ 8); [lia |].
    apply Z.pow_le_mono_r; lia. }
  rewrite <- Z.lxor_lor, <- Z.add_nocarry_lxor by done. by rewrite Z.shiftl_mul_pow2 by lia.
Qed.

Lemma be_get_acc l acc :
  foldl (fun acc b => Z.lor (Z.shiftl acc 8) (b2z b)) acc l
  = acc * 256 ^ Z.of_nat (length l) + be_get l.
Proof.
  unfold be_get. revert acc. induction l as [|b l IH]; intros acc; cbn [foldl length].
  - rewrite Z.pow_0_r. lia.
  - rewrite (IH (Z.lor (Z.shiftl 0 8) _)), IH, !lor_shiftl_byte by apply b2z_range.
    rewrite Nat2Z.inj_succ, Z.pow_succ_r by lia. ring.
Qed.

Lemma be_get_cons b l : be_get (b :: l) = b2z b * 256 ^ Z.of_nat (length l) + be_get l.
Proof.
  unfold be_get at 1. cbn [foldl]. rewrite be_get_acc, lor_shiftl_byte by apply b2z_range. ring.
Qed.

Lemma be_get_range l : 0 <= be_get l < 256 ^ Z.of_nat (length l).
Proof.
  induction l as [|b l IH]; [cbn; lia |]. rewrite be_get_cons. cbn [length].
  rewrite Nat2Z.inj_succ, Z.pow_succ_r by lia. pose proof (b2z_range b). nia.
Qed.

Lemma be_get_put n v : be_get (be_put n v) = v mod 256 ^ Z.of_nat n.
Proof.
  induction n as [|n IH]; [cbn; by rewrite Z.mod_1_r |].
  cbn [be_put]. rewrite be_get_cons, length_be_put, IH, b2z_z2b, Z.shiftr_div_pow2 by lia.
  rewrite Nat2Z.inj_succ, Z.pow_succ_r, (Z.mul_comm 256) by lia.
  replace (2 ^ (8 * Z.of_nat n)) with (256 ^ Z.of_nat n)
    by (rewrite Z.pow_mul_r by lia; done).
  rewrite Z.rem_mul_r by (try apply Z.pow_nonzero; lia). ring.
Qed.

Lemma be_get_put_small n v : 0 <= v < 256 ^ Z.of_nat n -> be_get (be_put n v) = v.
Proof. intros. rewrite be_get_put. by apply Z.mod_small. Qed.

(** * Readers.  An [io.Reader] is the bytes it still has to deliver and whether
    it ends in a failure instead of [io.EOF]. *)

Record reader := Reader { rd_data : bytes; rd_fails : bool }.

Inductive rerr := EOF | ErrUnexpectedEOF | RdErr.

#[export] Instance rerr_eq_dec : EqDecision rerr.
Proof. solve_decision. Defined.

(** [io.ReadFull(r, buf)] with [len(buf) = n]: the bytes read, the error, and
    the reader afterwards. *)
Definition read_full (n : Z) (r : reader) : bytes * option rerr * reader :=
  if n <=? blen (rd_data r) then
    (upto n (rd_data r), None, Reader (from n (rd_data r)) (rd_fails r))
  else if rd_fails r then (rd_data r, Some RdErr, Reader [] true)
  else (rd_data r,
        Some (if bool_decide (rd_data r = []) then EOF else ErrUnexpectedEOF),
        Reader [] false).

(** [io.ReadAll(io.LimitReader(r, n))]: a failure is seen only when the reader
    fails before [n] bytes are delivered. *)
Definition read_all_limit (n : Z) (r : reader) : option bytes :=
  if rd_fails r && (blen (rd_data r) <? n) then None else Some (upto n (rd_data r)).

Lemma read_full_ok n a b :
  n = blen a -> read_full n (Reader (a ++ b) false) = (a, None, Reader b false).
Proof.
  intros ->. unfold read_full. cbn. rewrite blen_app, upto_app, from_app by done.
  destruct (Z.leb_spec (blen a) (blen a + blen b)); [done |].
  pose proof (blen_nonneg b). lia.
Qed.

Lemma read_all_limit_ok n d : blen d <= n -> read_all_limit n (Reader d false) = Some d.
Proof. intros. unfold read_all_limit. cbn. by rewrite upto_all. Qed.

(** * Shared automation. *)

Create HintDb gbf.
Create Rewrite HintDb gbf.
#[export] Hint Rewrite blen_app blen_nil blen_be_put : gbf.
#[export] Hint Resolve blen_nonneg b2z_range : gbf.

(** [go_if]: split the first [if] of the goal on its boolean condition, turning
    the comparisons into facts [lia] can use. *)
Ltac go_if :=
  match goal with
  | |- context [if Z.ltb ?a ?b then _ else _] => destruct (Z.ltb_spec a b)
  | |- context [if Z.leb ?a ?b then _ else _] => destruct (Z.leb_spec a b)
  | |- context [if Z.eqb ?a ?b then _ else _] => destruct (Z.eqb_spec a b)
  | |- context [if decide ?P then _ else _] => destruct (decide P)
  | |- context [if ?b then _ else _] => destruct b eqn:?
  end.

(** [blens]: normalise lengths and close with [lia]. *)
Ltac blens :=
  autorewrite with gbf in *;
  repeat match goal with
  | |- context [blen ?l] =>
      lazymatch goal with
      | _ : 0 <= blen l |- _ => fail
      | _ => pose proof (blen_nonneg l)
      end
  end; lia.

(** * Effects.  Stateful, fallible code is a function from a state to a result
    and the state left behind; the state survives an error. *)

Definition eff (S E A : Type) : Type := S -> result E A * S.

#[export] Instance eff_ret S E : MRet (eff S E) := fun A a s => (Ok a, s).
#[export] Instance eff_bind S E : MBind (eff S E) :=
  fun A B f m s => match m s with (Ok a, s') => f a s' | (Err e, s') => (Err e, s') end.

Definition throw {S E A} (e : E) : eff S E A := fun s => (Err e, s).
Definition gets {S E A} (f : S -> A) : eff S E A := fun s => (Ok (f s), s).
Definition modify {S E} (f : S -> S) : eff S E unit := fun s => (Ok tt, f s).

(** [r, err := m()]: the outcome as a value, so that the caller can look at the
    error or drop it. *)
Definition attempt {S E E' A} (m : eff S E A) : eff S E' (result E A) :=
  fun s => let '(r, s') := m s in (Ok r, s').

(** [if err != nil { return wrap(err) }]. *)
Definition wrap_err {S E E' A} (f : E -> E') (m : eff S E A) : eff S E' A :=
  fun s => let '(r, s') := m s in
    (match r with Ok a => Ok a | Err e => Err (f e) end, s').

(** A pure outcome inside an effect. *)
Definition of_result {S E A} (r : result E A) : eff S E A := fun s => (r, s).

(** A component's effect run on the part of a larger state it owns. *)
Definition zoom {S T E A} (get : T -> S) (put : S -> T -> T) (m : eff S E A) : eff T E A :=
  fun t => let '(r, s') := m (get t) in (r, put s' t).

(** Weakest precondition: [Q] holds of what [m] returns and leaves from [s]. *)
Definition wp {S E A} (m : eff S E A) (Q : result E A -> S -> Prop) (s : S) : Prop :=
  Q (m s).1 (m s).2.

Lemma wp_bind {S E A B} (m : eff S E A) (f : A -> eff S E B) Q s :
  wp m (fun r s' => match r with Ok a => wp (f a) Q s' | Err e => Q (Err e) s' end) s ->
  wp (m ≫= f) Q s.
Proof. unfold wp, mbind, eff_bind. by destruct (m s) as [[a|e] s']. Qed.

Lemma wp_mono {S E A} (m : eff S E A) (P Q : result E A -> S -> Prop) s :
  wp m P s -> (forall r s', P r s' -> Q r s') -> wp m Q s.
Proof. unfold wp. auto. Qed.

Lemma wp_and {S E A} (m : eff S E A) (Q R : result E A -> S -> Prop) s : wp m Q s -> wp m R s -> wp m (fun r s' => Q r s' /\ R r s') s.
Proof. by split. Qed.

Lemma wp_ret {S E A} (a : A) (Q : result E A -> S -> Prop) s : Q (Ok a) s -> wp (mret a) Q s.
Proof. done. Qed.

Lemma wp_throw {S E A} (e : E) (Q : result E A -> S -> Prop) s : Q (Err e) s -> wp (throw e) Q s.
Proof. done. Qed.

Lemma wp_gets {S E A} (f : S -> A) (Q : result E A -> S -> Prop) s : Q (Ok (f s)) s -> wp (gets f) Q s.
Proof. done. Qed.

Lemma wp_modify {S E} f (Q : result E unit -> S -> Prop) s : Q (Ok tt) (f s) -> wp (modify f) Q s.
Proof. done. Qed.

Lemma wp_attempt {S E E' A} (m : eff S E A) (Q : result E' (result E A) -> S -> Prop) s :
  wp m (fun r s' => Q (Ok r) s') s -> wp (attempt m) Q s.
Proof. unfold wp, attempt. by destruct (m s). Qed.

Lemma wp_wrap_err {S E E' A} (f : E -> E') (m : eff S E A) Q s :
  wp m (fun r s' => Q (match r with Ok a => Ok a | Err e => Err (f e) end) s') s -> wp (wrap_err f m) Q s.
Proof. unfold wp, wrap_err. by destruct (m s). Qed.

Lemma wp_of_result {S E A} (r : result E A) Q (s : S) : Q r s -> wp (of_result r) Q s.
Proof. done. Qed.

Lemma wp_zoom {S T E A} (get : T -> S) put (m : eff S E A) Q t :
  wp m (fun r s' => Q r (put s' t)) (get t) -> wp (zoom get put m) Q t.
Proof. unfold wp, zoom. by destruct (m (get t)). Qed.

(** [wp_step]: one step of symbolic execution. *)
Ltac wp_step :=
  lazymatch goal with
  | |- wp (mbind _ _) _ _ => apply wp_bind
  | |- wp (mret _) _ _ => apply wp_ret
  | |- wp (throw _) _ _ => apply wp_throw
  | |- wp (gets _) _ _ => apply wp_gets
  | |- wp (modify _) _ _ => apply wp_modify
  | |- wp (attempt _) _ _ => apply wp_attempt
  | |- wp (wrap_err _ _) _ _ => apply wp_wrap_err
  | |- wp (of_result _) _ _ => apply wp_of_result
  | |- wp (zoom _ _ _) _ _ => apply wp_zoom
  end.
Ltac wp_steps := repeat (wp_step; cbn beta iota).

(** Changing one element changes a sum by the difference. *)
Lemma sum_insert {A} (f : A -> nat) l : forall i x y, l !! i = Some x ->
  (sum_list_with f (<[i := y]> l) + f x = sum_list_with f l + f y)%nat.
Proof.
  induction l as [|a l IH]; intros [|i] x y E; cbn in *; simplify_eq; [lia |]. specialize (IH _ _ y E). rewrite <- !Nat.add_assoc. f_equal. exact IH.
Qed.

(** [by_decide]: prove a closed decidable proposition by evaluation. *)
Ltac by_decide := apply (bool_decide_unpack _); vm_compute; exact I.
