(* ===== verification/GoStr.v ===== *)
(** GoStr: the parts of Go's [strings], [strconv], [encoding/hex] and
    [path/filepath] (Unix build) that the engine uses.

    A Go [string] is a byte sequence, so it is a [list byte] here; [go "..."]
    turns a literal into one. *)

From S2P Require Import Prelude.
From stdpp Require Import base list countable gmap strings.
From Stdlib.Strings Require Import Byte.
Local Open Scope Z_scope.

Definition go (s : string) : bytes := String.list_byte_of_string s.

#[export] Instance byte_countable : Countable byte.
Proof.
  refine (inj_countable' Byte.to_N (fun n => match Byte.of_N n with Some b => b | None => x00 end) _).
  intros b. by rewrite Byte.of_to_N.
Defined.

Definition slash : byte := x2f.
Definition backslash : byte := x5c.
Definition dot : byte := x2e.
Definition colon : byte := x3a.

(** ** strings *)

Definition eqs (a b : bytes) : bool := bool_decide (a = b).

Definition HasPrefix (s p : bytes) : bool := bool_decide (p `prefix_of` s).
Definition HasSuffix (s p : bytes) : bool := bool_decide (p `suffix_of` s).
Definition TrimPrefix (s p : bytes) : bytes := if HasPrefix s p then drop (length p) s else s.
Definition TrimSuffix (s p : bytes) : bytes :=
  if HasSuffix s p then take (length s - length p) s else s.

Fixpoint Contains (s sub : bytes) : bool :=
  HasPrefix s sub || match s with [] => false | _ :: s' => Contains s' sub end.

Definition ContainsByte (s : bytes) (c : byte) : bool := bool_decide (c ∈ s).
Definition ContainsAny (s chars : bytes) : bool := existsb (fun c => bool_decide (c ∈ chars)) s.

(** [strings.IndexByte] and [strings.LastIndexByte]; [None] is -1. *)
Fixpoint IndexByte (s : bytes) (c : byte) : option nat :=
  match s with
  | [] => None
  | b :: s' => if bool_decide (b = c) then Some O else S <$> IndexByte s' c
  end.

Fixpoint LastIndexByte (s : bytes) (c : byte) : option nat :=
  match s with
  | [] => None
  | b :: s' =>
      match LastIndexByte s' c with
      | Some i => Some (S i)
      | None => if bool_decide (b = c) then Some O else None
      end
  end.

(** [strings.Index(s, sub)]. *)
Fixpoint Index (s sub : bytes) : option nat :=
  if HasPrefix s sub then Some O
  else match s with [] => None | _ :: s' => S <$> Index s' sub end.

(** [strings.Split(s, "c")] for a one-byte separator. *)
Fixpoint Split (c : byte) (s : bytes) : list bytes :=
  match s with
  | [] => [[]]
  | b :: s' =>
      if bool_decide (b = c) then [] :: Split c s'
      else match Split c s' with
           | h :: t => (b :: h) :: t
           | [] => [[b]]
           end
  end.

Fixpoint Join (sep : bytes) (l : list bytes) : bytes :=
  match l with
  | [] => []
  | [s] => s
  | s :: l' => s ++ sep ++ Join sep l'
  end.

Definition is_upper (b : byte) : bool := (65 <=? b2z b) && (b2z b <=? 90).
Definition is_lower (b : byte) : bool := (97 <=? b2z b) && (b2z b <=? 122).
Definition is_alpha (b : byte) : bool := is_upper b || is_lower b.
Definition is_digit (b : byte) : bool := (48 <=? b2z b) && (b2z b <=? 57).

(** ASCII case mapping. *)
Definition ToUpper (s : bytes) : bytes := (fun b => if is_lower b then z2b (b2z b - 32) else b) <$> s.
Definition ToLower (s : bytes) : bytes := (fun b => if is_upper b then z2b (b2z b + 32) else b) <$> s.

Definition TrimRight (s cutset : bytes) : bytes :=
  reverse ((fix go (l : bytes) := match l with
    | b :: l' => if bool_decide (b ∈ cutset) then go l' else l | [] => [] end) (reverse s)).

(** The UTF-8 encodings of the characters [unicode.IsSpace] accepts. *)
Definition spaces : list bytes :=
  [[x09]; [x0a]; [x0b]; [x0c]; [x0d]; [x20]; [xc2; x85]; [xc2; xa0]; [xe1; x9a; x80];
   [xe2; x80; x80]; [xe2; x80; x81]; [xe2; x80; x82]; [xe2; x80; x83]; [xe2; x80; x84];
   [xe2; x80; x85]; [xe2; x80; x86]; [xe2; x80; x87]; [xe2; x80; x88]; [xe2; x80; x89];
   [xe2; x80; x8a]; [xe2; x80; xa8]; [xe2; x80; xa9]; [xe2; x80; xaf]; [xe2; x81; x9f];
   [xe3; x80; x80]].

Fixpoint trim_left (fuel : nat) (s : bytes) : bytes :=
  match fuel with
  | O => s
  | S f => match list_find (fun p => p `prefix_of` s) spaces with
           | Some (_, p) => trim_left f (drop (length p) s)
           | None => s
           end
  end.
Fixpoint trim_right (fuel : nat) (s : bytes) : bytes :=
  match fuel with
  | O => s
  | S f => match list_find (fun p => p `suffix_of` s) spaces with
           | Some (_, p) => trim_right f (take (length s - length p) s)
           | None => s
           end
  end.
(** Every step removes at least one byte, so the length is enough fuel. *)
Definition TrimSpace (s : bytes) : bytes := trim_right (length s) (trim_left (length s) s).

(** ** hex and decimal *)

Definition hex_digit (n : Z) : byte := if n <? 10 then z2b (48 + n) else z2b (87 + n).
Definition hex_encode (l : bytes) : bytes :=
  concat ((fun b => [hex_digit (b2z b / 16); hex_digit (b2z b mod 16)]) <$> l).

(** Decimal digits of [n], most significant first; 20 digits cover 64 bits. *)
Fixpoint digits (fuel : nat) (n : Z) (acc : bytes) : bytes :=
  match fuel with
  | O => acc
  | S f => let acc' := z2b (48 + n mod 10) :: acc in if n <? 10 then acc' else digits f (n / 10) acc'
  end.

(** [strconv.FormatInt(z, 10)] and [fmt.Sprintf("%d", z)]. *)
Definition FormatInt (z : Z) : bytes := if z <? 0 then x2d :: digits 20 (- z) [] else digits 20 z [].

Fixpoint parse_digits (acc : Z) (s : bytes) : option Z :=
  match s with
  | [] => Some acc
  | b :: s' => if is_digit b then parse_digits (acc * 10 + (b2z b - 48)) s' else None
  end.

Definition MaxInt64 : Z := 2 ^ 63 - 1.
Definition MinInt64 : Z := - 2 ^ 63.

(** [strconv.ParseInt(s, 10, 64)]. *)
Definition ParseInt (s : bytes) : option Z :=
  let '(neg, d) := match s with
    | b :: s' => if bool_decide (b = x2d) then (true, s')
                 else if bool_decide (b = x2b) then (false, s') else (false, s)
    | [] => (false, []) end in
  match d with
  | [] => None
  | _ => match parse_digits 0 d with
         | Some n => let z := if neg : bool then - n else n in
                     if (MinInt64 <=? z) && (z <=? MaxInt64) then Some z else None
         | None => None
         end
  end.

(** ** filepath (Unix) *)

Definition s_dot : bytes := [dot].
Definition s_dotdot : bytes := [dot; dot].
Definition s_slash : bytes := [slash].

(** One step of [filepath.Clean] on the reversed list of kept segments. *)
Definition clean_step (rooted : bool) (st : list bytes) (seg : bytes) : list bytes :=
  if eqs seg [] || eqs seg s_dot then st
  else if eqs seg s_dotdot then
    match st with
    | top :: st' => if eqs top s_dotdot then seg :: st else st'
    | [] => if rooted then [] else [seg]
    end
  else seg :: st.

Definition clean_segs (rooted : bool) (segs : list bytes) : list bytes :=
  reverse (foldl (clean_step rooted) [] segs).

Definition IsAbs (p : bytes) : bool := HasPrefix p s_slash.

Definition Clean (p : bytes) : bytes :=
  let r := Join s_slash (clean_segs (IsAbs p) (Split slash p)) in
  if IsAbs p then slash :: r else if eqs r [] then s_dot else r.

(** [filepath.Join]: empty elements are dropped. *)
Definition FpJoin (elems : list bytes) : bytes :=
  match filter (fun e => e <> []) elems with
  | [] => []
  | l => Clean (Join s_slash l)
  end.

(** [filepath.Dir] and [filepath.Base] of a path. *)
Definition Dir (p : bytes) : bytes :=
  match LastIndexByte p slash with
  | Some i => Clean (take (S i) p)
  | None => s_dot
  end.

Definition Base (p : bytes) : bytes :=
  let p' := TrimRight p s_slash in
  match p, p' with
  | [], _ => s_dot
  | _, [] => s_slash
  | _, _ => match LastIndexByte p' slash with Some i => drop (S i) p' | None => p' end
  end.

(** The segments of a cleaned absolute path. *)
Definition abs_segs (p : bytes) : list bytes := clean_segs true (Split slash p).

Fixpoint strip_common (a b : list bytes) : list bytes * list bytes :=
  match a, b with
  | x :: a', y :: b' => if eqs x y then strip_common a' b' else (a, b)
  | _, _ => (a, b)
  end.

(** [filepath.Rel] of two absolute paths. *)
Definition RelAbs (base targ : bytes) : bytes :=
  let '(b, t) := strip_common (abs_segs base) (abs_segs targ) in
  match replicate (length b) s_dotdot ++ t with
  | [] => s_dot
  | l => Join s_slash l
  end.

(** * Facts *)

Lemma eqs_true a b : eqs a b = true <-> a = b.
Proof. apply bool_decide_eq_true. Qed.
Lemma eqs_false a b : eqs a b = false <-> a <> b.
Proof. apply bool_decide_eq_false. Qed.
Lemma eqs_refl a : eqs a a = true.
Proof. by apply eqs_true. Qed.

(** ** Split and Join *)

Lemma Split_nonempty c s : Split c s <> [].
Proof. destruct s; cbn; [done |]. case_bool_decide; [done |]. by destruct (Split c s). Qed.

Lemma Split_no_sep c s seg : seg ∈ Split c s -> c ∉ seg.
Proof.
  revert seg. induction s as [|b s IH]; intros seg; cbn.
  { intros ->%list_elem_of_singleton. apply not_elem_of_nil. }
  case_bool_decide as Hb.
  - intros [-> | H]%elem_of_cons; [apply not_elem_of_nil | auto].
  - destruct (Split c s) as [|h t] eqn:E; [by destruct (Split_nonempty c s) |].
    intros [-> | H]%elem_of_cons.
    + rewrite elem_of_cons. intros [-> | Hc]; [done |]. apply (IH h); [apply elem_of_cons; auto | done].
    + apply IH, elem_of_cons. auto.
Qed.

Lemma Split_cons_app c h t s : Split c s = h :: t -> forall p, c ∉ p -> Split c (p ++ s) = (p ++ h) :: t.
Proof.
  intros Hs p. induction p as [|b p IH]; intros Hp; [done |].
  apply not_elem_of_cons in Hp as [Hb Hp]. cbn. rewrite bool_decide_false by congruence.
  by rewrite IH.
Qed.

Lemma Split_single c p : c ∉ p -> Split c p = [p].
Proof. intros H. rewrite <- (app_nil_r p) at 1. by rewrite (Split_cons_app c [] []) by done; rewrite app_nil_r. Qed.

Lemma Split_app c p s : c ∉ p -> Split c (p ++ c :: s) = p :: Split c s.
Proof.
  intros H. rewrite (Split_cons_app c [] (Split c s)); [by rewrite app_nil_r | | done].
  cbn. by rewrite bool_decide_true.
Qed.

(** Splitting is inverse to joining segments without the separator. *)
Lemma Split_Join c l : l <> [] -> Forall (fun s => c ∉ s) l -> Split c (Join [c] l) = l.
Proof.
  intros Hne Hf. induction Hf as [|s l Hs Hf IH]; [done |].
  destruct l as [|s2 l]; [by apply Split_single |].
  change (Join [c] (s :: s2 :: l)) with (s ++ c :: Join [c] (s2 :: l)).
  rewrite Split_app by done. by rewrite IH.
Qed.

Lemma Join_Split c s : Join [c] (Split c s) = s.
Proof.
  induction s as [|b s IH]; [done |]. cbn [Split]. case_bool_decide as Hb.
  - subst. destruct (Split c s) as [|h t] eqn:E; [by destruct (Split_nonempty c s) |].
    change (Join [c] ([] :: h :: t)) with (c :: Join [c] (h :: t)). by rewrite IH.
  - destruct (Split c s) as [|h t] eqn:E; [by destruct (Split_nonempty c s) |].
    rewrite <- IH. by destruct t.
Qed.

Lemma Join_snoc c l s : l <> [] -> Join [c] (l ++ [s]) = Join [c] l ++ c :: s.
Proof.
  induction l as [|x l IH]; [done |]. intros _. destruct l as [|y l]; [done |].
  change (Join [c] ((x :: y :: l) ++ [s])) with (x ++ c :: Join [c] ((y :: l) ++ [s])).
  rewrite IH by done. change (Join [c] (x :: y :: l)) with (x ++ c :: Join [c] (y :: l)).
  by rewrite <- app_assoc.
Qed.

(** ** Last separator *)

Lemma LastIndexByte_None s c : LastIndexByte s c = None -> c ∉ s.
Proof.
  induction s as [|b s IH]; cbn; [intros; apply not_elem_of_nil |].
  destruct (LastIndexByte s c); [done |]. case_bool_decide; [done |].
  intros _. apply not_elem_of_cons. split; [congruence | auto].
Qed.

Lemma LastIndexByte_app p c s : c ∉ s -> LastIndexByte (p ++ c :: s) c = Some (length p).
Proof.
  intros Hs. induction p as [|b p IH]; cbn.
  - assert (LastIndexByte s c = None) as ->.
    { clear -Hs. induction s as [|b s IH]; [done |]. apply not_elem_of_cons in Hs as [??]. cbn.
      rewrite IH by done. by rewrite bool_decide_false by congruence. }
    by rewrite bool_decide_true.
  - by rewrite IH.
Qed.

Lemma LastIndexByte_notin s c : c ∉ s -> LastIndexByte s c = None.
Proof.
  induction s as [|b s IH]; [done |]. intros [??]%not_elem_of_cons. cbn. rewrite IH by done.
  by rewrite bool_decide_false by congruence.
Qed.

(** ** Decimal round trip *)

Lemma is_digit_digit n : is_digit (z2b (48 + n mod 10)) = true /\ b2z (z2b (48 + n mod 10)) - 48 = n mod 10.
Proof.
  pose proof (Z.mod_pos_bound n 10 ltac:(lia)). unfold is_digit. rewrite b2z_z2b, Z.mod_small by lia.
  split; [|lia]. apply andb_true_iff. split; apply Z.leb_le; lia.
Qed.

Lemma parse_digits_digits fuel : forall n acc a,
  0 <= n < 10 ^ Z.of_nat fuel -> (fuel <> 0)%nat ->
  exists k, 0 <= k /\ parse_digits a (digits fuel n acc) = parse_digits (a * 10 ^ k + n) acc.
Proof.
  induction fuel as [|f IH]; intros n acc a Hn Hf; [done |]. cbn [digits].
  destruct (is_digit_digit n) as [Hd Hv].
  destruct (Z.ltb_spec n 10).
  - exists 1. split; [lia |]. cbn [parse_digits]. rewrite Hd, Hv. f_equal. rewrite Z.mod_small; lia.
  - assert (Hdiv : n / 10 < 10 ^ Z.of_nat f).
    { apply Z.div_lt_upper_bound; [lia |]. rewrite Nat2Z.inj_succ, Z.pow_succ_r in Hn by lia. lia. }
    destruct f as [|f']; [cbn in Hn; lia |].
    destruct (IH (n / 10) (z2b (48 + n mod 10) :: acc) a) as (k & Hk & ->);
      [split; [apply Z.div_pos; lia | done] | done |].
    exists (k + 1). split; [lia |]. cbn [parse_digits]. rewrite Hd, Hv. f_equal.
    rewrite Z.pow_add_r, Z.pow_1_r by lia. pose proof (Z.div_mod n 10 ltac:(lia)). lia.
Qed.

Lemma digits_head fuel : forall n acc, (fuel <> 0)%nat ->
  exists b l, digits fuel n acc = b :: l /\ is_digit b = true.
Proof.
  induction fuel as [|f IH]; intros n acc Hf; [done |]. cbn [digits].
  destruct (is_digit_digit n) as [Hd _].
  destruct (n <? 10); [eauto |]. destruct f; [cbn; eauto |]. by apply IH.
Qed.

Lemma ParseInt_FormatInt z : MinInt64 <= z <= MaxInt64 -> ParseInt (FormatInt z) = Some z.
Proof.
  intros Hz. unfold MinInt64, MaxInt64 in Hz. unfold FormatInt, ParseInt.
  assert (Hb : forall m, 0 <= m <= 2 ^ 63 ->
    exists b l, digits 20 m [] = b :: l /\ is_digit b = true /\ parse_digits 0 (b :: l) = Some m).
  { intros m Hm. destruct (digits_head 20 m [] ltac:(done)) as (b & l & E & Hd). exists b, l.
    split; [done |]. split; [done |]. rewrite <- E.
    destruct (parse_digits_digits 20 m [] 0) as (k & _ & ->); [cbn; lia | done |]. done. }
  destruct (Z.ltb_spec z 0).
  - destruct (Hb (- z) ltac:(lia)) as (b & l & E & _ & Hp). rewrite E, bool_decide_true, Hp by done.
    rewrite Z.opp_involutive. unfold MinInt64, MaxInt64.
    destruct (Z.leb_spec (- 2 ^ 63) z), (Z.leb_spec z (2 ^ 63 - 1)); done || lia.
  - destruct (Hb z ltac:(lia)) as (b & l & E & Hd & Hp). rewrite E.
    rewrite !bool_decide_false by (intros ->; done). rewrite Hp. unfold MinInt64, MaxInt64.
    destruct (Z.leb_spec (- 2 ^ 63) z), (Z.leb_spec z (2 ^ 63 - 1)); done || lia.
Qed.

Lemma digits_no_us fuel : forall n acc c, is_digit c = false -> c ∉ acc -> c ∉ digits fuel n acc.
Proof.
  induction fuel as [|f IH]; intros n acc c Hc Ha; cbn [digits]; [done |].
  destruct (is_digit_digit n) as [Hd _].
  assert (c ∉ z2b (48 + n mod 10) :: acc) by (apply not_elem_of_cons; split; [congruence | done]).
  destruct (n <? 10); [done |]. by apply IH.
Qed.

(** ** Hex *)

Lemma hex_encode_len l : length (hex_encode l) = (2 * length l)%nat.
Proof. unfold hex_encode. induction l as [|b l IH]; cbn [fmap list_fmap concat app length]; [done | rewrite IH; lia]. Qed.

Definition is_hex_lower (c : byte) : bool :=
  negb (((b2z c <? 48) || (57 <? b2z c)) && ((b2z c <? 97) || (102 <? b2z c))).

Lemma hex_digit_lower n : 0 <= n < 16 -> is_hex_lower (hex_digit n) = true.
Proof.
  intros H. unfold is_hex_lower, hex_digit. destruct (Z.ltb_spec n 10); rewrite b2z_z2b, Z.mod_small by lia.
  - destruct (Z.ltb_spec (48 + n) 48), (Z.ltb_spec 57 (48 + n)); try lia; done.
  - destruct (Z.ltb_spec (87 + n) 97), (Z.ltb_spec 102 (87 + n)); try lia; by rewrite ?andb_false_r.
Qed.

Lemma hex_encode_lower l : Forall (fun c => is_hex_lower c = true) (hex_encode l).
Proof.
  unfold hex_encode. induction l as [|b l IH]; cbn; [constructor |]. pose proof (b2z_range b).
  repeat constructor; [apply hex_digit_lower .. | done].
  - split; [apply Z.div_pos; lia | apply Z.div_lt_upper_bound; lia].
  - apply Z.mod_pos_bound. lia.
Qed.

Lemma hex_digit_inj m n : 0 <= m < 16 -> 0 <= n < 16 -> hex_digit m = hex_digit n -> m = n.
Proof.
  intros Hm Hn H. apply (f_equal b2z) in H. unfold hex_digit in H.
  destruct (Z.ltb_spec m 10), (Z.ltb_spec n 10); rewrite !b2z_z2b, !Z.mod_small in H by lia; lia.
Qed.

Lemma hex_encode_inj a b : hex_encode a = hex_encode b -> a = b.
Proof.
  revert b. induction a as [|x a IH]; intros [|y b]; unfold hex_encode; cbn; try done.
  intros [= H1 H2 H3]. pose proof (b2z_range x). pose proof (b2z_range y).
  apply hex_digit_inj in H1; [| split; [apply Z.div_pos; lia | apply Z.div_lt_upper_bound; lia] ..].
  apply hex_digit_inj in H2; [| apply Z.mod_pos_bound; lia ..].
  f_equal; [|by apply IH]. apply b2z_inj.
  pose proof (Z.div_mod (b2z x) 16 ltac:(lia)). pose proof (Z.div_mod (b2z y) 16 ltac:(lia)). lia.
Qed.

(** ** First occurrences *)

(** A loop with a [seen] map that keeps the first occurrence of each string. *)
Fixpoint uniq (seen : gset bytes) (l : list bytes) : list bytes :=
  match l with
  | [] => []
  | x :: l' => if bool_decide (x ∈ seen) then uniq seen l' else x :: uniq ({[x]} ∪ seen) l'
  end.

Lemma elem_of_uniq l : forall seen x, x ∈ uniq seen l <-> x ∈ l /\ x ∉ seen.
Proof.
  induction l as [|y l IH]; intros seen x; cbn [uniq]; [set_solver |]. case_bool_decide; rewrite ?elem_of_cons, IH; [set_solver |].
  destruct (decide (x = y)) as [->|]; set_solver.
Qed.

Lemma NoDup_uniq l : forall seen, NoDup (uniq seen l).
Proof.
  induction l as [|y l IH]; intros seen; cbn [uniq]; [constructor |]. case_bool_decide; [done |]. constructor; [|done].
  rewrite elem_of_uniq. set_solver.
Qed.

(** ** Joining normal path elements *)

Definition normal (s : bytes) : Prop := s <> [] /\ s <> s_dot /\ s <> s_dotdot /\ slash ∉ s.

Lemma Split_app_gen c a b : Split c (a ++ c :: b) = Split c a ++ Split c b.
Proof.
  induction a as [|x a IH]; cbn [Split app]; [by rewrite bool_decide_true |].
  case_bool_decide; [by rewrite IH |]. rewrite IH.
  by destruct (Split c a) eqn:E; [destruct (Split_nonempty c a) |].
Qed.

Lemma Join_app c l k : l <> [] -> k <> [] -> Join [c] (l ++ k) = Join [c] l ++ c :: Join [c] k.
Proof.
  induction l as [|x l IH]; [done |]. intros _ Hk. destruct l as [|y l].
  - destruct k; [done |]. done.
  - change (Join [c] ((x :: y :: l) ++ k)) with (x ++ c :: Join [c] ((y :: l) ++ k)).
    change (Join [c] (x :: y :: l)) with (x ++ c :: Join [c] (y :: l)).
    rewrite IH by done. by rewrite <- app_assoc.
Qed.

Lemma clean_step_normal r st s : normal s -> clean_step r st s = s :: st.
Proof.
  intros (H1 & H2 & H3 & _). unfold clean_step.
  by rewrite !(proj2 (eqs_false _ _)) by done.
Qed.

Lemma clean_segs_app r l k : Forall normal k -> clean_segs r (l ++ k) = clean_segs r l ++ k.
Proof.
  unfold clean_segs. rewrite foldl_app. generalize (foldl (clean_step r) [] l) as st.
  intros st Hk. revert st. induction Hk as [|s k Hs Hk IH]; intros st; cbn [foldl]; [by rewrite app_nil_r |].
  rewrite clean_step_normal, IH by done. rewrite reverse_cons. by rewrite <- app_assoc.
Qed.

(** The leading slash and the cleaned segments of a base directory. *)
Definition root_pre (base : bytes) : bytes := if IsAbs base then [slash] else [].
Definition root_segs (base : bytes) : list bytes :=
  if eqs base [] then [] else clean_segs (IsAbs base) (Split slash base).

Lemma normal_ne s : normal s -> s <> [].
Proof. by intros []. Qed.

Lemma filter_normal k : Forall normal k -> filter (fun e : bytes => e <> []) k = k.
Proof.
  induction 1 as [|s k Hs Hk IH]; [done |]. rewrite filter_cons_True by (by apply normal_ne). by rewrite IH.
Qed.

Lemma IsAbs_app b s : b <> [] -> IsAbs (b ++ s) = IsAbs b.
Proof.
  destruct b as [|x b]; [done |]. intros _. unfold IsAbs, HasPrefix. apply bool_decide_ext.
  split; intros [k Hk]; inversion Hk; subst; by eexists.
Qed.

Lemma IsAbs_cons x b : IsAbs (x :: b) = bool_decide (x = slash).
Proof.
  unfold IsAbs, HasPrefix. apply bool_decide_ext. split.
  - intros [k Hk]. by inversion Hk.
  - intros ->. by exists b.
Qed.

Lemma normal_noslash s : normal s -> slash ∉ s.
Proof. by intros (?&?&?&?). Qed.

Lemma Join_nonnil c l s : s ∈ l -> s <> [] -> Join [c] l <> [].
Proof.
  intros [l1 [l2 ->]]%list_elem_of_split Hs. destruct l1 as [|x l1].
  - destruct l2; cbn [app Join]; [done |]. by destruct s.
  - rewrite Join_app by done. by destruct (Join [c] (x :: l1)).
Qed.

(** Joining normal elements onto a base appends them to the cleaned base. *)
Lemma FpJoin_normal base k : k <> [] -> Forall normal k ->
  FpJoin (base :: k) = root_pre base ++ Join s_slash (root_segs base ++ k).
Proof.
  intros Hk Hf. unfold FpJoin, root_pre, root_segs.
  assert (Hsplit : Split slash (Join s_slash k) = k).
  { apply Split_Join; [done |]. eapply Forall_impl; [done |]. intros ?. apply normal_noslash. }
  assert (Hjn : forall l : list bytes, Join s_slash (l ++ k) <> []).
  { intros l. destruct k as [|s k]; [done |]. eapply Join_nonnil; [|apply normal_ne; by inversion Hf].
    apply elem_of_app. right. by left. }
  destruct base as [|x base].
  - rewrite filter_cons_False by (by intros []). rewrite filter_normal by done.
    change (IsAbs []) with false. rewrite eqs_refl. cbn [app].
    assert (Habs : IsAbs (Join s_slash k) = false).
    { destruct k as [|s k]; [done |]. inversion Hf as [|?? Hn]; subst. destruct s as [|y s]; [by destruct Hn |].
      assert (exists t, Join s_slash ((y :: s) :: k) = y :: t) as [t ->] by (destruct k; cbn; eauto).
      rewrite IsAbs_cons. apply bool_decide_false. intros ->. apply normal_noslash in Hn. apply Hn. by left. }
    destruct k as [|s k]; [done |]. unfold Clean. rewrite Habs, Hsplit.
    rewrite <- (app_nil_l (s :: k)), clean_segs_app by done. change (clean_segs false []) with (@nil bytes).
    by rewrite (proj2 (eqs_false _ _)) by apply (Hjn []).
  - rewrite filter_cons_True by done. rewrite filter_normal by done.
    set (b := x :: base). unfold Clean.
    assert (Hj : Join s_slash (b :: k) = b ++ slash :: Join s_slash k).
    { exact (Join_app slash [b] k ltac:(done) Hk). }
    rewrite Hj, IsAbs_app by done. rewrite Split_app_gen, Hsplit, clean_segs_app by done.
    rewrite (proj2 (eqs_false b [])) by done.
    destruct (IsAbs b); [done |]. by rewrite (proj2 (eqs_false _ _)) by apply Hjn.
Qed.

(** Adding one more normal element is a slash and the element. *)
Lemma FpJoin_snoc base k s : k <> [] -> Forall normal k -> normal s ->
  FpJoin (base :: k ++ [s]) = FpJoin (base :: k) ++ slash :: s.
Proof.
  intros Hk Hf Hs. rewrite !FpJoin_normal; [| done | done | by destruct k | by apply Forall_app_2; auto].
  rewrite app_assoc. unfold s_slash. rewrite Join_snoc by (by destruct (root_segs base), k). by rewrite app_assoc.
Qed.

(** ** Cleaning is idempotent *)

(** The reversed segments [clean_step] keeps: normal ones on top of [..]s,
    which only an unrooted path has. *)
Inductive ok_stack (r : bool) : list bytes -> Prop :=
| ok_nil : ok_stack r []
| ok_normal s st : normal s -> ok_stack r st -> ok_stack r (s :: st)
| ok_dots st : r = false -> Forall (fun s => s = s_dotdot) st -> ok_stack r (s_dotdot :: st).

Lemma ok_stack_step r st s : ok_stack r st -> slash ∉ s -> ok_stack r (clean_step r st s).
Proof.
  intros Hok Hs. unfold clean_step. destruct (eqs s []) eqn:E1; [done |]. destruct (eqs s s_dot) eqn:E2; [done |].
  apply eqs_false in E1, E2. cbn [orb]. destruct (eqs s s_dotdot) eqn:E3.
  - apply eqs_true in E3 as ->. inversion Hok as [|x st' Hx Hst | st' Hr Hf]; subst.
    + destruct r; [constructor | by apply ok_dots].
    + destruct Hx as (_ & _ & Hx & _). by rewrite (proj2 (eqs_false _ _)) by done.
    + rewrite eqs_refl. apply ok_dots; [done | by constructor].
  - apply eqs_false in E3. by apply ok_normal; [repeat split |].
Qed.

Lemma ok_stack_foldl r l : forall st, ok_stack r st -> Forall (fun s => slash ∉ s) l ->
  ok_stack r (foldl (clean_step r) st l).
Proof.
  induction l as [|s l IH]; intros st Hok Hf; [done |]. inversion Hf; subst. cbn.
  apply IH; [by apply ok_stack_step | done].
Qed.

Lemma ok_stack_replay r st : ok_stack r st -> foldl (clean_step r) [] (reverse st) = st.
Proof.
  assert (Hd : forall st, Forall (fun s => s = s_dotdot) st -> foldl (clean_step false) [] (reverse st) = st).
  { induction 1 as [|x l -> Hf IH]; [done |]. rewrite reverse_cons, foldl_app, IH. cbn [foldl].
    unfold clean_step. rewrite eqs_refl. destruct Hf as [|y l -> _]; [done | by rewrite eqs_refl]. }
  induction 1 as [|s st' Hs Hok IH|st' -> Hf]; [done | |].
  - rewrite reverse_cons, foldl_app, IH. cbn [foldl]. by apply clean_step_normal.
  - apply Hd. by constructor.
Qed.

Lemma Split_slashfree s : Forall (fun x => slash ∉ x) (Split slash s).
Proof. apply Forall_forall. intros x. apply Split_no_sep. Qed.

Lemma clean_segs_idem r l : Forall (fun s => slash ∉ s) l -> clean_segs r (clean_segs r l) = clean_segs r l.
Proof.
  intros Hf. unfold clean_segs. f_equal. apply ok_stack_replay, ok_stack_foldl; [constructor | done].
Qed.

Lemma ok_stack_seg r st s : ok_stack r st -> s ∈ st -> s <> [] /\ slash ∉ s.
Proof.
  induction 1 as [|x st Hx Hok IH|st Hr Hf]; [by intros ?%elem_of_nil | |].
  - intros [-> | Hin]%elem_of_cons; [by destruct Hx as (?&?&?&?) | auto].
  - intros Hin. assert (s = s_dotdot) as ->.
    { apply elem_of_cons in Hin as [-> | Hin]; [done |]. by eapply Forall_forall in Hf. }
    split; [done | by_decide].
Qed.

Lemma clean_segs_seg r l s : Forall (fun s => slash ∉ s) l -> s ∈ clean_segs r l -> s <> [] /\ slash ∉ s.
Proof.
  intros Hf Hin. unfold clean_segs in Hin. rewrite elem_of_reverse in Hin.
  eapply ok_stack_seg; [|done]. by apply ok_stack_foldl; [constructor |].
Qed.

Lemma root_segs_ok b s : s ∈ root_segs b -> s <> [] /\ slash ∉ s.
Proof.
  unfold root_segs. destruct (eqs b []); [by intros ?%elem_of_nil |].
  apply clean_segs_seg, Split_slashfree.
Qed.

(** A path built by joining normal elements is its own base. *)
Lemma root_joined base k : k <> [] -> Forall normal k ->
  root_pre (FpJoin (base :: k)) = root_pre base /\ root_segs (FpJoin (base :: k)) = root_segs base ++ k.
Proof.
  intros Hk Hf. rewrite FpJoin_normal by done. set (l := root_segs base ++ k).
  assert (Hl : Forall (fun s => s <> [] /\ slash ∉ s) l).
  { apply Forall_app. split; [apply Forall_forall; apply root_segs_ok |].
    eapply Forall_impl; [done |]. by intros s (?&?&?&?). }
  assert (Hne : l <> []) by (subst l; by destruct (root_segs base), k).
  assert (Hsplit : Split slash (Join s_slash l) = l).
  { apply Split_Join; [done |]. eapply Forall_impl; [done |]. by intros ? []. }
  assert (Hj : exists y t, Join s_slash l = y :: t /\ y <> slash).
  { destruct l as [|s l']; [done |]. apply Forall_cons in Hl as [[Hs Hns] _]. destruct s as [|y s]; [done |].
    apply not_elem_of_cons in Hns as [Hy _]. exists y. destruct l'; cbn; eauto. }
  destruct Hj as (y & t & Hj & Hy).
  assert (Hclean : forall r, r = IsAbs base -> clean_segs r l = l).
  { intros r ->. subst l. rewrite clean_segs_app by done. f_equal. unfold root_segs.
    destruct (eqs base []) eqn:Eb; [done |]. apply clean_segs_idem, Split_slashfree. }
  destruct (IsAbs base) eqn:Ha.
  - assert (root_pre base = [slash]) as -> by (unfold root_pre; by rewrite Ha).
    unfold root_pre, root_segs. cbn [app]. rewrite IsAbs_cons, bool_decide_true by done. split; [done |].
    rewrite (proj2 (eqs_false _ _)) by done.
    change (slash :: Join s_slash l) with ([] ++ slash :: Join s_slash l). rewrite Split_app_gen, Hsplit.
    transitivity (clean_segs true l); [|by apply Hclean].
    change (Split slash []) with [@nil byte]. unfold clean_segs. cbn [app foldl].
    unfold clean_step at 2. by rewrite eqs_refl.
  - assert (root_pre base = []) as -> by (unfold root_pre; by rewrite Ha).
    unfold root_pre, root_segs. cbn [app]. rewrite Hj, IsAbs_cons, bool_decide_false by done. split; [done |].
    rewrite (proj2 (eqs_false _ _)) by done. rewrite <- Hj, Hsplit. by apply Hclean.
Qed.

Lemma FpJoin_nested base k s : k <> [] -> Forall normal k -> normal s ->
  FpJoin [FpJoin (base :: k); s] = FpJoin (base :: k) ++ slash :: s.
Proof.
  intros Hk Hf Hs. rewrite <- FpJoin_snoc by done.
  rewrite (FpJoin_normal _ [s]) by auto. destruct (root_joined base k Hk Hf) as [-> ->].
  rewrite FpJoin_normal; [by rewrite app_assoc | by destruct k | by apply Forall_app_2; auto].
Qed.

(** The part before the first separator is determined. *)
Lemma first_sep_unique (c : byte) (a b x y : bytes) : c ∉ a -> c ∉ x -> a ++ c :: b = x ++ c :: y -> a = x /\ b = y.
Proof.
  revert x. induction a as [|z a IH]; intros [|w x] Ha Hx E; cbn in E.
  - by injection E as ->.
  - injection E as E1 _. subst. by apply not_elem_of_cons in Hx as [? _].
  - injection E as E1 _. subst. by apply not_elem_of_cons in Ha as [? _].
  - injection E as E1 E2. apply not_elem_of_cons in Ha as [_ Ha], Hx as [_ Hx]. by destruct (IH x Ha Hx E2) as [-> ->]; subst.
Qed.
