(* ===== verification/Externs.v ===== *)
(** Externs: the code outside the repository that the engine calls, as type
    classes.

    [AEAD] stands for AES-GCM ([crypto/aes] + [crypto/cipher]), [Sha256] for
    [crypto/sha256], [Zstd] for [github.com/klauspost/compress/zstd], [Hkdf]
    for [golang.org/x/crypto/hkdf] and [Argon2] for [golang.org/x/crypto/argon2].
    Each class has the operations; a second class, [...Spec], states the
    documented behaviour the engine relies on.  [Toy] gives concrete instances
    that satisfy the specifications, on which every theorem can be evaluated. *)

From S2P Require Import Prelude.
From stdpp Require Import base list.
From Stdlib.Strings Require Import Byte.
Local Open Scope Z_scope.

(** ** Authenticated encryption *)

(** [gcm.Seal(nil, iv, plaintext, nil)] and [gcm.Open(nil, iv, ct, nil)] under
    the key the cipher was built with; [None] is an authentication failure. *)
Class AEAD := {
  gcm_seal : bytes -> bytes -> bytes -> bytes;
  gcm_open : bytes -> bytes -> bytes -> option bytes
}.

Definition NonceSize : Z := 12.
Definition Overhead : Z := 16.

(** What [cipher.AEAD] documents: opening a sealed message under the same key
    and nonce returns it, and a ciphertext is [Overhead] bytes longer than its
    plaintext. *)
Class AEADSpec (A : AEAD) : Prop := {
  gcm_open_seal k iv p : blen iv = NonceSize -> gcm_open k iv (gcm_seal k iv p) = Some p;
  gcm_open_len k iv c p : gcm_open k iv c = Some p -> blen c = blen p + Overhead
}.

Lemma gcm_seal_len `{A : AEAD, !AEADSpec A} k iv p :
  blen iv = NonceSize -> blen (gcm_seal k iv p) = blen p + Overhead.
Proof. intros Hiv. eapply gcm_open_len. by apply gcm_open_seal. Qed.

(** ** Hashing and key derivation *)

Class Sha256 := sha256 : bytes -> bytes.
Class Sha256Spec (S : Sha256) : Prop := sha256_len : forall d, blen (sha256 d) = 32.

(** [hkdf.New(sha256.New, secret, salt, nil)] read for 32 bytes. *)
Class Hkdf := hkdf32 : bytes -> bytes -> bytes.
Class HkdfSpec (H : Hkdf) : Prop := hkdf_len : forall s salt, blen (hkdf32 s salt) = 32.

(** [argon2.IDKey(password, salt, 3, 64*1024, 4, 32)]. *)
Class Argon2 := argon2id : bytes -> bytes -> bytes.
Class Argon2Spec (H : Argon2) : Prop := argon2_len : forall p s, blen (argon2id p s) = 32.

(** ** Zstandard *)

Inductive zres := ZOk (d : bytes) | ZSizeExceeded | ZWindowExceeded | ZCorrupt.

(** [enc.EncodeAll] and [dec.DecodeAll] of a decoder with memory limit [max]. *)
Class Zstd := {
  zstd_encode : bytes -> bytes;
  zstd_decode : Z -> bytes -> zres
}.

Definition zstdMagic : bytes := [x28; xb5; x2f; xfd].

(** A frame starts with the zstd magic number (empty input gives empty output),
    and decoding a frame gives back its content when it fits the limit. *)
Class ZstdSpec (Z : Zstd) : Prop := {
  zstd_decode_encode max d : blen d <= max -> zstd_decode max (zstd_encode d) = ZOk d;
  zstd_encode_magic d : d <> [] -> exists r, zstd_encode d = zstdMagic ++ r
}.

(** ** The S2 and zlib streams

    [s2_encode better d] is what an [s2.Writer] leaves in a buffer after [Write]
    and [Close], with [WriterBetterCompression] or without; [s2_reader] is the
    decoded stream of [s2.NewReader].  [zlib_encode] fails for a level that
    [zlib.NewWriterLevel] refuses, [zlib_reader] for a header that
    [zlib.NewReader] refuses. *)
Class S2 := {
  s2_encode : bool -> bytes -> bytes;
  s2_reader : bytes -> reader
}.

Class Zlib := {
  zlib_encode : Z -> bytes -> option bytes;
  zlib_reader : bytes -> option reader
}.

(** Reading what was written gives it back; the levels -2 to 9 are accepted. *)
Class S2Spec (S : S2) : Prop := s2_reads_back better d : s2_reader (s2_encode better d) = Reader d false.
Class ZlibSpec (Z : Zlib) : Prop := {
  zlib_level lvl d : -2 <= lvl <= 9 -> is_Some (zlib_encode lvl d);
  zlib_reads_back lvl d out : zlib_encode lvl d = Some out -> zlib_reader out = Some (Reader d false)
}.

(** ** Time

    [time.Parse(time.RFC3339, s)] in nanoseconds since the epoch, and
    [time.Unix(sec, 0).UTC().Format(time.RFC3339)]. *)
Class Rfc3339 := parse_rfc3339 : bytes -> option Z.
Class Rfc3339Format := format_rfc3339 : Z -> bytes.

(** ** Randomness

    [crypto/rand] is a finite supply of bytes threaded through the code that
    draws from it; an exhausted supply is a failing [rand.Read]. *)
Definition rand_read (n : Z) (ent : bytes) : option (bytes * bytes) :=
  if n <=? blen ent then Some (upto n ent, from n ent) else None.

Lemma rand_read_some n ent b ent' :
  0 <= n -> rand_read n ent = Some (b, ent') -> blen b = n /\ ent = b ++ ent'.
Proof.
  unfold rand_read. intros Hn H. destruct (Z.leb_spec n (blen ent)); [|done].
  simplify_eq. split; [apply blen_upto; lia | by rewrite upto_from].
Qed.

(** ** Concrete instances *)
Module Toy.

Definition sum (l : bytes) : Z := foldr (fun b a => b2z b + a) 0 l.

(** A 16-byte tag: the nonce cut to 12 bytes, a byte of the key, a byte of the
    plaintext and its length. *)
Definition tag (k iv p : bytes) : bytes :=
  take 12 (iv ++ replicate 12 x00) ++ [z2b (sum k); z2b (sum p)] ++ be_put 2 (blen p).

Lemma blen_tag k iv p : blen (tag k iv p) = 16.
Proof.
  unfold tag, blen. rewrite !length_app, length_take, length_app, length_be_put, length_replicate.
  cbn [length]. lia.
Qed.

#[export] Instance aead : AEAD := {
  gcm_seal k iv p := p ++ tag k iv p;
  gcm_open k iv c :=
    let p := upto (blen c - 16) c in
    if bool_decide (16 <= blen c /\ c = p ++ tag k iv p) then Some p else None
}.

#[export] Instance aead_spec : AEADSpec aead.
Proof.
  split; cbn.
  - intros k iv p _. rewrite upto_app by (rewrite blen_app, blen_tag; lia).
    rewrite bool_decide_true; [done | split; [|done]].
    rewrite blen_app, blen_tag. pose proof (blen_nonneg p). lia.
  - intros k iv c p. case_bool_decide as H; [|done]. intros [= <-].
    destruct H as [Hl _]. rewrite blen_upto by lia. unfold Overhead. lia.
Qed.

#[export] Instance sha : Sha256 := fun d => be_put 8 (sum d) ++ be_put 8 (blen d) ++
  take 16 (d ++ replicate 16 x00).
#[export] Instance sha_spec : Sha256Spec sha.
Proof.
  intros d. unfold sha256, sha, blen.
  rewrite !length_app, !length_be_put, length_take, length_app, length_replicate. lia.
Qed.

#[export] Instance hkdf : Hkdf := fun s salt => sha256 (salt ++ s).
#[export] Instance hkdf_spec : HkdfSpec hkdf.
Proof. intros ??. apply sha256_len. Qed.
#[export] Instance argon : Argon2 := fun p s => sha256 (s ++ p).
#[export] Instance argon_spec : Argon2Spec argon.
Proof. intros ??. apply sha256_len. Qed.

(** An identifier and the data. *)
#[export] Instance s2 : S2 := {
  s2_encode better d := [xff; if better then x01 else x00] ++ d;
  s2_reader c := match c with xff :: _ :: d => Reader d false | _ => Reader [] true end
}.
#[export] Instance s2_spec : S2Spec s2.
Proof. by intros [] d. Qed.
#[export] Instance zlib : Zlib := {
  zlib_encode lvl d := if bool_decide (-2 <= lvl <= 9) then Some (x78 :: d) else None;
  zlib_reader c := match c with x78 :: d => Some (Reader d false) | _ => None end
}.
#[export] Instance zlib_spec : ZlibSpec zlib.
Proof.
  split; cbn.
  - intros lvl d Hl. rewrite bool_decide_true by done. by eexists.
  - intros lvl d out. case_bool_decide; [|done]. by intros [= <-].
Qed.

(** Runs of equal bytes as (value, 4-byte count) pairs after the magic. *)
Fixpoint rle (b : byte) (n : Z) (l : bytes) : bytes :=
  match l with
  | [] => b :: be_put 4 n
  | c :: l' => if bool_decide (b = c /\ n + 1 < 2 ^ 32) then rle b (n + 1) l'
               else (b :: be_put 4 n) ++ rle c 1 l'
  end.

Fixpoint unrle (l : bytes) (fuel : nat) : option bytes :=
  match fuel, l with
  | _, [] => Some []
  | S f, b :: n3 :: n2 :: n1 :: n0 :: l' =>
      r ← unrle l' f; Some (replicate (Z.to_nat (be_get [n3; n2; n1; n0])) b ++ r)
  | _, _ => None
  end.

#[export] Instance zstd : Zstd := {
  zstd_encode d := match d with [] => [] | b :: l => zstdMagic ++ rle b 1 l end;
  zstd_decode max c :=
    match c with
    | [] => ZOk []
    | _ =>
      if bool_decide (take 4 c = zstdMagic) then
        match unrle (drop 4 c) (length c) with
        | Some d => if blen d <=? max then ZOk d else ZSizeExceeded
        | None => ZCorrupt
        end
      else ZCorrupt
    end
}.

Lemma unrle_step b n l f :
  0 <= n < 2 ^ 32 ->
  unrle ((b :: be_put 4 n) ++ l) (S f)
  = (r ← unrle l f; Some (replicate (Z.to_nat n) b ++ r)).
Proof.
  intros Hn. change (be_put 4 n) with
    [z2b (Z.shiftr n (8 * 3)); z2b (Z.shiftr n (8 * 2)); z2b (Z.shiftr n (8 * 1)); z2b (Z.shiftr n (8 * 0))].
  cbn [app unrle]. change [_; _; _; _] with (be_put 4 n). by rewrite be_get_put_small by done.
Qed.

Lemma unrle_rle l : forall b n f, 0 < n < 2 ^ 32 -> (length (rle b n l) <= f)%nat ->
  unrle (rle b n l) f = Some (replicate (Z.to_nat n) b ++ l).
Proof.
  induction l as [|c l IH]; intros b n f Hn Hf; cbn [rle] in *.
  - destruct f as [|f]; [cbn in Hf; lia |].
    rewrite <- (app_nil_r (be_put 4 n)), app_comm_cons, unrle_step by lia. by destruct f.
  - case_bool_decide as Hc.
    + destruct Hc as [-> Hc]. rewrite IH by (lia || done).
      rewrite Z2Nat.inj_add, Nat.add_comm by lia. cbn [Z.to_nat Pos.to_nat Pos.iter_op Nat.add].
      change (Z.to_nat 1 + ?x)%nat with (S x). by rewrite replicate_S_end, <- app_assoc.
    + destruct f as [|f]; [cbn in Hf; lia |].
      rewrite unrle_step by lia.
      rewrite IH by (rewrite ?length_app in Hf; cbn in *; lia). done.
Qed.

#[export] Instance zstd_spec : ZstdSpec zstd.
Proof.
  split.
  - intros max [|b l] Hmax; [done |]. unfold zstd_decode, zstd_encode, zstd.
    change (zstdMagic ++ rle b 1 l) with (x28 :: xb5 :: x2f :: xfd :: rle b 1 l).
    cbv iota beta. rewrite bool_decide_true by done.
    change (drop 4 _) with (rle b 1 l).
    rewrite unrle_rle by (cbn [length]; lia).
    change (replicate (Z.to_nat 1) b ++ l) with (b :: l).
    by destruct (Z.leb_spec (blen (b :: l)) max); [|lia].
  - intros [|b l]; [done | cbn; eauto].
Qed.

End Toy.
