(* ===== verification/Compress.v ===== *)
(** Compress: the [compress] package ([compress/zstd.go], [none.go], [s2.go],
    [deflate.go]).

    A [ZstdCompressor] is its level, output limit and the error it reports when
    the limit is exceeded (the encoder and decoder pools are a performance
    detail: a pool only serialises access).  The other back ends are modelled up
    to the third-party decoder, a [reader] over the decoded stream. *)

From S2P Require Import Prelude Externs.
From stdpp Require Import base list strings.
From Stdlib.Strings Require Import Byte.
Local Open Scope Z_scope.

Definition MaxDecompressedSize : Z := 128 * 1024 * 1024.
Definition MaxManifestDecompressedSize : Z := 256 * 1024 * 1024.

Inductive zerr :=
| ErrDecompressedTooLarge
| ErrManifestDecompressedTooLarge
| ErrCorrupt
| ErrOther.

#[export] Instance zerr_eq_dec : EqDecision zerr.
Proof. solve_decision. Defined.

Module Zstd.

Record ZstdCompressor := {
  level : Z;
  maxOutput : Z;
  tooLargeErr : zerr;
  poolSize : Z
}.

(** [NewZstdCompressorWithLimit]; [cpus] is [runtime.NumCPU()] and a [nil]
    error is [None]. *)
Definition NewZstdCompressorWithLimit (cpus lvl max : Z) (tooLarge : option zerr) : ZstdCompressor :=
  {| level := if (lvl <? 1) || (22 <? lvl) then 1 else lvl;
     maxOutput := if max <=? 0 then MaxDecompressedSize else max;
     tooLargeErr := match tooLarge with None => ErrDecompressedTooLarge | Some e => e end;
     poolSize := let n := if cpus <? 2 then 2 else cpus in if 8 <? n then 8 else n |}.

Definition NewZstdCompressor (cpus lvl : Z) : ZstdCompressor :=
  NewZstdCompressorWithLimit cpus lvl MaxDecompressedSize (Some ErrDecompressedTooLarge).

Section Ops.
Context `{ZS : Zstd}.

Definition Compress (c : ZstdCompressor) (data : bytes) : bytes := zstd_encode data.

Definition Decompress (c : ZstdCompressor) (data : bytes) : result zerr bytes :=
  match zstd_decode (maxOutput c) data with
  | ZOk d => Ok d
  | ZSizeExceeded | ZWindowExceeded => Err (tooLargeErr c)
  | ZCorrupt => Err ErrCorrupt
  end.

Definition IsCompressed (data : bytes) : bool :=
  (4 <=? blen data) && bool_decide (upto 4 data = zstdMagic).

Lemma IsCompressed_magic r : IsCompressed (zstdMagic ++ r) = true.
Proof.
  unfold IsCompressed. rewrite upto_app by done. rewrite bool_decide_true by done.
  rewrite blen_app. change (blen zstdMagic) with 4. pose proof (blen_nonneg r).
  by destruct (Z.leb_spec 4 (4 + blen r)); [|lia].
Qed.

Context `{!ZstdSpec ZS}.

Lemma Compress_marked c d : d <> [] -> IsCompressed (Compress c d) = true.
Proof. intros Hd. destruct (zstd_encode_magic d Hd) as [r Hr]. unfold Compress. by rewrite Hr, IsCompressed_magic. Qed.

Lemma Decompress_Compress c d :
  blen d <= maxOutput c -> Decompress c (Compress c d) = Ok d.
Proof. intros Hd. unfold Decompress, Compress. by rewrite zstd_decode_encode. Qed.

End Ops.
End Zstd.

Module Other.

(** [NoneCompressor]. *)
Definition none_Compress (data : bytes) : bytes := data.
Definition none_Decompress (data : bytes) : bytes := data.
Definition none_IsCompressed (data : bytes) : bool := false.

(** [NewS2Compressor] and [NewDeflateCompressor]: level normalisation. *)
Definition NewS2Compressor (lvl : Z) : Z := if (lvl <? 0) || (1 <? lvl) then 1 else lvl.
Definition NewDeflateCompressor (lvl : Z) : Z := if (lvl <? 1) || (9 <? lvl) then 9 else lvl.

Definition s2Magic : bytes := [xff; x06; x00; x00; x53; x32; x73; x54; x77; x4f].
Definition s2MagicSnappy : bytes := [xff; x06; x00; x00; x73; x4e; x61; x50; x70; x59].

Definition s2_IsCompressed (data : bytes) : bool :=
  if blen data <? 10 then false
  else bool_decide (upto 10 data = s2Magic) || bool_decide (upto 10 data = s2MagicSnappy).

Definition deflate_IsCompressed (data : bytes) : bool :=
  (2 <=? blen data) && bool_decide (head data = Some x78).

(** The tail of both [Decompress] methods: read the decoded stream through
    [io.LimitReader(r, MaxDecompressedSize+1)] and refuse one byte too many. *)
Definition bounded_decode (r : reader) : result zerr bytes :=
  match read_all_limit (MaxDecompressedSize + 1) r with
  | None => Err ErrOther
  | Some d => if MaxDecompressedSize <? blen d then Err ErrDecompressedTooLarge else Ok d
  end.

Section Codecs.
Context `{SC : S2, ZL : Zlib}.

(** [S2Compressor.Compress] of a compressor at level [lvl]: the better
    compression at level 1, writing to a buffer in memory. *)
Definition s2_Compress (lvl : Z) (data : bytes) : bytes := s2_encode (lvl =? 1) data.

Definition s2_Decompress (data : bytes) : result zerr bytes := bounded_decode (s2_reader data).

(** [DeflateCompressor.Compress]: [zlib.NewWriterLevel] refuses a level that
    is out of range. *)
Definition deflate_Compress (lvl : Z) (data : bytes) : result zerr bytes :=
  match zlib_encode lvl data with
  | None => Err ErrOther
  | Some out => Ok out
  end.

(** [DeflateCompressor.Decompress]: [zlib.NewReader] fails on a bad header. *)
Definition deflate_Decompress (data : bytes) : result zerr bytes :=
  match zlib_reader data with
  | None => Err ErrOther
  | Some r => bounded_decode r
  end.
End Codecs.

End Other.

(** [NewCompressor] and [NewCompressorStrict]: which back end a configured type
    selects.  The former falls back to zstd, the latter refuses. *)
Inductive Backend :=
| BNone
| BS2 (lvl : Z)
| BDeflate (lvl : Z)
| BZstd (c : Zstd.ZstdCompressor).

Definition CompressNone : string := "none".
Definition CompressZstd : string := "zstd".
Definition CompressS2 : string := "s2".
Definition CompressDeflate : string := "deflate".

Definition NewCompressor (cpus : Z) (ct : string) (lvl : Z) : Backend :=
  if String.eqb ct CompressNone then BNone
  else if String.eqb ct CompressS2 then BS2 (Other.NewS2Compressor lvl)
  else if String.eqb ct CompressDeflate then BDeflate (Other.NewDeflateCompressor lvl)
  else if String.eqb ct CompressZstd then BZstd (Zstd.NewZstdCompressor cpus lvl)
  else BZstd (Zstd.NewZstdCompressor cpus lvl).

Definition NewCompressorStrict (cpus : Z) (ct : string) (lvl : Z) : result string Backend :=
  if String.eqb ct CompressNone then Ok BNone
  else if String.eqb ct CompressS2 then Ok (BS2 (Other.NewS2Compressor lvl))
  else if String.eqb ct CompressDeflate then Ok (BDeflate (Other.NewDeflateCompressor lvl))
  else if String.eqb ct CompressZstd then Ok (BZstd (Zstd.NewZstdCompressor cpus lvl))
  else Err ct.

Lemma bounded_decode_ok r d :
  Other.bounded_decode r = Ok d ->
  blen d <= MaxDecompressedSize /\ rd_data r = d /\ rd_fails r = false.
Proof.
  unfold Other.bounded_decode, read_all_limit. destruct r as [data f]; cbn [rd_data rd_fails].
  destruct (Z.ltb_spec (blen data) (MaxDecompressedSize + 1)), f; cbn [andb]; try done.
  - rewrite upto_all by lia. go_if; [done |]. intros [= <-]. auto with lia.
  - rewrite blen_upto_min by (unfold MaxDecompressedSize; lia). go_if; [done | lia].
  - rewrite blen_upto_min by (unfold MaxDecompressedSize; lia). go_if; [done | lia].
Qed.

(** * The methods of a configured compressor *)

Section Configured.
Context `{ZS : Zstd, SC : S2, ZL : Zlib}.

(** The [Compressor] interface, dispatched on the back end. *)
Definition backend_Type (b : Backend) : string :=
  match b with BNone => CompressNone | BS2 _ => CompressS2 | BDeflate _ => CompressDeflate | BZstd _ => CompressZstd end.

Definition backend_Compress (b : Backend) (data : bytes) : result zerr bytes :=
  match b with
  | BNone => Ok (Other.none_Compress data)
  | BS2 lvl => Ok (Other.s2_Compress lvl data)
  | BDeflate lvl => Other.deflate_Compress lvl data
  | BZstd c => Ok (Zstd.Compress c data)
  end.

Definition backend_Decompress (b : Backend) (data : bytes) : result zerr bytes :=
  match b with
  | BNone => Ok (Other.none_Decompress data)
  | BS2 _ => Other.s2_Decompress data
  | BDeflate _ => Other.deflate_Decompress data
  | BZstd c => Zstd.Decompress c data
  end.

Context `{!ZstdSpec ZS, !S2Spec SC, !ZlibSpec ZL}.

Lemma bounded_decode_all d : blen d <= MaxDecompressedSize -> Other.bounded_decode (Reader d false) = Ok d.
Proof. intros Hd. unfold Other.bounded_decode. rewrite read_all_limit_ok by lia. go_if; [lia | done]. Qed.

Lemma deflate_level lvl : 1 <= Other.NewDeflateCompressor lvl <= 9.
Proof. unfold Other.NewDeflateCompressor. destruct (Z.ltb_spec lvl 1), (Z.ltb_spec 9 lvl); cbn; lia. Qed.

(** Whatever type and level are configured, known or not, compressing succeeds
    and decompressing with the same configuration gives the data back, up to
    the limit of 128 MiB; a name that the strict constructor accepts gives the
    same compressor, of the type that was asked for. *)
Theorem compressor_roundtrip cpus ct lvl d : blen d <= MaxDecompressedSize ->
  (exists out, backend_Compress (NewCompressor cpus ct lvl) d = Ok out /\ backend_Decompress (NewCompressor cpus ct lvl) out = Ok d) /\
  (forall b, NewCompressorStrict cpus ct lvl = Ok b -> b = NewCompressor cpus ct lvl /\ backend_Type b = ct).
Proof.
  intros Hd. unfold NewCompressor, NewCompressorStrict. split.
  - destruct (String.eqb_spec ct CompressNone); [by eexists |]. destruct (String.eqb_spec ct CompressS2).
    { eexists. split; [done |]. cbn. unfold Other.s2_Decompress, Other.s2_Compress. by rewrite s2_reads_back, bounded_decode_all. }
    destruct (String.eqb_spec ct CompressDeflate).
    { destruct (zlib_level (Other.NewDeflateCompressor lvl) d) as [out E]; [pose proof (deflate_level lvl); lia |].
      exists out. cbn. unfold Other.deflate_Compress, Other.deflate_Decompress. by rewrite E, (zlib_reads_back _ _ _ E), bounded_decode_all. }
    destruct (String.eqb ct CompressZstd); (eexists; split; [done |]; by apply Zstd.Decompress_Compress).
  - intros b. destruct (String.eqb_spec ct CompressNone) as [-> |]; [by intros [= <-] |]. destruct (String.eqb_spec ct CompressS2) as [-> |]; [by intros [= <-] |].
    destruct (String.eqb_spec ct CompressDeflate) as [-> |]; [by intros [= <-] |]. destruct (String.eqb_spec ct CompressZstd) as [-> |]; [by intros [= <-] | done].
Qed.
End Configured.
