(* ===== verification/Crypto.v ===== *)
(** Crypto: the blob formats GB1, GB2 and GB3 and the GKM1 manifest envelope
    ([simple/crypto.go]).

    [Encryptor] and [Decryptor] are records of the key and chunk size as in the
    source; every method is a function here, with the random bytes it draws
    threaded as an entropy supply.  [cerr] has one constructor per error site.
    Go [int] and slice lengths are mathematical integers (the 64-bit range is
    never left by a length), wire integers keep their width. *)

From S2P Require Import Prelude Externs Compress.
From stdpp Require Import base list.
From Stdlib.Strings Require Import Byte.
Local Open Scope Z_scope.

(** ** Constants *)

Definition MagicGB1 : bytes := [x47; x42; x31; x00].
Definition MagicGB2 : bytes := [x47; x42; x32; x00].
Definition MagicGB3 : bytes := [x47; x42; x33; x00].
Definition GKM1Magic : bytes := [x47; x4b; x4d; x31].
Definition MagicSize : Z := 4.
Definition IVSize : Z := 12.
Definition TagSize : Z := 16.
Definition ChunkCountSize : Z := 4.
Definition FlagsSize : Z := 1.
Definition DefaultChunkSize : Z := 4 * 1024 * 1024.
Definition MaxChunkCount : Z := 100000.
Definition GB3HeaderSize : Z := 24.
Definition GB3Version : Z := 1.
Definition MaxGB3ChunkSize : Z := 64 * 1024 * 1024.
Definition GB3FlagChunkCompressed : Z := 1.
Definition GB3HashSHA256 : Z := 1.
Definition GB3CompressNone : Z := 0.
Definition GB3CompressZstd : Z := 1.
Definition GB3EncryptAESGCM : Z := 1.
Definition GB3ChunkingFixed : Z := 1.
Definition GB3KeyVersionCur : Z := 1.
Definition MaxStoredSize : Z := DefaultChunkSize + TagSize + 1024.
Definition MaxBlobSize : Z := DefaultChunkSize + IVSize + TagSize + 2 ^ 20.
Definition MaxUint32 : Z := 2 ^ 32 - 1.

Inductive cerr :=
| DataTooShort (n : Z) | InvalidMagic (m : bytes)
| AesCipher | RandFail | RandFailChunk (i : Z)
| SmallTooShort (n : Z) | OpenFailed
| Gb1BadCount (n : Z) | Gb1Trailing (n : Z)
| Gb2TooShort (n : Z) | Gb2BadCount (n : Z) | Gb2Trailing (n : Z) | Gb3Trailing (n : Z)
| MissingIV (i : Z) | MissingSizeHeader (i : Z) | StoredTooBig (i stored max : Z)
| MissingCiphertext (i : Z) | OpenFailedChunk (i : Z) | DecompressFailedChunk (i : Z)
| Gb3HeaderTooShort (n : Z) | NotGB3 | Gb3BadVersion (v : Z) | Gb3BadHash (v : Z)
| Gb3BadEncryption (v : Z) | Gb3BadChunking (v : Z) | Gb3BadCompression (v : Z)
| Gb3ZeroChunkSize | Gb3ChunkSizeTooBig (v : Z) | Gb3CountOverflow | V3CountOverflow (n : Z)
| ReadFailed | BlobTooLarge | NotGKM1 | UnknownMagic (m : bytes) | KeyRequired.

#[export] Instance cerr_eq_dec : EqDecision cerr.
Proof. solve_decision. Defined.

Record Encryptor := { ekey : bytes; echunkSize : Z }.
Record Decryptor := { dkey : bytes; dchunkSize : Z }.

Definition NewEncryptor (key : bytes) (chunkSize : Z) : Encryptor :=
  {| ekey := key; echunkSize := if chunkSize <=? 0 then DefaultChunkSize else chunkSize |}.

Definition NewDecryptor (key : bytes) (chunkSize : Z) : Decryptor :=
  {| dkey := key; dchunkSize := if chunkSize <=? 0 then DefaultChunkSize else chunkSize |}.

(** [aes.NewCipher] accepts 16-, 24- and 32-byte keys; [cipher.NewGCM] never
    fails on an AES block. *)
Definition newGCM (key : bytes) : result cerr unit :=
  if (blen key =? 16) || (blen key =? 24) || (blen key =? 32) then Ok () else Err AesCipher.

Definition isChunkCount (buf : bytes) : bool :=
  if blen buf <? ChunkCountSize then false
  else let v := be_get (upto 4 buf) in (0 <? v) && (v <? MaxChunkCount).

(** [newSmallBlobIV]: rejection sampling.  Each attempt consumes 12 bytes, so
    the length of the supply bounds the number of attempts. *)
Fixpoint newSmallBlobIV_loop (fuel : nat) (ent : bytes) : result cerr (bytes * bytes) :=
  match fuel with
  | O => Err RandFail
  | S fuel' =>
      match rand_read IVSize ent with
      | None => Err RandFail
      | Some (iv, ent') =>
          if negb (isChunkCount (upto ChunkCountSize iv)) then Ok (iv, ent')
          else newSmallBlobIV_loop fuel' ent'
      end
  end.

Definition newSmallBlobIV (ent : bytes) : result cerr (bytes * bytes) :=
  newSmallBlobIV_loop (S (length ent)) ent.

(** Chunk [i] of [plaintext]: [plaintext[start:end]] with [end] clipped. *)
Definition chunk_at (cs : Z) (plaintext : bytes) (i : Z) : bytes :=
  let start := i * cs in
  let stop := start + cs in
  slice start (if blen plaintext <? stop then blen plaintext else stop) plaintext.

Definition chunk_count (cs n : Z) : Z := (n + cs - 1) / cs.

(** ** The GB3 header *)

Record GB3Header := {
  hVersion : Z; hFlags : Z; hHashAlg : Z; hCompressionAlg : Z; hEncryptionAlg : Z;
  hChunkingAlg : Z; hKeyVersion : Z; hChunkSize : Z; hPlaintextSize : Z
}.

(** [ChunkCount]: uint64 arithmetic, wrap-around included. *)
Definition ChunkCount (h : GB3Header) : Z :=
  if hChunkSize h =? 0 then 0
  else ((hPlaintextSize h + hChunkSize h - 1) mod 2 ^ 64) / hChunkSize h.

Definition encodeGB3Header (flags compressAlg chunkSize plaintextSize : Z) : bytes :=
  MagicGB3 ++ [z2b GB3Version; z2b flags; z2b GB3HashSHA256; z2b compressAlg;
               z2b GB3EncryptAESGCM; z2b GB3ChunkingFixed]
  ++ be_put 2 GB3KeyVersionCur ++ be_put 4 chunkSize ++ be_put 8 plaintextSize.

(** [data[off]] as an integer. *)
Definition byte_at (off : nat) (data : bytes) : Z := b2z (nth off data x00).

Definition parse_fields (data : bytes) : GB3Header :=
  {| hVersion := byte_at 4 data; hFlags := byte_at 5 data; hHashAlg := byte_at 6 data;
     hCompressionAlg := byte_at 7 data; hEncryptionAlg := byte_at 8 data;
     hChunkingAlg := byte_at 9 data;
     hKeyVersion := be_get (slice 10 12 data);
     hChunkSize := be_get (slice 12 16 data);
     hPlaintextSize := be_get (slice 16 24 data) |}.

Definition ParseGB3Header (data : bytes) : result cerr GB3Header :=
  if blen data <? GB3HeaderSize then Err (Gb3HeaderTooShort (blen data))
  else if negb (bool_decide (upto MagicSize data = MagicGB3)) then Err NotGB3
  else
    let h := parse_fields data in
    if negb (hVersion h =? GB3Version) then Err (Gb3BadVersion (hVersion h))
    else if negb (hHashAlg h =? GB3HashSHA256) then Err (Gb3BadHash (hHashAlg h))
    else if negb (hEncryptionAlg h =? GB3EncryptAESGCM) then Err (Gb3BadEncryption (hEncryptionAlg h))
    else if negb (hChunkingAlg h =? GB3ChunkingFixed) then Err (Gb3BadChunking (hChunkingAlg h))
    else if negb (hCompressionAlg h =? GB3CompressNone) && negb (hCompressionAlg h =? GB3CompressZstd)
      then Err (Gb3BadCompression (hCompressionAlg h))
    else if hChunkSize h =? 0 then Err Gb3ZeroChunkSize
    else if MaxGB3ChunkSize <? hChunkSize h then Err (Gb3ChunkSizeTooBig (hChunkSize h))
    else if MaxUint32 <? ChunkCount h then Err Gb3CountOverflow
    else Ok h.

Definition IsEncryptedBlob (data : bytes) : bool :=
  if blen data <? MagicSize then false
  else let m := upto MagicSize data in
       bool_decide (m = MagicGB1) || bool_decide (m = MagicGB2) || bool_decide (m = MagicGB3).

(** ** Encryption *)

Section Ops.
Context `{AE : AEAD, ZS : Zstd}.

Definition encryptSmall (e : Encryptor) (plaintext ent : bytes) : result cerr (bytes * bytes) :=
  newGCM (ekey e) ≫= fun _ =>
  newSmallBlobIV ent ≫= fun '(iv, ent') =>
  Ok (MagicGB1 ++ iv ++ gcm_seal (ekey e) iv plaintext, ent').

(** The chunk loop of [encryptLarge]: chunks [i], ..., [i+n-1], each as
    IV followed by ciphertext. *)
Fixpoint seal_gb1 (e : Encryptor) (plaintext : bytes) (n : nat) (i : Z) (ent : bytes)
  : result cerr (bytes * bytes) :=
  match n with
  | O => Ok ([], ent)
  | S n' =>
      match rand_read IVSize ent with
      | None => Err (RandFailChunk i)
      | Some (iv, ent1) =>
          let encrypted := gcm_seal (ekey e) iv (chunk_at (echunkSize e) plaintext i) in
          seal_gb1 e plaintext n' (i + 1) ent1 ≫= fun '(rest, ent2) =>
          Ok (iv ++ encrypted ++ rest, ent2)
      end
  end.

(** The chunk loop of [encryptLargeV3]: storedSize, flags 0, IV, ciphertext. *)
Fixpoint seal_gb3 (e : Encryptor) (plaintext : bytes) (n : nat) (i : Z) (ent : bytes)
  : result cerr (bytes * bytes) :=
  match n with
  | O => Ok ([], ent)
  | S n' =>
      match rand_read IVSize ent with
      | None => Err (RandFailChunk i)
      | Some (iv, ent1) =>
          let encrypted := gcm_seal (ekey e) iv (chunk_at (echunkSize e) plaintext i) in
          seal_gb3 e plaintext n' (i + 1) ent1 ≫= fun '(rest, ent2) =>
          Ok (be_put 4 (blen encrypted) ++ [x00] ++ iv ++ encrypted ++ rest, ent2)
      end
  end.

Definition encryptLargeV3 (e : Encryptor) (plaintext ent : bytes) : result cerr (bytes * bytes) :=
  let chunkCount := chunk_count (echunkSize e) (blen plaintext) in
  if MaxUint32 <? chunkCount then Err (V3CountOverflow chunkCount)
  else
    newGCM (ekey e) ≫= fun _ =>
    seal_gb3 e plaintext (Z.to_nat chunkCount) 0 ent ≫= fun '(body, ent') =>
    Ok (encodeGB3Header 0 GB3CompressNone (echunkSize e) (blen plaintext) ++ body, ent').

Definition encryptLarge (e : Encryptor) (plaintext ent : bytes) : result cerr (bytes * bytes) :=
  let chunkCount := chunk_count (echunkSize e) (blen plaintext) in
  if MaxChunkCount <=? chunkCount then encryptLargeV3 e plaintext ent
  else
    newGCM (ekey e) ≫= fun _ =>
    seal_gb1 e plaintext (Z.to_nat chunkCount) 0 ent ≫= fun '(body, ent') =>
    Ok (MagicGB1 ++ be_put 4 chunkCount ++ body, ent').

Definition Encrypt (e : Encryptor) (plaintext ent : bytes) : result cerr (bytes * bytes) :=
  if blen plaintext <? echunkSize e then encryptSmall e plaintext ent
  else encryptLarge e plaintext ent.

(** ** Decryption *)

Definition decryptSmall (d : Decryptor) (data : bytes) : result cerr bytes :=
  if blen data <? IVSize + TagSize then Err (SmallTooShort (blen data))
  else
    newGCM (dkey d) ≫= fun _ =>
    match gcm_open (dkey d) (upto IVSize data) (from IVSize data) with
    | None => Err OpenFailed
    | Some p => Ok p
    end.

(** The chunk loop of [decryptLarge] and the trailing-data check after it. *)
Fixpoint open_gb1 (d : Decryptor) (n : nat) (i : Z) (data : bytes) : result cerr bytes :=
  match n with
  | O => if blen data =? 0 then Ok [] else Err (Gb1Trailing (blen data))
  | S n' =>
      if blen data <? IVSize then Err (MissingIV i)
      else
        let iv := upto IVSize data in
        let data1 := from IVSize data in
        let est := dchunkSize d + TagSize in
        let chunkEnd := if blen data1 <? est then blen data1 else est in
        match gcm_open (dkey d) iv (upto chunkEnd data1) with
        | None => Err (OpenFailedChunk i)
        | Some decrypted =>
            open_gb1 d n' (i + 1) (from chunkEnd data1) ≫= fun rest => Ok (decrypted ++ rest)
        end
  end.

Definition decryptLarge (d : Decryptor) (data : bytes) : result cerr bytes :=
  let chunkCount := be_get (upto ChunkCountSize data) in
  if (chunkCount =? 0) || (MaxChunkCount <=? chunkCount) then Err (Gb1BadCount chunkCount)
  else
    newGCM (dkey d) ≫= fun _ => open_gb1 d (Z.to_nat chunkCount) 0 (from ChunkCountSize data).

(** [defaultStreamDecompressor]. *)
Definition defaultStreamDecompressor : Zstd.ZstdCompressor := Zstd.NewZstdCompressor 1 1.

Definition decompress_chunk (compressed : bool) (i : Z) (p : bytes) : result cerr bytes :=
  if compressed then
    match Zstd.Decompress defaultStreamDecompressor p with
    | Ok q => Ok q
    | Err _ => Err (DecompressFailedChunk i)
    end
  else Ok p.

(** The framed chunk loop shared by [decryptLargeV2] and [decryptLargeV3]; they
    differ in the stored-size bound, the flag test and the trailing error. *)
Fixpoint open_frames (d : Decryptor) (maxStored : Z) (isComp : byte -> bool) (trailing : Z -> cerr)
  (n : nat) (i : Z) (data : bytes) : result cerr bytes :=
  match n with
  | O => if blen data =? 0 then Ok [] else Err (trailing (blen data))
  | S n' =>
      if blen data <? ChunkCountSize + FlagsSize then Err (MissingSizeHeader i)
      else
        let storedSize := be_get (upto ChunkCountSize data) in
        let compressed := isComp (nth 4 data x00) in
        let data1 := from (ChunkCountSize + FlagsSize) data in
        if maxStored <? storedSize then Err (StoredTooBig i storedSize maxStored)
        else if blen data1 <? IVSize then Err (MissingIV i)
        else
          let iv := upto IVSize data1 in
          let data2 := from IVSize data1 in
          if blen data2 <? storedSize then Err (MissingCiphertext i)
          else
            match gcm_open (dkey d) iv (upto storedSize data2) with
            | None => Err (OpenFailedChunk i)
            | Some decrypted =>
                decompress_chunk compressed i decrypted ≫= fun p =>
                open_frames d maxStored isComp trailing n' (i + 1) (from storedSize data2) ≫= fun rest =>
                Ok (p ++ rest)
            end
  end.

Definition gb2_flag (b : byte) : bool := negb (bool_decide (b = x00)).
Definition gb3_flag (b : byte) : bool := negb (Z.land (b2z b) GB3FlagChunkCompressed =? 0).

Definition decryptLargeV2 (d : Decryptor) (data : bytes) : result cerr bytes :=
  if blen data <? ChunkCountSize then Err (Gb2TooShort (blen data))
  else
    let chunkCount := be_get (upto ChunkCountSize data) in
    if (chunkCount =? 0) || (MaxChunkCount <=? chunkCount) then Err (Gb2BadCount chunkCount)
    else
      newGCM (dkey d) ≫= fun _ =>
      open_frames d MaxStoredSize gb2_flag Gb2Trailing (Z.to_nat chunkCount) 0 (from ChunkCountSize data).

Definition decryptLargeV3 (d : Decryptor) (full : bytes) : result cerr bytes :=
  ParseGB3Header full ≫= fun hdr =>
  newGCM (dkey d) ≫= fun _ =>
  open_frames d (hChunkSize hdr + TagSize + 1024) gb3_flag Gb3Trailing
    (Z.to_nat (ChunkCount hdr)) 0 (from GB3HeaderSize full).

Definition Decrypt (d : Decryptor) (ciphertext : bytes) : result cerr bytes :=
  if blen ciphertext <? MagicSize then Err (DataTooShort (blen ciphertext))
  else
    let magic := upto MagicSize ciphertext in
    let data := from MagicSize ciphertext in
    if bool_decide (magic = MagicGB3) then decryptLargeV3 d ciphertext
    else if bool_decide (magic = MagicGB2) then decryptLargeV2 d data
    else if bool_decide (magic = MagicGB1) then
      if (ChunkCountSize <? blen data) && isChunkCount (upto ChunkCountSize data) then
        match decryptLarge d data with
        | Ok p => Ok p
        | Err err => match decryptSmall d data with Ok p => Ok p | Err _ => Err err end
        end
      else
        match decryptSmall d data with
        | Ok p => Ok p
        | Err err =>
            if ChunkCountSize <? blen data then
              match decryptLarge d data with Ok p => Ok p | Err _ => Err err end
            else Err err
        end
    else Err (InvalidMagic magic).

Definition DecryptStream (d : Decryptor) (r : reader) : result cerr bytes :=
  match read_all_limit (MaxBlobSize + 1) r with
  | None => Err ReadFailed
  | Some data => if MaxBlobSize <? blen data then Err BlobTooLarge else Decrypt d data
  end.

End Ops.

(** ** Manifests *)

Section Manifest.
Context `{AE : AEAD, ZS : Zstd, HK : Hkdf}.

(** The bytes of "gbf/metadata-key/v1". *)
Definition metadataKeyPurpose : bytes :=
  [x67; x62; x66; x2f; x6d; x65; x74; x61; x64; x61; x74; x61; x2d; x6b; x65; x79; x2f; x76; x31].

Definition DeriveMetadataKey (masterKey : bytes) : bytes := hkdf32 masterKey metadataKeyPurpose.

Definition EncryptManifest (plaintext key ent : bytes) : result cerr (bytes * bytes) :=
  let key := DeriveMetadataKey key in
  newGCM key ≫= fun _ =>
  match rand_read IVSize ent with
  | None => Err RandFail
  | Some (iv, ent') => Ok (GKM1Magic ++ iv ++ gcm_seal key iv plaintext, ent')
  end.

Definition DecryptManifest (data key : bytes) : result cerr bytes :=
  if (blen data <? MagicSize) || negb (bool_decide (upto MagicSize data = GKM1Magic)) then Err NotGKM1
  else
    let payload := from MagicSize data in
    match decryptSmall (NewDecryptor (DeriveMetadataKey key) DefaultChunkSize) payload with
    | Ok p => Ok p
    | Err _ => decryptSmall (NewDecryptor key DefaultChunkSize) payload
    end.

Definition DecryptIfEncrypted (data key : bytes) : result cerr bytes :=
  if blen data <? MagicSize then Ok data
  else
    let magic := upto MagicSize data in
    if bool_decide (magic = GKM1Magic) then DecryptManifest data key
    else if negb (IsEncryptedBlob data) then Err (UnknownMagic magic)
    else if blen key =? 0 then Err KeyRequired
    else Decrypt (NewDecryptor key DefaultChunkSize) data.

End Manifest.

(** * Facts *)

Section Facts.
Context `{AE : AEAD, ZS : Zstd}.

Lemma newGCM_ok k : newGCM k = Ok () -> forall {A} (f : unit -> result cerr A), newGCM k ≫= f = f ().
Proof. intros H A f. by rewrite H. Qed.

Lemma newSmallBlobIV_loop_ok fuel ent iv ent' :
  newSmallBlobIV_loop fuel ent = Ok (iv, ent') ->
  blen iv = IVSize /\ isChunkCount (upto ChunkCountSize iv) = false.
Proof.
  revert ent. induction fuel as [|fuel IH]; intros ent; cbn; [done |].
  destruct (rand_read IVSize ent) as [[iv1 ent1]|] eqn:E; [|done].
  destruct (isChunkCount (upto ChunkCountSize iv1)) eqn:C; cbn; [apply IH |].
  intros [= <- <-]. apply rand_read_some in E as [? _]; [done | by cbv].
Qed.

Lemma newSmallBlobIV_ok ent iv ent' :
  newSmallBlobIV ent = Ok (iv, ent') ->
  blen iv = IVSize /\ isChunkCount (upto ChunkCountSize iv) = false.
Proof. apply newSmallBlobIV_loop_ok. Qed.

(** The supply bounds the attempts: more fuel changes nothing. *)
Lemma newSmallBlobIV_fuel ent fuel1 fuel2 :
  (length ent < fuel1)%nat -> (length ent < fuel2)%nat ->
  newSmallBlobIV_loop fuel1 ent = newSmallBlobIV_loop fuel2 ent.
Proof.
  revert ent fuel2. induction fuel1 as [|f1 IH]; intros ent [|f2] H1 H2; try lia. cbn.
  destruct (rand_read IVSize ent) as [[iv ent1]|] eqn:E; [|done].
  apply rand_read_some in E as [Hl ->]; [| by cbv].
  destruct (isChunkCount _); cbn; [|done]. unfold blen in Hl. rewrite length_app in *.
  apply IH; unfold IVSize in *; lia.
Qed.

(** ** Chunks *)

Lemma chunk_count_spec cs n :
  0 < cs -> 0 <= n -> 0 <= chunk_count cs n /\ n <= chunk_count cs n * cs < n + cs.
Proof.
  intros Hcs Hn. unfold chunk_count.
  pose proof (Z.div_mod (n + cs - 1) cs ltac:(lia)).
  pose proof (Z.mod_pos_bound (n + cs - 1) cs Hcs).
  split; [apply Z.div_pos; lia | nia].
Qed.

Lemma chunk_count_unique cs n k : 0 < cs -> n <= k * cs < n + cs -> chunk_count cs n = k.
Proof.
  intros Hcs H. unfold chunk_count. symmetry.
  apply (Z.div_unique _ _ _ (n + cs - 1 - cs * k)); [left |]; lia.
Qed.

Lemma chunk_at_eq cs p i :
  0 < cs -> 0 <= i -> i * cs <= blen p -> chunk_at cs p i = upto cs (from (i * cs) p).
Proof.
  intros Hcs Hi Hle. unfold chunk_at, slice. go_if.
  - rewrite !upto_all; rewrite ?blen_from; nia || done.
  - f_equal. lia.
Qed.

Lemma from_chunk cs p i :
  0 < cs -> 0 <= i -> i * cs <= blen p ->
  from (i * cs) p = chunk_at cs p i ++ from ((i + 1) * cs) p.
Proof.
  intros Hcs Hi Hle. rewrite chunk_at_eq by done.
  rewrite <- (upto_from cs (from (i * cs) p)) at 1. f_equal.
  rewrite from_from by nia. f_equal. lia.
Qed.

Lemma blen_chunk_at cs p i :
  0 < cs -> 0 <= i -> i * cs <= blen p -> blen (chunk_at cs p i) = Z.min cs (blen p - i * cs).
Proof.
  intros Hcs Hi Hle. rewrite chunk_at_eq, blen_upto_min, blen_from by nia. done.
Qed.

Context `{!AEADSpec AE}.

Lemma open_gb1_seal e d p n : forall i ent body ent',
  0 < echunkSize e -> dkey d = ekey e -> dchunkSize d = echunkSize e ->
  0 <= i -> chunk_count (echunkSize e) (blen p) = i + Z.of_nat n ->
  seal_gb1 e p n i ent = Ok (body, ent') ->
  open_gb1 d n i body = Ok (from (i * echunkSize e) p)
  /\ blen body = blen (from (i * echunkSize e) p) + Z.of_nat n * (IVSize + TagSize).
Proof.
  induction n as [|n IH]; intros i ent body ent' Hcs Hk Hd Hi Hn; cbn.
  { intros [= <- <-]. pose proof (chunk_count_spec (echunkSize e) (blen p) Hcs (blen_nonneg p)).
    rewrite from_all by nia. done. }
  destruct (rand_read IVSize ent) as [[iv ent1]|] eqn:E; [|done].
  apply rand_read_some in E as [Hiv _]; [| by cbv].
  intros ([rest ent2] & Hr & Heq)%bind_ok_inv. apply ok_pair_inv in Heq as [-> ->].
  apply IH in Hr as [Ho Hbl]; try done; try lia.
  pose proof (chunk_count_spec (echunkSize e) (blen p) Hcs (blen_nonneg p)) as [_ Hc].
  assert (Hle : i * (echunkSize e) <= blen p) by nia.
  set (c := chunk_at (echunkSize e) p i) in *. set (s := gcm_seal (ekey e) iv c) in *.
  assert (Hs : blen s = blen c + TagSize) by (by apply gcm_seal_len).
  rewrite from_chunk, (blen_app c) by done. rewrite !blen_app, upto_app, from_app by done.
  rewrite Hd. unfold Overhead, IVSize, TagSize in *.
  assert (Hend : (if blen (s ++ rest) <? (echunkSize e) + 16 then blen (s ++ rest) else (echunkSize e) + 16) = blen s).
  { rewrite blen_app. pose proof (blen_chunk_at (echunkSize e) p i Hcs Hi Hle) as Hcl. fold c in Hcl.
    destruct n as [|n'].
    - assert (blen (from ((i + 1) * (echunkSize e)) p) = 0) by (rewrite from_all; [done | nia]).
      pose proof (blen_nonneg rest). go_if; nia.
    - pose proof (blen_nonneg rest). assert ((echunkSize e) <= blen p - i * (echunkSize e)) by nia. go_if; lia. }
  rewrite Hend, upto_app, from_app by done.
  destruct (Z.ltb_spec (blen iv + (blen s + blen rest)) 12) as [Hlt|_].
  { pose proof (blen_nonneg s). pose proof (blen_nonneg rest). lia. }
  rewrite Hk. unfold s. rewrite gcm_open_seal by done. fold s. rewrite Ho. cbn.
  split; [done |]. pose proof (blen_nonneg rest). lia.
Qed.

(** ** Framed chunks *)

(** One frame of a GB2 or GB3 blob. *)
Definition frame (flag : byte) (iv c : bytes) : bytes := be_put 4 (blen c) ++ [flag] ++ iv ++ c.

Lemma open_frames_frame d max isC tr n i flag iv c q p rest :
  blen iv = IVSize -> blen c <= max -> blen c < 2 ^ 32 ->
  gcm_open (dkey d) iv c = Some q -> decompress_chunk (isC flag) i q = Ok p ->
  open_frames d max isC tr (S n) i (frame flag iv c ++ rest)
  = (open_frames d max isC tr n (i + 1) rest ≫= fun r => Ok (p ++ r)).
Proof.
  intros Hiv Hmax H32 Ho Hp. pose proof (blen_nonneg c). pose proof (blen_nonneg rest).
  set (h := be_put 4 (blen c) ++ [flag]).
  assert (Hf : frame flag iv c ++ rest = h ++ iv ++ c ++ rest).
  { unfold frame, h. by rewrite <- !app_assoc. }
  assert (Hh : blen h = 5) by (unfold h; rewrite blen_app, blen_be_put; done).
  rewrite Hf. cbn [open_frames]. rewrite !blen_app, Hh, from_app by done. unfold IVSize in Hiv.
  destruct (Z.ltb_spec (5 + (blen iv + (blen c + blen rest))) (ChunkCountSize + FlagsSize)) as [Hl|_];
    [unfold ChunkCountSize, FlagsSize in Hl; lia|].
  assert (Hs : upto ChunkCountSize (h ++ iv ++ c ++ rest) = be_put 4 (blen c)).
  { unfold h. rewrite <- app_assoc. by rewrite upto_app. }
  assert (Hg : nth 4 (h ++ iv ++ c ++ rest) x00 = flag) by done.
  rewrite Hs, Hg, be_get_put_small, upto_app, (from_app IVSize), !blen_app by (done || lia).
  destruct (Z.ltb_spec max (blen c)) as [Hl|_]; [lia |].
  destruct (Z.ltb_spec (blen iv + (blen c + blen rest)) IVSize) as [Hl|_]; [unfold IVSize in Hl; lia |].
  destruct (Z.ltb_spec (blen c + blen rest) (blen c)) as [Hl|_]; [lia |].
  rewrite upto_app, from_app, Ho by done. by rewrite Hp.
Qed.

(** The frames [encryptLargeV3] writes, followed by any bytes [t]. *)
Lemma open_frames_seal e d p max tr n : forall i ent body ent' t,
  0 < echunkSize e < 2 ^ 31 -> dkey d = ekey e -> echunkSize e + TagSize <= max ->
  0 <= i -> chunk_count (echunkSize e) (blen p) = i + Z.of_nat n ->
  seal_gb3 e p n i ent = Ok (body, ent') ->
  open_frames d max gb3_flag tr n i (body ++ t)
  = if blen t =? 0 then Ok (from (i * echunkSize e) p) else Err (tr (blen t)).
Proof.
  induction n as [|n IH]; intros i ent body ent' t Hcs Hk Hmax Hi Hn.
  { cbn. intros [= <- <-]. pose proof (chunk_count_spec (echunkSize e) (blen p) ltac:(lia) (blen_nonneg p)).
    rewrite from_all by nia. done. }
  cbn [seal_gb3]. destruct (rand_read IVSize ent) as [[iv ent1]|] eqn:E; [|done].
  apply rand_read_some in E as [Hiv _]; [| by cbv].
  intros ([rest ent2] & Hr & Heq)%bind_ok_inv. apply ok_pair_inv in Heq as [-> ->].
  pose proof (chunk_count_spec (echunkSize e) (blen p) ltac:(lia) (blen_nonneg p)) as [_ Hc].
  assert (Hle : i * (echunkSize e) <= blen p) by nia.
  pose proof (blen_chunk_at (echunkSize e) p i ltac:(lia) Hi Hle) as Hcl.
  set (c := chunk_at (echunkSize e) p i) in *.
  assert (Hs : blen (gcm_seal (ekey e) iv c) = blen c + TagSize) by (by apply gcm_seal_len).
  unfold TagSize in *.
  match goal with |- open_frames _ _ _ _ _ _ ?b = _ =>
    replace b with (frame x00 iv (gcm_seal (ekey e) iv c) ++ (rest ++ t)) end;
    [| unfold frame; cbn [app]; rewrite <- !app_assoc; cbn [app]; by rewrite <- !app_assoc].
  rewrite (open_frames_frame _ _ _ _ _ _ _ _ _ c c); [| done | lia | lia | | done].
  2:{ rewrite Hk. by apply gcm_open_seal. }
  erewrite IH by (exact Hr || lia || done).
  rewrite (from_chunk (echunkSize e) p i) by lia. by destruct (blen t =? 0).
Qed.

(** ** GB3 header round trip *)

Lemma parse_encode_fields flags comp cs ps rest :
  0 <= flags < 256 -> 0 <= comp < 256 -> 0 <= cs < 2 ^ 32 -> 0 <= ps < 2 ^ 64 ->
  parse_fields (encodeGB3Header flags comp cs ps ++ rest)
  = {| hVersion := 1; hFlags := flags; hHashAlg := 1; hCompressionAlg := comp;
       hEncryptionAlg := 1; hChunkingAlg := 1; hKeyVersion := 1; hChunkSize := cs;
       hPlaintextSize := ps |}.
Proof.
  intros Hf Hc Hcs Hps.
  assert (H10 : slice 10 12 (encodeGB3Header flags comp cs ps ++ rest) = be_put 2 1) by reflexivity.
  assert (H12 : slice 12 16 (encodeGB3Header flags comp cs ps ++ rest) = be_put 4 cs) by reflexivity.
  assert (H16 : slice 16 24 (encodeGB3Header flags comp cs ps ++ rest) = be_put 8 ps) by reflexivity.
  unfold parse_fields. rewrite H10, H12, H16, !be_get_put_small by (cbn; lia).
  change (byte_at 5 _) with (b2z (z2b flags)). change (byte_at 7 _) with (b2z (z2b comp)).
  rewrite !b2z_z2b, !Z.mod_small by done. done.
Qed.

Lemma encodeGB3Header_len flags comp cs ps : blen (encodeGB3Header flags comp cs ps) = GB3HeaderSize.
Proof. done. Qed.

Lemma ParseGB3Header_encode flags comp cs ps rest :
  0 <= flags < 256 -> comp = GB3CompressNone \/ comp = GB3CompressZstd ->
  0 < cs <= MaxGB3ChunkSize -> 0 <= ps < 2 ^ 64 -> ps + cs - 1 < 2 ^ 64 ->
  chunk_count cs ps <= MaxUint32 ->
  ParseGB3Header (encodeGB3Header flags comp cs ps ++ rest)
  = Ok {| hVersion := 1; hFlags := flags; hHashAlg := 1; hCompressionAlg := comp;
          hEncryptionAlg := 1; hChunkingAlg := 1; hKeyVersion := 1; hChunkSize := cs;
          hPlaintextSize := ps |}.
Proof.
  intros Hf Hcomp Hcs Hps Hw Hn. unfold MaxGB3ChunkSize in *. unfold ParseGB3Header.
  rewrite blen_app, encodeGB3Header_len. pose proof (blen_nonneg rest).
  destruct (Z.ltb_spec (GB3HeaderSize + blen rest) GB3HeaderSize) as [Hl|_]; [lia |].
  rewrite parse_encode_fields by (destruct Hcomp; subst; cbv -[Z.lt Z.le] in *; lia).
  cbv zeta. cbn [hVersion hHashAlg hEncryptionAlg hChunkingAlg hCompressionAlg hChunkSize].
  assert (Hc : negb (comp =? GB3CompressNone) && negb (comp =? GB3CompressZstd) = false)
    by (destruct Hcomp; subst; done).
  change (upto MagicSize _) with MagicGB3. rewrite bool_decide_true by done.
  unfold ChunkCount. cbn [hPlaintextSize hChunkSize]. rewrite Z.mod_small by lia.
  fold (chunk_count cs ps). rewrite Hc. cbn.
  destruct (Z.eqb_spec cs 0); [lia|]. unfold MaxGB3ChunkSize.
  destruct (Z.ltb_spec (64 * 1024 * 1024) cs); [lia |].
  by destruct (Z.ltb_spec MaxUint32 (chunk_count cs ps)); [lia |].
Qed.

(** ** The three entry points of [Decrypt] *)

Lemma Decrypt_gb1 d data :
  Decrypt d (MagicGB1 ++ data)
  = if (ChunkCountSize <? blen data) && isChunkCount (upto ChunkCountSize data) then
      match decryptLarge d data with
      | Ok p => Ok p
      | Err err => match decryptSmall d data with Ok p => Ok p | Err _ => Err err end
      end
    else
      match decryptSmall d data with
      | Ok p => Ok p
      | Err err =>
          if ChunkCountSize <? blen data then
            match decryptLarge d data with Ok p => Ok p | Err _ => Err err end
          else Err err
      end.
Proof.
  unfold Decrypt. rewrite upto_app, from_app, blen_app by done.
  pose proof (blen_nonneg data).
  change (blen MagicGB1) with MagicSize.
  by destruct (Z.ltb_spec (MagicSize + blen data) MagicSize); [lia |].
Qed.

Lemma Decrypt_gb2 d data : Decrypt d (MagicGB2 ++ data) = decryptLargeV2 d data.
Proof.
  unfold Decrypt. rewrite upto_app, from_app, blen_app by done.
  pose proof (blen_nonneg data). change (blen MagicGB2) with MagicSize.
  by destruct (Z.ltb_spec (MagicSize + blen data) MagicSize); [lia |].
Qed.

Lemma Decrypt_gb3 d data : Decrypt d (MagicGB3 ++ data) = decryptLargeV3 d (MagicGB3 ++ data).
Proof.
  unfold Decrypt. rewrite upto_app, blen_app by done.
  pose proof (blen_nonneg data). change (blen MagicGB3) with MagicSize.
  by destruct (Z.ltb_spec (MagicSize + blen data) MagicSize); [lia |].
Qed.

Lemma decryptSmall_seal d iv p :
  newGCM (dkey d) = Ok () -> blen iv = IVSize ->
  decryptSmall d (iv ++ gcm_seal (dkey d) iv p) = Ok p.
Proof.
  intros Hk Hiv. unfold decryptSmall.
  rewrite blen_app, gcm_seal_len, upto_app, from_app, Hk by done. pose proof (blen_nonneg p).
  unfold Overhead, TagSize, IVSize in *.
  destruct (Z.ltb_spec (blen iv + (blen p + 16)) (12 + 16)); [lia |].
  cbn. by rewrite gcm_open_seal.
Qed.

Lemma decryptSmall_sealed d k iv p :
  dkey d = k -> newGCM k = Ok () -> blen iv = IVSize ->
  decryptSmall d (iv ++ gcm_seal k iv p) = Ok p.
Proof. intros <-. apply decryptSmall_seal. Qed.

Lemma isChunkCount_count n :
  0 < n < MaxChunkCount -> isChunkCount (be_put 4 n) = true.
Proof.
  intros Hn. unfold isChunkCount, MaxChunkCount in *.
  change (blen (be_put 4 n) <? ChunkCountSize) with false. cbv iota.
  rewrite upto_all by done. rewrite be_get_put_small by (cbn; lia).
  destruct (Z.ltb_spec 0 n), (Z.ltb_spec n 100000); lia || done.
Qed.

Lemma encryptSmall_decrypt e d p ent blob ent' :
  dkey d = ekey e ->
  encryptSmall e p ent = Ok (blob, ent') -> Decrypt d blob = Ok p.
Proof.
  intros Hk. unfold encryptSmall. intros ([] & Hg & H)%bind_ok_inv.
  apply bind_ok_inv in H as ([iv ent1] & Hiv & H). apply ok_pair_inv in H as [-> ->].
  apply newSmallBlobIV_ok in Hiv as [Hl Hc].
  rewrite Decrypt_gb1, <- Hk, decryptSmall_seal by congruence.
  assert (Hu : upto ChunkCountSize (iv ++ gcm_seal (dkey d) iv p) = upto ChunkCountSize iv).
  { unfold upto. apply take_app_le. unfold blen, IVSize in Hl. change (Z.to_nat ChunkCountSize) with 4%nat. lia. }
  rewrite Hu, Hc, andb_false_r. done.
Qed.

Lemma encryptLarge_gb1_decrypt e d p ent body ent' :
  let n := chunk_count (echunkSize e) (blen p) in
  0 < echunkSize e -> dkey d = ekey e -> dchunkSize d = echunkSize e ->
  newGCM (ekey e) = Ok () -> 0 < n < MaxChunkCount ->
  seal_gb1 e p (Z.to_nat n) 0 ent = Ok (body, ent') ->
  Decrypt d (MagicGB1 ++ be_put 4 n ++ body) = Ok p.
Proof.
  intros n Hcs Hk Hd Hg Hn Hs. unfold MaxChunkCount in Hn.
  apply (open_gb1_seal e d) in Hs as [Ho Hl]; try done; [|lia]. rewrite from_0 in Ho, Hl.
  rewrite Decrypt_gb1, upto_app, isChunkCount_count by (unfold MaxChunkCount; done).
  unfold decryptLarge. rewrite upto_app, from_app, be_get_put_small by (done || (cbn; lia)).
  destruct (Z.eqb_spec n 0); [lia |]. unfold MaxChunkCount.
  destruct (Z.leb_spec 100000 n); [lia |]. cbn [orb]. rewrite Hk, Hg. cbn [mbind result_bind]. rewrite Ho.
  destruct (Z.ltb_spec ChunkCountSize (blen (be_put 4 n ++ body))) as [_|Hle]; [done |].
  rewrite blen_app, blen_be_put, Hl in Hle. pose proof (blen_nonneg p).
  unfold ChunkCountSize, IVSize, TagSize in Hle. lia.
Qed.

Lemma encryptLargeV3_decrypt e d p ent blob ent' t :
  0 < echunkSize e <= MaxGB3ChunkSize -> dkey d = ekey e -> blen p < 2 ^ 63 ->
  encryptLargeV3 e p ent = Ok (blob, ent') ->
  Decrypt d (blob ++ t) = if blen t =? 0 then Ok p else Err (Gb3Trailing (blen t)).
Proof.
  intros Hcs Hk Hp. unfold encryptLargeV3. set (n := chunk_count _ _).
  destruct (Z.ltb_spec MaxUint32 n) as [|Hn]; [done |].
  intros ([] & Hg & H)%bind_ok_inv. apply bind_ok_inv in H as ([body ent1] & Hs & H). apply ok_pair_inv in H as [-> ->].
  pose proof (chunk_count_spec (echunkSize e) (blen p) ltac:(lia) (blen_nonneg p)) as [Hn0 _].
  fold n in Hn0. pose proof (blen_nonneg p). rewrite <- app_assoc.
  set (hd := encodeGB3Header _ _ _ _).
  change (hd ++ body ++ t) with (MagicGB3 ++ (drop 4 hd ++ body ++ t)). rewrite Decrypt_gb3.
  change (MagicGB3 ++ (drop 4 hd ++ body ++ t)) with (hd ++ body ++ t). unfold decryptLargeV3, hd.
  unfold MaxGB3ChunkSize in *. rewrite ParseGB3Header_encode by (unfold MaxGB3ChunkSize; lia || (by left) || done).
  unfold mbind at 1, result_bind at 1. rewrite Hk, Hg. cbn [mbind result_bind hChunkSize].
  rewrite from_app by done. unfold ChunkCount. cbn [hChunkSize hPlaintextSize].
  destruct (Z.eqb_spec (echunkSize e) 0); [lia |]. rewrite Z.mod_small by lia.
  change ((blen p + echunkSize e - 1) / echunkSize e) with n.
  by rewrite (open_frames_seal e d p _ _ _ _ ent body ent1) by (done || (unfold TagSize; lia) || (fold n; lia)).
Qed.

End Facts.

(** * Properties *)

Section Properties.
Context `{AE : AEAD, ZS : Zstd}.

Lemma NewEncryptor_pos k cs : 0 < echunkSize (NewEncryptor k cs).
Proof. unfold NewEncryptor, DefaultChunkSize. cbn. go_if; lia. Qed.

Lemma seal_gb1_total e p n : forall i ent,
  Z.of_nat n * IVSize <= blen ent -> exists body ent', seal_gb1 e p n i ent = Ok (body, ent').
Proof.
  unfold IVSize. induction n as [|n IH]; intros i ent H; cbn; [eauto |].
  unfold rand_read, IVSize. destruct (Z.leb_spec 12 (blen ent)); [|lia].
  destruct (IH (i + 1) (from 12 ent)) as (b & r & ->); [rewrite blen_from; lia | cbn; eauto].
Qed.

Lemma seal_gb3_total e p n : forall i ent,
  Z.of_nat n * IVSize <= blen ent -> exists body ent', seal_gb3 e p n i ent = Ok (body, ent').
Proof.
  unfold IVSize. induction n as [|n IH]; intros i ent H; cbn; [eauto |].
  unfold rand_read, IVSize. destruct (Z.leb_spec 12 (blen ent)); [|lia].
  destruct (IH (i + 1) (from 12 ent)) as (b & r & ->); [rewrite blen_from; lia | cbn; eauto].
Qed.

Lemma rand_read_app n a b : n = blen a -> rand_read n (a ++ b) = Some (a, b).
Proof.
  intros ->. unfold rand_read. rewrite blen_app, upto_app, from_app by done.
  pose proof (blen_nonneg b). by destruct (Z.leb_spec (blen a) (blen a + blen b)); [|lia].
Qed.

(** A draw that [newSmallBlobIV] rejects. *)
Definition rejected_draw (v : bytes) : Prop :=
  blen v = IVSize /\ isChunkCount (upto ChunkCountSize v) = true.

Lemma newSmallBlobIV_loop_sound fuel : forall ent iv rest,
  newSmallBlobIV_loop fuel ent = Ok (iv, rest) ->
  exists bads, ent = concat bads ++ iv ++ rest /\ Forall rejected_draw bads.
Proof.
  induction fuel as [|fuel IH]; intros ent iv rest; cbn; [done |].
  destruct (rand_read IVSize ent) as [[v ent1]|] eqn:E; [|done].
  apply rand_read_some in E as [Hl ->]; [| by cbv].
  destruct (isChunkCount (upto ChunkCountSize v)) eqn:C; cbn.
  - intros (bads & -> & Hb)%IH. exists (v :: bads). cbn. rewrite app_assoc. split; [done |].
    by constructor.
  - intros [= <- <-]. by exists [].
Qed.

Lemma newSmallBlobIV_loop_complete bads iv rest : forall fuel,
  Forall rejected_draw bads -> blen iv = IVSize -> isChunkCount (upto ChunkCountSize iv) = false ->
  (length bads < fuel)%nat ->
  newSmallBlobIV_loop fuel (concat bads ++ iv ++ rest) = Ok (iv, rest).
Proof.
  induction bads as [|v bads IH]; intros [|fuel] Hb Hl Hc Hf; cbn in Hf; try lia; cbn.
  - by rewrite rand_read_app, Hc by done.
  - inversion Hb as [|? ? [Hv Hcv] Hb']; subst.
    rewrite <- app_assoc, rand_read_app, Hcv by done. cbn. apply IH; auto; lia.
Qed.

(** [newSmallBlobIV] returns exactly the first 12-byte draw whose first four
    bytes do not read as a chunk count, and consumes the draws up to it. *)
Theorem newSmallBlobIV_spec ent iv rest :
  newSmallBlobIV ent = Ok (iv, rest) <->
  exists bads, ent = concat bads ++ iv ++ rest /\ Forall rejected_draw bads
    /\ blen iv = IVSize /\ isChunkCount (upto ChunkCountSize iv) = false.
Proof.
  split.
  - intros H. pose proof (newSmallBlobIV_ok _ _ _ H).
    apply newSmallBlobIV_loop_sound in H as (bads & ? & ?). eauto.
  - intros (bads & -> & Hb & Hl & Hc). apply newSmallBlobIV_loop_complete; try done.
    rewrite !length_app. enough (length bads <= length (concat bads))%nat by lia.
    clear -Hb. induction Hb as [|v bads [Hv _] _ IH]; cbn; [lia |].
    unfold blen, IVSize in Hv. rewrite length_app. lia.
Qed.

(** With a valid AES key and enough randomness encryption always succeeds,
    and the blob has the size its format prescribes: 32 bytes of overhead for a
    small blob, 8 plus 28 per chunk for a GB1 large blob, 24 plus 33 per chunk
    for GB3. *)
Theorem encrypt_total `{!AEADSpec AE} e p ent :
  let n := chunk_count (echunkSize e) (blen p) in
  newGCM (ekey e) = Ok () -> 0 < echunkSize e -> n <= MaxUint32 ->
  is_ok (newSmallBlobIV ent) = true -> n * IVSize <= blen ent ->
  exists blob ent', Encrypt e p ent = Ok (blob, ent')
    /\ blen blob = blen p + (if blen p <? echunkSize e then 32
                             else if n <? MaxChunkCount then 8 + 28 * n else 24 + 33 * n).
Proof.
  intros n Hg Hcs Hn Hiv He. pose proof (blen_nonneg p).
  destruct (chunk_count_spec (echunkSize e) (blen p) Hcs (blen_nonneg p)) as [Hn0 _]. fold n in Hn0.
  unfold Encrypt. destruct (Z.ltb_spec (blen p) (echunkSize e)).
  - unfold encryptSmall. rewrite Hg. destruct (newSmallBlobIV ent) as [[iv r]|] eqn:E; [|done].
    cbn [mbind result_bind]. do 2 eexists. split; [done |].
    apply newSmallBlobIV_ok in E as [Hl _]. rewrite !blen_app, gcm_seal_len, Hl by done.
    change (blen MagicGB1) with 4. unfold IVSize, Overhead. lia.
  - unfold encryptLarge. fold n. rewrite Z.leb_antisym. destruct (Z.ltb_spec n MaxChunkCount); cbn [negb].
    + rewrite Hg. destruct (seal_gb1_total e p (Z.to_nat n) 0 ent) as (b & r & Hs); [by rewrite Z2Nat.id |].
      rewrite Hs. cbn [mbind result_bind]. do 2 eexists. split; [done |].
      apply (open_gb1_seal e {| dkey := ekey e; dchunkSize := echunkSize e |}) in Hs as [_ Hl];
        try done; [| fold n; lia].
      rewrite from_0 in Hl. rewrite !blen_app, Hl, blen_be_put.
      change (blen MagicGB1) with 4. unfold IVSize, TagSize. lia.
    + unfold encryptLargeV3. fold n. destruct (Z.ltb_spec MaxUint32 n); [lia |]. rewrite Hg.
      destruct (seal_gb3_total e p (Z.to_nat n) 0 ent) as (b & r & Hs); [by rewrite Z2Nat.id |].
      rewrite Hs. cbn [mbind result_bind]. do 2 eexists. split; [done |].
      rewrite blen_app, encodeGB3Header_len.
      enough (Hb : forall m i ent b r, 0 <= i -> n = i + Z.of_nat m -> seal_gb3 e p m i ent = Ok (b, r) ->
        blen b = blen (from (i * echunkSize e) p) + Z.of_nat m * 33).
      { apply Hb in Hs; try lia. rewrite from_0 in Hs. unfold GB3HeaderSize. lia. }
      clear -Hcs AEADSpec0. intros m. induction m as [|m IH]; intros i ent b r Hi Hm.
      * cbn. intros [= <- <-]. pose proof (chunk_count_spec (echunkSize e) (blen p) Hcs (blen_nonneg p)).
        fold n in H. rewrite from_all by nia. done.
      * cbn [seal_gb3]. destruct (rand_read IVSize ent) as [[iv ent1]|] eqn:E; [|done].
        apply rand_read_some in E as [Hiv _]; [| by cbv].
        intros ([rest ent2] & Hr & Heq)%bind_ok_inv. apply ok_pair_inv in Heq as [-> ->].
        apply IH in Hr; [| lia | lia].
        pose proof (chunk_count_spec (echunkSize e) (blen p) Hcs (blen_nonneg p)) as [_ Hc]. fold n in Hc.
        rewrite from_chunk by nia. rewrite !blen_app, gcm_seal_len, blen_be_put by done.
        change (blen [x00]) with 1. unfold IVSize, Overhead in *. lia.
Qed.

Lemma Decrypt_Encrypt `{!AEADSpec AE} key cs p ent blob ent' :
  let e := NewEncryptor key cs in
  blen p < 2 ^ 63 ->
  (MaxChunkCount <= chunk_count (echunkSize e) (blen p) -> echunkSize e <= MaxGB3ChunkSize) ->
  Encrypt e p ent = Ok (blob, ent') ->
  Decrypt (NewDecryptor key cs) blob = Ok p.
Proof.
  intros e Hp H3. pose proof (NewEncryptor_pos key cs) as Hcs. fold e in Hcs. unfold Encrypt.
  destruct (Z.ltb_spec (blen p) (echunkSize e)); [by apply encryptSmall_decrypt |].
  unfold encryptLarge. set (n := chunk_count _ _) in *.
  destruct (Z.leb_spec MaxChunkCount n) as [Hn|Hn].
  - intros Hv. rewrite <- (app_nil_r blob). rewrite (encryptLargeV3_decrypt e _ p ent blob ent'); try done. auto.
  - intros ([] & Hg & H')%bind_ok_inv. apply bind_ok_inv in H' as ([body ent1] & Hs & H').
    apply ok_pair_inv in H' as [-> ->]. apply (encryptLarge_gb1_decrypt e _ _ ent _ ent1); try done.
    pose proof (chunk_count_spec (echunkSize e) (blen p) Hcs (blen_nonneg p)). fold n in H0. fold n. nia.
Qed.

(** C3: decrypting what [Encrypt] wrote returns the plaintext, whichever of the
    small GB1, large GB1 and GB3 layouts was chosen (the GB3 reader accepts chunk
    sizes up to 64 MiB). *)
Theorem decrypt_encrypt `{!AEADSpec AE} key cs p ent blob ent' :
  let e := NewEncryptor key cs in
  blen p < 2 ^ 63 ->
  (MaxChunkCount <= chunk_count (echunkSize e) (blen p) -> echunkSize e <= MaxGB3ChunkSize) ->
  Encrypt e p ent = Ok (blob, ent') ->
  Decrypt (NewDecryptor key cs) blob = Ok p.
Proof. apply Decrypt_Encrypt. Qed.

(** A small blob decrypts even when its IV reads as a chunk count, as long
    as the chunked interpretation does not authenticate (its first chunk fails
    to open, which is what AEAD authentication gives). *)
Theorem decrypt_ambiguous_small `{!AEADSpec AE} d iv p :
  let data := iv ++ gcm_seal (dkey d) iv p in
  let body := from IVSize (from ChunkCountSize data) in
  newGCM (dkey d) = Ok () -> blen iv = IVSize ->
  gcm_open (dkey d) (upto IVSize (from ChunkCountSize data))
    (upto (Z.min (blen body) (dchunkSize d + TagSize)) body) = None ->
  Decrypt d (MagicGB1 ++ data) = Ok p.
Proof.
  intros data body Hg Hiv Hno. rewrite Decrypt_gb1.
  assert (Hsm : decryptSmall d data = Ok p) by (by apply decryptSmall_seal).
  rewrite Hsm. destruct (_ && _); [|done].
  assert (Hl : is_ok (decryptLarge d data) = false).
  { unfold decryptLarge. destruct ((_ =? 0) || _) eqn:Eb; [done |]. rewrite Hg. cbn [mbind result_bind].
    apply orb_false_iff in Eb as [E0 _]. apply Z.eqb_neq in E0.
    destruct (Z.to_nat (be_get (upto ChunkCountSize data))) as [|m] eqn:Em.
    { pose proof (be_get_range (upto ChunkCountSize data)). lia. }
    cbn [open_gb1]. go_if; [done |].
    match goal with |- context [upto ?x _] =>
      match x with (if _ then _ else _) => assert (Hx : x = Z.min (blen body) (dchunkSize d + TagSize)) end end.
    { unfold body. go_if; lia. }
    fold body. fold body in Hx. rewrite Hx, Hno. done. }
  by destruct (decryptLarge d data).
Qed.

(** Bytes appended to a GB3 blob are refused with the trailing-data error. *)
Theorem decrypt_rejects_trailing `{!AEADSpec AE} e d p ent blob ent' t :
  0 < echunkSize e <= MaxGB3ChunkSize -> dkey d = ekey e -> blen p < 2 ^ 63 -> t <> [] ->
  encryptLargeV3 e p ent = Ok (blob, ent') ->
  Decrypt d (blob ++ t) = Err (Gb3Trailing (blen t)).
Proof.
  intros Hcs Hk Hp Ht He. rewrite (encryptLargeV3_decrypt e d p ent blob ent' t) by done.
  destruct (Z.eqb_spec (blen t) 0) as [Hz|]; [|done]. by apply blen_zero in Hz.
Qed.

(** A header [ParseGB3Header] accepts has a chunk size between 1 and 64 MiB
    and at most 2^32-1 chunks, and unless plaintext size plus chunk size passes
    2^64 the chunk count is the number of chunks the plaintext size needs. *)
Theorem gb3_header_valid data h :
  ParseGB3Header data = Ok h ->
  0 < hChunkSize h <= MaxGB3ChunkSize /\ 0 <= ChunkCount h <= MaxUint32
  /\ hVersion h = GB3Version /\ hEncryptionAlg h = GB3EncryptAESGCM
  /\ (hPlaintextSize h + hChunkSize h - 1 < 2 ^ 64 ->
      ChunkCount h = chunk_count (hChunkSize h) (hPlaintextSize h)).
Proof.
  unfold ParseGB3Header.
  repeat (match goal with |- context [if ?b then Err _ else _] => destruct b eqn:? end; [done |]).
  intros Heq%ok_inv. subst h. set (h := parse_fields data) in *.
  assert (0 <= hChunkSize h) by apply be_get_range.
  assert (0 <= hPlaintextSize h) by apply be_get_range.
  unfold ChunkCount in *. destruct (Z.eqb_spec (hChunkSize h) 0); [done |].
  repeat split; try lia.
  - apply Z.div_pos; [apply Z.mod_pos_bound |]; lia.
  - intros Hw. by rewrite Z.mod_small by lia.
Qed.

(** The header the next theorem exhibits: plaintext size 2^64-1, chunk size 2. *)
Definition wrapping_header : bytes := encodeGB3Header 0 GB3CompressNone 2 (2 ^ 64 - 1).

(** The chunk count of an accepted header can wrap to zero: a 24-byte blob
    that declares 2^64-1 plaintext bytes passes every header check and decrypts
    successfully to the empty plaintext under any valid key. *)
Theorem gb3_chunk_count_wraps d :
  newGCM (dkey d) = Ok () ->
  (exists h, ParseGB3Header wrapping_header = Ok h
     /\ hPlaintextSize h = 2 ^ 64 - 1 /\ ChunkCount h = 0)
  /\ Decrypt d wrapping_header = Ok [].
Proof.
  intros Hg. split; [eexists; repeat split; reflexivity |].
  change wrapping_header with (MagicGB3 ++ drop 4 wrapping_header). rewrite Decrypt_gb3.
  unfold decryptLargeV3.
  change (ParseGB3Header (MagicGB3 ++ drop 4 wrapping_header))
    with (Ok (parse_fields wrapping_header) : result cerr GB3Header).
  cbn [mbind result_bind]. by rewrite Hg.
Qed.

(** Whatever [Decrypt] accepts carries one of the three blob magics, and a
    blob too short for its layout is an error, never a plaintext. *)
Theorem decrypt_ok_format `{!AEADSpec AE} d blob p :
  Decrypt d blob = Ok p ->
  IsEncryptedBlob blob = true /\ newGCM (dkey d) = Ok ().
Proof.
  unfold Decrypt, IsEncryptedBlob. destruct (blen blob <? MagicSize); [done |].
  assert (Hs : forall x q, decryptSmall d x = Ok q -> newGCM (dkey d) = Ok ()).
  { intros x q. unfold decryptSmall. go_if; [done |]. by intros ([] & ? & _)%bind_ok_inv. }
  assert (Hl : forall x q, decryptLarge d x = Ok q -> newGCM (dkey d) = Ok ()).
  { intros x q. unfold decryptLarge. go_if; [done |]. by intros ([] & ? & _)%bind_ok_inv. }
  assert (H2 : forall x q, decryptLargeV2 d x = Ok q -> newGCM (dkey d) = Ok ()).
  { intros x q. unfold decryptLargeV2. do 2 (go_if; [done |]). by intros ([] & ? & _)%bind_ok_inv. }
  assert (H3 : forall x q, decryptLargeV3 d x = Ok q -> newGCM (dkey d) = Ok ()).
  { intros x q. by intros (? & _ & ([] & ? & _)%bind_ok_inv)%bind_ok_inv. }
  destruct (bool_decide (_ = MagicGB3)) eqn:E3; [rewrite orb_true_r; eauto |].
  destruct (bool_decide (_ = MagicGB2)) eqn:E2; [rewrite orb_true_r; eauto |].
  destruct (bool_decide (_ = MagicGB1)) eqn:E1; [|done]. intros Hd. split; [done |].
  revert Hd. set (data := from MagicSize blob). destruct (_ && _).
  - destruct (decryptLarge d data) eqn:?; [eauto |]. destruct (decryptSmall d data) eqn:?; [eauto | done].
  - destruct (decryptSmall d data) eqn:?; [eauto |]. go_if; [|done].
    destruct (decryptLarge d data) eqn:?; [eauto | done].
Qed.

End Properties.

Section ManifestProperties.
Context `{AE : AEAD, ZS : Zstd, HK : Hkdf}.

Lemma DecryptManifest_gkm1 key x : DecryptManifest (GKM1Magic ++ x) key =
  match decryptSmall (NewDecryptor (DeriveMetadataKey key) DefaultChunkSize) x with
  | Ok p => Ok p | Err _ => decryptSmall (NewDecryptor key DefaultChunkSize) x end.
Proof.
  unfold DecryptManifest. rewrite upto_app, from_app, blen_app by done. change (blen GKM1Magic) with MagicSize.
  pose proof (blen_nonneg x). by destruct (Z.ltb_spec (MagicSize + blen x) MagicSize); [lia |].
Qed.

Lemma DecryptIfEncrypted_gkm1 key x : DecryptIfEncrypted (GKM1Magic ++ x) key = DecryptManifest (GKM1Magic ++ x) key.
Proof.
  unfold DecryptIfEncrypted. rewrite upto_app, blen_app by done. change (blen GKM1Magic) with MagicSize.
  pose proof (blen_nonneg x). by destruct (Z.ltb_spec (MagicSize + blen x) MagicSize); [lia |].
Qed.

Lemma EncryptManifest_magic p key ent x e' : EncryptManifest p key ent = Ok (x, e') -> exists y, x = GKM1Magic ++ y.
Proof.
  unfold EncryptManifest. destruct (newGCM _); [|done]. cbn [mbind result_bind].
  destruct (rand_read IVSize ent) as [[iv ent']|]; [|done]. intros [= <- <-]. by eexists.
Qed.

(** Encryption under the metadata key succeeds, and its output opens. *)
Lemma EncryptManifest_ok `{!AEADSpec AE, !HkdfSpec HK} p key ent : IVSize <= blen ent ->
  exists x ent', EncryptManifest p key ent = Ok (GKM1Magic ++ x, ent') /\ DecryptManifest (GKM1Magic ++ x) key = Ok p.
Proof.
  intros He. unfold EncryptManifest, rand_read.
  assert (Hg : newGCM (DeriveMetadataKey key) = Ok ()) by (unfold newGCM, DeriveMetadataKey; by rewrite hkdf_len).
  rewrite Hg. cbn [mbind result_bind]. destruct (Z.leb_spec IVSize (blen ent)); [|lia].
  do 2 eexists. split; [done |]. rewrite DecryptManifest_gkm1.
  by rewrite decryptSmall_sealed by (done || (apply blen_upto; done)).
Qed.

(** A manifest encrypted under the metadata key decrypts with the same
    master key, and one written before key separation, under the raw master key,
    decrypts through the fallback when the derived key does not open it. *)
Theorem manifest_roundtrip `{!AEADSpec AE, !HkdfSpec HK} p key ent :
  IVSize <= blen ent ->
  (exists blob ent', EncryptManifest p key ent = Ok (blob, ent')
     /\ DecryptIfEncrypted blob key = Ok p)
  /\ (forall iv, newGCM key = Ok () -> blen iv = IVSize ->
        gcm_open (DeriveMetadataKey key) iv (gcm_seal key iv p) = None ->
        DecryptIfEncrypted (GKM1Magic ++ iv ++ gcm_seal key iv p) key = Ok p).
Proof.
  intros He. split.
  - destruct (EncryptManifest_ok p key ent He) as (x & ent' & -> & Hd). do 2 eexists. split; [done |].
    by rewrite DecryptIfEncrypted_gkm1.
  - intros iv Hg Hiv Hno. rewrite DecryptIfEncrypted_gkm1, DecryptManifest_gkm1.
    rewrite (decryptSmall_sealed (NewDecryptor key DefaultChunkSize) key) by done.
    unfold decryptSmall. rewrite upto_app, from_app by done. cbn [dkey NewDecryptor].
    rewrite Hno. go_if; [done |]. by destruct (newGCM (DeriveMetadataKey key)).
Qed.

End ManifestProperties.

(** ** Witnesses *)

Module CryptoWitness.
Import Toy.

Definition key : bytes := repeat x01 32.
Definition ent : bytes := repeat xaa 240.
Definition msg : bytes := [x01; x02; x03; x04; x05].

Lemma decrypt_encrypt_witness :
  exists blob ent', Encrypt (NewEncryptor key 4) msg ent = Ok (blob, ent')
    /\ Decrypt (NewDecryptor key 4) blob = Ok msg.
Proof.
  destruct (Encrypt (NewEncryptor key 4) msg ent) as [[blob ent']|] eqn:E; [|by vm_compute in E].
  exists blob, ent'. split; [done |].
  apply (decrypt_encrypt key 4 msg ent blob ent'); [done | | exact E].
  intros H. exfalso. vm_compute in H. by apply H.
Defined.

Lemma encrypt_total_witness :
  exists blob ent', Encrypt (NewEncryptor key 4) msg ent = Ok (blob, ent')
    /\ blen blob = 5 + (8 + 28 * 2).
Proof. apply (encrypt_total (NewEncryptor key 4) msg ent); done. Defined.

(** An IV whose first four bytes are the chunk count 1. *)
Definition ambiguous_iv : bytes := [x00; x00; x00; x01] ++ repeat x07 8.

Lemma decrypt_ambiguous_small_witness :
  isChunkCount (upto ChunkCountSize ambiguous_iv) = true
  /\ Decrypt (NewDecryptor key 4) (MagicGB1 ++ ambiguous_iv ++ gcm_seal key ambiguous_iv [x09]) = Ok [x09].
Proof.
  split; [done |].
  apply (decrypt_ambiguous_small (NewDecryptor key 4) ambiguous_iv [x09]); [done | done |].
  by vm_compute.
Defined.

Lemma decrypt_rejects_trailing_witness :
  exists blob ent', encryptLargeV3 (NewEncryptor key 4) msg ent = Ok (blob, ent')
    /\ Decrypt (NewDecryptor key 4) (blob ++ [x00; x00]) = Err (Gb3Trailing 2).
Proof.
  destruct (encryptLargeV3 (NewEncryptor key 4) msg ent) as [[blob ent']|] eqn:E; [|by vm_compute in E].
  exists blob, ent'. split; [done |].
  apply (decrypt_rejects_trailing (NewEncryptor key 4) (NewDecryptor key 4) msg ent blob ent' [x00; x00]);
    done.
Defined.

Lemma gb3_header_valid_witness :
  exists h, ParseGB3Header (encodeGB3Header 0 0 4 10) = Ok h /\ ChunkCount h = 3
    /\ 0 < hChunkSize h <= MaxGB3ChunkSize.
Proof.
  destruct (ParseGB3Header (encodeGB3Header 0 0 4 10)) as [h|] eqn:E; [|by vm_compute in E].
  exists h. pose proof (gb3_header_valid _ _ E) as (Hc & _). split; [done |]. split; [|exact Hc].
  vm_compute in E. by injection E as <-.
Defined.

Lemma gb3_chunk_count_wraps_witness : Decrypt (NewDecryptor key 4) wrapping_header = Ok [].
Proof. apply (gb3_chunk_count_wraps (NewDecryptor key 4)). done. Defined.

Lemma decrypt_ok_format_witness :
  IsEncryptedBlob (MagicGB1 ++ ambiguous_iv ++ gcm_seal key ambiguous_iv [x09]) = true.
Proof.
  apply (decrypt_ok_format (NewDecryptor key 4) _ [x09]). by vm_compute.
Defined.

Lemma manifest_roundtrip_witness :
  exists blob ent', EncryptManifest msg key ent = Ok (blob, ent')
    /\ DecryptIfEncrypted blob key = Ok msg.
Proof. apply (manifest_roundtrip msg key ent). done. Defined.

End CryptoWitness.
