(* ===== verification/Stream.v ===== *)
(** Stream: the streaming encryptor and decryptors ([simple/stream.go]).

    A source file or blob stream is a [reader]; the destination of a streaming
    decryption is the [verifyingWriter] every caller passes, over a file with a
    bounded amount of room (a write past it is a failing [Write]).  The hash
    states ([sha256.New()]) are represented by the bytes fed to them. *)

From S2P Require Import Prelude Externs Compress Crypto.
From stdpp Require Import base list.
From Stdlib.Strings Require Import Byte.
Local Open Scope Z_scope.

Inductive serr :=
| SOpen | SStat | SReadMagic (e : rerr) | SInvalidMagic (m : bytes) | SReadIV (e : rerr)
| SReadCount (e : rerr) | SBadCount (n : Z)
| SReadIVChunk (i : Z) (e : rerr) | SReadChunk (i : Z) (e : rerr) | SReadHeader (i : Z) (e : rerr)
| SReadGB3Header (e : rerr) | SStoredTooBig (i stored max : Z)
| SOpenChunk (i : Z) | SDecompressChunk (i : Z) | SDecompress
| SWrite | SWriteChunk (i : Z) | SRead | STooLarge | SRandChunk (i : Z)
| SCrypto (e : cerr).

#[export] Instance serr_eq_dec : EqDecision serr.
Proof. solve_decision. Defined.

Definition lift {A} (r : result cerr A) : result serr A :=
  match r with Ok a => Ok a | Err e => Err (SCrypto e) end.

(** ** Writers *)

(** An open file being written: its bytes and how many more fit. *)
Record fileW := FileW { fw_data : bytes; fw_room : Z }.

(** [f.Write(p)]: a short write when the room runs out. *)
Definition fw_write (f : fileW) (p : bytes) : fileW * Z * bool :=
  if blen p <=? fw_room f then (FileW (fw_data f ++ p) (fw_room f - blen p), blen p, true)
  else (FileW (fw_data f ++ upto (fw_room f) p) 0, fw_room f, false).

Record verifyingWriter := VW { vw_w : fileW; vw_h : bytes; vw_n : Z }.

Definition vw_Write (vw : verifyingWriter) (p : bytes) : verifyingWriter * bool :=
  let '(w', n, ok) := fw_write (vw_w vw) p in
  if 0 <? n then (VW w' (vw_h vw ++ upto n p) (vw_n vw + n), ok)
  else (VW w' (vw_h vw) (vw_n vw), ok).

Definition vw_put (e : serr) (vw : verifyingWriter) (p : bytes) : result serr verifyingWriter :=
  let '(vw', ok) := vw_Write vw p in if ok then Ok vw' else Err e.

Section Ops.
Context `{AE : AEAD, ZS : Zstd}.

(** ** Encryption *)

(** A source file: what [Stat] reports and what reading it delivers. *)
Record srcFile := SrcFile { sf_size : Z; sf_reader : reader }.

(** Compression of one chunk, as both upload paths do it: only from 64 KiB on
    and only when it makes the chunk smaller. *)
Definition maybe_compress (comp : option Zstd.ZstdCompressor) (chunk : bytes) : bytes * bool :=
  match comp with
  | Some c =>
      if 65536 <=? blen chunk then
        let z := Zstd.Compress c chunk in
        if blen z <? blen chunk then (z, true) else (chunk, false)
      else (chunk, false)
  | None => (chunk, false)
  end.

(** The chunk loop of [encryptFileToWriter]; [framed] is [tryCompress || useGB3]. *)
Fixpoint encrypt_loop (enc : Encryptor) (comp : option Zstd.ZstdCompressor) (framed : bool)
  (n : nat) (i : Z) (src : reader) (dst : fileW) (hashed ent : bytes)
  : result serr (fileW * bytes * bytes) :=
  match n with
  | O => Ok (dst, hashed, ent)
  | S n' =>
      let '(chunk, err, src') := read_full (echunkSize enc) src in
      if bool_decide (err = Some RdErr) then Err (SReadChunk i RdErr)
      else if blen chunk =? 0 then Ok (dst, hashed, ent)
      else
        let hashed' := hashed ++ chunk in
        let '(toStore, compressed) := maybe_compress comp chunk in
        match rand_read IVSize ent with
        | None => Err (SRandChunk i)
        | Some (iv, ent') =>
            let encrypted := gcm_seal (ekey enc) iv toStore in
            let header := if framed
              then be_put 4 (blen encrypted)
                   ++ [z2b (if compressed then GB3FlagChunkCompressed else 0)]
              else [] in
            let '(dst', _, ok) := fw_write dst (header ++ iv ++ encrypted) in
            if ok then encrypt_loop enc comp framed n' (i + 1) src' dst' hashed' ent'
            else Err (SWriteChunk i)
        end
  end.

Definition encryptFileToWriter (enc : Encryptor) (src : srcFile) (dst : fileW)
  (comp : option Zstd.ZstdCompressor) (ent : bytes) : result serr (fileW * bytes * bytes) :=
  lift (newGCM (ekey enc)) ≫= fun _ =>
  let chunkCount := chunk_count (echunkSize enc) (sf_size src) in
  let useGB3 := MaxChunkCount <=? chunkCount in
  let tryCompress := match comp with Some _ => true | None => false end in
  let header :=
    if useGB3 then
      encodeGB3Header (if tryCompress then GB3FlagChunkCompressed else 0)
        (if tryCompress then GB3CompressZstd else GB3CompressNone) (echunkSize enc) (sf_size src)
    else (if tryCompress then MagicGB2 else MagicGB1) ++ be_put 4 chunkCount in
  let '(dst', _, ok) := fw_write dst header in
  if ok then
    encrypt_loop enc comp (tryCompress || useGB3) (Z.to_nat chunkCount) 0 (sf_reader src) dst' [] ent
  else Err SWrite.

(** ** Decryption *)

Definition writeSmallPlaintext (dst : verifyingWriter) (plaintext : bytes) : result serr verifyingWriter :=
  if Zstd.IsCompressed plaintext then
    match Zstd.Decompress defaultStreamDecompressor plaintext with
    | Err _ => Err SDecompress
    | Ok p => vw_put SWrite dst p
    end
  else vw_put SWrite dst plaintext.

Definition readBoundedSmall (initialData : bytes) (src : reader) : result serr bytes :=
  match read_all_limit (MaxBlobSize + 1 - blen initialData) src with
  | None => Err SRead
  | Some rest =>
      let all := initialData ++ rest in
      if MaxBlobSize <? blen all then Err STooLarge else Ok all
  end.

(** [decryptSmallStream] and [decryptSmallStreamFromIV] have the same body. *)
Definition decryptSmallStream (dec : Decryptor) (initialData : bytes) (src : reader)
  (dst : verifyingWriter) : result serr verifyingWriter :=
  readBoundedSmall initialData src ≫= fun all =>
  lift (decryptSmall dec all) ≫= fun plaintext =>
  writeSmallPlaintext dst plaintext.

(** The GB1 chunk loop of [decryptStreamToFile]. *)
Fixpoint stream_gb1 (dec : Decryptor) (countBuf : bytes) (n : nat) (i : Z) (src : reader)
  (dst : verifyingWriter) : result serr verifyingWriter :=
  match n with
  | O => Ok dst
  | S n' =>
      let '(iv, e1, src1) := read_full IVSize src in
      match e1 with
      | Some e => Err (SReadIVChunk i e)
      | None =>
          let '(encrypted, e2, src2) := read_full (dchunkSize dec + TagSize) src1 in
          if bool_decide (e2 = Some RdErr) then Err (SReadChunk i RdErr)
          else
            match gcm_open (dkey dec) iv encrypted with
            | Some decrypted =>
                vw_put (SWriteChunk i) dst decrypted ≫= fun dst' =>
                stream_gb1 dec countBuf n' (i + 1) src2 dst'
            | None =>
                if (i =? 0) && (bool_decide (e2 = Some EOF) || bool_decide (e2 = Some ErrUnexpectedEOF)) then
                  match decryptSmall dec (countBuf ++ iv ++ encrypted) with
                  | Ok plaintext => writeSmallPlaintext dst plaintext
                  | Err _ => Err (SOpenChunk i)
                  end
                else Err (SOpenChunk i)
            end
      end
  end.

(** The framed chunk loop of [decryptGB2StreamToFile] and
    [decryptGB3StreamToFile]. *)
Fixpoint stream_frames (dec : Decryptor) (maxStored : Z) (isComp : byte -> bool) (n : nat) (i : Z)
  (src : reader) (dst : verifyingWriter) : result serr verifyingWriter :=
  match n with
  | O => Ok dst
  | S n' =>
      let '(hdr, e1, src1) := read_full (ChunkCountSize + FlagsSize) src in
      match e1 with
      | Some e => Err (SReadHeader i e)
      | None =>
          let storedSize := be_get (upto ChunkCountSize hdr) in
          let compressed := isComp (nth 4 hdr x00) in
          if maxStored <? storedSize then Err (SStoredTooBig i storedSize maxStored)
          else
            let '(iv, e2, src2) := read_full IVSize src1 in
            match e2 with
            | Some e => Err (SReadIVChunk i e)
            | None =>
                let '(encrypted, e3, src3) := read_full storedSize src2 in
                match e3 with
                | Some e => Err (SReadChunk i e)
                | None =>
                    match gcm_open (dkey dec) iv encrypted with
                    | None => Err (SOpenChunk i)
                    | Some decrypted =>
                        (match decompress_chunk compressed i decrypted with
                         | Ok p => Ok p | Err _ => Err (SDecompressChunk i) end) ≫= fun p =>
                        vw_put (SWriteChunk i) dst p ≫= fun dst' =>
                        stream_frames dec maxStored isComp n' (i + 1) src3 dst'
                    end
                end
            end
      end
  end.

Definition decryptGB2StreamToFile (dec : Decryptor) (src : reader) (dst : verifyingWriter)
  : result serr verifyingWriter :=
  let '(countBuf, e, src') := read_full ChunkCountSize src in
  match e with
  | Some e => Err (SReadCount e)
  | None =>
      let chunkCount := be_get countBuf in
      if (chunkCount =? 0) || (MaxChunkCount <=? chunkCount) then Err (SBadCount chunkCount)
      else
        lift (newGCM (dkey dec)) ≫= fun _ =>
        stream_frames dec MaxStoredSize gb2_flag (Z.to_nat chunkCount) 0 src' dst
  end.

Definition decryptGB3StreamToFile (dec : Decryptor) (src : reader) (dst : verifyingWriter)
  : result serr verifyingWriter :=
  let '(rest, e, src') := read_full (GB3HeaderSize - MagicSize) src in
  match e with
  | Some e => Err (SReadGB3Header e)
  | None =>
      lift (ParseGB3Header (MagicGB3 ++ rest)) ≫= fun hdr =>
      lift (newGCM (dkey dec)) ≫= fun _ =>
      stream_frames dec (hChunkSize hdr + TagSize + 1024) gb3_flag (Z.to_nat (ChunkCount hdr)) 0 src' dst
  end.

Definition decryptStreamToFile (dec : Decryptor) (src : reader) (dst : verifyingWriter)
  : result serr verifyingWriter :=
  let '(magic, e, src1) := read_full MagicSize src in
  match e with
  | Some e => Err (SReadMagic e)
  | None =>
      if bool_decide (magic = MagicGB3) then decryptGB3StreamToFile dec src1 dst
      else if bool_decide (magic = MagicGB2) then decryptGB2StreamToFile dec src1 dst
      else if negb (bool_decide (magic = MagicGB1)) then Err (SInvalidMagic magic)
      else
        let '(got, e, src2) := read_full ChunkCountSize src1 in
        (* the 4-byte buffer is zero past the bytes read *)
        let countBuf := take 4 (got ++ replicate 4 x00) in
        match e with
        | Some _ => decryptSmallStream dec countBuf src2 dst
        | None =>
            if negb (isChunkCount countBuf) then
              let '(ivBuf, e, src3) := read_full (IVSize - blen countBuf) src2 in
              match e with
              | Some e => Err (SReadIV e)
              | None => decryptSmallStream dec (countBuf ++ ivBuf) src3 dst
              end
            else
              lift (newGCM (dkey dec)) ≫= fun _ =>
              stream_gb1 dec countBuf (Z.to_nat (be_get countBuf)) 0 src2 dst
        end
  end.

End Ops.

(** * Facts *)

(** The writer after a successful write of [p]. *)
Definition vw_app (vw : verifyingWriter) (p : bytes) : verifyingWriter :=
  VW (FileW (fw_data (vw_w vw) ++ p) (fw_room (vw_w vw) - blen p)) (vw_h vw ++ p) (vw_n vw + blen p).

Lemma vw_put_ok e vw p : blen p <= fw_room (vw_w vw) -> vw_put e vw p = Ok (vw_app vw p).
Proof.
  intros H. unfold vw_put, vw_Write, fw_write, vw_app.
  destruct (Z.leb_spec (blen p) (fw_room (vw_w vw))); [|lia].
  destruct (Z.ltb_spec 0 (blen p)); [by rewrite upto_all by lia |].
  pose proof (blen_nonneg p). assert (p = []) as -> by (apply blen_zero; lia).
  change (blen []) with 0. by rewrite !app_nil_r, Z.add_0_r.
Qed.

Lemma vw_app_app vw a b : vw_app (vw_app vw a) b = vw_app vw (a ++ b).
Proof. unfold vw_app. cbn. rewrite <- !app_assoc, blen_app. f_equal; [f_equal|]; lia. Qed.

Lemma vw_app_nil vw : vw_app vw [] = vw.
Proof. destruct vw as [[d r] h n]. unfold vw_app. cbn. by rewrite !app_nil_r, Z.sub_0_r, Z.add_0_r. Qed.

Lemma read_full_split n a b f :
  0 <= n <= blen a -> read_full n (Reader (a ++ b) f) = (upto n a, None, Reader (from n a ++ b) f).
Proof.
  intros [Hn H]. unfold read_full. cbn [rd_data rd_fails]. rewrite blen_app.
  pose proof (blen_nonneg b). destruct (Z.leb_spec n (blen a + blen b)); [|lia].
  by rewrite upto_app_le, from_app_le by lia.
Qed.

Section Facts.
Context `{AE : AEAD, ZS : Zstd}.

Lemma nth_upto5 (l : bytes) : nth 4 (upto 5 l) x00 = nth 4 l x00.
Proof. by destruct l as [|? [|? [|? [|? [|? ?]]]]]. Qed.

(** Everything the in-memory framed loop accepts, the streaming loop accepts
    too, whatever follows it in the stream, and it writes the same plaintext. *)
Lemma stream_frames_open d max isC tr n : forall i data p t vw,
  open_frames d max isC tr n i data = Ok p -> blen p <= fw_room (vw_w vw) ->
  stream_frames d max isC n i (Reader (data ++ t) false) vw = Ok (vw_app vw p).
Proof.
  induction n as [|n IH]; intros i data p t vw; cbn [open_frames stream_frames].
  { destruct (blen data =? 0); [|done]. intros ->%ok_inv _. by rewrite vw_app_nil. }
  destruct (Z.ltb_spec (blen data) (ChunkCountSize + FlagsSize)) as [|H5]; [done |].
  change (ChunkCountSize + FlagsSize) with 5 in *. pose proof (be_get_range (upto ChunkCountSize data)) as Hg.
  set (stored := be_get _) in *. set (data1 := from 5 data).
  rewrite read_full_split by lia. rewrite upto_upto, nth_upto5 by (by cbv). fold stored data1.
  destruct (max <? stored); [done |].
  destruct (Z.ltb_spec (blen data1) IVSize) as [|H12]; [done |].
  rewrite read_full_split by (unfold IVSize in *; lia).
  destruct (Z.ltb_spec (blen (from IVSize data1)) stored) as [|Hs]; [done |].
  rewrite read_full_split by lia.
  destruct (gcm_open _ _ _) as [dec|]; [|done].
  destruct (decompress_chunk _ _ _) as [q|]; cbn [mbind result_bind]; [|done].
  intros (r & Hr & ->%ok_inv)%bind_ok_inv Hroom. rewrite blen_app in Hroom.
  pose proof (blen_nonneg q). pose proof (blen_nonneg r).
  rewrite vw_put_ok by lia. cbn [mbind result_bind].
  rewrite (IH _ _ _ _ _ Hr) by (cbn; lia). by rewrite vw_app_app.
Qed.

Lemma stream_gb1_open d cb n : forall i data p vw,
  0 < dchunkSize d -> open_gb1 d n i data = Ok p -> blen p <= fw_room (vw_w vw) ->
  stream_gb1 d cb n i (Reader data false) vw = Ok (vw_app vw p).
Proof.
  induction n as [|n IH]; intros i data p vw Hcs; cbn [open_gb1 stream_gb1].
  { destruct (blen data =? 0); [|done]. intros ->%ok_inv _. by rewrite vw_app_nil. }
  destruct (Z.ltb_spec (blen data) IVSize) as [|H12]; [done |].
  set (data1 := from IVSize data).
  replace (Reader data false) with (Reader (data ++ []) false) by (by rewrite app_nil_r).
  rewrite read_full_split, app_nil_r by (unfold IVSize in *; lia). fold data1.
  match goal with |- context [upto ?x data1] => set (ce := x) end.
  assert (Hrd : exists e2, read_full (dchunkSize d + TagSize) (Reader data1 false)
    = (upto ce data1, e2, Reader (from ce data1) false) /\ e2 <> Some RdErr).
  { unfold read_full, ce. cbn [rd_data rd_fails]. destruct (Z.ltb_spec (blen data1) (dchunkSize d + TagSize)).
    - destruct (Z.leb_spec (dchunkSize d + TagSize) (blen data1)); [lia |].
      rewrite upto_all, from_all by lia. eexists. split; [done | by case_bool_decide].
    - destruct (Z.leb_spec (dchunkSize d + TagSize) (blen data1)); [|lia]. by eexists. }
  destruct Hrd as (e2 & Hrd & He2). rewrite Hrd, bool_decide_false by done.
  destruct (gcm_open _ _ _) as [dec|]; [|done].
  intros (r & Hr & ->%ok_inv)%bind_ok_inv Hroom. rewrite blen_app in Hroom.
  pose proof (blen_nonneg dec). pose proof (blen_nonneg r).
  rewrite vw_put_ok by lia. cbn [mbind result_bind].
  rewrite (IH _ _ _ _ Hcs Hr) by (cbn; lia). by rewrite vw_app_app.
Qed.

(** The in-memory framed loop refuses what it accepts with bytes appended. *)
Lemma open_frames_trailing d max isC tr t n : forall i body p,
  t <> [] -> open_frames d max isC tr n i body = Ok p ->
  exists e, open_frames d max isC tr n i (body ++ t) = Err e.
Proof.
  induction n as [|n IH]; intros i body p Ht; cbn [open_frames].
  - destruct (Z.eqb_spec (blen body) 0) as [Hz|]; [|done]. apply blen_zero in Hz as ->. cbn [app].
    destruct (Z.eqb_spec (blen t) 0) as [Hz|]; [by apply blen_zero in Hz | eauto].
  - rewrite blen_app. pose proof (blen_nonneg t). unfold ChunkCountSize, FlagsSize, IVSize in *.
    destruct (Z.ltb_spec (blen body) (4 + 1)) as [|H5]; [done |].
    destruct (Z.ltb_spec (blen body + blen t) (4 + 1)); [lia |].
    rewrite upto_app_le, from_app_le by lia.
    rewrite app_nth1 by (unfold blen in *; lia). pose proof (be_get_range (upto 4 body)).
    set (st := be_get _) in *. set (b1 := from _ body). destruct (max <? st); [done |].
    rewrite blen_app. destruct (Z.ltb_spec (blen b1) 12); [done |].
    destruct (Z.ltb_spec (blen b1 + blen t) 12); [lia |]. rewrite upto_app_le, from_app_le by lia.
    set (b2 := from _ b1). rewrite blen_app.
    destruct (Z.ltb_spec (blen b2) st); [done |]. destruct (Z.ltb_spec (blen b2 + blen t) st); [lia |].
    rewrite upto_app_le, from_app_le by lia. destruct (gcm_open _ _ _); [|done].
    destruct (decompress_chunk _ _ _); cbn [mbind result_bind]; [|eauto].
    intros (r & Hr & _)%bind_ok_inv. destruct (IH _ _ _ Ht Hr) as [e ->]. cbn. eauto.
Qed.

(** ** What the encryption loop writes *)

Context `{!AEADSpec AE, !ZstdSpec ZS}.

Lemma maybe_compress_spec comp chunk i :
  blen chunk <= MaxDecompressedSize ->
  let '(s, c) := maybe_compress comp chunk in
  blen s <= blen chunk /\ decompress_chunk c i s = Ok chunk.
Proof.
  intros Hm. unfold maybe_compress. destruct comp as [z|]; [|done].
  destruct (65536 <=? blen chunk); [|done].
  destruct (Z.ltb_spec (blen (Zstd.Compress z chunk)) (blen chunk)); [|done]. split; [lia |].
  unfold decompress_chunk.
  change (Zstd.Compress z chunk) with (Zstd.Compress defaultStreamDecompressor chunk).
  by rewrite Zstd.Decompress_Compress.
Qed.

Lemma fw_write_ok f p f' n : fw_write f p = (f', n, true) -> fw_data f' = fw_data f ++ p.
Proof. unfold fw_write. go_if; intros [= <- <-]; done. Qed.

(** Reading the next chunk of a stable file that still has [n+1] chunks. *)
Lemma read_chunk cs data n :
  0 < cs -> chunk_count cs (blen data) = Z.of_nat (S n) ->
  exists err, read_full cs (Reader data false) = (upto cs data, err, Reader (from cs data) false)
    /\ err <> Some RdErr /\ 0 < blen (upto cs data) <= cs
    /\ chunk_count cs (blen (from cs data)) = Z.of_nat n
    /\ (n <> 0%nat -> blen (upto cs data) = cs).
Proof.
  intros Hcs Hn. pose proof (chunk_count_spec cs (blen data) Hcs (blen_nonneg data)) as [_ Hc].
  rewrite Hn, Nat2Z.inj_succ in Hc. assert (Hfrom : blen (from cs data) = Z.max 0 (blen data - cs)).
  { unfold from, blen. rewrite length_drop. lia. }
  unfold read_full. cbn [rd_data rd_fails]. rewrite blen_upto_min by lia.
  destruct (Z.leb_spec cs (blen data)).
  - eexists. split; [done |]. split; [done |]. split; [lia |]. split.
    + apply chunk_count_unique; [done |]. rewrite Hfrom. nia.
    + lia.
  - eexists. rewrite upto_all, from_all by lia. split; [done |]. split; [by case_bool_decide |].
    assert (n = 0%nat) by nia. subst n. split; [nia |]. split; [|done].
    apply chunk_count_unique; [lia |]. change (blen []) with 0. change (Z.of_nat 0) with 0. lia.
Qed.

Lemma encrypt_loop_frames enc d comp isC max tr n : forall i data dst hashed ent dst' h' ent',
  let cs := echunkSize enc in
  0 < cs <= MaxDecompressedSize -> cs + TagSize <= max -> dkey d = ekey enc ->
  isC (z2b GB3FlagChunkCompressed) = true -> isC (z2b 0) = false ->
  chunk_count cs (blen data) = Z.of_nat n ->
  encrypt_loop enc comp true n i (Reader data false) dst hashed ent = Ok (dst', h', ent') ->
  h' = hashed ++ data /\ exists body, fw_data dst' = fw_data dst ++ body
    /\ open_frames d max isC tr n i body = Ok data.
Proof.
  induction n as [|n IH]; intros i data dst hashed ent dst' h' ent' cs Hcs Hmax Hk H1 H0 Hn.
  { cbn. intros [= <- <- <-]. pose proof (chunk_count_spec cs (blen data) ltac:(lia) (blen_nonneg data)).
    pose proof (blen_nonneg data). assert (data = []) as -> by (apply blen_zero; nia).
    rewrite app_nil_r. split; [done |]. exists []. by rewrite app_nil_r. }
  cbn [encrypt_loop].
  destruct (read_chunk cs data n ltac:(lia) Hn) as (err & Hr & He & Hl & Hn' & _). fold cs. rewrite Hr.
  set (chunk := upto cs data) in *. rewrite bool_decide_false by done.
  destruct (Z.eqb_spec (blen chunk) 0); [lia |].
  pose proof (maybe_compress_spec comp chunk i ltac:(lia)) as Hmc.
  destruct (maybe_compress comp chunk) as [s c]. destruct Hmc as [Hs Hdec].
  destruct (rand_read IVSize ent) as [[iv ent1]|] eqn:Eiv; [|done].
  apply rand_read_some in Eiv as [Hiv _]; [| by cbv].
  set (flag := z2b (if c then GB3FlagChunkCompressed else 0)).
  destruct (fw_write dst _) as [[dst1 n1] ok] eqn:Ew. destruct ok; [|done].
  apply fw_write_ok in Ew. intros Hrec. apply IH in Hrec as (-> & body & Hb & Ho); try done.
  rewrite <- app_assoc. unfold chunk. rewrite upto_from. split; [done |].
  exists (frame flag iv (gcm_seal (ekey enc) iv s) ++ body). split.
  { rewrite Hb, Ew. unfold frame. by rewrite <- !app_assoc. }
  pose proof (gcm_seal_len (ekey enc) iv s Hiv) as Hsl. unfold Overhead, TagSize, MaxDecompressedSize in *.
  rewrite (open_frames_frame _ _ _ _ _ _ _ _ _ s chunk); try lia; try done.
  - rewrite Ho. cbn. unfold chunk. by rewrite upto_from.
  - rewrite Hk. by apply gcm_open_seal.
  - unfold flag. destruct c; [by rewrite H1 | by rewrite H0].
Qed.

Lemma encrypt_loop_gb1 enc d n : forall i data dst hashed ent dst' h' ent',
  let cs := echunkSize enc in
  0 < cs -> dkey d = ekey enc -> dchunkSize d = cs ->
  chunk_count cs (blen data) = Z.of_nat n ->
  encrypt_loop enc None false n i (Reader data false) dst hashed ent = Ok (dst', h', ent') ->
  h' = hashed ++ data /\ exists body, fw_data dst' = fw_data dst ++ body
    /\ open_gb1 d n i body = Ok data.
Proof.
  induction n as [|n IH]; intros i data dst hashed ent dst' h' ent' cs Hcs Hk Hd Hn.
  { cbn. intros [= <- <- <-]. pose proof (chunk_count_spec cs (blen data) ltac:(lia) (blen_nonneg data)).
    pose proof (blen_nonneg data). assert (data = []) as -> by (apply blen_zero; nia).
    rewrite app_nil_r. split; [done |]. exists []. by rewrite app_nil_r. }
  cbn [encrypt_loop maybe_compress].
  destruct (read_chunk cs data n ltac:(lia) Hn) as (err & Hr & He & Hl & Hn' & Hfull). fold cs. rewrite Hr.
  set (chunk := upto cs data) in *. rewrite bool_decide_false by done.
  destruct (Z.eqb_spec (blen chunk) 0); [lia |].
  destruct (rand_read IVSize ent) as [[iv ent1]|] eqn:Eiv; [|done].
  apply rand_read_some in Eiv as [Hiv _]; [| by cbv].
  destruct (fw_write dst _) as [[dst1 n1] ok] eqn:Ew. destruct ok; [|done].
  apply fw_write_ok in Ew. intros Hrec. apply IH in Hrec as (-> & body & Hb & Ho); try done.
  rewrite <- app_assoc. unfold chunk. rewrite upto_from. split; [done |].
  set (s := gcm_seal (ekey enc) iv chunk) in *.
  exists (iv ++ s ++ body). split; [rewrite Hb, Ew; cbn [app]; by rewrite <- !app_assoc |].
  assert (Hs : blen s = blen chunk + TagSize) by (by apply gcm_seal_len).
  cbn [open_gb1]. rewrite upto_app, from_app, !blen_app by done. pose proof (blen_nonneg body).
  unfold IVSize, TagSize in *. destruct (Z.ltb_spec (blen iv + (blen s + blen body)) 12); [lia |].
  assert (Hend : (if blen s + blen body <? dchunkSize d + 16 then blen s + blen body
                  else dchunkSize d + 16) = blen s).
  { rewrite Hd. destruct n as [|n'].
    - cbn in Ho. destruct (Z.eqb_spec (blen body) 0); [|done]. go_if; lia.
    - rewrite Hs, Hfull by done. go_if; lia. }
  rewrite Hend, upto_app, from_app by done. rewrite Hk. unfold s. rewrite gcm_open_seal by done.
  rewrite Ho. cbn. unfold chunk. by rewrite upto_from.
Qed.

(** A file that ends before the chunk count taken from its reported size: the
    loop stops early and leaves frames missing. *)
Lemma encrypt_loop_short enc d comp isC max tr n : forall k i data dst hashed ent dst' h' ent',
  let cs := echunkSize enc in
  0 < cs <= MaxDecompressedSize -> cs + TagSize <= max -> dkey d = ekey enc ->
  isC (z2b GB3FlagChunkCompressed) = true -> isC (z2b 0) = false ->
  chunk_count cs (blen data) = Z.of_nat k -> (k < n)%nat ->
  encrypt_loop enc comp true n i (Reader data false) dst hashed ent = Ok (dst', h', ent') ->
  h' = hashed ++ data /\ exists body e, fw_data dst' = fw_data dst ++ body /\ open_frames d max isC tr n i body = Err e.
Proof.
  induction n as [|n IH]; intros k i data dst hashed ent dst' h' ent' cs Hcs Hmax Hk H1 H0 Hn Hkn; [lia |].
  cbn [encrypt_loop]. fold cs. destruct k as [|k].
  { pose proof (chunk_count_spec cs (blen data) ltac:(lia) (blen_nonneg data)).
    pose proof (blen_nonneg data). assert (data = []) as -> by (apply blen_zero; nia).
    unfold read_full. cbn [rd_data rd_fails]. destruct (Z.leb_spec cs (blen [])) as [Hc|_]; [rewrite blen_nil in Hc; lia |].
    rewrite (bool_decide_true (@nil byte = [])) by done. rewrite bool_decide_false by done. cbn. intros [= <- <- <-]. rewrite app_nil_r. split; [done |].
    exists []. rewrite app_nil_r. cbn. eauto. }
  destruct (read_chunk cs data k ltac:(lia) Hn) as (err & Hr & He & Hl & Hn' & _). rewrite Hr.
  set (chunk := upto cs data) in *. rewrite bool_decide_false by done.
  destruct (Z.eqb_spec (blen chunk) 0); [lia |].
  pose proof (maybe_compress_spec comp chunk i ltac:(lia)) as Hmc.
  destruct (maybe_compress comp chunk) as [s c]. destruct Hmc as [Hs Hdec].
  destruct (rand_read IVSize ent) as [[iv ent1]|] eqn:Eiv; [|done].
  apply rand_read_some in Eiv as [Hiv _]; [| by cbv].
  set (flag := z2b (if c then GB3FlagChunkCompressed else 0)).
  destruct (fw_write dst _) as [[dst1 n1] ok] eqn:Ew. destruct ok; [|done].
  apply fw_write_ok in Ew. intros Hrec.
  apply (IH k) in Hrec as (-> & body & e & Hb & Ho); try done; [|lia].
  rewrite <- app_assoc. unfold chunk. rewrite upto_from. split; [done |].
  exists (frame flag iv (gcm_seal (ekey enc) iv s) ++ body), e. split.
  { rewrite Hb, Ew. unfold frame. by rewrite <- !app_assoc. }
  pose proof (gcm_seal_len (ekey enc) iv s Hiv) as Hsl. unfold Overhead, TagSize, MaxDecompressedSize in *.
  rewrite (open_frames_frame _ _ _ _ _ _ _ _ _ s chunk); try lia; try done.
  - by rewrite Ho.
  - rewrite Hk. by apply gcm_open_seal.
  - unfold flag. destruct c; [by rewrite H1 | by rewrite H0].
Qed.

End Facts.

(** ** The verifying writer hashes and counts what it writes *)

Definition vw_good (vw : verifyingWriter) : Prop :=
  vw_h vw = fw_data (vw_w vw) /\ vw_n vw = blen (fw_data (vw_w vw)).

Lemma vw_put_good e vw p vw' : vw_put e vw p = Ok vw' -> vw_good vw -> vw_good vw'.
Proof.
  unfold vw_put, vw_Write, fw_write, vw_good. go_if; [|go_if; done].
  pose proof (blen_nonneg p). go_if; intros ->%ok_inv [Hg Hl]; cbn.
  - by rewrite Hg, Hl, upto_all, blen_app.
  - assert (p = []) as -> by (apply blen_zero; lia). by rewrite app_nil_r.
Qed.

Section Good.
Context `{AE : AEAD, ZS : Zstd}.

Lemma writeSmallPlaintext_good vw p vw' : writeSmallPlaintext vw p = Ok vw' -> vw_good vw -> vw_good vw'.
Proof.
  unfold writeSmallPlaintext. go_if; [|apply vw_put_good].
  destruct (Zstd.Decompress _ _); [apply vw_put_good | done].
Qed.

Lemma decryptSmallStream_good d i r vw vw' : decryptSmallStream d i r vw = Ok vw' -> vw_good vw -> vw_good vw'.
Proof.
  unfold decryptSmallStream. intros (all & _ & H)%bind_ok_inv. apply bind_ok_inv in H as (p & _ & H).
  by eapply writeSmallPlaintext_good.
Qed.

Lemma stream_gb1_good d cb n : forall i r vw vw', stream_gb1 d cb n i r vw = Ok vw' -> vw_good vw -> vw_good vw'.
Proof.
  induction n as [|n IH]; intros i r vw vw'; cbn [stream_gb1]; [by intros ->%ok_inv |].
  destruct (read_full IVSize r) as [[iv [e1|]] r1]; [done |].
  destruct (read_full _ r1) as [[enc e2] r2]. case_bool_decide; [done |].
  destruct (gcm_open _ _ _) as [p|].
  - intros (vw1 & Hw & H1)%bind_ok_inv Hg. eapply IH; [done |]. by eapply vw_put_good.
  - go_if; [|done]. destruct (decryptSmall _ _); [apply writeSmallPlaintext_good | done].
Qed.

Lemma stream_frames_good d max isC n : forall i r vw vw',
  stream_frames d max isC n i r vw = Ok vw' -> vw_good vw -> vw_good vw'.
Proof.
  induction n as [|n IH]; intros i r vw vw'; cbn [stream_frames]; [by intros ->%ok_inv |].
  destruct (read_full _ r) as [[hdr [e1|]] r1]; [done |]. go_if; [done |].
  destruct (read_full _ r1) as [[iv [e2|]] r2]; [done |].
  destruct (read_full _ r2) as [[enc [e3|]] r3]; [done |]. destruct (gcm_open _ _ _); [|done].
  intros (p & _ & H1)%bind_ok_inv. apply bind_ok_inv in H1 as (vw1 & Hw & H1). intros Hg.
  eapply IH; [done |]. by eapply vw_put_good.
Qed.

Lemma decryptStreamToFile_good d r vw vw' : decryptStreamToFile d r vw = Ok vw' -> vw_good vw -> vw_good vw'.
Proof.
  unfold decryptStreamToFile. destruct (read_full _ r) as [[m [e|]] r1]; [done |].
  case_bool_decide; [|case_bool_decide; [|go_if; [done |]]].
  - unfold decryptGB3StreamToFile. destruct (read_full _ r1) as [[h [e|]] r2]; [done |].
    intros (hdr & _ & H1)%bind_ok_inv. apply bind_ok_inv in H1 as ([] & _ & H1). by eapply stream_frames_good.
  - unfold decryptGB2StreamToFile. destruct (read_full _ r1) as [[h [e|]] r2]; [done |].
    go_if; [done |]. intros ([] & _ & H1)%bind_ok_inv. by eapply stream_frames_good.
  - destruct (read_full _ r1) as [[got [e|]] r2]; [apply decryptSmallStream_good |]. go_if.
    + destruct (read_full _ r2) as [[iv [e|]] r3]; [done | apply decryptSmallStream_good].
    + intros ([] & _ & H1)%bind_ok_inv. by eapply stream_gb1_good.
Qed.

End Good.

(** * Properties *)

Section Properties.
Context `{AE : AEAD, ZS : Zstd}.

Lemma read_magic m rest :
  blen m = MagicSize -> read_full MagicSize (Reader (m ++ rest) false) = (m, None, Reader rest false).
Proof. intros. by apply read_full_ok. Qed.

Lemma stream_gb2 d data vw :
  decryptStreamToFile d (Reader (MagicGB2 ++ data) false) vw
  = decryptGB2StreamToFile d (Reader data false) vw.
Proof. unfold decryptStreamToFile. by rewrite read_magic. Qed.

Lemma stream_gb3 d data vw :
  decryptStreamToFile d (Reader (MagicGB3 ++ data) false) vw
  = decryptGB3StreamToFile d (Reader data false) vw.
Proof. unfold decryptStreamToFile. by rewrite read_magic. Qed.

Lemma stream_gb2_open d data t p vw :
  decryptLargeV2 d data = Ok p -> blen p <= fw_room (vw_w vw) ->
  decryptStreamToFile d (Reader (MagicGB2 ++ data ++ t) false) vw = Ok (vw_app vw p).
Proof.
  intros H Hr. rewrite stream_gb2. unfold decryptGB2StreamToFile. revert H. unfold decryptLargeV2.
  destruct (Z.ltb_spec (blen data) ChunkCountSize); [done |].
  rewrite read_full_split by (unfold ChunkCountSize in *; lia).
  destruct (_ || _); [done |]. intros ([] & Hg & Ho)%bind_ok_inv. rewrite Hg. cbn [lift mbind result_bind].
  by eapply stream_frames_open.
Qed.

Lemma stream_gb3_open d data t p vw :
  decryptLargeV3 d (MagicGB3 ++ data) = Ok p -> blen p <= fw_room (vw_w vw) ->
  decryptStreamToFile d (Reader (MagicGB3 ++ data ++ t) false) vw = Ok (vw_app vw p).
Proof.
  intros H Hr. rewrite stream_gb3. unfold decryptGB3StreamToFile. unfold decryptLargeV3 in H.
  apply bind_ok_inv in H as (hdr & Hp & H). apply bind_ok_inv in H as ([] & Hg & Ho).
  assert (Hl : GB3HeaderSize <= blen (MagicGB3 ++ data)).
  { unfold ParseGB3Header in Hp. by destruct (Z.ltb_spec (blen (MagicGB3 ++ data)) GB3HeaderSize). }
  rewrite blen_app in Hl. change (blen MagicGB3) with 4 in Hl. unfold GB3HeaderSize in Hl.
  rewrite read_full_split by (unfold GB3HeaderSize, MagicSize; lia).
  change (GB3HeaderSize - MagicSize) with 20.
  assert (Hpe : ParseGB3Header (MagicGB3 ++ upto 20 data) = ParseGB3Header (MagicGB3 ++ data)).
  { assert (Hu : MagicGB3 ++ upto 20 data = upto 24 (MagicGB3 ++ data)) by done. rewrite Hu.
    unfold ParseGB3Header. rewrite blen_upto by (rewrite blen_app; change (blen MagicGB3) with 4; lia).
    rewrite blen_app. change (blen MagicGB3) with 4. unfold GB3HeaderSize.
    destruct (Z.ltb_spec (4 + blen data) 24); [lia |]. rewrite upto_upto by (by cbv).
    assert (Hf : parse_fields (upto 24 (MagicGB3 ++ data)) = parse_fields (MagicGB3 ++ data)).
    { unfold blen in Hl. do 20 (destruct data as [|? data]; [cbn in Hl; lia |]). done. }
    by rewrite Hf. }
  rewrite Hpe, Hp, Hg. cbn [lift mbind result_bind].
  eapply stream_frames_open; [|done].
  change (from GB3HeaderSize (MagicGB3 ++ data)) with (from 20 data) in Ho. exact Ho.
Qed.

Lemma stream_gb1_large d data p vw :
  0 < dchunkSize d -> blen p <= fw_room (vw_w vw) -> ChunkCountSize <= blen data ->
  decryptLarge d data = Ok p ->
  decryptStreamToFile d (Reader (MagicGB1 ++ data) false) vw = Ok (vw_app vw p).
Proof.
  intros Hcs Hr Hd Hl. unfold decryptStreamToFile. rewrite read_magic by done.
  change (bool_decide (MagicGB1 = MagicGB3)) with false. change (bool_decide (MagicGB1 = MagicGB2)) with false.
  cbv iota. change (negb (bool_decide (MagicGB1 = MagicGB1))) with false. cbv iota.
  rewrite <- (app_nil_r data) at 1. rewrite read_full_split by (unfold ChunkCountSize in *; lia).
  rewrite app_nil_r. unfold decryptLarge in Hl. set (cb := upto ChunkCountSize data) in *.
  assert (Hcb : blen cb = 4) by (apply blen_upto; unfold ChunkCountSize in *; lia).
  assert (Hpad : take 4 (cb ++ replicate 4 x00) = cb).
  { apply take_app_length'. unfold blen in Hcb. lia. }
  rewrite Hpad. destruct ((be_get cb =? 0) || _) eqn:Eb; [done |].
  apply bind_ok_inv in Hl as ([] & Hg & Ho). pose proof (be_get_range cb).
  assert (Hcc : isChunkCount cb = true).
  { unfold isChunkCount. rewrite Hcb, upto_all by lia. cbn.
    destruct (Z.ltb_spec 0 (be_get cb)), (Z.ltb_spec (be_get cb) MaxChunkCount); try done; lia. }
  rewrite Hcc, Hg. cbn [negb lift mbind result_bind]. by apply stream_gb1_open.
Qed.

(** C32: on a chunked blob (GB2, GB3, or GB1 whose chunk count opens) the
    streaming decoder writes exactly the plaintext the in-memory decoder
    returns, and the verifying writer hashes and counts exactly those bytes. *)
Theorem stream_refines_decrypt d vw p data :
  0 < dchunkSize d -> blen p <= fw_room (vw_w vw) ->
  (decryptLargeV2 d data = Ok p ->
     decryptStreamToFile d (Reader (MagicGB2 ++ data) false) vw = Ok (vw_app vw p))
  /\ (decryptLargeV3 d (MagicGB3 ++ data) = Ok p ->
     decryptStreamToFile d (Reader (MagicGB3 ++ data) false) vw = Ok (vw_app vw p))
  /\ (ChunkCountSize <= blen data -> decryptLarge d data = Ok p ->
     decryptStreamToFile d (Reader (MagicGB1 ++ data) false) vw = Ok (vw_app vw p)).
Proof.
  intros Hcs Hr. split; [|split].
  - intros H. rewrite <- (app_nil_r data) at 1. by apply stream_gb2_open.
  - intros H. rewrite <- (app_nil_r data) at 1. by apply stream_gb3_open.
  - intros Hd Hl. by apply stream_gb1_large.
Qed.

Lemma decryptStreamToFile_small `{!AEADSpec AE} d iv p vw :
  newGCM (dkey d) = Ok () -> blen iv = IVSize -> isChunkCount (upto ChunkCountSize iv) = false ->
  blen p + IVSize + TagSize <= MaxBlobSize ->
  decryptStreamToFile d (Reader (MagicGB1 ++ iv ++ gcm_seal (dkey d) iv p) false) vw
  = writeSmallPlaintext vw p.
Proof.
  intros Hg Hiv Hc Hmax. unfold decryptStreamToFile. rewrite read_magic by done.
  change (bool_decide (MagicGB1 = MagicGB3)) with false. change (bool_decide (MagicGB1 = MagicGB2)) with false.
  cbv iota. change (negb (bool_decide (MagicGB1 = MagicGB1))) with false. cbv iota.
  set (s := gcm_seal (dkey d) iv p). unfold IVSize in Hiv.
  rewrite read_full_split by (unfold ChunkCountSize; lia). set (cb := upto ChunkCountSize iv) in *.
  assert (Hcb : blen cb = 4) by (apply blen_upto; unfold ChunkCountSize; lia).
  assert (Hpad : take 4 (cb ++ replicate 4 x00) = cb).
  { apply take_app_length'. unfold blen in Hcb. lia. }
  rewrite Hpad, Hc. cbn [negb]. rewrite read_full_ok.
  2:{ rewrite Hcb, blen_from by (unfold ChunkCountSize; lia). unfold ChunkCountSize, IVSize. lia. }
  unfold cb. rewrite upto_from. unfold decryptSmallStream, readBoundedSmall.
  assert (Hs : blen s = blen p + TagSize) by (by apply gcm_seal_len).
  unfold TagSize, IVSize in *. rewrite read_all_limit_ok by lia. rewrite blen_app.
  destruct (Z.ltb_spec MaxBlobSize (blen iv + blen s)); [lia |]. cbn [mbind result_bind].
  unfold s. by rewrite decryptSmall_seal by done.
Qed.

(** A small GB1 blob whose IV is not a chunk count goes through the
    streaming decoder to the decompressed plaintext when the plaintext carries
    the zstd magic, and to the plaintext itself otherwise. *)
Theorem stream_small `{!AEADSpec AE} d iv p vw :
  newGCM (dkey d) = Ok () -> blen iv = IVSize -> isChunkCount (upto ChunkCountSize iv) = false ->
  blen p + IVSize + TagSize <= MaxBlobSize ->
  decryptStreamToFile d (Reader (MagicGB1 ++ iv ++ gcm_seal (dkey d) iv p) false) vw
  = writeSmallPlaintext vw p.
Proof. apply decryptStreamToFile_small. Qed.

Lemma decryptStreamToFile_encryptFileToWriter `{!AEADSpec AE, !ZstdSpec ZS} enc d comp data room ent dst' h ent' vw :
  let cs := echunkSize enc in
  let n := chunk_count cs (blen data) in
  0 < cs -> cs + TagSize <= MaxStoredSize -> dkey d = ekey enc -> dchunkSize d = cs ->
  0 < blen data < 2 ^ 63 -> n <= MaxUint32 -> blen data <= fw_room (vw_w vw) ->
  encryptFileToWriter enc (SrcFile (blen data) (Reader data false)) (FileW [] room) comp ent
    = Ok (dst', h, ent') ->
  h = data /\ decryptStreamToFile d (Reader (fw_data dst') false) vw = Ok (vw_app vw data).
Proof.
  intros cs n Hcs Hms Hk Hd Hdata Hn Hroom. unfold encryptFileToWriter. cbn [sf_size sf_reader].
  fold cs. fold n. unfold MaxStoredSize, DefaultChunkSize, TagSize in Hms.
  pose proof (chunk_count_spec cs (blen data) Hcs (blen_nonneg data)) as [Hn0 Hnc]. fold n in Hn0, Hnc.
  intros ([] & Hg & H)%bind_ok_inv. destruct (newGCM (ekey enc)) as [[]|] eqn:Hg'; [|done]. clear Hg.
  destruct (fw_write _ _) as [[dst1 n1] ok] eqn:Ew. destruct ok; [|done].
  apply fw_write_ok in Ew. cbn [app fw_data] in Ew.
  destruct (Z.leb_spec MaxChunkCount n) as [H3|H3].
  - rewrite orb_true_r in H.
    apply (encrypt_loop_frames enc d comp gb3_flag (cs + TagSize + 1024) Gb3Trailing) in H
      as (Hh & body & Hb & Ho); try done;
      [| fold cs; unfold MaxDecompressedSize; lia | fold cs; unfold TagSize; lia | fold cs; fold n; lia].
    split; [done |]. rewrite Hb, Ew. set (hd := encodeGB3Header _ _ _ _).
    change (hd ++ body) with (MagicGB3 ++ drop 4 hd ++ body). rewrite <- (app_nil_r (drop 4 hd ++ body)).
    apply stream_gb3_open; [|done]. change (MagicGB3 ++ drop 4 hd ++ body) with (hd ++ body).
    unfold decryptLargeV3, hd.
    rewrite ParseGB3Header_encode by (unfold MaxGB3ChunkSize; destruct comp; lia || (by left) || (by right) || done).
    cbn [mbind result_bind hChunkSize]. rewrite Hk, Hg'. cbn [mbind result_bind].
    unfold ChunkCount. cbn [hChunkSize hPlaintextSize]. destruct (Z.eqb_spec cs 0); [lia |].
    rewrite Z.mod_small by lia. rewrite from_app by done. done.
  - rewrite orb_false_r in H. unfold MaxChunkCount in H3.
    assert (Hbad : (n =? 0) || (MaxChunkCount <=? n) = false).
    { apply orb_false_iff. unfold MaxChunkCount. split; [apply Z.eqb_neq; nia | apply Z.leb_gt; lia]. }
    destruct comp as [c|].
    + apply (encrypt_loop_frames enc d (Some c) gb2_flag MaxStoredSize Gb2Trailing) in H
        as (Hh & body & Hb & Ho); try done;
        try (fold cs; fold n; unfold MaxStoredSize, DefaultChunkSize, MaxDecompressedSize, TagSize; lia).
      split; [done |]. rewrite Hb, Ew, <- app_assoc, <- (app_nil_r (be_put 4 n ++ body)).
      apply stream_gb2_open; [|done]. unfold decryptLargeV2.
      rewrite blen_app, upto_app, from_app, be_get_put_small, Hbad by (done || (cbn; lia)).
      pose proof (blen_nonneg body). destruct (Z.ltb_spec (blen (be_put 4 n) + blen body) ChunkCountSize).
      { rewrite blen_be_put in *. unfold ChunkCountSize in *. lia. }
      by rewrite Hk, Hg'.
    + apply (encrypt_loop_gb1 enc d) in H as (Hh & body & Hb & Ho); try done; [| fold cs; fold n; lia].
      split; [done |]. rewrite Hb, Ew, <- app_assoc.
      apply stream_gb1_large; [lia | done | | ].
      { rewrite blen_app, blen_be_put. pose proof (blen_nonneg body). unfold ChunkCountSize. lia. }
      unfold decryptLarge. rewrite upto_app, from_app, be_get_put_small, Hbad by (done || (cbn; lia)).
      by rewrite Hk, Hg'.
Qed.

(** C4: a stable, non-empty file that [encryptFileToWriter] encrypts into an
    empty temporary file without an error, with a chunk size of at most 4 MiB
    and 1 KiB and at most 2^32 - 1 chunks, comes back byte for byte from
    [decryptStreamToFile] under the same key and chunk size to a target that has
    room for it, in each of the GB1, GB2 and GB3 layouts and with or without
    compression; the hash pass sees exactly the file's bytes. *)
Theorem stream_roundtrip `{!AEADSpec AE, !ZstdSpec ZS} enc d comp data room ent dst' h ent' vw :
  let cs := echunkSize enc in
  let n := chunk_count cs (blen data) in
  0 < cs -> cs + TagSize <= MaxStoredSize -> dkey d = ekey enc -> dchunkSize d = cs ->
  0 < blen data < 2 ^ 63 -> n <= MaxUint32 -> blen data <= fw_room (vw_w vw) ->
  encryptFileToWriter enc (SrcFile (blen data) (Reader data false)) (FileW [] room) comp ent
    = Ok (dst', h, ent') ->
  h = data /\ decryptStreamToFile d (Reader (fw_data dst') false) vw = Ok (vw_app vw data).
Proof. apply decryptStreamToFile_encryptFileToWriter. Qed.

(** The streaming decoder has no trailing-data check: a GB2 blob followed by
    any bytes, which the in-memory decoder refuses, streams to success with the
    same plaintext. *)
Theorem stream_accepts_trailing d data p t vw :
  decryptLargeV2 d data = Ok p -> t <> [] -> blen p <= fw_room (vw_w vw) ->
  (exists e, Decrypt d (MagicGB2 ++ data ++ t) = Err e)
  /\ decryptStreamToFile d (Reader (MagicGB2 ++ data ++ t) false) vw = Ok (vw_app vw p).
Proof.
  intros H Ht Hr. split; [|by apply stream_gb2_open].
  rewrite Decrypt_gb2. revert H. unfold decryptLargeV2. rewrite blen_app. pose proof (blen_nonneg t).
  destruct (Z.ltb_spec (blen data) ChunkCountSize) as [|H4]; [done |].
  destruct (Z.ltb_spec (blen data + blen t) ChunkCountSize); [lia |]. unfold ChunkCountSize in *.
  rewrite upto_app_le, from_app_le by lia.
  destruct (_ || _); [done |]. intros ([] & -> & Ho)%bind_ok_inv. cbn [mbind result_bind].
  by eapply open_frames_trailing.
Qed.

(** A file that shrinks between the size check and the read is encrypted
    without complaint: the hash pass names the bytes actually read, but the
    header promises more chunks than were written, so the blob stored under
    that name never decrypts. *)
Theorem shrunk_file_unreadable `{!AEADSpec AE, !ZstdSpec ZS} enc d c size data room ent dst' h ent' :
  let cs := echunkSize enc in
  0 < cs -> cs + TagSize <= MaxStoredSize -> dkey d = ekey enc ->
  chunk_count cs (blen data) < chunk_count cs size < MaxChunkCount ->
  encryptFileToWriter enc (SrcFile size (Reader data false)) (FileW [] room) (Some c) ent = Ok (dst', h, ent') ->
  h = data /\ exists e, Decrypt d (fw_data dst') = Err e.
Proof.
  intros cs Hcs Hms Hk Hn. unfold encryptFileToWriter. cbn [sf_size sf_reader]. fold cs.
  set (n := chunk_count cs size) in *. unfold MaxStoredSize, DefaultChunkSize, TagSize in Hms.
  pose proof (chunk_count_spec cs (blen data) Hcs (blen_nonneg data)) as [Hn0 _].
  intros ([] & Hg & H)%bind_ok_inv. destruct (newGCM (ekey enc)) as [[]|] eqn:Hg'; [|done]. clear Hg.
  destruct (fw_write _ _) as [[dst1 n1] ok] eqn:Ew. destruct ok; [|done].
  apply fw_write_ok in Ew. cbn [app fw_data] in Ew.
  destruct (Z.leb_spec MaxChunkCount n) as [H3|H3]; [lia |]. unfold MaxChunkCount in *. cbn [orb] in H.
  apply (encrypt_loop_short enc d (Some c) gb2_flag MaxStoredSize Gb2Trailing _ (Z.to_nat (chunk_count cs (blen data)))) in H
    as (Hh & body & e & Hb & Ho); try done;
    try (fold cs; unfold MaxStoredSize, DefaultChunkSize, MaxDecompressedSize, TagSize; lia).
  split; [done |]. exists e. rewrite Hb, Ew, <- app_assoc, Decrypt_gb2. unfold decryptLargeV2.
  rewrite blen_app, upto_app, from_app, be_get_put_small by (done || (cbn; lia)).
  pose proof (blen_nonneg body). destruct (Z.ltb_spec (blen (be_put 4 n) + blen body) ChunkCountSize).
  { rewrite blen_be_put in *. unfold ChunkCountSize in *. lia. }
  assert ((n =? 0) || (MaxChunkCount <=? n) = false) as ->.
  { apply orb_false_iff. unfold MaxChunkCount. split; [apply Z.eqb_neq; lia | apply Z.leb_gt; lia]. }
  rewrite Hk, Hg'. exact Ho.
Qed.

End Properties.

(** ** Witnesses *)

Module StreamWitness.
Import Toy CryptoWitness.

Definition vw0 : verifyingWriter := VW (FileW [] 1000) [] 0.
Definition enc := NewEncryptor key 4.
Definition dec := NewDecryptor key 4.
Definition src : srcFile := SrcFile 5 (Reader msg false).
Definition comp : option Zstd.ZstdCompressor := Some (Zstd.NewZstdCompressor 4 1).

(** The GB2 body (after the magic) of [msg]. *)
Definition gb2_blob : bytes :=
  match encryptFileToWriter enc src (FileW [] 1000) comp ent with
  | Ok (f, _, _) => fw_data f | Err _ => [] end.
Definition gb2_body : bytes := drop 4 gb2_blob.

Lemma stream_refines_decrypt_witness :
  decryptStreamToFile dec (Reader (MagicGB2 ++ gb2_body) false) vw0 = Ok (vw_app vw0 msg).
Proof. refine (proj1 (stream_refines_decrypt dec vw0 msg gb2_body _ _) _); by vm_compute. Defined.

Lemma stream_small_witness :
  let iv := repeat xaa 12 in
  decryptStreamToFile dec (Reader (MagicGB1 ++ iv ++ gcm_seal key iv msg) false) vw0
  = Ok (vw_app vw0 msg).
Proof. cbv zeta. etrans; [apply (stream_small dec (repeat xaa 12) msg vw0); by vm_compute | by vm_compute]. Defined.

Lemma stream_roundtrip_witness :
  exists f h ent', encryptFileToWriter enc src (FileW [] 1000) comp ent = Ok (f, h, ent')
    /\ h = msg /\ decryptStreamToFile dec (Reader (fw_data f) false) vw0 = Ok (vw_app vw0 msg).
Proof.
  destruct (encryptFileToWriter enc src (FileW [] 1000) comp ent) as [[[f h] ent']|] eqn:E;
    [|by vm_compute in E].
  exists f, h, ent'. split; [done |].
  apply (stream_roundtrip enc dec comp msg 1000 ent f h ent' vw0); first [exact E | by vm_compute | done].
Defined.

Lemma stream_accepts_trailing_witness :
  decryptStreamToFile dec (Reader (MagicGB2 ++ gb2_body ++ [x00]) false) vw0 = Ok (vw_app vw0 msg).
Proof. refine (proj2 (stream_accepts_trailing dec gb2_body msg [x00] vw0 _ _ _)); by vm_compute. Defined.

Lemma shrunk_file_unreadable_witness :
  exists f h ent', encryptFileToWriter enc (SrcFile 9 (Reader msg false)) (FileW [] 1000) comp ent = Ok (f, h, ent')
    /\ h = msg /\ exists e, Decrypt dec (fw_data f) = Err e.
Proof.
  destruct (encryptFileToWriter enc (SrcFile 9 (Reader msg false)) (FileW [] 1000) comp ent) as [[[f h] ent']|] eqn:E;
    [|by vm_compute in E].
  exists f, h, ent'. split; [done |].
  apply (shrunk_file_unreadable enc dec (Zstd.NewZstdCompressor 4 1) 9 msg 1000 ent f h ent');
    first [exact E | by vm_compute | done].
Defined.

End StreamWitness.
