(* ===== verification/FS.v ===== *)
(** FS: the file system as the engine uses it ([os], [fsutil], [uuid]).

    The files are a map from cleaned paths to contents and modification times;
    directories are implied by the paths below them, so creating one does
    nothing and an empty one is not listed.  Every call draws from a schedule
    of faults: a scheduled fault makes the call fail without effect, except
    that a failing write may leave any prefix of its data.  A schedule whose
    calls all fail from some point on is a crash at that point.  Cancellation
    of the context is a schedule too. *)

From S2P Require Import Prelude GoStr.
From stdpp Require Import base gmap list sorting strings.
From Stdlib.Strings Require Import Byte.
Local Open Scope Z_scope.

Inductive oserr := ENOENT | EEXIST | EACCES | EIO.

#[export] Instance oserr_eq_dec : EqDecision oserr.
Proof. solve_decision. Defined.

(** A fault is a permission or an I/O error; [flt_n] bytes of a failing read or
    write go through.  [ENOENT] and [EEXIST] are never spurious. *)
Record fault := Fault { flt_denied : bool; flt_n : nat }.
Definition flt_err (f : fault) : oserr := if flt_denied f then EACCES else EIO.

Record file := File { f_data : bytes; f_mtime : Z }.

(** Times are in nanoseconds; [t.Unix()]. *)
Definition unix (t : Z) : Z := t / 10 ^ 9.

Record world := World {
  w_files : gmap bytes file;
  w_faults : list (option fault);
  w_ctx : list bool;
  w_now : Z;
  w_draws : nat
}.

Definition set_files (m : gmap bytes file) (w : world) : world :=
  World m (w_faults w) (w_ctx w) (w_now w) (w_draws w).

(** [github.com/google/uuid]: the text of the n-th identifier drawn. *)
Class Uuid := uuid_string : nat -> bytes.

Definition toy_uuid : Uuid := fun n => go "0f8fad5b-d9cb-469f-a165-" ++ FormatInt (Z.of_nat n).

(** ** Calls *)

Definition take_fault (w : world) : option fault * world :=
  match w_faults w with
  | [] => (None, w)
  | f :: fs => (f, World (w_files w) fs (w_ctx w) (w_now w) (w_draws w))
  end.

Definition syscall {A} (k : world -> result oserr A * world) : eff world oserr A :=
  fun w => match take_fault w with
           | (Some f, w') => (Err (flt_err f), w')
           | (None, w') => k w'
           end.

Definition with_file {A} (p : bytes) (k : file -> world -> result oserr A * world) (w : world)
  : result oserr A * world :=
  match w_files w !! p with Some f => k f w | None => (Err ENOENT, w) end.

Definition Stat (p : bytes) : eff world oserr file := syscall (with_file p (fun f w => (Ok f, w))).
Definition MkdirAll (p : bytes) : eff world oserr unit := syscall (fun w => (Ok tt, w)).
Definition OpenDir (p : bytes) : eff world oserr unit := syscall (fun w => (Ok tt, w)).
Definition Sync (p : bytes) : eff world oserr unit := syscall (fun w => (Ok tt, w)).
Definition Close (p : bytes) : eff world oserr unit := syscall (fun w => (Ok tt, w)).
Definition Chmod (p : bytes) : eff world oserr unit := syscall (fun w => (Ok tt, w)).

(** [os.Create]: truncates what is there. *)
Definition Create (p : bytes) : eff world oserr unit :=
  syscall (fun w => (Ok tt, set_files (<[p := File [] (w_now w)]> (w_files w)) w)).

Definition append (p d : bytes) (w : world) : world :=
  set_files (alter (fun f => File (f_data f ++ d) (w_now w)) p (w_files w)) w.

(** [f.Write] on the file open at [p]. *)
Definition Write (p d : bytes) : eff world oserr unit :=
  fun w => match take_fault w with
           | (Some f, w') => (Err (flt_err f), append p (take (flt_n f) d) w')
           | (None, w') => (Ok tt, append p d w')
           end.

Definition Remove (p : bytes) : eff world oserr unit :=
  syscall (with_file p (fun _ w => (Ok tt, set_files (delete p (w_files w)) w))).

(** [os.Rename] replaces the target; [os.Link] refuses to. *)
Definition Rename (src dst : bytes) : eff world oserr unit :=
  syscall (with_file src (fun f w =>
    (Ok tt, set_files (<[dst := f]> (delete src (w_files w))) w))).
Definition Link (src dst : bytes) : eff world oserr unit :=
  syscall (with_file src (fun f w =>
    match w_files w !! dst with
    | Some _ => (Err EEXIST, w)
    | None => (Ok tt, set_files (<[dst := f]> (w_files w)) w)
    end)).

Definition ReadFile (p : bytes) : eff world oserr bytes :=
  syscall (with_file p (fun f w => (Ok (f_data f), w))).

(** [os.Open]: a reader of the file; a fault in reading it is drawn here. *)
Definition Open (p : bytes) : eff world oserr reader :=
  syscall (with_file p (fun f w =>
    match take_fault w with
    | (Some flt, w') => (Ok (Reader (take (flt_n flt) (f_data f)) true), w')
    | (None, w') => (Ok (Reader (f_data f) false), w')
    end)).

(** [ctx.Err() != nil]. *)
Definition ctx_cancelled {E} : eff world E bool :=
  fun w => match w_ctx w with
           | [] => (Ok false, w)
           | b :: l => (Ok b, World (w_files w) (w_faults w) l (w_now w) (w_draws w))
           end.

Definition new_uuid `{Uuid} {E} : eff world E bytes :=
  fun w => (Ok (uuid_string (w_draws w)),
            World (w_files w) (w_faults w) (w_ctx w) (w_now w) (S (w_draws w))).

(** [os.ReadDir]: names in byte order, each with whether it is a directory. *)
Fixpoint ble (a b : bytes) : bool :=
  match a, b with
  | [], _ => true
  | _, [] => false
  | x :: a', y :: b' => (b2z x <? b2z y) || ((b2z x =? b2z y) && ble a' b')
  end.

Definition dir_prefix (d : bytes) : bytes := if HasSuffix d s_slash then d else d ++ s_slash.

Definition child (d p : bytes) : option (bytes * bool) :=
  if HasPrefix p (dir_prefix d) then
    let rest := drop (length (dir_prefix d)) p in
    match IndexByte rest slash with
    | Some i => Some (take i rest, true)
    | None => Some (rest, false)
    end
  else None.

Definition children (d : bytes) (m : gmap bytes file) : list (bytes * bool) :=
  merge_sort (fun a b => Is_true (ble a.1 b.1)) (remove_dups (omap (fun kv => child d kv.1) (map_to_list m))).

Definition ReadDir (d : bytes) : eff world oserr (list (bytes * bool)) :=
  syscall (fun w => match children d (w_files w) with [] => (Err ENOENT, w) | l => (Ok l, w) end).

(** ** fsutil *)

(** [syncParentDir] opens the directory and syncs it. *)
Definition syncParentDir (dir : bytes) : eff world oserr unit :=
  _ ← OpenDir dir;
  r ← attempt (Sync dir);
  _ ← attempt (Close dir);
  match r with Ok _ => mret tt | Err e => throw e end.

Definition SyncParent := syncParentDir.

(** On a failing step the staging file is closed and removed, best effort. *)
Definition cleanup (p : bytes) (e : oserr) : eff world oserr unit :=
  _ ← attempt (Close p);
  _ ← attempt (Remove p);
  throw e.

Definition WriteStagingFile (path data : bytes) : eff world oserr unit :=
  _ ← Create path;
  w ← attempt (Write path data);
  match w with
  | Err e => cleanup path e
  | Ok _ =>
      s ← attempt (Sync path);
      match s with
      | Err e => cleanup path e
      | Ok _ =>
          c ← attempt (Close path);
          match c with
          | Err e => _ ← attempt (Remove path); throw e
          | Ok _ => mret tt
          end
      end
  end.

Definition CommitFileNoReplace (src dst : bytes) : eff world oserr unit :=
  _ ← Link src dst;
  _ ← Remove src;
  syncParentDir (Dir dst).

Definition WriteFileAtomic `{Uuid} (path data : bytes) : eff world oserr unit :=
  let dir := Dir path in
  _ ← MkdirAll dir;
  uid ← new_uuid;
  let tmp := path ++ go "." ++ uid ++ go ".tmp" in
  _ ← WriteStagingFile tmp data;
  r ← attempt (Rename tmp path);
  match r with
  | Err e => _ ← attempt (Remove tmp); throw e
  | Ok _ => syncParentDir dir
  end.

(** * Facts *)

(** Nothing is scheduled to go wrong. *)
Definition calm (w : world) : Prop := w_faults w = [] /\ w_ctx w = [].

(** [w'] differs from [w] at most in the file at [p]; a calm world stays calm. *)
Record only (p : bytes) (w w' : world) : Prop := Only {
  only_files q : q <> p -> w_files w' !! q = w_files w !! q;
  only_faults : calm w -> calm w'
}.

(** [w'] has the same files as [w]. *)
Record same (w w' : world) : Prop := Same {
  same_files : w_files w' = w_files w;
  same_faults : calm w -> calm w';
  same_now : w_now w' = w_now w
}.

#[export] Instance same_preorder : PreOrder same.
Proof.
  split; [by intros w; split |]. intros x y z [H1 H2 N1] [H3 H4 N2]. split; [congruence | auto | congruence].
Qed.
#[export] Instance only_preorder p : PreOrder (only p).
Proof.
  split; [by intros w; split |]. intros x y z [H1 H2] [H3 H4]. split; [|auto].
  intros q Hq. by rewrite H3, H1.
Qed.
Lemma same_only p w w' : same w w' -> only p w w'.
Proof. intros [H1 H2 _]. split; [by rewrite H1 | done]. Qed.
#[export] Hint Resolve same_only : gbf.

Lemma take_fault_same w : same w (take_fault w).2 /\ (calm w -> (take_fault w).1 = None).
Proof.
  unfold take_fault, calm. destruct (w_faults w) eqn:E; cbn; [done |].
  split; [split; [done | unfold calm; rewrite E; by intros [] | done] | by intros []].
Qed.

Lemma wp_syscall {A} (k : world -> result oserr A * world) Q w :
  (forall e w', same w w' -> ~ calm w -> e = EACCES \/ e = EIO -> Q (Err e) w') ->
  (forall w', same w w' -> Q (k w').1 (k w').2) ->
  wp (syscall k) Q w.
Proof.
  intros H1 H2. unfold wp, syscall. destruct (take_fault_same w) as [Hs Hf].
  destruct (take_fault w) as [[f|] w']; cbn in *; [|by apply H2].
  apply H1; [done | intros E; by apply Hf in E |]. unfold flt_err. destruct (flt_denied f); auto.
Qed.

Lemma wp_with_file {A} p (k : file -> world -> result oserr A * world) Q w :
  (forall e w', same w w' -> (e = ENOENT -> w_files w !! p = None) -> (calm w -> e = ENOENT) -> Q (Err e) w') ->
  (forall f w', same w w' -> w_files w !! p = Some f -> Q (k f w').1 (k f w').2) ->
  wp (syscall (with_file p k)) Q w.
Proof.
  intros H1 H2. apply wp_syscall.
  - intros e w' Hs Hf He. apply H1; [done | intros ->; by destruct He | done].
  - intros w' Hs. unfold with_file. rewrite (same_files _ _ Hs).
    destruct (w_files w !! p) eqn:E; [by apply H2 | by apply H1].
Qed.

(** Calls that leave the files alone. *)
Definition quiet {A} (m : eff world oserr A) : Prop :=
  forall Q w, (forall r w', same w w' -> (calm w -> is_ok r = true) -> Q r w') -> wp m Q w.

Lemma quiet_nop : quiet (syscall (fun w => (Ok tt, w))).
Proof.
  intros Q w H. apply wp_syscall; intros; apply H; [done | by intros | done | done].
Qed.

Lemma wp_Stat p Q w :
  (forall e w', same w w' -> (e = ENOENT -> w_files w !! p = None) -> (calm w -> e = ENOENT) -> Q (Err e) w') ->
  (forall f w', same w w' -> w_files w !! p = Some f -> Q (Ok f) w') ->
  wp (Stat p) Q w.
Proof. intros H1 H2. by apply wp_with_file. Qed.

Lemma wp_Create p Q w :
  (forall e w', same w w' -> ~ calm w -> Q (Err e) w') ->
  (forall t w', only p w w' -> w_files w' !! p = Some (File [] t) -> Q (Ok tt) w') ->
  wp (Create p) Q w.
Proof.
  intros H1 H2. apply wp_syscall; [auto |]. intros w' [Hs Hf]. cbn.
  apply (H2 (w_now w')); cbn; [split; cbn; [|done] | by rewrite lookup_insert_eq].
  intros q Hq. by rewrite lookup_insert_ne, Hs.
Qed.

Lemma append_only p d w : only p w (append p d w).
Proof. split; [|done]. intros q Hq. unfold append. cbn. by rewrite lookup_alter_ne. Qed.

Lemma append_at p d w f t :
  w_files w !! p = Some (File f t) -> w_files (append p d w) !! p = Some (File (f ++ d) (w_now w)).
Proof. intros H. unfold append. cbn. by rewrite lookup_alter_eq, H. Qed.

Lemma wp_Write p d Q w :
  (forall e w', only p w w' -> ~ calm w -> Q (Err e) w') ->
  (forall w', only p w w' ->
     (forall f t, w_files w !! p = Some (File f t) -> exists t', w_files w' !! p = Some (File (f ++ d) t')) ->
     Q (Ok tt) w') ->
  wp (Write p d) Q w.
Proof.
  intros H1 H2. unfold wp, Write. destruct (take_fault_same w) as [Hs Hf].
  destruct (take_fault w) as [[f|] w']; cbn in *.
  - apply H1; [|intros E; by apply Hf in E].
    etrans; [by apply same_only | apply append_only].
  - apply H2; [etrans; [by apply same_only | apply append_only] |].
    intros f t Hp. eexists. eapply append_at. by rewrite (same_files _ _ Hs).
Qed.

Lemma wp_Remove p Q w :
  (forall r w', only p w w' ->
     (calm w -> r = Ok tt \/ r = Err ENOENT) ->
     (r = Ok tt -> w_files w' !! p = None) ->
     (forall f, w_files w !! p = Some f -> calm w -> r = Ok tt) -> 
     (r = Err ENOENT -> w_files w' !! p = None) ->
     (is_ok r = false -> same w w') -> Q r w') ->
  wp (Remove p) Q w.
Proof.
  intros H. apply wp_with_file.
  - intros e w' Hs He Hf. apply H; [by apply same_only | | done | | | done]; rewrite ?(same_files _ _ Hs).
    + intros E. right. by rewrite Hf.
    + intros f Hp E. apply Hf, He in E. congruence.
    + intros [= E]. by apply He.
  - intros f w' Hs Hp. cbn. apply H; cbn; try done.
    + split; [|apply Hs]. intros q Hq. cbn. by rewrite lookup_delete_ne, (same_files _ _ Hs).
    + by left.
    + intros _. by rewrite lookup_delete_eq.
Qed.

Lemma wp_Rename src dst Q w :
  src <> dst ->
  (forall e w', same w w' -> (e = ENOENT -> w_files w !! src = None) -> (calm w -> e = ENOENT) -> Q (Err e) w') ->
  (forall f w', w_files w !! src = Some f -> w_files w' = <[dst := f]> (delete src (w_files w)) ->
     (calm w -> calm w') -> Q (Ok tt) w') ->
  wp (Rename src dst) Q w.
Proof.
  intros Hne H1 H2. apply wp_with_file; [done |]. intros f w' [Hs Hf] Hp. cbn.
  apply (H2 f); [done | cbn; by rewrite Hs | done].
Qed.

Lemma wp_Link src dst Q w :
  (forall e w', same w w' ->
     (e = ENOENT -> w_files w !! src = None) -> (e = EEXIST -> is_Some (w_files w !! dst)) ->
     (calm w -> e = ENOENT \/ e = EEXIST) -> Q (Err e) w') ->
  (forall f w', w_files w !! src = Some f -> w_files w !! dst = None ->
     w_files w' = <[dst := f]> (w_files w) -> (calm w -> calm w') -> Q (Ok tt) w') ->
  wp (Link src dst) Q w.
Proof.
  intros H1 H2. apply wp_syscall.
  { intros e w' Hs Hf [-> | ->]; apply H1; done. }
  intros w' Hs. unfold with_file. rewrite (same_files _ _ Hs). destruct (w_files w !! src) as [f|] eqn:Hp.
  2: { by apply H1; auto. }
  destruct (w_files w !! dst) eqn:E; cbn.
  - apply H1; [done | done | eauto | auto].
  - apply (H2 f); [done .. | apply Hs].
Qed.

Lemma wp_ReadFile p Q w :
  (forall e w', same w w' -> (e = ENOENT -> w_files w !! p = None) -> (calm w -> e = ENOENT) -> Q (Err e) w') ->
  (forall f w', same w w' -> w_files w !! p = Some f -> Q (Ok (f_data f)) w') ->
  wp (ReadFile p) Q w.
Proof. intros H1 H2. by apply wp_with_file. Qed.

Lemma wp_Open p Q w :
  (forall e w', same w w' -> (e = ENOENT -> w_files w !! p = None) -> (calm w -> e = ENOENT) -> Q (Err e) w') ->
  (forall f r w', same w w' -> w_files w !! p = Some f -> rd_data r `prefix_of` f_data f ->
     (rd_fails r = false -> rd_data r = f_data f) -> (calm w -> rd_fails r = false) -> Q (Ok r) w') ->
  wp (Open p) Q w.
Proof.
  intros H1 H2. apply wp_with_file; [done |]. intros f w' Hs Hp.
  destruct (take_fault_same w') as [Hs' Hf]. pose proof (same_faults _ _ Hs).
  destruct (take_fault w') as [[flt|] w'']; cbn in *.
  - apply (H2 f); cbn; [by etrans | done | | done | intros E; naive_solver].
    exists (drop (flt_n flt) (f_data f)). by rewrite take_drop.
  - apply (H2 f); cbn; try done. by etrans.
Qed.

Lemma wp_new_uuid `{Uuid} {E} (Q : result E bytes -> world -> Prop) w :
  (forall u w', same w w' -> Q (Ok u) w') -> wp new_uuid Q w.
Proof. intros HQ. by apply HQ. Qed.

Lemma wp_ctx {E} (Q : result E bool -> world -> Prop) w :
  (forall b w', same w w' -> (calm w -> b = false) -> Q (Ok b) w') -> wp ctx_cancelled Q w.
Proof.
  intros HQ. unfold wp, ctx_cancelled. destruct (w_ctx w) eqn:E'; cbn; apply HQ; try done.
  - split; [done | unfold calm; rewrite E'; by intros [] | done].
  - unfold calm. rewrite E'. by intros [].
Qed.

Ltac wp_nop := refine (quiet_nop _ _ _); intros ? ? ? ?.

Lemma wp_cleanup p e Q w : (forall w', only p w w' -> Q (Err e) w') -> wp (cleanup p e) Q w.
Proof.
  intros H. unfold cleanup. do 2 wp_step. wp_nop. wp_steps. apply wp_Remove. intros. wp_steps.
  apply H. etrans; [by apply same_only | done].
Qed.

Lemma wp_syncParentDir d Q w :
  (forall r w', same w w' -> (calm w -> is_ok r = true) -> Q r w') -> wp (syncParentDir d) Q w.
Proof.
  intros H. unfold syncParentDir. wp_step. wp_nop. destruct r as [[]|e]; [|by apply H].
  do 2 wp_step. wp_nop. do 2 wp_step. wp_nop.
  assert (same w w'1) by (etrans; [etrans |]; eassumption).
  assert (calm w -> calm w') by (by apply same_faults).
  destruct r as [[]|e]; wp_steps; apply H; auto.
Qed.

Lemma wp_WriteStagingFile p d Q w :
  (forall e w', only p w w' -> ~ calm w -> Q (Err e) w') ->
  (forall t w', only p w w' -> w_files w' !! p = Some (File d t) -> Q (Ok tt) w') ->
  wp (WriteStagingFile p d) Q w.
Proof.
  intros H1 H2. unfold WriteStagingFile. wp_step. apply wp_Create.
  { intros. by apply H1; [apply same_only |]. }
  intros t w1 Ho1 Hp1. do 2 wp_step. apply wp_Write.
  { intros e w2 Ho2 Hf. apply wp_cleanup. intros w3 Ho3. apply H1; [by etrans; [|etrans] |].
    intros E. by apply Hf, (only_faults _ _ _ Ho1). }
  intros w2 Ho2 Hp2. destruct (Hp2 [] t Hp1) as [t' Hp]. cbn in Hp.
  assert (O12 : only p w w2) by (by etrans).
  do 2 wp_step. wp_nop. destruct r as [[]|e].
  2: { apply wp_cleanup. intros w3 Ho3. apply H1; [etrans; [done | etrans; [by apply same_only | done]] |].
       intros E. by apply (only_faults _ _ _ O12), H0 in E. }
  do 2 wp_step. wp_nop. pose proof (only_faults _ _ _ O12). pose proof (same_faults _ _ H).
  destruct r as [[]|e].
  - wp_steps. apply (H2 t'); [etrans; [done | by apply same_only; etrans] |].
    by rewrite (same_files _ _ H3), (same_files _ _ H).
  - wp_steps. apply wp_Remove. intros r w5 Ho5 _ _ _ _ _. wp_steps.
    apply H1; [etrans; [done | etrans; [apply same_only; by etrans | done]] |]. naive_solver.
Qed.

Lemma wp_CommitFileNoReplace src dst Q w :
  src <> dst ->
  (forall e w', same w w' ->
     (e = ENOENT -> w_files w !! src = None) -> (e = EEXIST -> is_Some (w_files w !! dst)) ->
     (calm w -> e = ENOENT \/ e = EEXIST) -> Q (Err e) w') ->
  (forall r f w', w_files w !! src = Some f -> w_files w !! dst = None ->
     w_files w' !! dst = Some f -> (forall q, q <> src -> q <> dst -> w_files w' !! q = w_files w !! q) ->
     (r = Ok tt -> w_files w' !! src = None) -> (forall g, w_files w' !! src = Some g -> g = f) ->
     (calm w -> r = Ok tt /\ calm w') -> Q r w') ->
  wp (CommitFileNoReplace src dst) Q w.
Proof.
  intros Hne H1 H2. unfold CommitFileNoReplace. wp_step. apply wp_Link; [by apply H1 |].
  intros f w1 Hs Hd Hw1 Hf1. wp_step. apply wp_Remove.
  intros r w2 Ho _ Hok Hnat _ Hsame.
  assert (Hdst : w_files w2 !! dst = Some f) by (rewrite (only_files _ _ _ Ho), Hw1 by done; apply lookup_insert_eq).
  assert (Hq : forall q, q <> src -> q <> dst -> w_files w2 !! q = w_files w !! q).
  { intros q ??. rewrite (only_files _ _ _ Ho), Hw1 by done. by apply lookup_insert_ne. }
  assert (Hg : forall g, w_files w2 !! src = Some g -> g = f).
  { intros g Hg. destruct r as [[]|e]; [by rewrite Hok in Hg |]. rewrite (same_files _ _ (Hsame eq_refl)), Hw1 in Hg.
    rewrite lookup_insert_ne in Hg by done. congruence. }
  assert (Hnat' : calm w -> r = Ok tt).
  { intros E. apply (Hnat f); [|auto]. rewrite Hw1. by rewrite lookup_insert_ne. }
  destruct r as [[]|e].
  - apply wp_syncParentDir. intros r w3 Hs3 Hr. apply (H2 r f); rewrite ?(same_files _ _ Hs3); auto.
    intros E. assert (Hr' : is_ok r = true) by (apply Hr, (only_faults _ _ _ Ho); auto).
    split; [by destruct r as [[]|] | apply (same_faults _ _ Hs3), (only_faults _ _ _ Ho); auto].
  - apply (H2 (Err e) f); [done .. |]. intros E. by apply Hnat' in E.
Qed.

Lemma app_ne_self {A} (l k : list A) : k <> [] -> l ++ k <> l.
Proof. intros Hk H. apply Hk. apply (app_inv_head l). by rewrite app_nil_r. Qed.

(** The staging names of [path]. *)
Definition staging_name (path uid : bytes) : bytes := path ++ go "." ++ uid ++ go ".tmp".

Lemma staging_ne path uid : staging_name path uid <> path.
Proof. by apply app_ne_self. Qed.

(** A path that does not end in [p] is no staging name. *)
Lemma not_staging a c path u : c <> x70 -> a ++ [c] <> staging_name path u.
Proof.
  intros Hc E. unfold staging_name in E. change (go ".tmp") with (go ".tm" ++ [x70]) in E. rewrite !app_assoc in E.
  apply app_inj_2 in E as [_ E]; [|done]. by injection E.
Qed.

(** What an all-or-nothing replacement of [path] by [data] may leave. *)
Definition atomic_outcome (path data : bytes) (w : world) (r : result oserr unit) (w' : world) : Prop :=
  (w_files w' !! path = w_files w !! path \/ f_data <$> w_files w' !! path = Some data) /\
  (exists uid, let tmp := staging_name path uid in (forall q, q <> path -> q <> tmp -> w_files w' !! q = w_files w !! q) /\
     (r = Ok tt -> f_data <$> w_files w' !! path = Some data /\ w_files w' !! tmp = None)) /\
  (calm w -> r = Ok tt).

Lemma wp_WriteFileAtomic `{U : Uuid} path data w :
  wp (WriteFileAtomic path data) (fun r w' => atomic_outcome path data w r w' /\ (calm w -> calm w')) w.
Proof.
  assert (Hfail : forall u e w', only (staging_name path u) w w' -> ~ calm w ->
    atomic_outcome path data w (Err e) w' /\ (calm w -> calm w')).
  { intros u e w' Ho Hf. split; [|done]. pose proof (staging_ne path u). split; [left; by apply (only_files _ _ _ Ho) |]. split; [|done].
    exists u. split; [|done]. intros. by apply (only_files _ _ _ Ho). }
  unfold WriteFileAtomic. wp_step. wp_nop. destruct r as [[]|e].
  2: { apply (Hfail []); [by apply same_only |]. intros E. by apply H0 in E. }
  wp_step. apply wp_new_uuid. intros u w2 Hs2. wp_step. pose proof (staging_ne path u) as Htmp.
  specialize (Hfail u). fold (staging_name path u). set (tmp := staging_name path u) in *. assert (S2 : same w w2) by (by etrans).
  apply wp_WriteStagingFile.
  { intros e w3 Ho Hf. apply Hfail; [etrans; [by apply same_only | done] |].
    intros E. by apply Hf, (same_faults _ _ S2). }
  intros t w3 Ho3 Hp3. do 2 wp_step. apply wp_Rename; [done | |].
  - intros e w4 Hs4 He Hf. wp_step. wp_step. apply wp_Remove. intros r w5 Ho5 _ _ _ _ _. wp_steps.
    apply Hfail; [|].
    + etrans; [by apply same_only | etrans; [done | etrans; [by apply same_only | done]]].
    + intros E. assert (calm w3) as E3 by (apply (only_faults _ _ _ Ho3), (same_faults _ _ S2), E).
      apply Hf, He in E3. congruence.
  - intros f w4 Hf Hw4 Hfl. apply wp_syncParentDir. intros r w5 Hs5 Hr.
    assert (f = File data t) as -> by congruence.
    assert (E5 : f_data <$> w_files w5 !! path = Some data).
    { rewrite (same_files _ _ Hs5), Hw4. by rewrite lookup_insert_eq. }
    split; [|intros E; apply (same_faults _ _ Hs5), Hfl, (only_faults _ _ _ Ho3), (same_faults _ _ S2), E].
    split; [by right |]. split.
    + exists u. split.
      * intros q ??. rewrite (same_files _ _ Hs5), Hw4, lookup_insert_ne, lookup_delete_ne by done.
        by rewrite (only_files _ _ _ Ho3), (same_files _ _ S2).
      * intros _. split; [done |]. rewrite (same_files _ _ Hs5), Hw4, lookup_insert_ne by done.
        apply lookup_delete_eq.
    + intros E. assert (Ok' : is_ok r = true); [|by destruct r as [[]|]].
      apply Hr, Hfl, (only_faults _ _ _ Ho3), (same_faults _ _ S2), E.
Qed.

(** [WriteFileAtomic] is all or nothing under every schedule of faults
    (a crash included): afterwards the file at [path] is the old one or has
    exactly the new data; only it and the staging file may differ; success
    means the new data is in place and the staging file is gone; and without
    faults it succeeds. *)
Theorem write_file_atomic `{U : Uuid} path data w :
  wp (WriteFileAtomic path data) (atomic_outcome path data w) w.
Proof. eapply wp_mono; [apply wp_WriteFileAtomic |]. by intros r w' []. Qed.

(** ** Directory listings *)

Lemma elem_of_children d m e :
  e ∈ children d m <-> exists p f, m !! p = Some f /\ child d p = Some e.
Proof.
  unfold children. rewrite merge_sort_Permutation, elem_of_remove_dups, list_elem_of_omap.
  split.
  - intros ([p f] & Hin & Hc). exists p, f. by apply elem_of_map_to_list in Hin.
  - intros (p & f & Hm & Hc). exists (p, f). split; [by apply elem_of_map_to_list | done].
Qed.

Lemma wp_ReadDir d Q w :
  (forall e w', same w w' -> (calm w -> e = ENOENT /\ children d (w_files w) = []) -> 
     (e = ENOENT -> children d (w_files w) = []) -> Q (Err e) w') ->
  (forall w', same w w' -> Q (Ok (children d (w_files w))) w') ->
  wp (ReadDir d) Q w.
Proof.
  intros H1 H2. apply wp_syscall.
  - intros e w' Hs Hc [-> | ->]; by apply H1.
  - intros w' Hs. rewrite (same_files _ _ Hs). specialize (H2 w' Hs).
    destruct (children d (w_files w)); [by apply H1 | done].
Qed.

Lemma IndexByte_None s c : IndexByte s c = None <-> c ∉ s.
Proof.
  induction s as [|b s IH]; cbn; [split; [intros _; apply not_elem_of_nil | done] |].
  rewrite not_elem_of_cons. case_bool_decide; [naive_solver |].
  destruct (IndexByte s c); cbn; naive_solver.
Qed.

Lemma IndexByte_Some s c i : IndexByte s c = Some i ->
  s = take i s ++ c :: drop (S i) s /\ c ∉ take i s.
Proof.
  revert i. induction s as [|b s IH]; intros i; cbn; [done |]. case_bool_decide as Hb.
  - intros [= <-]. subst. split; [done | apply not_elem_of_nil].
  - destruct (IndexByte s c) as [j|] eqn:E; cbn; [|done]. intros [= <-]. destruct (IH j eq_refl) as [H1 H2].
    cbn. split; [by f_equal | rewrite not_elem_of_cons; auto].
Qed.

Lemma IndexByte_app a c b : c ∉ a -> IndexByte (a ++ c :: b) c = Some (length a).
Proof.
  induction a as [|x a IH]; cbn; [by rewrite bool_decide_true |].
  rewrite not_elem_of_cons. intros [??]. by rewrite bool_decide_false, IH.
Qed.

Definition plain_dir (d : bytes) : Prop := HasSuffix d s_slash = false.

Lemma child_file d n : plain_dir d -> slash ∉ n -> child d (d ++ slash :: n) = Some (n, false).
Proof.
  intros Hd Hn. unfold child, dir_prefix. rewrite Hd. unfold HasPrefix.
  change (slash :: n) with (s_slash ++ n). rewrite app_assoc.
  rewrite bool_decide_true by (by eexists). rewrite drop_app_length. by rewrite (proj2 (IndexByte_None _ _)).
Qed.

Lemma child_dir d n r : plain_dir d -> slash ∉ n -> child d (d ++ slash :: n ++ slash :: r) = Some (n, true).
Proof.
  intros Hd Hn. unfold child, dir_prefix. rewrite Hd. unfold HasPrefix.
  change (slash :: n ++ slash :: r) with (s_slash ++ n ++ slash :: r). rewrite app_assoc.
  rewrite bool_decide_true by (by eexists). rewrite drop_app_length, IndexByte_app by done.
  by rewrite take_app_length.
Qed.

Lemma child_inv d p n b : plain_dir d -> child d p = Some (n, b) ->
  (slash ∉ n) /\ if (b : bool) then exists r, p = d ++ slash :: n ++ slash :: r else p = d ++ slash :: n.
Proof.
  intros Hd. unfold child, dir_prefix. rewrite Hd. unfold HasPrefix. case_bool_decide as Hp; [|done].
  destruct Hp as [rest ->]. rewrite drop_app_length. destruct (IndexByte rest slash) as [i|] eqn:E.
  - apply IndexByte_Some in E as [E1 E2]. intros [= <- <-]. split; [done |]. exists (drop (S i) rest).
    rewrite <- app_assoc. by rewrite E1 at 1.
  - intros [= <- <-]. apply IndexByte_None in E. split; [done |]. by rewrite <- app_assoc.
Qed.

Lemma HasSuffix_snoc (a : bytes) b c : HasSuffix (a ++ [b]) [c] = bool_decide (b = c).
Proof.
  unfold HasSuffix. apply bool_decide_ext. split.
  - intros [k E]. by apply app_inj_2 in E as [_ [= ->]].
  - intros ->. by exists a.
Qed.

Lemma plain_app d s : normal s -> plain_dir (d ++ s).
Proof.
  intros Hs. unfold plain_dir. destruct s as [|b s _] using rev_ind; [by destruct Hs |]. rewrite app_assoc. unfold s_slash. rewrite HasSuffix_snoc.
  apply bool_decide_false. intros ->. apply normal_noslash in Hs. apply Hs, elem_of_app. right. by left.
Qed.

Lemma plain_FpJoin base k : k <> [] -> Forall normal k -> plain_dir (FpJoin (base :: k)).
Proof.
  intros Hk Hf. rewrite FpJoin_normal by done. destruct k as [|s k _] using rev_ind; [done |]. apply Forall_app in Hf as [_ [Hs _]%Forall_cons].
  rewrite app_assoc. destruct (root_segs base ++ k) as [|x l] eqn:E; [by apply plain_app |].
  unfold s_slash. rewrite Join_snoc by done. rewrite app_assoc. change (slash :: s) with ([slash] ++ s). rewrite app_assoc. by apply plain_app.
Qed.

(** ** Directory trees *)

(** The path of the elements [l] below [d]. *)
Definition under (d : bytes) (l : list bytes) : bytes := d ++ slash :: GoStr.Join s_slash l.

(** Every file below [d] has a path of ordinary elements. *)
Definition tidy (d : bytes) (files : gmap bytes file) : Prop :=
  plain_dir d /\ forall p f, files !! p = Some f -> d ++ s_slash `prefix_of` p -> exists l, l <> [] /\ Forall normal l /\ p = under d l.

Lemma under_cons d n l : l <> [] -> under d (n :: l) = under (d ++ slash :: n) l.
Proof. intros Hl. unfold under. destruct l; [done |]. by rewrite <- app_assoc. Qed.

Lemma tidy_sub d n files : tidy d files -> normal n -> tidy (d ++ slash :: n) files.
Proof.
  intros [Hd Ht] Hn. split; [change (slash :: n) with ([slash] ++ n); rewrite app_assoc; by apply plain_app |]. intros p f Hp [r Hr].
  destruct (Ht p f Hp) as (l & Hl & Hnl & ->); [exists (n ++ slash :: r); by rewrite Hr, <- !app_assoc |].
  destruct l as [|x l]; [done |]. apply Forall_cons in Hnl as [Hx Hnl]. unfold under in Hr. rewrite <- !app_assoc in Hr. apply app_inv_head in Hr. injection Hr as Hr.
  destruct l as [|y l].
  - cbn in Hr. exfalso. apply (normal_noslash _ Hx). rewrite Hr. set_solver.
  - change (GoStr.Join s_slash (x :: y :: l)) with (x ++ slash :: GoStr.Join s_slash (y :: l)) in Hr.
    apply first_sep_unique in Hr as [-> Hr]; [|by apply normal_noslash ..]. exists (y :: l). split; [done |]. split; [done |]. by apply under_cons.
Qed.

Lemma children_under d files n b : tidy d files ->
  (n, b) ∈ children d files <-> normal n /\ exists l f, Forall normal l /\ files !! under d (n :: l) = Some f /\ (l = [] <-> b = false).
Proof.
  intros [Hd Ht]. rewrite elem_of_children. split.
  - intros (p & f & Hp & Hc). destruct (child_inv d p n b Hd Hc) as [Hn Hb].
    destruct (Ht p f Hp) as (l & Hl & Hnl & ->); [destruct b; [destruct Hb as [r ->] | rewrite Hb]; eexists; by rewrite <- app_assoc |].
    destruct l as [|x l]; [done |]. pose proof Hnl as [Hx Hnl']%Forall_cons. unfold under in Hb.
    assert (x = n /\ (l = [] <-> b = false)) as [-> Hlb].
    { destruct l as [|y l].
      - destruct b; [destruct Hb as [r Hb] |]; apply app_inv_head in Hb; injection Hb as Hb; [|by rewrite Hb].
        cbn in Hb. exfalso. apply (normal_noslash _ Hx). rewrite Hb. set_solver.
      - change (GoStr.Join s_slash (x :: y :: l)) with (x ++ slash :: GoStr.Join s_slash (y :: l)) in Hb.
        destruct b; [destruct Hb as [r Hb] |]; apply app_inv_head in Hb; injection Hb as Hb.
        + apply first_sep_unique in Hb as [-> _]; [|by apply normal_noslash | done]. done.
        + exfalso. apply Hn. rewrite <- Hb. set_solver. }
    split; [done |]. by exists l, f.
  - intros (Hn & l & f & Hnl & Hp & Hb). exists (under d (n :: l)), f. split; [done |]. destruct l as [|y l].
    + rewrite (proj1 Hb eq_refl). unfold under. cbn. by apply child_file; [|apply normal_noslash].
    + destruct b; [|by pose proof (proj2 Hb eq_refl)]. unfold under. by apply (child_dir d n (GoStr.Join s_slash (y :: l))); [|apply normal_noslash].
Qed.
