(* ===== verification/BlobStore.v ===== *)
(** BlobStore: the store interface ([simple/blobstore.go]) and the error
    taxonomy ([simple/store_errors.go]).

    [BlobStore] is the interface the upload, download, pipeline and restore
    code is written against; [BlobStoreSpec] is what a store promises its
    clients: an invariant every operation keeps, and what each operation does to
    the map of the blobs the store holds, whatever goes wrong. *)

From S2P Require Import Prelude GoStr FS.
From stdpp Require Import base list gmap strings.
From Stdlib.Strings Require Import Byte.
Local Open Scope Z_scope.

Record BlobInfo := MkBlobInfo { bi_Hash : bytes; bi_ModTime : Z; bi_Size : Z }.

(** ** Errors *)

(** An error value: the sentinel it wraps, if any, and the cause. *)
Inductive store_err :=
| ErrInvalidHash
| ErrBlobNotFound (e : oserr)
| ErrPermissionDenied (e : oserr)
| StoreOS (e : oserr)
| StoreCtx
| StoreRead.

#[export] Instance store_err_eq_dec : EqDecision store_err.
Proof. solve_decision. Defined.

Definition ClassifyPathError (e : oserr) : store_err :=
  match e with
  | ENOENT => ErrBlobNotFound e
  | EACCES => ErrPermissionDenied e
  | _ => StoreOS e
  end.

Definition classifyOSError (e : oserr) : store_err :=
  match e with
  | ENOENT => ClassifyPathError e
  | _ => StoreOS e
  end.

(** ** Hashes *)

(** A character the loop of [validateHash] accepts. *)
Definition validateHash (hash : bytes) : bool :=
  if negb (blen hash =? 64) then false
  else forallb (fun c =>
    negb (((b2z c <? 48) || (57 <? b2z c)) && ((b2z c <? 97) || (102 <? b2z c)))) hash.

Definition ValidateBlobHash (hash : bytes) : bool := validateHash hash.

Lemma validateHash_true h : validateHash h = true <-> blen h = 64 /\ Forall (fun c => is_hex_lower c = true) h.
Proof.
  unfold validateHash. destruct (Z.eqb_spec (blen h) 64); cbn [negb]; [|split; [done | by intros []]].
  rewrite forallb_forall, Forall_forall. unfold is_hex_lower.
  split; [intros H; split; [done | intros x Hx; apply H; by apply list_elem_of_In] |].
  intros [_ H] x Hx. apply H. by apply list_elem_of_In.
Qed.

(** ** The interface *)

Class BlobStore (S : Type) := {
  bs_Put : bytes -> bytes -> eff S store_err unit;
  bs_Get : bytes -> eff S store_err bytes;
  bs_PutStream : bytes -> reader -> eff S store_err unit;
  bs_GetStream : bytes -> eff S store_err reader;
  bs_Exists : bytes -> eff S store_err bool;
  bs_List : bytes -> eff S store_err (list bytes);
  bs_ListWithModTime : bytes -> eff S store_err (list BlobInfo);
  bs_Delete : bytes -> eff S store_err unit
}.

Section Spec.
Context {S : Type}.
Variables (blob : S -> bytes -> option bytes).

(** The blobs of [s'] are those of [s]. *)
Definition unchanged (s s' : S) : Prop :=
  forall k, validateHash k = true -> blob s' k = blob s k.

(** Put of [d] under [h]: every other blob is untouched; the blob under [h] is
    as it was or exactly [d], the latter only if [P]; success means the store
    has a blob under [h]. *)
Definition put_post (h d : bytes) (P : Prop) (s : S) (r : result store_err unit) (s' : S) : Prop :=
  (forall k, validateHash k = true -> k <> h -> blob s' k = blob s k) /\
  (blob s' h = blob s h \/ P /\ validateHash h = true /\ blob s' h = Some d) /\
  (r = Ok tt -> validateHash h = true /\ is_Some (blob s' h)).
End Spec.

(** How a store is seen: which states are right, the blobs it holds, and that
    nothing is about to go wrong. *)
Class StoreView (S : Type) := {
  bs_inv : S -> Prop;
  bs_blob : S -> bytes -> option bytes;
  bs_calm : S -> Prop
}.

Class BlobStoreSpec (S : Type) `{B : BlobStore S} `{SV : StoreView S} : Prop := {
  bs_Put_ok h d s : bs_inv s ->
    wp (bs_Put h d) (fun r s' => bs_inv s' /\ put_post bs_blob h d True s r s' /\
      (bs_calm s -> validateHash h = true -> r = Ok tt /\ bs_calm s')) s;
  bs_PutStream_ok h rd s : bs_inv s ->
    wp (bs_PutStream h rd) (fun r s' => bs_inv s' /\
      put_post bs_blob h (rd_data rd) (rd_fails rd = false) s r s' /\
      (bs_calm s -> rd_fails rd = false -> validateHash h = true -> r = Ok tt /\ bs_calm s')) s;
  bs_Get_ok h s : bs_inv s ->
    wp (bs_Get h) (fun r s' => bs_inv s' /\ unchanged bs_blob s s' /\
      (forall d, r = Ok d -> bs_blob s h = Some d) /\
      (bs_calm s -> bs_calm s' /\ forall d, bs_blob s h = Some d -> r = Ok d)) s;
  bs_GetStream_ok h s : bs_inv s ->
    wp (bs_GetStream h) (fun r s' => bs_inv s' /\ unchanged bs_blob s s' /\
      (forall rd, r = Ok rd -> exists d, bs_blob s h = Some d /\ rd_data rd `prefix_of` d /\
        (rd_fails rd = false -> rd_data rd = d)) /\
      (bs_calm s -> bs_calm s' /\ forall d, bs_blob s h = Some d -> r = Ok (Reader d false))) s;
  bs_Exists_ok h s : bs_inv s ->
    wp (bs_Exists h) (fun r s' => bs_inv s' /\ unchanged bs_blob s s' /\
      (forall b, r = Ok b -> validateHash h = true /\ (b = true <-> is_Some (bs_blob s h))) /\
      (bs_calm s -> bs_calm s' /\ (validateHash h = true -> is_ok r = true))) s;
  bs_Delete_ok h s : bs_inv s ->
    wp (bs_Delete h) (fun r s' => bs_inv s' /\
      (forall k, validateHash k = true -> k <> h -> bs_blob s' k = bs_blob s k) /\
      (bs_blob s' h = bs_blob s h \/ bs_blob s' h = None) /\
      (r = Ok tt -> validateHash h = true /\ bs_blob s' h = None)) s
}.
