(* ===== verification/LocalStore.v ===== *)
(** LocalStore: the local blob store ([simple/local_store.go]).

    Its state is the file system and the record [LocalBlobStore] with the
    directory and existence caches; the operations run one after the other
    (the interleavings of concurrent operations are in [StoreConc]). *)

From S2P Require Import Prelude GoStr FS BlobStore.
From stdpp Require Import base list gmap strings.
From Stdlib.Strings Require Import Byte.
Local Open Scope Z_scope.

Record LocalBlobStore := MkLocal {
  baseDir : bytes;
  dirCache : gset bytes;
  existsSet : gset bytes;
  writeLimiter : bool
}.

Definition NewLocalBlobStore (dir : bytes) : LocalBlobStore := MkLocal dir ∅ ∅ false.

Definition SetWriteLimiter (s : LocalBlobStore) (l : bool) : LocalBlobStore :=
  MkLocal (baseDir s) (dirCache s) (existsSet s) l.

(** [filepath.Join(s.baseDir, "gb", hash[:2], hash+".gb")]. *)
Definition BlobPath (base hash : bytes) : bytes :=
  if negb (validateHash hash) then []
  else FpJoin [base; go "gb"; take 2 hash; hash ++ go ".gb"].

Record sys := Sys { sw : world; st : LocalBlobStore }.

Abbreviation M := (eff sys store_err).

(** A file-system call, its error wrapped. *)
Definition os {E A} (f : E -> store_err) (m : eff world E A) : M A :=
  wrap_err f (zoom sw (fun w s => Sys w (st s)) m).

Definition upd (f : LocalBlobStore -> LocalBlobStore) : M unit := modify (fun s => Sys (sw s) (f (st s))).
Definition set_exists (f : gset bytes -> gset bytes) : M unit :=
  upd (fun s => MkLocal (baseDir s) (dirCache s) (f (existsSet s)) (writeLimiter s)).
Definition mark_exists (h : bytes) : M unit := set_exists (fun e => {[h]} ∪ e).

Definition ensureDir (dir : bytes) : M unit :=
  s ← gets st;
  if bool_decide (dir ∈ dirCache s) then mret tt
  else
    _ ← os StoreOS (MkdirAll dir);
    upd (fun s => MkLocal (baseDir s) ({[dir]} ∪ dirCache s) (existsSet s) (writeLimiter s)).

Section Ops.
Context `{U : Uuid}.

(** Close (when still open) and remove the staging file, then fail. *)
Definition abandon (tmp : bytes) (close : bool) (e : store_err) : M unit :=
  _ ← (if close then attempt (os StoreOS (Close tmp)) else mret (Ok tt));
  _ ← attempt (os StoreOS (Remove tmp));
  throw e.

(** The rest of [putBlob] once the blob is known to be missing and its
    directory exists: write, sync and close the staging file, rename it. *)
Definition commitBlob (hash path dir : bytes) (writeBlob : bytes -> eff world store_err unit) : M unit :=
  uid ← os StoreOS new_uuid;
  let tmp := path ++ go "." ++ uid ++ go ".tmp" in
  _ ← os StoreOS (Create tmp);
  w ← attempt (os id (writeBlob tmp));
  match w with
  | Err e => abandon tmp true e
  | Ok _ =>
      y ← attempt (os StoreOS (Sync tmp));
      match y with
      | Err e => abandon tmp true e
      | Ok _ =>
          c ← attempt (os StoreOS (Close tmp));
          match c with
          | Err e => abandon tmp false e
          | Ok _ =>
              n ← attempt (os StoreOS (Rename tmp path));
              match n with
              | Err e =>
                  _ ← attempt (os StoreOS (Remove tmp));
                  t ← attempt (os StoreOS (Stat path));
                  if is_ok t then mark_exists hash else throw e
              | Ok _ =>
                  _ ← os StoreOS (SyncParent dir);
                  mark_exists hash
              end
          end
      end
  end.

Definition putBlob (hash : bytes) (writeBlob : bytes -> eff world store_err unit) : M unit :=
  if negb (validateHash hash) then throw ErrInvalidHash
  else
    s ← gets st;
    if bool_decide (hash ∈ existsSet s) then mret tt
    else
      let path := BlobPath (baseDir s) hash in
      r ← attempt (os StoreOS (Stat path));
      if is_ok r then mark_exists hash
      else
        let dir := Dir path in
        _ ← ensureDir dir;
        commitBlob hash path dir writeBlob.

(** [Writer.WriteContext]: waiting for tokens fails when the context is
    cancelled while the bucket is empty; then the write. *)
Definition WriteContext (tmp data : bytes) : eff world store_err unit :=
  c ← ctx_cancelled;
  if (c : bool) then throw StoreCtx else wrap_err StoreOS (Write tmp data).

Definition Put (hash data : bytes) : M unit :=
  s ← gets st;
  putBlob hash (fun tmp =>
    if writeLimiter s then WriteContext tmp data else wrap_err StoreOS (Write tmp data)).

Definition Get (hash : bytes) : M bytes :=
  if negb (validateHash hash) then throw ErrInvalidHash
  else
    s ← gets st;
    os classifyOSError (ReadFile (BlobPath (baseDir s) hash)).

(** The copy loop of [PutStream] under a limiter: 32 KiB reads. *)
Fixpoint copy_loop (fuel : nat) (tmp : bytes) (r : reader) : eff world store_err unit :=
  match fuel with
  | O => throw StoreRead
  | S f =>
      c ← ctx_cancelled;
      if (c : bool) then throw StoreCtx
      else
        match rd_data r with
        | [] => if rd_fails r then throw StoreRead else mret tt
        | d =>
            _ ← WriteContext tmp (upto 32768 d);
            copy_loop f tmp (Reader (from 32768 d) (rd_fails r))
        end
  end.

Definition PutStream (hash : bytes) (r : reader) : M unit :=
  s ← gets st;
  putBlob hash (fun tmp =>
    if writeLimiter s then copy_loop (S (length (rd_data r))) tmp r
    else
      _ ← wrap_err StoreOS (Write tmp (rd_data r));
      if rd_fails r then throw StoreRead else mret tt).

Definition GetStream (hash : bytes) : M reader :=
  if negb (validateHash hash) then throw ErrInvalidHash
  else
    s ← gets st;
    os classifyOSError (Open (BlobPath (baseDir s) hash)).

Definition Exists (hash : bytes) : M bool :=
  if negb (validateHash hash) then throw ErrInvalidHash
  else
    s ← gets st;
    if bool_decide (hash ∈ existsSet s) then mret true
    else
      r ← attempt (os id (wrap_err ClassifyPathError (Stat (BlobPath (baseDir s) hash))));
      match r with
      | Ok _ => _ ← mark_exists hash; mret true
      | Err (ErrBlobNotFound _) => mret false
      | Err e => throw e
      end.

(** The first loop of [ExistsBatch]: known and unknown hashes, or the error. *)
Fixpoint batch_split (known : gset bytes) (hashes : list bytes) : result store_err (gset bytes * list bytes) :=
  match hashes with
  | [] => Ok (∅, [])
  | h :: hs =>
      if negb (validateHash h) then Err ErrInvalidHash
      else
        '(res, missing) ← batch_split known hs;
        if bool_decide (h ∈ known) then Ok ({[h]} ∪ res, missing) else Ok (res, h :: missing)
  end.

(** The second loop: the missing hashes that are on disk. *)
Fixpoint batch_stat (base : bytes) (missing : list bytes) : M (list bytes) :=
  match missing with
  | [] => mret []
  | h :: hs =>
      c ← os id ctx_cancelled;
      if (c : bool) then throw StoreCtx
      else
        r ← attempt (os id (wrap_err ClassifyPathError (Stat (BlobPath base h))));
        match r with
        | Ok _ => found ← batch_stat base hs; mret (h :: found)
        | Err (ErrBlobNotFound _) => batch_stat base hs
        | Err e => throw e
        end
  end.

(** The result map, as the set of the hashes mapped to [true]. *)
Definition ExistsBatch (hashes : list bytes) : M (gset bytes) :=
  s ← gets st;
  match batch_split (existsSet s) hashes with
  | Err e => throw e
  | Ok (res, missing) =>
      found ← batch_stat (baseDir s) missing;
      _ ← set_exists (fun e => list_to_set found ∪ e);
      mret (list_to_set found ∪ res)
  end.

(** The blob hash of a directory entry, as every listing extracts it. *)
Definition entry_hash (b : bytes * bool) : option bytes :=
  if (b.2 : bool) || negb (HasSuffix b.1 (go ".gb")) then None
  else
    let name := TrimSuffix b.1 (go ".gb") in
    if validateHash name then Some name else None.

(** The shard loop the listings share: an unreadable shard is skipped; each
    blob found is visited in order. *)
Fixpoint walk_shards {A} (visit : bytes -> bytes -> M A) (blobDir prefix : bytes)
  (entries : list (bytes * bool)) : M (list A) :=
  match entries with
  | [] => mret []
  | e :: es =>
      if negb (e.2 : bool) then walk_shards visit blobDir prefix es
      else if negb (eqs prefix []) && negb (HasPrefix e.1 prefix) then walk_shards visit blobDir prefix es
      else
        let subDir := FpJoin [blobDir; e.1] in
        r ← attempt (os StoreOS (ReadDir subDir));
        match r with
        | Err _ => walk_shards visit blobDir prefix es
        | Ok blobs =>
            here ← mapM (visit subDir) (omap entry_hash blobs);
            rest ← walk_shards visit blobDir prefix es;
            mret (here ++ rest)
        end
  end.

(** Top-level listing: a missing blob directory is an empty store. *)
Definition list_blobs {A} (visit : bytes -> bytes -> M A) (prefix : bytes) : M (list A) :=
  s ← gets st;
  let blobDir := FpJoin [baseDir s; go "gb"] in
  r ← attempt (os StoreOS (ReadDir blobDir));
  match r with
  | Err (StoreOS ENOENT) => mret []
  | Err e => throw e
  | Ok entries => walk_shards visit blobDir prefix entries
  end.

Definition WarmExistsCache : M unit :=
  newEntries ← list_blobs (fun _ name => mret name) [];
  set_exists (fun e => list_to_set newEntries ∪ e).

Definition List (prefix : bytes) : M (list bytes) :=
  list_blobs (fun _ name => mret name) prefix.

(** A failing [b.Info()] reports zeros. *)
Definition ListWithModTime (prefix : bytes) : M (list BlobInfo) :=
  list_blobs (fun subDir name =>
    r ← attempt (os StoreOS (Stat (FpJoin [subDir; name ++ go ".gb"])));
    mret (match r with
          | Ok f => MkBlobInfo name (unix (f_mtime f)) (blen (f_data f))
          | Err _ => MkBlobInfo name 0 0
          end)) prefix.

Definition Delete (hash : bytes) : M unit :=
  if negb (validateHash hash) then throw ErrInvalidHash
  else
    s ← gets st;
    r ← attempt (os StoreOS (Remove (BlobPath (baseDir s) hash)));
    match r with
    | Err (StoreOS ENOENT) | Ok _ => set_exists (fun e => e ∖ {[hash]})
    | Err e => throw e
    end.

#[export] Instance local_store : BlobStore sys := {
  bs_Put := Put; bs_Get := Get; bs_PutStream := PutStream; bs_GetStream := GetStream;
  bs_Exists := Exists; bs_List := List; bs_ListWithModTime := ListWithModTime; bs_Delete := Delete
}.

End Ops.

(** * Facts *)

(** ** Paths *)

Lemma hex_not c h : is_hex_lower c = false -> validateHash h = true -> c ∉ h.
Proof. intros Hc [_ Hf]%validateHash_true Hin. eapply Forall_forall in Hf; [|done]. cbn in Hf. congruence. Qed.

Lemma hash_len h : validateHash h = true -> length h = 64%nat.
Proof. intros [Hl _]%validateHash_true. unfold blen in Hl. lia. Qed.

Lemma normal_gb : normal (go "gb").
Proof. repeat split; try done. by_decide. Qed.

Lemma normal_shard h : validateHash h = true -> normal (take 2 h).
Proof.
  intros Hv. pose proof (hash_len h Hv) as Hl. pose proof (hex_not dot h eq_refl Hv) as Hd.
  pose proof (hex_not slash h eq_refl Hv) as Hs.
  destruct h as [|a [|b h]]; [done | done |]. cbn [take].
  rewrite !not_elem_of_cons in Hd, Hs. destruct Hd as (? & ? & _), Hs as (? & ? & _).
  repeat split; [done | done | by intros [= ] | ]. rewrite !not_elem_of_cons. auto using not_elem_of_nil.
Qed.

Lemma normal_blob h : validateHash h = true -> normal (h ++ go ".gb").
Proof.
  intros Hv. pose proof (hash_len h Hv) as Hl. pose proof (hex_not slash h eq_refl Hv) as Hs.
  assert (Hlen : length (h ++ go ".gb") = 67%nat) by (by rewrite length_app, Hl).
  repeat split; try (intros E; rewrite E in Hlen; done).
  rewrite elem_of_app. intros [? | H]; [done |]. revert H. by_decide.
Qed.

(** A blob lives two levels below the blob directory, under its own name. *)
Lemma BlobPath_eq base h : validateHash h = true ->
  BlobPath base h = FpJoin [base; go "gb"] ++ slash :: take 2 h ++ slash :: h ++ go ".gb".
Proof.
  intros Hv. unfold BlobPath. rewrite Hv. cbn [negb].
  pose proof normal_gb. pose proof (normal_shard h Hv). pose proof (normal_blob h Hv).
  etrans; [apply (FpJoin_snoc base [go "gb"; take 2 h] (h ++ go ".gb")); auto |].
  rewrite (app_assoc _ (slash :: take 2 h) (slash :: h ++ go ".gb")). f_equal.
  apply (FpJoin_snoc base [go "gb"] (take 2 h)); auto.
Qed.

Lemma BlobPath_inj base h k : validateHash h = true -> validateHash k = true ->
  BlobPath base h = BlobPath base k -> h = k.
Proof.
  intros Hh Hk. rewrite !BlobPath_eq by done. intros E%app_inv_head. injection E as E.
  pose proof (hash_len h Hh). pose proof (hash_len k Hk).
  apply app_inj_1 in E as [_ E]; [|rewrite !length_take; lia]. injection E as E.
  by apply app_inv_tail in E.
Qed.

(** A staging name is no blob's path. *)
Lemma tmp_not_blob base k x u : validateHash k = true -> x ++ go "." ++ u ++ go ".tmp" <> BlobPath base k.
Proof.
  intros Hk E. rewrite BlobPath_eq in E by done. apply (f_equal last) in E.
  repeat (rewrite last_app in E || rewrite last_cons in E). discriminate E.
Qed.

(** ** The store as a map of blobs *)

Definition blob (s : sys) (h : bytes) : option bytes :=
  if validateHash h then f_data <$> w_files (sw s) !! BlobPath (baseDir (st s)) h else None.

(** The existence cache only lists blobs that are on disk. *)
Definition inv (s : sys) : Prop := forall h, h ∈ existsSet (st s) -> is_Some (blob s h).

(** [s'] differs from [s] in the file [tmp] and in the directory cache. *)
Record staged (tmp : bytes) (s s' : sys) : Prop := Staged {
  sg_only : only tmp (sw s) (sw s');
  sg_base : baseDir (st s') = baseDir (st s);
  sg_exists : existsSet (st s') = existsSet (st s);
  sg_lim : writeLimiter (st s') = writeLimiter (st s)
}.

#[export] Instance staged_preorder tmp : PreOrder (staged tmp).
Proof.
  split; [by intros s; split |]. intros x y z [] []. split; [by etrans | congruence ..].
Qed.

Lemma staged_world tmp w' s : only tmp (sw s) w' -> staged tmp s (Sys w' (st s)).
Proof. by split. Qed.

Lemma staged_same tmp w' s : same (sw s) w' -> staged tmp s (Sys w' (st s)).
Proof. intros. by apply staged_world, same_only. Qed.
Lemma staged_world2 tmp w w' l : only tmp w w' -> staged tmp (Sys w l) (Sys w' l).
Proof. by split. Qed.

(** [stage H]: extend the staging relation [H] by the last world step. *)
Ltac stage H :=
  etrans; [exact H | first
    [ by apply staged_world | by apply staged_same
    | apply staged_world2; first [eassumption | by apply same_only]]].

Lemma staged_blob tmp s s' : staged tmp s s' ->
  (forall k, validateHash k = true -> tmp <> BlobPath (baseDir (st s)) k) -> forall k, blob s' k = blob s k.
Proof.
  intros [Ho Hb He] Ht k. unfold blob. destruct (validateHash k) eqn:Hv; [|done].
  rewrite Hb, (only_files _ _ _ Ho); [done |]. intros E. by apply (Ht k).
Qed.

(** What putting [d] under [h] may do from [s]: [put_post], the invariant, and
    when nothing goes wrong success, with the first commit winning. *)
Definition put_outcome (h d : bytes) (P : Prop) (s : sys) (r : result store_err unit) (s' : sys) : Prop :=
  inv s' /\ put_post blob h d P s r s' /\
  (calm (sw s) -> P -> validateHash h = true -> r = Ok tt /\ calm (sw s') /\
     (forall x, blob s h = Some x -> blob s' h = Some x)).

Lemma wp_os {E A} (f : E -> store_err) (m : eff world E A) Q s :
  wp m (fun r w' => Q (match r with Ok a => Ok a | Err e => Err (f e) end) (Sys w' (st s))) (sw s) ->
  wp (os f m) Q s.
Proof. intros H. unfold os. wp_step. wp_step. exact H. Qed.

(** An outcome that left every blob alone. *)
Lemma put_outcome_keep h d P s s' r :
  inv s -> (forall k, blob s' k = blob s k) -> existsSet (st s') = existsSet (st s) ->
  (r = Ok tt -> validateHash h = true /\ is_Some (blob s h)) ->
  (calm (sw s) -> P -> validateHash h = true -> r = Ok tt /\ calm (sw s')) -> put_outcome h d P s r s'.
Proof.
  intros Hi Hb He Hr Hc. split; [|split].
  3: { intros Hcs HP Hv. destruct (Hc Hcs HP Hv). split; [done |]. split; [done |]. intros x. by rewrite Hb. }
  - intros k. rewrite He, Hb. apply Hi.
  - split; [by intros k _ _ |]. rewrite Hb. split; [by left | done].
Qed.

Lemma put_outcome_mark h d P s s1 :
  inv s -> validateHash h = true -> is_Some (blob s h) -> (forall k, blob s1 k = blob s k) ->
  existsSet (st s1) = existsSet (st s) -> (calm (sw s) -> P -> calm (sw s1)) ->
  wp (mark_exists h) (put_outcome h d P s) s1.
Proof.
  intros Hi Hv Hs Hb He Hc. unfold mark_exists, set_exists, upd. wp_step.
  set (s2 := Sys _ _). assert (Hb2 : forall k, blob s2 k = blob s k) by apply Hb.
  split; [|split].
  3: { intros Hcs HP _. split; [done |]. split; [by apply Hc |]. intros x. by rewrite Hb2. }
  - intros k. subst s2. cbn [st existsSet]. rewrite Hb2, He. rewrite elem_of_union, elem_of_singleton.
    intros [-> | Hk]; [done | by apply Hi].
  - split; [by intros k _ _ |]. rewrite Hb2. split; [by left | done].
Qed.

(** ** Put *)

Lemma wp_ensureDir d s :
  wp (ensureDir d) (fun r s' => (forall tmp, staged tmp s s') /\ (calm (sw s) -> r = Ok tt)) s.
Proof.
  unfold ensureDir. wp_steps. go_if; wp_steps; [done |]. apply wp_os. wp_nop.
  destruct r as [[]|e]; unfold upd; wp_steps.
  - split; [|done]. split; cbn; [by apply same_only | done ..].
  - split; [intros; by apply staged_same |]. intros Hc. by apply H0 in Hc.
Qed.

Lemma wp_abandon tmp c e s : wp (abandon tmp c e) (fun r s' => r = Err e /\ staged tmp s s') s.
Proof.
  unfold abandon. wp_step.
  assert (Hrm : forall s1, staged tmp s s1 ->
    wp (_ ← attempt (os StoreOS (Remove tmp)); throw e : M unit) (fun r s' => r = Err e /\ staged tmp s s') s1).
  { intros s1 H1. do 2 wp_step. apply wp_os, wp_Remove. intros. wp_steps.
    split; [done |]. etrans; [done | by apply staged_world]. }
  destruct c; [wp_step; apply wp_os; wp_nop | wp_step]; apply Hrm; [by apply staged_same | done].
Qed.

(** A writer that puts [d] into the fresh file it is given, when [P] holds, and
    otherwise fails. *)
Definition writes (wb : bytes -> eff world store_err unit) (d : bytes) (P : Prop) : Prop :=
  forall tmp t w, w_files w !! tmp = Some (File [] t) ->
  wp (wb tmp) (fun r w' => only tmp w w' /\
    (r = Ok tt -> P /\ exists t', w_files w' !! tmp = Some (File d t')) /\ (calm w -> P -> r = Ok tt)) w.

(** The committed blob: the staging file renamed onto the blob's path. *)
Lemma blob_renamed tmp h f d t s s1 s2 :
  validateHash h = true ->
  (forall k, validateHash k = true -> tmp <> BlobPath (baseDir (st s)) k) ->
  staged tmp s s1 -> f = File d t ->
  w_files (sw s2) = <[BlobPath (baseDir (st s)) h := f]> (delete tmp (w_files (sw s1))) ->
  baseDir (st s2) = baseDir (st s) ->
  blob s2 h = Some d /\ forall k, validateHash k = true -> k <> h -> blob s2 k = blob s k.
Proof.
  intros Hv Ht Hsg -> Hf Hb. split.
  - unfold blob. by rewrite Hv, Hb, Hf, lookup_insert_eq.
  - intros k Hk Hne. rewrite <- (staged_blob _ _ _ Hsg Ht k). unfold blob. rewrite Hk, Hb, Hf.
    rewrite (sg_base _ _ _ Hsg), lookup_insert_ne, lookup_delete_ne; [done | by apply Ht |].
    intros E. by apply BlobPath_inj in E.
Qed.

(** The outcome once the blob is committed, whatever the directory sync says. *)
Lemma put_outcome_commit h d (P : Prop) s s2 r :
  inv s -> validateHash h = true -> blob s h = None \/ ~ (calm (sw s) /\ P) -> P -> blob s2 h = Some d ->
  (forall k, validateHash k = true -> k <> h -> blob s2 k = blob s k) ->
  (forall k, k ∈ existsSet (st s2) -> k = h \/ k ∈ existsSet (st s)) ->
  (calm (sw s) -> P -> r = Ok tt /\ calm (sw s2)) -> put_outcome h d P s r s2.
Proof.
  intros Hi Hv Hn HP Hd Ho He Hc. split; [|split].
  3: { intros Hcs _ _. destruct (Hc Hcs HP). destruct Hn as [Hn | Hn]; [|by destruct Hn]. by rewrite Hn. }
  - intros k [-> | Hk]%He; [by rewrite Hd |]. destruct (decide (k = h)) as [-> | Hne]; [by rewrite Hd |].
    specialize (Hi k Hk). rewrite Ho; [done | | done].
    destruct (validateHash k) eqn:Hvk; [done |]. destruct Hi as [? Hi]. unfold blob in Hi. by rewrite Hvk in Hi.
  - split; [done |]. split; [by right | by rewrite Hd].
Qed.

Section PutFacts.
Context `{U : Uuid}.

(** A failed put that only touched its staging file. *)
Lemma put_outcome_fail h d P s tmp s1 e :
  inv s -> staged tmp s s1 -> (forall k, validateHash k = true -> tmp <> BlobPath (baseDir (st s)) k) ->
  ~ (calm (sw s) /\ P) -> put_outcome h d P s (Err e) s1.
Proof.
  intros Hi Hsg Ht Hc. apply put_outcome_keep; try done; [by apply (staged_blob tmp) | apply Hsg |].
  intros ???. by destruct Hc.
Qed.

Lemma wp_commitBlob h d P wb dir s s0 :
  inv s -> validateHash h = true -> (forall t, staged t s s0) ->
  (blob s h = None \/ ~ (calm (sw s) /\ P)) -> writes wb d P ->
  wp (commitBlob h (BlobPath (baseDir (st s)) h) dir wb) (put_outcome h d P s) s0.
Proof.
  intros Hi Hv Hs0 Hn Hwb. unfold commitBlob.
  wp_step. apply wp_os, wp_new_uuid. intros u w1 Hs1. set (path := BlobPath _ h). set (tmp := path ++ _).
  assert (Ht : forall k, validateHash k = true -> tmp <> BlobPath (baseDir (st s)) k)
    by (intros; by apply tmp_not_blob).
  assert (S1 : staged tmp s (Sys w1 (st s0))) by (stage (Hs0 tmp)).
  assert (Hcalm : forall s', staged tmp s s' -> calm (sw s) -> calm (sw s')) by (intros s' []; apply sg_only0).
  assert (Hab : forall c e s', staged tmp s s' -> ~ (calm (sw s) /\ P) -> wp (abandon tmp c e) (put_outcome h d P s) s').
  { intros c e s' Hs' Hc. eapply wp_mono; [apply wp_abandon |]. intros r s2 [-> Hs2].
    eapply put_outcome_fail; [done | by etrans | done | done]. }
  wp_step. apply wp_os, wp_Create; cbn [sw st].
  { intros e w2 Hs2 Hc. eapply put_outcome_fail; [done | stage S1 | done |].
    intros [Hcs _]. by apply Hc, (Hcalm _ S1). }
  intros t w2 Ho2 Hp2. assert (S2 : staged tmp s (Sys w2 (st s0))) by (stage S1).
  do 2 wp_step. apply wp_os. eapply wp_mono; [by eapply Hwb |]. intros r w3 (Ho3 & Hd3 & Hc3).
  assert (S3 : staged tmp s (Sys w3 (st s0))) by (stage S2).
  destruct r as [[]|e].
  2: { apply Hab; [done |]. intros [Hc HP]. by apply (Hcalm _ S2), Hc3 in Hc. }
  destruct (Hd3 eq_refl) as (HP & t3 & Hp3). do 2 wp_step. apply wp_os. wp_nop. cbn [sw st] in *.
  assert (S4 : staged tmp s (Sys w' (st s0))) by (stage S3).
  destruct r as [[]|e].
  2: { apply Hab; [done |]. intros [Hc _]. by apply (Hcalm _ S3), H0 in Hc. }
  do 2 wp_step. apply wp_os. wp_nop. cbn [sw st] in *.
  assert (S5 : staged tmp s (Sys w'0 (st s0))) by (stage S4).
  destruct r as [[]|e].
  2: { apply Hab; [done |]. intros [Hc _]. by apply (Hcalm _ S4), H2 in Hc. }
  assert (Hp5 : w_files w'0 !! tmp = Some (File d t3)) by (by rewrite (same_files _ _ H1), (same_files _ _ H)).
  do 2 wp_step. apply wp_os, wp_Rename; [by apply Ht | |]; cbn [sw st].
  - intros e w6 Hs6 He Hf6.
    assert (Hnc : ~ (calm (sw s) /\ P)).
    { intros [Hc _]. apply (Hcalm _ S5), Hf6, He in Hc. by rewrite Hc in Hp5. }
    assert (S6 : staged tmp s (Sys w6 (st s0))) by (stage S5).
    do 2 wp_step. apply wp_os, wp_Remove. intros r w7 Ho7 _ _ _ _ _.
    assert (S7 : staged tmp s (Sys w7 (st s0))) by (stage S6).
    do 2 wp_step. apply wp_os, wp_Stat; cbn [sw st is_ok].
    + intros e8 w8 Hs8 _ _. wp_steps. eapply put_outcome_fail; [done | | exact Ht | done].
      stage S7.
    + intros f w8 Hs8 Hp8. assert (S8 : staged tmp s (Sys w8 (st s0))) by (stage S7).
      apply put_outcome_mark; try done;
        [| by apply (staged_blob tmp) | apply S8 | intros Hc _; by apply (Hcalm _ S8)].
      rewrite <- (staged_blob _ _ _ S8 Ht). unfold blob. rewrite Hv, (sg_base _ _ _ S8). cbn [sw].
      fold path. by rewrite (same_files _ _ Hs8), Hp8.
  - intros f w6 Hf6 Hw6 Hc6. wp_step. apply wp_os. apply wp_syncParentDir. intros r w7 Hs7 Hr7. cbn [sw st] in *.
    assert (f = File d t3) as -> by congruence.
    assert (Hc7 : calm (sw s) -> is_ok r = true /\ calm w7).
    { intros Hc. assert (calm w6) by (apply Hc6, (Hcalm _ S5), Hc). split; [by apply Hr7 | by apply Hs7]. }
    assert (Hcommit : forall l, baseDir l = baseDir (st s) -> blob (Sys w7 l) h = Some d /\
      forall k, validateHash k = true -> k <> h -> blob (Sys w7 l) k = blob s k).
    { intros l Hl. eapply blob_renamed; [done | exact Ht | exact S5 | done | | done]. cbn [sw].
      by rewrite (same_files _ _ Hs7), Hw6. }
    pose proof (sg_base _ _ _ (Hs0 [])) as Hb. pose proof (sg_exists _ _ _ (Hs0 [])) as He0.
    destruct r as [[]|e]; unfold mark_exists, set_exists, upd; wp_steps.
    + destruct (Hcommit (MkLocal (baseDir (st s0)) (dirCache (st s0)) ({[h]} ∪ existsSet (st s0))
        (writeLimiter (st s0))) Hb) as [Hd Ho].
      apply put_outcome_commit; try done.
      * cbn. intros k. rewrite elem_of_union, elem_of_singleton, He0. tauto.
      * intros Hc _. by destruct (Hc7 Hc).
    + destruct (Hcommit (st s0) Hb) as [Hd Ho]. apply put_outcome_commit; try done.
      * cbn. rewrite He0. auto.
      * intros Hc _. by destruct (Hc7 Hc).
Qed.

Lemma wp_putBlob h d P wb s : inv s -> writes wb d P -> wp (putBlob h wb) (put_outcome h d P s) s.
Proof.
  intros Hi Hwb. unfold putBlob. destruct (validateHash h) eqn:Hv; cbn [negb].
  2: { wp_steps. by apply put_outcome_keep; try done; rewrite Hv. }
  wp_steps. case_bool_decide as Hex.
  { wp_steps. apply put_outcome_keep; auto. }
  do 2 wp_step. apply wp_os, wp_Stat.
  2: { intros f w1 Hs1 Hp. apply put_outcome_mark; try done; cbn.
       - unfold blob. by rewrite Hv, Hp.
       - intros k. unfold blob. cbn. by rewrite (same_files _ _ Hs1).
       - intros ? _. by apply Hs1. }
  intros e w1 Hs1 He Hf1. cbn [is_ok].
  wp_step. eapply wp_mono; [apply wp_ensureDir |]. intros r s2 [Hsg2 Hc2].
  assert (S2 : forall t, staged t s s2) by (intros t; etrans; [by apply staged_same | apply Hsg2]).
  destruct r as [[]|e2].
  - apply wp_commitBlob; try done. destruct (blob s h) eqn:Hb; [right | by left].
    intros [Hc _]. apply Hf1, He in Hc. unfold blob in Hb. by rewrite Hv, Hc in Hb.
  - eapply (put_outcome_fail _ _ _ _ (go "." ++ go "." ++ [] ++ go ".tmp"));
      [done | apply S2 | intros; by apply tmp_not_blob |].
    intros [Hc _]. by apply Hs1, Hc2 in Hc.
Qed.
End PutFacts.

(** ** The writers of Put and PutStream *)

Lemma wp_Write_wrap tmp d f t w : w_files w !! tmp = Some (File f t) ->
  wp (wrap_err StoreOS (Write tmp d)) (fun r w' => only tmp w w' /\
    (r = Ok tt -> exists t', w_files w' !! tmp = Some (File (f ++ d) t')) /\ (calm w -> r = Ok tt)) w.
Proof.
  intros Hf. wp_step. apply wp_Write.
  - intros e w' Ho Hc. split; [done |]. split; [done |]. intros. by destruct Hc.
  - intros w' Ho H. split; [done |]. split; [by eauto | done].
Qed.

Lemma wp_WriteContext tmp d f t w : w_files w !! tmp = Some (File f t) ->
  wp (WriteContext tmp d) (fun r w' => only tmp w w' /\
    (r = Ok tt -> exists t', w_files w' !! tmp = Some (File (f ++ d) t')) /\ (calm w -> r = Ok tt)) w.
Proof.
  intros Hf. unfold WriteContext. wp_step. apply wp_ctx. intros b w1 Hs Hb. destruct b.
  - wp_steps. split; [by apply same_only |]. split; [done |]. intros Hc. by apply Hb in Hc.
  - eapply wp_mono; [eapply wp_Write_wrap; by rewrite (same_files _ _ Hs) |].
    intros r w2 (Ho & Hr & Hc). split; [etrans; [by apply same_only | done] |]. split; [done |].
    intros ?. by apply Hc, Hs.
Qed.

Lemma wp_copy_loop fuel : forall tmp rd f t w,
  (length (rd_data rd) < fuel)%nat -> w_files w !! tmp = Some (File f t) ->
  wp (copy_loop fuel tmp rd) (fun r w' => only tmp w w' /\
    (r = Ok tt -> rd_fails rd = false /\ exists t', w_files w' !! tmp = Some (File (f ++ rd_data rd) t')) /\
    (calm w -> rd_fails rd = false -> r = Ok tt)) w.
Proof.
  induction fuel as [|fuel IH]; intros tmp rd f t w Hl Hf; [lia |]. cbn [copy_loop].
  wp_step. apply wp_ctx. intros b w1 Hs Hb. destruct b.
  { wp_steps. split; [by apply same_only |]. split; [done |]. intros Hc. by apply Hb in Hc. }
  destruct (rd_data rd) as [|x d] eqn:Hd.
  { destruct (rd_fails rd); wp_steps; (split; [by apply same_only |]); (split; [|done]); [done |].
    rewrite app_nil_r. intros _. split; [done |]. exists t. by rewrite (same_files _ _ Hs). }
  wp_step. eapply wp_mono; [eapply wp_WriteContext; by rewrite (same_files _ _ Hs) |].
  intros r w2 (Ho & Hr & Hc). assert (O2 : only tmp w w2) by (etrans; [by apply same_only | done]).
  destruct r as [[]|e].
  2: { split; [done |]. split; [done |]. intros Hcw. by apply Hs, Hc in Hcw. }
  destruct (Hr eq_refl) as [t2 H2].
  eapply wp_mono; [eapply IH; [| exact H2] |].
  - cbn [rd_data]. unfold from. rewrite length_drop. cbn [length] in *. lia.
  - cbn [rd_data rd_fails]. intros r w3 (Ho3 & Hr3 & Hc3). split; [by etrans |]. split.
    + intros E. destruct (Hr3 E) as (? & t3 & H3). split; [done |]. exists t3. by rewrite <- app_assoc, upto_from in H3.
    + intros ?. by apply Hc3, O2.
Qed.

Section StoreFacts.
Context `{U : Uuid}.

Lemma wp_Put h d s : inv s -> wp (Put h d) (put_outcome h d True s) s.
Proof.
  intros Hi. unfold Put. wp_steps. apply wp_putBlob; [done |]. intros tmp t w Hf.
  destruct (writeLimiter (st s)).
  - eapply wp_mono; [by eapply (wp_WriteContext _ _ []) |]. intros r w' (? & ? & ?). auto.
  - eapply wp_mono; [by eapply (wp_Write_wrap _ _ []) |]. intros r w' (? & ? & ?). auto.
Qed.

Lemma wp_PutStream h rd s : inv s -> wp (PutStream h rd) (put_outcome h (rd_data rd) (rd_fails rd = false) s) s.
Proof.
  intros Hi. unfold PutStream. wp_steps. apply wp_putBlob; [done |]. intros tmp t w Hf.
  destruct (writeLimiter (st s)); [eapply (wp_copy_loop _ _ _ []); [lia | done] |].
  wp_step. eapply wp_mono; [by eapply (wp_Write_wrap _ _ []) |]. intros r w' (H1 & H2 & H3).
  destruct r as [[]|e].
  - destruct (rd_fails rd); wp_steps; auto. split; [done |]. by split.
  - split; [done |]. split; [done |]. intros Hc. by apply H3 in Hc.
Qed.

(** A read-only operation keeps the invariant and the blobs. *)
Lemma same_blob s w' k : same (sw s) w' -> blob (Sys w' (st s)) k = blob s k.
Proof. intros Hs. unfold blob. cbn. by rewrite (same_files _ _ Hs). Qed.

Lemma same_inv s w' : inv s -> same (sw s) w' -> inv (Sys w' (st s)).
Proof. intros Hi Hs k Hk. rewrite same_blob by done. by apply Hi. Qed.

(** What reading under [h] with [Get] or [GetStream] may return. *)
Definition read_err (h : bytes) (s : sys) (e : store_err) : Prop :=
  (e = ErrInvalidHash <-> validateHash h = false) /\
  (forall x, e = ErrBlobNotFound x -> blob s h = None) /\
  (calm (sw s) -> validateHash h = true -> e = ErrBlobNotFound ENOENT).

Lemma read_err_os h s e : validateHash h = true ->
  (e = ENOENT -> w_files (sw s) !! BlobPath (baseDir (st s)) h = None) -> (calm (sw s) -> e = ENOENT) ->
  read_err h s (classifyOSError e).
Proof.
  intros Hv He Hc. split; [rewrite Hv; by destruct e |]. split.
  - intros x Hx. unfold blob. rewrite Hv, He; [done |]. by destruct e.
  - intros H _. by rewrite Hc.
Qed.

Lemma read_err_invalid h s : validateHash h = false -> read_err h s ErrInvalidHash.
Proof. intros Hv. split; [done |]. split; [done |]. intros _. by rewrite Hv. Qed.

Lemma read_err_calm h s e d : read_err h s e -> calm (sw s) -> blob s h = Some d -> False.
Proof.
  intros (_ & Hn & Hc) Hcs Hd. destruct (validateHash h) eqn:Hv; [|unfold blob in Hd; by rewrite Hv in Hd].
  specialize (Hc Hcs eq_refl). subst. specialize (Hn _ eq_refl). congruence.
Qed.

Lemma wp_Get h s :
  wp (Get h) (fun r s' => (exists w', same (sw s) w' /\ s' = Sys w' (st s)) /\
    match r with Ok d => blob s h = Some d | Err e => read_err h s e end) s.
Proof.
  unfold Get. destruct (validateHash h) eqn:Hv; cbn [negb]; wp_steps.
  2: { split; [exists (sw s); split; [done | by destruct s] | by apply read_err_invalid]. }
  apply wp_os, wp_ReadFile.
  - intros e w' Hs He Hc. split; [eauto | by apply read_err_os].
  - intros f w' Hs Hp. split; [eauto |]. unfold blob. by rewrite Hv, Hp.
Qed.

Lemma wp_GetStream h s :
  wp (GetStream h) (fun r s' => (exists w', same (sw s) w' /\ s' = Sys w' (st s)) /\
    match r with
    | Ok rd => exists d, blob s h = Some d /\ rd_data rd `prefix_of` d /\
        (rd_fails rd = false -> rd_data rd = d) /\ (calm (sw s) -> rd_fails rd = false)
    | Err e => read_err h s e
    end) s.
Proof.
  unfold GetStream. destruct (validateHash h) eqn:Hv; cbn [negb]; wp_steps.
  2: { split; [exists (sw s); split; [done | by destruct s] | by apply read_err_invalid]. }
  apply wp_os, wp_Open.
  - intros e w' Hs He Hc. split; [eauto | by apply read_err_os].
  - intros f rd w' Hs Hp Hpre Hall Hc. split; [eauto |]. exists (f_data f). unfold blob. by rewrite Hv, Hp.
Qed.

Lemma inv_valid s h : inv s -> h ∈ existsSet (st s) -> validateHash h = true.
Proof. intros Hi Hh. destruct (Hi h Hh) as [? E]. unfold blob in E. by destruct (validateHash h). Qed.

Lemma wp_Exists h s : inv s ->
  wp (Exists h) (fun r s' => inv s' /\ (forall k, blob s' k = blob s k) /\ (calm (sw s) -> calm (sw s')) /\
    match r with
    | Ok b => validateHash h = true /\ (b = true <-> is_Some (blob s h))
    | Err e => (e = ErrInvalidHash <-> validateHash h = false) /\ (calm (sw s) -> validateHash h = false)
    end) s.
Proof.
  intros Hi. unfold Exists. destruct (validateHash h) eqn:Hv; cbn [negb]; wp_steps; [|done].
  case_bool_decide as Hex; wp_steps.
  { do 4 (split; [done |]). split; [intros _; by apply Hi | done]. }
  apply wp_os. wp_step. apply wp_Stat.
  - intros e w' Hs He Hc. destruct e; wp_steps; (split; [by apply same_inv |]); (split; [intros; by apply same_blob |]);
      (split; [apply Hs |]).
    1: { split; [done |]. split; [done |]. unfold blob. rewrite Hv, He by done. by intros []. }
    all: split; [done |]; intros Hcalm; by apply Hc in Hcalm.
  - intros f w' Hs Hp. unfold mark_exists, set_exists, upd. wp_steps.
    assert (Hb : is_Some (blob s h)) by (unfold blob; by rewrite Hv, Hp).
    assert (Hk : forall k l, baseDir l = baseDir (st s) -> blob (Sys w' l) k = blob s k).
    { intros k l Hl. unfold blob. cbn. by rewrite (same_files _ _ Hs), Hl. }
    split; [|split; [intros; by apply Hk | split; [apply Hs | done]]].
    intros k. cbn [st existsSet]. rewrite Hk by done. rewrite elem_of_union, elem_of_singleton.
    intros [-> | ?]; [done | by apply Hi].
Qed.

Lemma wp_Delete h s : inv s ->
  wp (Delete h) (fun r s' => inv s' /\
    (forall k, validateHash k = true -> k <> h -> blob s' k = blob s k) /\
    (blob s' h = blob s h \/ blob s' h = None) /\
    (r = Ok tt -> validateHash h = true /\ blob s' h = None) /\
    (calm (sw s) -> calm (sw s') /\ (validateHash h = true -> r = Ok tt))) s.
Proof.
  intros Hi. unfold Delete. destruct (validateHash h) eqn:Hv; cbn [negb]; wp_steps.
  2: { split; [done |]. split; [done |]. split; [by left |]. by split. }
  apply wp_os, wp_Remove. intros r w' Ho Hc Hok _ Hno Hsame.
  set (path := BlobPath _ h) in *.
  assert (Hk : forall l, baseDir l = baseDir (st s) -> forall k, validateHash k = true -> k <> h ->
    blob (Sys w' l) k = blob s k).
  { intros l Hl k Hvk Hne. unfold blob. cbn. rewrite Hvk, Hl, (only_files _ _ _ Ho); [done |].
    intros E. by apply BlobPath_inj in E. }
  assert (Hgone : w_files w' !! path = None -> forall l, baseDir l = baseDir (st s) -> blob (Sys w' l) h = None).
  { intros Hn l Hl. unfold blob. cbn. by rewrite Hv, Hl; fold path; rewrite Hn. }
  assert (Hdone : w_files w' !! path = None ->
    wp (set_exists (fun e => e ∖ {[h]})) (fun r s' => inv s' /\
    (forall k, validateHash k = true -> k <> h -> blob s' k = blob s k) /\
    (blob s' h = blob s h \/ blob s' h = None) /\
    (r = Ok tt -> true = true /\ blob s' h = None) /\
    (calm (sw s) -> calm (sw s') /\ (true = true -> r = Ok tt))) (Sys w' (st s))).
  { intros Hn. unfold set_exists, upd. wp_step. split; [|split; [by apply Hk |]].
    2: { split; [right; by apply Hgone |]. split; [intros _; split; [done | by apply Hgone] |].
       intros Hcs. split; [by apply Ho | done]. }
    intros k. cbn [st existsSet]. rewrite elem_of_difference, elem_of_singleton. intros [Hin Hne].
    rewrite Hk by (try done; by eapply inv_valid). by apply Hi. }
  destruct r as [[]|[]]; [by apply Hdone, Hok | by apply Hdone, Hno | ..]; wp_steps.
  all: specialize (Hsame eq_refl); split; [by apply same_inv |].
  all: split; [by intros; apply same_blob | split; [left; by apply same_blob | split; [done |]]].
  all: intros Hcs; split; [by apply Ho |]; destruct (Hc Hcs); discriminate.
Qed.

End StoreFacts.

(** ** The local store implements the interface *)

#[export] Instance local_view : StoreView sys := { bs_inv := inv; bs_blob := blob; bs_calm := fun s => calm (sw s) }.

#[export] Instance local_store_spec `{U : Uuid} : BlobStoreSpec sys.
Proof.
  split; cbn [bs_Put bs_PutStream bs_Get bs_GetStream bs_Exists bs_Delete local_store bs_inv bs_blob bs_calm local_view].
  - intros h d s Hi. eapply wp_mono; [by apply wp_Put |]. intros r s' (? & ? & Hc).
    split; [done |]. split; [done |]. intros Hcs Hv. by destruct (Hc Hcs I Hv) as (? & ? & _).
  - intros h rd s Hi. eapply wp_mono; [by apply wp_PutStream |]. intros r s' (? & ? & Hc).
    split; [done |]. split; [done |]. intros Hcs Hf Hv. by destruct (Hc Hcs Hf Hv) as (? & ? & _).
  - intros h s Hi. eapply wp_mono; [apply wp_Get |]. intros r s' [(w' & Hs & ->) Hr].
    split; [by apply same_inv |]. split; [intros k _; by apply same_blob |]. split; [by intros d -> |].
    intros Hc. split; [by apply Hs |]. intros d Hd. destruct r as [d'|e]; [congruence |].
    by destruct (read_err_calm _ _ _ _ Hr Hc Hd).
  - intros h s Hi. eapply wp_mono; [apply wp_GetStream |]. intros r s' [(w' & Hs & ->) Hr].
    split; [by apply same_inv |]. split; [intros k _; by apply same_blob |]. split.
    { intros rd ->. destruct Hr as (d & ? & ? & ? & _). eauto. }
    intros Hc. split; [by apply Hs |]. intros d Hd. destruct r as [[d' f]|e].
    + destruct Hr as (d2 & Hd2 & _ & Hall & Hf). cbn in *. specialize (Hf Hc). subst. specialize (Hall eq_refl).
      congruence.
    + by destruct (read_err_calm _ _ _ _ Hr Hc Hd).
  - intros h s Hi. eapply wp_mono; [by apply wp_Exists |]. intros r s' (? & Hb & Hc & Hr).
    split; [done |]. split; [intros k _; apply Hb |]. split; [by intros b -> |].
    intros Hcs. split; [auto |]. intros Hv. destruct r; [done |]. destruct Hr as [_ Hr].
    rewrite Hr in Hv by done. done.
  - intros h s Hi. eapply wp_mono; [by apply wp_Delete |]. intros r s' (? & ? & ? & ? & _). auto.
Qed.

(** ** Refinement of a map with "first commit wins" *)

Inductive op := OPut (h d : bytes) | OGet (h : bytes) | OExists (h : bytes) | ODelete (h : bytes).

Inductive out := RUnit (r : result store_err unit) | RBytes (r : result store_err bytes)
| RBool (r : result store_err bool).

Definition exec `{U : Uuid} (o : op) (s : sys) : out * sys :=
  match o with
  | OPut h d => let '(r, s') := Put h d s in (RUnit r, s')
  | OGet h => let '(r, s') := Get h s in (RBytes r, s')
  | OExists h => let '(r, s') := Exists h s in (RBool r, s')
  | ODelete h => let '(r, s') := Delete h s in (RUnit r, s')
  end.

Fixpoint exec_all `{U : Uuid} (os : list op) (s : sys) : list out :=
  match os with
  | [] => []
  | o :: os' => let '(r, s') := exec o s in r :: exec_all os' s'
  end.

(** The contract: a map from hashes to blobs. *)
Definition spec (o : op) (m : gmap bytes bytes) : out * gmap bytes bytes :=
  match o with
  | OPut h d =>
      if validateHash h then (RUnit (Ok tt), match m !! h with Some _ => m | None => <[h := d]> m end)
      else (RUnit (Err ErrInvalidHash), m)
  | OGet h =>
      if validateHash h then
        (RBytes (match m !! h with Some d => Ok d | None => Err (ErrBlobNotFound ENOENT) end), m)
      else (RBytes (Err ErrInvalidHash), m)
  | OExists h =>
      if validateHash h then (RBool (Ok (bool_decide (is_Some (m !! h)))), m)
      else (RBool (Err ErrInvalidHash), m)
  | ODelete h =>
      if validateHash h then (RUnit (Ok tt), delete h m) else (RUnit (Err ErrInvalidHash), m)
  end.

Fixpoint spec_all (os : list op) (m : gmap bytes bytes) : list out :=
  match os with
  | [] => []
  | o :: os' => let '(r, m') := spec o m in r :: spec_all os' m'
  end.

(** The store [s] represents the map [m]. *)
Definition rep (s : sys) (m : gmap bytes bytes) : Prop :=
  inv s /\ calm (sw s) /\ forall h, blob s h = m !! h.

Lemma wp_elim {S E A} (m : eff S E A) Q s r s' : wp m Q s -> m s = (r, s') -> Q r s'.
Proof. unfold wp. intros H Hm. by rewrite Hm in H. Qed.

Lemma exec_invalid `{U : Uuid} o s m :
  let h := match o with OPut h _ | OGet h | OExists h | ODelete h => h end in
  validateHash h = false -> (exec o s).2 = s /\ (exec o s).1 = (spec o m).1 /\ (spec o m).2 = m.
Proof.
  intros h Hv. subst h. destruct o; cbn [exec spec].
  1: unfold Put, putBlob. 2: unfold Get. 3: unfold Exists. 4: unfold Delete.
  all: cbn [mbind eff_bind gets]; unfold mbind, eff_bind, gets; rewrite Hv; done.
Qed.

(** The first put wins: how a successful put changes the map. *)
Lemma put_rep h d (P : Prop) s m r s' : rep s m -> validateHash h = true -> P -> put_outcome h d P s r s' ->
  r = Ok tt /\ rep s' (match m !! h with Some _ => m | None => <[h := d]> m end).
Proof.
  intros (Hi & Hc & Hb) Hv HP (Hi' & (Ho & Hh & Hok) & Hcs). destruct (Hcs Hc HP Hv) as (-> & Hc' & Hx). split; [done |]. split; [done |]. split; [done |]. intros k.
  destruct (decide (k = h)) as [-> | Hne].
  - rewrite <- Hb. destruct (blob s h) eqn:Es; [rewrite (Hx _ eq_refl), <- Hb; done |]. rewrite lookup_insert_eq.
    destruct Hh as [Hh | (_ & _ & Hh)]; [|done]. destruct (Hok eq_refl) as [_ [? E]]. congruence.
  - transitivity (blob s k); [destruct (validateHash k) eqn:Hk; [by apply Ho | unfold blob; by rewrite Hk] |].
    rewrite Hb. destruct (m !! h); [done | by rewrite lookup_insert_ne].
Qed.

(** One operation: same output, and the representation is kept. *)
Lemma exec_spec `{U : Uuid} o s m : rep s m ->
  (exec o s).1 = (spec o m).1 /\ rep (exec o s).2 (spec o m).2.
Proof.
  intros R. destruct (validateHash (match o with OPut h _ | OGet h | OExists h | ODelete h => h end)) eqn:Hv.
  2: { destruct (exec_invalid o s m Hv) as (-> & -> & ->). done. }
  destruct R as (Hi & Hc & Hb). destruct o as [h d|h|h|h]; cbn [exec spec]; rewrite Hv.
  - destruct (Put h d s) as [r s'] eqn:E. apply (wp_elim _ _ _ _ _ (wp_Put h d s Hi)) in E.
    destruct (put_rep _ _ _ _ m _ _ (conj Hi (conj Hc Hb)) Hv I E) as [-> R']. by split.
  - destruct (Get h s) as [r s'] eqn:E. apply (wp_elim _ _ _ _ _ (wp_Get h s)) in E as [(w' & Hs & ->) Hr].
    cbn. split.
    + rewrite <- Hb. destruct r as [d|e]; [by rewrite Hr |]. destruct Hr as (_ & Hn & He).
      pose proof (He Hc Hv) as ->. by rewrite (Hn _ eq_refl).
    + split; [by apply same_inv |]. split; [by apply Hs |]. intros k. rewrite same_blob by done. apply Hb.
  - destruct (Exists h s) as [r s'] eqn:E. apply (wp_elim _ _ _ _ _ (wp_Exists h s Hi)) in E as (Hi' & Hb' & Hc' & Hr).
    cbn. split.
    + destruct r as [b|e]; [|destruct Hr as [_ Hr]; by rewrite Hv in Hr; discriminate (Hr Hc)].
      destruct Hr as [_ Hr]. rewrite <- Hb. do 2 f_equal.
      apply Bool.eq_iff_eq_true. by rewrite bool_decide_eq_true.
    + split; [done |]. split; [auto |]. intros k. by rewrite Hb'.
  - destruct (Delete h s) as [r s'] eqn:E.
    apply (wp_elim _ _ _ _ _ (wp_Delete h s Hi)) in E as (Hi' & Ho & _ & Hd & Hcs).
    destruct (Hcs Hc) as [Hc' Hr]. specialize (Hr Hv). subst r. cbn. split; [done |]. split; [done |]. split; [done |]. intros k.
    destruct (decide (k = h)) as [-> | Hne]; [rewrite lookup_delete_eq; by destruct (Hd eq_refl) |].
    rewrite lookup_delete_ne, <- Hb by done.
    destruct (validateHash k) eqn:Hk; [by apply Ho | unfold blob; by rewrite Hk].
Qed.

Lemma rep_new dir : rep (Sys (World ∅ [] [] 0 0) (NewLocalBlobStore dir)) ∅.
Proof.
  split; [|split; [done |]].
  - intros h Hh. by apply elem_of_empty in Hh.
  - intros h. unfold blob. cbn. rewrite !lookup_empty. by destruct (validateHash h).
Qed.

(** C9: a local store on an empty disk behaves exactly like the abstract map
    of its contract under every sequence of puts, gets, existence checks and
    deletions, as long as no system call fails: the outputs, errors included,
    are those of the map in which the first put of a hash wins. *)
Theorem local_store_refines_map `{U : Uuid} dir os :
  exec_all os (Sys (World ∅ [] [] 0 0) (NewLocalBlobStore dir)) = spec_all os ∅.
Proof.
  generalize (rep_new dir). generalize (Sys (World ∅ [] [] 0 0) (NewLocalBlobStore dir)) as s.
  generalize (∅ : gmap bytes bytes) as m. induction os as [|o os IH]; intros m s R; cbn [exec_all spec_all]; [done |].
  destruct (exec_spec o s m R) as [Ho R']. destruct (exec o s) as [r s'], (spec o m) as [r' m'].
  cbn in *. subst. by rewrite (IH m').
Qed.

(** C21: a put is atomic under every schedule of faults, a crash included:
    it never touches another blob, its own blob afterwards is what it was or
    exactly the new data, the cache stays within what is on disk, and [Ok]
    means the blob is there.  Without faults it succeeds and keeps an existing
    blob. *)
Theorem local_put_atomic `{U : Uuid} h d s : inv s -> wp (Put h d) (put_outcome h d True s) s.
Proof. apply wp_Put. Qed.

(** ** Listings *)

Definition blobDir (s : sys) : bytes := FpJoin [baseDir (st s); go "gb"].

(** Below the blob directory, shard names are ordinary names and a blob's file
    is in the shard of its hash, as [Put] places it. *)
Definition sharded (s : sys) : Prop :=
  forall p f n r, w_files (sw s) !! p = Some f -> p = blobDir s ++ slash :: n ++ slash :: r -> slash ∉ n ->
  normal n /\ forall h, validateHash h = true -> r = h ++ go ".gb" -> n = take 2 h.

(** The blobs a listing with prefix [p] is to return. *)
Definition listed (s : sys) (p h : bytes) : Prop :=
  is_Some (blob s h) /\ (p = [] \/ HasPrefix (take 2 h) p = true).

Lemma plain_join base k s : k <> [] -> Forall normal k -> normal s -> plain_dir (FpJoin (base :: k) ++ slash :: s).
Proof. intros Hk Hf Hs. rewrite <- FpJoin_snoc by done. apply plain_FpJoin; [by destruct k | by apply Forall_app_2; auto]. Qed.

Lemma plain_blobDir s : plain_dir (blobDir s).
Proof. apply plain_FpJoin; [done | repeat constructor; apply normal_gb]. Qed.

Lemma shard_join s n : normal n -> FpJoin [blobDir s; n] = blobDir s ++ slash :: n.
Proof. intros Hn. by apply (FpJoin_nested (baseDir (st s)) [go "gb"] n); [| repeat constructor; apply normal_gb |]. Qed.

Lemma entry_hash_spec nm b h : entry_hash (nm, b) = Some h <-> b = false /\ nm = h ++ go ".gb" /\ validateHash h = true.
Proof.
  unfold entry_hash. cbn [fst snd]. destruct b; cbn [orb]; [by split; [|intros []] |].
  unfold HasSuffix. case_bool_decide as Hs; cbn [negb].
  - destruct Hs as [k ->]. assert (TrimSuffix (k ++ go ".gb") (go ".gb") = k) as ->.
    { unfold TrimSuffix, HasSuffix. rewrite bool_decide_true by (by eexists).
      rewrite length_app, Nat.add_sub. by rewrite take_app_length. }
    destruct (validateHash k) eqn:Hv.
    + split; [by intros [= <-] |]. by intros (_ & ->%app_inv_tail & _).
    + split; [done |]. intros (_ & <-%app_inv_tail & ?). congruence.
  - split; [done |]. intros (_ & -> & _). exfalso. apply Hs. by eexists.
Qed.

(** The hashes found in one shard. *)
Lemma shard_hashes s n h : sharded s -> normal n ->
  h ∈ omap entry_hash (children (FpJoin [blobDir s; n]) (w_files (sw s))) <-> is_Some (blob s h) /\ n = take 2 h.
Proof.
  intros Hsh Hn. rewrite shard_join by done. rewrite list_elem_of_omap.
  assert (Hp : plain_dir (blobDir s ++ slash :: n)) by (apply plain_join; [done | repeat constructor; apply normal_gb | done]).
  split.
  - intros ([nm b] & Hin & (-> & -> & Hv)%entry_hash_spec).
    apply elem_of_children in Hin as (p & f & Hf & [_ ->]%child_inv); [|done].
    rewrite <- app_assoc in Hf. cbn [app] in Hf.
    assert (n = take 2 h) as -> by (eapply (proj2 (Hsh _ _ n _ Hf eq_refl (normal_noslash _ Hn))); done).
    split; [|done]. unfold blob. rewrite Hv, BlobPath_eq by done. fold (blobDir s). by rewrite Hf.
  - intros [[d Hb] ->]. unfold blob in Hb. destruct (validateHash h) eqn:Hv; [|done].
    rewrite BlobPath_eq in Hb by done. fold (blobDir s) in Hb.
    destruct (w_files (sw s) !! _) as [f|] eqn:Hf; [|done].
    exists (h ++ go ".gb", false). split; [|by apply entry_hash_spec].
    apply elem_of_children. eexists _, f. split; [exact Hf |].
    change (blobDir s ++ slash :: take 2 h ++ slash :: h ++ go ".gb")
      with (blobDir s ++ (slash :: take 2 h) ++ slash :: (h ++ go ".gb")). rewrite app_assoc.
    apply child_file; [done |]. apply normal_noslash. by apply normal_blob.
Qed.

Lemma mapM_ret (l : list bytes) (s : sys) :
  mapM (M := eff sys store_err) (fun n => mret n) l s = (Ok l, s).
Proof.
  revert s. induction l as [|x l IH]; intros s; [done |]. cbn. unfold mbind, eff_bind, mret, eff_ret.
  unfold mret, eff_ret in IH. by rewrite IH.
Qed.

Lemma sharded_same s w' : sharded s -> same (sw s) w' -> sharded (Sys w' (st s)).
Proof. intros H Hs p f n r. cbn. rewrite (same_files _ _ Hs). apply H. Qed.

Lemma wp_walk p entries : forall s, sharded s -> (forall n, (n, true) ∈ entries -> normal n) ->
  wp (walk_shards (fun _ name => mret name) (blobDir s) p entries) (fun r s' =>
    (exists w', same (sw s) w' /\ s' = Sys w' (st s)) /\ exists l, r = Ok l /\
    (forall h, h ∈ l -> listed s p h) /\
    (calm (sw s) -> forall h, listed s p h -> (take 2 h, true) ∈ entries -> h ∈ l)) s.
Proof.
  induction entries as [|[n b] es IH]; intros s Hsh Hn; cbn [walk_shards fst snd].
  { wp_steps. split; [exists (sw s); split; [done | by destruct s] |]. exists []. split; [done |].
    split; [by intros h ?%elem_of_nil | by intros _ h _ ?%elem_of_nil]. }
  assert (Hskip : (b = false \/ ~ (p = [] \/ HasPrefix n p = true)) ->
    wp (walk_shards (fun _ name => mret name) (blobDir s) p es) (fun r s' =>
    (exists w', same (sw s) w' /\ s' = Sys w' (st s)) /\ exists l, r = Ok l /\
    (forall h, h ∈ l -> listed s p h) /\
    (calm (sw s) -> forall h, listed s p h -> (take 2 h, true) ∈ (n, b) :: es -> h ∈ l)) s).
  { intros Hb. eapply wp_mono; [apply IH; [done | intros; apply Hn, elem_of_cons; auto] |].
    intros r s' [? (l & -> & H1 & H2)]. split; [done |]. exists l. split; [done |]. split; [done |].
    intros Hc h Hl [E | Hin]%elem_of_cons; [|auto]. injection E as E1 E2. destruct Hl as [? Hl].
    destruct Hb as [-> | Hb]; [done |]. by rewrite <- E1 in Hb. }
  destruct b; cbn [negb]; [|by apply Hskip; left].
  destruct (negb (eqs p []) && negb (HasPrefix n p)) eqn:Hpre.
  { apply Hskip. right. apply andb_true_iff in Hpre as [H1 H2].
    apply negb_true_iff, eqs_false in H1. apply negb_true_iff in H2. intros [? | ?]; congruence. }
  assert (Hp : p = [] \/ HasPrefix n p = true).
  { apply andb_false_iff in Hpre as [H | H]; apply negb_false_iff in H; [left; by apply eqs_true | by right]. }
  clear Hskip Hpre. assert (Hnn : normal n) by (apply Hn; by left).
  assert (Hn' : forall n, (n, true) ∈ es -> normal n) by (intros; apply Hn, elem_of_cons; auto).
  do 2 wp_step. apply wp_os, wp_ReadDir.
  - intros e w' Hs Hc _. eapply wp_mono; [apply (IH (Sys w' (st s))); [by apply sharded_same | done] |].
    intros r s' [(w2 & Hs2 & ->) (l & -> & H1 & H2)]. cbn [sw st] in *.
    assert (Hls : forall h, listed (Sys w' (st s)) p h <-> listed s p h).
    { intros h. unfold listed. by rewrite same_blob. }
    split; [exists w2; split; [by etrans | done] |]. exists l. split; [done |].
    split; [intros h ?; by apply Hls, H1 |].
    intros Hcs h Hl [E | Hin]%elem_of_cons; [|apply H2; [by apply Hs | by apply Hls | done]].
    injection E as E. destruct (Hc Hcs) as [_ Hemp].
    assert (h ∈ omap entry_hash (children (FpJoin [blobDir s; n]) (w_files (sw s)))) as Hin
      by (apply shard_hashes; [done | done | split; [apply Hl | done]]).
    rewrite Hemp in Hin. by apply elem_of_nil in Hin.
  - intros w' Hs. cbn [sw]. set (found := omap entry_hash _). wp_step. unfold wp. rewrite mapM_ret. cbn [fst snd].
    apply wp_bind. eapply wp_mono; [apply (IH (Sys w' (st s))); [by apply sharded_same | done] |].
    intros r s' [(w2 & Hs2 & ->) (l & -> & H1 & H2)]. cbn [sw st] in *. wp_steps.
    assert (Hls : forall h, listed (Sys w' (st s)) p h <-> listed s p h).
    { intros h. unfold listed. by rewrite same_blob. }
    assert (Hfound : forall h, h ∈ found <-> is_Some (blob s h) /\ n = take 2 h) by (intros h; by apply shard_hashes).
    split; [exists w2; split; [by etrans | done] |]. exists (found ++ l). split; [done |]. split.
    + intros h [[Hb ->]%Hfound | Hin]%elem_of_app; [by split | by apply Hls, H1].
    + intros Hcs h Hl [E | Hin]%elem_of_cons; apply elem_of_app.
      * injection E as E. left. apply Hfound. split; [apply Hl | done].
      * right. apply H2; [by apply Hs | by apply Hls | done].
Qed.

(** The shards of the stored blobs are listed, under ordinary names. *)
Lemma shard_listed s h : is_Some (blob s h) -> (take 2 h, true) ∈ children (blobDir s) (w_files (sw s)).
Proof.
  intros [d Hb]. unfold blob in Hb. destruct (validateHash h) eqn:Hv; [|done].
  rewrite BlobPath_eq in Hb by done. fold (blobDir s) in Hb.
  destruct (w_files (sw s) !! _) as [f|] eqn:Hf; [|done]. apply elem_of_children. eexists _, f.
  split; [exact Hf |]. apply child_dir; [apply plain_blobDir |]. apply normal_noslash. by apply normal_shard.
Qed.

Lemma shard_normal s n : sharded s -> (n, true) ∈ children (blobDir s) (w_files (sw s)) -> normal n.
Proof.
  intros Hsh (q & f & Hq & [Hn [r ->]]%child_inv)%elem_of_children; [|apply plain_blobDir].
  by destruct (Hsh _ _ n r Hq eq_refl Hn).
Qed.

Lemma wp_list_blobs p s : sharded s ->
  wp (list_blobs (fun _ name => mret name) p) (fun r s' =>
    (exists w', same (sw s) w' /\ s' = Sys w' (st s)) /\ (calm (sw s) -> is_ok r = true) /\
    forall l, r = Ok l -> (forall h, h ∈ l -> listed s p h) /\ (calm (sw s) -> forall h, listed s p h -> h ∈ l)) s.
Proof.
  intros Hsh. unfold list_blobs. wp_steps. fold (blobDir s).
  pose proof (shard_listed s) as Hdir.
  apply wp_os, wp_ReadDir.
  - intros e w' Hs Hc He.
    assert (Hout : exists w2, same (sw s) w2 /\ Sys w' (st s) = Sys w2 (st s)) by eauto.
    destruct e; wp_steps; (split; [done |]); (split; [try done; intros Hcs; by destruct (Hc Hcs) |]); try done.
    intros l [= <-]. split; [by intros h ?%elem_of_nil |]. intros _ h [Hb _]. apply Hdir in Hb.
    rewrite He in Hb by done. by apply elem_of_nil in Hb.
  - intros w' Hs. cbn [sw].
    eapply wp_mono; [apply (wp_walk p _ (Sys w' (st s))); [by apply sharded_same |] |].
    + intros n. by apply (shard_normal s).
    + intros r s' [(w2 & Hs2 & ->) (l & -> & H1 & H2)]. cbn [sw st] in *.
      assert (Hls : forall h, listed (Sys w' (st s)) p h <-> listed s p h).
      { intros h. unfold listed. by rewrite same_blob. }
      split; [exists w2; split; [by etrans | done] |]. split; [done |]. intros l' [= <-].
      split; [intros h ?; by apply Hls, H1 |].
      intros Hcs h Hl. apply H2; [by apply Hs | by apply Hls | apply Hdir, Hl].
Qed.

(** The shard name decides the prefix test, up to two characters. *)
Lemma shard_prefix h p :
  (p = [] \/ HasPrefix (take 2 h) p = true -> HasPrefix h p = true) /\
  (blen p <= 2 -> HasPrefix h p = true -> p = [] \/ HasPrefix (take 2 h) p = true) /\
  (2 < blen p -> ~ (p = [] \/ HasPrefix (take 2 h) p = true)).
Proof.
  unfold HasPrefix, blen. rewrite !bool_decide_eq_true. split; [|split].
  - intros [-> | [k E]]; [by eexists |]. exists (k ++ drop 2 h).
    rewrite <- (take_drop 2 h), E at 1. by rewrite <- app_assoc.
  - intros Hl [k ->]. right. exists (take (2 - length p) k). by rewrite take_app, take_ge by lia.
  - intros Hl [-> | [k E]]; [cbn in Hl; lia |]. apply (f_equal length) in E.
    rewrite length_take, length_app in E. lia.
Qed.

(** On a store whose blob files are where [Put] places them, [List] only
    returns stored hashes, whatever fails; when nothing fails it returns all
    hashes whose two-character shard name starts with the prefix.  So a prefix
    of up to two characters selects exactly the hashes that start with it,
    and a longer one selects nothing. *)
Theorem list_exact p s : sharded s ->
  wp (List p) (fun r s' => forall l, r = Ok l ->
    (forall h, h ∈ l -> is_Some (blob s h) /\ HasPrefix h p = true) /\
    (calm (sw s) -> blen p <= 2 -> forall h, is_Some (blob s h) -> HasPrefix h p = true -> h ∈ l) /\
    (2 < blen p -> l = [])) s.
Proof.
  intros Hsh. unfold List. eapply wp_mono; [by apply wp_list_blobs |]. intros r s' (_ & _ & H) l ->.
  destruct (H l eq_refl) as [H1 H2]. split; [|split].
  - intros h Hh. destruct (H1 h Hh) as [Hb Hp]. split; [done | by apply (shard_prefix h p)].
  - intros Hc Hl h Hb Hp. apply H2; [done |]. split; [done |]. by apply (shard_prefix h p).
  - intros Hl. destruct l as [|h l]; [done |]. exfalso. destruct (H1 h) as [_ Hp]; [by left |].
    by apply (shard_prefix h p) in Hp.
Qed.

(** ** The existence cache *)

(** Warming the existence cache is sound and complete: on a store whose
    blob files are where [Put] places them it never lists a blob that is not
    on disk, whatever fails, so the invariant is kept and every blob is as it
    was; and when nothing fails every stored blob is in the cache. *)
Theorem warm_cache_exact s : sharded s -> inv s ->
  wp WarmExistsCache (fun r s' => inv s' /\ (forall k, blob s' k = blob s k) /\
    (calm (sw s) -> calm (sw s') /\ r = Ok tt /\ forall h, h ∈ existsSet (st s') <-> is_Some (blob s h))) s.
Proof.
  intros Hsh Hi. unfold WarmExistsCache. wp_step. eapply wp_mono; [by apply wp_list_blobs |].
  intros r s' [(w' & Hs & ->) [Hok H]]. destruct r as [l|e].
  2: { split; [by apply same_inv |]. split; [intros; by apply same_blob |]. intros Hc. by apply Hok in Hc. }
  destruct (H l eq_refl) as [H1 H2]. unfold set_exists, upd. wp_step. cbn [st sw].
  assert (Hb : forall k, blob (Sys w' (MkLocal (baseDir (st s)) (dirCache (st s))
    (list_to_set l ∪ existsSet (st s)) (writeLimiter (st s)))) k = blob s k).
  { intros k. unfold blob. cbn. by rewrite (same_files _ _ Hs). }
  assert (Hin : forall h, h ∈ list_to_set l ∪ existsSet (st s) -> is_Some (blob s h)).
  { intros h [Hh%elem_of_list_to_set | Hh]%elem_of_union; [by apply H1 | by apply Hi]. }
  split; [intros k Hk; rewrite Hb; by apply Hin |]. split; [done |]. intros Hc. split; [by apply (same_faults _ _ Hs) |]. split; [done |].
  intros h. split; [apply Hin |]. intros Hh. apply elem_of_union. left. apply elem_of_list_to_set, H2; [done |].
  split; [done | by left].
Qed.


Lemma batch_split_ok known hs res missing : batch_split known hs = Ok (res, missing) ->
  Forall (fun h => validateHash h = true) hs /\
  (forall h, h ∈ res <-> h ∈ hs /\ h ∈ known) /\ (forall h, h ∈ missing <-> h ∈ hs /\ h ∉ known).
Proof.
  revert res missing. induction hs as [|h hs IH]; intros res missing; cbn [batch_split].
  { intros [= <- <-]. split; [done |]. set_solver. }
  destruct (validateHash h) eqn:Hv; cbn [negb]; [|done].
  intros ([res' miss'] & E & Hk)%bind_ok_inv. destruct (IH _ _ E) as (Hf & H1 & H2).
  split; [by constructor |]. case_bool_decide as Hh; apply ok_pair_inv in Hk as [-> ->].
  - split; [|intros k; rewrite H2; set_solver]. intros k. rewrite elem_of_union, H1. set_solver.
  - split; [intros k; rewrite H1; set_solver |]. intros k. rewrite elem_of_cons, H2. set_solver.
Qed.

Lemma batch_split_err known hs e : batch_split known hs = Err e ->
  e = ErrInvalidHash /\ exists h, h ∈ hs /\ validateHash h = false.
Proof.
  induction hs as [|h hs IH]; cbn [batch_split]; [done |]. destruct (validateHash h) eqn:Hv; cbn [negb].
  - destruct (batch_split known hs) as [[res miss]|e']; cbn [mbind result_bind]; [by case_bool_decide |].
    intros [= ->]. destruct (IH eq_refl) as (-> & k & ? & ?). split; [done |]. exists k. by rewrite elem_of_cons; auto.
  - intros [= <-]. split; [done |]. exists h. split; [by left | done].
Qed.

Lemma wp_batch_stat missing : forall s, Forall (fun h => validateHash h = true) missing ->
  wp (batch_stat (baseDir (st s)) missing) (fun r s' =>
    (exists w', same (sw s) w' /\ s' = Sys w' (st s)) /\ (calm (sw s) -> is_ok r = true) /\
    (forall e, r = Err e -> e <> ErrInvalidHash) /\
    forall found, r = Ok found -> forall h, h ∈ found <-> h ∈ missing /\ is_Some (blob s h)) s.
Proof.
  induction missing as [|h hs IH]; intros s Hf; cbn [batch_stat].
  { wp_steps. split; [exists (sw s); split; [done | by destruct s] |]. split; [done |]. split; [done |].
    intros found [= <-]. set_solver. }
  apply Forall_cons in Hf as [Hv Hf]. wp_step. apply wp_os, wp_ctx. intros b w1 Hs1 Hb.
  destruct b; wp_steps.
  { split; [by eauto |]. split; [intros Hc; by apply Hb in Hc |]. split; by intros ? [= <-]. }
  cbn [st]. apply wp_os. wp_step. apply wp_Stat; cbn [sw st].
  - intros e w2 Hs2 He Hc2.
    assert (S2 : same (sw s) w2) by (by etrans).
    destruct e; cbn [ClassifyPathError id].
    1: { eapply wp_mono; [apply (IH (Sys w2 (st s)) Hf) |].
         intros r s' [(w3 & Hs3 & ->) (Hok & He' & H)]. cbn [sw st] in *.
         split; [exists w3; split; [by etrans | done] |]. split; [intros; by apply Hok, S2 |]. split; [done |].
         intros found E k. rewrite (H found E k), same_blob, elem_of_cons by done.
         assert (blob s h = None) by (unfold blob; rewrite Hv, <- (same_files _ _ Hs1), He; done).
         split; [tauto |]. intros [[-> | ?] [? Hx]]; [congruence | eauto]. }
    all: wp_steps; (split; [by eauto |]); (split; [intros Hc; apply Hs1, Hc2 in Hc; done |]); split; by intros ? [= <-].
  - intros f w2 Hs2 Hp. assert (S2 : same (sw s) w2) by (by etrans).
    wp_step. eapply wp_mono; [apply (IH (Sys w2 (st s)) Hf) |].
    intros r s' [(w3 & Hs3 & ->) (Hok & He' & H)]. cbn [sw st] in *. destruct r as [found|e]; wp_steps.
    + split; [exists w3; split; [by etrans | done] |]. split; [done |]. split; [done |].
      intros ? [= <-] k. rewrite elem_of_cons, (H found eq_refl k), same_blob, elem_of_cons by done.
      assert (is_Some (blob s h)) by (unfold blob; rewrite Hv, <- (same_files _ _ Hs1), Hp; eauto).
      split; [intros [-> | [? ?]]; auto |]. intros [[-> | ?] ?]; auto.
    + split; [exists w3; split; [by etrans | done] |]. split; [intros Hc; by apply Hok, S2 |]. split; [|done].
      intros e' [= <-]. by apply He'.
Qed.

(** [ExistsBatch] answers like [Exists] hash by hash: it fails with
    [ErrInvalidHash] exactly when some hash is malformed; otherwise the hashes
    of the batch it maps to true are those stored, the blobs are untouched and
    the cache stays within the disk; without faults or cancellation it does
    answer. *)
Lemma wp_ExistsBatch hs s : inv s ->
  wp (ExistsBatch hs) (fun r s' => inv s' /\ (forall k, blob s' k = blob s k) /\
    (r = Err ErrInvalidHash <-> exists h, h ∈ hs /\ validateHash h = false) /\
    (forall res, r = Ok res -> forall h, h ∈ res <-> h ∈ hs /\ is_Some (blob s h)) /\
    (calm (sw s) -> calm (sw s') /\ (Forall (fun h => validateHash h = true) hs -> is_ok r = true))) s.
Proof.
  intros Hi. unfold ExistsBatch. wp_steps. destruct (batch_split (existsSet (st s)) hs) as [[res missing]|e] eqn:E.
  - apply batch_split_ok in E as (Hf & H1 & H2).
    assert (Hno : ~ exists h, h ∈ hs /\ validateHash h = false).
    { intros (h & Hh & Hb). eapply Forall_forall in Hf; [|done]. cbn in Hf. congruence. }
    assert (Hm : Forall (fun h => validateHash h = true) missing).
    { apply Forall_forall. intros h [Hh _]%H2. by eapply Forall_forall in Hf. }
    wp_step. eapply wp_mono; [by apply wp_batch_stat |].
    intros r s' [(w' & Hs & ->) (Hok & He & H)]. destruct r as [found|e].
    + specialize (H found eq_refl). unfold set_exists, upd. wp_steps. cbn [st sw].
      assert (Hb : forall k l, baseDir l = baseDir (st s) -> blob (Sys w' l) k = blob s k).
      { intros k l Hl. unfold blob. cbn. by rewrite (same_files _ _ Hs), Hl. }
      split; [intros k; cbn; rewrite Hb by done |].
      { intros [Hk%elem_of_list_to_set | Hk]%elem_of_union; [by apply H | by apply Hi]. }
      split; [intros; by apply Hb |]. split; [by split |]. split; [|intros Hc; split; [by apply Hs | done]].
      intros ? [= <-] h. rewrite elem_of_union, elem_of_list_to_set, H, H1, H2.
      split; [intros [[[? _] ?] | [? Hh]]; [done | split; [done | by apply Hi]] |].
      intros [Hh Hb']. destruct (decide (h ∈ existsSet (st s))); auto.
    + split; [by apply same_inv |]. split; [intros; by apply same_blob |].
      split; [split; [intros [= ->]; by destruct (He _ eq_refl) | done] |]. split; [done |].
      intros Hc. split; [by apply Hs |]. by apply Hok in Hc.
  - apply batch_split_err in E as (-> & h & Hh & Hv). wp_steps. split; [done |]. split; [done |].
    split; [split; [intros _; eauto | done] |]. split; [done |].
    intros Hc. split; [done |]. intros Hf. eapply Forall_forall in Hf; [|done]. cbn in Hf. congruence.
Qed.

(** ** Witnesses *)

Module LocalWitness.

Definition h : bytes := go "00112233445566778899aabbccddeeff00112233445566778899aabbccddeeff".
Definition data : bytes := [x01; x02; x03].
Definition empty_store : sys := Sys (World ∅ [] [] 7 0) (NewLocalBlobStore (go "/srv/../backup/")).
Definition one_blob : sys :=
  Sys (World {[BlobPath (go "/backup") h := File data 5]} [] [] 7 0) (NewLocalBlobStore (go "/backup")).

Lemma inv_fresh s : existsSet (st s) = ∅ -> inv s.
Proof. intros E k. by rewrite E, elem_of_empty. Qed.

Lemma sharded_singleton base k f w l : validateHash k = true -> baseDir l = base ->
  w_files w = {[BlobPath base k := f]} -> sharded (Sys w l).
Proof.
  intros Hk <- Hw p f' n r Hf Hp Hn. cbn in Hf. rewrite Hw in Hf. apply lookup_singleton_Some in Hf as [<- _].
  rewrite BlobPath_eq in Hp by done. apply app_inv_head in Hp. injection Hp as Hp.
  apply first_sep_unique in Hp as [<- <-]; [| by apply normal_noslash, normal_shard | done].
  split; [by apply normal_shard |]. intros j _ E. by apply app_inv_tail in E as <-.
Qed.

Lemma sharded_one : sharded one_blob.
Proof. by apply (sharded_singleton (go "/backup") h (File data 5)). Qed.

(** A fault-free put and one whose sync fails; in both the outcome holds. *)
Lemma local_put_atomic_witness :
  wp (@Put toy_uuid h data) (put_outcome h data True empty_store) empty_store /\
  (let s := Sys (World ∅ [None; None; None; None; Some (Fault false 0)] [] 7 0) (NewLocalBlobStore (go "/b")) in
   wp (@Put toy_uuid h data) (put_outcome h data True s) s).
Proof. split; [|intros s]; apply local_put_atomic; by apply inv_fresh. Defined.

Lemma list_exact_witness :
  wp (List (go "0")) (fun r s' => forall l, r = Ok l ->
    (forall k, k ∈ l -> is_Some (blob one_blob k) /\ HasPrefix k (go "0") = true) /\
    (calm (sw one_blob) -> blen (go "0") <= 2 -> forall k, is_Some (blob one_blob k) -> HasPrefix k (go "0") = true -> k ∈ l) /\
    (2 < blen (go "0") -> l = [])) one_blob.
Proof. apply list_exact, sharded_one. Defined.

Example list_one : (List (go "0") one_blob).1 = Ok [h] /\ (List (go "001") one_blob).1 = Ok [].
Proof. split; by vm_compute. Qed.

Lemma warm_cache_exact_witness :
  wp WarmExistsCache (fun r s' => inv s' /\ (forall k, blob s' k = blob one_blob k) /\
    (calm (sw one_blob) -> calm (sw s') /\ r = Ok tt /\ forall k, k ∈ existsSet (st s') <-> is_Some (blob one_blob k))) one_blob.
Proof. apply warm_cache_exact; [apply sharded_one | by apply inv_fresh]. Defined.

End LocalWitness.
