(* ===== verification/Conformance.v ===== *)
(** Conformance: the suite every store must pass ([simple/store_conformance.go])
    and the contract behind it.

    Each subtest is an effect on a store of its own that throws where the test
    calls [t.Fatal]; [BlobStoreConformance] runs all of them.  [StoreContract]
    is what a store promises when nothing goes wrong: it behaves like a map
    from hashes to blobs in which the first put wins, and lists the keys of a
    shard.  Any store with the contract passes the suite. *)

From S2P Require Import Prelude GoStr FS BlobStore.
From stdpp Require Import base list gmap strings.
From Stdlib.Strings Require Import Byte.
Local Open Scope Z_scope.

(** ** The contract *)

(** [bc_rep s m]: the store [s] is sound and holds exactly the blobs of [m]. *)
Class StoreContract (S : Type) `{B : BlobStore S} := {
  bc_rep : S -> gmap bytes bytes -> Prop;
  bc_Put h d s m : bc_rep s m ->
    wp (bs_Put h d) (fun r s' => if validateHash h
      then r = Ok tt /\ bc_rep s' (match m !! h with Some _ => m | None => <[h := d]> m end)
      else r = Err ErrInvalidHash /\ bc_rep s' m) s;
  bc_PutStream h d s m : bc_rep s m -> validateHash h = true ->
    wp (bs_PutStream h (Reader d false)) (fun r s' => r = Ok tt /\ bc_rep s' (match m !! h with Some _ => m | None => <[h := d]> m end)) s;
  bc_Get h s m : bc_rep s m ->
    wp (bs_Get h) (fun r s' => bc_rep s' m /\ if validateHash h
      then match m !! h with Some d => r = Ok d | None => exists e, r = Err (ErrBlobNotFound e) end
      else r = Err ErrInvalidHash) s;
  bc_GetStream h s m : bc_rep s m -> validateHash h = true ->
    wp (bs_GetStream h) (fun r s' => bc_rep s' m /\
      match m !! h with Some d => r = Ok (Reader d false) | None => exists e, r = Err (ErrBlobNotFound e) end) s;
  bc_Exists h s m : bc_rep s m -> validateHash h = true ->
    wp (bs_Exists h) (fun r s' => bc_rep s' m /\ r = Ok (bool_decide (is_Some (m !! h)))) s;
  bc_Delete h s m : bc_rep s m -> validateHash h = true ->
    wp (bs_Delete h) (fun r s' => r = Ok tt /\ bc_rep s' (delete h m)) s;
  bc_List p s m : bc_rep s m -> blen p <= 2 ->
    wp (bs_List p) (fun r s' => bc_rep s' m /\ exists l, r = Ok l /\
      forall h, h ∈ l <-> is_Some (m !! h) /\ HasPrefix h p = true) s;
  bc_ListWithModTime p s m : bc_rep s m -> blen p <= 2 ->
    wp (bs_ListWithModTime p) (fun r s' => bc_rep s' m /\ exists l, r = Ok l /\
      (forall h d, m !! h = Some d -> HasPrefix h p = true -> exists i, i ∈ l /\ bi_Hash i = h) /\
      (forall i, i ∈ l -> exists d, m !! bi_Hash i = Some d /\ bi_Size i = blen d /\ 0 < bi_ModTime i)) s
}.

(** ** The suite *)

Inductive fatal := Fatal (what : bytes) | FatalErr (what : bytes) (e : store_err).

Definition newHash (seed : bytes) : bytes := concat (repeat seed 32).

(** [errors.Is(err, ErrBlobNotFound)] and [errors.Is(err, ErrInvalidHash)]. *)
Definition is_not_found {A} (r : result store_err A) : bool := match r with Err (ErrBlobNotFound _) => true | _ => false end.
Definition is_invalid {A} (r : result store_err A) : bool := match r with Err ErrInvalidHash => true | _ => false end.

Section Suite.
Context {S : Type} `{B : BlobStore S}.
Abbreviation test := (eff S fatal unit).

(** [if err != nil { t.Fatalf(what, err) }]. *)
Definition must {A} (what : bytes) (m : eff S store_err A) : eff S fatal A := wrap_err (FatalErr what) m.
Definition check (b : bool) (what : bytes) : test := if b then mret tt else throw (Fatal what).

Definition PutGetRoundTrip : test :=
  let h := newHash (go "a1") in let data := go "conformance round trip payload" in
  _ ← must (go "Put") (bs_Put h data);
  got ← must (go "Get") (bs_Get h);
  check (eqs got data) (go "Get returned different bytes than Put wrote").

Definition PutEmptyBlob : test :=
  let h := newHash (go "b2") in
  _ ← must (go "Put empty") (bs_Put h []);
  got ← must (go "Get empty") (bs_Get h);
  check (blen got =? 0) (go "empty blob came back with bytes").

Definition PutExistingIdempotent : test :=
  let h := newHash (go "c3") in
  _ ← must (go "Put first") (bs_Put h (go "same"));
  _ ← must (go "Put existing") (bs_Put h (go "same"));
  got ← must (go "Get") (bs_Get h);
  check (eqs got (go "same")) (go "existing blob content changed").

Definition GetMissingClassifiesNotFound : test :=
  r ← attempt (bs_Get (newHash (go "d4")));
  _ ← check (negb (is_ok r)) (go "Get of missing blob must fail");
  check (is_not_found r) (go "missing blob error must wrap ErrBlobNotFound").

Definition GetStreamMissingClassifiesNotFound : test :=
  r ← attempt (bs_GetStream (newHash (go "e5")));
  _ ← check (negb (is_ok r)) (go "GetStream of missing blob must fail");
  check (is_not_found r) (go "missing blob error must wrap ErrBlobNotFound").

Definition PutStreamGetStreamRoundTrip : test :=
  let h := newHash (go "f6") in let data := go "streamed conformance payload" in
  _ ← must (go "PutStream") (bs_PutStream h (Reader data false));
  rc ← must (go "GetStream") (bs_GetStream h);
  _ ← check (negb (rd_fails rc)) (go "read stream");
  check (eqs (rd_data rc) data) (go "stream round trip mismatch").

Definition ExistsTest : test :=
  let h := newHash (go "07") in
  before ← attempt (bs_Exists h);
  _ ← check (match before with Ok false => true | _ => false end) (go "Exists before Put");
  _ ← must (go "Put") (bs_Put h (go "x"));
  after ← attempt (bs_Exists h);
  check (match after with Ok true => true | _ => false end) (go "Exists after Put").

Definition DeleteIdempotent : test :=
  let h := newHash (go "18") in
  _ ← must (go "Delete missing must be idempotent") (bs_Delete h);
  _ ← must (go "Put") (bs_Put h (go "x"));
  _ ← must (go "Delete") (bs_Delete h);
  r ← attempt (bs_Get h);
  check (is_not_found r) (go "Get after Delete must be ErrBlobNotFound").

(** [fmt.Sprintf("%s%02d%s", prefix, i, strings.Repeat("9", 60))] for [i] below 10. *)
Definition listed_hash (prefix : bytes) (i : Z) : bytes := prefix ++ go "0" ++ FormatInt i ++ repeat x39 60.

Fixpoint put_all (hs : list bytes) : test :=
  match hs with
  | [] => mret tt
  | h :: hs => _ ← must (go "Put") (bs_Put h (go "x")); put_all hs
  end.

Definition ListPrefix : test :=
  let prefix := take 2 (newHash (go "29")) in
  let want := listed_hash prefix <$> [0; 1; 2] in
  _ ← put_all want;
  _ ← must (go "Put unrelated") (bs_Put (newHash (go "aa")) (go "y"));
  keys ← must (go "List") (bs_List prefix);
  _ ← check (forallb (fun k => HasPrefix k prefix) keys) (go "List returned key outside prefix");
  check (forallb (fun w => bool_decide (w ∈ keys)) want) (go "List missing").

(** The last of the listed blobs with the hash is the one looked at. *)
Definition ListWithModTimeTest : test :=
  let h := newHash (go "3a") in
  _ ← must (go "Put") (bs_Put h (go "info"));
  infos ← must (go "ListWithModTime") (bs_ListWithModTime (take 2 h));
  match last (filter (fun i => bi_Hash i = h) infos) with
  | None => throw (Fatal (go "ListWithModTime missing the stored blob"))
  | Some found =>
      _ ← check (bi_Size found =? 4) (go "info size");
      check (0 <? bi_ModTime found) (go "info modtime")
  end.

Definition InvalidHash : test :=
  r ← attempt (bs_Get (go "not-a-hash"));
  _ ← check (is_invalid r) (go "Get with invalid hash must wrap ErrInvalidHash");
  r ← attempt (bs_Put (go "not-a-hash") (go "x"));
  check (is_invalid r) (go "Put with invalid hash must wrap ErrInvalidHash").

Definition subtests : list test :=
  [PutGetRoundTrip; PutEmptyBlob; PutExistingIdempotent; GetMissingClassifiesNotFound; GetStreamMissingClassifiesNotFound;
   PutStreamGetStreamRoundTrip; ExistsTest; DeleteIdempotent; ListPrefix; ListWithModTimeTest; InvalidHash].

(** Each subtest on a new store; the failures. *)
Definition BlobStoreConformance (newStore : S) : list fatal :=
  omap (fun t => match (t newStore).1 with Ok _ => None | Err e => Some e end) subtests.
End Suite.

(** * Facts *)

Section Facts.
Context {S : Type} `{B : BlobStore S} `{SC : !StoreContract S}.

Lemma wp_must {A} what (m : eff S store_err A) Q s :
  wp m (fun r s' => match r with Ok a => Q (Ok a) s' | Err e => Q (Err (FatalErr what e)) s' end) s -> wp (must what m) Q s.
Proof. intros H. unfold must. wp_step. eapply wp_mono; [exact H |]. by intros [a|e] s'. Qed.

Lemma wp_check b what (Q : result fatal unit -> S -> Prop) s : b = true -> Q (Ok tt) s -> wp (check b what) Q s.
Proof. intros -> HQ. unfold check. by wp_step. Qed.

(** A step of a subtest that has to succeed, by the contract. *)
Ltac by_contract L := first [apply wp_must | apply wp_attempt]; eapply wp_mono; [by eapply L |]; cbn beta.

Lemma put_test h d what (Q : result fatal unit -> S -> Prop) s m : bc_rep s m -> validateHash h = true ->
  (forall s', bc_rep s' (match m !! h with Some _ => m | None => <[h := d]> m end) -> Q (Ok tt) s') -> wp (must what (bs_Put h d)) Q s.
Proof. intros R Hv HQ. by_contract bc_Put. rewrite Hv. intros r s' [-> R']. auto. Qed.

Lemma get_test h d what (Q : result fatal bytes -> S -> Prop) s m : bc_rep s m -> validateHash h = true -> m !! h = Some d ->
  (forall s', bc_rep s' m -> Q (Ok d) s') -> wp (must what (bs_Get h)) Q s.
Proof. intros R Hv Hm HQ. by_contract bc_Get. rewrite Hv, Hm. intros r s' [R' ->]. auto. Qed.

Lemma get_missing h (Q : result fatal (result store_err bytes) -> S -> Prop) s m : bc_rep s m -> validateHash h = true -> m !! h = None ->
  (forall e s', bc_rep s' m -> Q (Ok (Err (ErrBlobNotFound e))) s') -> wp (attempt (bs_Get h)) Q s.
Proof. intros R Hv Hm HQ. by_contract bc_Get. rewrite Hv, Hm. intros r s' [R' [e ->]]. auto. Qed.

Lemma put_all_test hs : forall m s (Q : result fatal unit -> S -> Prop), bc_rep s m -> Forall (fun h => validateHash h = true) hs ->
  (forall s' m', bc_rep s' m' -> (forall h, h ∈ hs \/ is_Some (m !! h) -> is_Some (m' !! h)) -> Q (Ok tt) s') -> wp (put_all hs) Q s.
Proof.
  induction hs as [|h hs IH]; intros m s Q R Hf HQ; cbn [put_all].
  - wp_step. apply (HQ s m R). intros h [?%elem_of_nil | ?]; done.
  - apply Forall_cons in Hf as [Hv Hf]. wp_step. apply (put_test _ _ _ _ _ m R Hv). intros s1 R1. cbn beta iota. apply (IH _ _ _ R1 Hf). intros s' m' R' Hm'.
    apply (HQ s' m' R'). intros k Hk. apply Hm'. rewrite elem_of_cons in Hk. destruct (decide (k = h)) as [-> | Hne].
    + right. destruct (m !! h) eqn:E; [by rewrite E | rewrite lookup_insert_eq; by eexists].
    + destruct Hk as [[? | ?] | [d Hk]]; [done | by left | right]. destruct (m !! h); [by eexists | rewrite lookup_insert_ne by done; by eexists].
Qed.

(** Put of a concrete blob in a subtest, from the store represented by [R]. *)
Ltac put_ok R := eapply put_test; [exact R | by vm_compute |].

Definition passes (t : eff S fatal unit) (s : S) : Prop := wp t (fun r _ => r = Ok tt) s.

(** The subtests on contents. *)
Lemma content_tests s : bc_rep s ∅ ->
  passes PutGetRoundTrip s /\ passes PutEmptyBlob s /\ passes PutExistingIdempotent s /\ passes PutStreamGetStreamRoundTrip s.
Proof.
  intros R. unfold passes. split; [|split; [|split]].
  - unfold PutGetRoundTrip. wp_step. put_ok R. intros s1 R1. wp_step. eapply get_test; [exact R1 | by vm_compute | by rewrite lookup_insert_eq |].
    intros s2 R2. cbn beta iota. apply wp_check; [apply eqs_refl | done].
  - unfold PutEmptyBlob. wp_step. put_ok R. intros s1 R1. wp_step. eapply get_test; [exact R1 | by vm_compute | by rewrite lookup_insert_eq |].
    intros s2 R2. cbn beta iota. by apply wp_check.
  - unfold PutExistingIdempotent. wp_step. put_ok R. intros s1 R1. rewrite ?lookup_empty in R1. wp_step.
    put_ok R1. intros s2 R2. rewrite lookup_insert_eq in R2. wp_step.
    eapply get_test; [exact R2 | by vm_compute | by rewrite lookup_insert_eq |]. intros s3 R3. cbn beta iota. apply wp_check; [apply eqs_refl | done].
  - unfold PutStreamGetStreamRoundTrip. wp_step. by_contract bc_PutStream. intros r s1 [-> R1]. rewrite ?lookup_empty in R1. wp_step.
    by_contract bc_GetStream. rewrite lookup_insert_eq. intros r s2 [R2 ->]. wp_step. apply wp_check; [done |]. apply wp_check; [apply eqs_refl | done].
Qed.

(** The subtests on what is missing or malformed. *)
Lemma missing_tests s : bc_rep s ∅ ->
  passes GetMissingClassifiesNotFound s /\ passes GetStreamMissingClassifiesNotFound s /\ passes ExistsTest s /\ passes DeleteIdempotent s /\ passes InvalidHash s.
Proof.
  intros R. unfold passes. split; [|split; [|split; [|split]]].
  - unfold GetMissingClassifiesNotFound. wp_step. eapply get_missing; [exact R | by vm_compute | done |]. intros e s1 R1. wp_step. apply wp_check; [done |]. by apply wp_check.
  - unfold GetStreamMissingClassifiesNotFound. wp_step. by_contract bc_GetStream. rewrite ?lookup_empty. intros r s1 [R1 [e ->]]. wp_step. apply wp_check; [done |]. by apply wp_check.
  - unfold ExistsTest. wp_step. by_contract bc_Exists. rewrite ?lookup_empty. intros r s1 [R1 ->]. wp_step. apply wp_check; [done |]. wp_step.
    put_ok R1. intros s2 R2. rewrite ?lookup_empty in R2. wp_step. by_contract bc_Exists. rewrite lookup_insert_eq. intros r s3 [R3 ->]. by apply wp_check.
  - unfold DeleteIdempotent. wp_step. by_contract bc_Delete. intros r s1 [-> R1]. rewrite delete_empty in R1. wp_step. put_ok R1. intros s2 R2.
    rewrite ?lookup_empty in R2. wp_step. by_contract bc_Delete. intros r s3 [-> R3]. wp_step. eapply get_missing; [exact R3 | by vm_compute | by rewrite lookup_delete_eq |]. intros e s4 R4. by apply wp_check.
  - unfold InvalidHash. wp_step. by_contract bc_Get. change (validateHash (go "not-a-hash")) with false. intros r s1 [R1 ->]. wp_step. apply wp_check; [done |]. wp_step.
    by_contract bc_Put. change (validateHash (go "not-a-hash")) with false. intros r s2 [-> R2]. by apply wp_check.
Qed.

(** The subtests on listings. *)
Lemma list_tests s : bc_rep s ∅ -> passes ListPrefix s /\ passes ListWithModTimeTest s.
Proof.
  intros R. unfold passes. split.
  - unfold ListPrefix. set (prefix := take 2 _). set (want := listed_hash prefix <$> _). wp_step.
    apply (put_all_test want ∅ s); [done | by_decide |]. intros s1 m R1 Hm. wp_step. put_ok R1. intros s2 R2. wp_step.
    by_contract bc_List. intros r s3 [R3 (l & -> & Hl)]. wp_step. apply wp_check.
    { apply forallb_forall. intros k Hk. by apply Hl, list_elem_of_In. }
    apply wp_check; [|done]. apply forallb_forall. intros h Hh%list_elem_of_In. apply bool_decide_eq_true, Hl. split.
    + assert (Hin : is_Some (m !! h)) by (apply Hm; by left). destruct (m !! newHash (go "aa")); [done |].
      destruct (decide (h = newHash (go "aa"))) as [-> | ?]; [rewrite lookup_insert_eq; by eexists | by rewrite lookup_insert_ne].
    + assert (Hf : Forall (fun h => HasPrefix h prefix = true) want) by by_decide. rewrite Forall_forall in Hf. by apply Hf.
  - unfold ListWithModTimeTest. set (h := newHash _). wp_step. put_ok R. intros s1 R1. rewrite ?lookup_empty in R1. wp_step.
    by_contract bc_ListWithModTime. intros r s2 [R2 (l & -> & Hall & Hin)]. cbn beta iota.
    destruct (Hall h (go "info") ltac:(by rewrite lookup_insert_eq) eq_refl) as (i & Hi & Ei).
    destruct (last (filter (fun i => bi_Hash i = h) l)) as [f|] eqn:El.
    + apply last_Some_elem_of, list_elem_of_filter in El as [Ef Hf]. destruct (Hin f Hf) as (d & Hd & Hs & Ht). rewrite Ef, lookup_insert_eq in Hd. injection Hd as <-.
      wp_step. apply wp_check; [by rewrite Hs |]. apply wp_check; [by apply Z.ltb_lt | done].
    + apply last_None in El. assert (Hx : i ∈ filter (fun i => bi_Hash i = h) l) by (by apply list_elem_of_filter). rewrite El in Hx. by apply elem_of_nil in Hx.
Qed.

Lemma contract_passes s : bc_rep s ∅ -> BlobStoreConformance s = [].
Proof.
  intros R. destruct (content_tests s R) as (H1 & H2 & H3 & H4). destruct (missing_tests s R) as (H5 & H6 & H7 & H8 & H9). destruct (list_tests s R) as (H10 & H11).
  assert (Hf : Forall (fun t => passes t s) subtests) by (repeat constructor; done).
  unfold BlobStoreConformance. induction Hf as [|t l Ht _ IH]; [done |]. cbn. unfold passes, wp in Ht. by rewrite Ht.
Qed.
End Facts.
