(* ===== verification/ConformLocal.v ===== *)
(** ConformLocal: the local store has the contract of [Conformance], so it
    passes the suite, for every base directory.

    Beyond what [LocalStore] shows of single operations this takes two
    invariants: blob files are where [Put] places them ([sharded]), and their
    modification times are positive ([clocked]). *)

From S2P Require Import Prelude GoStr FS BlobStore LocalStore Conformance.
From stdpp Require Import base list gmap strings.
From Stdlib.Strings Require Import Byte.
Local Open Scope Z_scope.

(** ** Relations between the states before and after *)

Definition moves {S E A} (R : relation S) (m : eff S E A) : Prop := forall s, R s (m s).2.

Section Moves.
Context {S : Type} (R : relation S) `{!PreOrder R}.

Lemma moves_ret {E A} (a : A) : moves R (mret a : eff S E A).
Proof. intros s. cbn. reflexivity. Qed.
Lemma moves_throw {E A} (e : E) : moves R (throw e : eff S E A).
Proof. intros s. cbn. reflexivity. Qed.
Lemma moves_gets {E A} (f : S -> A) : moves R (gets f : eff S E A).
Proof. intros s. cbn. reflexivity. Qed.
Lemma moves_bind {E A B} (m : eff S E A) (f : A -> eff S E B) : moves R m -> (forall a, moves R (f a)) -> moves R (m ≫= f).
Proof.
  intros Hm Hf s. specialize (Hm s). unfold mbind, eff_bind. destruct (m s) as [[a|e] s']; [|done]. cbn in Hm. etrans; [exact Hm | apply Hf].
Qed.
Lemma moves_attempt {E E' A} (m : eff S E A) : moves R m -> moves R (attempt m : eff S E' _).
Proof. intros Hm s. specialize (Hm s). unfold attempt. by destruct (m s). Qed.
Lemma moves_wrap {E E' A} (f : E -> E') (m : eff S E A) : moves R m -> moves R (wrap_err f m).
Proof. intros Hm s. specialize (Hm s). unfold wrap_err. by destruct (m s). Qed.
Lemma moves_wp {E A} (m : eff S E A) (Q : result E A -> S -> Prop) s : moves R m -> (forall r s', R s s' -> Q r s') -> wp m Q s.
Proof. intros Hm HQ. unfold wp. apply HQ, Hm. Qed.
End Moves.

(** Times are positive. *)
Definition clocked (w : world) : Prop :=
  10 ^ 9 <= w_now w /\ forall q f, w_files w !! q = Some f -> 10 ^ 9 <= f_mtime f.

(** At the blob path or at one of its staging names. *)
Definition own_path (path q : bytes) : Prop := q = path \/ exists u, q = staging_name path u.

(** Only the file at [path] and its staging files change, and times stay
    positive. *)
Definition around (path : bytes) (w w' : world) : Prop :=
  (forall q, own_path path q \/ w_files w' !! q = w_files w !! q) /\ (clocked w -> clocked w').

#[export] Instance around_preorder path : PreOrder (around path).
Proof.
  split; [by intros w; split; [right |] |]. intros x y z [H1 C1] [H2 C2]. split; [|auto].
  intros q. destruct (H1 q) as [? | <-]; [by left | apply H2].
Qed.

Lemma around_files path p w m : own_path path p -> (forall q, q <> p -> m !! q = w_files w !! q) ->
  (forall q f, m !! q = Some f -> clocked w -> 10 ^ 9 <= f_mtime f) -> around path w (set_files m w).
Proof.
  intros Hp H1 H2. split; [|intros [Hn Hf]; split; [done |]; intros q f Hq; by eapply H2].
  intros q. destruct (decide (q = p)) as [-> | Hne]; [by left | right; by apply H1].
Qed.

Section Around.
Context (path : bytes).
Abbreviation R := (around path).

Lemma take_fault_around w : R w (take_fault w).2.
Proof. unfold take_fault. destruct (w_faults w); [reflexivity |]. split; [by right | done]. Qed.

Lemma around_syscall {A} (k : world -> result oserr A * world) : (forall w, R w (k w).2) -> moves R (syscall k).
Proof.
  intros Hk w. unfold syscall. pose proof (take_fault_around w) as H. destruct (take_fault w) as [[f|] w']; [exact H |]. etrans; [exact H | apply Hk].
Qed.

Lemma around_with {A} p (k : file -> world -> result oserr A * world) :
  (forall f w, w_files w !! p = Some f -> R w (k f w).2) -> moves R (syscall (with_file p k)).
Proof. intros Hk. apply around_syscall. intros w. unfold with_file. destruct (w_files w !! p) eqn:E; [by apply Hk | reflexivity]. Qed.

Lemma around_nop : moves R (syscall (fun w => (Ok tt, w))).
Proof. apply around_syscall. intros w. reflexivity. Qed.

Lemma around_Stat p : moves R (Stat p).
Proof. apply around_with. intros. reflexivity. Qed.

Lemma around_new_uuid `{U : Uuid} {E} : moves R (new_uuid (E := E)).
Proof. intros w. split; [by right | done]. Qed.

Lemma around_ctx {E} : moves R (ctx_cancelled (E := E)).
Proof. intros w. unfold ctx_cancelled. destruct (w_ctx w); [reflexivity | split; [by right | done]]. Qed.

Lemma around_Create p : own_path path p -> moves R (Create p).
Proof.
  intros Hp. apply around_syscall. intros w. apply (around_files _ p); [done | |].
  - intros q Hq. by rewrite lookup_insert_ne.
  - intros q f. rewrite lookup_insert_Some. intros [[_ <-] | [_ Hf]] [Hn Hc]; [done | eauto].
Qed.

Lemma around_append p d w : own_path path p -> R w (append p d w).
Proof.
  intros Hp. apply (around_files _ p); [done | |].
  - intros q Hq. by rewrite lookup_alter_ne.
  - intros q f. rewrite lookup_alter_Some. intros [(_ & g & _ & ->) | [_ Hf]] [Hn Hc]; [done | eauto].
Qed.

Lemma around_Write p d : own_path path p -> moves R (Write p d).
Proof.
  intros Hp w. unfold Write. pose proof (take_fault_around w) as H. destruct (take_fault w) as [[f|] w']; cbn; (etrans; [exact H | by apply around_append]).
Qed.

Lemma around_Remove p : own_path path p -> moves R (Remove p).
Proof.
  intros Hp. apply around_with. intros f w Hf. apply (around_files _ p); [done | |].
  - intros q Hq. by rewrite lookup_delete_ne.
  - intros q g. rewrite lookup_delete_Some. intros [_ Hg] [Hn Hc]. eauto.
Qed.

Lemma around_Rename src dst : own_path path src -> own_path path dst -> moves R (Rename src dst).
Proof.
  intros Hs Hd. apply around_with. intros f w Hf. split; cbn.
  - intros q. destruct (decide (q = dst)) as [-> | ?]; [by left |]. destruct (decide (q = src)) as [-> | ?]; [by left |].
    right. by rewrite lookup_insert_ne, lookup_delete_ne.
  - intros [Hn Hc]. split; [done |]. intros q g. cbn. rewrite lookup_insert_Some, lookup_delete_Some. intros [[_ <-] | (_ & _ & Hg)]; eauto.
Qed.
End Around.

(** ** The store *)

(** [around] for the store's file system; the base directory stays. *)
Definition store_around (path : bytes) (s s' : sys) : Prop := baseDir (st s') = baseDir (st s) /\ around path (sw s) (sw s').

#[export] Instance store_around_preorder path : PreOrder (store_around path).
Proof. split; [by intros s; split |]. intros x y z [H1 A1] [H2 A2]. split; [congruence | by etrans]. Qed.

Lemma moves_os {E A} path (f : E -> store_err) (m : eff world E A) : moves (around path) m -> moves (store_around path) (os f m).
Proof. intros Hm s. specialize (Hm (sw s)). unfold os, wrap_err, zoom. destruct (m (sw s)). by split. Qed.

Lemma moves_upd path f : (forall s, baseDir (f s) = baseDir s) -> moves (store_around path) (upd f).
Proof. intros Hf s. split; [apply Hf | reflexivity]. Qed.

Create HintDb moves.
#[export] Hint Resolve moves_ret moves_throw moves_gets moves_attempt moves_wrap moves_os around_nop around_Stat around_new_uuid around_ctx
  around_Create around_Write around_Remove around_Rename : moves.
#[export] Hint Extern 1 (PreOrder _) => apply _ : moves.
#[export] Hint Extern 1 (moves _ (mbind _ _)) => apply moves_bind; [| |intros ?] : moves.
#[export] Hint Extern 1 (moves _ (match ?x with _ => _ end)) => destruct x : moves.
#[export] Hint Extern 1 (moves _ (upd _)) => apply moves_upd : moves.

Section Ops.
Context `{U : Uuid} (path : bytes).

Lemma own_staging u : own_path path (path ++ go "." ++ u ++ go ".tmp").
Proof. right. by exists u. Qed.
Lemma own_self : own_path path path.
Proof. by left. Qed.
#[local] Hint Resolve own_staging own_self : moves.

Lemma around_sync d : moves (around path) (syncParentDir d).
Proof. unfold syncParentDir, OpenDir, Sync, Close. auto 10 with moves. Qed.
#[local] Hint Resolve around_sync : moves.

Lemma moves_commit hash dir wb : (forall u, moves (around path) (wb (path ++ go "." ++ u ++ go ".tmp"))) ->
  moves (store_around path) (commitBlob hash path dir wb).
Proof.
  intros Hwb. unfold commitBlob, abandon, mark_exists, set_exists, Sync, Close, SyncParent. auto 20 with moves.
Qed.

Lemma moves_ensureDir dir : moves (store_around path) (ensureDir dir).
Proof. unfold ensureDir, MkdirAll. auto 10 with moves. Qed.

Lemma moves_WriteContext p d : own_path path p -> moves (around path) (WriteContext p d).
Proof. intros Hp. unfold WriteContext. auto 10 with moves. Qed.
#[local] Hint Resolve moves_WriteContext moves_ensureDir : moves.

Lemma moves_copy fuel : forall p r, own_path path p -> moves (around path) (copy_loop fuel p r).
Proof. induction fuel as [|fuel IH]; intros p r Hp; cbn [copy_loop]; auto 10 with moves. Qed.
End Ops.

Section Frames.
Context `{U : Uuid}.

Abbreviation path s h := (BlobPath (baseDir (st s)) h).

Lemma putBlob_around h wb s : (forall u, moves (around (path s h)) (wb (path s h ++ go "." ++ u ++ go ".tmp"))) ->
  wp (putBlob h wb) (fun _ s' => store_around (path s h) s s') s.
Proof.
  intros Hwb. unfold putBlob. destruct (negb (validateHash h)); [wp_step; reflexivity |]. do 2 wp_step.
  eapply (moves_wp (store_around (path s h))); [|done]. unfold mark_exists, set_exists.
  pose proof (moves_ensureDir (path s h)). pose proof (fun dir => moves_commit (path s h) h dir wb Hwb). auto 10 with moves.
Qed.

Lemma Put_around h d s : wp (Put h d) (fun _ s' => store_around (path s h) s s') s.
Proof.
  unfold Put. do 2 wp_step. apply putBlob_around. intros u. pose proof (own_staging (path s h) u).
  pose proof (fun p d => moves_WriteContext (path s h) p d). auto 10 with moves.
Qed.

Lemma PutStream_around h rd s : wp (PutStream h rd) (fun _ s' => store_around (path s h) s s') s.
Proof.
  unfold PutStream. do 2 wp_step. apply putBlob_around. intros u. pose proof (own_staging (path s h) u).
  pose proof (fun fuel p r => moves_copy (path s h) fuel p r). auto 10 with moves.
Qed.

Lemma Delete_around h s : wp (LocalStore.Delete h) (fun _ s' => store_around (path s h) s s') s.
Proof.
  unfold LocalStore.Delete. destruct (negb (validateHash h)); [wp_step; reflexivity |]. do 2 wp_step.
  eapply (moves_wp (store_around (path s h))); [|done]. unfold set_exists. pose proof (own_self (path s h)). auto 12 with moves.
Qed.

(** Operations on one hash keep the blob files where they belong. *)
Lemma sharded_around h s s' : validateHash h = true -> store_around (path s h) s s' -> sharded s -> sharded s'.
Proof.
  intros Hv [Hb [Hfr _]] Hsh p f n r Hf -> Hn. assert (Hd : blobDir s' = blobDir s) by (unfold blobDir; by rewrite Hb).
  rewrite Hd in Hf. set (q := blobDir s ++ slash :: n ++ slash :: r) in *.
  assert (Hpath : path s h = blobDir s ++ slash :: take 2 h ++ slash :: h ++ go ".gb") by (by apply BlobPath_eq).
  assert (Hns : slash ∉ take 2 h) by (by apply normal_noslash, normal_shard).
  destruct (Hfr q) as [[E | [u E]] | E].
  - rewrite Hpath in E. apply app_inv_head in E. injection E as E. apply first_sep_unique in E as [-> ->]; [|done | done].
    split; [by apply normal_shard |]. intros k _ Ek. by apply app_inv_tail in Ek as ->.
  - assert (Hno : forall k, r <> k ++ go ".gb").
    { intros k ->. apply (not_staging (blobDir s ++ slash :: n ++ slash :: k ++ go ".g") x62 (path s h) u); [done |].
      rewrite <- E. unfold q. by rewrite <- (app_assoc (blobDir s)), <- app_comm_cons, <- (app_assoc n), <- app_comm_cons, <- (app_assoc k). }
    unfold staging_name in E. rewrite Hpath, <- !app_assoc in E. apply app_inv_head in E. cbn [app] in E. injection E as E.
    rewrite <- !app_assoc in E. cbn [app] in E. apply first_sep_unique in E as [-> _]; [|done | done]. split; [by apply normal_shard |].
    intros k _ Ek. by apply Hno in Ek.
  - rewrite E in Hf. by eapply Hsh.
Qed.
End Frames.

(** ** Listing with times *)

Definition info_of (files : gmap bytes file) (subDir name : bytes) : BlobInfo :=
  match files !! FpJoin [subDir; name ++ go ".gb"] with
  | Some f => MkBlobInfo name (unix (f_mtime f)) (blen (f_data f))
  | None => MkBlobInfo name 0 0
  end.

Definition visit_info (subDir name : bytes) : M BlobInfo :=
  r ← attempt (os StoreOS (Stat (FpJoin [subDir; name ++ go ".gb"])));
  mret (match r with
        | Ok f => MkBlobInfo name (unix (f_mtime f)) (blen (f_data f))
        | Err _ => MkBlobInfo name 0 0
        end).

(** Only the file system moved on, with the same files. *)
Definition settled (s s' : sys) : Prop := exists w', same (sw s) w' /\ s' = Sys w' (st s).

#[export] Instance settled_preorder : PreOrder settled.
Proof.
  split; [intros [w l]; by exists w |]. intros x y z (w1 & S1 & ->) (w2 & S2 & ->). exists w2. split; [by etrans | done].
Qed.

Lemma settled_calm s s' : settled s s' -> calm (sw s) -> calm (sw s') /\ w_files (sw s') = w_files (sw s).
Proof. intros (w' & Hs & ->) Hc. split; [by apply Hs | apply Hs]. Qed.

Lemma wp_visit subDir name s : calm (sw s) ->
  wp (visit_info subDir name) (fun r s' => settled s s' /\ r = Ok (info_of (w_files (sw s)) subDir name)) s.
Proof.
  intros Hc. unfold visit_info, info_of. do 2 wp_step. apply wp_os, wp_Stat.
  - intros e w' Hs He Hce. wp_step. rewrite (He (Hce Hc)). split; [by exists w' | done].
  - intros f w' Hs Hf. wp_step. rewrite Hf. split; [by exists w' | done].
Qed.

Lemma wp_visits subDir names : forall s, calm (sw s) ->
  wp (mapM (visit_info subDir) names) (fun r s' => settled s s' /\ r = Ok (info_of (w_files (sw s)) subDir <$> names)) s.
Proof.
  induction names as [|n names IH]; intros s Hc; [by split |]. change (mapM (visit_info subDir) (n :: names)) with (x ← visit_info subDir n; k ← mapM (visit_info subDir) names; mret (x :: k)).
  wp_step. eapply wp_mono; [by apply wp_visit |]. intros r s1 [S1 ->]. cbn beta iota. destruct (settled_calm _ _ S1 Hc) as [Hc1 Hf1].
  wp_step. eapply wp_mono; [by apply IH |]. intros r s2 [S2 ->]. cbn beta iota. wp_step. rewrite Hf1. split; [by etrans | done].
Qed.

(** The blobs a walk over [entries] reports. *)
Definition walked (files : gmap bytes file) (dir p : bytes) (entries : list (bytes * bool)) (i : BlobInfo) : Prop :=
  exists n h, (n, true) ∈ entries /\ (p = [] \/ HasPrefix n p = true) /\
    h ∈ omap entry_hash (children (FpJoin [dir; n]) files) /\ i = info_of files (FpJoin [dir; n]) h.

Lemma wp_walk_info dir p entries : forall s, calm (sw s) ->
  wp (walk_shards visit_info dir p entries) (fun r s' => settled s s' /\
    exists l, r = Ok l /\ forall i, i ∈ l <-> walked (w_files (sw s)) dir p entries i) s.
Proof.
  induction entries as [|[n b] es IH]; intros s Hc; cbn [walk_shards fst snd].
  { wp_step. split; [reflexivity |]. exists []. split; [done |]. intros i. split; [by intros ?%elem_of_nil | by intros (n & h & ?%elem_of_nil & _)]. }
  assert (Hcons : forall i, walked (w_files (sw s)) dir p ((n, b) :: es) i <->
    (b = true /\ (p = [] \/ HasPrefix n p = true) /\ i ∈ (info_of (w_files (sw s)) (FpJoin [dir; n]) <$> omap entry_hash (children (FpJoin [dir; n]) (w_files (sw s))))) \/
    walked (w_files (sw s)) dir p es i).
  { intros i. unfold walked. setoid_rewrite elem_of_cons. setoid_rewrite list_elem_of_fmap. naive_solver. }
  assert (Hskip : (b = false \/ ~ (p = [] \/ HasPrefix n p = true)) -> wp (walk_shards visit_info dir p es) (fun r s' => settled s s' /\
    exists l, r = Ok l /\ forall i, i ∈ l <-> walked (w_files (sw s)) dir p ((n, b) :: es) i) s).
  { intros Hb. eapply wp_mono; [by apply IH |]. intros r s' [S' (l & -> & Hl)]. split; [done |]. exists l. split; [done |]. intros i. rewrite Hl, Hcons. naive_solver. }
  destruct b; cbn [negb]; [|by apply Hskip; left]. destruct (negb (eqs p []) && negb (HasPrefix n p)) eqn:Hpre.
  { apply Hskip. right. apply andb_true_iff in Hpre as [H1%negb_true_iff H2%negb_true_iff]. apply eqs_false in H1. intros [? | ?]; congruence. }
  assert (Hp : p = [] \/ HasPrefix n p = true).
  { apply andb_false_iff in Hpre as [H%negb_false_iff | H%negb_false_iff]; [left; by apply eqs_true | by right]. }
  do 2 wp_step. apply wp_os, wp_ReadDir.
  - intros e w' Hs Hce _. destruct (Hce Hc) as [_ Hemp]. assert (S1 : settled s (Sys w' (st s))) by (by exists w'). destruct (settled_calm _ _ S1 Hc) as [Hc1 Hf1].
    eapply wp_mono; [by apply IH |]. intros r s' [S' (l & -> & Hl)]. split; [by etrans |]. exists l. split; [done |]. intros i. rewrite Hl, Hf1, Hcons, Hemp. cbn.
    rewrite elem_of_nil. tauto.
  - intros w' Hs. assert (S1 : settled s (Sys w' (st s))) by (by exists w'). destruct (settled_calm _ _ S1 Hc) as [Hc1 Hf1]. wp_step.
    eapply wp_mono; [by apply wp_visits |]. intros r s2 [S2 ->]. cbn beta iota. destruct (settled_calm _ _ S2 Hc1) as [Hc2 Hf2]. wp_step.
    eapply wp_mono; [by apply IH |]. intros r s3 [S3 (l & -> & Hl)]. cbn beta iota. wp_step. split; [by etrans; [|etrans] |].
    eexists. split; [done |]. intros i. rewrite elem_of_app, Hl, Hf2, Hf1, Hcons. tauto.
Qed.

(** The information about the blob of a valid hash. *)
Lemma info_blob s h d : blob s h = Some d -> clocked (sw s) ->
  let i := info_of (w_files (sw s)) (FpJoin [blobDir s; take 2 h]) h in bi_Hash i = h /\ bi_Size i = blen d /\ 0 < bi_ModTime i.
Proof.
  intros Hb [_ Hcl]. unfold blob in Hb. destruct (validateHash h) eqn:Hv; [|done]. rewrite BlobPath_eq in Hb by done. fold (blobDir s) in Hb.
  assert (Hp : FpJoin [FpJoin [blobDir s; take 2 h]; h ++ go ".gb"] = blobDir s ++ slash :: take 2 h ++ slash :: h ++ go ".gb").
  { assert (Hgb : Forall normal [go "gb"; take 2 h]) by (apply Forall_cons_2; [apply normal_gb | apply Forall_singleton; by apply normal_shard]).
    assert (E : FpJoin [blobDir s; take 2 h] = FpJoin [baseDir (st s); go "gb"; take 2 h]).
    { rewrite shard_join by (by apply normal_shard). symmetry. apply (FpJoin_snoc (baseDir (st s)) [go "gb"] (take 2 h)); [done | repeat constructor; apply normal_gb | by apply normal_shard]. }
    rewrite E, (FpJoin_nested (baseDir (st s)) [go "gb"; take 2 h]), <- E, shard_join by (done || by apply normal_blob || by apply normal_shard).
    by rewrite <- app_assoc. }
  unfold info_of. rewrite Hp. destruct (w_files (sw s) !! _) as [f|] eqn:Hf; [|done]. cbn. injection Hb as <-. split; [done |]. split; [done |].
  specialize (Hcl _ _ Hf). unfold unix. assert (1 <= f_mtime f / 10 ^ 9) by (apply Z.div_le_lower_bound; lia). lia.
Qed.

Lemma wp_ListWithModTime p s : sharded s -> calm (sw s) -> clocked (sw s) ->
  wp (ListWithModTime p) (fun r s' => settled s s' /\ exists l, r = Ok l /\
    (forall h, listed s p h -> exists i, i ∈ l /\ bi_Hash i = h) /\
    (forall i, i ∈ l -> exists d, blob s (bi_Hash i) = Some d /\ bi_Size i = blen d /\ 0 < bi_ModTime i)) s.
Proof.
  intros Hsh Hc Hcl. unfold ListWithModTime, list_blobs. do 2 wp_step. fold (blobDir s). do 2 wp_step. apply wp_os, wp_ReadDir.
  - intros e w' Hs Hce He. destruct (Hce Hc) as [-> Hemp]. cbn beta iota. wp_step. split; [by exists w' |]. exists []. split; [done |]. split; [|by intros i ?%elem_of_nil].
    intros h [Hb%shard_listed _]. rewrite Hemp in Hb. by apply elem_of_nil in Hb.
  - intros w' Hs. cbn beta iota. assert (S1 : settled s (Sys w' (st s))) by (by exists w'). destruct (settled_calm _ _ S1 Hc) as [Hc1 Hf1]. fold visit_info.
    eapply wp_mono; [by apply (wp_walk_info (blobDir s) p) |]. intros r s' [S' (l & -> & Hl)]. rewrite Hf1 in Hl. split; [by etrans |]. exists l. split; [done |]. split.
    + intros h [Hb Hp]. exists (info_of (w_files (sw s)) (FpJoin [blobDir s; take 2 h]) h). split; [|destruct Hb as [d Hb]; by apply (info_blob _ _ _ Hb)].
      apply Hl. exists (take 2 h), h. split; [by apply shard_listed |]. split; [done |]. split; [|done]. apply shard_hashes; [done | by eapply shard_normal, shard_listed | done].
    + intros i (n & h & Hn & _ & Hh & ->)%Hl. apply shard_hashes in Hh as [[d Hb] ->]; [|done | by eapply shard_normal].
      destruct (info_blob _ _ _ Hb Hcl) as (-> & ? & ?). by exists d.
Qed.

(** ** The contract *)

(** [rep] with the files in place and dated. *)
Definition good (s : sys) (m : gmap bytes bytes) : Prop := rep s m /\ sharded s /\ clocked (sw s).

Lemma clocked_same w w' : same w w' -> clocked w -> clocked w'.
Proof. intros [Hf _ Hn] [H1 H2]. split; [by rewrite Hn | by rewrite Hf]. Qed.

Lemma good_settled s s' m : good s m -> settled s s' -> good s' m.
Proof.
  intros ((Hi & Hc & Hb) & Hsh & Hcl) (w' & Hs & ->). split; [split; [by apply same_inv |]; split; [by apply Hs |]; intros h; rewrite same_blob; auto |].
  split; [by apply sharded_same | by eapply clocked_same].
Qed.

(** What changes around one valid hash keeps the files in place and dated. *)
Lemma good_around h s s' m m' : good s m -> validateHash h = true -> store_around (BlobPath (baseDir (st s)) h) s s' -> rep s' m' -> good s' m'.
Proof. intros (_ & Hsh & Hcl) Hv Ha Hr. split; [done |]. split; [by eapply sharded_around | by apply Ha]. Qed.

Section Contract.
Context `{U : Uuid}.

(** [exec_spec] in terms of the operations. *)
Lemma delete_rep h s m : rep s m -> validateHash h = true -> wp (LocalStore.Delete h) (fun r s' => r = Ok tt /\ rep s' (delete h m)) s.
Proof.
  intros R Hv. destruct (exec_spec (ODelete h) s m R) as [Ho R']. cbn [exec spec] in Ho, R'. rewrite Hv in Ho, R'. unfold wp.
  destruct (LocalStore.Delete h s) as [r s']. cbn in *. by injection Ho as ->.
Qed.

Lemma exists_rep h s m : rep s m -> validateHash h = true -> wp (LocalStore.Exists h) (fun r s' => rep s' m /\ r = Ok (bool_decide (is_Some (m !! h)))) s.
Proof.
  intros R Hv. destruct (exec_spec (OExists h) s m R) as [Ho R']. cbn [exec spec] in Ho, R'. rewrite Hv in Ho, R'. unfold wp.
  destruct (LocalStore.Exists h s) as [r s']. cbn in *. by injection Ho as ->.
Qed.

Lemma Exists_around h s : wp (LocalStore.Exists h) (fun _ s' => store_around (BlobPath (baseDir (st s)) h) s s') s.
Proof.
  unfold LocalStore.Exists. destruct (negb (validateHash h)); [wp_step; reflexivity |]. do 2 wp_step.
  eapply (moves_wp (store_around (BlobPath (baseDir (st s)) h))); [|done]. unfold mark_exists, set_exists. auto 12 with moves.
Qed.

#[export] Instance local_contract : StoreContract sys.
Proof.
  refine {| bc_rep := good |}; cbn [bs_Put bs_PutStream bs_Get bs_GetStream bs_Exists bs_Delete bs_List bs_ListWithModTime local_store].
  - intros h d s m G. pose proof G as (R & _ & _). destruct (validateHash h) eqn:Hv.
    + eapply wp_mono; [apply wp_and; [by apply wp_Put, R | apply Put_around] |]. intros r s' [Hp Ha].
      destruct (put_rep _ _ _ _ _ _ _ R Hv I Hp) as [-> R']. split; [done | by eapply good_around].
    + unfold Put, putBlob. do 2 wp_step. rewrite Hv. cbn [negb]. by wp_step.
  - intros h d s m G Hv. pose proof G as (R & _ & _). eapply wp_mono; [apply wp_and; [by apply wp_PutStream, R | apply PutStream_around] |]. intros r s' [Hp Ha].
    destruct (put_rep _ _ _ _ _ _ _ R Hv eq_refl Hp) as [-> R']. split; [done | by eapply good_around].
  - intros h s m G. pose proof G as ((_ & Hc & Hb) & _ & _). eapply wp_mono; [apply wp_Get |]. intros r s' [Hs Hr]. split; [by eapply good_settled |].
    rewrite <- Hb. destruct (validateHash h) eqn:Hv.
    + destruct r as [d|e]; [by rewrite Hr |]. destruct Hr as (_ & Hn & He). pose proof (He Hc Hv) as ->. rewrite (Hn _ eq_refl). by eexists.
    + destruct r as [d|e]; [unfold blob in Hr; by rewrite Hv in Hr |]. f_equal. by apply Hr.
  - intros h s m G Hv. pose proof G as ((_ & Hc & Hb) & _ & _). eapply wp_mono; [apply wp_GetStream |]. intros r s' [Hs Hr]. split; [by eapply good_settled |].
    rewrite <- Hb. destruct r as [[x b]|e].
    + destruct Hr as (d & -> & _ & Hd & Hf). cbn in Hd, Hf. rewrite (Hf Hc) in *. by rewrite Hd.
    + destruct Hr as (_ & Hn & He). pose proof (He Hc Hv) as ->. rewrite (Hn _ eq_refl). by eexists.
  - intros h s m G Hv. pose proof G as (R & _ & _). eapply wp_mono; [apply wp_and; [by apply (exists_rep h s m) | apply Exists_around] |].
    intros r s' [[R' ->] Ha]. split; [by eapply good_around | done].
  - intros h s m G Hv. pose proof G as (R & _ & _). eapply wp_mono; [apply wp_and; [by apply (delete_rep h s m) | apply Delete_around] |].
    intros r s' [[-> R'] Ha]. split; [done | by eapply good_around].
  - intros p s m G Hp. pose proof G as ((Hi & Hc & Hb) & Hsh & Hcl). unfold List. eapply wp_mono; [by apply wp_list_blobs |]. intros r s' (Hs & Hok & H).
    split; [by eapply good_settled |]. destruct r as [l|e]; [|by apply Hok in Hc]. exists l. split; [done |]. destruct (H l eq_refl) as [H1 H2]. intros h. rewrite <- Hb. split.
    + intros Hh. destruct (H1 h Hh) as [? Hpre]. split; [done | by apply (shard_prefix h p)].
    + intros [? Hpre]. apply H2; [done |]. split; [done | by apply (shard_prefix h p)].
  - intros p s m G Hp. pose proof G as ((Hi & Hc & Hb) & Hsh & Hcl). eapply wp_mono; [by apply wp_ListWithModTime |]. intros r s' (Hs & l & -> & H1 & H2).
    split; [by eapply good_settled |]. exists l. split; [done |]. split.
    + intros h d Hd Hpre. apply H1. split; [rewrite Hb; by eexists | by apply (shard_prefix h p)].
    + intros i Hi'. destruct (H2 i Hi') as (d & Hd & ?). exists d. by rewrite <- Hb.
Defined.

(** A new local store, as [NewLocalBlobStore] and [SetWriteLimiter] make it, on
    an empty disk. *)
Definition fresh_store (dir : bytes) (limiter : bool) (now : Z) (draws : nat) : sys :=
  Sys (World ∅ [] [] now draws) (SetWriteLimiter (NewLocalBlobStore dir) limiter).

(** C23: the local store passes the conformance suite on every new store: whatever
    its base directory and write limiter, on an empty disk with the clock past
    1970, when nothing fails. *)
Theorem local_store_conforms dir limiter now draws : 10 ^ 9 <= now ->
  BlobStoreConformance (fresh_store dir limiter now draws) = [].
Proof.
  intros Hn. apply contract_passes. split; [|split].
  - split; [|split; [done |]]; [by intros h ?%elem_of_empty |]. intros h. unfold blob. cbn. rewrite !lookup_empty. by destruct (validateHash h).
  - intros p f n r Hf. cbn in Hf. by rewrite lookup_empty in Hf.
  - split; [done |]. intros q f Hf. cbn in Hf. by rewrite lookup_empty in Hf.
Qed.
End Contract.

Module ConformWitness.
#[local] Instance uuid : Uuid := toy_uuid.

Lemma local_store_conforms_witness :
  BlobStoreConformance (fresh_store (go "/srv/../backup/") true (10 ^ 9) 0) = [].
Proof. apply local_store_conforms. reflexivity || lia. Defined.
End ConformWitness.
