(* ===== verification/StoreConc.v ===== *)
(** StoreConc: the local store under concurrent use.

    The operations of [simple/local_store.go] as threads that share the disk,
    the existence cache and the per-hash put locks.  Each step is one access to
    shared state, with its failure where it can fail: [putBlob] takes its lock,
    looks in the cache, stats, writes its staging file, renames it, syncs the
    directory, marks the cache and unlocks, and after a failed rename stats
    again; [Exists] looks, stats and marks; [Delete] removes and unmarks.  The
    disk is the map from hashes to blobs ([BlobPath] is injective); staging
    files have names of their own and are not in it.

    [stat_fails h] says that [os.Stat] of the path of [h] may fail with an error
    other than not-exist, which [putBlob] takes as if the blob were missing. *)

From S2P Require Import Prelude GoStr FS BlobStore LocalStore.
From stdpp Require Import base list gmap strings.
From Stdlib Require Import Relations.
From Stdlib.Strings Require Import Byte.
Local Open Scope Z_scope.

(** [ok] is whether the call returns without an error; [EDone None] is an
    [Exists] that returns one. *)
Inductive put_pc := PLock | PCheck | PStat | PStage | PRename | PRestat | PSync | PMark | PUnlock (ok : bool) | PDone (ok : bool).
Inductive ex_pc := ECheck | EStat | EMark | EDone (r : option bool).
Inductive del_pc := DRemove | DUnmark | DDone (ok : bool).

Inductive thread :=
| TPut (h d : bytes) (p : put_pc)
| TExists (h : bytes) (p : ex_pc)
| TDelete (h : bytes) (p : del_pc).

Record conf := Conf {
  c_disk : gmap bytes bytes;
  c_exists : gset bytes;
  c_locks : gset bytes;
  c_thr : list thread
}.

Section Steps.
Context (stat_fails : bytes -> Prop).

(** What a step does to the shared state and to the stepping thread. *)
Inductive tstep : gmap bytes bytes -> gset bytes -> gset bytes -> thread ->
                  gmap bytes bytes -> gset bytes -> gset bytes -> thread -> Prop :=
| put_invalid D E L h d : validateHash h = false -> tstep D E L (TPut h d PLock) D E L (TPut h d (PDone false))
| put_lock D E L h d : validateHash h = true -> h ∉ L -> tstep D E L (TPut h d PLock) D E ({[h]} ∪ L) (TPut h d PCheck)
| put_cached D E L h d : h ∈ E -> tstep D E L (TPut h d PCheck) D E L (TPut h d (PUnlock true))
| put_uncached D E L h d : h ∉ E -> tstep D E L (TPut h d PCheck) D E L (TPut h d PStat)
| put_found D E L h d x : D !! h = Some x -> tstep D E L (TPut h d PStat) D E L (TPut h d PMark)
| put_missing D E L h d : D !! h = None -> tstep D E L (TPut h d PStat) D E L (TPut h d PStage)
| put_blind D E L h d : stat_fails h -> tstep D E L (TPut h d PStat) D E L (TPut h d PStage)
| put_staged D E L h d : tstep D E L (TPut h d PStage) D E L (TPut h d PRename)
| put_stage_fail D E L h d : tstep D E L (TPut h d PStage) D E L (TPut h d (PUnlock false))
| put_rename D E L h d : tstep D E L (TPut h d PRename) (<[h := d]> D) E L (TPut h d PSync)
| put_rename_fail D E L h d : tstep D E L (TPut h d PRename) D E L (TPut h d PRestat)
| put_refound D E L h d x : D !! h = Some x -> tstep D E L (TPut h d PRestat) D E L (TPut h d PMark)
| put_restat_fail D E L h d : D !! h = None \/ stat_fails h -> tstep D E L (TPut h d PRestat) D E L (TPut h d (PUnlock false))
| put_synced D E L h d : tstep D E L (TPut h d PSync) D E L (TPut h d PMark)
| put_sync_fail D E L h d : tstep D E L (TPut h d PSync) D E L (TPut h d (PUnlock false))
| put_mark D E L h d : tstep D E L (TPut h d PMark) D ({[h]} ∪ E) L (TPut h d (PUnlock true))
| put_unlock D E L h d b : tstep D E L (TPut h d (PUnlock b)) D E (L ∖ {[h]}) (TPut h d (PDone b))
| ex_invalid D E L h : validateHash h = false -> tstep D E L (TExists h ECheck) D E L (TExists h (EDone None))
| ex_cached D E L h : validateHash h = true -> h ∈ E -> tstep D E L (TExists h ECheck) D E L (TExists h (EDone (Some true)))
| ex_uncached D E L h : validateHash h = true -> h ∉ E -> tstep D E L (TExists h ECheck) D E L (TExists h EStat)
| ex_found D E L h x : D !! h = Some x -> tstep D E L (TExists h EStat) D E L (TExists h EMark)
| ex_missing D E L h : D !! h = None -> tstep D E L (TExists h EStat) D E L (TExists h (EDone (Some false)))
| ex_fail D E L h : stat_fails h -> tstep D E L (TExists h EStat) D E L (TExists h (EDone None))
| ex_mark D E L h : tstep D E L (TExists h EMark) D ({[h]} ∪ E) L (TExists h (EDone (Some true)))
| del_invalid D E L h : validateHash h = false -> tstep D E L (TDelete h DRemove) D E L (TDelete h (DDone false))
| del_remove D E L h : validateHash h = true -> tstep D E L (TDelete h DRemove) (delete h D) E L (TDelete h DUnmark)
| del_fail D E L h : validateHash h = true -> tstep D E L (TDelete h DRemove) D E L (TDelete h (DDone false))
| del_unmark D E L h : tstep D E L (TDelete h DUnmark) D (E ∖ {[h]}) L (TDelete h (DDone true)).

Inductive cstep : conf -> conf -> Prop :=
| CStep D E L D' E' L' T i t t' :
    T !! i = Some t -> tstep D E L t D' E' L' t' ->
    cstep (Conf D E L T) (Conf D' E' L' (<[i := t']> T)).

Definition reach : relation conf := clos_refl_trans_1n conf cstep.

(** A configuration in which no thread has started. *)
Definition fresh (t : thread) : Prop :=
  match t with
  | TPut _ _ PLock | TExists _ ECheck | TDelete _ DRemove => True
  | _ => False
  end.
Definition initial (c : conf) : Prop :=
  c_exists c = ∅ /\ c_locks c = ∅ /\ Forall fresh (c_thr c).

Definition is_delete (t : thread) : bool := match t with TDelete _ _ => true | _ => false end.

(** The hash whose put lock a thread holds. *)
Definition holds (t : thread) : option bytes :=
  match t with
  | TPut h _ (PCheck | PStat | PStage | PRename | PRestat | PSync | PMark | PUnlock _) => Some h
  | _ => None
  end.

(** * The put lock *)

(** The held locks are exactly those of the threads inside [putBlob], and no
    two threads are inside it for the same hash. *)
Definition lock_inv (c : conf) : Prop :=
  (forall i t h, c_thr c !! i = Some t -> holds t = Some h -> h ∈ c_locks c) /\
  (forall i j t u h, c_thr c !! i = Some t -> c_thr c !! j = Some u ->
     holds t = Some h -> holds u = Some h -> i = j).

Lemma lookup_insert_thr (T : list thread) i j t u : (<[i := t]> T) !! j = Some u ->
  (i = j /\ u = t /\ (i < length T)%nat) \/ (i <> j /\ T !! j = Some u).
Proof. intros H. apply list_lookup_insert_Some in H. naive_solver. Qed.

(** How a step changes the lock of its thread. *)
Lemma tstep_locks D E L t D' E' L' t' : tstep D E L t D' E' L' t' ->
  (L' = L /\ holds t' = holds t) \/
  (exists h, holds t = None /\ (h ∉ L) /\ L' = {[h]} ∪ L /\ holds t' = Some h) \/
  (exists h, holds t = Some h /\ L' = L ∖ {[h]} /\ holds t' = None).
Proof. destruct 1; cbn; eauto 10. Qed.

Lemma lock_step c c' : lock_inv c -> cstep c c' -> lock_inv c'.
Proof.
  intros [H1 H2] Hst. destruct Hst as [D E L D' E' L' T i t t' Hi Ht]. cbn in *.
  apply tstep_locks in Ht as [[-> Hh] | [(h & Hn & Hfr & -> & Hh) | (h & Hh & -> & Hn)]]; split; cbn.
  - intros j u k Hu Hk. apply lookup_insert_thr in Hu as [(<- & -> & _) | [_ Hu]]; [|eauto].
    eapply (H1 i); [done | congruence].
  - intros j j' u u' k Hu Hu' Hk Hk'.
    apply lookup_insert_thr in Hu as [(<- & -> & _) | [? Hu]];
    apply lookup_insert_thr in Hu' as [(<- & -> & _) | [? Hu']]; [done | ..]; rewrite ?Hh in *;
      by eapply H2.
  - intros j u k Hu Hk. apply elem_of_union.
    apply lookup_insert_thr in Hu as [(<- & -> & _) | [_ Hu]]; [left; set_solver | right; eauto].
  - intros j j' u u' k Hu Hu' Hk Hk'.
    apply lookup_insert_thr in Hu as [(<- & -> & _) | [? Hu]];
    apply lookup_insert_thr in Hu' as [(<- & -> & _) | [? Hu']]; [done | | | by eapply H2];
      exfalso; apply Hfr; rewrite Hh in *; simplify_eq; eauto.
  - intros j u k Hu Hk. apply lookup_insert_thr in Hu as [(<- & -> & _) | [Hne Hu]]; [congruence |].
    apply elem_of_difference. split; [eauto |]. rewrite elem_of_singleton. intros ->. apply Hne. by eapply H2.
  - intros j j' u u' k Hu Hu' Hk Hk'.
    apply lookup_insert_thr in Hu as [(<- & -> & _) | [? Hu]]; [congruence |].
    apply lookup_insert_thr in Hu' as [(<- & -> & _) | [? Hu']]; [congruence |]. by eapply H2.
Qed.

Lemma fresh_holds t : fresh t -> holds t = None.
Proof. by destruct t as [?? []|? []|? []]. Qed.

Lemma lock_initial c : initial c -> lock_inv c.
Proof.
  intros (_ & _ & Hf). split.
  - intros i t h Hi Hh. eapply Forall_lookup_1 in Hf; [|done]. by rewrite fresh_holds in Hh.
  - intros i j t u h Hi _ Hh _. eapply Forall_lookup_1 in Hf; [|done]. by rewrite fresh_holds in Hh.
Qed.

Lemma reach_inv (P : conf -> Prop) c c' :
  P c -> (forall a b, P a -> cstep a b -> P b) -> reach c c' -> P c'.
Proof. intros H0 Hs. induction 1; [done |]. eauto. Qed.

(** In every interleaving of puts, existence checks and deletions, at
    most one thread is inside [putBlob] for a given hash. *)
Theorem put_mutual_exclusion c c' i j t u h :
  initial c -> reach c c' -> c_thr c' !! i = Some t -> c_thr c' !! j = Some u ->
  holds t = Some h -> holds u = Some h -> i = j.
Proof.
  intros H0 Hr. assert (lock_inv c') as [_ H] by (eapply reach_inv; eauto using lock_initial, lock_step).
  eauto.
Qed.

(** * Without deletions *)

(** What a thread past its stat knows about the disk; a put that is about to
    write has seen no blob, unless its stat failed. *)
Definition knows (D : gmap bytes bytes) (t : thread) : Prop :=
  match t with
  | TPut h _ (PSync | PMark | PUnlock true | PDone true) => is_Some (D !! h)
  | TPut h _ (PStage | PRename) => D !! h = None \/ stat_fails h
  | TExists h (EMark | EDone (Some true)) => is_Some (D !! h)
  | _ => True
  end.

Definition cache_inv (c : conf) : Prop :=
  lock_inv c /\ (forall h, h ∈ c_exists c -> is_Some (c_disk c !! h)) /\
  Forall (fun t => is_delete t = false) (c_thr c) /\
  Forall (knows (c_disk c)) (c_thr c).

(** A rename of [h] by the lock holder keeps what the others know. *)
Lemma knows_insert D h d t : knows D t -> holds t <> Some h -> knows (<[h := d]> D) t.
Proof.
  intros Hk Hh. destruct t as [k x p|k p|k p]; [| |done]; destruct (decide (h = k)) as [-> | Hne].
  - destruct p as [| | | | | | | |[]|[]]; cbn in *; rewrite ?lookup_insert_eq; done || by eexists.
  - destruct p as [| | | | | | | |[]|[]]; cbn in *; by rewrite ?lookup_insert_ne.
  - destruct p as [| | |[[]|]]; cbn in *; rewrite ?lookup_insert_eq; done || by eexists.
  - destruct p as [| | |[[]|]]; cbn in *; by rewrite ?lookup_insert_ne.
Qed.

Lemma Forall_insert_thr (P : thread -> Prop) T i t : Forall P T -> P t -> Forall P (<[i := t]> T).
Proof. intros. by apply Forall_insert. Qed.

(** A step keeps the blobs; the bytes of one change only by a put whose stat
    failed. *)
Definition kept (c c' : conf) : Prop :=
  forall h x, c_disk c !! h = Some x -> exists y, c_disk c' !! h = Some y /\ (y = x \/ stat_fails h).

#[local] Instance kept_preorder : PreOrder kept.
Proof.
  split; [by intros c h x Hx; exists x; split; [|left] |]. intros a b c H1 H2 h x Hx. destruct (H1 h x Hx) as (y & Hy & E1). destruct (H2 h y Hy) as (z & Hz & E2).
  exists z. split; [done |]. destruct E1 as [-> | ?]; [done | by right].
Qed.

Lemma cache_step c c' : cache_inv c -> cstep c c' -> cache_inv c' /\ kept c c'.
Proof.
  intros (HL & HE & HD & HK) Hst. pose proof (lock_step _ _ HL Hst) as HL'.
  destruct Hst as [D E L D' E' L' T i t t' Hi Ht]. cbn in *.
  pose proof (Forall_lookup_1 _ _ _ _ HD Hi) as Hdt. pose proof (Forall_lookup_1 _ _ _ _ HK Hi) as Hkt.
  cbn in Hdt, Hkt.
  assert (Hone : D' = D -> (forall h, h ∈ E' -> is_Some (D !! h)) -> is_delete t' = false -> knows D t' ->
    cache_inv (Conf D' E' L' (<[i := t']> T)) /\ kept (Conf D E L T) (Conf D' E' L' (<[i := t']> T))).
  { intros -> HE' Hd' Hk'. split; [|by intros h x Hx; exists x; split; [|left]]. split; [done |]. split; [done |].
    split; by apply Forall_insert_thr. }
  destruct Ht; cbn in Hdt, Hkt; try discriminate; try (apply Hone; [done | done | done | cbn; eauto]; done).
  all: try (apply Hone; [done | | done | done]; intros k [->%elem_of_singleton | ?]%elem_of_union; by eauto).
  split.
  - split; [done |]. split; [|split; [by apply Forall_insert_thr |]].
    + cbn. intros k Hk. apply HE in Hk. destruct (decide (h = k)) as [-> | Hne];
          [rewrite lookup_insert_eq; by eexists | by rewrite lookup_insert_ne].
    + cbn. apply Forall_lookup. intros j u Hu.
        apply lookup_insert_thr in Hu as [(<- & -> & _) | [Hne Hu]]; [cbn; rewrite lookup_insert_eq; by eexists |].
        apply knows_insert; [by eapply Forall_lookup_1 in HK |].
        intros Hh. apply Hne. destruct HL as [_ HL]. by eapply HL.
  - intros k x Hx. cbn in *. destruct (decide (h = k)) as [-> | Hne]; [|rewrite lookup_insert_ne by done; exists x; split; [done | by left]].
    rewrite lookup_insert_eq. exists d. split; [done |]. right. destruct Hkt as [E0 | ?]; [congruence | done].
Qed.

Lemma cache_initial c : initial c -> Forall (fun t => is_delete t = false) (c_thr c) -> cache_inv c.
Proof.
  intros Hc Hd. split; [by apply lock_initial |]. destruct Hc as (HE & _ & Hf). split; [rewrite HE; set_solver |].
  split; [done |]. eapply Forall_impl; [exact Hf |].
  intros t Ht. by destruct t as [?? []|? []|? []].
Qed.

(** Every blob on disk was there at the start or is the data of a put for
    its own hash, in every interleaving, deletions included. *)
Lemma disk_integrity c c' h x :
  reach c c' -> c_disk c' !! h = Some x ->
  c_disk c !! h = Some x \/ exists i p, c_thr c' !! i = Some (TPut h x p).
Proof.
  intros Hr. set (P := fun a => forall h x, c_disk a !! h = Some x ->
    c_disk c !! h = Some x \/ exists i p, c_thr a !! i = Some (TPut h x p)).
  assert (HP : P c'); [|apply HP]. apply (reach_inv P c); [by intros ??; left | | done].
  clear. intros a b Ha Hst k x Hx. destruct Hst as [D E L D' E' L' T i t t' Hi Ht]. cbn in *.
  assert (Hi' : (i < length T)%nat) by (by eapply lookup_lt_Some).
  assert (Hkeep : D !! k = Some x -> c_disk c !! k = Some x \/ exists j p, (<[i := t']> T) !! j = Some (TPut k x p)).
  { intros Hk. destruct (Ha k x Hk) as [? | (j & p & Hj)]; [by left | right].
    destruct (decide (i = j)) as [<- | Hne]; [|exists j, p; by rewrite list_lookup_insert_ne].
    cbn in Hj. assert (t = TPut k x p) as -> by congruence. exists i. rewrite list_lookup_insert_eq by done.
    inversion Ht; subst; eauto. }
  destruct Ht; auto.
  - destruct (decide (h = k)) as [-> | Hne]; [|rewrite lookup_insert_ne in Hx; auto].
    rewrite lookup_insert_eq in Hx. simplify_eq. right. exists i, PSync. by rewrite list_lookup_insert_eq.
  - apply lookup_delete_Some in Hx as [_ Hx]. auto.
Qed.

(** C10: in every interleaving of puts and existence checks, whatever fails in
    them, the existence cache only lists blobs that are on disk; a blob once on
    disk stays there; its bytes stay the same (the first commit wins) unless
    [os.Stat] of its path can fail with an error other than not-exist, and then
    they are those of a put for its hash; and a put that has returned success
    finds its blob on disk. *)
Theorem concurrent_puts_safe c c1 c2 :
  initial c -> Forall (fun t => is_delete t = false) (c_thr c) -> reach c c1 -> reach c1 c2 ->
  (forall h, h ∈ c_exists c1 -> is_Some (c_disk c1 !! h)) /\
  (forall h x, c_disk c1 !! h = Some x -> exists y, c_disk c2 !! h = Some y /\
     (y = x \/ stat_fails h /\ exists i p, c_thr c2 !! i = Some (TPut h y p))) /\
  (forall i h d, c_thr c1 !! i = Some (TPut h d (PDone true)) -> is_Some (c_disk c1 !! h)).
Proof.
  intros H0 Hd H1 H2.
  assert (I1 : cache_inv c1).
  { eapply reach_inv; [by apply cache_initial | | done]. intros a b Ha Hs. by destruct (cache_step a b Ha Hs). }
  pose proof I1 as (_ & HE & _ & HK). split; [done |]. split.
  - assert (K : kept c1 c2).
    { clear H0 Hd H1 HE HK. induction H2 as [|a b c' Hab Hbc IH]; [done |]. destruct (cache_step a b I1 Hab) as [Ib Hk]. etrans; [exact Hk | by apply IH]. }
    intros h x Hx. destruct (K h x Hx) as (y & Hy & E). exists y. split; [done |].
    destruct (disk_integrity c1 c2 h y H2 Hy) as [E1 | Hput]; [left; congruence |]. destruct E as [-> | ?]; [by left | by right].
  - intros i h d Hi. exact (Forall_lookup_1 _ _ _ _ HK Hi).
Qed.

(** * With deletions *)

End Steps.

(** One step of the i-th thread by the rule [r]. *)
Ltac run_thread i r :=
  eapply Relation_Operators.rt1n_trans; [eapply (CStep _ _ _ _ _ _ _ _ i); [reflexivity | eapply r] | cbn].

(** An existence check that overlaps a deletion can leave the cache
    listing a blob that is gone; a later put of that hash then reports success
    without storing anything.  All threads have finished, the blob was present
    at the start, and it is not on disk at the end. *)
Theorem stale_cache_loses_put h x d : validateHash h = true ->
  exists c', reach (fun _ => False) (Conf {[h := x]} ∅ ∅ [TExists h ECheck; TDelete h DRemove; TPut h d PLock]) c' /\
    c_thr c' = [TExists h (EDone (Some true)); TDelete h (DDone true); TPut h d (PDone true)] /\ c_disk c' !! h = None.
Proof.
  intros Hv. eexists. split; [|split].
  - run_thread 0%nat ex_uncached; [done | set_solver |].
    run_thread 0%nat ex_found; [apply lookup_singleton_eq |].
    run_thread 1%nat del_remove; [done |]. run_thread 1%nat del_unmark. run_thread 0%nat ex_mark.
    run_thread 2%nat put_lock; [done | set_solver |].
    run_thread 2%nat put_cached; [set_solver |].
    run_thread 2%nat put_unlock. apply rt1n_refl.
  - done.
  - cbn. apply lookup_delete_eq.
Qed.

(** A put whose stat fails with an error other than not-exist replaces the
    blob that is there. *)
Theorem blind_put_replaces h x d : validateHash h = true ->
  exists c', reach (fun k => k = h) (Conf {[h := x]} ∅ ∅ [TPut h d PLock]) c' /\ c_thr c' = [TPut h d (PDone true)] /\ c_disk c' !! h = Some d.
Proof.
  intros Hv. eexists. split; [|split].
  - run_thread 0%nat put_lock; [done | set_solver |]. run_thread 0%nat put_uncached; [set_solver |]. run_thread 0%nat put_blind; [done |].
    run_thread 0%nat put_staged. run_thread 0%nat put_rename. run_thread 0%nat put_synced. run_thread 0%nat put_mark. run_thread 0%nat put_unlock. apply rt1n_refl.
  - done.
  - cbn. apply lookup_insert_eq.
Qed.

(** ** Witnesses *)

Module ConcWitness.
Import LocalWitness.

(** Two puts of the same hash and an existence check; stats of its path may
    fail. *)
Definition flaky (k : bytes) : Prop := k = h.
Definition c0 : conf := Conf ∅ ∅ ∅ [TPut h data PLock; TPut h [x09] PLock; TExists h ECheck].

Lemma c0_initial : initial c0.
Proof. split; [done |]. split; [done |]. repeat constructor. Qed.

(** The first put holds the lock and has committed. *)
Definition c1 : conf :=
  Conf (<[h := data]> ∅) ∅ ({[h]} ∪ ∅) [TPut h data PSync; TPut h [x09] PLock; TExists h ECheck].

Lemma c0_c1 : reach flaky c0 c1.
Proof.
  run_thread 0%nat put_lock; [vm_compute; reflexivity | set_solver |]. run_thread 0%nat put_uncached; [set_solver |].
  run_thread 0%nat put_missing; [apply lookup_empty |]. run_thread 0%nat put_staged. run_thread 0%nat put_rename. apply rt1n_refl.
Qed.

(** Its sync fails, and the second put replaces the blob after a failed stat. *)
Definition c2 : conf :=
  Conf (<[h := [x09]]> (<[h := data]> ∅)) ∅ ({[h]} ∪ (({[h]} ∪ ∅) ∖ {[h]})) [TPut h data (PDone false); TPut h [x09] PSync; TExists h ECheck].

Lemma c1_c2 : reach flaky c1 c2.
Proof.
  run_thread 0%nat put_sync_fail. run_thread 0%nat put_unlock. run_thread 1%nat put_lock; [vm_compute; reflexivity | set_solver |].
  run_thread 1%nat put_uncached; [set_solver |]. run_thread 1%nat put_blind; [reflexivity |]. run_thread 1%nat put_staged. run_thread 1%nat put_rename. apply rt1n_refl.
Qed.

Lemma put_mutual_exclusion_witness :
  c_thr c1 !! 0%nat = Some (TPut h data PSync) /\
  (forall j u, c_thr c1 !! j = Some u -> holds u = Some h -> 0%nat = j).
Proof.
  split; [done |]. intros j u Hu Hh.
  apply (put_mutual_exclusion flaky c0 c1 0 j (TPut h data PSync) u h c0_initial c0_c1 eq_refl Hu eq_refl Hh).
Defined.

Lemma concurrent_puts_safe_witness :
  (forall k, k ∈ c_exists c1 -> is_Some (c_disk c1 !! k)) /\
  (forall k x, c_disk c1 !! k = Some x -> exists y, c_disk c2 !! k = Some y /\
     (y = x \/ flaky k /\ exists i p, c_thr c2 !! i = Some (TPut k y p))) /\
  (forall i k d, c_thr c1 !! i = Some (TPut k d (PDone true)) -> is_Some (c_disk c1 !! k)).
Proof. apply (concurrent_puts_safe flaky c0 c1 c2 c0_initial); [by repeat constructor | apply c0_c1 | apply c1_c2]. Defined.

Lemma stale_cache_loses_put_witness : exists c', c_thr c' = [TExists h (EDone (Some true)); TDelete h (DDone true); TPut h data (PDone true)] /\ c_disk c' !! h = None.
Proof. destruct (stale_cache_loses_put h data data) as (c' & _ & H); [vm_compute; reflexivity | by exists c']. Defined.

Lemma blind_put_replaces_witness : exists c', c_thr c' = [TPut h data (PDone true)] /\ c_disk c' !! h = Some data.
Proof. destruct (blind_put_replaces h [x09] data) as (c' & _ & H); [vm_compute; reflexivity | by exists c']. Defined.

End ConcWitness.
