(* ===== verification/Blob.v ===== *)
(** Blob: uploading and downloading one blob ([simple/hash.go] and the upload
    and download entry points of [simple/stream.go], [simple/incompressible.go]).

    The operations run against the [BlobStore] interface; those that touch local
    files have the store and the local file system as their state ([host]).  The
    file to upload is what the environment delivers when it is opened ([source]):
    the size reported and the bytes read need not agree, as when the file changes
    meanwhile. *)

From S2P Require Import Prelude GoStr Externs Compress Crypto Stream FS BlobStore.
From stdpp Require Import base list gmap strings.
From Stdlib.Strings Require Import Byte.
Local Open Scope Z_scope.

(** ** incompressible.go *)

Definition incompressibleExts : list bytes :=
  [go ".jpg"; go ".jpeg"; go ".png"; go ".gif"; go ".bmp"; go ".tiff"; go ".tif"; go ".webp"; go ".heic";
   go ".heif"; go ".avif"; go ".ico"; go ".raw"; go ".cr2"; go ".nef"; go ".orf"; go ".arw"; go ".dng";
   go ".rw2"; go ".psd"; go ".psb"; go ".mp4"; go ".avi"; go ".mkv"; go ".mov"; go ".wmv"; go ".flv";
   go ".webm"; go ".m4v"; go ".mpg"; go ".mpeg"; go ".3gp"; go ".3g2"; go ".ts"; go ".mts"; go ".vob";
   go ".m2ts"; go ".rm"; go ".rmvb"; go ".mp3"; go ".aac"; go ".flac"; go ".ogg"; go ".wma"; go ".m4a";
   go ".wav"; go ".opus"; go ".aiff"; go ".alac"; go ".amr"; go ".ape"; go ".wv"; go ".tta"; go ".zip";
   go ".zipx"; go ".rar"; go ".rar5"; go ".7z"; go ".gz"; go ".bz2"; go ".xz"; go ".zst"; go ".lz4";
   go ".tar"; go ".tgz"; go ".lz"; go ".lzma"; go ".br"; go ".sz"; go ".cab"; go ".arj"; go ".ace";
   go ".lha"; go ".lzh"; go ".arc"; go ".uha"; go ".kgb"; go ".z"; go ".zz"; go ".sit"; go ".sitx";
   go ".brotli"; go ".iso"; go ".dmg"; go ".img"; go ".bin"; go ".nrg"; go ".mdf"; go ".mds"; go ".ccd";
   go ".sub"; go ".vmdk"; go ".vdi"; go ".vhd"; go ".vhdx"; go ".qcow2"; go ".qcow"; go ".qed"; go ".ova";
   go ".ovf"; go ".xva"; go ".wim"; go ".esd"; go ".squashfs"; go ".cramfs"; go ".gho"; go ".tib";
   go ".tibx"; go ".vbk"; go ".vib"; go ".adi"; go ".fbk"; go ".sna"; go ".pdf"; go ".docx"; go ".xlsx";
   go ".pptx"; go ".odt"; go ".ods"; go ".odp"; go ".doc"; go ".xls"; go ".ppt"; go ".epub"; go ".mobi";
   go ".azw3"; go ".cbr"; go ".cbz"; go ".exe"; go ".dll"; go ".so"; go ".dylib"; go ".jar"; go ".war";
   go ".apk"; go ".ipa"; go ".deb"; go ".rpm"; go ".pkg"; go ".msi"; go ".app"; go ".appx"; go ".msix";
   go ".nupkg"].

Definition incompressibleNames : list bytes := [go "pagefile.sys"; go "hiberfil.sys"; go "swapfile.sys"].

(** [filepath.Ext]: from the last dot of the last element. *)
Definition Ext (path : bytes) : bytes :=
  let base := match LastIndexByte path slash with Some i => drop (S i) path | None => path end in
  match LastIndexByte base dot with Some i => drop i base | None => [] end.

Definition isLikelyIncompressible (path : bytes) : bool :=
  if bool_decide (ToLower (Ext path) ∈ incompressibleExts) then true
  else bool_decide (ToLower (Base path) ∈ incompressibleNames).

(** ** Errors *)

Inductive berr :=
| BExists (e : store_err) | BEncrypt (e : cerr) | BPut (e : store_err)
| BGet (e : store_err) | BDecrypt (e : cerr) | BDecompress (e : zerr)
| BHashMismatch (expected got : bytes)
| BOpen (e : oserr) | BStat (e : oserr) | BRead | BGrew (n : Z)
| BCreateTmp (e : oserr) | BStreamEncrypt (e : serr) | BStreamDecrypt (e : serr)
| BSync (e : oserr) | BCloseTmp (e : oserr) | BReopen (e : oserr) | BStatTmp (e : oserr)
| BMkdir (e : oserr) | BWrite (e : oserr) | BRename (e : oserr).

Section Ops.
Context `{AE : AEAD, ZS : Zstd, SH : Sha256}.

(** ** hash.go *)

Definition SHA256Bytes (data : bytes) : bytes := hex_encode (sha256 data).

Record HashResult := MkHashResult { hr_Hash : bytes; hr_Size : Z }.

(** [SHA256File] of a file that opened as [r]. *)
Definition SHA256File (r : reader) : result serr HashResult :=
  if rd_fails r then Err SRead
  else Ok (MkHashResult (SHA256Bytes (rd_data r)) (blen (rd_data r))).

Definition defaultDecompressor : Zstd.ZstdCompressor := Zstd.NewZstdCompressor 1 1.
Definition defaultStreamCompressor : Zstd.ZstdCompressor := Zstd.NewZstdCompressor 1 1.

Section Store.
Context {S : Type} `{B : BlobStore S}.

Definition UploadBlob (enc : Encryptor) (plaintext ent : bytes) : eff S berr (bytes * bytes) :=
  let contentHash := SHA256Bytes plaintext in
  found ← wrap_err BExists (bs_Exists contentHash);
  if (found : bool) then mret (contentHash, ent)
  else
    match Encrypt enc plaintext ent with
    | Err e => throw (BEncrypt e)
    | Ok (ciphertext, ent') =>
        _ ← wrap_err BPut (bs_Put contentHash ciphertext);
        mret (contentHash, ent')
    end.

(** Decryption, decompression of marked data and the hash check, as
    [DownloadBlob] and the buffered path of [DownloadBlobToFile] do them. *)
Definition open_blob (dec : Decryptor) (hash ciphertext : bytes) : result berr bytes :=
  match Decrypt dec ciphertext with
  | Err e => Err (BDecrypt e)
  | Ok plaintext =>
      (if Zstd.IsCompressed plaintext then
         match Zstd.Decompress defaultDecompressor plaintext with
         | Err e => Err (BDecompress e)
         | Ok d => Ok d
         end
       else Ok plaintext) ≫= fun p =>
      let actualHash := SHA256Bytes p in
      if negb (eqs actualHash hash) then Err (BHashMismatch hash actualHash) else Ok p
  end.

Definition DownloadBlob (dec : Decryptor) (hash : bytes) : eff S berr bytes :=
  ciphertext ← wrap_err BGet (bs_Get hash);
  match open_blob dec hash ciphertext with
  | Ok p => mret p
  | Err e => throw e
  end.

(** ** stream.go, with local files *)

Record host := Host { h_store : S; h_fs : world }.

Definition store {E A} (f : store_err -> E) (m : eff S store_err A) : eff host E A :=
  wrap_err f (zoom h_store (fun s h => Host s (h_fs h)) m).
Definition fs {E A} (f : oserr -> E) (m : eff world oserr A) : eff host E A :=
  wrap_err f (zoom h_fs (fun w h => Host (h_store h) w) m).

(** What the environment delivers for the file to upload. *)
Record source := Source { src_open : option oserr; src_stat : result oserr Z; src_rd : reader }.

(** The bytes the streaming code wrote into the file open at [p]. *)
Definition fill (p d : bytes) : eff world oserr unit :=
  fun w => (Ok tt, set_files (<[p := File d (w_now w)]> (w_files w)) w).

Section Host.
Context `{U : Uuid}.

Definition smallLimit : Z := MaxBlobSize - (MagicSize + IVSize + TagSize).

(** What the small-file branch seals: from 64 KiB on, the compressed data if it
    is smaller. *)
Definition small_form (filePath data : bytes) : bytes :=
  if (65536 <=? blen data) && negb (isLikelyIncompressible filePath) then
    let c := Zstd.Compress defaultStreamCompressor data in
    if blen c <? blen data then c else data
  else data.

(** The small-file branch of [UploadBlobFromPath]. *)
Definition uploadSmall (enc : Encryptor) (filePath knownHash : bytes) (r : reader) (ent : bytes)
  : eff host berr (bytes * bytes) :=
  match read_all_limit (smallLimit + 1) r with
  | None => throw BRead
  | Some data =>
      if smallLimit <? blen data then throw (BGrew (blen data))
      else
        let contentHash := SHA256Bytes data in
        if negb (eqs knownHash []) && negb (eqs knownHash contentHash) then
          throw (BHashMismatch knownHash contentHash)
        else
          found ← store BExists (bs_Exists contentHash);
          if (found : bool) then mret (contentHash, ent)
          else
            match Encrypt enc (small_form filePath data) ent with
            | Err e => throw (BEncrypt e)
            | Ok (ciphertext, ent') =>
                _ ← store BPut (bs_Put contentHash ciphertext);
                mret (contentHash, ent')
            end
  end.

(** The large-file branch up to the deferred cleanup; [room] is the space left
    where temporary files go. *)
Definition uploadLarge (enc : Encryptor) (filePath knownHash tmpPath : bytes) (src : srcFile) (room : Z)
  (ent : bytes) : eff host berr (bytes * bytes) :=
  let comp := if isLikelyIncompressible filePath then None else Some defaultStreamCompressor in
  match encryptFileToWriter enc src (FileW [] room) comp ent with
  | Err e => throw (BStreamEncrypt e)
  | Ok (dst, hashed, ent') =>
      _ ← fs BWrite (fill tmpPath (fw_data dst));
      let contentHash := SHA256Bytes hashed in
      if negb (eqs knownHash []) && negb (eqs knownHash contentHash) then
        throw (BHashMismatch knownHash contentHash)
      else
        _ ← fs BSync (Sync tmpPath);
        _ ← fs BCloseTmp (Close tmpPath);
        tmpF2 ← fs BReopen (Open tmpPath);
        _ ← fs BStatTmp (Stat tmpPath);
        found ← store BExists (bs_Exists contentHash);
        if (found : bool) then mret (contentHash, ent')
        else
          _ ← store BPut (bs_PutStream contentHash tmpF2);
          mret (contentHash, ent')
  end.

Definition UploadBlobFromPath (enc : Encryptor) (filePath knownHash : bytes) (src : source)
  (tempDir : bytes) (room : Z) (ent : bytes) : eff host berr (bytes * bytes) :=
  known ← (if eqs knownHash [] then mret false else store BExists (bs_Exists knownHash));
  if (known : bool) then mret (knownHash, ent)
  else
    match src_open src with
    | Some e => throw (BOpen e)
    | None =>
        match src_stat src with
        | Err e => throw (BStat e)
        | Ok size =>
            if size <? echunkSize enc then uploadSmall enc filePath knownHash (src_rd src) ent
            else
              uid ← fs BCreateTmp new_uuid;
              let tmpPath := FpJoin [tempDir; go "gbf-tmp-" ++ uid ++ go ".tmp"] in
              _ ← fs BCreateTmp (Create tmpPath);
              r ← attempt (uploadLarge enc filePath knownHash tmpPath (SrcFile size (src_rd src)) room ent);
              _ ← attempt (fs BCloseTmp (Close tmpPath));
              _ ← attempt (fs BCloseTmp (Remove tmpPath));
              match r with Ok a => mret a | Err e => throw e end
        end
    end.

(** The streaming branch of [DownloadBlobToFile] up to its deferred cleanup. *)
Definition downloadStream (dec : Decryptor) (hash targetPath tmp : bytes) (rc : reader) (room : Z)
  : eff host berr unit :=
  match decryptStreamToFile dec rc (VW (FileW [] room) [] 0) with
  | Err e => throw (BStreamDecrypt e)
  | Ok vw =>
      _ ← fs BWrite (fill tmp (fw_data (vw_w vw)));
      let got := SHA256Bytes (vw_h vw) in
      if negb (eqs got hash) then throw (BHashMismatch hash got)
      else
        _ ← attempt (fs BWrite (Chmod tmp));
        _ ← fs BSync (Sync tmp);
        _ ← fs BCloseTmp (Close tmp);
        fs BRename (Rename tmp targetPath)
  end.

Definition DownloadBlobToFile (dec : Decryptor) (hash targetPath : bytes) (room : Z) : eff host berr unit :=
  rc ← attempt (store BGet (bs_GetStream hash));
  match rc with
  | Err _ =>
      ciphertext ← store BGet (bs_Get hash);
      match open_blob dec hash ciphertext with
      | Err e => throw e
      | Ok plaintext =>
          _ ← fs BMkdir (MkdirAll (Dir targetPath));
          uid ← fs BCreateTmp new_uuid;
          let tmp := targetPath ++ go "." ++ uid ++ go ".tmp" in
          _ ← fs BWrite (Create tmp);
          _ ← fs BWrite (Write tmp plaintext);
          fs BRename (Rename tmp targetPath)
      end
  | Ok rd =>
      _ ← fs BMkdir (MkdirAll (Dir targetPath));
      uid ← fs BCreateTmp new_uuid;
      let tmp := targetPath ++ go "." ++ uid ++ go ".tmp" in
      _ ← fs BCreateTmp (Create tmp);
      r ← attempt (downloadStream dec hash targetPath tmp rd room);
      _ ← attempt (fs BCloseTmp (Close tmp));
      _ ← attempt (fs BCloseTmp (Remove tmp));
      match r with Ok _ => mret tt | Err e => throw e end
  end.

End Host.
End Store.
End Ops.

(** * Facts *)

Section Facts.
Context `{AE : AEAD, ZS : Zstd, SH : Sha256}.
Context {S : Type} `{B : BlobStore S, SV : StoreView S, BS : !BlobStoreSpec S}.

Context `{SHS : !Sha256Spec SH}.

Lemma SHA256Bytes_valid d : validateHash (SHA256Bytes d) = true.
Proof.
  apply validateHash_true. split; [|apply hex_encode_lower].
  unfold blen, SHA256Bytes. rewrite hex_encode_len. pose proof (sha256_len d). unfold blen in *. lia.
Qed.

(** What [open_blob] accepts hashes to the name asked for. *)
Lemma open_blob_hash dec h c p : open_blob dec h c = Ok p -> SHA256Bytes p = h.
Proof.
  unfold open_blob. destruct (Decrypt dec c) as [q|]; [|done].
  intros (p' & _ & Hp)%bind_ok_inv. destruct (eqs (SHA256Bytes p') h) eqn:E; [|done].
  apply ok_inv in Hp as ->. by apply eqs_true in E.
Qed.

(** What the upload paths seal: the content, or its compressed form. *)
Definition stored_form (content stored : bytes) : Prop :=
  (stored = content /\ Zstd.IsCompressed content = false) \/
  (exists z, stored = Zstd.Compress z content /\ content <> [] /\ blen content <= MaxDecompressedSize).

Lemma open_blob_ok `{!ZstdSpec ZS} dec c content stored :
  Decrypt dec c = Ok stored -> stored_form content stored ->
  open_blob dec (SHA256Bytes content) c = Ok content.
Proof.
  intros Hd Hs. unfold open_blob. rewrite Hd. destruct Hs as [[-> Hc] | (z & -> & Hne & Hl)].
  - rewrite Hc. cbn [mbind result_bind]. by rewrite eqs_refl.
  - rewrite Zstd.Compress_marked by done.
    change (Zstd.Compress z content) with (Zstd.Compress defaultDecompressor content).
    rewrite Zstd.Decompress_Compress by done. cbn [mbind result_bind]. by rewrite eqs_refl.
Qed.

(** Uploading: the outcome in terms of the store's blobs.  A blob is written
    only when there was none. *)
Lemma wp_UploadBlob enc p ent s : bs_inv s ->
  let h := SHA256Bytes p in
  wp (UploadBlob enc p ent) (fun r s' => bs_inv s' /\
    (forall k, validateHash k = true -> k <> h -> bs_blob s' k = bs_blob s k) /\
    (bs_blob s' h = bs_blob s h \/
       bs_blob s h = None /\ exists c e', Encrypt enc p ent = Ok (c, e') /\ bs_blob s' h = Some c) /\
    (forall k e', r = Ok (k, e') -> k = h /\ is_Some (bs_blob s' h)) /\
    (bs_calm s -> forall c e', Encrypt enc p ent = Ok (c, e') ->
       is_ok r = true /\ bs_calm s' /\ (bs_blob s h = None -> r = Ok (h, e')))) s.
Proof.
  intros Hi h. pose proof (SHA256Bytes_valid p) as Hv. fold h in Hv. unfold UploadBlob. fold h.
  wp_step. wp_step. eapply wp_mono; [by apply bs_Exists_ok |]. intros r s1 (Hi1 & Hu & Hb & Hc).
  destruct r as [found|e]; cbn beta iota.
  2: { split; [done |]. split; [intros; by apply Hu |]. split; [left; by apply Hu |]. split; [done |].
       intros Hcs. by destruct (Hc Hcs) as [_ Hf]; discriminate (Hf Hv). }
  destruct (Hb found eq_refl) as [_ Hfound]. destruct found.
  { wp_steps. assert (Hs : is_Some (bs_blob s h)) by (by apply Hfound). split; [done |].
    split; [intros; by apply Hu |]. split; [left; by apply Hu |].
    split; [intros k e' [= <- <-]; rewrite Hu by done; done |].
    intros Hcs c e' _. destruct (Hc Hcs) as [Hc1 _]. split; [done |]. split; [done |].
    intros Hn. rewrite Hn in Hs. by destruct Hs. }
  assert (Hn : bs_blob s h = None).
  { destruct (bs_blob s h) eqn:E; [|done]. discriminate (proj2 Hfound (ex_intro _ _ eq_refl)). }
  assert (Hn1 : bs_blob s1 h = None) by (by rewrite Hu).
  destruct (Encrypt enc p ent) as [[c e']|ee]; wp_steps.
  2: { split; [done |]. split; [intros; by apply Hu |]. split; [left; by apply Hu |]. done. }
  eapply wp_mono; [by apply bs_Put_ok |]. intros r s2 (Hi2 & (Ho & Hh & Hok) & Hc2).
  assert (Hoth : forall k, validateHash k = true -> k <> h -> bs_blob s2 k = bs_blob s k)
    by (intros; rewrite Ho by done; by apply Hu).
  assert (Hself : bs_blob s2 h = bs_blob s h \/ bs_blob s h = None /\
    exists c0 e0, @Ok cerr _ (c, e') = Ok (c0, e0) /\ bs_blob s2 h = Some c0).
  { destruct Hh as [Hh | (_ & _ & Hh)]; [left; congruence | right; eauto]. }
  destruct r as [[]|e]; wp_steps; (split; [done |]); (split; [done |]); (split; [done |]).
  - split; [intros k e0 [= <- <-]; split; [done | by apply Hok] |].
    intros Hcs c0 e0 [= <- <-]. destruct (Hc Hcs) as [Hc1 _]. destruct (Hc2 Hc1 Hv). auto.
  - split; [done |]. intros Hcs. destruct (Hc Hcs) as [Hc1 _]. by destruct (Hc2 Hc1 Hv).
Qed.

Lemma wp_DownloadBlob dec h s : bs_inv s ->
  wp (DownloadBlob dec h) (fun r s' => bs_inv s' /\ unchanged bs_blob s s' /\
    (forall p, r = Ok p -> exists c, bs_blob s h = Some c /\ open_blob dec h c = Ok p) /\
    (bs_calm s -> forall c, bs_blob s h = Some c -> r = open_blob dec h c)) s.
Proof.
  intros Hi. unfold DownloadBlob. wp_step. wp_step.
  eapply wp_mono; [by apply bs_Get_ok |]. intros r s1 (Hi1 & Hu & Hr & Hc). destruct r as [c|e]; cbn beta iota.
  - specialize (Hr c eq_refl). destruct (open_blob dec h c) as [p|e] eqn:E; wp_steps;
      (split; [done |]); (split; [done |]); split.
    + intros q [= <-]. eauto.
    + intros _ c' Hc'. rewrite Hr in Hc'. by injection Hc' as <-.
    + done.
    + intros _ c' Hc'. rewrite Hr in Hc'. by injection Hc' as <-.
  - split; [done |]. split; [done |]. split; [done |]. intros Hcs c Hb. destruct (Hc Hcs) as [_ H].
    discriminate (H c Hb).
Qed.

(** A download never returns wrong content: whatever the store holds and
    whatever goes wrong, if [DownloadBlob] returns bytes, their SHA-256 is the
    hash asked for and the store's blobs are untouched. *)
Theorem download_integrity dec h s : bs_inv s ->
  wp (DownloadBlob dec h) (fun r s' => bs_inv s' /\ unchanged bs_blob s s' /\
    forall p, r = Ok p -> SHA256Bytes p = h /\ is_Some (bs_blob s h)) s.
Proof.
  intros Hi. eapply wp_mono; [by apply wp_DownloadBlob |]. intros r s' (? & ? & Hp & _).
  split; [done |]. split; [done |]. intros p Hr. destruct (Hp p Hr) as (c & Hc & Ho).
  split; [by eapply open_blob_hash | by rewrite Hc].
Qed.

(** ** Downloading to a file *)

Lemma wp_store {E A} (f : store_err -> E) (m : eff S store_err A) Q h :
  wp m (fun r s' => Q (match r with Ok a => Ok a | Err e => Err (f e) end) (Host s' (h_fs h))) (h_store h) ->
  wp (store f m) Q h.
Proof. intros H. unfold store. wp_step. wp_step. exact H. Qed.

Lemma wp_fs {E A} (f : oserr -> E) (m : eff world oserr A) Q (h : @host S) :
  wp m (fun r w' => Q (match r with Ok a => Ok a | Err e => Err (f e) end) (Host (h_store h) w')) (h_fs h) ->
  wp (fs f m) Q h.
Proof. intros H. unfold fs. wp_step. wp_step. exact H. Qed.

(** The target is what it was or has content that hashes to [hash]; success
    means the latter; besides it only [tmp] may differ. *)
Definition target_outcome (hash target tmp : bytes) (w : world) {A} (r : result berr A) (w' : world) : Prop :=
  (forall q, q <> target -> q <> tmp -> w_files w' !! q = w_files w !! q) /\
  ((w_files w' !! target = w_files w !! target /\ is_ok r = false) \/
   exists f, w_files w' !! target = Some f /\ SHA256Bytes (f_data f) = hash).

Lemma target_keep hash target tmp w {A} (e : berr) w' : tmp <> target -> only tmp w w' ->
  target_outcome hash target tmp w (@Err berr A e) w'.
Proof.
  intros Hne Ho. split; [intros; by apply (only_files _ _ _ Ho) |]. left. split; [|done].
  by apply (only_files _ _ _ Ho).
Qed.

(** Renaming a verified staging file onto the target. *)
Lemma wp_rename_target hash target tmp w (h : @host S) d t : tmp <> target ->
  only tmp w (h_fs h) -> w_files (h_fs h) !! tmp = Some (File d t) -> SHA256Bytes d = hash ->
  wp (fs BRename (Rename tmp target)) (fun r h' => h_store h' = h_store h /\ target_outcome hash target tmp w r (h_fs h')) h.
Proof.
  intros Hne Ho Hf Hh. apply wp_fs, wp_Rename; [done | |].
  - intros e w' Hs _ _. split; [done |]. apply target_keep; [done |]. etrans; [done | by apply same_only].
  - intros f w' Hf' Hw _. split; [done |]. assert (f = File d t) as -> by congruence. split.
    + cbn. intros q Hq1 Hq2. rewrite Hw, lookup_insert_ne, lookup_delete_ne by done. by apply (only_files _ _ _ Ho).
    + right. exists (File d t). cbn. by rewrite Hw, lookup_insert_eq.
Qed.

Lemma wp_fill p d (Q : result oserr unit -> world -> Prop) w :
  (forall w', only p w w' -> w_files w' !! p = Some (File d (w_now w)) -> Q (Ok tt) w') -> wp (fill p d) Q w.
Proof.
  intros HQ. apply HQ; cbn; [|by rewrite lookup_insert_eq]. split; [|done].
  intros q Hq. cbn. by rewrite lookup_insert_ne.
Qed.

Lemma wp_downloadStream dec hash target tmp rc room w (h : @host S) : tmp <> target -> only tmp w (h_fs h) ->
  wp (downloadStream dec hash target tmp rc room)
    (fun r h' => h_store h' = h_store h /\ target_outcome hash target tmp w r (h_fs h')) h.
Proof.
  intros Hne Ho. unfold downloadStream.
  destruct (decryptStreamToFile dec rc _) as [vw|e] eqn:Ed; wp_steps; [|split; [done | by apply target_keep]].
  apply decryptStreamToFile_good in Ed as [Ed _]; [|done].
  apply wp_fs, wp_fill. intros w1 Ho1 Hf1. assert (O1 : only tmp w w1) by (by etrans).
  rewrite Ed. destruct (eqs (SHA256Bytes (fw_data (vw_w vw))) hash) eqn:Eh; cbn [negb]; wp_steps.
  2: { split; [done | by apply target_keep]. }
  apply eqs_true in Eh. apply wp_fs. wp_nop. cbn [h_fs] in *.
  wp_step. apply wp_fs. wp_nop. cbn [h_fs h_store] in *.
  assert (O3 : only tmp w w'0) by (etrans; [exact O1 | apply same_only; by etrans]).
  destruct r0 as [[]|e]; cbn beta iota; [|split; [done | by apply target_keep]].
  wp_step. apply wp_fs. wp_nop. cbn [h_fs h_store] in *.
  assert (O4 : only tmp w w'1) by (etrans; [exact O3 | by apply same_only]).
  destruct r0 as [[]|e]; cbn beta iota; [|split; [done | by apply target_keep]].
  eapply wp_mono; [eapply (wp_rename_target hash target tmp w); [done | exact O4 | cbn | done] |].
  - rewrite (same_files _ _ H3), (same_files _ _ H1), (same_files _ _ H). exact Hf1.
  - done.
Qed.

Context `{U : Uuid}.

(** What a download of [hash] to [target] guarantees. *)
Definition download_post (hash target : bytes) (h : @host S) (r : result berr unit) (h' : @host S) : Prop :=
  bs_inv (h_store h') /\ unchanged bs_blob (h_store h) (h_store h') /\
  exists uid, target_outcome hash target (staging_name target uid) (h_fs h) r (h_fs h').

Lemma download_fail hash target h s e w' uid : bs_inv s -> unchanged bs_blob (h_store h) s ->
  only (staging_name target uid) (h_fs h) w' -> download_post hash target h (Err e) (Host s w').
Proof. intros Hi Hu Ho. split; [done |]. split; [done |]. exists uid. apply target_keep; [apply staging_ne | done]. Qed.

(** The branch with a stream. *)
Lemma wp_download_streamed dec hash target room rd h s1 : bs_inv s1 -> unchanged bs_blob (h_store h) s1 ->
  wp (_ ← fs BMkdir (MkdirAll (Dir target));
      uid ← fs BCreateTmp new_uuid;
      let tmp := target ++ go "." ++ uid ++ go ".tmp" in
      _ ← fs BCreateTmp (Create tmp);
      r ← attempt (downloadStream dec hash target tmp rd room);
      _ ← attempt (fs BCloseTmp (Close tmp));
      _ ← attempt (fs BCloseTmp (Remove tmp));
      match r with Ok _ => mret tt | Err e => throw e end) (download_post hash target h) (Host s1 (h_fs h)).
Proof.
  intros Hi1 Hu1. wp_step. apply wp_fs. wp_nop. cbn [h_fs h_store] in *. destruct r as [[]|e]; cbn beta iota.
  2: { eapply (download_fail _ _ _ _ _ _ []); [done | done | by apply same_only]. }
  wp_step. apply wp_fs, wp_new_uuid. intros u w2 Hs2. cbn [h_fs h_store] in *. pose proof (staging_ne target u) as Htmp.
  pose proof (fun s e w' => download_fail hash target h s e w' u) as Hfail.
  fold (staging_name target u). set (tmp := staging_name target u) in *.
  assert (O2 : only tmp (h_fs h) w2) by (apply same_only; by etrans).
  wp_step. apply wp_fs, wp_Create; cbn [h_fs h_store].
  { intros e w3 Hs3 _. eapply Hfail; [done | done |]. etrans; [exact O2 | by apply same_only]. }
  intros t w3 Ho3 _. do 2 wp_step.
  eapply wp_mono; [eapply (wp_downloadStream dec hash target tmp rd room (h_fs h)); [done | cbn; by etrans] |].
  intros r4 [s4 w4] [Hst4 [Hoth Htg]]. cbn [h_fs h_store] in *. subst s4.
  do 2 wp_step. apply wp_fs. wp_nop. do 2 wp_step. apply wp_fs, wp_Remove. intros r6 w6 Ho6 _ _ _ _ _.
  cbn [h_fs h_store] in *.
  assert (Hout : target_outcome hash target tmp (h_fs h) r4 w6).
  { split.
    - intros q ??. rewrite (only_files _ _ _ Ho6), (same_files _ _ H1) by done. by apply Hoth.
    - rewrite (only_files _ _ _ Ho6), (same_files _ _ H1) by done. exact Htg. }
  destruct r4 as [[]|e4]; wp_steps; (split; [done |]); (split; [done |]); exists u; done.
Qed.

(** The buffered branch, after the blob was opened. *)
Lemma wp_download_buffered hash target p h s2 : bs_inv s2 -> unchanged bs_blob (h_store h) s2 -> SHA256Bytes p = hash ->
  wp (_ ← fs BMkdir (MkdirAll (Dir target));
      uid ← fs BCreateTmp new_uuid;
      let tmp := target ++ go "." ++ uid ++ go ".tmp" in
      _ ← fs BWrite (Create tmp);
      _ ← fs BWrite (Write tmp p);
      fs BRename (Rename tmp target)) (download_post hash target h) (Host s2 (h_fs h)).
Proof.
  intros Hi2 U2 Eo. wp_step. apply wp_fs. wp_nop. cbn [h_fs h_store] in *. destruct r as [[]|e]; cbn beta iota.
  2: { eapply (download_fail _ _ _ _ _ _ []); [done | done | by apply same_only]. }
  wp_step. apply wp_fs, wp_new_uuid. intros u w2 Hs2. cbn [h_fs h_store] in *. pose proof (staging_ne target u) as Htmp.
  pose proof (fun s e w' => download_fail hash target h s e w' u) as Hfail.
  fold (staging_name target u). set (tmp := staging_name target u) in *.
  assert (O2 : only tmp (h_fs h) w2) by (apply same_only; by etrans).
  wp_step. apply wp_fs, wp_Create; cbn [h_fs h_store].
  { intros e w3 Hs3 _. eapply Hfail; [done | done |]. etrans; [exact O2 | by apply same_only]. }
  intros t w3 Ho3 Hf3. assert (O3 : only tmp (h_fs h) w3) by (by etrans).
  wp_step. apply wp_fs, wp_Write; cbn [h_fs h_store].
  { intros e w4 Ho4 _. eapply Hfail; [done | done | by etrans]. }
  intros w4 Ho4 Hf4. destruct (Hf4 [] t Hf3) as [t4 Hf4'].
  eapply wp_mono; [eapply (wp_rename_target hash target tmp (h_fs h)); [done | cbn; by etrans | exact Hf4' | done] |].
  intros r [s5 w5] [Hs5 Hout]. cbn [h_fs h_store] in *. subst s5. split; [done |]. split; [done |].
  by exists u.
Qed.

(** C24: restoring a blob to a file is safe, whatever the store holds and
    whatever goes wrong on disk: afterwards the target is the file it was
    before or its content has the SHA-256 asked for, success means the latter,
    no other file but the staging one is touched, and the store keeps its
    blobs. *)
Theorem download_to_file_safe dec hash target room h : bs_inv (h_store h) ->
  wp (DownloadBlobToFile dec hash target room) (fun r h' =>
    bs_inv (h_store h') /\ unchanged bs_blob (h_store h) (h_store h') /\
    exists uid, target_outcome hash target (staging_name target uid) (h_fs h) r (h_fs h')) h.
Proof.
  intros Hi. unfold DownloadBlobToFile. wp_step. wp_step. apply wp_store. eapply wp_mono; [by apply bs_GetStream_ok |].
  intros rc s1 (Hi1 & Hu1 & _ & _). destruct rc as [rd|e0]; cbn beta iota; [by apply wp_download_streamed |].
  wp_step. apply wp_store. cbn [h_store h_fs]. eapply wp_mono; [by apply bs_Get_ok |].
  intros r s2 (Hi2 & Hu2 & _ & _). assert (U2 : unchanged bs_blob (h_store h) s2) by (intros k Hk; by rewrite Hu2, Hu1).
  destruct r as [c|e]; cbn beta iota; [|by eapply (download_fail _ _ _ _ _ _ []); [done | done |]].
  destruct (open_blob dec hash c) as [p|e] eqn:Eo; [|by eapply (download_fail _ _ _ _ _ _ []); [done | done |]].
  apply wp_download_buffered; [done | done | by eapply open_blob_hash].
Qed.

(** ** Uploading from a file *)

(** After a successful upload of [content] under [k] that did not find the blob
    already there: the name is the content's hash and agrees with the known
    one, the store has the blob, and if it had none it is now one of which
    [sealed] holds; no other blob changed. *)
Definition uploaded (known content : bytes) (sealed : bytes -> Prop) (s : S) (k : bytes) (s' : S) : Prop :=
  k = SHA256Bytes content /\ (known = [] \/ known = k) /\ is_Some (bs_blob s' k) /\
  (bs_blob s k = None -> exists c, bs_blob s' k = Some c /\ sealed c).

Lemma known_ok known k :
  negb (eqs known []) && negb (eqs known k) = false -> known = [] \/ known = k.
Proof.
  intros [H | H]%andb_false_iff; apply negb_false_iff, eqs_true in H; auto.
Qed.

(** What either branch ensures. *)
Definition upload_outcome (known content : bytes) (sealed : bytes -> Prop) {A} (h : @host S)
  (r : result berr (bytes * A)) (h' : @host S) : Prop :=
  bs_inv (h_store h') /\
  (forall j, validateHash j = true -> j <> SHA256Bytes content -> bs_blob (h_store h') j = bs_blob (h_store h) j) /\
  forall k a, r = Ok (k, a) -> uploaded known content sealed (h_store h) k (h_store h').

Lemma upload_outcome_err known content sealed {A} (h : @host S) e s' w' :
  bs_inv s' -> unchanged bs_blob (h_store h) s' ->
  upload_outcome known content sealed h (@Err berr (bytes * A) e) (Host s' w').
Proof. intros Hi Hu. split; [done |]. split; [intros; by apply Hu | done]. Qed.

(** The existence check before either put. *)
Lemma wp_dedup content known (sealed : bytes -> Prop) {A} (a : A) (m : eff (@host S) berr (bytes * A)) (h : @host S) :
  bs_inv (h_store h) -> (known = [] \/ known = SHA256Bytes content) ->
  (forall s1, bs_inv s1 -> unchanged bs_blob (h_store h) s1 ->
     wp m (upload_outcome known content sealed h) (Host s1 (h_fs h))) ->
  wp (found ← store BExists (bs_Exists (SHA256Bytes content));
      if (found : bool) then mret (SHA256Bytes content, a) else m) (upload_outcome known content sealed h) h.
Proof.
  intros Hi Hk Hm. pose proof (SHA256Bytes_valid content) as Hv. set (k := SHA256Bytes content) in *.
  wp_step. apply wp_store. eapply wp_mono; [by apply bs_Exists_ok |]. intros r s1 (Hi1 & Hu & Hb & _).
  destruct r as [found|e]; cbn beta iota; [|by apply upload_outcome_err].
  destruct (Hb found eq_refl) as [_ Hf]. destruct found; [|by apply Hm]. wp_steps.
  split; [done |]. split; [intros; by apply Hu |]. intros j b [= <- <-]. cbn [h_store].
  assert (Hs : is_Some (bs_blob (h_store h) k)) by (by apply Hf).
  split; [done |]. split; [done |]. rewrite Hu by done. split; [done |].
  intros Hn. rewrite Hn in Hs. by destruct Hs.
Qed.

Lemma wp_put_ret (put : eff S store_err unit) content known (sealed : bytes -> Prop) {A} (a : A) (h : @host S) s1 w1 d P :
  let k := SHA256Bytes content in
  bs_inv s1 -> unchanged bs_blob (h_store h) s1 -> (known = [] \/ known = k) -> (P -> sealed d) ->
  wp put (fun r s' => bs_inv s' /\ put_post bs_blob k d P s1 r s') s1 ->
  wp (_ ← store BPut put; mret (k, a)) (upload_outcome known content sealed h) (Host s1 w1).
Proof.
  intros k Hi Hu Hk HP Hput. pose proof (SHA256Bytes_valid content) as Hv. fold k in Hv.
  wp_step. apply wp_store. eapply wp_mono; [exact Hput |]. cbn [h_store]. intros r s2 (Hi2 & Ho & Hh & Hok).
  destruct r as [[]|e]; wp_steps; cbn [h_store]; (split; [done |]);
    (split; [intros; cbn; rewrite Ho by done; by apply Hu |]); [|done].
  intros j b [= <- <-]. destruct (Hok eq_refl) as [_ Hs]. split; [done |]. split; [done |]. split; [done |].
  intros Hn. destruct Hh as [Hh | (HPd & _ & Hh)]; [|eauto].
  rewrite <- (Hu k Hv), <- Hh in Hn. cbn in Hs. rewrite Hn in Hs. by destruct Hs.
Qed.

Lemma wp_uploadSmall enc fp known r ent (h : @host S) : bs_inv (h_store h) ->
  wp (uploadSmall enc fp known r ent) (fun res h' => bs_inv (h_store h') /\
    (is_ok res = true -> exists content, read_all_limit (smallLimit + 1) r = Some content /\
      blen content <= smallLimit /\
      upload_outcome known content (fun c => exists e2, Encrypt enc (small_form fp content) ent = Ok (c, e2)) h res h')) h.
Proof.
  intros Hi. unfold uploadSmall. destruct (read_all_limit _ r) as [content|]; [|wp_steps; done].
  go_if; [wp_steps; done |].
  destruct (negb (eqs known []) && negb (eqs known (SHA256Bytes content))) eqn:Ek; [wp_steps; done |].
  apply known_ok in Ek.
  set (sealed := fun c => exists e2, Encrypt enc (small_form fp content) ent = Ok (c, e2)).
  eapply wp_mono; [apply (wp_dedup content known sealed); [done | exact Ek |] |].
  - intros s1 Hi1 Hu. destruct (Encrypt enc (small_form fp content) ent) as [[c e2]|ee] eqn:Ee; cycle 1.
    { wp_steps. by apply upload_outcome_err. }
    apply (wp_put_ret _ _ _ sealed _ _ _ _ c True); try done; [by eexists |]. eapply wp_mono; [by apply bs_Put_ok |]. by intros ?? (? & ? & _).
  - intros res h' Hout. split; [apply Hout |]. intros _. exists content. by split.
Qed.

Lemma wp_uploadLarge enc fp known tmp src room ent (h : @host S) : bs_inv (h_store h) ->
  let comp := if isLikelyIncompressible fp then None else Some defaultStreamCompressor in
  wp (uploadLarge enc fp known tmp src room ent) (fun res h' => bs_inv (h_store h') /\
    (is_ok res = true -> exists dst content e2,
      encryptFileToWriter enc src (FileW [] room) comp ent = Ok (dst, content, e2) /\
      upload_outcome known content (fun c => c = fw_data dst) h res h')) h.
Proof.
  intros Hi comp. unfold uploadLarge. fold comp.
  destruct (encryptFileToWriter _ _ _ _ _) as [[[dst content] e2]|e]; [|wp_steps; done].
  wp_step. apply wp_fs, wp_fill. intros w1 Ho1 Hf1. cbn beta iota.
  destruct (negb (eqs known []) && negb (eqs known (SHA256Bytes content))) eqn:Ek; [wp_steps; done |].
  apply known_ok in Ek.
  wp_step. apply wp_fs. wp_nop. destruct r as [[]|e]; cbn beta iota; [|done].
  wp_step. apply wp_fs. wp_nop. destruct r as [[]|e]; cbn beta iota; [|done]. cbn [h_fs h_store] in *.
  wp_step. apply wp_fs, wp_Open; [done |]. intros f rd w4 Hs4 Hp4 Hpre Hall _. cbn [h_fs h_store] in *.
  wp_step. apply wp_fs, wp_Stat; [done |]. intros f5 w5 Hs5 _. cbn [h_fs h_store] in *.
  assert (Hrd : rd_fails rd = false -> rd_data rd = fw_data dst).
  { intros Hnf. rewrite (Hall Hnf). rewrite (same_files _ _ H1), (same_files _ _ H), Hf1 in Hp4.
    by injection Hp4 as <-. }
  eapply wp_mono; [apply (wp_dedup content known (fun c => c = fw_data dst)); [done | exact Ek |] |].
  - intros s1 Hi1 Hu. cbn [h_store h_fs] in *.
    apply (wp_put_ret _ _ _ _ _ _ _ _ (rd_data rd) (rd_fails rd = false)); try done.
    eapply wp_mono; [by apply bs_PutStream_ok |]. by intros ?? (? & ? & _).
  - intros res h' Hout. split; [apply Hout |]. intros _. exists dst, content, e2. split; [done |].
    destruct Hout as (? & ? & Hok). by split.
Qed.


Lemma uploaded_from known content sealed (s s1 s' : S) k : unchanged bs_blob s s1 ->
  uploaded known content sealed s1 k s' -> uploaded known content sealed s k s'.
Proof.
  intros Hu (-> & ? & ? & Hn). split; [done |]. split; [done |]. split; [done |].
  rewrite <- (Hu (SHA256Bytes content)) by apply SHA256Bytes_valid. exact Hn.
Qed.

(** How a successful [UploadBlobFromPath] came about. *)
Definition path_uploaded (enc : Encryptor) (fp known : bytes) (src : source) (room : Z) (ent : bytes)
  (s : S) (k : bytes) (s' : S) : Prop :=
  (known <> [] /\ k = known /\ is_Some (bs_blob s k) /\ unchanged bs_blob s s') \/
  exists size content sealed, src_stat src = Ok size /\ uploaded known content sealed s k s' /\
    (forall j, validateHash j = true -> j <> k -> bs_blob s' j = bs_blob s j) /\
    ((size < echunkSize enc /\ read_all_limit (smallLimit + 1) (src_rd src) = Some content /\
        blen content <= smallLimit /\
        sealed = (fun c => exists e2, Encrypt enc (small_form fp content) ent = Ok (c, e2))) \/
     (echunkSize enc <= size /\ exists dst e2,
        encryptFileToWriter enc (SrcFile size (src_rd src)) (FileW [] room)
          (if isLikelyIncompressible fp then None else Some defaultStreamCompressor) ent = Ok (dst, content, e2) /\
        sealed = (fun c => c = fw_data dst))).

Lemma wp_UploadBlobFromPath enc fp known src dir room ent (h : @host S) : bs_inv (h_store h) ->
  wp (UploadBlobFromPath enc fp known src dir room ent) (fun r h' => bs_inv (h_store h') /\
    forall k e', r = Ok (k, e') -> path_uploaded enc fp known src room ent (h_store h) k (h_store h')) h.
Proof.
  intros Hi. unfold UploadBlobFromPath.
  assert (Hknown : wp (if eqs known [] then mret false else store BExists (bs_Exists known))
    (fun r h' => h_fs h' = h_fs h /\ bs_inv (h_store h') /\ unchanged bs_blob (h_store h) (h_store h') /\
      (r = Ok true -> known <> [] /\ is_Some (bs_blob (h_store h) known))) h).
  { destruct (eqs known []) eqn:E; [wp_steps; done |]. apply eqs_false in E.
    apply wp_store. eapply wp_mono; [by apply bs_Exists_ok |]. intros r s1 (? & ? & Hb & _).
    split; [done |]. split; [done |]. split; [done |]. destruct r as [b|]; [|done]. intros [= ->].
    split; [done |]. by apply (Hb true). }
  wp_step. eapply wp_mono; [exact Hknown |]. intros r [s1 w1] (Hw & Hi1 & Hu & Hk). cbn [h_store h_fs] in *. subst w1.
  destruct r as [[]|e]; cbn beta iota; [|clear Hk|done].
  { wp_steps. split; [done |]. intros k e' [= <- <-]. destruct (Hk eq_refl). by left. }
  destruct (src_open src); [wp_steps; done |]. destruct (src_stat src) as [size|e] eqn:Est; [|wp_steps; done].
  destruct (Z.ltb_spec size (echunkSize enc)).
  - eapply wp_mono; [by apply wp_uploadSmall |]. cbn [h_store]. intros r h' [Hi' Hok]. split; [done |].
    intros k e' ->. destruct (Hok eq_refl) as (content & Hrd & Hl & _ & Ho & Hup). specialize (Hup k e' eq_refl).
    assert (k = SHA256Bytes content) as Hkc by apply Hup.
    right. exists size, content, (fun c => exists e2, Encrypt enc (small_form fp content) ent = Ok (c, e2)).
    split; [done |]. split; [by eapply uploaded_from |]. split; [|left; done].
    intros j Hj Hne. rewrite Ho by (congruence || done). by apply Hu.
  - wp_step. apply wp_fs, wp_new_uuid. intros u w2 _. cbn [h_store h_fs]. wp_step. apply wp_fs, wp_Create; [done |].
    intros t w3 _ _. do 2 wp_step. eapply wp_mono; [by apply wp_uploadLarge |]. cbn [h_store].
    intros r [s4 w4] [Hi4 Hok]. do 2 wp_step. apply wp_fs. wp_nop. do 2 wp_step. apply wp_fs, wp_Remove.
    intros r6 w6 _ _ _ _ _ _. cbn [h_store h_fs] in *. destruct r as [[k e']|e]; wp_steps; (split; [done |]); [|done].
    intros k' e'' [= <- <-]. destruct (Hok eq_refl) as (dst & content & e2 & Henc & _ & Ho & Hup).
    specialize (Hup k e' eq_refl). assert (k = SHA256Bytes content) as Hkc by apply Hup. cbn [h_store] in *.
    right. exists size, content, (fun c => c = fw_data dst). split; [done |]. split; [by eapply uploaded_from |].
    split; [|right; split; [lia | by eauto]].
    intros j Hj Hne. rewrite Ho by (congruence || done). by apply Hu.
Qed.

Context `{AES : !AEADSpec AE, ZSS : !ZstdSpec ZS}.

(** Uploading content that does not carry the zstd magic to a store in
    working order, and downloading it again, returns it, with the SHA-256 of
    the content as its name. *)
Theorem upload_download key cs p ent c ent' s :
  let e := NewEncryptor key cs in
  bs_inv s -> bs_calm s -> bs_blob s (SHA256Bytes p) = None -> Zstd.IsCompressed p = false ->
  blen p < 2 ^ 63 -> (MaxChunkCount <= chunk_count (echunkSize e) (blen p) -> echunkSize e <= MaxGB3ChunkSize) ->
  Encrypt e p ent = Ok (c, ent') ->
  let '(r, s1) := UploadBlob e p ent s in
  r = Ok (SHA256Bytes p, ent') /\ (DownloadBlob (NewDecryptor key cs) (SHA256Bytes p) s1).1 = Ok p.
Proof.
  intros e Hi Hc Hn Hz Hl H3 He. pose proof (wp_UploadBlob e p ent s Hi) as Hup. unfold wp in Hup.
  destruct (UploadBlob e p ent s) as [r s1]. cbn [fst snd] in Hup.
  destruct Hup as (Hi1 & _ & Hb & Hok & Hcalm). destruct (Hcalm Hc c ent' He) as (_ & Hc1 & Hr).
  specialize (Hr Hn). subst r. split; [done |]. destruct (Hok _ _ eq_refl) as [_ Hs].
  assert (Hb1 : bs_blob s1 (SHA256Bytes p) = Some c).
  { destruct Hb as [Hb | (_ & c0 & e0 & Hc0 & Hb)]; [rewrite Hb, Hn in Hs; by destruct Hs |].
    rewrite He in Hc0. by injection Hc0 as <- <-. }
  pose proof (wp_DownloadBlob (NewDecryptor key cs) (SHA256Bytes p) s1 Hi1) as (_ & _ & _ & Hd).
  rewrite (Hd Hc1 c Hb1). eapply open_blob_ok; [by eapply Decrypt_Encrypt | by left].
Qed.

(** Content that carries the zstd magic but is not a zstd frame (or is too
    large a one) is stored by [UploadBlob] without complaint and can never be
    downloaded: every download of it fails to decompress. *)
Theorem magic_content_lost key cs p ent c ent' z s :
  let e := NewEncryptor key cs in
  bs_inv s -> Zstd.IsCompressed p = true -> Zstd.Decompress defaultDecompressor p = Err z ->
  blen p < 2 ^ 63 -> (MaxChunkCount <= chunk_count (echunkSize e) (blen p) -> echunkSize e <= MaxGB3ChunkSize) ->
  Encrypt e p ent = Ok (c, ent') -> bs_blob s (SHA256Bytes p) = None ->
  let '(r, s1) := UploadBlob e p ent s in
  forall ent2, r = Ok (SHA256Bytes p, ent2) ->
  is_ok (DownloadBlob (NewDecryptor key cs) (SHA256Bytes p) s1).1 = false.
Proof.
  intros e Hi Hz Hdz Hl H3 He Hn. pose proof (wp_UploadBlob e p ent s Hi) as Hup. unfold wp in Hup.
  destruct (UploadBlob e p ent s) as [r s1]. cbn [fst snd] in Hup.
  destruct Hup as (Hi1 & _ & Hb & Hok & _). intros ent2 Hr. destruct (Hok _ _ Hr) as [_ Hs].
  assert (Hb1 : bs_blob s1 (SHA256Bytes p) = Some c).
  { destruct Hb as [Hb | (_ & c0 & e0 & Hc0 & Hb)]; [rewrite Hb, Hn in Hs; by destruct Hs |].
    rewrite He in Hc0. by injection Hc0 as <- <-. }
  pose proof (wp_DownloadBlob (NewDecryptor key cs) (SHA256Bytes p) s1 Hi1) as (_ & _ & Hp & _).
  destruct (DownloadBlob _ _ s1) as [[q|?] ?]; [|done]. cbn in *.
  destruct (Hp q eq_refl) as (c0 & Hc0 & Ho). rewrite Hb1 in Hc0. injection Hc0 as <-.
  unfold open_blob in Ho. rewrite (Decrypt_Encrypt key cs p ent c ent') in Ho by done.
  rewrite Hz, Hdz in Ho. done.
Qed.

Lemma small_form_ok fp data vw : data <> [] -> Zstd.IsCompressed data = false -> blen data <= MaxDecompressedSize ->
  blen data <= fw_room (vw_w vw) ->
  blen (small_form fp data) <= blen data /\ writeSmallPlaintext vw (small_form fp data) = Ok (vw_app vw data).
Proof.
  intros Hne Hz Hl Hr. unfold small_form.
  assert (Hraw : writeSmallPlaintext vw data = Ok (vw_app vw data)).
  { unfold writeSmallPlaintext. rewrite Hz. by apply vw_put_ok. }
  destruct (_ && _); [|split; [lia | done]].
  destruct (Z.ltb_spec (blen (Zstd.Compress defaultStreamCompressor data)) (blen data)); [|split; [lia | done]].
  split; [lia |]. unfold writeSmallPlaintext. rewrite Zstd.Compress_marked by done.
  change (Zstd.Compress defaultStreamCompressor data) with (Zstd.Compress defaultStreamDecompressor data).
  rewrite Zstd.Decompress_Compress by done. by apply vw_put_ok.
Qed.

(** A small blob, as [Encrypt] writes it, through the streaming decoder. *)
Lemma stream_Encrypt_small enc d p ent c e2 vw :
  dkey d = ekey enc -> blen p < echunkSize enc -> blen p + IVSize + TagSize <= MaxBlobSize ->
  Encrypt enc p ent = Ok (c, e2) -> decryptStreamToFile d (Reader c false) vw = writeSmallPlaintext vw p.
Proof.
  intros Hk Hs Hl. unfold Encrypt. destruct (Z.ltb_spec (blen p) (echunkSize enc)); [|lia].
  unfold encryptSmall. intros ([] & Hg & H1)%bind_ok_inv. apply bind_ok_inv in H1 as ([iv e1] & Hiv & H1).
  apply ok_pair_inv in H1 as [-> ->]. apply newSmallBlobIV_ok in Hiv as [Hli Hci]. rewrite <- Hk in *.
  by apply decryptStreamToFile_small.
Qed.

(** A stable file uploaded with [UploadBlobFromPath] to a store that does
    not have it is stored under the SHA-256 of its content, and the streaming
    decoder gives the stored blob back byte for byte, whichever branch and
    layout was used and whether or not compression applied.  (A file below the
    chunk size must not carry the zstd magic.) *)
Theorem upload_path_roundtrip enc d fp data dir room ent (h : @host S) k e' h' :
  let cs := echunkSize enc in
  0 < cs -> cs + TagSize <= MaxStoredSize -> dkey d = ekey enc -> dchunkSize d = cs ->
  0 < blen data < 2 ^ 63 -> chunk_count cs (blen data) <= MaxUint32 ->
  (blen data < cs -> Zstd.IsCompressed data = false) ->
  bs_inv (h_store h) -> bs_blob (h_store h) (SHA256Bytes data) = None ->
  UploadBlobFromPath enc fp [] (Source None (Ok (blen data)) (Reader data false)) dir room ent h = (Ok (k, e'), h') ->
  k = SHA256Bytes data /\ exists c, bs_blob (h_store h') k = Some c /\
    forall vw, blen data <= fw_room (vw_w vw) -> decryptStreamToFile d (Reader c false) vw = Ok (vw_app vw data).
Proof.
  intros cs Hcs Hms Hk Hd Hl Hn Hz Hi Hnone Hup.
  pose proof (wp_UploadBlobFromPath enc fp [] (Source None (Ok (blen data)) (Reader data false)) dir room ent h Hi) as Hwp.
  unfold wp in Hwp. rewrite Hup in Hwp. cbn [fst snd] in Hwp. destruct Hwp as [_ Hwp].
  destruct (Hwp k e' eq_refl) as [(Hne & _) | (size & content & sealed & Hst & Hu & _ & Hbr)]; [done |].
  cbn [src_stat src_rd] in *. injection Hst as <-. destruct Hu as (-> & _ & _ & Hc).
  destruct Hbr as [(Hlt & Hrd & Hlim & ->) | (Hge & dst & e2 & Henc & ->)].
  - assert (content = data) as ->.
    { unfold read_all_limit in Hrd. cbn [rd_fails rd_data andb] in Hrd. injection Hrd as <-.
      rewrite blen_upto_min in Hlim by (by cbv). apply upto_all. lia. }
    split; [done |]. destruct (Hc Hnone) as (c & Hb & e2 & He). exists c. split; [done |]. intros vw Hr.
    unfold smallLimit in Hlim. assert (Hne : data <> []) by (intros E; rewrite E, blen_nil in Hl; lia).
    assert (Hmax : blen data <= MaxDecompressedSize).
    { unfold MaxBlobSize, MaxDecompressedSize, DefaultChunkSize, MagicSize, IVSize, TagSize in *. lia. }
    destruct (small_form_ok fp data vw Hne (Hz Hlt) Hmax Hr) as [Hsl Hw].
    rewrite (stream_Encrypt_small enc d (small_form fp data) ent c e2 vw Hk); [done | fold cs; lia | | done].
    unfold MagicSize in Hlim. lia.
  - assert (content = data /\ forall vw, blen data <= fw_room (vw_w vw) ->
      decryptStreamToFile d (Reader (fw_data dst) false) vw = Ok (vw_app vw data)) as [-> Hdec].
    { split; [|intros vw Hr]; [pose (vw := VW (FileW [] (blen data)) [] 0); assert (Hr : blen data <= fw_room (vw_w vw)) by done|];
        by destruct (decryptStreamToFile_encryptFileToWriter enc d _ data room ent dst content e2 vw
             Hcs Hms Hk Hd Hl Hn Hr Henc). }
    split; [done |]. destruct (Hc Hnone) as (c & Hb & ->). eauto.
Qed.

End Facts.
