(* ===== verification/BlobLocal.v ===== *)
(** BlobLocal: the upload and download theorems of [Blob] at the local store,
    on concrete stores and files. *)

From S2P Require Import Prelude GoStr Externs Compress Crypto Stream FS BlobStore LocalStore Blob.
From stdpp Require Import base list gmap strings.
From Stdlib.Strings Require Import Byte.
Local Open Scope Z_scope.

Module BlobWitness.
Import Toy CryptoWitness.

#[local] Instance uuid : Uuid := toy_uuid.

Definition store0 : sys := LocalWitness.empty_store.
Definition host0 : @host sys := Host store0 (World ∅ [] [] 3 0).
Definition enc4 := NewEncryptor key 4.
Definition dec4 := NewDecryptor key 4.

Lemma inv0 : inv store0.
Proof. by apply LocalWitness.inv_fresh. Qed.

Lemma download_integrity_witness :
  wp (DownloadBlob dec4 (SHA256Bytes msg)) (fun r s' => bs_inv s' /\ unchanged bs_blob store0 s' /\
    forall p, r = Ok p -> SHA256Bytes p = SHA256Bytes msg /\ is_Some (bs_blob store0 (SHA256Bytes msg))) store0.
Proof. apply download_integrity. exact inv0. Defined.

Lemma upload_download_witness :
  exists ent' s1, UploadBlob enc4 msg ent store0 = (Ok (SHA256Bytes msg, ent'), s1) /\
    (DownloadBlob dec4 (SHA256Bytes msg) s1).1 = Ok msg.
Proof.
  destruct (Encrypt enc4 msg ent) as [[c e']|] eqn:E; [|by vm_compute in E].
  assert (Hn : bs_blob store0 (SHA256Bytes msg) = None) by (by vm_compute).
  pose proof (upload_download key 4 msg ent c e' store0 inv0 (conj eq_refl eq_refl) Hn eq_refl
    ltac:(by vm_compute) ltac:(by vm_compute) E) as H.
  fold enc4 in H. destruct (UploadBlob enc4 msg ent store0) as [r s1]. destruct H as [-> H]. by exists e', s1.
Defined.

(** Three bytes after the zstd magic: not a frame. *)
Definition bad : bytes := zstdMagic ++ [x01; x02; x03].

Lemma magic_content_lost_witness :
  exists ent' s1, UploadBlob enc4 bad ent store0 = (Ok (SHA256Bytes bad, ent'), s1) /\
    is_ok (DownloadBlob dec4 (SHA256Bytes bad) s1).1 = false.
Proof.
  destruct (Encrypt enc4 bad ent) as [[c e']|] eqn:E; [|by vm_compute in E].
  assert (Hn : bs_blob store0 (SHA256Bytes bad) = None) by (by vm_compute).
  pose proof (magic_content_lost key 4 bad ent c e' ErrCorrupt store0 inv0 eq_refl eq_refl
    ltac:(by vm_compute) ltac:(by vm_compute) E Hn) as H.
  fold enc4 in H. destruct (UploadBlob enc4 bad ent store0) as [r s1] eqn:Eu.
  assert (Hr : exists e2, r = Ok (SHA256Bytes bad, e2)).
  { apply (f_equal fst) in Eu. vm_compute in Eu. subst r. by eexists. }
  destruct Hr as [e2 ->]. exists e2, s1. split; [done | by apply (H e2)].
Defined.

Lemma download_to_file_safe_witness :
  wp (DownloadBlobToFile dec4 (SHA256Bytes msg) (go "/tmp/x") 100) (fun r h' =>
    bs_inv (h_store h') /\ unchanged bs_blob (h_store host0) (h_store h') /\
    exists uid, target_outcome (SHA256Bytes msg) (go "/tmp/x") (staging_name (go "/tmp/x") uid) (h_fs host0) r (h_fs h')) host0.
Proof. apply download_to_file_safe. exact inv0. Defined.

Definition msg_src : source := Source None (Ok (blen msg)) (Reader msg false).

(** The five-byte file does not fit one chunk: the large branch. *)
Lemma upload_path_roundtrip_witness :
  exists e' h' c, UploadBlobFromPath enc4 (go "/home/notes.txt") [] msg_src (go "/tmp") 1000 ent host0
      = (Ok (SHA256Bytes msg, e'), h') /\ bs_blob (h_store h') (SHA256Bytes msg) = Some c /\
    decryptStreamToFile dec4 (Reader c false) (VW (FileW [] 10) [] 0) = Ok (vw_app (VW (FileW [] 10) [] 0) msg).
Proof.
  destruct (UploadBlobFromPath enc4 (go "/home/notes.txt") [] msg_src (go "/tmp") 1000 ent host0) as [r h'] eqn:E.
  assert (Hr : exists k e2, r = Ok (k, e2)).
  { apply (f_equal fst) in E. vm_compute in E. subst r. by eexists _, _. }
  destruct Hr as (k & e2 & ->).
  pose proof (upload_path_roundtrip enc4 dec4 (go "/home/notes.txt") msg (go "/tmp") 1000 ent host0 k e2 h') as H.
  cbv zeta in H. specialize (H ltac:(by vm_compute)).
  specialize (H ltac:(by vm_compute)).
  specialize (H eq_refl eq_refl (conj eq_refl eq_refl)).
  specialize (H ltac:(by vm_compute)).
  specialize (H ltac:(by vm_compute)).
  specialize (H inv0).
  specialize (H ltac:(by vm_compute)).
  specialize (H E).
  destruct H as (-> & c & Hb & Hd).
  exists e2, h', c. split; [done |]. split; [done |]. apply Hd. by vm_compute.
Defined.

End BlobWitness.
