(* ===== verification/RateLimit.v ===== *)
(** RateLimit: the token-bucket limiter ([ratelimit/ratelimit.go]).

    The state is the [Limiter] record; the refill goroutine, [WaitN], [SetRate]
    and [Stop] are steps on it (each holds the mutex while it changes the
    bucket).  [int64] arithmetic is modulo 2^64.  Time is in milliseconds since
    the ticker was started: it fires every 100 ms, on time.  A waiting call is run
    against a schedule that says, for every sleep, whether the context ended it,
    how late it woke, and which steps of other goroutines happened between the
    ticks that fell into it. *)

From S2P Require Import Prelude.
From stdpp Require Import base list.
From Stdlib.Strings Require Import Byte.
Local Open Scope Z_scope.

Record Limiter := MkLimiter {
  bytesPerSecond : Z;
  bucket : Z;
  fracAccum : Z;
  maxBucket : Z;
  ticker : bool;
  stopped : bool
}.

Definition NewLimiter (bps : Z) : Limiter :=
  if bps <=? 0 then MkLimiter 0 0 0 0 false false
  else MkLimiter bps bps 0 (int64 (bps * 2)) true false.

(** One tick of [refill]; Go's [/] and [%] truncate, the rate is positive. *)
Definition refill (l : Limiter) : Limiter :=
  let rate := bytesPerSecond l in
  if negb (0 <? rate) then l
  else
    let b1 := int64 (bucket l + Z.quot rate 10) in
    let f1 := int64 (fracAccum l + Z.rem rate 10) in
    let b2 := if 10 <=? f1 then int64 (b1 + Z.quot f1 10) else b1 in
    let f2 := if 10 <=? f1 then Z.rem f1 10 else f1 in
    let b3 := if maxBucket l <? b2 then maxBucket l else b2 in
    MkLimiter rate b3 f2 (maxBucket l) (ticker l) (stopped l).

Definition SetRate (l : Limiter) (bps : Z) : Limiter :=
  if stopped l then l
  else if 0 <? bps then
    let mx := int64 (bps * 2) in
    let b := if mx <? bucket l then mx else bucket l in
    if ticker l then MkLimiter bps b (fracAccum l) mx true false
    else MkLimiter bps bps (fracAccum l) mx true false
  else MkLimiter bps (bucket l) (fracAccum l) (maxBucket l) (ticker l) false.

(** [Stop] (a second call does nothing: [stopOnce]). *)
Definition Stop (l : Limiter) : Limiter :=
  MkLimiter (bytesPerSecond l) (bucket l) (fracAccum l) (maxBucket l) (ticker l) true.

(** The body of the [WaitN] loop: tokens still wanted and the limiter after it;
    [None] is the early return without a limit. *)
Definition wait_iter (n : Z) (l : Limiter) : option (Z * Limiter) :=
  if bytesPerSecond l <=? 0 then None
  else if 0 <? bucket l then
    let available := if n <? bucket l then n else bucket l in
    Some (n - available,
      MkLimiter (bytesPerSecond l) (bucket l - available) (fracAccum l) (maxBucket l) (ticker l) (stopped l))
  else Some (n, l).

(** A step of another goroutine. *)
Inductive event := Tick | Rate (bps : Z) | Halt | Take (n : Z).

(** A tick only happens while the refill loop runs. *)
Definition apply_event (l : Limiter) (e : event) : Limiter :=
  match e with
  | Tick => if ticker l && negb (stopped l) then refill l else l
  | Rate bps => SetRate l bps
  | Halt => Stop l
  | Take n => match wait_iter n l with Some (_, l') => l' | None => l end
  end.

(** The ticker's period, and what [time.After] is asked for: 50 ms after tokens
    were taken, 10 ms at an empty bucket. *)
Definition tickEvery : Z := 100.
Definition asked (took : bool) : Z := if took then 50 else 10.

(** A sleep: ended by the context, or [late] milliseconds longer than asked for,
    with the steps of others before, between and after its ticks. *)
Inductive sleep := Cancelled | Slept (late : Z) (others : list (list event)).

(** The ticks after [t] up to [t'], and their place among the others' steps. *)
Definition ticks_between (t t' : Z) : nat := Z.to_nat (t' / tickEvery - t / tickEvery).
Fixpoint weave (k : nat) (others : list (list event)) : list event :=
  match k with
  | O => mjoin others
  | Datatypes.S k => hd [] others ++ Tick :: weave k (tl others)
  end.

Inductive wait_result := WaitOk | WaitCtx | WaitBlocked (n : Z).

(** [WaitN(ctx, n)], called at the time [t], against a schedule of sleeps; with
    the limiter and the time at its return.  [WaitBlocked] means the schedule
    ran out while still waiting. *)
Fixpoint WaitN (t : Z) (sleeps : list sleep) (n : Z) (l : Limiter) : wait_result * Limiter * Z :=
  if n <=? 0 then (WaitOk, l, t)
  else
    match wait_iter n l with
    | None => (WaitOk, l, t)
    | Some (n', l') =>
        if n' <=? 0 then (WaitOk, l', t)
        else
          match sleeps with
          | [] => (WaitBlocked n', l', t)
          | Cancelled :: _ => (WaitCtx, l', t)
          | Slept late others :: sleeps' =>
              let t' := t + asked (n' <? n) + late in
              WaitN t' sleeps' n' (foldl apply_event l' (weave (ticks_between t t') others))
          end
    end.

(** [Writer.WriteContext]: wait for [len(p)] tokens, then write. *)
Definition WriteContext {A} (lim : option Limiter) (t : Z) (sleeps : list sleep) (p : bytes)
  (write : bytes -> A) : result wait_result A * option Limiter :=
  match lim with
  | None => (Ok (write p), None)
  | Some l => let '(r, l', _) := WaitN t sleeps (blen p) l in
      (match r with WaitOk => Ok (write p) | _ => Err r end, Some l')
  end.

(** [Reader.ReadContext]: read, then wait for what was read; the bytes are
    returned with the error. *)
Definition ReadContext (lim : option Limiter) (t : Z) (sleeps : list sleep) (n : Z) (r : reader)
  : bytes * option wait_result * reader * option Limiter :=
  let got := upto n (rd_data r) in
  let r' := Reader (from n (rd_data r)) (rd_fails r) in
  match lim with
  | Some l =>
      if 0 <? blen got then
        let '(w, l', _) := WaitN t sleeps (blen got) l in
        (got, match w with WaitOk => None | _ => Some w end, r', Some l')
      else (got, None, r', Some l)
  | None => (got, None, r', None)
  end.

(** * The invariant *)

(** Rates for which the cap and a refill on top of it fit [int64]. *)
Definition sane_rate (r : Z) : Prop := - 2 ^ 61 < r < 2 ^ 61.

Record wf (l : Limiter) : Prop := Wf {
  wf_rate : sane_rate (bytesPerSecond l);
  wf_bucket : 0 <= bucket l <= maxBucket l;
  wf_frac : 0 <= fracAccum l < 10;
  wf_max : 0 <= maxBucket l < 2 ^ 63;
  wf_rate_max : 0 < bytesPerSecond l -> maxBucket l = 2 * bytesPerSecond l
}.

Definition sane_event (e : event) : Prop :=
  match e with Rate bps => sane_rate bps | Take n => 0 <= n | _ => True end.

Lemma wf_new bps : sane_rate bps -> wf (NewLimiter bps).
Proof.
  unfold sane_rate. intros H. unfold NewLimiter. go_if; [by split; cbn; unfold sane_rate; lia |].
  rewrite int64_small by lia. split; cbn; unfold sane_rate; lia.
Qed.

(** Tokens in tenths, the unit [refill] works in. *)
Definition tenths (l : Limiter) : Z := 10 * bucket l + fracAccum l.

(** A tick adds a tenth of the rate exactly, up to the cap. *)
Lemma refill_spec l : wf l -> 0 < bytesPerSecond l ->
  let t := tenths l + bytesPerSecond l in
  bucket (refill l) = Z.min (t / 10) (maxBucket l) /\ fracAccum (refill l) = t mod 10 /\
  bytesPerSecond (refill l) = bytesPerSecond l /\ maxBucket (refill l) = maxBucket l /\
  ticker (refill l) = ticker l /\ stopped (refill l) = stopped l.
Proof.
  intros [Hr Hb Hf Hm Hx] Hpos t. specialize (Hx Hpos). unfold sane_rate in Hr. unfold refill.
  destruct (Z.ltb_spec 0 (bytesPerSecond l)); [|lia]. cbn [negb].
  rewrite Z.quot_div_nonneg, Z.rem_mod_nonneg by lia.
  set (r := bytesPerSecond l) in *. pose proof (Z.div_mod r 10 ltac:(lia)) as Hd.
  pose proof (Z.mod_pos_bound r 10 ltac:(lia)). set (q := r / 10) in *. set (m := r mod 10) in *.
  rewrite (int64_small (fracAccum l + m)) by lia. unfold t, tenths. cbn.
  destruct (Z.leb_spec 10 (fracAccum l + m)).
  - rewrite Z.quot_div_nonneg, Z.rem_mod_nonneg by lia.
    assert (Hq : (10 * bucket l + fracAccum l + r) / 10 = bucket l + q + (fracAccum l + m) / 10).
    { rewrite Hd. replace (10 * bucket l + fracAccum l + (10 * q + m)) with ((fracAccum l + m) + (bucket l + q) * 10) by lia.
      rewrite Z.div_add by lia. lia. }
    assert (Hmm : (10 * bucket l + fracAccum l + r) mod 10 = (fracAccum l + m) mod 10).
    { rewrite Hd. replace (10 * bucket l + fracAccum l + (10 * q + m)) with ((fracAccum l + m) + (bucket l + q) * 10) by lia.
      by rewrite Z.mod_add. }
    assert (0 <= (fracAccum l + m) / 10 <= 1).
    { split; [apply Z.div_pos; lia |]. apply Z.lt_succ_r, Z.div_lt_upper_bound; lia. }
    rewrite (int64_small (bucket l + q)) by lia. rewrite int64_small by lia. rewrite Hq, Hmm. split; [|done]. go_if; lia.
  - assert (Hq : (10 * bucket l + fracAccum l + r) / 10 = bucket l + q).
    { rewrite Hd. replace (10 * bucket l + fracAccum l + (10 * q + m)) with ((fracAccum l + m) + (bucket l + q) * 10) by lia.
      rewrite Z.div_add, Z.div_small by lia. lia. }
    assert (Hmm : (10 * bucket l + fracAccum l + r) mod 10 = fracAccum l + m).
    { rewrite Hd. replace (10 * bucket l + fracAccum l + (10 * q + m)) with ((fracAccum l + m) + (bucket l + q) * 10) by lia.
      rewrite Z.mod_add, Z.mod_small by lia. lia. }
    rewrite (int64_small (bucket l + q)) by lia. rewrite Hq, Hmm. split; [|done]. go_if; lia.
Qed.

Lemma wf_refill l : wf l -> wf (refill l).
Proof.
  intros Hw. destruct (Z.ltb_spec 0 (bytesPerSecond l)) as [Hp|Hp].
  - destruct (refill_spec l Hw Hp) as (Hb & Hf & Hr & Hm & _). destruct Hw as [? ? ? ? ?].
    assert (0 <= (tenths l + bytesPerSecond l) / 10) by (apply Z.div_pos; unfold tenths; lia).
    pose proof (Z.mod_pos_bound (tenths l + bytesPerSecond l) 10 ltac:(lia)).
    split; rewrite ?Hb, ?Hf, ?Hr, ?Hm; auto; lia.
  - unfold refill. destruct (Z.ltb_spec 0 (bytesPerSecond l)); [lia | done].
Qed.

Lemma wf_iter n l n' l' : wf l -> 0 <= n -> wait_iter n l = Some (n', l') ->
  wf l' /\ 0 <= n' <= n /\ bucket l' = bucket l - (n - n') /\ fracAccum l' = fracAccum l /\
  bytesPerSecond l' = bytesPerSecond l /\ maxBucket l' = maxBucket l /\
  ticker l' = ticker l /\ stopped l' = stopped l /\ (0 < n' -> bucket l' = 0).
Proof.
  intros [Hr Hb Hf Hm Hx] Hn. unfold sane_rate in Hr. unfold wait_iter. destruct (Z.leb_spec (bytesPerSecond l) 0); [done |].
  destruct (Z.ltb_spec 0 (bucket l)); [|intros [= <- <-]; repeat split; auto; lia].
  intros [= <- <-]. cbn. destruct (Z.ltb_spec n (bucket l)); repeat split; cbn; auto; lia.
Qed.

Lemma wf_event l e : wf l -> sane_event e -> wf (apply_event l e).
Proof.
  intros Hw He. destruct e as [|bps| |n]; cbn in *.
  - destruct (_ && _); [by apply wf_refill | done].
  - unfold SetRate. destruct (stopped l); [done |]. destruct Hw as [Hr Hb Hf Hm Hx]. unfold sane_rate in He.
    destruct (Z.ltb_spec 0 bps); [|split; cbn; unfold sane_rate; auto; lia].
    rewrite int64_small by lia. destruct (ticker l); [|split; cbn; unfold sane_rate; lia].
    destruct (Z.ltb_spec (bps * 2) (bucket l)); split; cbn; unfold sane_rate; lia.
  - destruct Hw. by split.
  - destruct (wait_iter n l) as [[n' l']|] eqn:E; [|done]. by eapply wf_iter.
Qed.

Lemma wf_events l evs : wf l -> Forall sane_event evs -> wf (foldl apply_event l evs).
Proof.
  revert l. induction evs as [|e evs IH]; intros l Hw Hf; [done |]. inversion Hf; subst. cbn.
  apply IH; [by apply wf_event | done].
Qed.

(** Whatever sequence of ticks, rate changes, stops and withdrawals
    happens to a limiter, the bucket stays between zero and its cap, the
    fraction below one token, and nothing overflows (for rates below 2^61). *)
Theorem limiter_invariant bps evs :
  sane_rate bps -> Forall sane_event evs -> wf (foldl apply_event (NewLimiter bps) evs).
Proof. intros. apply wf_events; [by apply wf_new | done]. Qed.

(** * Refill is exact *)

Lemma refill_tenths l : wf l -> 0 < bytesPerSecond l ->
  tenths (refill l) <= tenths l + bytesPerSecond l /\
  (tenths l + bytesPerSecond l <= 10 * maxBucket l -> tenths (refill l) = tenths l + bytesPerSecond l).
Proof.
  intros Hw Hp. destruct (refill_spec l Hw Hp) as (Hb & Hf & _). unfold tenths at 1 4. rewrite Hb, Hf.
  set (t := tenths l + bytesPerSecond l). pose proof (Z.div_mod t 10 ltac:(lia)).
  pose proof (Z.mod_pos_bound t 10 ltac:(lia)). split; [lia |]. intros Hc.
  assert (t / 10 <= maxBucket l) by (apply Z.div_le_upper_bound; lia). lia.
Qed.

Definition ticks (k : nat) (l : Limiter) : Limiter := foldl apply_event l (replicate k Tick).

Definition running (l : Limiter) : Prop := ticker l = true /\ stopped l = false.

Lemma tick_running l : running l -> apply_event l Tick = refill l.
Proof. intros [H1 H2]. cbn. by rewrite H1, H2. Qed.

Lemma refill_running l : running l -> running (refill l).
Proof. intros [H1 H2]. unfold refill, running. by destruct (negb _). Qed.

Lemma refill_rate l : bytesPerSecond (refill l) = bytesPerSecond l /\ maxBucket (refill l) = maxBucket l.
Proof. unfold refill. by destruct (negb _). Qed.

(** The refill is exact at every rate: k ticks of 100 ms add k times a
    tenth of the rate, to the tenth of a token, as long as the cap is not
    reached; so ten ticks add exactly the configured bytes per second, also
    below ten bytes per second. *)
Theorem refill_exact k l :
  wf l -> 0 < bytesPerSecond l -> running l ->
  tenths l + Z.of_nat k * bytesPerSecond l <= 10 * maxBucket l ->
  tenths (ticks k l) = tenths l + Z.of_nat k * bytesPerSecond l.
Proof.
  unfold ticks. revert l. induction k as [|k IH]; intros l Hw Hp Hr Hc; cbn [replicate foldl].
  { lia. }
  rewrite tick_running by done. destruct (refill_rate l) as [Hrate Hmax].
  destruct (refill_tenths l Hw Hp) as [_ Ht]. specialize (Ht ltac:(nia)).
  rewrite (IH (refill l)); rewrite ?Hrate, ?Hmax, ?Ht; auto using wf_refill, refill_running; lia.
Qed.

(** * The rate is respected *)

(** Tokens handed out along a sequence of ticks and withdrawals. *)
Fixpoint granted (l : Limiter) (evs : list event) : Z :=
  match evs with
  | [] => 0
  | e :: evs' =>
      (match e with
       | Take n => match wait_iter n l with Some (n', _) => n - n' | None => 0 end
       | _ => 0
       end) + granted (apply_event l e) evs'
  end.

Definition tick_or_take (e : event) : Prop := match e with Tick => True | Take n => 0 <= n | _ => False end.
Fixpoint tick_count (evs : list event) : Z :=
  match evs with [] => 0 | Tick :: l => 1 + tick_count l | _ :: l => tick_count l end.

Lemma granted_bound l evs : wf l -> 0 < bytesPerSecond l -> Forall tick_or_take evs ->
  10 * granted l evs + tenths (foldl apply_event l evs) <= tenths l + bytesPerSecond l * tick_count evs.
Proof.
  intros Hw Hp Hf. revert l Hw Hp. induction Hf as [|e evs He Hf IH]; intros l Hw Hp; cbn [granted foldl tick_count]; [lia |].
  destruct e as [| | |n]; try done.
  - assert (Hstep : wf (apply_event l Tick) /\ bytesPerSecond (apply_event l Tick) = bytesPerSecond l /\
      tenths (apply_event l Tick) <= tenths l + bytesPerSecond l).
    { cbn. destruct (_ && _); [|split; [done | split; [done | lia]]].
      split; [by apply wf_refill |]. split; [apply refill_rate | by apply refill_tenths]. }
    destruct Hstep as (Hw' & Hr' & Ht'). specialize (IH _ Hw' ltac:(lia)). rewrite Hr' in IH. lia.
  - cbn [apply_event] in *. destruct (wait_iter n l) as [[n' l']|] eqn:E.
    + destruct (wf_iter n l n' l' Hw He E) as (Hw' & Hn & Hb & Hfr & Hr' & _).
      specialize (IH _ Hw' ltac:(lia)). unfold tenths in *. rewrite Hr', Hb, Hfr in *. lia.
    + specialize (IH _ Hw Hp). lia.
Qed.

(** C33: the limiter never hands out more than its rate: from any reachable
    state, over any interleaving of withdrawals with k refill ticks (k tenths
    of a second), the bytes granted are at most the burst allowance of two
    seconds plus k tenths of the rate (rounded up). *)
Theorem rate_respected l evs :
  wf l -> 0 < bytesPerSecond l -> Forall tick_or_take evs ->
  10 * granted l evs <= 20 * bytesPerSecond l + 9 + bytesPerSecond l * tick_count evs.
Proof.
  intros Hw Hp Hf. pose proof (granted_bound l evs Hw Hp Hf) as H.
  assert (Hw' : wf (foldl apply_event l evs)).
  { apply wf_events; [done |]. eapply Forall_impl; [exact Hf |]. by intros []. }
  destruct Hw' as [_ Hb' Hf' _ _], Hw as [_ Hb Hfr _ Hx]. specialize (Hx Hp). unfold tenths in *. lia.
Qed.

(** * Waiting ends *)

(** Nobody else does anything during the sleep. *)
Definition undisturbed (s : sleep) : Prop := exists late, 0 <= late /\ s = Slept late [].

Lemma weave_nil k : weave k [] = replicate k Tick.
Proof. induction k as [|k IH]; [done |]. cbn [weave hd tl app replicate]. by rewrite IH. Qed.

(** Ticks on an empty bucket: the first adds a tenth of the rate in full, and
    none of the others takes anything away. *)
Lemma ticks_tenths k l : wf l -> 0 < bytesPerSecond l -> running l -> bucket l = 0 ->
  let l' := foldl apply_event l (replicate (S k) Tick) in
  wf l' /\ running l' /\ bytesPerSecond l' = bytesPerSecond l /\ tenths l + bytesPerSecond l <= tenths l' /\
  (k = O -> tenths l' = tenths l + bytesPerSecond l).
Proof.
  intros Hw Hp Hr Hb. induction k as [|k IH].
  - cbn [replicate foldl]. rewrite tick_running by done. destruct (refill_rate l) as [Hrate Hmax].
    split; [by apply wf_refill |]. split; [by apply refill_running |]. split; [done |].
    destruct (refill_tenths l Hw Hp) as [_ Ht]. destruct Hw as [_ _ Hf _ Hx]. specialize (Hx Hp).
    rewrite Ht; [lia |]. unfold tenths. lia.
  - rewrite replicate_S_end, foldl_app. cbn [foldl]. destruct IH as (Hw' & Hr' & Hrate & Ht & _).
    set (l1 := foldl apply_event l (replicate (S k) Tick)) in *. rewrite tick_running by done.
    split; [by apply wf_refill |]. split; [by apply refill_running |]. split; [rewrite <- Hrate; apply refill_rate |]. split; [|done].
    destruct (refill_spec l1 Hw' ltac:(lia)) as (Hb1 & Hf1 & _). unfold tenths in *. rewrite Hb1, Hf1.
    set (t := 10 * bucket l1 + fracAccum l1 + bytesPerSecond l1).
    pose proof (Z.div_mod t 10 ltac:(lia)). pose proof (Z.mod_pos_bound t 10 ltac:(lia)).
    destruct Hw' as [_ Hb' Hf' _ Hx']. specialize (Hx' ltac:(lia)). subst t. destruct Hw as [_ _ Hfl _ _]. rewrite Hb in *. lia.
Qed.

(** An undisturbed sleep from [t] to [t']. *)
Lemma sleep_tenths t t' l : wf l -> 0 < bytesPerSecond l -> running l -> bucket l = 0 -> t <= t' ->
  let l' := foldl apply_event l (weave (ticks_between t t') []) in
  wf l' /\ running l' /\ bytesPerSecond l' = bytesPerSecond l /\
  (t / 100 < t' / 100 -> tenths l + bytesPerSecond l <= tenths l') /\ tenths l <= tenths l' /\
  (t' / 100 <= t / 100 + 1 -> tenths l' = tenths l + bytesPerSecond l * (t' / 100 - t / 100)).
Proof.
  intros Hw Hp Hr Hb Ht. assert (Hle : t / 100 <= t' / 100) by (apply Z.div_le_mono; lia). rewrite weave_nil. unfold ticks_between, tickEvery.
  destruct (Z.to_nat (t' / 100 - t / 100)) as [|k] eqn:Ek.
  - cbn [replicate foldl]. replace (t' / 100 - t / 100) with 0 by lia. split_and!; try done; lia.
  - destruct (ticks_tenths k l Hw Hp Hr Hb) as (Hw' & Hr' & Hrate & H1 & H2). split_and!; try done; try lia. intros Hone. rewrite H2 by lia. replace (t' / 100 - t / 100) with 1 by lia. lia.
Qed.

(** One round of the loop that sleeps: the bucket is empty, what is still
    wanted is at least a tenth of a token, and what was taken is accounted for. *)
Lemma round_sleeps n l n' l' : wf l -> 0 <= n -> wait_iter n l = Some (n', l') -> 0 < n' ->
  wf l' /\ bucket l' = 0 /\ bytesPerSecond l' = bytesPerSecond l /\ (running l -> running l') /\ 10 * n' - tenths l' = 10 * n - tenths l /\ 0 < 10 * n - tenths l.
Proof.
  intros Hw Hn E Hn'. destruct (wf_iter n l n' l' Hw Hn E) as (Hw' & Hr' & Hb & Hf & Hrate & _ & Htk & Hst & Hz). specialize (Hz Hn').
  split; [done |]. split; [done |]. split; [done |]. split; [unfold running; by rewrite Htk, Hst |]. destruct Hw as [_ _ Hfr _ _]. unfold tenths. lia.
Qed.

Lemma wait_ends_aux sleeps : forall t n l,
  wf l -> 0 < bytesPerSecond l -> running l -> 0 <= n -> Forall undisturbed sleeps ->
  10 * n - tenths l <= bytesPerSecond l * ((t + 10 * Z.of_nat (length sleeps)) / 100 - t / 100) -> (WaitN t sleeps n l).1.1 = WaitOk.
Proof.
  induction sleeps as [|s sleeps IH]; intros t n l Hw Hp Hr Hn Hs Hm; cbn [WaitN].
  all: destruct (Z.leb_spec n 0); [done |]; destruct (wait_iter n l) as [[n' l']|] eqn:E; [|done]; destruct (Z.leb_spec n' 0); [done |].
  all: destruct (round_sleeps n l n' l' Hw Hn E ltac:(lia)) as (Hw' & Hb & Hrate & Hr' & Hneed & Hpos); specialize (Hr' Hr).
  - cbn [length] in Hm. rewrite Z.mul_0_r, Z.add_0_r, Z.sub_diag in Hm. lia.
  - apply Forall_cons in Hs as [(late & Hlate & ->) Hs]. set (t' := t + asked (n' <? n) + late).
    assert (Ht : t + 10 <= t') by (subst t'; unfold asked; destruct (n' <? n); lia).
    destruct (sleep_tenths t t' l' Hw' ltac:(lia) Hr' Hb ltac:(lia)) as (Hw2 & Hr2 & Hrate2 & Hgain & Hmono & _).
    apply IH; try done; try lia. rewrite Hrate2, Hrate in *. cbn [length] in Hm. rewrite Nat2Z.inj_succ in Hm.
    set (m := Z.of_nat (length sleeps)) in *. assert (Hle : t / 100 <= t' / 100) by (apply Z.div_le_mono; lia).
    assert (Hk : (t + 10 * Z.succ m) / 100 - t / 100 <= (t' + 10 * m) / 100 - t' / 100 + (if t / 100 <? t' / 100 then 1 else 0)).
    { destruct (Z.ltb_spec (t / 100) (t' / 100)); Z.div_mod_to_equations; lia. }
    destruct (Z.ltb_spec (t / 100) (t' / 100)) as [Hlt | Hge]; [specialize (Hgain Hlt)|]; nia.
Qed.

(** Sleeps that last as long as asked for see at most one tick each, and
    nothing that is refilled is lost. *)
Lemma wait_clock_aux sleeps : forall t n l,
  wf l -> 0 < bytesPerSecond l -> running l -> 0 <= n -> Forall (fun s => s = Slept 0 []) sleeps ->
  let t' := (WaitN t sleeps n l).2 in
  (10 * n - tenths l <= 0 -> t' = t) /\ (0 < 10 * n - tenths l -> bytesPerSecond l * (t' / 100 - t / 100) < 10 * n - tenths l + bytesPerSecond l).
Proof.
  assert (Hstay : forall r t, r * (t / 100 - t / 100) = 0) by (intros; rewrite Z.sub_diag; apply Z.mul_0_r).
  induction sleeps as [|s sleeps IH]; intros t n l Hw Hp Hr Hn Hs; cbn [WaitN].
  all: destruct (Z.leb_spec n 0); [cbn; rewrite Hstay; lia |]; destruct (wait_iter n l) as [[n' l']|] eqn:E; [|cbn; rewrite Hstay; lia].
  all: destruct (Z.leb_spec n' 0); [cbn; rewrite Hstay; lia |].
  all: destruct (round_sleeps n l n' l' Hw Hn E ltac:(lia)) as (Hw' & Hb & Hrate & Hr' & Hneed & Hpos); specialize (Hr' Hr).
  - cbn. rewrite Hstay. lia.
  - apply Forall_cons in Hs as [-> Hs]. set (t1 := t + asked (n' <? n) + 0).
    assert (Ht : t <= t1 <= t + 50) by (subst t1; unfold asked; destruct (n' <? n); lia).
    assert (Hone : t1 / 100 <= t / 100 + 1) by (Z.div_mod_to_equations; lia).
    destruct (sleep_tenths t t1 l' Hw' ltac:(lia) Hr' Hb ltac:(lia)) as (Hw2 & Hr2 & Hrate2 & _ & _ & Hex). specialize (Hex Hone).
    set (l2 := foldl apply_event l' _) in *. destruct (IH t1 n' l2 Hw2 ltac:(lia) Hr2 ltac:(lia) Hs) as [H1 H2]. cbv zeta in *.
    set (t2 := (WaitN t1 sleeps n' l2).2) in *. rewrite Hrate2, Hrate in *. split; [lia |]. intros _.
    assert (Hle : t / 100 <= t1 / 100) by (apply Z.div_le_mono; lia).
    destruct (Z.leb_spec (10 * n' - tenths l2) 0) as [Hd | Hd]; [rewrite (H1 Hd); nia | specialize (H2 Hd); nia].
Qed.

(** C34: waiting for n bytes ends.  On a running limiter with a positive rate,
    when nobody else uses it during the wait, the context is not cancelled and
    the ticker fires every 100 ms, [WaitN] has returned success once it has slept
    ten times for each of the 10 n / rate refills it needs (rounded up), however
    late it wakes from the sleeps of 10 and 50 ms it asks for; and when every
    sleep lasts as long as asked for, fewer than 10 n / rate + 1 ticks have
    passed. *)
Theorem wait_terminates t sleeps n l :
  wf l -> 0 < bytesPerSecond l -> running l -> 0 <= n -> Forall undisturbed sleeps ->
  10 * n <= bytesPerSecond l * (Z.of_nat (length sleeps) / 10) ->
  exists l' t', WaitN t sleeps n l = (WaitOk, l', t') /\
    (Forall (fun s => s = Slept 0 []) sleeps -> bytesPerSecond l * (t' / tickEvery - t / tickEvery) < 10 * n + bytesPerSecond l).
Proof.
  intros Hw Hp Hr Hn Hs Hl. assert (Ht0 : 0 <= tenths l) by (destruct Hw as [_ Hb Hf _ _]; unfold tenths; lia).
  assert (Hok : (WaitN t sleeps n l).1.1 = WaitOk).
  { apply wait_ends_aux; try done. set (m := Z.of_nat (length sleeps)) in *.
    assert (m / 10 <= (t + 10 * m) / 100 - t / 100) by (Z.div_mod_to_equations; lia). nia. }
  pose proof (fun H => wait_clock_aux sleeps t n l Hw Hp Hr Hn H) as Hclock. destruct (WaitN t sleeps n l) as [[r l'] t']. cbn [fst snd] in *. subst r.
  exists l', t'. split; [done |]. intros H. unfold tickEvery. destruct (Hclock H) as [H1 H2].
  destruct (Z.leb_spec (10 * n - tenths l) 0) as [Hd | Hd]; [rewrite (H1 Hd), Z.sub_diag; lia | specialize (H2 Hd); lia].
Qed.

(** Ticks do nothing to a stopped limiter. *)
Lemma stopped_ticks k l : stopped l = true -> foldl apply_event l (weave k []) = l.
Proof. intros Hs. rewrite weave_nil. induction k as [|k IH]; [done |]. cbn [replicate foldl apply_event]. by rewrite Hs, andb_false_r. Qed.

(** A limiter that was stopped with its rate still set never lets a waiter
    for more than the bucket through: no number of sleeps ends the wait. *)
Theorem stopped_limiter_blocks t sleeps n l :
  wf l -> 0 < bytesPerSecond l -> bucket l < n -> Forall undisturbed sleeps ->
  (WaitN t sleeps n (Stop l)).1.1 = WaitBlocked (n - bucket l).
Proof.
  intros Hw Hp Hn Hs. pose proof (wf_bucket _ Hw) as Hb.
  assert (Hgen : forall sleeps t n l, Forall undisturbed sleeps -> stopped l = true -> 0 < bytesPerSecond l -> 0 <= bucket l < n -> (WaitN t sleeps n l).1.1 = WaitBlocked (n - bucket l)).
  { clear. induction sleeps as [|s sleeps IH]; intros t n l Hs Hst Hp Hb; cbn [WaitN]; unfold wait_iter.
    all: destruct (Z.leb_spec n 0); [lia |]; destruct (Z.leb_spec (bytesPerSecond l) 0); [lia |]; destruct (Z.ltb_spec 0 (bucket l)).
    all: try (destruct (Z.ltb_spec n (bucket l)); [lia |]). all: try replace (bucket l) with 0 by lia; rewrite ?Z.sub_0_r.
    all: match goal with |- context [if ?a <=? 0 then _ else _] => destruct (Z.leb_spec a 0); [lia |] end.
    1,2: done.
    all: apply Forall_cons in Hs as [(late & _ & ->) Hs]; rewrite stopped_ticks by done; rewrite IH; cbn; try done; try lia; f_equal; lia. }
  rewrite Hgen; cbn; try done; lia.
Qed.

(** ** Witnesses *)

Module RateWitness.

Definition l7 : Limiter := foldl apply_event (NewLimiter 7) [Take 7].

Lemma wf7 : wf l7.
Proof. apply wf_events; [by apply wf_new | by repeat constructor]. Qed.

Lemma limiter_invariant_witness : wf (foldl apply_event (NewLimiter 7) [Tick; Take 3; Rate 2; Halt]).
Proof. apply limiter_invariant; [done | by repeat constructor]. Defined.

Lemma refill_exact_witness : tenths (ticks 10 l7) = 70.
Proof. etrans; [apply (refill_exact 10 l7 wf7); by vm_compute | by vm_compute]. Defined.

Lemma rate_respected_witness : 10 * granted l7 [Tick; Take 5; Tick; Tick; Take 5] <= 20 * 7 + 9 + 7 * 3.
Proof. refine (rate_respected l7 [Tick; Take 5; Tick; Tick; Take 5] wf7 _ _); [done | by repeat constructor]. Defined.

(** Two tokens at seven a second: three refills, so 30 sleeps are enough, and
    at most three ticks pass. *)
Lemma wait_terminates_witness : exists l' t', WaitN 30 (replicate 30 (Slept 0 [])) 2 l7 = (WaitOk, l', t') /\ 7 * (t' / tickEvery - 30 / tickEvery) < 27.
Proof.
  destruct (wait_terminates 30 (replicate 30 (Slept 0 [])) 2 l7 wf7) as (l' & t' & E & H); [done | done | done | | done | exists l', t'; split; [exact E | apply H; by apply Forall_replicate]].
  apply Forall_replicate. by exists 0.
Defined.

Lemma stopped_limiter_blocks_witness : (WaitN 30 (replicate 100 (Slept 5 [])) 2 (Stop l7)).1.1 = WaitBlocked 2.
Proof. apply (stopped_limiter_blocks 30 _ 2 l7 wf7); [done | done | apply Forall_replicate; by exists 5]. Defined.

End RateWitness.
