(* ===== verification/Manifest.v ===== *)
(** Manifest: the snapshot manifest and its invariants ([simple/manifest.go],
    data and in-memory operations, and [simple/manifest_validate.go]).

    [Dirs] is a map from slash-separated directory paths to directories; Go
    iterates it in an unspecified order, here in the order of [map_to_list].  A
    [nil] directory pointer, which only hostile JSON can produce, is not
    represented.  Sizes are [int64], their sums wrap.  [filepath.ToSlash] is the
    identity on the Unix build. *)

From S2P Require Import Prelude GoStr.
From stdpp Require Import base list gmap strings.
From Stdlib.Strings Require Import Byte.
Local Open Scope Z_scope.

Record ChunkRef := MkChunkRef { c_Hash : bytes; c_Size : Z }.

Record FileEntry := MkFileEntry {
  f_Name : bytes;
  f_ContentHash : bytes;
  f_Size : Z;
  f_Mtime : bytes;
  f_Mode : Z;
  f_Status : bytes;
  f_Chunks : list ChunkRef
}.

Definition set_name (f : FileEntry) (n : bytes) : FileEntry :=
  MkFileEntry n (f_ContentHash f) (f_Size f) (f_Mtime f) (f_Mode f) (f_Status f) (f_Chunks f).

Record Dir := MkDir { d_Files : list FileEntry; d_SubDirs : list bytes }.

Record ManifestStats := MkStats {
  s_FileCount : Z;
  s_TotalSize : Z;
  s_NewFiles : Z;
  s_ChangedFiles : Z;
  s_UnchangedFiles : Z;
  s_DeletedFiles : Z;
  s_NewBytes : Z;
  s_ScanErrors : Z
}.

Record Manifest := MkManifest {
  m_Version : Z;
  m_SourceID : Z;
  m_CloudID : bytes;
  m_SourceName : bytes;
  m_SourcePath : bytes;
  m_Timestamp : bytes;
  m_DeviceID : bytes;
  m_Dirs : gmap bytes Dir;
  m_Stats : ManifestStats;
  m_Completeness : bytes
}.

Definition set_dirs (m : Manifest) (d : gmap bytes Dir) (s : ManifestStats) : Manifest :=
  MkManifest (m_Version m) (m_SourceID m) (m_CloudID m) (m_SourceName m) (m_SourcePath m)
    (m_Timestamp m) (m_DeviceID m) d s (m_Completeness m).

(** [now] is [time.Now().UTC().Format(time.RFC3339)]. *)
Definition NewManifest (now : bytes) (sourceID : Z) (cloudID sourceName sourcePath deviceID : bytes) : Manifest :=
  MkManifest 2 sourceID cloudID sourceName sourcePath now deviceID ∅ (MkStats 0 0 0 0 0 0 0 0) [].

Definition normalizeManifestPath (p : bytes) : bytes := TrimPrefix p s_slash.

(** [p] at its last slash: directory and base. *)
Definition split_last (p : bytes) : bytes * bytes :=
  match LastIndexByte p slash with
  | Some i => (take i p, drop (S i) p)
  | None => ([], p)
  end.

Definition emptyDir : Dir := MkDir [] [].

(** [found] and the append of [ensureParentDirs]. *)
Definition add_subdir (child : bytes) (d : Dir) : Dir :=
  if bool_decide (child ∈ d_SubDirs d) then d else MkDir (d_Files d) (d_SubDirs d ++ [child]).

Definition upd_dir (f : Dir -> Dir) (k : bytes) (D : gmap bytes Dir) : gmap bytes Dir :=
  <[k := f (default emptyDir (D !! k))]> D.

(** The loop of [ensureParentDirs]: [pre] are the parts already done. *)
Fixpoint parents (pre parts : list bytes) (D : gmap bytes Dir) : gmap bytes Dir :=
  match parts with
  | [] => D
  | child :: rest => parents (pre ++ [child]) rest (upd_dir (add_subdir child) (GoStr.Join s_slash pre) D)
  end.

Definition ensureParentDirs (D : gmap bytes Dir) (dirPath : bytes) : gmap bytes Dir :=
  parents [] (Split slash dirPath) D.

Definition add_stats (s : ManifestStats) (size : Z) : ManifestStats :=
  MkStats (int64 (s_FileCount s + 1)) (int64 (s_TotalSize s + size)) (s_NewFiles s) (s_ChangedFiles s)
    (s_UnchangedFiles s) (s_DeletedFiles s) (s_NewBytes s) (s_ScanErrors s).

Definition AddFile (m : Manifest) (entry : FileEntry) : Manifest :=
  let p := normalizeManifestPath (f_Name entry) in
  let '(dir, base) := split_last p in
  let D1 := upd_dir (fun d => MkDir (d_Files d ++ [set_name entry base]) (d_SubDirs d)) dir (m_Dirs m) in
  let s := add_stats (m_Stats m) (f_Size entry) in
  let D2 := if eqs dir [] then D1 else ensureParentDirs D1 dir in
  set_dirs m D2 s.

Definition AddEmptyDir (m : Manifest) (relPath : bytes) : Manifest :=
  let p := normalizeManifestPath relPath in
  if eqs p [] then m
  else
    let '(parentDir, dirName) := split_last p in
    if eqs dirName [] then m
    else
      let D1 := match m_Dirs m !! p with Some _ => m_Dirs m | None => <[p := emptyDir]> (m_Dirs m) end in
      let D2 := if negb (eqs parentDir []) then ensureParentDirs D1 p else upd_dir (add_subdir dirName) [] D1 in
      set_dirs m D2 (m_Stats m).

(** The path of a file in a directory, as [BuildFileMap], [AllFiles] and
    [FindFile] build it. *)
Definition full_path (dir name : bytes) : bytes := if eqs dir [] then name else dir ++ s_slash ++ name.

Definition dir_entries (kd : bytes * Dir) : list FileEntry :=
  (fun f => set_name f (full_path kd.1 (f_Name f))) <$> d_Files kd.2.

Definition AllFiles (m : Manifest) : list FileEntry := map_to_list (m_Dirs m) ≫= dir_entries.

(** [result[path] = entry] in iteration order: a later entry replaces. *)
Definition BuildFileMap (m : Manifest) : gmap bytes FileEntry :=
  foldl (fun acc f => <[f_Name f := f]> acc) ∅ (AllFiles m).

Definition FindFile (m : Manifest) (filePath : bytes) : option FileEntry :=
  let '(dirPath, fileName) := split_last filePath in
  match m_Dirs m !! dirPath with
  | None => None
  | Some d =>
      match list_find (fun f => f_Name f = fileName) (d_Files d) with
      | Some (_, f) => Some (set_name f (full_path dirPath (f_Name f)))
      | None => None
      end
  end.

Definition toggleLeadingDot (p : bytes) : bytes :=
  if eqs p [] then p
  else
    let '(dir, rest) := match IndexByte p slash with
      | Some i => (take i p, drop i p)
      | None => (p, [])
      end in
    if HasPrefix dir s_dot then drop 1 dir ++ rest else s_dot ++ dir ++ rest.

Definition FindFileTolerant (m : Manifest) (filePath : bytes) : option FileEntry :=
  let fileMap := BuildFileMap m in
  let alt := toggleLeadingDot filePath in
  match (if negb (eqs alt filePath) then fileMap !! alt else None) with
  | Some e => Some e
  | None =>
      let lower := ToLower filePath in
      let altLower := if negb (eqs alt filePath) then ToLower alt else lower in
      match list_find (fun kv => ToLower kv.1 = lower \/ ToLower kv.1 = altLower) (map_to_list fileMap) with
      | Some (_, kv) => Some kv.2
      | None => None
      end
  end.

(** ** The alive index *)

Record AliveIndex := MkAlive { a_Version : Z; a_Hashes : list bytes }.

Definition file_hashes (f : FileEntry) : list bytes :=
  match f_Chunks f with
  | [] => if eqs (f_ContentHash f) [] then [] else [f_ContentHash f]
  | cs => c_Hash <$> cs
  end.

Definition ManifestToAliveIndex (m : Manifest) : AliveIndex :=
  MkAlive 1 (map_to_list (m_Dirs m) ≫= fun kd => d_Files kd.2 ≫= file_hashes).

(** ** manifest_validate.go *)

Definition FileStatusNew := go "new".
Definition FileStatusChanged := go "changed".
Definition FileStatusUnchanged := go "unchanged".
Definition FileStatusLocked := go "locked".
Definition FileStatusError := go "error".
Definition SnapshotComplete := go "complete".
Definition SnapshotIncomplete := go "incomplete".

Definition bad_status (f : FileEntry) : bool :=
  eqs (f_Status f) FileStatusLocked || eqs (f_Status f) FileStatusError.

Definition IsRestorable (f : FileEntry) : bool :=
  if bad_status f then false else negb (eqs (f_ContentHash f) []).

Definition DeriveCompleteness (m : Manifest) : bytes :=
  if 0 <? s_ScanErrors (m_Stats m) then SnapshotIncomplete
  else if existsb (fun kd => existsb bad_status (d_Files kd.2)) (map_to_list (m_Dirs m)) then SnapshotIncomplete
  else SnapshotComplete.

Definition EffectiveCompleteness (m : Manifest) : bytes :=
  if negb (eqs (m_Completeness m) []) then m_Completeness m else DeriveCompleteness m.

Definition IsComplete (m : Manifest) : bool := eqs (EffectiveCompleteness m) SnapshotComplete.

Inductive verr :=
| VAbsolute | VNotNormalized | VEmptySegment | VDotSegment | VColon
| VEmptyName | VSeparator | VDotName
| VDirKey (dir : bytes) (e : verr) | VName (dir : bytes) (e : verr) | VDuplicate (dir name : bytes)
| VNegativeSize (name : bytes) | VNegativeChunk (name : bytes) | VChunkSum (name : bytes)
| VSubDir (dir sub : bytes) (e : verr) | VDangling (dir sub : bytes)
| VFileCount (n : Z) | VTotalSize (n : Z)
| VNil | VVersion | VSourceID | VSourcePath | VDeviceID | VTimestamp | VCloudID | VHash (name : bytes).

Definition check (b : bool) (e : verr) : result verr unit := if b then Err e else Ok tt.

(** The first failing check of a list decides. *)
Fixpoint checks {A} (f : A -> result verr unit) (l : list A) : result verr unit :=
  match l with [] => Ok tt | x :: l' => f x ≫= fun _ => checks f l' end.

Definition validateManifestDirKey (dirPath : bytes) : result verr unit :=
  if eqs dirPath [] then Ok tt
  else if HasPrefix dirPath s_slash then Err VAbsolute
  else if ContainsByte dirPath backslash || IsAbs dirPath then Err VNotNormalized
  else checks (fun seg =>
    if eqs seg [] then Err VEmptySegment
    else if eqs seg s_dot || eqs seg s_dotdot then Err VDotSegment
    else if ContainsByte seg colon then Err VColon
    else Ok tt) (Split slash dirPath).

Definition validateManifestEntryName (name : bytes) : result verr unit :=
  if eqs name [] then Err VEmptyName
  else if ContainsAny name [slash; backslash] then Err VSeparator
  else if eqs name s_dot || eqs name s_dotdot then Err VDotName
  else Ok tt.

Definition isSHA256Hex (s : bytes) : bool :=
  if negb (blen s =? 64) then false
  else forallb (fun c => negb (((b2z c <? 48) || (57 <? b2z c)) && ((b2z c <? 97) || (102 <? b2z c))
                               && ((b2z c <? 65) || (70 <? b2z c)))) s.

Definition wrap_name (f : verr -> verr) (r : result verr unit) : result verr unit :=
  match r with Ok a => Ok a | Err e => Err (f e) end.

Definition chunk_sum (cs : list ChunkRef) : Z := foldl (fun acc c => int64 (acc + c_Size c)) 0 cs.

Definition check_file (dir : bytes) (f : FileEntry) : result verr unit :=
  check (f_Size f <? 0) (VNegativeSize (f_Name f)) ≫= fun _ =>
  check (existsb (fun c => c_Size c <? 0) (f_Chunks f)) (VNegativeChunk (f_Name f)) ≫= fun _ =>
  check (match f_Chunks f with [] => false | _ => true end && IsRestorable f
         && negb (chunk_sum (f_Chunks f) =? f_Size f)) (VChunkSum (f_Name f)).

(** The file loop of one directory, with [seenNames]. *)
Fixpoint check_files (dir : bytes) (seen : gset bytes) (fs : list FileEntry) : result verr unit :=
  match fs with
  | [] => Ok tt
  | f :: fs' =>
      wrap_name (VName dir) (validateManifestEntryName (f_Name f)) ≫= fun _ =>
      check (bool_decide (f_Name f ∈ seen)) (VDuplicate dir (f_Name f)) ≫= fun _ =>
      check_file dir f ≫= fun _ =>
      check_files dir ({[f_Name f]} ∪ seen) fs'
  end.

Definition check_dir (D : gmap bytes Dir) (kd : bytes * Dir) : result verr unit :=
  let '(dirPath, d) := kd in
  wrap_name (VDirKey dirPath) (validateManifestDirKey dirPath) ≫= fun _ =>
  check_files dirPath ∅ (d_Files d) ≫= fun _ =>
  checks (fun s =>
    wrap_name (VSubDir dirPath s) (validateManifestEntryName s) ≫= fun _ =>
    check (match D !! full_path dirPath s with None => true | Some _ => false end) (VDangling dirPath s))
    (d_SubDirs d).

Definition count_files (D : gmap bytes Dir) : Z :=
  foldr (fun kd acc => int64 (acc + Z.of_nat (length (d_Files kd.2)))) 0 (map_to_list D).
Definition sum_sizes (D : gmap bytes Dir) : Z :=
  foldr (fun kd acc => foldl (fun a f => int64 (a + f_Size f)) acc (d_Files kd.2)) 0 (map_to_list D).

Definition ValidateStructure (m : Manifest) : result verr unit :=
  checks (check_dir (m_Dirs m)) (map_to_list (m_Dirs m)) ≫= fun _ =>
  check (negb (s_FileCount (m_Stats m) =? count_files (m_Dirs m))) (VFileCount (s_FileCount (m_Stats m))) ≫= fun _ =>
  check (negb (s_TotalSize (m_Stats m) =? sum_sizes (m_Dirs m))) (VTotalSize (s_TotalSize (m_Stats m))).

(** * Facts *)

(** ** Checks *)

Lemma check_ok b e : check b e = Ok tt <-> b = false.
Proof. by destruct b. Qed.

Lemma checks_ok {A} (f : A -> result verr unit) l : checks f l = Ok tt <-> Forall (fun x => f x = Ok tt) l.
Proof.
  induction l as [|x l IH]; cbn [checks]; [done |]. rewrite Forall_cons, <- IH.
  destruct (f x) as [[]|]; cbn [mbind result_bind]; naive_solver.
Qed.

Lemma bind_tt (m : result verr unit) f : (m ≫= f) = Ok tt <-> m = Ok tt /\ f tt = Ok tt.
Proof. destruct m as [[]|]; cbn [mbind result_bind]; naive_solver. Qed.

Lemma wrap_ok f r : wrap_name f r = Ok tt <-> r = Ok tt.
Proof. destruct r as [[]|]; cbn; naive_solver. Qed.

(** ** Sums over the directories *)

Definition tot (g : Dir -> Z) (D : gmap bytes Dir) : Z := foldr (fun kd acc => acc + g kd.2) 0 (map_to_list D).

#[export] Instance foldr_add_perm (g : Dir -> Z) :
  Proper ((≡ₚ) ==> (=)) (foldr (fun (kd : bytes * Dir) acc => acc + g kd.2) 0).
Proof. intros l1 l2 Hp. induction Hp; cbn; lia. Qed.

Lemma tot_insert g k d D : D !! k = None -> tot g (<[k := d]> D) = tot g D + g d.
Proof. intros H. unfold tot. by rewrite map_to_list_insert. Qed.

Lemma tot_delete g k d D : D !! k = Some d -> tot g D = tot g (delete k D) + g d.
Proof.
  intros H. rewrite <- (insert_delete_id D k d H) at 1. apply tot_insert, lookup_delete_eq.
Qed.

Lemma tot_upd g f k D : g emptyDir = 0 ->
  tot g (upd_dir f k D) = tot g D - g (default emptyDir (D !! k)) + g (f (default emptyDir (D !! k))).
Proof.
  intros H0. unfold upd_dir. set (d := f _). rewrite <- insert_delete_eq, tot_insert by apply lookup_delete_eq.
  subst d. destruct (D !! k) as [d0|] eqn:E; cbn [from_option]; unfold id.
  - rewrite (tot_delete g k d0 D E). lia.
  - rewrite (delete_id D k E), H0. lia.
Qed.

Lemma count_files_tot D : count_files D = int64 (tot (fun d => Z.of_nat (length (d_Files d))) D).
Proof.
  unfold count_files, tot. induction (map_to_list D) as [|kd l IH]; cbn [foldr]; [done |].
  by rewrite IH, int64_add.
Qed.

Definition size_of (fs : list FileEntry) : Z := foldr (fun f acc => f_Size f + acc) 0 fs.

Lemma foldl_sizes fs a : foldl (fun a f => int64 (a + f_Size f)) (int64 a) fs = int64 (a + size_of fs).
Proof.
  revert a. induction fs as [|f fs IH]; intros a; cbn [foldl size_of foldr]; [by rewrite Z.add_0_r |].
  rewrite int64_add, IH. f_equal. unfold size_of. lia.
Qed.

Lemma sum_sizes_tot D : sum_sizes D = int64 (tot (fun d => size_of (d_Files d)) D).
Proof.
  unfold sum_sizes, tot. induction (map_to_list D) as [|kd l IH]; cbn [foldr]; [done |].
  by rewrite IH, foldl_sizes.
Qed.

Lemma size_of_app a b : size_of (a ++ b) = size_of a + size_of b.
Proof. induction a as [|f a IH]; cbn; [done |]. unfold size_of in *. cbn. lia. Qed.

(** ** What a valid manifest is *)

(** Directory [k] is well formed on its own. *)
Definition local_ok (k : bytes) (d : Dir) : Prop :=
  validateManifestDirKey k = Ok tt /\ check_files k ∅ (d_Files d) = Ok tt /\
  Forall (fun s => validateManifestEntryName s = Ok tt) (d_SubDirs d).

(** Every listed subdirectory has an entry, or is one of [pending]. *)
Definition refs_ok (pending : bytes -> Prop) (D : gmap bytes Dir) : Prop :=
  forall k d s, D !! k = Some d -> s ∈ d_SubDirs d -> is_Some (D !! full_path k s) \/ pending (full_path k s).

Definition dirs_ok (pending : bytes -> Prop) (D : gmap bytes Dir) : Prop :=
  (forall k d, D !! k = Some d -> local_ok k d) /\ refs_ok pending D.

Definition none : bytes -> Prop := fun _ => False.

Lemma check_dir_ok D k d : check_dir D (k, d) = Ok tt <->
  local_ok k d /\ forall s, s ∈ d_SubDirs d -> is_Some (D !! full_path k s).
Proof.
  unfold check_dir, local_ok. rewrite !bind_tt, wrap_ok, checks_ok, !Forall_forall.
  setoid_rewrite bind_tt. setoid_rewrite wrap_ok. setoid_rewrite check_ok.
  assert (Hs : forall s, match D !! full_path k s with None => true | Some _ => false end = false
    <-> is_Some (D !! full_path k s)) by (intros s; destruct (D !! full_path k s); split; (done || by intros [])).
  setoid_rewrite Hs. naive_solver.
Qed.

Lemma ValidateStructure_ok m : ValidateStructure m = Ok tt <->
  dirs_ok none (m_Dirs m) /\
  s_FileCount (m_Stats m) = int64 (tot (fun d => Z.of_nat (length (d_Files d))) (m_Dirs m)) /\
  s_TotalSize (m_Stats m) = int64 (tot (fun d => size_of (d_Files d)) (m_Dirs m)).
Proof.
  unfold ValidateStructure. rewrite !bind_tt, !check_ok, !negb_false_iff, !Z.eqb_eq, count_files_tot, sum_sizes_tot.
  rewrite checks_ok, Forall_forall. unfold dirs_ok, refs_ok, none.
  assert (H : (forall kd, kd ∈ map_to_list (m_Dirs m) -> check_dir (m_Dirs m) kd = Ok tt) <->
    (forall k d, m_Dirs m !! k = Some d -> local_ok k d) /\
    (forall k d s, m_Dirs m !! k = Some d -> s ∈ d_SubDirs d -> is_Some (m_Dirs m !! full_path k s) \/ False)).
  { split.
    - intros H. split; intros k d; [intros Hk | intros s Hk Hs]; apply elem_of_map_to_list, H, check_dir_ok in Hk;
        naive_solver.
    - intros [H1 H2] [k d] Hk%elem_of_map_to_list. apply check_dir_ok. split; [by apply H1 |].
      intros s Hs. by destruct (H2 k d s Hk Hs). }
  rewrite H. naive_solver.
Qed.

(** ** Paths *)

(** A segment a directory key may have. *)
Definition good_seg (s : bytes) : Prop := normal s /\ (colon ∉ s) /\ (backslash ∉ s).

Lemma Split_elem c x s : x <> c -> x ∈ s <-> exists seg, seg ∈ Split c s /\ x ∈ seg.
Proof.
  intros Hx. induction s as [|b s IH]; cbn [Split].
  { split; [by intros ?%elem_of_nil |]. intros (seg & ->%list_elem_of_singleton & H). done. }
  rewrite elem_of_cons, IH. case_bool_decide as Hb.
  - subst. split.
    + intros [-> | (seg & ? & ?)]; [done |]. exists seg. by rewrite elem_of_cons; auto.
    + intros (seg & [-> | ?]%elem_of_cons & Hin); [by apply elem_of_nil in Hin | eauto].
  - destruct (Split c s) as [|h t] eqn:E; [by destruct (Split_nonempty c s) |]. split.
    + intros [-> | (seg & [-> | ?]%elem_of_cons & ?)].
      * exists (b :: h). split; by left.
      * exists (b :: h). split; [by left | by right].
      * exists seg. split; [by right | done].
    + intros (seg & [-> | ?]%elem_of_cons & Hin).
      * apply elem_of_cons in Hin as [-> | ?]; [by left |]. right. exists h. split; [by left | done].
      * right. exists seg. split; [by right | done].
Qed.

Lemma IsAbs_Split s : IsAbs s = true <-> s <> [] /\ head (Split slash s) = Some [].
Proof.
  destruct s as [|b s]; [split; [done | by intros []] |]. rewrite IsAbs_cons, bool_decide_eq_true. cbn [Split].
  case_bool_decide; [naive_solver |]. destruct (Split slash s) eqn:E; [by destruct (Split_nonempty slash s) |].
  cbn. naive_solver.
Qed.

Lemma validateManifestDirKey_ok k :
  validateManifestDirKey k = Ok tt <-> k = [] \/ Forall good_seg (Split slash k).
Proof.
  unfold validateManifestDirKey. destruct (eqs k []) eqn:E0; [apply eqs_true in E0; naive_solver |].
  apply eqs_false in E0. change (HasPrefix k s_slash) with (IsAbs k). destruct (IsAbs k) eqn:Ea.
  { split; [done |]. intros [-> | Hf]; [done |]. apply IsAbs_Split in Ea as [_ Hh].
    destruct (Split slash k) as [|x l]; [done |]. injection Hh as ->. apply Forall_cons in Hf as [[Hn _] _].
    by destruct Hn. }
  rewrite orb_false_r. unfold ContainsByte. case_bool_decide as Hb.
  { split; [done |]. intros [-> | Hf]; [done |]. exfalso. apply (Split_elem slash) in Hb as (seg & Hs & Hx); [|done].
    eapply Forall_forall in Hf; [|done]. by destruct Hf as (_ & _ & Hf). }
  rewrite checks_ok, !Forall_forall. split.
  - intros H. right. intros seg Hs. specialize (H seg Hs). cbn in H.
    destruct (eqs seg []) eqn:E1; [done |]. destruct (eqs seg s_dot) eqn:E2; [done |].
    destruct (eqs seg s_dotdot) eqn:E3; [done |]. apply eqs_false in E1, E2, E3. cbn [orb] in H.
    case_bool_decide; [done |]. repeat split; try done; [by eapply Split_no_sep |].
    intros Hx. apply Hb. apply (Split_elem slash); [done | eauto].
  - intros [-> | H] seg Hs; [done |]. destruct (H seg Hs) as ((? & ? & ? & ?) & Hc & _).
    rewrite !(proj2 (eqs_false _ _)) by done. cbn [orb]. by rewrite bool_decide_false.
Qed.

Lemma validateManifestEntryName_ok n :
  validateManifestEntryName n = Ok tt <-> normal n /\ (backslash ∉ n).
Proof.
  unfold validateManifestEntryName, normal. destruct (eqs n []) eqn:E1; [apply eqs_true in E1; naive_solver |].
  apply eqs_false in E1.
  assert (Hc : ContainsAny n [slash; backslash] = false <-> (slash ∉ n) /\ (backslash ∉ n)).
  { unfold ContainsAny. rewrite <- not_true_iff_false, existsb_exists. setoid_rewrite bool_decide_eq_true.
    setoid_rewrite list_elem_of_In. cbn. split.
    - intros H. split; intros Hin; apply H; [exists slash | exists backslash]; (split; [done | auto]).
    - intros [H1 H2] (x & Hx & [<- | [<- | []]]); done. }
  destruct (ContainsAny n _) eqn:Ec.
  { split; [done |]. intros ((_ & _ & _ & ?) & ?). exfalso. by assert (true = false) by (by apply Hc). }
  destruct (proj1 Hc eq_refl). destruct (eqs n s_dot) eqn:E2; [apply eqs_true in E2; naive_solver |].
  destruct (eqs n s_dotdot) eqn:E3; [apply eqs_true in E3; naive_solver |]. apply eqs_false in E2, E3.
  cbn [orb]. naive_solver.
Qed.

Lemma good_seg_name s : good_seg s -> validateManifestEntryName s = Ok tt.
Proof. intros (? & _ & ?). by apply validateManifestEntryName_ok. Qed.

Lemma Join_good_ne pre : pre <> [] -> Forall good_seg pre -> GoStr.Join s_slash pre <> [].
Proof.
  intros Hne Hf. destruct pre as [|s pre]; [done |]. eapply (Join_nonnil slash _ s); [by left |].
  apply Forall_cons in Hf as [[Hn _] _]. by apply normal_ne.
Qed.

Lemma Join_good_key pre : Forall good_seg pre -> validateManifestDirKey (GoStr.Join s_slash pre) = Ok tt.
Proof.
  intros Hf. apply validateManifestDirKey_ok. destruct pre as [|s pre]; [by left |]. right.
  unfold s_slash. rewrite Split_Join; [done | done |]. eapply Forall_impl; [done |].
  intros x (Hn & _). by apply normal_noslash.
Qed.

Lemma full_path_Join pre child : Forall good_seg pre ->
  full_path (GoStr.Join s_slash pre) child = GoStr.Join s_slash (pre ++ [child]).
Proof.
  intros Hf. unfold full_path. destruct pre as [|s pre]; [done |].
  rewrite (proj2 (eqs_false _ _)) by (by apply Join_good_ne). unfold s_slash. by rewrite Join_snoc.
Qed.

(** ** Adding parents *)

Lemma local_ok_subdir k d child : local_ok k d -> good_seg child -> local_ok k (add_subdir child d).
Proof.
  intros (H1 & H2 & H3) Hc. unfold add_subdir. case_bool_decide; [done |]. split; [done |]. split; [done |].
  cbn. apply Forall_app. split; [done |]. constructor; [by apply good_seg_name | done].
Qed.

Lemma local_ok_empty k : validateManifestDirKey k = Ok tt -> local_ok k emptyDir.
Proof. intros Hk. split; [done |]. split; [done | constructor]. Qed.

Lemma add_subdir_elem child d s : s ∈ d_SubDirs (add_subdir child d) <-> s = child \/ s ∈ d_SubDirs d.
Proof.
  unfold add_subdir. case_bool_decide; [naive_solver |]. cbn. rewrite elem_of_app, list_elem_of_singleton. tauto.
Qed.

Lemma lookup_upd f k D j d : upd_dir f k D !! j = Some d ->
  (j = k /\ d = f (default emptyDir (D !! k))) \/ (j <> k /\ D !! j = Some d).
Proof. unfold upd_dir. intros [[<- <-] | [? ?]]%lookup_insert_Some; auto. Qed.

Lemma upd_some f k D j : is_Some (D !! j) -> is_Some (upd_dir f k D !! j).
Proof. intros H. unfold upd_dir. destruct (decide (k = j)) as [-> | ?]; [rewrite lookup_insert_eq; by eexists | by rewrite lookup_insert_ne]. Qed.

(** One round of [ensureParentDirs]: the pending directory is created and the
    child becomes pending. *)
Lemma dirs_ok_parent pre child D : Forall good_seg pre -> good_seg child ->
  dirs_ok (fun p => p = GoStr.Join s_slash pre) D ->
  dirs_ok (fun p => p = GoStr.Join s_slash (pre ++ [child])) (upd_dir (add_subdir child) (GoStr.Join s_slash pre) D).
Proof.
  intros Hp Hc [Hl Hr]. set (k := GoStr.Join s_slash pre) in *. split.
  - intros j d [[-> ->] | [_ Hj]]%lookup_upd; [|by apply Hl]. apply local_ok_subdir; [|done].
    destruct (D !! k) eqn:E; [by apply Hl | by apply local_ok_empty, Join_good_key].
  - intros j d s Hj Hs. apply lookup_upd in Hj as [[-> ->] | [Hne Hj]].
    + apply add_subdir_elem in Hs as [-> | Hs]; [right; by apply full_path_Join |].
      destruct (D !! k) as [d0|] eqn:E; [|by apply elem_of_nil in Hs].
      destruct (Hr k d0 s E Hs) as [H | H]; left; [by apply upd_some |].
      rewrite H. unfold upd_dir. rewrite lookup_insert_eq. by eexists.
    + destruct (Hr j d s Hj Hs) as [H | ->]; left; [by apply upd_some |].
      unfold upd_dir. rewrite lookup_insert_eq. by eexists.
Qed.

Lemma parents_ok parts : forall pre D, Forall good_seg (pre ++ parts) ->
  dirs_ok (fun p => p = GoStr.Join s_slash pre) D -> is_Some (D !! GoStr.Join s_slash (pre ++ parts)) ->
  dirs_ok none (parents pre parts D).
Proof.
  induction parts as [|child parts IH]; intros pre D Hf Hd Hs; cbn [parents].
  - rewrite app_nil_r in Hs. destruct Hd as [Hl Hr]. split; [done |]. intros k d s Hk Hin.
    left. destruct (Hr k d s Hk Hin) as [H | ->]; done.
  - assert (E : pre ++ child :: parts = (pre ++ [child]) ++ parts) by (by rewrite <- app_assoc).
    rewrite E in *. apply IH; [done | | by apply upd_some].
    apply Forall_app in Hf as [Hf _]. apply Forall_app in Hf as [Hp Hc]. apply Forall_cons in Hc as [Hc _].
    by apply dirs_ok_parent.
Qed.

Lemma parents_tot g parts : (forall c d, g (add_subdir c d) = g d) -> g emptyDir = 0 ->
  forall pre D, tot g (parents pre parts D) = tot g D.
Proof.
  intros Hg H0. induction parts as [|c parts IH]; intros pre D; cbn [parents]; [done |].
  rewrite IH, tot_upd, Hg by done. lia.
Qed.

Lemma add_subdir_files c d : d_Files (add_subdir c d) = d_Files d.
Proof. unfold add_subdir. by case_bool_decide. Qed.

Lemma dirs_ok_weaken P Q D : (forall x, P x -> Q x) -> dirs_ok P D -> dirs_ok Q D.
Proof. intros H [H1 H2]. split; [done |]. intros k d s Hk Hs. destruct (H2 k d s Hk Hs); auto. Qed.

Lemma ensureParentDirs_ok D dir : dir <> [] -> validateManifestDirKey dir = Ok tt -> dirs_ok none D ->
  is_Some (D !! dir) -> dirs_ok none (ensureParentDirs D dir).
Proof.
  intros Hne Hk Hd Hs. apply validateManifestDirKey_ok in Hk as [-> | Hf]; [done |]. unfold ensureParentDirs.
  apply parents_ok; [done | by eapply dirs_ok_weaken; [|exact Hd] |]. cbn [app]. unfold s_slash. by rewrite Join_Split.
Qed.

(** ** Adding files and directories *)

Lemma check_files_snoc dir fs f : forall seen,
  check_files dir seen (fs ++ [f]) = Ok tt <->
  check_files dir seen fs = Ok tt /\ validateManifestEntryName (f_Name f) = Ok tt /\
  (f_Name f ∉ seen) /\ (f_Name f ∉ f_Name <$> fs) /\ check_file dir f = Ok tt.
Proof.
  induction fs as [|g fs IH]; intros seen; cbn [app check_files].
  - rewrite !bind_tt, wrap_ok, check_ok, bool_decide_eq_false. split; [|naive_solver].
    intros (? & ? & ? & _). repeat split; try done. apply not_elem_of_nil.
  - rewrite !bind_tt, IH. rewrite fmap_cons, not_elem_of_cons, not_elem_of_union, not_elem_of_singleton. naive_solver.
Qed.

(** The entry to be added fits the manifest: its directory and name are valid,
    the name is not taken, and its sizes are consistent. *)
Definition addable (m : Manifest) (entry : FileEntry) : Prop :=
  let '(dir, base) := split_last (normalizeManifestPath (f_Name entry)) in
  validateManifestDirKey dir = Ok tt /\ validateManifestEntryName base = Ok tt /\
  (base ∉ f_Name <$> d_Files (default emptyDir (m_Dirs m !! dir))) /\ check_file dir (set_name entry base) = Ok tt.

Lemma dirs_ok_add dir f D : dirs_ok none D -> validateManifestDirKey dir = Ok tt ->
  validateManifestEntryName (f_Name f) = Ok tt ->
  (f_Name f ∉ f_Name <$> d_Files (default emptyDir (D !! dir))) -> check_file dir f = Ok tt ->
  dirs_ok none (upd_dir (fun d => MkDir (d_Files d ++ [f]) (d_SubDirs d)) dir D).
Proof.
  intros [Hl Hr] Hk Hn Hd Hc.
  assert (Hloc : local_ok dir (default emptyDir (D !! dir))).
  { destruct (D !! dir) eqn:E; [by apply Hl | by apply local_ok_empty]. }
  split.
  - intros j d [[-> ->] | [_ Hj]]%lookup_upd; [|by apply Hl]. destruct Hloc as (H1 & H2 & H3).
    split; [done |]. split; [|done]. apply check_files_snoc. repeat split; done.
  - intros j d s Hj Hs. left.
    assert (Hold : exists d0, D !! j = Some d0 /\ s ∈ d_SubDirs d0).
    { apply lookup_upd in Hj as [[-> ->] | [_ Hj]]; [|eauto]. cbn in Hs.
      destruct (D !! dir) as [d0|]; [eauto | by apply elem_of_nil in Hs]. }
    destruct Hold as (d0 & Hd0 & Hs0). destruct (Hr j d0 s Hd0 Hs0) as [H | []]. by apply upd_some.
Qed.

Lemma set_name_size f n : f_Size (set_name f n) = f_Size f.
Proof. done. Qed.

Lemma AddFile_valid m entry :
  ValidateStructure m = Ok tt -> addable m entry -> ValidateStructure (AddFile m entry) = Ok tt.
Proof.
  rewrite !ValidateStructure_ok. unfold addable, AddFile.
  destruct (split_last (normalizeManifestPath (f_Name entry))) as [dir base].
  intros (Hd & Hc & Ht) (Hk & Hn & Hnew & Hf). cbn [m_Dirs m_Stats set_dirs add_stats s_FileCount s_TotalSize].
  set (D1 := upd_dir _ dir (m_Dirs m)).
  assert (H1 : dirs_ok none D1) by (by apply dirs_ok_add).
  assert (Hdir : is_Some (D1 !! dir)) by (unfold D1, upd_dir; rewrite lookup_insert_eq; by eexists).
  set (D2 := if eqs dir [] then D1 else ensureParentDirs D1 dir).
  assert (Htot : forall g, (forall c d, g (add_subdir c d) = g d) -> g emptyDir = 0 -> tot g D2 = tot g D1).
  { intros g Hg H0. unfold D2. destruct (eqs dir []); [done |]. by apply parents_tot. }
  split.
  - unfold D2. destruct (eqs dir []) eqn:E; [done |]. apply eqs_false in E. by apply ensureParentDirs_ok.
  - rewrite Htot by (try done; intros; by rewrite add_subdir_files).
    rewrite Htot by (try done; intros; by rewrite add_subdir_files).
    unfold D1. rewrite !tot_upd by done. cbn [d_Files]. rewrite size_of_app, length_app. cbn [size_of foldr length].
    rewrite Hc, Ht, !int64_add. rewrite set_name_size. split; f_equal; lia.
Qed.


(** Adding an empty directory with a valid path keeps a manifest valid. *)
Theorem addemptydir_keeps_valid m p :
  ValidateStructure m = Ok tt -> validateManifestDirKey (normalizeManifestPath p) = Ok tt ->
  ValidateStructure (AddEmptyDir m p) = Ok tt.
Proof.
  intros Hm Hk. unfold AddEmptyDir. set (q := normalizeManifestPath p) in *.
  destruct (eqs q []) eqn:E0; [done |]. apply eqs_false in E0.
  destruct (split_last q) as [parent name] eqn:Es. destruct (eqs name []) eqn:En; [done |]. apply eqs_false in En.
  apply ValidateStructure_ok in Hm as (Hd & Hc & Ht). apply ValidateStructure_ok. cbn [m_Dirs m_Stats set_dirs].
  set (D1 := match m_Dirs m !! q with Some _ => m_Dirs m | None => <[q := emptyDir]> (m_Dirs m) end).
  assert (Hq : is_Some (D1 !! q)).
  { unfold D1. destruct (m_Dirs m !! q) eqn:E; [rewrite E; by eexists | rewrite lookup_insert_eq; by eexists]. }
  assert (H1 : dirs_ok none D1).
  { unfold D1. destruct (m_Dirs m !! q) eqn:E; [done |]. destruct Hd as [Hl Hr]. split.
    - intros j d [[<- <-] | [_ Hj]]%lookup_insert_Some; [by apply local_ok_empty | by apply Hl].
    - intros j d s [[<- <-] | [_ Hj]]%lookup_insert_Some Hs; [by apply elem_of_nil in Hs |].
      left. destruct (Hr j d s Hj Hs) as [[x Hx] | []]. exists x. rewrite lookup_insert_ne; [done |]. congruence. }
  assert (Ht1 : forall g, g emptyDir = 0 -> tot g D1 = tot g (m_Dirs m)).
  { intros g Hg. unfold D1. destruct (m_Dirs m !! q) eqn:E; [done |]. rewrite tot_insert by done. lia. }
  destruct (eqs parent []) eqn:Ep; cbn [negb].
  - apply eqs_true in Ep. subst parent.
    assert (name = q /\ (slash ∉ q)) as [-> Hns].
    { unfold split_last in Es. destruct (LastIndexByte q slash) as [i|] eqn:El; [|injection Es as <-; split; [done | by apply LastIndexByte_None]].
      exfalso. injection Es as Et _. destruct i as [|i]; [|by destruct q].
      apply validateManifestDirKey_ok in Hk as [? | Hf]; [done |].
      assert (Habs : IsAbs q = true).
      { destruct q as [|b q]; [done |]. rewrite IsAbs_cons. apply bool_decide_eq_true. cbn in El.
        destruct (LastIndexByte q slash); [done |]. by case_bool_decide. }
      apply IsAbs_Split in Habs as [_ Hh]. destruct (Split slash q); [done |]. injection Hh as ->.
      apply Forall_cons in Hf as [[Hn _] _]. by destruct Hn. }
    assert (Hg : good_seg q).
    { apply validateManifestDirKey_ok in Hk as [? | Hf]; [done |]. rewrite Split_single in Hf by done.
      by apply Forall_cons in Hf as [? _]. }
    split; [|rewrite !tot_upd, !Ht1 by done; rewrite add_subdir_files; split; [rewrite Hc | rewrite Ht]; f_equal; lia].
    assert (H2 : dirs_ok (fun x => x = q) (upd_dir (add_subdir q) [] D1)).
    { apply (dirs_ok_parent [] q D1); [constructor | done |]. by eapply dirs_ok_weaken; [|exact H1]. }
    destruct H2 as [Hl Hr]. split; [done |]. intros k d s Hks Hs. left.
    destruct (Hr k d s Hks Hs) as [? | ->]; [done | by apply upd_some].
  - split; [by apply ensureParentDirs_ok |]. unfold ensureParentDirs.
    rewrite !parents_tot, !Ht1 by (try done; intros; by rewrite add_subdir_files). done.
Qed.

Lemma valid_new now sid cid name path dev : ValidateStructure (NewManifest now sid cid name path dev) = Ok tt.
Proof. done. Qed.

(** ** What a manifest lists *)

(** Everything [g] says about the files of a manifest, directory by directory. *)
Definition flat {X} (g : bytes -> FileEntry -> list X) (D : gmap bytes Dir) : list X :=
  map_to_list D ≫= fun kd => d_Files kd.2 ≫= g kd.1.

Lemma flat_insert {X} (g : bytes -> FileEntry -> list X) k d D : D !! k = None ->
  flat g (<[k := d]> D) ≡ₚ (d_Files d ≫= g k) ++ flat g D.
Proof. intros H. unfold flat. by rewrite map_to_list_insert. Qed.

Lemma flat_delete {X} (g : bytes -> FileEntry -> list X) k D :
  flat g D ≡ₚ (d_Files (default emptyDir (D !! k)) ≫= g k) ++ flat g (delete k D).
Proof.
  destruct (D !! k) as [d|] eqn:E; cbn [from_option].
  - rewrite <- (insert_delete_id D k d E) at 1. apply flat_insert, lookup_delete_eq.
  - by rewrite (delete_id D k E).
Qed.

Lemma flat_upd {X} (g : bytes -> FileEntry -> list X) f k D :
  flat g (upd_dir f k D) ≡ₚ (d_Files (f (default emptyDir (D !! k))) ≫= g k) ++ flat g (delete k D).
Proof. unfold upd_dir. rewrite <- insert_delete_eq. apply flat_insert, lookup_delete_eq. Qed.

Lemma flat_parents {X} (g : bytes -> FileEntry -> list X) parts : forall pre D, flat g (parents pre parts D) ≡ₚ flat g D.
Proof.
  induction parts as [|c parts IH]; intros pre D; cbn [parents]; [done |].
  rewrite IH, flat_upd, add_subdir_files. symmetry. apply flat_delete.
Qed.

(** Directory and name under which [AddFile] files an entry. *)
Definition home (entry : FileEntry) : bytes * bytes := split_last (normalizeManifestPath (f_Name entry)).

Lemma flat_AddFile {X} (g : bytes -> FileEntry -> list X) m e :
  flat g (m_Dirs (AddFile m e)) ≡ₚ flat g (m_Dirs m) ++ g (home e).1 (set_name e (home e).2).
Proof.
  unfold AddFile. fold (home e). destruct (home e) as [dir base]. cbn [m_Dirs set_dirs fst snd].
  assert (H : flat g (upd_dir (fun d => MkDir (d_Files d ++ [set_name e base]) (d_SubDirs d)) dir (m_Dirs m))
    ≡ₚ flat g (m_Dirs m) ++ g dir (set_name e base)).
  { rewrite flat_upd. cbn [d_Files]. rewrite bind_app, (flat_delete g dir (m_Dirs m)). cbn. rewrite app_nil_r.
    rewrite <- !app_assoc. apply Permutation_app_head, Permutation_app_comm. }
  destruct (eqs dir []); [done |]. unfold ensureParentDirs. by rewrite flat_parents.
Qed.

Lemma flat_AddFiles {X} (g : bytes -> FileEntry -> list X) es : forall m,
  flat g (m_Dirs (foldl AddFile m es)) ≡ₚ flat g (m_Dirs m) ++ (es ≫= fun e => g (home e).1 (set_name e (home e).2)).
Proof.
  induction es as [|e es IH]; intros m; cbn [foldl]; [by rewrite app_nil_r |]. rewrite IH, flat_AddFile, bind_cons. by rewrite <- app_assoc.
Qed.

Lemma flat_AddEmptyDir {X} (g : bytes -> FileEntry -> list X) m p : flat g (m_Dirs (AddEmptyDir m p)) ≡ₚ flat g (m_Dirs m).
Proof.
  unfold AddEmptyDir. set (q := normalizeManifestPath p). destruct (eqs q []); [done |]. destruct (split_last q) as [parent nm].
  destruct (eqs nm []); [done |]. cbn [m_Dirs set_dirs]. set (D1 := match m_Dirs m !! q with Some _ => _ | None => _ end).
  assert (H1 : flat g D1 ≡ₚ flat g (m_Dirs m)) by (subst D1; destruct (m_Dirs m !! q) eqn:E; [done | by rewrite flat_insert]).
  destruct (negb _); [unfold ensureParentDirs; by rewrite flat_parents |]. rewrite flat_upd, add_subdir_files, <- flat_delete. done.
Qed.

Lemma check_files_each dir fs f : f ∈ fs -> forall seen, check_files dir seen fs = Ok tt -> check_file dir f = Ok tt.
Proof.
  induction fs as [|g fs IH]; [by intros ?%elem_of_nil |]. intros Hin seen. cbn [check_files]. rewrite !bind_tt.
  intros (_ & _ & Hg & Hfs). apply elem_of_cons in Hin as [-> | Hin]; [done |]. by eapply IH.
Qed.

(** The added entry is checked: when it is chunked and restorable, its chunks
    add up to its size. *)
Lemma AddFile_checked m e : (forall k d, m_Dirs (AddFile m e) !! k = Some d -> local_ok k d) ->
  IsRestorable e = true -> f_Chunks e <> [] -> chunk_sum (f_Chunks e) = f_Size e.
Proof.
  intros Hl Hr Hc. assert (Hin : ((home e).1, set_name e (home e).2) ∈ flat (fun k f => [(k, f)]) (m_Dirs (AddFile m e))).
  { rewrite flat_AddFile. apply elem_of_app. right. by left. }
  apply list_elem_of_bind in Hin as ([k d] & Hf & Hk). apply list_elem_of_bind in Hf as (f & E%list_elem_of_singleton & Hf). injection E as Ek Ef. cbn [fst snd] in *. subst k f.
  apply elem_of_map_to_list in Hk. destruct (Hl _ _ Hk) as (_ & Hch & _). pose proof (check_files_each _ _ _ Hf _ Hch) as Hcf.
  unfold check_file in Hcf. rewrite !bind_tt, !check_ok in Hcf. destruct Hcf as (_ & _ & Hs).
  change (IsRestorable (set_name e _)) with (IsRestorable e) in Hs. cbn [f_Chunks f_Size set_name] in Hs. rewrite Hr in Hs.
  destruct (f_Chunks e) eqn:E; [done |]. rewrite <- E in *. cbn [andb] in Hs. by apply negb_false_iff, Z.eqb_eq in Hs.
Qed.

Lemma AllFiles_flat m : AllFiles m = flat (fun k f => [set_name f (full_path k (f_Name f))]) (m_Dirs m).
Proof.
  unfold AllFiles, flat. apply list_bind_ext; [|done]. intros [k d]. unfold dir_entries. cbn.
  induction (d_Files d) as [|f fs IH]; [done |]. cbn. by rewrite IH.
Qed.

Lemma alive_flat m : a_Hashes (ManifestToAliveIndex m) = flat (fun _ f => file_hashes f) (m_Dirs m).
Proof. done. Qed.

(** The entry as the manifest reports it, under its full path. *)
Definition listed_as (e : FileEntry) : FileEntry := set_name e (full_path (home e).1 (home e).2).

(** A manifest built by adding any sequence of files lists exactly those
    files, each under its normalised path, and its alive index is exactly the
    blobs they reference: no referenced blob is missing from it (so none can be
    collected) and nothing else is kept. *)
Theorem manifest_build_exact now sid cid name path dev es :
  let m := foldl AddFile (NewManifest now sid cid name path dev) es in
  AllFiles m ≡ₚ listed_as <$> es /\ a_Hashes (ManifestToAliveIndex m) ≡ₚ es ≫= file_hashes.
Proof.
  cbv zeta. induction es as [|e es IH] using rev_ind; [done |]. destruct IH as [IH1 IH2].
  rewrite foldl_app. cbn [foldl]. set (m := foldl AddFile _ es) in *.
  rewrite AllFiles_flat, alive_flat, !flat_AddFile, <- AllFiles_flat, <- alive_flat, IH1, IH2.
  rewrite fmap_app, bind_app. cbn. by rewrite app_nil_r.
Qed.

(** ** Finding files *)

Definition files_at (D : gmap bytes Dir) (k : bytes) : list FileEntry := d_Files (default emptyDir (D !! k)).

Lemma FindFile_files m q : FindFile m q =
  let '(d, n) := split_last q in
  (fun x => set_name x.2 (full_path d (f_Name x.2))) <$> list_find (fun f => f_Name f = n) (files_at (m_Dirs m) d).
Proof.
  unfold FindFile, files_at. destruct (split_last q) as [d n]. destruct (m_Dirs m !! d); [|done]. cbn [from_option].
  unfold id. by destruct (list_find _ _) as [[i f]|].
Qed.

Lemma files_at_parents parts k : forall pre D, files_at (parents pre parts D) k = files_at D k.
Proof.
  induction parts as [|c parts IH]; intros pre D; cbn [parents]; [done |]. rewrite IH. unfold files_at, upd_dir.
  destruct (decide (GoStr.Join s_slash pre = k)) as [<- | Hne]; [|by rewrite lookup_insert_ne].
  rewrite lookup_insert_eq. cbn [from_option]. unfold id. apply add_subdir_files.
Qed.

Lemma files_at_AddFile m e k :
  files_at (m_Dirs (AddFile m e)) k =
  if bool_decide (k = (home e).1) then files_at (m_Dirs m) k ++ [set_name e (home e).2] else files_at (m_Dirs m) k.
Proof.
  unfold AddFile. fold (home e). destruct (home e) as [dir base]. cbn [m_Dirs set_dirs fst snd].
  assert (H : files_at (upd_dir (fun d => MkDir (d_Files d ++ [set_name e base]) (d_SubDirs d)) dir (m_Dirs m)) k
    = if bool_decide (k = dir) then files_at (m_Dirs m) k ++ [set_name e base] else files_at (m_Dirs m) k).
  { unfold files_at, upd_dir. case_bool_decide as Hk; [subst; by rewrite lookup_insert_eq | by rewrite lookup_insert_ne]. }
  destruct (eqs dir []); [done |]. unfold ensureParentDirs. by rewrite files_at_parents.
Qed.

Lemma list_find_name_app n (fs : list FileEntry) e : f_Name e = n -> n ∉ f_Name <$> fs ->
  snd <$> list_find (fun f => f_Name f = n) (fs ++ [e]) = Some e.
Proof.
  intros He Hn. induction fs as [|f fs IH]; cbn.
  - by rewrite decide_True.
  - rewrite fmap_cons, not_elem_of_cons in Hn. destruct Hn as [H1 H2]. rewrite decide_False by congruence.
    specialize (IH H2). by destruct (list_find _ (fs ++ [e])) as [[i g]|].
Qed.

Lemma list_find_name_other n (fs : list FileEntry) e : f_Name e <> n ->
  snd <$> list_find (fun f => f_Name f = n) (fs ++ [e]) = snd <$> list_find (fun f => f_Name f = n) fs.
Proof.
  intros He. induction fs as [|f fs IH]; cbn; [by rewrite decide_False |]. case_decide; [done |].
  destruct (list_find _ (fs ++ [e])) as [[i g]|], (list_find _ fs) as [[j g']|]; cbn in *; congruence.
Qed.

(** Lookup after insert: a file just added under a name that was free is
    found under its path with all its attributes, and every other path finds
    what it found before. *)
Theorem find_added m e q :
  addable m e ->
  FindFile (AddFile m e) q =
    if bool_decide (split_last q = home e) then Some (listed_as e) else FindFile m q.
Proof.
  intros Ha. rewrite !FindFile_files. unfold addable in Ha. fold (home e) in Ha. unfold listed_as.
  destruct (split_last q) as [d n] eqn:Eq. rewrite files_at_AddFile. destruct (home e) as [dir base].
  cbn [fst snd]. destruct Ha as (_ & _ & Hn & _). fold (files_at (m_Dirs m) dir) in Hn.
  assert (Hsnd : forall o : option (nat * FileEntry), (fun x => set_name x.2 (full_path d (f_Name x.2))) <$> o
    = (fun f => set_name f (full_path d (f_Name f))) <$> (snd <$> o)) by (by intros [[]|]).
  rewrite !Hsnd. case_bool_decide as Hd; [subst d|].
  - destruct (decide (n = base)) as [-> | Hne].
    + rewrite bool_decide_true, list_find_name_app by done. done.
    + rewrite bool_decide_false by congruence. by rewrite list_find_name_other by (cbn; congruence).
  - by rewrite bool_decide_false by congruence.
Qed.

(** The entry fits any manifest that does not have its name yet. *)
Definition fits_any (e : FileEntry) : Prop :=
  validateManifestDirKey (home e).1 = Ok tt /\ validateManifestEntryName (home e).2 = Ok tt /\
  check_file (home e).1 (set_name e (home e).2) = Ok tt.

(** Adding files under different names keeps a manifest valid. *)
Lemma AddFiles_valid es : forall m, ValidateStructure m = Ok tt -> Forall fits_any es -> NoDup (home <$> es) ->
  (forall e, e ∈ es -> (home e).2 ∉ f_Name <$> files_at (m_Dirs m) (home e).1) ->
  ValidateStructure (foldl AddFile m es) = Ok tt.
Proof.
  induction es as [|e es IH]; intros m Hm Hf Hn Hnew; cbn [foldl]; [done |].
  apply Forall_cons in Hf as [(H1 & H2 & H3) Hf]. apply NoDup_cons in Hn as [He Hn]. apply IH; [| done | done |].
  - apply AddFile_valid; [done |]. unfold addable. fold (home e). pose proof (Hnew e ltac:(by left)) as Hx. destruct (home e) as [dir base]. done.
  - intros e' He'. rewrite files_at_AddFile. pose proof (Hnew e' ltac:(by right)) as Hx. case_bool_decide as Hk; [|done].
    rewrite fmap_app, elem_of_app. intros [? | Hb%list_elem_of_singleton]; [done |]. cbn in Hb.
    apply He, list_elem_of_fmap. exists e'. split; [|done]. rewrite (surjective_pairing (home e)), (surjective_pairing (home e')). by rewrite Hk, Hb.
Qed.

(** Toggling the leading dot also changes a path of one segment. *)
Lemma toggle_single_segment p : p <> [] -> slash ∉ p -> toggleLeadingDot p <> p.
Proof.
  intros Hne Hns. unfold toggleLeadingDot. rewrite (proj2 (eqs_false _ _)) by done.
  destruct (IndexByte p slash) as [i|] eqn:E.
  { exfalso. revert i E. induction p as [|b p IH]; intros i E; [done |]. apply not_elem_of_cons in Hns as [Hb Hns].
    cbn in E. rewrite bool_decide_false in E by congruence. destruct (IndexByte p slash) as [j|] eqn:Ej; [|done].
    destruct p as [|c p]; [done |]. by apply (IH ltac:(done) Hns j). }
  rewrite !app_nil_r. destruct p as [|b p]; [done |]. go_if.
  - cbn. intros H. apply (f_equal length) in H. rewrite length_drop in H. cbn in H. lia.
  - intros H. apply (f_equal length) in H. cbn in H. lia.
Qed.

(** ** Witnesses *)

Module ManifestWitness.

Definition m0 : Manifest := NewManifest (go "2026-01-02T03:04:05Z") 7 [] (go "home") (go "/home") (go "dev1").
Definition e0 : FileEntry :=
  MkFileEntry (go "/docs/work/a.txt") (go "h1") 10 [] 420 FileStatusNew [MkChunkRef (go "c1") 6; MkChunkRef (go "c2") 4].
Definition m1 : Manifest := AddFile m0 e0.
Definition e1 : FileEntry := MkFileEntry (go "docs/b.txt") (go "h2") 3 [] 420 FileStatusNew [].


Lemma addemptydir_keeps_valid_witness : ValidateStructure (AddEmptyDir m1 (go "docs/empty")) = Ok tt.
Proof. apply addemptydir_keeps_valid; by vm_compute. Defined.

Lemma find_added_witness : FindFile (AddFile m1 e1) (go "docs/b.txt") = Some (listed_as e1).
Proof.
  rewrite (find_added m1 e1 (go "docs/b.txt")); [by vm_compute |].
  repeat split; try (by vm_compute); by_decide.
Defined.

End ManifestWitness.
