(* ===== verification/CloudID.v ===== *)
(** CloudID: manifest keys ([simple/manifest.go], from [ManifestDir] to
    [StructuredCloudID]).

    [range] over a string yields runes; the characters [invalidCloudIDChar]
    rejects are ASCII, and no byte of a multi-byte rune is, so the check is on
    bytes here. *)

From S2P Require Import Prelude GoStr.
From stdpp Require Import base list gmap strings.
From Stdlib.Strings Require Import Byte.
Local Open Scope Z_scope.

Definition ManifestDir (metaDir cloudID : bytes) : bytes := FpJoin [metaDir; go "manifests"; cloudID].

Definition MaxCloudIDLength : Z := 1024.

Definition windowsReservedNames : list bytes :=
  [go "CON"; go "PRN"; go "AUX"; go "NUL";
   go "COM1"; go "COM2"; go "COM3"; go "COM4"; go "COM5"; go "COM6"; go "COM7"; go "COM8"; go "COM9";
   go "LPT1"; go "LPT2"; go "LPT3"; go "LPT4"; go "LPT5"; go "LPT6"; go "LPT7"; go "LPT8"; go "LPT9"].

Definition invalidCloudIDChar (r : byte) : bool :=
  (b2z r <? 32) || (b2z r =? 127) || bool_decide (r ∈ [x3a; x2a; x3f]).

Definition isWindowsReservedName (seg : bytes) : bool :=
  let base := match IndexByte seg dot with Some i => take i seg | None => seg end in
  let base := TrimRight base (go " .") in
  if eqs base [] then false else bool_decide (ToUpper base ∈ windowsReservedNames).

Inductive ciderr := CEmpty | CTooLong | CAbsolute | CDrive | CChar | CEmptySegment | CRelative | CReserved.

#[export] Instance ciderr_eq_dec : EqDecision ciderr.
Proof. solve_decision. Defined.

(** [len(s) >= 2 && s[1] == ':'] after a letter. *)
Definition has_drive (s : bytes) : bool :=
  match s with a :: b :: _ => bool_decide (b = colon) && is_alpha a | _ => false end.

Fixpoint check_segments (segs : list bytes) : option ciderr :=
  match segs with
  | [] => None
  | seg :: rest =>
      if eqs seg [] then Some CEmptySegment
      else
        let trimmed := TrimSpace seg in
        if eqs trimmed s_dot || eqs trimmed s_dotdot then Some CRelative
        else if isWindowsReservedName trimmed then Some CReserved
        else check_segments rest
  end.

Definition to_slash (s : bytes) : bytes := (fun c => if bool_decide (c = backslash) then slash else c) <$> s.

Definition validateCloudID (cloudID : bytes) : option ciderr :=
  if eqs cloudID [] then Some CEmpty
  else if MaxCloudIDLength <? blen cloudID then Some CTooLong
  else if HasPrefix cloudID s_slash || HasPrefix cloudID [backslash] then Some CAbsolute
  else if has_drive cloudID then Some CDrive
  else if existsb invalidCloudIDChar cloudID then Some CChar
  else check_segments (Split slash (to_slash cloudID)).

Definition ManifestPathKey (fingerprint sourceID : bytes) : bytes := fingerprint ++ s_slash ++ sourceID.

Definition ResolveCloudID (deviceID : bytes) (sourceID : Z) : bytes :=
  if eqs deviceID [] then FormatInt sourceID else ManifestPathKey deviceID (FormatInt sourceID).

(** ** base64.RawURLEncoding *)

Definition b64_char (n : Z) : byte :=
  if n <? 26 then z2b (65 + n) else if n <? 52 then z2b (71 + n) else if n <? 62 then z2b (n - 4)
  else if n =? 62 then x2d else x5f.

Definition b64_val (c : byte) : option Z :=
  let v := b2z c in
  if (65 <=? v) && (v <=? 90) then Some (v - 65)
  else if (97 <=? v) && (v <=? 122) then Some (v - 71)
  else if (48 <=? v) && (v <=? 57) then Some (v + 4)
  else if v =? 45 then Some 62 else if v =? 95 then Some 63 else None.

Fixpoint b64_encode (l : bytes) : bytes :=
  match l with
  | a :: b :: c :: rest =>
      b64_char (b2z a / 4) :: b64_char (b2z a mod 4 * 16 + b2z b / 16) ::
      b64_char (b2z b mod 16 * 4 + b2z c / 64) :: b64_char (b2z c mod 64) :: b64_encode rest
  | [a; b] => [b64_char (b2z a / 4); b64_char (b2z a mod 4 * 16 + b2z b / 16); b64_char (b2z b mod 16 * 4)]
  | [a] => [b64_char (b2z a / 4); b64_char (b2z a mod 4 * 16)]
  | [] => []
  end.

(** Decoding four values at a time; the bits past the last byte are ignored, a
    single left-over character is an error. *)
Fixpoint b64_join (l : list Z) : option bytes :=
  match l with
  | p :: q :: r :: s :: rest =>
      d ← b64_join rest;
      Some (z2b (p * 4 + q / 16) :: z2b (q mod 16 * 16 + r / 4) :: z2b (r mod 4 * 64 + s) :: d)
  | [p; q; r] => Some [z2b (p * 4 + q / 16); z2b (q mod 16 * 16 + r / 4)]
  | [p; q] => Some [z2b (p * 4 + q / 16)]
  | [_] => None
  | [] => Some []
  end.

(** Line breaks in the input are skipped. *)
Definition b64_decode (s : bytes) : option bytes :=
  vals ← mapM b64_val (filter (fun c => c <> x0a /\ c <> x0d) s);
  b64_join vals.

Definition EncodeCloudIDSegment (deviceID : bytes) : bytes := b64_encode deviceID.
Definition DecodeCloudIDSegment (s : bytes) : option bytes := b64_decode s.

Definition StructuredCloudID (deviceID : bytes) (sourceID : Z) : bytes :=
  if eqs deviceID [] then FormatInt sourceID else EncodeCloudIDSegment deviceID ++ s_slash ++ FormatInt sourceID.

(** * Facts *)

Lemma check_segments_none l : check_segments l = None -> Forall (fun s => s <> [] /\ TrimSpace s <> s_dot /\ TrimSpace s <> s_dotdot) l.
Proof.
  induction l as [|s l IH]; [constructor |]. cbn. destruct (eqs s []) eqn:E; [done |].
  destruct (eqs (TrimSpace s) s_dot) eqn:E1; [done |]. destruct (eqs (TrimSpace s) s_dotdot) eqn:E2; [done |]. cbn.
  destruct (isWindowsReservedName _); [done |]. apply eqs_false in E, E1, E2. constructor; [done | auto].
Qed.

Lemma to_slash_app a b : to_slash (a ++ b) = to_slash a ++ to_slash b.
Proof. apply fmap_app. Qed.

Lemma to_slash_Join l : to_slash (GoStr.Join s_slash l) = GoStr.Join s_slash (to_slash <$> l).
Proof.
  induction l as [|s [|x l] IH]; [done | done |].
  change (GoStr.Join s_slash (s :: x :: l)) with (s ++ s_slash ++ GoStr.Join s_slash (x :: l)).
  rewrite !to_slash_app, IH. done.
Qed.

Lemma Split_Join_gen c l : l <> [] -> Split c (GoStr.Join [c] l) = l ≫= Split c.
Proof.
  induction l as [|s [|x l] IH]; [done | |]; intros _.
  - cbn. by rewrite app_nil_r.
  - change (GoStr.Join [c] (s :: x :: l)) with (s ++ c :: GoStr.Join [c] (x :: l)).
    rewrite Split_app_gen, IH by done. done.
Qed.

Lemma to_slash_id s : backslash ∉ s -> to_slash s = s.
Proof.
  intros Hs. unfold to_slash. rewrite <- (list_fmap_id s) at 2. apply list_fmap_ext. intros i c Hc.
  rewrite bool_decide_false; [done |]. intros ->. apply Hs. by eapply list_elem_of_lookup_2.
Qed.

(** A separator-free piece without backslashes is checked as it is. *)
Lemma segment_checked c s : s ∈ Split slash c -> backslash ∉ s -> s ∈ Split slash (to_slash c).
Proof.
  intros Hs Hb. rewrite <- (Join_Split slash c). change [slash] with s_slash. rewrite to_slash_Join.
  unfold s_slash. rewrite Split_Join_gen by (intros E%fmap_nil_inv; by apply Split_nonempty in E).
  apply list_elem_of_bind. exists s. split.
  - rewrite Split_single by (by eapply Split_no_sep). by left.
  - rewrite <- (to_slash_id s) by done. by apply list_elem_of_fmap_2.
Qed.

Lemma valid_segments c : validateCloudID c = None -> Forall normal (Split slash c).
Proof.
  unfold validateCloudID. destruct (eqs c []); [done |]. destruct (_ <? _); [done |]. destruct (_ || _); [done |].
  destruct (has_drive c); [done |]. destruct (existsb _ c); [done |]. intros Hc%check_segments_none.
  apply Forall_forall. intros s Hs. assert (Hin : forall x, x = s -> backslash ∉ x -> x <> [] /\ TrimSpace x <> s_dot /\ TrimSpace x <> s_dotdot).
  { intros x -> Hb. rewrite Forall_forall in Hc. by apply Hc, segment_checked. }
  repeat split; [| | | by eapply Split_no_sep].
  - intros ->. destruct (Hin [] eq_refl) as (? & _); [by_decide | done].
  - intros ->. destruct (Hin s_dot eq_refl) as (_ & H & _); [by_decide |]. by apply H; vm_compute.
  - intros ->. destruct (Hin s_dotdot eq_refl) as (_ & _ & H); [by_decide |]. by apply H; vm_compute.
Qed.

Lemma FpJoin_join_pre base pre k : Forall (fun x => x <> []) pre -> k <> [] -> Forall normal k -> FpJoin (base :: pre ++ [GoStr.Join s_slash k]) = FpJoin (base :: pre ++ k).
Proof.
  intros Hx Hk Hf. unfold FpJoin.
  assert (Hj : GoStr.Join s_slash k <> []).
  { destruct k as [|s k]; [done |]. apply (Join_nonnil slash _ s); [by left | apply normal_ne; by inversion Hf]. }
  assert (Hjoin : forall l : list bytes, GoStr.Join s_slash (l ++ [GoStr.Join s_slash k]) = GoStr.Join s_slash (l ++ k)).
  { intros [|a l]; [done |]. unfold s_slash. rewrite !(Join_app slash (a :: l)) by done. done. }
  assert (Hpre : filter (fun e : bytes => e <> []) pre = pre) by (induction Hx as [|x l Hn _ IH]; [done |]; by rewrite filter_cons_True, IH).
  assert (Hfilter : forall l, filter (fun e : bytes => e <> []) (l ++ pre ++ [GoStr.Join s_slash k]) = filter (fun e => e <> []) l ++ pre ++ [GoStr.Join s_slash k] /\
    filter (fun e : bytes => e <> []) (l ++ pre ++ k) = filter (fun e => e <> []) l ++ pre ++ k).
  { intros l. rewrite !filter_app, Hpre, (filter_normal k) by done. by rewrite (filter_cons_True _ (GoStr.Join s_slash k)). }
  destruct (Hfilter [base]) as [E1 E2]. cbn [app] in E1, E2. rewrite E1, E2, !app_assoc. specialize (Hjoin (filter (fun e => e <> []) [base] ++ pre)).
  destruct (filter (fun e => e <> []) [base] ++ pre) as [|a l]; cbn [app] in *; [by destruct k; rewrite Hjoin | by rewrite Hjoin].
Qed.

Lemma FpJoin_join base x k : x <> [] -> k <> [] -> Forall normal k -> FpJoin [base; x; GoStr.Join s_slash k] = FpJoin (base :: x :: k).
Proof. intros Hx Hk Hf. apply (FpJoin_join_pre base [x]); [by apply Forall_singleton | done | done]. Qed.

(** C29: a cloud identifier that passes validation stays below the manifest
    directory: it is a sequence of ordinary names (none of them empty, [.] or
    [..]), and the directory of its manifests is [metaDir/manifests] followed
    by exactly those names. *)
Theorem cloudid_confined metaDir c : validateCloudID c = None ->
  Forall normal (Split slash c) /\
  ManifestDir metaDir c = root_pre metaDir ++ GoStr.Join s_slash (root_segs metaDir ++ go "manifests" :: Split slash c).
Proof.
  intros Hc. pose proof (valid_segments c Hc) as Hn. split; [done |]. unfold ManifestDir.
  rewrite <- (Join_Split slash c) at 1. change [slash] with s_slash.
  rewrite FpJoin_join; [| by vm_compute | apply Split_nonempty | done].
  rewrite FpJoin_normal; [done | done |]. constructor; [|done]. repeat split; by_decide.
Qed.

(** ** base64 *)

Lemma b64_char_val n : 0 <= n < 64 -> b64_val (b64_char n) = Some n /\ b64_char n <> x0a /\ b64_char n <> x0d /\ b64_char n <> slash.
Proof.
  intros Hn. assert (Hin : n ∈ seqZ 0 64) by (apply elem_of_seqZ; lia). revert Hin.
  assert (Forall (fun n => b64_val (b64_char n) = Some n /\ b64_char n <> x0a /\ b64_char n <> x0d /\ b64_char n <> slash) (seqZ 0 64)) as Hf.
  { by_decide. }
  rewrite Forall_forall in Hf. apply Hf.
Qed.

(** What the encoder emits: characters that decode to values below 64. *)
Fixpoint b64_vals (l : bytes) : list Z :=
  match l with
  | a :: b :: c :: rest =>
      (b2z a / 4) :: (b2z a mod 4 * 16 + b2z b / 16) :: (b2z b mod 16 * 4 + b2z c / 64) :: (b2z c mod 64) :: b64_vals rest
  | [a; b] => [b2z a / 4; b2z a mod 4 * 16 + b2z b / 16; b2z b mod 16 * 4]
  | [a] => [b2z a / 4; b2z a mod 4 * 16]
  | [] => []
  end.

Lemma bytes_ind3 (P : bytes -> Prop) : P [] -> (forall a, P [a]) -> (forall a b, P [a; b]) ->
  (forall a b c l, P l -> P (a :: b :: c :: l)) -> forall l, P l.
Proof.
  intros H0 H1 H2 H3. fix IH 1. intros [|a [|b [|c l]]]; [done | apply H1 | apply H2 | apply H3, IH].
Qed.

Ltac bits := repeat match goal with |- context [b2z ?x] => lazymatch goal with _ : 0 <= b2z x < 256 |- _ => fail | _ => pose proof (b2z_range x) end end;
  Z.div_mod_to_equations; lia.

Lemma b64_encode_vals l : b64_encode l = b64_char <$> b64_vals l /\ Forall (fun n => 0 <= n < 64) (b64_vals l).
Proof.
  induction l as [|a|a b|a b c l [IH1 IH2]] using bytes_ind3; cbn; [done | | |].
  - split; [done |]. repeat constructor; bits.
  - split; [done |]. repeat constructor; bits.
  - rewrite IH1. split; [done |]. repeat (constructor; [bits |]). done.
Qed.

Lemma byte_eq z a : z = b2z a -> z2b z = a.
Proof. intros ->. apply z2b_b2z. Qed.

Lemma b64_join_vals l : b64_join (b64_vals l) = Some l.
Proof.
  induction l as [|a|a b|a b c l IH] using bytes_ind3; cbn [b64_vals b64_join]; [done | | |].
  - rewrite (byte_eq _ a) by bits. done.
  - rewrite (byte_eq _ a), (byte_eq _ b) by bits. done.
  - rewrite IH. cbn [mbind option_bind]. rewrite (byte_eq _ a), (byte_eq _ b), (byte_eq _ c) by bits. done.
Qed.

Lemma b64_decode_encode l : b64_decode (b64_encode l) = Some l.
Proof.
  destruct (b64_encode_vals l) as [-> Hf]. unfold b64_decode.
  assert (Hfil : filter (fun c => c <> x0a /\ c <> x0d) (b64_char <$> b64_vals l) = b64_char <$> b64_vals l).
  { induction Hf as [|n k Hn Hk IH]; [done |]. cbn [fmap list_fmap]. destruct (b64_char_val n Hn) as (_ & ? & ? & _).
    rewrite filter_cons_True by done. f_equal. exact IH. }
  rewrite Hfil. assert (Hm : mapM b64_val (b64_char <$> b64_vals l) = Some (b64_vals l)).
  { apply mapM_Some. clear Hfil. induction Hf as [|n k Hn Hk IH]; [constructor |]. constructor; [apply b64_char_val, Hn | exact IH]. }
  rewrite Hm. apply b64_join_vals.
Qed.

Lemma b64_noslash l : slash ∉ b64_encode l.
Proof.
  destruct (b64_encode_vals l) as [-> Hf]. intros (n & E & Hin)%list_elem_of_fmap. rewrite Forall_forall in Hf.
  by destruct (b64_char_val n (Hf n Hin)) as (_ & _ & _ & ?).
Qed.

Lemma FormatInt_inj a b : MinInt64 <= a <= MaxInt64 -> MinInt64 <= b <= MaxInt64 -> FormatInt a = FormatInt b -> a = b.
Proof. intros Ha Hb E. pose proof (ParseInt_FormatInt a Ha) as H. rewrite E, ParseInt_FormatInt in H by done. by injection H. Qed.

(** The structured cloud identifier loses nothing: the device segment
    decodes to the device identifier whatever bytes it has, and different
    devices or sources get different identifiers, each a device segment
    without separators, a slash and the source number. *)
Theorem structured_cloudid_injective d d' s s' : d <> [] -> d' <> [] ->
  MinInt64 <= s <= MaxInt64 -> MinInt64 <= s' <= MaxInt64 ->
  DecodeCloudIDSegment (EncodeCloudIDSegment d) = Some d /\ (slash ∉ EncodeCloudIDSegment d) /\
  (StructuredCloudID d s = StructuredCloudID d' s' -> d = d' /\ s = s').
Proof.
  intros Hd Hd' Hs Hs'. split; [apply b64_decode_encode |]. split; [apply b64_noslash |]. unfold StructuredCloudID.
  rewrite !(proj2 (eqs_false _ [])) by done. unfold EncodeCloudIDSegment, s_slash. cbn [app]. intros E.
  apply first_sep_unique in E as [E1 E2]; [| apply b64_noslash ..]. split; [|by apply FormatInt_inj].
  pose proof (b64_decode_encode d) as H. rewrite E1, b64_decode_encode in H. by injection H.
Qed.

(** An encoded device segment can be a name the validation rejects: the
    three bytes 08 E3 35 encode to the reserved name COM1. *)
Theorem encoded_segment_reserved :
  EncodeCloudIDSegment [x08; xe3; x35] = go "COM1" /\
  validateCloudID (EncodeCloudIDSegment [x08; xe3; x35]) = Some CReserved.
Proof. by split; vm_compute. Qed.

Module CloudIDWitness.
Lemma cloudid_confined_witness :
  validateCloudID (go "dev-1/42") = None /\ ManifestDir (go "/r/./m") (go "dev-1/42") = go "/r/m/manifests/dev-1/42".
Proof.
  assert (H : validateCloudID (go "dev-1/42") = None) by by vm_compute. split; [exact H |].
  rewrite (proj2 (cloudid_confined (go "/r/./m") (go "dev-1/42") H)). by vm_compute.
Defined.

Lemma structured_cloudid_injective_witness :
  DecodeCloudIDSegment (EncodeCloudIDSegment (go "a/b")) = Some (go "a/b") /\ StructuredCloudID (go "a/b") 7 <> StructuredCloudID (go "a") 7.
Proof.
  destruct (structured_cloudid_injective (go "a/b") (go "a") 7 7) as (H1 & _ & H3); [done | done | by vm_compute.. |].
  split; [exact H1 |]. intros E. by destruct (H3 E) as [? _].
Defined.
End CloudIDWitness.
