(* ===== verification/FlexTime.v ===== *)
(** FlexTime: modification times in manifests ([FlexTime.UnmarshalJSON],
    [FileEntry.MtimeMicro] of [simple/manifest.go]) and the calendar behind
    [time.RFC3339Nano].

    An instant is its number of nanoseconds since 1970.  Dates are computed with
    the cycles of 400, 100, 4 and 1 years that the [time] package uses, for any
    instant.  Parsing stays the parameter [Rfc3339] of [Externs], with the
    documented law that a formatted instant parses; [utc_parse] below satisfies
    it.  Decoding a quoted JSON string is the parameter [JsonString]; numbers are
    decoded here, as [json.Number]. *)

From S2P Require Import Prelude GoStr Externs Manifest.
From stdpp Require Import base list strings.
From Stdlib.Strings Require Import Byte.
Local Open Scope Z_scope.

(** ** The calendar *)

Definition leap (y : Z) : bool := (y mod 4 =? 0) && (negb (y mod 100 =? 0) || (y mod 400 =? 0)).

(** The year and the day of the year of a number of days since 1970-01-01. *)
Definition year_day (days : Z) : Z * Z :=
  let d := days + 719162 in
  let n400 := d / 146097 in let d := d - 146097 * n400 in
  let n100 := d / 36524 in let n100 := n100 - n100 / 4 in let d := d - 36524 * n100 in
  let n4 := d / 1461 in let d := d - 1461 * n4 in
  let n := d / 365 in let n := n - n / 4 in let d := d - 365 * n in
  (400 * n400 + 100 * n100 + 4 * n4 + n + 1, d).

(** Days before each month of a common year. *)
Definition daysBefore : list Z := [0; 31; 59; 90; 120; 151; 181; 212; 243; 273; 304; 334; 365].
Definition before (m : Z) : Z := default 0 (daysBefore !! Z.to_nat m).

(** The month, from 1, and the day of the month of a day of the year. *)
Definition month_day (isLeap : bool) (yday : Z) : Z * Z :=
  if isLeap && (yday =? 59) then (2, 29)
  else
    let day := if isLeap && (59 <? yday) then yday - 1 else yday in
    let month := day / 31 in
    let end_ := before (month + 1) in
    if end_ <=? day then (month + 2, day - end_ + 1) else (month + 1, day - before month + 1).

(** Days from 1970-01-01 to the first day of a year, and the day of the year of
    a date, as [time.Date] computes them. *)
Definition year_start (y : Z) : Z :=
  let y := y - 1 in
  146097 * (y / 400) + 36524 * (y mod 400 / 100) + 1461 * (y mod 100 / 4) + 365 * (y mod 4) - 719162.
Definition day_of_year (y m d : Z) : Z := before (m - 1) + (if leap y && (2 <? m) then 1 else 0) + d - 1.

(** ** time.RFC3339Nano *)

Definition second : Z := 10 ^ 9.
Definition day_ns : Z := 86400 * second.

Definition dig (n : Z) : byte := z2b (48 + n mod 10).
Definition two (n : Z) : bytes := [dig (n / 10); dig n].

(** A year: at least four digits, after a sign if it is negative. *)
Definition year_text (y : Z) : bytes :=
  (if y <? 0 then [x2d] else []) ++
  (if Z.abs y <? 10000 then [dig (Z.abs y / 1000); dig (Z.abs y / 100); dig (Z.abs y / 10); dig (Z.abs y)] else FormatInt (Z.abs y)).

(** The digits of a fraction of which the first weighs [w], without the zeros at
    its end. *)
Fixpoint frac_text (k : nat) (w n : Z) : bytes :=
  match k with
  | O => []
  | S k' => if n =? 0 then [] else dig (n / w) :: frac_text k' (w / 10) (n mod w)
  end.

(** [t.UTC().Format(time.RFC3339Nano)]. *)
Definition FormatNano (t : Z) : bytes :=
  let days := t / day_ns in
  let '(y, yday) := year_day days in
  let '(m, d) := month_day (leap y) yday in
  let ns := t mod day_ns in
  let s := ns / second in
  year_text y ++ [x2d] ++ two m ++ [x2d] ++ two d ++ [x54] ++
  two (s / 3600) ++ [x3a] ++ two (s / 60 mod 60) ++ [x3a] ++ two (s mod 60) ++
  (if ns mod second =? 0 then [] else x2e :: frac_text 9 (10 ^ 8) (ns mod second)) ++ [x5a].

(** ** FlexTime.UnmarshalJSON *)

Definition secVsMillisThreshold : Z := 100000000000.
Definition millisVsMicrosThreshold : Z := 100000000000000.
Definition microsVsNanosThreshold : Z := 1000000000000000000.

(** The instant that a number stands for. *)
Definition instant_of (iv : Z) : Z :=
  if microsVsNanosThreshold <? iv then iv
  else if millisVsMicrosThreshold <? iv then iv * 1000
  else if secVsMillisThreshold <? iv then iv * 1000000
  else iv * second.

(** [json.Unmarshal] into a string, of data that starts with a quote. *)
Class JsonString := json_string : bytes -> option bytes.

Fixpoint skip_digits (s : bytes) : bytes :=
  match s with b :: s' => if is_digit b then skip_digits s' else s | [] => [] end.

(** The parts of [isValidNumber] of [encoding/json]. *)
Definition valid_exponent (s : bytes) : bool :=
  let rest :=
    match s with
    | b :: c :: s' =>
        if bool_decide (b = x65 \/ b = x45) then
          if bool_decide (c = x2b \/ c = x2d) then match s' with [] => [b] | _ => skip_digits s' end
          else skip_digits (c :: s')
        else s
    | _ => s
    end in
  eqs rest [].

Definition valid_fraction (s : bytes) : bool :=
  match s with
  | x2e :: b :: s' => if is_digit b then valid_exponent (skip_digits s') else valid_exponent s
  | _ => valid_exponent s
  end.

Definition isValidNumber (s : bytes) : bool :=
  let s := match s with x2d :: s' => s' | _ => s end in
  match s with
  | [] => false
  | x30 :: s' => valid_fraction s'
  | b :: s' => is_digit b && valid_fraction (skip_digits s')
  end.

(** [json.Unmarshal] into a [json.Number]: null leaves it empty. *)
Definition json_number (data : bytes) : option bytes :=
  if eqs data (go "null") then Some []
  else if isValidNumber data then Some data else None.

Definition UnmarshalJSON `{JsonString} (data : bytes) : result unit bytes :=
  match data with
  | x22 :: _ => match json_string data with Some s => Ok s | None => Err tt end
  | _ =>
      match json_number data with
      | None => Err tt
      | Some n => Ok (match ParseInt n with Some iv => FormatNano (instant_of iv) | None => n end)
      end
  end.

(** [FileEntry.MtimeMicro]. *)
Definition MtimeMicro `{Rfc3339} (f : FileEntry) : Z :=
  if eqs (f_Mtime f) [] then 0
  else match parse_rfc3339 (f_Mtime f) with None => 0 | Some t => t / 1000 end.

(** * Facts *)

(** ** Dates and days *)

Lemma cycles d : exists n400 n100 n4 n yday, year_day d = (400 * n400 + 100 * n100 + 4 * n4 + n + 1, yday) /\
  d + 719162 = 146097 * n400 + 36524 * n100 + 1461 * n4 + 365 * n + yday /\
  0 <= n100 <= 3 /\ 0 <= n4 <= 24 /\ 0 <= n <= 3 /\ 0 <= yday <= 365 /\
  (yday = 365 -> n = 3 /\ (n4 < 24 \/ n100 = 3)).
Proof.
  unfold year_day. set (e := d + 719162). cbv zeta.
  set (n400 := e / 146097). set (d1 := e - 146097 * n400).
  assert (H1 : 0 <= d1 < 146097) by (subst d1 n400; pose proof (Z.div_mod e 146097 ltac:(lia)); pose proof (Z.mod_pos_bound e 146097 ltac:(lia)); lia).
  set (q := d1 / 36524). set (n100 := q - q / 4). set (d2 := d1 - 36524 * n100).
  assert (H2 : 0 <= n100 <= 3 /\ 0 <= d2 <= 36524 /\ (d2 = 36524 -> n100 = 3)) by (subst d2 n100 q; Z.div_mod_to_equations; lia).
  set (n4 := d2 / 1461). set (d3 := d2 - 1461 * n4).
  assert (H3 : 0 <= n4 <= 24 /\ 0 <= d3 <= 1460 /\ (d3 = 1460 -> n4 < 24 \/ n100 = 3)) by (subst d3 n4; Z.div_mod_to_equations; lia).
  set (p := d3 / 365). set (n := p - p / 4). set (d4 := d3 - 365 * n).
  assert (H4 : 0 <= n <= 3 /\ 0 <= d4 <= 365 /\ (d4 = 365 -> n = 3 /\ d3 = 1460)) by (subst d4 n p; Z.div_mod_to_equations; lia).
  exists n400, n100, n4, n, d4. split; [done |]. subst d4 d3 d2 d1. lia.
Qed.

(** Whatever the day, its year begins [yday] days before it, and only a leap
    year has a 366th day. *)
Lemma year_day_ok d : let '(y, yday) := year_day d in year_start y + yday = d /\ 0 <= yday <= 365 /\ (yday = 365 -> leap y = true).
Proof.
  destruct (cycles d) as (a & b & c & n & k & -> & E & Hb & Hc & Hn & Hk & Hl). unfold year_start.
  replace (400 * a + 100 * b + 4 * c + n + 1 - 1) with (400 * a + 100 * b + 4 * c + n) by lia.
  assert (E1 : (400 * a + 100 * b + 4 * c + n) / 400 = a) by (Z.div_mod_to_equations; lia).
  assert (E2 : (400 * a + 100 * b + 4 * c + n) mod 400 / 100 = b) by (Z.div_mod_to_equations; lia).
  assert (E3 : (400 * a + 100 * b + 4 * c + n) mod 100 / 4 = c) by (Z.div_mod_to_equations; lia).
  assert (E4 : (400 * a + 100 * b + 4 * c + n) mod 4 = n) by (Z.div_mod_to_equations; lia).
  rewrite E1, E2, E3, E4. split; [lia |]. split; [done |]. intros Hy. destruct (Hl Hy) as [-> H3]. unfold leap.
  assert (F1 : (400 * a + 100 * b + 4 * c + 3 + 1) mod 4 = 0) by (Z.div_mod_to_equations; lia). rewrite F1. cbn.
  destruct (Z.eqb_spec ((400 * a + 100 * b + 4 * c + 3 + 1) mod 100) 0) as [F2|F2]; cbn; [|done].
  apply Z.eqb_eq. Z.div_mod_to_equations. lia.
Qed.

(** Days of the year, by trying them all. *)
Definition month_day_fits (isLeap : bool) (yday : Z) : bool :=
  let '(m, d) := month_day isLeap yday in
  (1 <=? m) && (m <=? 12) && (1 <=? d) && (d <=? before m - before (m - 1) + (if isLeap && (m =? 2) then 1 else 0)) &&
  (before (m - 1) + (if isLeap && (2 <? m) then 1 else 0) + d - 1 =? yday).

Lemma month_day_table : forallb (fun k => month_day_fits true (Z.of_nat k)) (seq 0 366) && forallb (fun k => month_day_fits false (Z.of_nat k)) (seq 0 365) = true.
Proof. by vm_compute. Qed.

Lemma month_day_ok l yday : 0 <= yday <= 365 -> (yday = 365 -> l = true) -> month_day_fits l yday = true.
Proof.
  intros Hy Hl. pose proof month_day_table as [H1 H2]%andb_true_iff. rewrite !forallb_forall in *.
  replace yday with (Z.of_nat (Z.to_nat yday)) by lia. destruct l; [apply H1 | apply H2]; apply in_seq; [lia |].
  assert (yday <> 365) by (intros ->; by discriminate (Hl eq_refl)). lia.
Qed.

(** ** Reading a formatted instant *)

(** The UTC forms of RFC 3339, read strictly. *)
Fixpoint read_frac (w : Z) (s : bytes) : option Z :=
  match s with
  | [] => None
  | b :: s' =>
      if bool_decide (b = x5a) then (match s' with [] => Some 0 | _ => None end)
      else if is_digit b && (0 <? w) then v ← read_frac (w / 10) s'; Some ((b2z b - 48) * w + v) else None
  end.

Definition read_tail (s : bytes) : option Z :=
  match s with
  | x2e :: s' => read_frac (10 ^ 8) s'
  | [x5a] => Some 0
  | _ => None
  end.

Definition utc_parse (s : bytes) : option Z :=
  match s with
  | a :: b :: c :: d :: x2d :: m1 :: m0 :: x2d :: d1 :: d0 :: x54 :: h1 :: h0 :: x3a :: n1 :: n0 :: x3a :: s1 :: s0 :: rest =>
      y ← parse_digits 0 [a; b; c; d]; m ← parse_digits 0 [m1; m0]; dd ← parse_digits 0 [d1; d0];
      h ← parse_digits 0 [h1; h0]; mi ← parse_digits 0 [n1; n0]; se ← parse_digits 0 [s1; s0]; fr ← read_tail rest;
      if (1 <=? m) && (m <=? 12) && (1 <=? dd) && (dd <=? before m - before (m - 1) + (if leap y && (m =? 2) then 1 else 0)) &&
         (h <? 24) && (mi <? 60) && (se <? 60)
      then Some ((((year_start y + day_of_year y m dd) * 24 + h) * 60 + mi) * 60 * second + se * second + fr)
      else None
  | _ => None
  end.

Lemma dig_ok n : is_digit (dig n) = true /\ b2z (dig n) - 48 = n mod 10.
Proof. apply is_digit_digit. Qed.

Lemma read_two n : 0 <= n < 100 -> parse_digits 0 (two n) = Some n.
Proof.
  intros Hn. unfold two. cbn [parse_digits]. destruct (dig_ok (n / 10)) as [-> ->], (dig_ok n) as [-> ->]. f_equal. Z.div_mod_to_equations. lia.
Qed.

Lemma read_four y : 0 <= y < 10000 -> parse_digits 0 [dig (y / 1000); dig (y / 100); dig (y / 10); dig y] = Some y.
Proof.
  intros Hy. cbn [parse_digits]. destruct (dig_ok (y / 1000)) as [-> ->], (dig_ok (y / 100)) as [-> ->], (dig_ok (y / 10)) as [-> ->], (dig_ok y) as [-> ->].
  f_equal. Z.div_mod_to_equations. lia.
Qed.

Lemma read_frac_text k : forall n, 0 <= n < 10 ^ Z.of_nat k -> (0 < k)%nat -> read_frac (10 ^ (Z.of_nat k - 1)) (frac_text k (10 ^ (Z.of_nat k - 1)) n ++ [x5a]) = Some n.
Proof.
  induction k as [|k IH]; intros n Hn Hk; [lia |]. cbn [frac_text]. destruct (Z.eqb_spec n 0) as [-> |Hz]; [done |]. cbn [app read_frac].
  replace (Z.of_nat (S k) - 1) with (Z.of_nat k) in * by lia. set (w := 10 ^ Z.of_nat k). assert (Hw : 0 < w) by (apply Z.pow_pos_nonneg; lia).
  assert (Hn' : 0 <= n < 10 * w) by (subst w; rewrite <- Z.pow_succ_r by lia; replace (Z.succ (Z.of_nat k)) with (Z.of_nat (S k)) by lia; done).
  destruct (dig_ok (n / w)) as [Hd Hv]. rewrite bool_decide_false by (intros E; rewrite E in Hd; done). rewrite Hd, Hv. destruct (Z.ltb_spec 0 w) as [_|]; [|lia]. cbn [andb].
  assert (Hq : n / w mod 10 = n / w) by (apply Z.mod_small; split; [apply Z.div_pos; lia | apply Z.div_lt_upper_bound; lia]). rewrite Hq.
  pose proof (Z.div_mod n w ltac:(lia)) as Hdm. pose proof (Z.mod_pos_bound n w Hw) as Hm. destruct k as [|k].
  - change w with 1 in *. cbn [frac_text app read_frac]. rewrite bool_decide_true by done. cbn. f_equal. lia.
  - assert (Hw10 : w / 10 = 10 ^ (Z.of_nat (S k) - 1)).
    { subst w. replace (Z.of_nat (S k)) with (Z.succ (Z.of_nat k)) by lia. rewrite Z.pow_succ_r, Z.mul_comm, Z.div_mul by lia. f_equal. lia. }
    rewrite Hw10, IH by (done || lia). cbn. f_equal. lia.
Qed.

(** The year of an instant. *)
Definition year_of (t : Z) : Z := (year_day (t / day_ns)).1.

(** What parsing promises: every instant of the years 0 to 9999, formatted, is
    read back. *)
Class Rfc3339Spec (P : Rfc3339) : Prop := nano_parses t : 0 <= year_of t <= 9999 -> parse_rfc3339 (FormatNano t) = Some t.

Lemma clock ns : 0 <= ns < day_ns -> let s := ns / second in
  0 <= s / 3600 < 24 /\ 0 <= s / 60 mod 60 < 60 /\ 0 <= s mod 60 < 60 /\ 0 <= ns mod second < 10 ^ 9 /\
  ((s / 3600 * 60 + s / 60 mod 60) * 60 + s mod 60) * second + ns mod second = ns.
Proof.
  intros Hns s. unfold day_ns in Hns. pose proof (Z.div_mod ns second ltac:(done)) as E. pose proof (Z.mod_pos_bound ns second ltac:(done)) as Hm. fold s in E.
  assert (Hs : 0 <= s < 86400) by (split; [apply Z.div_pos; unfold second; lia | apply Z.div_lt_upper_bound; unfold second in *; lia]).
  assert (H60 : (s / 3600 * 60 + s / 60 mod 60) * 60 + s mod 60 = s) by (clearbody s; clear; Z.div_mod_to_equations; lia).
  assert (Hh : 0 <= s / 3600 < 24) by (split; [apply Z.div_pos; lia | apply Z.div_lt_upper_bound; lia]).
  split; [exact Hh |]. split; [apply Z.mod_pos_bound; lia |]. split; [apply Z.mod_pos_bound; lia |]. split; [exact Hm |]. rewrite H60. lia.
Qed.

#[export] Instance utc : Rfc3339 := utc_parse.

Lemma read_tail_text f : 0 <= f < 10 ^ 9 -> read_tail ((if f =? 0 then [] else x2e :: frac_text 9 (10 ^ 8) f) ++ [x5a]) = Some f.
Proof.
  intros Hf. destruct (Z.eqb_spec f 0) as [-> |Hz]; [done |]. cbn [app read_tail]. exact (read_frac_text 9 f Hf ltac:(lia)).
Qed.

#[export] Instance utc_spec : Rfc3339Spec utc.
Proof.
  intros t Hy. unfold year_of in Hy. unfold FormatNano. set (ns := t mod day_ns). set (days := t / day_ns).
  pose proof (year_day_ok days) as Hd. fold days in Hy. destruct (year_day days) as [y yday]. destruct Hd as (Hstart & Hyd & Hleap). cbn [fst] in Hy.
  pose proof (month_day_ok (leap y) yday Hyd Hleap) as Hm. unfold month_day_fits in Hm. destruct (month_day (leap y) yday) as [m d].
  rewrite !andb_true_iff in Hm. destruct Hm as ((((Hm1 & Hm2) & Hd1) & Hd2) & Heq). apply Z.leb_le in Hm1, Hm2, Hd1. apply Z.eqb_eq in Heq. pose proof Hd2 as Hd3. apply Z.leb_le in Hd3.
  assert (Hns : 0 <= ns < day_ns) by (by apply Z.mod_pos_bound). pose proof (clock ns Hns) as (Hh & Hmi & Hs & Hf & Et). cbv zeta in *.
  unfold year_text. destruct (Z.ltb_spec y 0); [lia |]. rewrite Z.abs_eq by lia. destruct (Z.ltb_spec y 10000); [|lia].
  assert (Hd31 : d <= 31).
  { assert (Hb : forall k, (k < 12)%nat -> before (Z.of_nat k + 1) - before (Z.of_nat k) <= (if (k =? 1)%nat then 28 else 31)).
    { intros k Hk. do 12 (destruct k as [|k]; [by vm_compute |]). lia. }
    specialize (Hb (Z.to_nat (m - 1)) ltac:(lia)). replace (Z.of_nat (Z.to_nat (m - 1)) + 1) with m in Hb by lia. rewrite Z2Nat.id in Hb by lia.
    destruct (leap y); cbn [andb] in Hd3; [|destruct (_ =? _)%nat in Hb; lia].
    destruct (Z.eqb_spec m 2) as [-> |]; [change (before 2 - before (2 - 1)) with 28 in Hd3; lia |]. destruct (_ =? _)%nat in Hb; lia. }
  unfold parse_rfc3339, utc, utc_parse. unfold two. cbn [app].
  rewrite (read_four y) by lia. change [dig (m / 10); dig m] with (two m). change [dig (d / 10); dig d] with (two d).
  change [dig (ns / second / 3600 / 10); dig (ns / second / 3600)] with (two (ns / second / 3600)).
  change [dig (ns / second / 60 mod 60 / 10); dig (ns / second / 60 mod 60)] with (two (ns / second / 60 mod 60)).
  change [dig (ns / second mod 60 / 10); dig (ns / second mod 60)] with (two (ns / second mod 60)).
  rewrite !read_two by lia. rewrite read_tail_text by lia. cbn [mbind option_bind].
  rewrite Hd2. destruct (Z.leb_spec 1 m), (Z.leb_spec m 12), (Z.leb_spec 1 d), (Z.ltb_spec (ns / second / 3600) 24), (Z.ltb_spec (ns / second / 60 mod 60) 60), (Z.ltb_spec (ns / second mod 60) 60); try lia. cbn [andb].
  f_equal. unfold day_of_year. rewrite Heq, Hstart. pose proof (Z.div_mod t day_ns ltac:(done)) as E. fold ns days in E. rewrite E. unfold day_ns in *. lia.
Qed.

(** ** Numbers in a manifest *)

Lemma digits_shape fuel : forall n acc, 0 < n < 10 ^ Z.of_nat fuel ->
  exists b l, digits fuel n acc = b :: l ++ acc /\ is_digit b = true /\ b <> x30 /\ Forall (fun c => is_digit c = true) l.
Proof.
  induction fuel as [|f IH]; intros n acc Hn; [cbn in Hn; lia |]. cbn [digits]. fold (dig n). destruct (dig_ok n) as [Hd Hv]. destruct (Z.ltb_spec n 10).
  - exists (dig n), []. split; [done |]. split; [done |]. split; [|constructor]. intros E. rewrite E in Hv. vm_compute (b2z x30 - 48) in Hv. rewrite Z.mod_small in Hv; lia.
  - destruct (IH (n / 10) (dig n :: acc)) as (b & l & -> & Hb & Hz & Hl).
    { rewrite Nat2Z.inj_succ, Z.pow_succ_r in Hn by lia. split; [apply Z.div_str_pos; lia | apply Z.div_lt_upper_bound; lia]. }
    exists b, (l ++ [dig n]). rewrite <- app_assoc. split; [done |]. split; [done |]. split; [done |]. apply Forall_app_2; [done | by apply Forall_singleton].
Qed.

Lemma skip_all l : Forall (fun c => is_digit c = true) l -> skip_digits l = [].
Proof. induction 1 as [|b l Hb _ IH]; [done |]. cbn. by rewrite Hb. Qed.

(** A positive number, in decimal, is decoded as the instant it stands for. *)
Lemma Unmarshal_number `{JsonString} n : 0 < n <= MaxInt64 -> UnmarshalJSON (FormatInt n) = Ok (FormatNano (instant_of n)).
Proof.
  intros Hn. pose proof (ParseInt_FormatInt n ltac:(unfold MinInt64; lia)) as Hp. revert Hp. unfold FormatInt. destruct (Z.ltb_spec n 0); [lia |].
  destruct (digits_shape 20 n []) as (b & l & -> & Hb & Hz & Hl); [unfold MaxInt64 in Hn; lia |]. rewrite app_nil_r. intros Hp.
  assert (Hv : isValidNumber (b :: l) = true).
  { unfold isValidNumber. destruct b; try done; cbn [is_digit]; rewrite (skip_all l Hl); done. }
  unfold UnmarshalJSON, json_number. rewrite Hv. destruct (eqs (b :: l) (go "null")) eqn:En.
  { apply bool_decide_eq_true in En. injection En as -> _. done. }
  rewrite Hp. by destruct b.
Qed.

(** C38: the unit of a numeric time is recognised: for every instant after
    2001-09-09 that a 64-bit count of nanoseconds can hold, the number of its
    nanoseconds, microseconds, milliseconds or seconds is decoded as that
    instant, cut to the unit, and the modification time of the entry is then
    that instant again. *)
Theorem flextime_units `{JS : JsonString, RP : Rfc3339, !Rfc3339Spec RP} t n u f : 10 ^ 18 < t <= MaxInt64 -> u ∈ [1; 10 ^ 3; 10 ^ 6; 10 ^ 9] -> n = t / u ->
  exists text, UnmarshalJSON (FormatInt n) = Ok text /\ parse_rfc3339 text = Some (n * u) /\
    (f_Mtime f = text -> MtimeMicro f = n * u / 1000).
Proof.
  intros Ht Hu ->. set (n := t / u).
  assert (Hi : 0 < n <= MaxInt64 /\ instant_of n = n * u /\ 0 <= n * u <= MaxInt64).
  { unfold instant_of, microsVsNanosThreshold, millisVsMicrosThreshold, secVsMillisThreshold, second, MaxInt64 in *. subst n.
    apply elem_of_cons in Hu as [-> | Hu]; [|apply elem_of_cons in Hu as [-> | Hu]; [|apply elem_of_cons in Hu as [-> | Hu%list_elem_of_singleton]; [|subst u]]];
      repeat (go_if; try (Z.div_mod_to_equations; lia)); Z.div_mod_to_equations; lia. }
  destruct Hi as (Hn & Ei & Hr). exists (FormatNano (n * u)). rewrite Unmarshal_number, Ei by done. split; [done |].
  assert (Hp : parse_rfc3339 (FormatNano (n * u)) = Some (n * u)).
  { apply nano_parses. unfold year_of. destruct (cycles (n * u / day_ns)) as (a & b & c & k & y & -> & E & ?). cbn [fst].
    assert (0 <= n * u / day_ns < 110000) by (unfold day_ns, second, MaxInt64 in *; split; [apply Z.div_pos; lia | apply Z.div_lt_upper_bound; lia]). lia. }
  split; [done |]. intros Hf. unfold MtimeMicro. rewrite Hf. destruct (eqs (FormatNano (n * u)) []) eqn:E0; [|by rewrite Hp].
  exfalso. apply bool_decide_eq_true in E0. rewrite E0 in Hp. revert E0. unfold FormatNano. destruct (year_day _) as [y yd], (month_day _ _) as [m d]. unfold two. intros E0. apply (f_equal length) in E0.
  rewrite !length_app in E0. cbn in E0. lia.
Qed.

Module FlexWitness.
#[local] Instance quoted : JsonString := fun data => Some (drop 1 (take (length data - 1) data)).

Definition entry (t : bytes) : FileEntry := MkFileEntry (go "a") [] 0 t 420 [] [].

(** 2026-01-02T03:04:05.12Z, in milliseconds. *)
Lemma flextime_units_witness : exists text, UnmarshalJSON (go "1767323045120") = Ok text /\ parse_rfc3339 text = Some 1767323045120000000 /\
  MtimeMicro (entry text) = 1767323045120000.
Proof.
  destruct (flextime_units 1767323045120000000 1767323045120 (10 ^ 6) (entry (go "2026-01-02T03:04:05.12Z"))) as (text & H1 & H2 & H3).
  - vm_compute. split; [reflexivity | discriminate].
  - apply elem_of_cons; right. apply elem_of_cons; right. apply elem_of_cons; left. reflexivity.
  - vm_compute. reflexivity.
  - exists text. assert (E : Ok (E := unit) text = Ok (go "2026-01-02T03:04:05.12Z")) by (rewrite <- H1; vm_compute; reflexivity). injection E as ->.
    split; [vm_compute; reflexivity |]. split; [exact H2 | exact (H3 eq_refl)].
Defined.

(** A quoted time is kept as it is. *)
Example quoted_kept : UnmarshalJSON (go "x2026x") = Err tt /\ UnmarshalJSON ([x22] ++ go "yesterday" ++ [x22]) = Ok (go "yesterday").
Proof. by vm_compute. Qed.

(** Nanoseconds up to 10^18, September 2001, are taken for microseconds: the
    year has five digits, the text does not parse and the time is lost. *)
Theorem early_nanos_lost : exists text, UnmarshalJSON (go "999999999000000000") = Ok text /\ text = go "33658-09-27T01:30:00Z" /\
  parse_rfc3339 text = None /\ MtimeMicro (entry text) = 0.
Proof. eexists. split; [vm_compute; reflexivity |]. by vm_compute. Qed.
End FlexWitness.
