(* ===== verification/Validate.v ===== *)
(** Validate: the full validation of a manifest ([Manifest.Validate] of
    [simple/manifest_validate.go]): the header, the structure checks of
    [Manifest] and the form of the hashes.  A nil manifest is [None]. *)

From S2P Require Import Prelude GoStr Externs BlobStore Manifest CloudID.
From stdpp Require Import base list gmap strings.
From Stdlib.Strings Require Import Byte.
Local Open Scope Z_scope.

Section Ops.
Context `{TP : Rfc3339}.

Definition check_hashes (f : FileEntry) : result verr unit :=
  check (negb (eqs (f_ContentHash f) []) && negb (isSHA256Hex (f_ContentHash f))) (VHash (f_Name f)) ≫= fun _ =>
  checks (fun c => check (negb (isSHA256Hex (c_Hash c))) (VHash (f_Name f))) (f_Chunks f).

Definition Validate (mp : option Manifest) : result verr unit :=
  match mp with
  | None => Err VNil
  | Some m =>
      check (m_Version m <? 2) VVersion ≫= fun _ =>
      check (m_SourceID m <=? 0) VSourceID ≫= fun _ =>
      check (eqs (TrimSpace (m_SourcePath m)) []) VSourcePath ≫= fun _ =>
      check (eqs (TrimSpace (m_DeviceID m)) []) VDeviceID ≫= fun _ =>
      check (negb (eqs (m_Timestamp m) []) && match parse_rfc3339 (m_Timestamp m) with None => true | Some _ => false end) VTimestamp ≫= fun _ =>
      check (negb (eqs (m_CloudID m) []) && match validateCloudID (m_CloudID m) with None => false | Some _ => true end) VCloudID ≫= fun _ =>
      ValidateStructure m ≫= fun _ =>
      checks (fun kd => checks check_hashes (d_Files kd.2)) (map_to_list (m_Dirs m))
  end.

(** * Facts *)

(** What full validation asks of the header. *)
Definition header_ok (m : Manifest) : Prop :=
  2 <= m_Version m /\ 0 < m_SourceID m /\ TrimSpace (m_SourcePath m) <> [] /\ TrimSpace (m_DeviceID m) <> [] /\
  (m_Timestamp m = [] \/ is_Some (parse_rfc3339 (m_Timestamp m))) /\
  (m_CloudID m = [] \/ validateCloudID (m_CloudID m) = None).

(** Every reference is the hexadecimal form of a SHA-256 sum. *)
Definition hashes_ok (m : Manifest) : Prop :=
  forall k d f, m_Dirs m !! k = Some d -> f ∈ d_Files d ->
    (f_ContentHash f = [] \/ isSHA256Hex (f_ContentHash f) = true) /\
    Forall (fun c => isSHA256Hex (c_Hash c) = true) (f_Chunks f).

Lemma check_guard b e : check (negb b) e = Ok tt <-> b = true.
Proof. rewrite check_ok. by destruct b. Qed.

Lemma unless_empty s b : negb (eqs s []) && b = false <-> s = [] \/ b = false.
Proof. unfold eqs. case_bool_decide; cbn; split; naive_solver. Qed.

Lemma check_hashes_ok f : check_hashes f = Ok tt <->
  (f_ContentHash f = [] \/ isSHA256Hex (f_ContentHash f) = true) /\ Forall (fun c => isSHA256Hex (c_Hash c) = true) (f_Chunks f).
Proof.
  unfold check_hashes. rewrite bind_tt, check_ok, unless_empty, negb_false_iff, checks_ok.
  by setoid_rewrite check_guard.
Qed.

(** Full validation accepts exactly the manifests whose header is sound, whose
    structure is valid and whose references are all well formed. *)
Lemma Validate_ok m : Validate (Some m) = Ok tt <-> header_ok m /\ ValidateStructure m = Ok tt /\ hashes_ok m.
Proof.
  cbn [Validate]. rewrite !bind_tt, !check_ok, !unless_empty, checks_ok, Forall_forall. setoid_rewrite checks_ok. setoid_rewrite Forall_forall.
  setoid_rewrite check_hashes_ok. unfold header_ok, hashes_ok, eqs. rewrite !bool_decide_eq_false, Z.ltb_ge, Z.leb_gt.
  assert (E1 : match parse_rfc3339 (m_Timestamp m) with None => true | Some _ => false end = false <-> is_Some (parse_rfc3339 (m_Timestamp m)))
    by (destruct (parse_rfc3339 _); split; (done || by intros [])).
  assert (E2 : match validateCloudID (m_CloudID m) with None => false | Some _ => true end = false <-> validateCloudID (m_CloudID m) = None)
    by (by destruct (validateCloudID _)).
  assert (E3 : (forall kd, kd ∈ map_to_list (m_Dirs m) -> forall f, f ∈ d_Files kd.2 ->
      (f_ContentHash f = [] \/ isSHA256Hex (f_ContentHash f) = true) /\ Forall (fun c => isSHA256Hex (c_Hash c) = true) (f_Chunks f)) <->
    (forall k d f, m_Dirs m !! k = Some d -> f ∈ d_Files d ->
      (f_ContentHash f = [] \/ isSHA256Hex (f_ContentHash f) = true) /\ Forall (fun c => isSHA256Hex (c_Hash c) = true) (f_Chunks f))).
  { split; [intros H k d f Hk; by apply (H (k, d)), elem_of_map_to_list | intros H [k d] Hk%elem_of_map_to_list f; by apply (H k)]. }
  rewrite E1, E2, E3. tauto.
Qed.

(** A lower-case hash is well formed, and a well-formed one without capitals is
    accepted by the store. *)
Lemma hex_forms h : validateHash h = true <-> isSHA256Hex h = true /\ Forall (fun c => ~ 65 <= b2z c <= 70) h.
Proof.
  unfold validateHash, isSHA256Hex. destruct (negb _); [naive_solver |]. rewrite !forallb_forall, Forall_forall. split.
  - intros H. split; intros c Hc; [|apply list_elem_of_In in Hc]; specialize (H c Hc);
      destruct (Z.ltb_spec (b2z c) 48), (Z.ltb_spec 57 (b2z c)), (Z.ltb_spec (b2z c) 97), (Z.ltb_spec 102 (b2z c)); cbn in *; done || lia.
  - intros [H1 H2] c Hc. specialize (H1 c Hc). apply list_elem_of_In in Hc. specialize (H2 c Hc).
    destruct (Z.ltb_spec (b2z c) 48), (Z.ltb_spec 57 (b2z c)), (Z.ltb_spec (b2z c) 97), (Z.ltb_spec 102 (b2z c)), (Z.ltb_spec (b2z c) 65), (Z.ltb_spec 70 (b2z c)); cbn in *; done || lia.
Qed.

Lemma file_hashes_ok f h : h ∈ file_hashes f ->
  (f_ContentHash f = [] \/ isSHA256Hex (f_ContentHash f) = true) -> Forall (fun c => isSHA256Hex (c_Hash c) = true) (f_Chunks f) -> isSHA256Hex h = true.
Proof.
  unfold file_hashes, eqs. intros Hh Hc Hk. destruct (f_Chunks f) as [|c cs].
  - case_bool_decide; [by apply elem_of_nil in Hh |]. apply list_elem_of_singleton in Hh as ->. by destruct Hc.
  - apply list_elem_of_fmap in Hh as (x & -> & Hx). by apply (proj1 (Forall_forall _ _) Hk).
Qed.

(** C40: full validation is exact: it accepts just the manifests with a sound
    header, a valid structure and well-formed references; and then every hash
    in the alive index of the manifest is one the blob store accepts, unless it
    has a capital letter. *)
Theorem validate_exact m :
  (Validate (Some m) = Ok tt <-> header_ok m /\ ValidateStructure m = Ok tt /\ hashes_ok m) /\
  (Validate (Some m) = Ok tt -> forall h, h ∈ a_Hashes (ManifestToAliveIndex m) -> validateHash h = true <-> Forall (fun c => ~ 65 <= b2z c <= 70) h).
Proof.
  split; [apply Validate_ok |]. intros (_ & _ & Hh)%Validate_ok h Hin. rewrite hex_forms.
  cbn in Hin. apply list_elem_of_bind in Hin as ([k d] & Hf & Hk%elem_of_map_to_list). apply list_elem_of_bind in Hf as (f & Hf & Hd).
  destruct (Hh k d f Hk Hd) as [H1 H2]. pose proof (file_hashes_ok f h Hf H1 H2). naive_solver.
Qed.
End Ops.

Module ValidateWitness.

#[local] Instance always : Rfc3339 := fun _ => Some 0.

Definition capital : bytes := replicate 64 x41.
Definition upper : Manifest :=
  AddFile (NewManifest (go "2026-01-02T03:04:05Z") 1 [] (go "home") (go "/home") (go "dev1"))
    (MkFileEntry (go "a") capital 3 [] 420 FileStatusNew []).

(** Full validation accepts a hash in capitals, which no store operation
    takes: the file passes as restorable and can never be fetched. *)
Theorem capital_hash_unfetchable : Validate (Some upper) = Ok tt /\ a_Hashes (ManifestToAliveIndex upper) = [capital] /\ validateHash capital = false.
Proof. vm_compute. done. Qed.
End ValidateWitness.
