(* ===== verification/ManifestIO.v ===== *)
(** ManifestIO: manifest files ([simple/manifest.go], [ManifestFilePath] to
    [ParseManifestFilenameTimestamp]).

    A manifest is marshalled, compressed, optionally encrypted, wrapped in the
    GBR1 checksum envelope, staged and committed without replacing anything.
    [encoding/json] is the parameter [Json]: [json_text] are the manifests all
    of whose strings are valid UTF-8, which the package keeps as they are.  The
    registered decryption hook is an argument of the loaders.  The clock is an
    argument, in nanoseconds.  The modification time a directory entry reports
    is read when the entry is looked at.  [FilePath], which is not serialised,
    is the path the caller passed or got. *)

From S2P Require Import Prelude GoStr Externs Compress Crypto FS Manifest CloudID.
From stdpp Require Import base list gmap sorting strings.
From Stdlib.Strings Require Import Byte.
Local Open Scope Z_scope.

(** What a version 1 manifest holds. *)
Record v1Manifest := MkV1 { v1_Files : list FileEntry; v1_EmptyDirs : list bytes }.

Class Json := {
  json_marshal : Manifest -> bytes;
  json_unmarshal : bytes -> option Manifest;
  json_unmarshal_v1 : bytes -> option v1Manifest
}.

Class JsonSpec (J : Json) := {
  json_text : Manifest -> Prop;
  json_roundtrip m : json_text m -> json_unmarshal (json_marshal m) = Some m;
  json_nonempty m : json_marshal m <> []
}.

Inductive merr :=
| MStructure (e : verr) | MCloudID (e : ciderr) | MDeviceID (e : ciderr)
| MMkdir (e : oserr) | MEncrypt (e : cerr) | MStage (e : oserr) | MRand | MConflict | MCommit (e : oserr)
| MRead (e : oserr) | MSumMissing | MSumRead (e : oserr) | MSumMismatch
| MEnvelope | MNoHook | MHook | MDecompress (e : zerr) | MUnmarshal | MValidation (e : verr)
| MNotFound | MReadDir (e : oserr) | MTimestamp | MAllFailed (e : merr).

Definition jsonZst : bytes := go ".json.zst".
Definition RegistryEnvelopeMagic : bytes := [x47; x42; x52; x31].
Definition registryEnvelopeHeaderSize : Z := 4 + 32.

Definition localManifestCompressor : Zstd.ZstdCompressor :=
  Zstd.NewZstdCompressorWithLimit 1 1 MaxManifestDecompressedSize (Some ErrManifestDecompressedTooLarge).

Definition ManifestFilePath (metaDir cloudID : bytes) (ts : Z) (deviceID : bytes) : bytes :=
  FpJoin [ManifestDir metaDir cloudID; FormatInt (unix ts) ++ go "_" ++ deviceID ++ jsonZst].

Section Ops.
Context `{AE : AEAD, ZS : Zstd, SH : Sha256, HK : Hkdf} `{J : Json} `{U : Uuid} `{RF : Rfc3339} `{RFF : Rfc3339Format}.

(** ** Saving *)

Definition envelope (payload : bytes) : bytes := RegistryEnvelopeMagic ++ sha256 payload ++ payload.

(** The commit loop: [n] attempts are left, all but the first under a random
    suffix. *)
Fixpoint commit_loop (n : nat) (retry : bool) (path staging ent : bytes) : eff world merr (bytes * bytes) :=
  let candidate :=
    if retry then
      match rand_read 3 ent with
      | Some (b, ent') => Some (TrimSuffix path jsonZst ++ go "_" ++ hex_encode b ++ jsonZst, ent')
      | None => None
      end
    else Some (path, ent) in
  match candidate with
  | None => _ ← attempt (Remove staging); throw MRand
  | Some (cand, ent') =>
      match n with
      | O => _ ← attempt (Remove staging); throw MConflict
      | S n' =>
          r ← attempt (CommitFileNoReplace staging cand);
          match r with
          | Ok _ => mret (cand, ent')
          | Err EEXIST => commit_loop n' true path staging ent'
          | Err e => _ ← attempt (Remove staging); throw (MCommit e)
          end
      end
  end.

(** The payload: compressed, and encrypted when there is a key. *)
Definition manifest_payload (m : Manifest) (encryptKey ent : bytes) : result merr (bytes * bytes) :=
  let compressed := Zstd.Compress localManifestCompressor (json_marshal m) in
  if 0 <? blen encryptKey then
    match EncryptManifest compressed encryptKey ent with
    | Ok r => Ok r
    | Err e => Err (MEncrypt e)
    end
  else Ok (compressed, ent).

Definition manifest_cloudID (m : Manifest) : bytes :=
  if eqs (m_CloudID m) [] then ManifestPathKey (m_DeviceID m) (FormatInt (m_SourceID m)) else m_CloudID m.

Definition manifest_time (m : Manifest) (now : Z) : Z :=
  match parse_rfc3339 (m_Timestamp m) with Some t => t | None => now end.

Definition SaveManifestWithKey (metaDir : bytes) (m : Manifest) (encryptKey : bytes) (now : Z) (ent : bytes)
  : eff world merr (bytes * bytes) :=
  match ValidateStructure m with
  | Err e => throw (MStructure e)
  | Ok _ =>
      let cloudID := manifest_cloudID m in
      match validateCloudID cloudID, validateCloudID (m_DeviceID m) with
      | Some e, _ => throw (MCloudID e)
      | None, Some e => throw (MDeviceID e)
      | None, None =>
          let path := ManifestFilePath metaDir cloudID (manifest_time m now) (m_DeviceID m) in
          _ ← wrap_err MMkdir (MkdirAll (GoStr.Dir path));
          match manifest_payload m encryptKey ent with
          | Err e => throw e
          | Ok (payload, ent') =>
              uid ← new_uuid;
              let staging := path ++ go "." ++ uid ++ go ".tmp" in
              _ ← wrap_err MStage (WriteStagingFile staging (envelope payload));
              commit_loop 8 false path staging ent'
          end
      end
  end.

Definition SaveManifest (metaDir : bytes) (m : Manifest) := SaveManifestWithKey metaDir m [].

(** ** Loading *)

Definition manifestChecksumPath (manifestPath : bytes) : bytes := manifestPath ++ go ".sha256".

Definition verifyManifestChecksum (manifestPath data : bytes) : eff world merr unit :=
  r ← attempt (ReadFile (manifestChecksumPath manifestPath));
  match r with
  | Err ENOENT => throw MSumMissing
  | Err e => throw (MSumRead e)
  | Ok expected =>
      if eqs (ToLower (TrimSpace expected)) (hex_encode (sha256 data)) then mret tt else throw MSumMismatch
  end.

Definition isGBREnvelope (data : bytes) : bool :=
  (registryEnvelopeHeaderSize <=? blen data) && bool_decide (upto 4 data = RegistryEnvelopeMagic).

Definition stripGBREnvelope (data : bytes) : result merr bytes :=
  let want := upto 32 (from 4 data) in
  let payload := from registryEnvelopeHeaderSize data in
  if eqs want (sha256 payload) then Ok payload else Err MEnvelope.

Definition migrateV1Manifest (m : Manifest) (raw : bytes) : Manifest :=
  match json_unmarshal_v1 raw with
  | None => m
  | Some v1 =>
      let m1 := MkManifest 2 (m_SourceID m) (m_CloudID m) (m_SourceName m) (m_SourcePath m) (m_Timestamp m)
                  (m_DeviceID m) ∅ (MkStats 0 0 0 0 0 0 0 0) (m_Completeness m) in
      foldl AddEmptyDir (foldl AddFile m1 (v1_Files v1)) (v1_EmptyDirs v1)
  end.

Definition LoadManifestFromData (hook : option (bytes -> option bytes)) (data : bytes) : result merr Manifest :=
  data ← (if isGBREnvelope data then stripGBREnvelope data else Ok data);
  data ← (if (MagicSize <=? blen data) && bool_decide (upto MagicSize data = GKM1Magic) then
            match hook with
            | None => Err MNoHook
            | Some f => match f data with Some d => Ok d | None => Err MHook end
            end
          else Ok data);
  data ← (if Zstd.IsCompressed data then
            match Zstd.Decompress localManifestCompressor data with
            | Ok d => Ok d
            | Err e => Err (MDecompress e)
            end
          else Ok data);
  match json_unmarshal data with
  | None => Err MUnmarshal
  | Some m =>
      let m' := if m_Version m <? 2 then migrateV1Manifest m data else m in
      match ValidateStructure m' with
      | Ok _ => Ok m'
      | Err e => Err (MValidation e)
      end
  end.

Definition LoadManifest (hook : option (bytes -> option bytes)) (path : bytes) : eff world merr Manifest :=
  data ← wrap_err MRead (ReadFile path);
  _ ← (if isGBREnvelope data then mret tt else verifyManifestChecksum path data);
  match LoadManifestFromData hook data with
  | Ok m => mret m
  | Err e => throw e
  end.

(** ** Finding *)

Definition isManifestFile (name : bytes) : bool :=
  if Contains name (go ".alive.") then false
  else HasSuffix name jsonZst || HasSuffix name (go ".json").

(** The names of the files of a directory listing. *)
Definition file_names (entries : list (bytes * bool)) : list bytes := fst <$> filter (fun e => e.2 = false) entries.

Definition readManifestDirEntries (dir : bytes) : eff world oserr (list bytes) :=
  entries ← ReadDir dir;
  mret (file_names entries).

Definition readManifestFiles (dir : bytes) : eff world oserr (list bytes) :=
  entries ← readManifestDirEntries dir;
  mret (filter (fun n => isManifestFile n = true) entries).

Definition ManifestExistsByTimestamp (metaDir cloudID : bytes) (unixSec : Z) : eff world merr bool :=
  r ← attempt (readManifestFiles (ManifestDir metaDir cloudID));
  match r with
  | Err _ => mret false
  | Ok entries => mret (existsb (fun n => HasPrefix n (FormatInt unixSec ++ go "_")) entries)
  end.

(** The name up to its last dot, unless the dot is its first character. *)
Definition strip_ext (name : bytes) : bytes :=
  match LastIndexByte name dot with
  | Some i => if (0 <? i)%nat then take i name else name
  | None => name
  end.

Definition ParseManifestFilenameTimestamp (filename : bytes) : option bytes :=
  let name := strip_ext (strip_ext filename) in
  let part := match IndexByte name x5f with Some i => take i name | None => name end in
  format_rfc3339 <$> ParseInt part.

(** Try the files in order; the first that loads is the answer. *)
Fixpoint first_loadable (hook : option (bytes -> option bytes)) (dir : bytes) (firstErr : option merr) (names : list bytes)
  : eff world merr (result (option merr) Manifest) :=
  match names with
  | [] => mret (Err firstErr)
  | n :: rest =>
      r ← attempt (LoadManifest hook (FpJoin [dir; n]));
      match r with
      | Ok m => mret (Ok m)
      | Err e => first_loadable hook dir (match firstErr with None => Some e | Some _ => firstErr end) rest
      end
  end.

Definition LoadManifestByTimestamp (hook : option (bytes -> option bytes)) (metaDir cloudID timestamp : bytes) : eff world merr Manifest :=
  match parse_rfc3339 timestamp with
  | None => throw MTimestamp
  | Some ts =>
      let dir := ManifestDir metaDir cloudID in
      r ← attempt (readManifestFiles dir);
      match r with
      | Err ENOENT => throw MNotFound
      | Err e => throw (MReadDir e)
      | Ok entries =>
          let prefix := FormatInt (unix ts) ++ go "_" in
          res ← first_loadable hook dir None (filter (fun n => HasPrefix n prefix = true) entries);
          match res with
          | Ok m => mret m
          | Err (Some e) => throw (MAllFailed e)
          | Err None => throw MNotFound
          end
      end
  end.

Definition ListManifestTimestamps (metaDir cloudID : bytes) : eff world merr (list bytes) :=
  r ← attempt (readManifestFiles (ManifestDir metaDir cloudID));
  match r with
  | Err ENOENT => mret []
  | Err e => throw (MReadDir e)
  | Ok entries => mret (merge_sort (fun a b => Is_true (ble a b)) (omap ParseManifestFilenameTimestamp entries))
  end.

Record candidate := MkCand { ca_name : bytes; ca_unix : Z; ca_mod : Z }.

(** One candidate per manifest file whose name carries a time stamp. *)
Fixpoint read_candidates (dir : bytes) (names : list bytes) : eff world merr (list candidate) :=
  match names with
  | [] => mret []
  | n :: rest =>
      match ParseManifestFilenameTimestamp n with
      | None => read_candidates dir rest
      | Some ts =>
          let unixSec := match parse_rfc3339 ts with Some t => unix t | None => 0 end in
          info ← attempt (Stat (FpJoin [dir; n]));
          let modNano := match info with Ok f => f_mtime f | Err _ => 0 end in
          cs ← read_candidates dir rest;
          mret (MkCand n unixSec modNano :: cs)
      end
  end.

(** [a] comes no later than [b] in the order of the candidates: newest first. *)
Definition newer (a b : candidate) : bool :=
  if negb (ca_unix a =? ca_unix b) then ca_unix b <? ca_unix a
  else if negb (ca_mod a =? ca_mod b) then ca_mod b <? ca_mod a
  else ble (ca_name b) (ca_name a).

Definition LoadLatestManifest (hook : option (bytes -> option bytes)) (metaDir cloudID : bytes) : eff world merr Manifest :=
  let dir := ManifestDir metaDir cloudID in
  r ← attempt (readManifestFiles dir);
  match r with
  | Err ENOENT => throw MNotFound
  | Err e => throw (MReadDir e)
  | Ok entries =>
      candidates ← read_candidates dir entries;
      match candidates with
      | [] => throw MNotFound
      | _ =>
          res ← first_loadable hook dir None (ca_name <$> merge_sort (fun a b => Is_true (newer a b)) candidates);
          match res with
          | Ok m => mret m
          | Err (Some e) => throw (MAllFailed e)
          | Err None => throw MNotFound
          end
      end
  end.
End Ops.

(** * Facts *)

Section Facts.
Context `{AE : AEAD, ZS : Zstd, SH : Sha256, HK : Hkdf} `{J : Json} `{U : Uuid} `{RF : Rfc3339} `{RFF : Rfc3339Format}.

(** The files that differ are [staging] and new ones that hold [f]. *)
Definition adds (staging : bytes) (f : file) (w w' : world) : Prop :=
  forall q, q <> staging -> w_files w' !! q = w_files w !! q \/ w_files w !! q = None /\ w_files w' !! q = Some f.

Lemma adds_only staging f w w' : only staging w w' -> adds staging f w w'.
Proof. intros Ho q Hq. left. by apply (only_files _ _ _ Ho). Qed.

Lemma adds_trans staging f w w1 w2 : adds staging f w w1 -> adds staging f w1 w2 -> adds staging f w w2.
Proof.
  intros H1 H2 q Hq. destruct (H1 q Hq) as [E1 | [E1 E1']], (H2 q Hq) as [E2 | [E2 E2']]; try (left; congruence); right; split; congruence.
Qed.

(** Where a successful commit put the file. *)
Definition committed_at (staging p : bytes) (f : file) (w w' : world) : Prop :=
  p <> staging /\ w_files w !! p = None /\ w_files w' !! p = Some f /\ w_files w' !! staging = None.

Lemma some_pair_inv {A B} (a c : A) (b d : B) : Some (a, b) = Some (c, d) -> c = a /\ d = b.
Proof. by intros [= -> ->]. Qed.

Lemma suffix_ne a b : a ++ go ".tmp" <> b ++ jsonZst.
Proof. intros E. apply (f_equal last) in E. rewrite !last_app in E. by vm_compute in E. Qed.

(** What the commit loop guarantees from [w], where the staging file, if there,
    is [f]. *)
Definition commit_post (n : nat) (retry : bool) (path staging ent : bytes) (f : file) (w : world)
    (r : result merr (bytes * bytes)) (w' : world) : Prop :=
  adds staging f w w' /\ (forall p e', r = Ok (p, e') -> committed_at staging p f w w') /\
  (calm w -> calm w' /\
     (w_files w !! staging = Some f -> (n <> 0)%nat -> retry = false -> w_files w !! path = None ->
        r = Ok (path, ent) /\ forall q, q <> staging -> q <> path -> w_files w' !! q = w_files w !! q)).

(** Giving up: the staging file is removed, best effort. *)
Lemma wp_give_up n retry path staging ent f e w w1 : adds staging f w w1 -> (calm w -> calm w1) ->
  (calm w -> w_files w !! staging = Some f -> n <> 0%nat -> retry = false -> w_files w !! path = None -> False) ->
  wp (_ ← attempt (Remove staging); throw e) (commit_post n retry path staging ent f w) w1.
Proof.
  intros Ha Hc Hno. do 2 wp_step. apply wp_Remove. intros r w' Ho _ _ _ _ _. wp_steps.
  split; [eapply adds_trans; [done | by apply adds_only] |]. split; [done |].
  intros Hw. split; [by apply (only_faults _ _ _ Ho), Hc |]. intros ????. by destruct (Hno Hw).
Qed.

Lemma wp_commit_loop n : forall retry path staging ent f w, staging <> path -> (exists a, staging = a ++ go ".tmp") ->
  (forall g, w_files w !! staging = Some g -> g = f) ->
  wp (commit_loop n retry path staging ent) (commit_post n retry path staging ent f w) w.
Proof.
  induction n as [|n IH]; intros retry path staging ent f w Hne Htmp Hst; cbn [commit_loop];
    set (candidate := if retry then _ else _); destruct candidate as [[cand ent']|] eqn:Ec.
  1, 2: apply wp_give_up; [by apply adds_only | done | done].
  2: { apply wp_give_up; [by apply adds_only | done |]. by intros _ _ _ ->. }
  assert (Hcand : staging <> cand /\ (retry = false -> cand = path /\ ent' = ent)).
  { subst candidate. destruct retry; [|by injection Ec as <- <-]. destruct (rand_read 3 ent) as [[b e]|]; [|done].
    apply some_pair_inv in Ec as [-> ->]. split; [|done]. destruct Htmp as [a ->]. rewrite !app_assoc. apply suffix_ne. }
  destruct Hcand as [Hnc Hfirst]. do 2 wp_step. apply wp_CommitFileNoReplace; [done | |].
  - intros e w1 Hs1 Hsrc Hdst Hcalm.
    assert (Hno : calm w -> w_files w !! staging = Some f -> S n <> 0%nat -> retry = false -> w_files w !! path = None -> False).
    { intros Hc Hf _ Hr Hp. destruct (Hfirst Hr) as [-> _]. destruct (Hcalm Hc) as [-> | ->]; [rewrite Hsrc in Hf by done; done |].
      rewrite Hp in Hdst. by destruct Hdst. }
    destruct e; try (apply wp_give_up; [by apply adds_only, same_only | by apply same_faults | done]).
    eapply wp_mono; [apply (IH true path staging ent' f w1); [done | done | by rewrite (same_files _ _ Hs1)] |].
    intros r w' (Ha & Hok & Hc'). split; [eapply adds_trans; [by apply adds_only, same_only | done] |]. split.
    + intros p e' Hr. destruct (Hok p e' Hr) as (? & Hp & ? & ?). rewrite (same_files _ _ Hs1) in Hp. by repeat split.
    + intros Hc. destruct (Hc' (same_faults _ _ Hs1 Hc)) as [Hc2 _]. split; [done |]. intros ????. by destruct (Hno Hc).
  - intros r g w1 Hg Hd Hd1 Hoth Hok Hsrc Hcalm. assert (g = f) as -> by (by apply Hst).
    assert (Ha1 : adds staging f w w1).
    { intros q Hq. destruct (decide (q = cand)) as [->|]; [by right | left; by apply Hoth]. }
    destruct r as [[]|e]; cbn beta iota.
    + wp_step. split; [done |]. split; [intros p e' [= <- <-]; split_and!; [done | done | done | by apply Hok] |].
      intros Hc. destruct (Hcalm Hc) as [_ Hc1]. split; [done |]. intros _ _ Hr _. destruct (Hfirst Hr) as [-> ->]. split; [done | by intros; apply Hoth].
    + assert (Hnc' : ~ calm w) by (intros Hc; by destruct (Hcalm Hc)).
      destruct e; try (apply wp_give_up; done).
      eapply wp_mono; [by apply (IH true path staging ent' f w1) |].
      intros r w' (Ha & Hok' & _). split; [by eapply adds_trans |]. split; [|done].
      intros p e' Hr. destruct (Hok' p e' Hr) as (Hp1 & Hp & Hp2 & Hp3). split_and!; try done.
      destruct (Ha1 p Hp1) as [<- | [? _]]; done.
Qed.

(** What saving at [path] guarantees: the files that were there are kept, only
    a staging name apart. *)
Definition save_post (path : bytes) (m : Manifest) (key ent : bytes) (w : world) (r : result merr (bytes * bytes)) (w' : world) : Prop :=
  exists uid, let staging := staging_name path uid in
    (forall q g, q <> staging -> w_files w !! q = Some g -> w_files w' !! q = Some g) /\
    (forall p e', r = Ok (p, e') -> exists payload ent1, manifest_payload m key ent = Ok (payload, ent1) /\
       p <> staging /\ w_files w !! p = None /\ f_data <$> w_files w' !! p = Some (envelope payload) /\
       w_files w' !! staging = None).

Lemma save_post_err path m key ent w e w' uid : only (staging_name path uid) w w' -> save_post path m key ent w (Err e) w'.
Proof. intros Ho. exists uid. split; [|done]. intros q g Hq Hg. by rewrite (only_files _ _ _ Ho). Qed.

Lemma staging_tmp path uid : staging_name path uid <> path /\ exists a, staging_name path uid = a ++ go ".tmp".
Proof.
  split; [apply staging_ne |]. unfold staging_name. exists (path ++ go "." ++ uid). by rewrite <- !app_assoc.
Qed.

(** C26: saving a manifest never changes a file that was there, whatever
    fails, a crash included, and however often the second's name is taken;
    only the staging name, the manifest's path followed by a fresh
    identifier and .tmp, is written besides new names.  A successful save
    returns a name that was free and now holds the envelope of exactly this
    manifest's payload, with the staging file gone. *)
Theorem save_manifest_no_clobber metaDir m key now ent w :
  let path := ManifestFilePath metaDir (manifest_cloudID m) (manifest_time m now) (m_DeviceID m) in
  wp (SaveManifestWithKey metaDir m key now ent) (save_post path m key ent w) w.
Proof.
  intros path. assert (Herr : forall e w', same w w' -> save_post path m key ent w (Err e) w')
    by (intros; by apply (save_post_err _ _ _ _ _ _ _ []), same_only).
  unfold SaveManifestWithKey. destruct (ValidateStructure m); [|wp_step; by apply Herr].
  destruct (validateCloudID (manifest_cloudID m)); [wp_step; by apply Herr |].
  destruct (validateCloudID (m_DeviceID m)); [wp_step; by apply Herr |].
  fold path. do 2 wp_step. wp_nop. destruct r as [[]|e]; cbn beta iota; [|by apply Herr].
  destruct (manifest_payload m key ent) as [[payload ent1]|e] eqn:Ep; [|wp_step; by apply Herr].
  wp_step. apply wp_new_uuid. intros u w2 Hs2. assert (S2 : same w w2) by (by etrans). cbn beta iota zeta.
  fold (staging_name path u). destruct (staging_tmp path u) as [Hne Htmp].
  do 2 wp_step. apply wp_WriteStagingFile.
  { intros e w3 Ho _. cbn beta iota. apply (save_post_err _ _ _ _ _ _ _ u). etrans; [by apply same_only | done]. }
  intros t w3 Ho3 Hf3. cbn beta iota.
  eapply wp_mono; [apply (wp_commit_loop 8 false path (staging_name path u) ent1 (File (envelope payload) t) w3); [done | done | congruence] |].
  intros r w4 (Ha & Hok & _). assert (H3 : forall q, q <> staging_name path u -> w_files w3 !! q = w_files w !! q).
  { intros q Hq. by rewrite (only_files _ _ _ Ho3), (same_files _ _ S2). }
  exists u. split.
  - intros q g Hq Hg. destruct (Ha q Hq) as [-> | [Hn _]]; [by rewrite H3 |]. by rewrite H3, Hg in Hn.
  - intros p e' Hr. destruct (Hok p e' Hr) as (Hp & Hn & Hw & Hs). exists payload, ent1. rewrite H3 in Hn by done.
    rewrite Hw. done.
Qed.

(** ** Loading what was saved *)

Context `{AES : !AEADSpec AE, ZSS : !ZstdSpec ZS, SHS : !Sha256Spec SH, HKS : !HkdfSpec HK, JS : !JsonSpec J}.

Lemma envelope_strip payload : isGBREnvelope (envelope payload) = true /\ stripGBREnvelope (envelope payload) = Ok payload.
Proof.
  pose proof (sha256_len payload) as Hs. pose proof (blen_nonneg payload). unfold isGBREnvelope, stripGBREnvelope, envelope.
  change (blen RegistryEnvelopeMagic) with 4. split.
  - rewrite !blen_app, Hs, upto_app by done. change (blen RegistryEnvelopeMagic) with 4. rewrite bool_decide_true by done.
    unfold registryEnvelopeHeaderSize. by destruct (Z.leb_spec (4 + 32) (4 + (32 + blen payload))); [|lia].
  - rewrite (from_app 4) by done. rewrite upto_app by done.
    assert (Hf : from registryEnvelopeHeaderSize (RegistryEnvelopeMagic ++ sha256 payload ++ payload) = payload).
    { rewrite app_assoc. apply from_app. rewrite blen_app, Hs. done. }
    by rewrite Hf, eqs_refl.
Qed.

(** The hook that decrypts with [key]. *)
Definition key_hook (key data : bytes) : option bytes :=
  match DecryptManifest data key with Ok d => Some d | Err _ => None end.

Definition loadable (m : Manifest) : Prop :=
  json_text m /\ 2 <= m_Version m /\ blen (json_marshal m) <= MaxManifestDecompressedSize /\ ValidateStructure m = Ok tt.

Lemma load_json hook m : loadable m -> LoadManifestFromData hook (Zstd.Compress localManifestCompressor (json_marshal m)) = Ok m.
Proof.
  intros (Ht & Hv & Hl & Hs). destruct (zstd_encode_magic (json_marshal m) (json_nonempty m)) as [r Hr].
  unfold LoadManifestFromData.
  assert (Hm : forall k : bytes, blen k = 4 -> k <> zstdMagic -> bool_decide (upto 4 (Zstd.Compress localManifestCompressor (json_marshal m)) = k) = false).
  { intros k Hk Hne. unfold Zstd.Compress. rewrite Hr, upto_app by done. by apply bool_decide_false. }
  unfold isGBREnvelope. rewrite Hm by done. rewrite andb_false_r. cbn [mbind result_bind]. unfold MagicSize.
  rewrite Hm by done. rewrite andb_false_r. cbn [mbind result_bind].
  rewrite Zstd.Compress_marked by apply json_nonempty. rewrite Zstd.Decompress_Compress by done. cbn [mbind result_bind]. rewrite json_roundtrip by done.
  destruct (Z.ltb_spec (m_Version m) 2); [lia |]. by rewrite Hs.
Qed.

(** The payload in its envelope loads, with the key's hook when it is
    encrypted. *)
Lemma load_payload m key ent payload ent1 hook : loadable m -> manifest_payload m key ent = Ok (payload, ent1) ->
  (key = [] \/ hook = Some (key_hook key) /\ IVSize <= blen ent) -> LoadManifestFromData hook (envelope payload) = Ok m.
Proof.
  intros Hm Hp Hk. unfold LoadManifestFromData. destruct (envelope_strip payload) as [-> ->]. cbn [mbind result_bind].
  pose proof (load_json hook m Hm) as Hload. unfold manifest_payload in Hp. destruct (Z.ltb_spec 0 (blen key)) as [Hkey | Hkey].
  - destruct Hk as [-> | [-> Hent]]; [by vm_compute in Hkey |].
    destruct (EncryptManifest_ok (Zstd.Compress localManifestCompressor (json_marshal m)) key ent Hent) as (x & e' & Hx & Hd).
    rewrite Hx in Hp. apply ok_pair_inv in Hp as [-> ->].
    rewrite upto_app, blen_app by done. change (blen GKM1Magic) with MagicSize. rewrite bool_decide_true by done.
    pose proof (blen_nonneg x). destruct (Z.leb_spec MagicSize (MagicSize + blen x)); [|lia]. cbn [andb].
    unfold key_hook at 1. rewrite Hd. cbn [mbind result_bind].
    rewrite Zstd.Compress_marked by apply json_nonempty. destruct Hm as (Ht & Hv & Hl & Hs).
    rewrite Zstd.Decompress_Compress by done. cbn [mbind result_bind]. rewrite json_roundtrip by done.
    destruct (Z.ltb_spec (m_Version m) 2); [lia |]. by rewrite Hs.
  - apply ok_pair_inv in Hp as [-> ->]. unfold LoadManifestFromData in Hload.
    unfold isGBREnvelope in Hload. destruct (zstd_encode_magic (json_marshal m) (json_nonempty m)) as [r Hr].
    assert (Hg : bool_decide (upto 4 (Zstd.Compress localManifestCompressor (json_marshal m)) = RegistryEnvelopeMagic) = false).
    { unfold Zstd.Compress. rewrite Hr, upto_app by done. by apply bool_decide_false. }
    rewrite Hg, andb_false_r in Hload. exact Hload.
Qed.

(** An encrypted payload does not load without a hook. *)
Lemma load_payload_unhooked m key ent payload ent1 : 0 < blen key -> manifest_payload m key ent = Ok (payload, ent1) ->
  LoadManifestFromData None (envelope payload) = Err MNoHook.
Proof.
  intros Hk Hp. unfold LoadManifestFromData. destruct (envelope_strip payload) as [-> ->]. cbn [mbind result_bind].
  unfold manifest_payload in Hp. destruct (Z.ltb_spec 0 (blen key)); [|lia]. destruct (EncryptManifest _ key ent) as [[x e']|e] eqn:Ex; [|done].
  apply ok_pair_inv in Hp as [-> ->]. destruct (EncryptManifest_magic _ _ _ _ _ Ex) as [y ->].
  rewrite upto_app, blen_app by done. change (blen GKM1Magic) with MagicSize. rewrite bool_decide_true by done.
  pose proof (blen_nonneg y). by destruct (Z.leb_spec MagicSize (MagicSize + blen y)); [|lia].
Qed.

(** A load when nothing fails is the parse of the file's bytes. *)
Lemma LoadManifest_calm hook p w d t : calm w -> w_files w !! p = Some (File d t) -> isGBREnvelope d = true ->
  (LoadManifest hook p w).1 = match LoadManifestFromData hook d with Ok m => Ok m | Err e => Err e end.
Proof.
  intros Hc Hp Hg. change (wp (LoadManifest hook p) (fun r _ => r = match LoadManifestFromData hook d with Ok m => Ok m | Err e => Err e end) w).
  unfold LoadManifest. do 2 wp_step.
  apply wp_ReadFile; [intros e w' Hs He Hce; specialize (He (Hce Hc)); congruence |].
  intros g w' Hs Hg'. assert (g = File d t) as -> by congruence. cbn [f_data]. rewrite Hg. wp_steps. by destruct (LoadManifestFromData hook d).
Qed.

(** A save when nothing fails and the name is free: the manifest is under that
    name, and no other file but the staging file is touched. *)
Lemma wp_Save_calm hook metaDir m key now ent w : loadable m ->
  validateCloudID (manifest_cloudID m) = None -> validateCloudID (m_DeviceID m) = None ->
  (key = [] \/ hook = Some (key_hook key) /\ IVSize <= blen ent) -> calm w ->
  let path := ManifestFilePath metaDir (manifest_cloudID m) (manifest_time m now) (m_DeviceID m) in
  wp (SaveManifestWithKey metaDir m key now ent) (fun r w' => calm w' /\
    (w_files w !! path = None -> (exists e', r = Ok (path, e')) /\
       forall q, q <> path -> (forall u, q <> staging_name path u) -> w_files w' !! q = w_files w !! q) /\
    (forall p e', r = Ok (p, e') -> exists payload ent1 t, manifest_payload m key ent = Ok (payload, ent1) /\
       w_files w' !! p = Some (File (envelope payload) t) /\ LoadManifestFromData hook (envelope payload) = Ok m)) w.
Proof.
  intros Hm Hcid Hdid Hk Hc path. unfold SaveManifestWithKey. rewrite (proj2 (proj2 (proj2 Hm))), Hcid, Hdid. fold path.
  do 2 wp_step. wp_nop. destruct r as [[]|e]; cbn beta iota; [|by specialize (H0 Hc)].
  assert (Hpay : exists payload ent1, manifest_payload m key ent = Ok (payload, ent1)).
  { unfold manifest_payload. destruct (Z.ltb_spec 0 (blen key)) as [Hkey|]; [|by eexists _, _].
    destruct Hk as [-> | [_ Hent]]; [by vm_compute in Hkey |].
    destruct (EncryptManifest_ok (Zstd.Compress localManifestCompressor (json_marshal m)) key ent Hent) as (x & e' & -> & _). by eexists _, _. }
  destruct Hpay as (payload & ent1 & Ep). rewrite Ep.
  wp_step. apply wp_new_uuid. intros u w2 Hs2. assert (S2 : same w w2) by (by etrans). cbn beta iota zeta.
  fold (staging_name path u). destruct (staging_tmp path u) as [Hne Htmp].
  assert (Hu : forall q, (forall u, q <> staging_name path u) -> q <> staging_name path u) by auto.
  revert Hne Htmp Hu. generalize (staging_name path u) as staging. intros staging Hne Htmp Hu.
  assert (Hc2 : calm w2) by (by apply (same_faults _ _ S2)).
  do 2 wp_step. apply wp_WriteStagingFile; [by intros |]. intros t w3 Ho3 Hf3. cbn beta iota.
  assert (Hc3 : calm w3) by (by apply (only_faults _ _ _ Ho3)).
  eapply wp_mono; [apply (wp_commit_loop 8 false path staging ent1 (File (envelope payload) t) w3); [done | done | congruence] |].
  assert (H3 : forall q, q <> staging -> w_files w3 !! q = w_files w !! q) by (intros q Hq; by rewrite (only_files _ _ _ Ho3), (same_files _ _ S2)).
  intros r w4 (_ & Hok & Hcalm). destruct (Hcalm Hc3) as [Hc4 Hfirst]. split; [done |]. split.
  - intros Hfree. destruct Hfirst as [-> Hoth]; [done | done | done | by rewrite H3 |]. split; [by exists ent1 |]. intros q Hq Hqs.
    rewrite Hoth by auto. by apply H3, Hu.
  - intros p e' Hr. destruct (Hok p e' Hr) as (_ & _ & Hw & _). exists payload, ent1, t. split; [done |]. split; [done | by eapply load_payload].
Qed.

(** C25: a manifest of version 2 or later that passes the structure checks, is at most
    256 MiB of JSON and has only strings that [encoding/json] preserves (valid
    UTF-8), with valid cloud and device identifiers, saved when nothing fails and
    its name is free, is stored under that name and loads back equal, without a
    key or encrypted with one that the registered hook decrypts with; saved under
    a name that was taken, it still loads back equal from the name the save
    returned. *)
Theorem save_load_manifest hook metaDir m key now ent w : loadable m ->
  validateCloudID (manifest_cloudID m) = None -> validateCloudID (m_DeviceID m) = None ->
  (key = [] \/ hook = Some (key_hook key) /\ IVSize <= blen ent) -> calm w ->
  let path := ManifestFilePath metaDir (manifest_cloudID m) (manifest_time m now) (m_DeviceID m) in
  wp (SaveManifestWithKey metaDir m key now ent) (fun r w' =>
    (w_files w !! path = None -> exists e', r = Ok (path, e')) /\
    (forall p e', r = Ok (p, e') -> (LoadManifest hook p w').1 = Ok m)) w.
Proof.
  intros Hm Hcid Hdid Hk Hc path. eapply wp_mono; [by apply wp_Save_calm |]. intros r w' (Hc' & Hfree & Hok). split; [by intros H; apply Hfree |].
  intros p e' Hr. destruct (Hok p e' Hr) as (payload & ent1 & t & _ & Hp & Hl). by rewrite (LoadManifest_calm hook p w' _ t Hc' Hp (proj1 (envelope_strip payload))), Hl.
Qed.
End Facts.

(** * The latest manifest *)

Lemma ble_refl a : ble a a = true.
Proof. induction a as [|x a IH]; [done |]. cbn. by rewrite Z.ltb_irrefl, Z.eqb_refl, IH. Qed.

Lemma ble_total a : forall b, ble a b = true \/ ble b a = true.
Proof.
  induction a as [|x a IH]; intros [|y b]; cbn; auto. destruct (Z.ltb_spec (b2z x) (b2z y)); [by left |].
  destruct (Z.ltb_spec (b2z y) (b2z x)); [by right |]. assert (b2z x = b2z y) as -> by lia. rewrite Z.eqb_refl. apply IH.
Qed.

Lemma ble_antisym a : forall b, ble a b = true -> ble b a = true -> a = b.
Proof.
  induction a as [|x a IH]; intros [|y b]; cbn; try done. intros H1 H2.
  destruct (Z.ltb_spec (b2z x) (b2z y)), (Z.ltb_spec (b2z y) (b2z x)), (Z.eqb_spec (b2z x) (b2z y)), (Z.eqb_spec (b2z y) (b2z x));
    cbn in H1, H2; try lia; try done. f_equal; [by apply b2z_inj | by apply IH].
Qed.

Lemma ble_trans a : forall b c, ble a b = true -> ble b c = true -> ble a c = true.
Proof.
  induction a as [|x a IH]; intros [|y b] [|z c]; cbn; try done. intros H1 H2.
  destruct (Z.ltb_spec (b2z x) (b2z y)), (Z.ltb_spec (b2z y) (b2z z)), (Z.eqb_spec (b2z x) (b2z y)), (Z.eqb_spec (b2z y) (b2z z)),
    (Z.ltb_spec (b2z x) (b2z z)), (Z.eqb_spec (b2z x) (b2z z)); cbn in *; try lia; try done. by eapply IH.
Qed.

Abbreviation older := (fun a b : candidate => Is_true (newer a b)).

Ltac by_order :=
  unfold newer; repeat match goal with
  | |- context [Z.eqb ?a ?b] => destruct (Z.eqb_spec a b)
  | |- context [Z.ltb ?a ?b] => destruct (Z.ltb_spec a b)
  end; cbn [negb]; try lia; try done.

#[local] Instance newer_trans : Transitive older.
Proof.
  intros [na ua ma] [nb ub mb] [nc uc mc]. cbn. unfold newer. cbn. by_order. rewrite !Is_true_true. intros. by eapply ble_trans.
Qed.

#[local] Instance newer_total : Total older.
Proof.
  intros [na ua ma] [nb ub mb]. cbn. unfold newer. cbn. by_order; try (by left); try (by right); rewrite !Is_true_true. apply ble_total.
Qed.

Lemma newer_antisym a b : newer a b = true -> newer b a = true -> a = b.
Proof.
  destruct a as [na ua ma], b as [nb ub mb]. unfold newer. cbn. by_order. subst. intros. f_equal. by apply ble_antisym.
Qed.


Section Latest.
Context `{AE : AEAD, ZS : Zstd, SH : Sha256, HK : Hkdf} `{J : Json} `{RF : Rfc3339} `{RFF : Rfc3339Format}.

(** What loading the file at [p] gives when nothing fails. *)
Definition load_file (hook : option (bytes -> option bytes)) (files : gmap bytes file) (p : bytes) : result merr Manifest :=
  match files !! p with
  | None => Err (MRead ENOENT)
  | Some f =>
      if isGBREnvelope (f_data f) then LoadManifestFromData hook (f_data f)
      else match files !! manifestChecksumPath p with
           | None => Err MSumMissing
           | Some s =>
               if eqs (ToLower (TrimSpace (f_data s))) (hex_encode (sha256 (f_data f)))
               then LoadManifestFromData hook (f_data f) else Err MSumMismatch
           end
  end.

Lemma wp_verify p d Q w :
  (forall r w', same w w' -> (calm w -> r =
     match w_files w !! manifestChecksumPath p with
     | None => Err MSumMissing
     | Some s => if eqs (ToLower (TrimSpace (f_data s))) (hex_encode (sha256 d)) then Ok tt else Err MSumMismatch
     end) -> Q r w') -> wp (verifyManifestChecksum p d) Q w.
Proof.
  intros HQ. unfold verifyManifestChecksum. do 2 wp_step. apply wp_ReadFile; cbn beta iota.
  - intros e w' Hs He Hce. destruct e; wp_step; apply HQ; try done; intros Hc; specialize (Hce Hc); try done. by rewrite (He eq_refl).
  - intros f w' Hs Hf. destruct (eqs _ _) eqn:E; wp_step; apply HQ; try done; by rewrite Hf, E.
Qed.

Lemma wp_verifyManifestChecksum p d w : calm w ->
  wp (verifyManifestChecksum p d) (fun r w' => same w w' /\ r =
    match w_files w !! manifestChecksumPath p with
    | None => Err MSumMissing
    | Some s => if eqs (ToLower (TrimSpace (f_data s))) (hex_encode (sha256 d)) then Ok tt else Err MSumMismatch
    end) w.
Proof. intros Hc. apply wp_verify. intros r w' Hs Hr. split; [done | by apply Hr]. Qed.

Lemma wp_LoadManifest hook p w : calm w ->
  wp (LoadManifest hook p) (fun r w' => same w w' /\ r = load_file hook (w_files w) p) w.
Proof.
  intros Hc. unfold LoadManifest, load_file. do 2 wp_step. apply wp_ReadFile; cbn beta iota.
  - intros e w' Hs He Hce. specialize (Hce Hc). subst e. by rewrite (He eq_refl).
  - intros f w' Hs Hf. rewrite Hf. destruct (isGBREnvelope (f_data f)).
    + wp_steps. by destruct (LoadManifestFromData hook (f_data f)).
    + wp_step. eapply wp_mono; [apply wp_verifyManifestChecksum, (same_faults _ _ Hs Hc) |].
      intros r w'' [Hs' ->]. rewrite (same_files _ _ Hs). assert (S2 : same w w'') by (by etrans).
      destruct (w_files w !! manifestChecksumPath p) as [s|]; [|done]. destruct (eqs _ _); [|done].
      by destruct (LoadManifestFromData hook (f_data f)).
Qed.

(** The candidate a manifest file's name makes. *)
Definition cand_of (files : gmap bytes file) (dir n : bytes) : option candidate :=
  ts ← ParseManifestFilenameTimestamp n;
  Some (MkCand n (match parse_rfc3339 ts with Some t => unix t | None => 0 end)
          (match files !! FpJoin [dir; n] with Some f => f_mtime f | None => 0 end)).

Lemma wp_read_candidates dir names : forall w, calm w ->
  wp (read_candidates dir names) (fun r w' => same w w' /\ r = Ok (omap (cand_of (w_files w) dir) names)) w.
Proof.
  induction names as [|n names IH]; intros w Hc; cbn [read_candidates omap list_omap]; [by wp_step |].
  change (cand_of (w_files w) dir n) with (ts ← ParseManifestFilenameTimestamp n;
    Some (MkCand n (match parse_rfc3339 ts with Some t => unix t | None => 0 end)
          (match w_files w !! FpJoin [dir; n] with Some f => f_mtime f | None => 0 end))).
  destruct (ParseManifestFilenameTimestamp n) as [ts|]; cbn [mbind option_bind]; [|by apply IH].
  do 2 wp_step. apply wp_Stat; cbn beta iota.
  - intros e w' Hs He Hce. specialize (Hce Hc). subst e. rewrite (He eq_refl). wp_step.
    eapply wp_mono; [apply IH, (same_faults _ _ Hs Hc) |]. intros r w'' [Hs' ->]. rewrite (same_files _ _ Hs).
    wp_step. split; [by etrans | done].
  - intros f w' Hs Hf. rewrite Hf. wp_step.
    eapply wp_mono; [apply IH, (same_faults _ _ Hs Hc) |]. intros r w'' [Hs' ->]. rewrite (same_files _ _ Hs).
    wp_step. split; [by etrans | done].
Qed.

(** Trying the names in order, when nothing fails. *)
Definition tried (load : bytes -> result merr Manifest) (fe : option merr) (names : list bytes)
    (r : result merr (result (option merr) Manifest)) : Prop :=
  match r with
  | Ok (Ok m) => exists pre n post, names = pre ++ n :: post /\ load n = Ok m /\ Forall (fun n' => is_ok (load n') = false) pre
  | Ok (Err oe) => Forall (fun n' => is_ok (load n') = false) names /\ (oe = None -> names = [] /\ fe = None)
  | Err _ => False
  end.

Lemma wp_first_loadable hook dir names : forall fe w, calm w ->
  wp (first_loadable hook dir fe names) (fun r w' =>
    same w w' /\ tried (fun n => load_file hook (w_files w) (FpJoin [dir; n])) fe names r) w.
Proof.
  induction names as [|n names IH]; intros fe w Hc; cbn [first_loadable].
  { wp_step. split; [done |]. by split; [constructor |]. }
  do 2 wp_step. eapply wp_mono; [by apply wp_LoadManifest |]. intros r w' [Hs ->]. cbn beta iota.
  destruct (load_file hook (w_files w) (FpJoin [dir; n])) as [m|e] eqn:El.
  - wp_step. split; [done |]. exists [], n, names. by split_and!.
  - eapply wp_mono; [apply IH, (same_faults _ _ Hs Hc) |]. intros r w'' [Hs' Ht]. split; [by etrans |].
    rewrite (same_files _ _ Hs) in Ht. destruct r as [[m|oe]|]; [| |done]; cbn [tried] in *.
    + destruct Ht as (pre & n' & post & -> & Hl & Hf). exists (n :: pre), n', post. split_and!; [done | done |].
      constructor; [by rewrite El | done].
    + destruct Ht as [Hf Hn]. split; [constructor; [by rewrite El | done] |].
      intros E. destruct (Hn E) as [_ H]. by destruct fe.
Qed.

Definition candidates_of (files : gmap bytes file) (dir : bytes) : list candidate :=
  omap (cand_of files dir) (filter (fun n => isManifestFile n = true) (file_names (children dir files))).

(** In a sorted split the elements no later than the middle one come first. *)
Lemma sorted_split (l pre post : list candidate) c c' : l = pre ++ c :: post -> StronglySorted older l ->
  c' ∈ l -> newer c' c = true -> c' = c \/ c' ∈ pre.
Proof.
  intros -> Hs Hin Hn. apply elem_of_app in Hin as [? | [-> | Hin]%elem_of_cons]; [by right | by left | left].
  apply StronglySorted_app_1_r in Hs. apply StronglySorted_inv in Hs as [_ Hf].
  rewrite Forall_forall in Hf. by apply newer_antisym; [|apply Is_true_true, Hf].
Qed.

(** [c'] is later than [c]: a later second, or a later modification within
    the second, or a greater name with the same modification time. *)
Definition later (c' c : candidate) : Prop :=
  ca_unix c < ca_unix c' \/ ca_unix c = ca_unix c' /\
    (ca_mod c < ca_mod c' \/ ca_mod c = ca_mod c' /\ c' <> c /\ ble (ca_name c) (ca_name c') = true).

Lemma later_newer c' c : later c' c -> newer c' c = true /\ c' <> c.
Proof.
  intros [H | [H1 [H2 | (H2 & H3 & H4)]]]; (split; [|congruence || (intros ->; lia)]); by_order.
Qed.

(** The manifest [m] is the newest that loads in directory [dir]. *)
Definition newest (hook : option (bytes -> option bytes)) (files : gmap bytes file) (dir : bytes) (m : Manifest) : Prop :=
  exists c, c ∈ candidates_of files dir /\ load_file hook files (FpJoin [dir; ca_name c]) = Ok m /\
    forall c', c' ∈ candidates_of files dir -> later c' c -> is_ok (load_file hook files (FpJoin [dir; ca_name c'])) = false.

Lemma wp_LoadLatest hook metaDir cloudID w : calm w ->
  let dir := ManifestDir metaDir cloudID in
  let cs := candidates_of (w_files w) dir in
  let load c := load_file hook (w_files w) (FpJoin [dir; ca_name c]) in
  wp (LoadLatestManifest hook metaDir cloudID) (fun r w' => same w w' /\
    match r with
    | Ok m => exists c, c ∈ cs /\ load c = Ok m /\
        forall c', c' ∈ cs -> later c' c -> is_ok (load c') = false
    | Err MNotFound => cs = []
    | Err (MAllFailed _) => cs <> [] /\ forall c, c ∈ cs -> is_ok (load c) = false
    | Err _ => False
    end) w.
Proof.
  intros Hc dir cs load. unfold LoadLatestManifest, readManifestFiles, readManifestDirEntries. do 4 wp_step. apply wp_ReadDir; cbn beta iota.
  { intros e w' Hs He _. destruct (He Hc) as [-> Hch]. wp_step. split; [done |]. subst cs dir. unfold candidates_of. by rewrite Hch. }
  intros w' Hs. do 3 wp_step. eapply wp_mono; [apply wp_read_candidates, (same_faults _ _ Hs Hc) |].
  intros r w2 [Hs2 ->]. rewrite (same_files _ _ Hs). fold dir. fold (candidates_of (w_files w) dir). fold cs.
  assert (S2 : same w w2) by (by etrans). clear Hs Hs2.
  clearbody cs. destruct cs as [|c0 cs0] eqn:Ecs; [by wp_step |]. rewrite <- Ecs. set (l := merge_sort _ cs).
  assert (Hl : forall c, c ∈ l <-> c ∈ cs) by (intros c; unfold l; by rewrite merge_sort_Permutation).
  assert (Hss : StronglySorted older l) by (apply StronglySorted_merge_sort; apply _).
  wp_step. eapply wp_mono; [apply wp_first_loadable, (same_faults _ _ S2 Hc) |]. intros r w3 [Hs3 Ht].
  rewrite (same_files _ _ S2) in Ht. assert (S3 : same w w3) by (by etrans).
  destruct r as [[m|oe]|]; [| |done]; cbn [tried] in Ht.
  - destruct Ht as (pre & n & post & En & Hm & Hf). wp_step. split; [done |].
    apply fmap_app_inv in En as (pre' & rest & -> & Er & El). symmetry in Er.
    apply fmap_cons_inv in Er as (c & post' & -> & -> & ->). exists c. split; [rewrite <- Hl, El; set_solver |]. split; [done |].
    intros c' Hin [Hn Hne]%later_newer. rewrite <- Hl in Hin. destruct (sorted_split _ _ _ _ _ El Hss Hin Hn) as [|Hp]; [done |].
    rewrite Forall_fmap, Forall_forall in Hf. by apply (Hf c').
  - destruct Ht as [Hf Hn]. rewrite Forall_fmap, Forall_forall in Hf.
    assert (Hall : forall c, c ∈ cs -> is_ok (load c) = false) by (intros c Hin; apply (Hf c); by rewrite Hl).
    destruct oe as [e|]; wp_step; (split; [done |]); [split; [by rewrite Ecs | exact Hall] |].
    destruct (Hn eq_refl) as [E _]. apply fmap_nil_inv in E. assert (Hx : c0 ∈ l) by (rewrite Hl, Ecs; set_solver).
    rewrite E in Hx. by apply not_elem_of_nil in Hx.
Qed.

(** When nothing fails, [LoadLatestManifest] returns the newest manifest
    that loads: a candidate that is later than the chosen one does not load.  It
    reports not found exactly when the directory has no candidate, and another
    error only when there are candidates and none of them loads.  No file is
    changed. *)
Theorem load_latest_newest hook metaDir cloudID w : calm w ->
  let dir := ManifestDir metaDir cloudID in
  let cs := candidates_of (w_files w) dir in
  let load c := load_file hook (w_files w) (FpJoin [dir; ca_name c]) in
  wp (LoadLatestManifest hook metaDir cloudID) (fun r w' => same w w' /\
    match r with
    | Ok m => exists c, c ∈ cs /\ load c = Ok m /\
        forall c', c' ∈ cs -> later c' c -> is_ok (load c') = false
    | Err MNotFound => cs = []
    | Err (MAllFailed _) => cs <> [] /\ forall c, c ∈ cs -> is_ok (load c) = false
    | Err _ => False
    end) w.
Proof. apply wp_LoadLatest. Qed.
End Latest.

Module SaveWitness.
Import Toy.

(** Manifests that differ in the source number, written as that number. *)
Definition man (s : Z) : Manifest := NewManifest (go "2026-01-02T03:04:05Z") s [] (go "home") (go "/home") (go "dev1").

#[local] Instance toy_json : Json := {
  json_marshal m := x7b :: FormatInt (m_SourceID m);
  json_unmarshal d := match d with x7b :: n => man <$> ParseInt n | _ => None end;
  json_unmarshal_v1 d := None
}.
#[local] Instance toy_json_spec : JsonSpec toy_json.
Proof.
  refine {| json_text m := exists s, MinInt64 <= s <= MaxInt64 /\ m = man s |}; [|done].
  intros m (s & Hs & ->). unfold json_unmarshal, json_marshal, toy_json.
  change (m_SourceID (man s)) with s. by rewrite ParseInt_FormatInt.
Defined.
#[local] Instance save_uuid : Uuid := toy_uuid.
#[local] Instance save_parse : Rfc3339 := fun s =>
  match ParseInt s with Some n => Some (n * 10 ^ 9) | None => Some (1767323045 * 10 ^ 9) end.
#[local] Instance save_format : Rfc3339Format := FormatInt.

Definition empty_world : world := World ∅ [] [] 5 0.
Definition key : bytes := repeat x01 32.
Definition ent : bytes := repeat xaa 40.

Lemma man_loadable : loadable (man 7).
Proof. split; [exists 7; split; [by vm_compute | done] |]. split_and!; by vm_compute. Qed.

Lemma save_load_manifest_witness :
  let hook := Some (key_hook key) in
  exists p e' w', SaveManifestWithKey (go "/r") (man 7) key 0 ent empty_world = (Ok (p, e'), w') /\
    (LoadManifest hook p w').1 = Ok (man 7).
Proof.
  cbv zeta. pose proof (save_load_manifest (Some (key_hook key)) (go "/r") (man 7) key 0 ent empty_world man_loadable
    ltac:(by vm_compute) ltac:(by vm_compute) ltac:(right; split; [done | by vm_compute]) (conj eq_refl eq_refl)) as [H1 H2].
  destruct (H1 eq_refl) as [e' E].
  destruct (SaveManifestWithKey (go "/r") (man 7) key 0 ent empty_world) as [r w']. cbn [fst snd] in *.
  subst r. eexists _, e', w'. split; [done |]. by eapply H2.
Defined.

(** Three manifests, the newest of them damaged. *)
Definition stored (s : Z) : bytes := envelope (Zstd.Compress localManifestCompressor (json_marshal (man s))).
Definition three : world := World {[
  go "/r/manifests/c/100_dev1.json.zst" := File (stored 1) 9;
  go "/r/manifests/c/200_dev1.json.zst" := File (stored 2) 8;
  go "/r/manifests/c/300_dev1.json.zst" := File (take 40 (stored 3)) 7 ]} [] [] 5 0.

Lemma load_latest_newest_witness :
  (LoadLatestManifest None (go "/r") (go "c") three).1 = Ok (man 2) /\
  exists c, c ∈ candidates_of (w_files three) (ManifestDir (go "/r") (go "c")) /\
    load_file None (w_files three) (FpJoin [ManifestDir (go "/r") (go "c"); ca_name c]) = Ok (man 2).
Proof.
  pose proof (load_latest_newest None (go "/r") (go "c") three (conj eq_refl eq_refl)) as [_ H].
  assert (E : (LoadLatestManifest None (go "/r") (go "c") three).1 = Ok (man 2)) by by vm_compute.
  split; [exact E |]. rewrite E in H. destruct H as (c & Hc & Hl & _). exists c. exact (conj Hc Hl).
Defined.
End SaveWitness.
