(* ===== verification/Hook.v ===== *)
(** Hook: the registered decryption hook of manifests ([ManifestDecryptHook],
    [SetManifestDecryptHook] and [GetManifestDecryptHook] of
    [simple/manifest.go]).

    [ManifestIO] takes the hook as an argument of every load.  Here it is a
    cell beside the disk that a load reads when it comes to the encrypted
    payload, as the code does under its read lock. *)

From S2P Require Import Prelude GoStr Externs Compress Crypto FS BlobStore Manifest CloudID ManifestIO.
From stdpp Require Import base list gmap strings.
From Stdlib.Strings Require Import Byte.
Local Open Scope Z_scope.

Definition hook := bytes -> option bytes.

(** The package's variable and the disk. *)
Record program := Program { pg_hook : option hook; pg_disk : world }.

Section Ops.
Context `{AE : AEAD, ZS : Zstd, SH : Sha256, HK : Hkdf} `{J : Json} `{U : Uuid} `{RF : Rfc3339} `{RFF : Rfc3339Format}.

Definition SetManifestDecryptHook {E} (fn : option hook) : eff program E unit := modify (fun p => Program fn (pg_disk p)).
Definition GetManifestDecryptHook {E} : eff program E (option hook) := gets pg_hook.

Definition on_files {E A} : eff world E A -> eff program E A := zoom pg_disk (fun w p => Program (pg_hook p) w).

Definition LoadManifest (path : bytes) : eff program merr Manifest :=
  data ← on_files (wrap_err MRead (ReadFile path));
  _ ← on_files (if isGBREnvelope data then mret tt else verifyManifestChecksum path data);
  h ← GetManifestDecryptHook;
  match LoadManifestFromData h data with
  | Ok m => mret m
  | Err e => throw e
  end.

Definition SaveManifestWithKey (metaDir : bytes) (m : Manifest) (encryptKey : bytes) (now : Z) (ent : bytes) : eff program merr (bytes * bytes) :=
  on_files (ManifestIO.SaveManifestWithKey metaDir m encryptKey now ent).
End Ops.

(** * Facts *)

Section Facts.
Context `{AE : AEAD, ZS : Zstd, SH : Sha256, HK : Hkdf} `{J : Json} `{U : Uuid} `{RF : Rfc3339} `{RFF : Rfc3339Format}.
Context `{AES : !AEADSpec AE, ZSS : !ZstdSpec ZS, SHS : !Sha256Spec SH, HKS : !HkdfSpec HK, JS : !JsonSpec J}.

(** A load with the hook in the cell is one with that hook as its argument. *)
Lemma load_registered path p : LoadManifest path p = let '(r, w) := ManifestIO.LoadManifest (pg_hook p) path (pg_disk p) in (r, Program (pg_hook p) w).
Proof.
  unfold LoadManifest, ManifestIO.LoadManifest, on_files, GetManifestDecryptHook, zoom, gets, mbind, eff_bind, mret, eff_ret. cbn.
  destruct (wrap_err MRead (ReadFile path) (pg_disk p)) as [[d|e] w1]; cbn; [|done].
  destruct (isGBREnvelope d); [|destruct (verifyManifestChecksum path d w1) as [[u|e] w2]]; cbn; try done;
    by destruct (LoadManifestFromData (pg_hook p) d).
Qed.

Corollary load_loaded path p : (LoadManifest path p).1 = (ManifestIO.LoadManifest (pg_hook p) path (pg_disk p)).1.
Proof. rewrite load_registered. by destruct (ManifestIO.LoadManifest _ _ _). Qed.

(** What a registered hook decides.  A manifest saved with a key, when nothing
    fails and its name is free, loads back equal in a program that has
    registered the hook of that key, whatever hook was there before; once the
    hook is cleared, the same file is refused with [ErrNoManifestDecryptHook]. *)
Theorem hook_decides_loading h0 metaDir m key now ent w : loadable m -> 0 < blen key -> IVSize <= blen ent ->
  validateCloudID (manifest_cloudID m) = None -> validateCloudID (m_DeviceID m) = None -> calm w ->
  w_files w !! ManifestFilePath metaDir (manifest_cloudID m) (manifest_time m now) (m_DeviceID m) = None ->
  exists path e' w', SaveManifestWithKey metaDir m key now ent (Program h0 w) = (Ok (path, e'), Program h0 w') /\
    (LoadManifest path (SetManifestDecryptHook (E := merr) (Some (key_hook key)) (Program h0 w')).2).1 = Ok m /\
    (LoadManifest path (SetManifestDecryptHook (E := merr) None (Program h0 w')).2).1 = Err MNoHook.
Proof.
  intros Hm Hk He Hcid Hdid Hc Hfree.
  pose proof (wp_Save_calm (Some (key_hook key)) metaDir m key now ent w Hm Hcid Hdid (or_intror (conj eq_refl He)) Hc) as Hs.
  unfold wp in Hs. unfold SaveManifestWithKey, on_files, zoom. cbn [pg_disk pg_hook].
  destruct (ManifestIO.SaveManifestWithKey metaDir m key now ent w) as [r w'] eqn:E. cbn [fst snd] in Hs. destruct Hs as (Hc' & Hf & Hok).
  destruct (Hf Hfree) as [[e' ->] _]. destruct (Hok _ _ eq_refl) as (payload & ent1 & t & Ep & Hw & Hl).
  eexists _, e', w'. split; [done |]. rewrite !load_loaded. cbn [SetManifestDecryptHook modify fst snd pg_hook pg_disk].
  rewrite !(LoadManifest_calm _ _ w' _ t Hc' Hw (proj1 (envelope_strip payload))), Hl.
  by rewrite (load_payload_unhooked m key ent payload ent1 Hk Ep).
Qed.
End Facts.

(** A witness, at the save of [ManifestIO]. *)
Module HookWitness.
Import Toy SaveWitness.
#[local] Existing Instances toy_json toy_json_spec save_uuid save_parse save_format.

Lemma hook_decides_loading_witness :
  exists path e' w', SaveManifestWithKey (go "/r") (man 7) key 0 ent (Program None empty_world) = (Ok (path, e'), Program None w') /\
    (LoadManifest path (SetManifestDecryptHook (E := merr) (Some (key_hook key)) (Program None w')).2).1 = Ok (man 7) /\
    (LoadManifest path (SetManifestDecryptHook (E := merr) None (Program None w')).2).1 = Err MNoHook.
Proof.
  apply (hook_decides_loading None (go "/r") (man 7) key 0 ent empty_world man_loadable); by vm_compute.
Defined.
End HookWitness.
