(* ===== verification/RestorePath.v ===== *)
(** RestorePath: lexical confinement of restore paths ([simple/restore.go],
    [safeRestorePath], [safeRestoreComponents] and the link checker).

    [cwd] is the working directory [filepath.Abs] resolves against. *)

From S2P Require Import Prelude GoStr Manifest.
From stdpp Require Import base list gmap strings.
From Stdlib.Strings Require Import Byte.
Local Open Scope Z_scope.

Inductive perr := PEmpty | PAbsolute | PEscapes | PStat (p : bytes) | PLink (p : bytes).

#[export] Instance perr_eq_dec : EqDecision perr.
Proof. solve_decision. Defined.

(** [filepath.Abs] on Unix. *)
Definition Abs (cwd p : bytes) : bytes := if IsAbs p then Clean p else FpJoin [cwd; p].

Definition drive_prefix (p : bytes) : bool :=
  match p with
  | a :: b :: _ => bool_decide (b = colon) && (((65 <=? b2z a) && (b2z a <=? 90)) || ((97 <=? b2z a) && (b2z a <=? 122)))
  | _ => false
  end.

Definition safeRestorePath (cwd targetDir relPath : bytes) : result perr bytes :=
  if eqs relPath [] then Err PEmpty
  else if HasPrefix relPath s_slash || HasPrefix relPath [backslash] then Err PAbsolute
  else if drive_prefix relPath then Err PAbsolute
  else
    let clean := Clean relPath in
    if eqs clean s_dotdot || HasPrefix clean (s_dotdot ++ s_slash) then Err PEscapes
    else
      let absTarget := Abs cwd targetDir in
      let joined := FpJoin [absTarget; clean] in
      let rel := RelAbs absTarget joined in
      if negb (eqs rel s_dot) && HasPrefix rel (s_dotdot ++ s_slash) then Err PEscapes
      else Ok joined.

Definition safeRestoreComponents (cwd targetDir relPath : bytes) : result perr (list bytes) :=
  safeRestorePath cwd targetDir relPath ≫= fun abs =>
  let rel := RelAbs (Abs cwd targetDir) abs in
  if eqs rel s_dot then Ok []
  else Ok (filter (fun part => part <> [] /\ part <> s_dot) (Split slash rel)).

(** ** The link checker *)

Record linkChecker := MkLC { lc_targetDir : bytes; lc_verified : gset bytes }.

Definition newLinkChecker (cwd targetDir : bytes) : linkChecker := MkLC (Abs cwd targetDir) ∅.

Section Links.
(** [isLinkOrReparse] as the environment answers it. *)
Variable isLinkOrReparse : bytes -> result unit bool.

Fixpoint link_loop (useCache : bool) (verified : gset bytes) (cur : bytes) (parts : list bytes)
  : result perr (gset bytes) :=
  match parts with
  | [] => Ok verified
  | part :: rest =>
      let cur' := FpJoin [cur; part] in
      if useCache && bool_decide (cur' ∈ verified) then link_loop useCache verified cur' rest
      else
        match isLinkOrReparse cur' with
        | Err _ => Err (PStat cur')
        | Ok true => Err (PLink cur')
        | Ok false => link_loop useCache ({[cur']} ∪ verified) cur' rest
        end
  end.

Definition ensureLinkFree (lc : linkChecker) (absPath : bytes) : result perr linkChecker :=
  let rel := RelAbs (lc_targetDir lc) absPath in
  if eqs rel s_dot then Ok lc
  else
    v ← link_loop true (lc_verified lc) (lc_targetDir lc) (Split slash rel);
    Ok (MkLC (lc_targetDir lc) v).

Definition recheckLinkFree (lc : linkChecker) (absPath : bytes) : result perr unit :=
  let rel := RelAbs (lc_targetDir lc) absPath in
  if eqs rel s_dot then Ok tt
  else
    _ ← link_loop false ∅ (lc_targetDir lc) (Split slash rel);
    Ok tt.
End Links.

(** * Facts *)

(** The absolute path with segments [l]. *)
Definition abs_path (l : list bytes) : bytes := slash :: GoStr.Join s_slash l.

Lemma Split_abs_path l : l <> [] -> Forall normal l -> Split slash (abs_path l) = [] :: l.
Proof.
  intros Hne Hf. unfold abs_path. change (slash :: GoStr.Join s_slash l) with ([] ++ slash :: GoStr.Join s_slash l).
  rewrite Split_app_gen. change (Split slash []) with [@nil byte]. cbn [app]. f_equal.
  unfold s_slash. apply Split_Join; [done |]. eapply Forall_impl; [done |]. apply normal_noslash.
Qed.

Lemma clean_segs_normal r l : Forall normal l -> clean_segs r l = l.
Proof. intros H. rewrite <- (app_nil_l l) at 1. by rewrite clean_segs_app. Qed.

Lemma abs_segs_abs_path l : Forall normal l -> abs_segs (abs_path l) = l.
Proof.
  intros Hf. unfold abs_segs. destruct l as [|s l]; [done |]. rewrite Split_abs_path by done.
  change ([] :: s :: l) with ([[]] ++ s :: l). rewrite clean_segs_app by done. done.
Qed.

Lemma IsAbs_abs_path l : IsAbs (abs_path l) = true.
Proof. unfold abs_path. rewrite IsAbs_cons. by apply bool_decide_true. Qed.

(** Every cleaned absolute path is the absolute path of its segments, which
    are ordinary names. *)
Lemma ok_stack_rooted st : ok_stack true st -> Forall normal st.
Proof. by induction 1; [constructor | constructor |]. Qed.

Lemma abs_segs_normal p : Forall normal (abs_segs p).
Proof.
  unfold abs_segs, clean_segs. apply Forall_reverse, ok_stack_rooted, ok_stack_foldl; [constructor | apply Split_slashfree].
Qed.

Lemma Clean_abs p : IsAbs p = true -> Clean p = abs_path (abs_segs p).
Proof. intros H. unfold Clean. by rewrite H. Qed.

Lemma FpJoin_abs base l : IsAbs base = true -> l <> [] -> Forall normal l ->
  FpJoin (base :: l) = abs_path (abs_segs base ++ l).
Proof.
  intros Ha Hne Hf. rewrite FpJoin_normal by done. unfold root_pre, root_segs, abs_path, abs_segs. rewrite Ha.
  destruct (eqs base []) eqn:E; [apply eqs_true in E; by subst |]. done.
Qed.

Lemma Abs_abs cwd t : IsAbs cwd = true -> exists l, Forall normal l /\ Abs cwd t = abs_path l.
Proof.
  intros Hc. unfold Abs. destruct (IsAbs t) eqn:Et.
  - exists (abs_segs t). split; [apply abs_segs_normal | by apply Clean_abs].
  - destruct cwd as [|c cwd]; [done |]. set (w := c :: cwd) in *. unfold FpJoin.
    rewrite filter_cons_True by done. destruct t as [|b t].
    + rewrite filter_cons_False by (by intros []). cbn [filter list_filter]. change (GoStr.Join s_slash [w]) with w.
      exists (abs_segs w). split; [apply abs_segs_normal | by apply Clean_abs].
    + rewrite filter_cons_True by done. cbn [filter list_filter].
      set (p := GoStr.Join s_slash [w; b :: t]).
      assert (IsAbs p = true).
      { unfold p. change (GoStr.Join s_slash [w; b :: t]) with (w ++ s_slash ++ (b :: t)). by rewrite IsAbs_app. }
      exists (abs_segs p). split; [apply abs_segs_normal | by apply Clean_abs].
Qed.

(** A cleaned relative path that does not start with [..] is made of ordinary
    names. *)
Lemma ok_stack_no_dots st : ok_stack false st -> last st <> Some s_dotdot -> Forall normal st.
Proof.
  induction 1 as [|s st Hs Hok IH|st _ Hf]; intros Hl; [constructor | |].
  - constructor; [done |]. apply IH. intros Hc. apply Hl. rewrite last_cons, Hc. done.
  - exfalso. apply Hl. rewrite last_cons. destruct (last st) as [x|] eqn:E; [|done].
    apply last_Some_elem_of in E. eapply Forall_forall in Hf; [|done]. by rewrite Hf.
Qed.

(** The segments of a cleaned relative path. *)
Definition rel_segs (p : bytes) : list bytes := clean_segs false (Split slash p).

Lemma rel_segs_ok p : Forall (fun s => s <> [] /\ slash ∉ s) (rel_segs p).
Proof. apply Forall_forall. intros s. apply clean_segs_seg, Split_slashfree. Qed.

Lemma rel_segs_normal p : head (rel_segs p) <> Some s_dotdot -> Forall normal (rel_segs p).
Proof.
  unfold rel_segs, clean_segs. rewrite head_reverse. intros H. apply Forall_reverse, ok_stack_no_dots; [|done].
  apply ok_stack_foldl; [constructor | apply Split_slashfree].
Qed.

(** A joined path starts with the component [d] exactly when its first
    segment is [d]. *)
Lemma Join_first d l : (slash ∉ d) -> d <> [] -> Forall (fun s => s <> [] /\ slash ∉ s) l ->
  eqs (GoStr.Join s_slash l) d || HasPrefix (GoStr.Join s_slash l) (d ++ s_slash) = true <-> head l = Some d.
Proof.
  intros Hs Hd Hf. unfold HasPrefix. rewrite orb_true_iff, eqs_true, bool_decide_eq_true.
  destruct l as [|x [|y l]]; cbn [GoStr.Join head].
  - split; [|done]. intros [<- | [k Hk]]; [done |]. by destruct d.
  - apply Forall_cons in Hf as [[_ Hx] _]. split; [|by intros [= ->]; left].
    intros [-> | [k ->]]; [done |]. exfalso. apply Hx. set_solver by done.
  - apply Forall_cons in Hf as [[_ Hx] _]. split.
    + intros [<- | [k Hk]]; [set_solver by done |]. f_equal. unfold s_slash in Hk. rewrite <- app_assoc in Hk.
      cbn [app] in Hk. by apply first_sep_unique in Hk as [? _].
    + intros [= ->]. right. unfold s_slash. eexists. by rewrite <- app_assoc.
Qed.

Lemma strip_common_app a b : strip_common a (a ++ b) = ([], b).
Proof. induction a as [|x a IH]; [by destruct b |]. cbn. by rewrite eqs_refl. Qed.

(** The path from a directory to what is below it. *)
Lemma RelAbs_below a l : Forall normal a -> Forall normal l ->
  RelAbs (abs_path a) (abs_path (a ++ l)) = match l with [] => s_dot | _ => GoStr.Join s_slash l end.
Proof.
  intros Ha Hl. unfold RelAbs. rewrite !abs_segs_abs_path by (try apply Forall_app; done).
  rewrite strip_common_app. by destruct l.
Qed.

Lemma FpJoin_abs_path a l : Forall normal a -> Forall normal l ->
  FpJoin [abs_path a; match l with [] => s_dot | _ => GoStr.Join s_slash l end] = abs_path (a ++ l).
Proof.
  intros Ha Hl. set (x := match l with [] => s_dot | _ => _ end).
  assert (Hx : x <> []).
  { subst x. destruct l as [|s l]; [done |]. apply (Join_nonnil slash _ s); [by left |].
    apply normal_ne. by inversion Hl. }
  unfold FpJoin. rewrite !filter_cons_True by done. cbn [filter list_filter].
  change (GoStr.Join s_slash [abs_path a; x]) with (abs_path a ++ slash :: x).
  rewrite Clean_abs by (rewrite IsAbs_app; [apply IsAbs_abs_path | done]). f_equal.
  unfold abs_segs. rewrite Split_app_gen. destruct l as [|s l].
  - subst x. rewrite app_nil_r. change (Split slash s_dot) with [s_dot]. unfold clean_segs. rewrite foldl_app. cbn [foldl].
    apply (abs_segs_abs_path a Ha).
  - assert (Split slash x = s :: l) as ->.
    { subst x. apply Split_Join; [done |]. eapply Forall_impl; [done |]. apply normal_noslash. }
    rewrite clean_segs_app by done. f_equal. apply (abs_segs_abs_path a Ha).
Qed.

Lemma Clean_rel p : IsAbs p = false ->
  Clean p = match rel_segs p with [] => s_dot | _ => GoStr.Join s_slash (rel_segs p) end.
Proof.
  intros H. unfold Clean. rewrite H. fold (rel_segs p). pose proof (rel_segs_ok p) as Hok.
  destruct (rel_segs p) as [|s l]; [done |]. rewrite (proj2 (eqs_false _ _)); [done |].
  apply (Join_nonnil slash _ s); [by left |]. by apply Forall_cons in Hok as [[? _] _].
Qed.

(** ** What safeRestorePath computes *)

Definition target_segs (cwd targetDir : bytes) : list bytes := abs_segs (Abs cwd targetDir).

Lemma target_segs_spec cwd t : IsAbs cwd = true ->
  Forall normal (target_segs cwd t) /\ Abs cwd t = abs_path (target_segs cwd t).
Proof.
  intros Hc. destruct (Abs_abs cwd t Hc) as (l & Hl & He). unfold target_segs. rewrite He, abs_segs_abs_path; done.
Qed.

Definition rejected_absolute (p : bytes) : bool :=
  HasPrefix p s_slash || HasPrefix p [backslash] || drive_prefix p.

(** [safeRestorePath] in closed form: the two lexical checks after the
    cleaning decide the same thing, the second never fires. *)
Lemma safeRestorePath_spec cwd t p : IsAbs cwd = true ->
  safeRestorePath cwd t p =
    if eqs p [] then Err PEmpty
    else if rejected_absolute p then Err PAbsolute
    else if bool_decide (head (rel_segs p) = Some s_dotdot) then Err PEscapes
    else Ok (abs_path (target_segs cwd t ++ rel_segs p)).
Proof.
  intros Hc. unfold safeRestorePath, rejected_absolute. destruct (eqs p []); [done |].
  destruct (HasPrefix p s_slash) eqn:Hs; [done |]. destruct (HasPrefix p [backslash]); [done |].
  destruct (drive_prefix p); [done |]. cbn [orb]. rewrite Clean_rel by done.
  pose proof (Join_first s_dotdot (rel_segs p) ltac:(by_decide) ltac:(done) (rel_segs_ok p)) as Hj.
  pose proof (target_segs_spec cwd t Hc) as [Ht Ha].
  case_bool_decide as Hd.
  - apply Hj in Hd as Hd'. destruct (rel_segs p); [done |]. by rewrite Hd'.
  - pose proof (rel_segs_normal p Hd) as Hn. rewrite Ha.
    rewrite FpJoin_abs_path, RelAbs_below by done.
    destruct (rel_segs p) as [|s l] eqn:E; [done |].
    destruct (eqs (GoStr.Join s_slash (s :: l)) s_dotdot || _) eqn:E2; [by destruct Hd; apply Hj |].
    apply orb_false_iff in E2 as [_ ->]. by rewrite andb_false_r.
Qed.

Lemma filter_parts l : Forall normal l -> filter (fun part => part <> [] /\ part <> s_dot) l = l.
Proof.
  induction 1 as [|s l (?&?&?&?) _ IH]; [done |]. rewrite filter_cons_True by done. by rewrite IH.
Qed.

Lemma safeRestoreComponents_spec cwd t p q : IsAbs cwd = true -> safeRestorePath cwd t p = Ok q ->
  Forall normal (rel_segs p) /\ q = abs_path (target_segs cwd t ++ rel_segs p) /\
  safeRestoreComponents cwd t p = Ok (rel_segs p).
Proof.
  intros Hc Hq. unfold safeRestoreComponents. rewrite Hq. cbn [mbind result_bind].
  rewrite safeRestorePath_spec in Hq by done. destruct (eqs p []); [done |]. destruct (rejected_absolute p); [done |].
  case_bool_decide as Hd; [done |]. apply ok_inv in Hq. subst q. pose proof (rel_segs_normal p Hd) as Hn.
  pose proof (target_segs_spec cwd t Hc) as [Ht Ha]. split_and!; [done | done |].
  rewrite Ha. rewrite RelAbs_below by done. destruct (rel_segs p) as [|s l] eqn:E; [done |].
  rewrite (proj2 (eqs_false _ _)).
  - f_equal. unfold s_slash. rewrite Split_Join; [by apply filter_parts | done |].
    eapply Forall_impl; [done |]. apply normal_noslash.
  - intros He. assert (Hsp : Split slash (GoStr.Join s_slash (s :: l)) = s :: l).
    { unfold s_slash. apply Split_Join; [done |]. eapply Forall_impl; [done |]. apply normal_noslash. }
    rewrite He in Hsp. change (Split slash s_dot) with [s_dot] in Hsp. simplify_eq. inversion Hn as [|?? Hx]. by destruct Hx as (_ & ? & _).
Qed.

(** C28: whatever relative path a manifest names, [safeRestorePath] either
    answers a path made of the target directory's segments followed by
    ordinary names (no [..], no [.], no separator), with
    [safeRestoreComponents] returning exactly those names, or it rejects the
    path, and then only because it is empty, absolute (Unix, backslash or
    drive form) or its cleaned form climbs above the target. *)
Theorem safe_restore_confined cwd t p : IsAbs cwd = true ->
  match safeRestorePath cwd t p with
  | Ok q => exists l, Forall normal l /\ q = abs_path (target_segs cwd t ++ l) /\ safeRestoreComponents cwd t p = Ok l
  | Err PEmpty => p = []
  | Err PAbsolute => rejected_absolute p = true
  | Err PEscapes => head (rel_segs p) = Some s_dotdot
  | Err _ => False
  end.
Proof.
  intros Hc. destruct (safeRestorePath cwd t p) as [q|e] eqn:E.
  - exists (rel_segs p). by apply safeRestoreComponents_spec.
  - rewrite safeRestorePath_spec in E by done. destruct (eqs p []) eqn:Ep.
    { injection E as <-. by apply eqs_true. }
    destruct (rejected_absolute p); [by injection E as <- |].
    case_bool_decide; [by injection E as <- | done].
Qed.

Lemma rel_segs_join l : l <> [] -> Forall normal l -> rel_segs (GoStr.Join s_slash l) = l.
Proof.
  intros Hne Hl. unfold rel_segs, s_slash. rewrite Split_Join; [by apply clean_segs_normal | done |].
  eapply Forall_impl; [done |]. apply normal_noslash.
Qed.

(** A manifest path made of ordinary names is restored under those names. *)
Lemma safe_restore_accepts cwd t l : IsAbs cwd = true -> l <> [] -> Forall normal l ->
  rejected_absolute (GoStr.Join s_slash l) = false ->
  safeRestorePath cwd t (GoStr.Join s_slash l) = Ok (abs_path (target_segs cwd t ++ l)) /\
  safeRestoreComponents cwd t (GoStr.Join s_slash l) = Ok l.
Proof.
  intros Hc Hne Hl Hr. assert (H : safeRestorePath cwd t (GoStr.Join s_slash l) = Ok (abs_path (target_segs cwd t ++ l))).
  { rewrite safeRestorePath_spec, Hr, rel_segs_join by done. rewrite (proj2 (eqs_false _ _)).
    - rewrite bool_decide_false; [done |]. destruct l as [|s l]; [done |]. intros [= ->].
      apply Forall_cons in Hl as [(_ & _ & ? & _) _]. done.
    - destruct l as [|s l]; [done |]. apply (Join_nonnil slash _ s); [by left | apply normal_ne; by inversion Hl]. }
  split; [done |]. apply safeRestoreComponents_spec in H as (_ & _ & H); [|done]. by rewrite rel_segs_join in H.
Qed.

(** ** The link checker finds every link below the target *)
Section LinkFacts.
Variable isLinkOrReparse : bytes -> result unit bool.
Abbreviation notlink p := (isLinkOrReparse p = Ok false).

(** The components of [abs_path (a ++ l)] below [abs_path a]. *)
Definition below (a l : list bytes) (p : bytes) : Prop :=
  exists k, k <> [] /\ k `prefix_of` l /\ p = abs_path (a ++ k).

Lemma below_nil a p : ~ below a [] p.
Proof. intros (k & Hk & Hp & _). by apply prefix_nil_inv in Hp. Qed.

Lemma below_cons a s l p : below a (s :: l) p <-> p = abs_path (a ++ [s]) \/ below (a ++ [s]) l p.
Proof.
  split.
  - intros (k & Hk & [r Hp] & ->). destruct k as [|x k]; [done |]. cbn in Hp. injection Hp as -> ->.
    destruct k as [|y k]; [by left |]. right. exists (y :: k). split_and!; [done | by exists r | by rewrite <- app_assoc].
  - intros [-> | (k & Hk & [r ->] & ->)].
    + exists [s]. split_and!; [done | by exists l | done].
    + exists (s :: k). split_and!; [done | by exists r | by rewrite <- app_assoc].
Qed.

Lemma step_below a s : Forall normal a -> normal s -> FpJoin [abs_path a; s] = abs_path (a ++ [s]).
Proof. intros Ha Hs. apply (FpJoin_abs_path a [s]); [done | by constructor]. Qed.

(** The loop succeeds exactly when no component is a link, given that what
    the cache holds is not. *)
Lemma link_loop_exact uc l : forall a v, Forall normal a -> Forall normal l ->
  (uc = true -> forall p, p ∈ v -> notlink p) ->
  match link_loop isLinkOrReparse uc v (abs_path a) l with
  | Ok v' => (forall p, below a l p -> notlink p) /\ (uc = true -> forall p, p ∈ v' -> notlink p)
  | Err e => exists p, below a l p /\
      (e = PStat p /\ isLinkOrReparse p = Err tt \/ e = PLink p /\ isLinkOrReparse p = Ok true)
  end.
Proof.
  induction l as [|s l IH]; intros a v Ha Hl Hv; cbn [link_loop].
  - split; [|done]. intros p Hp. by apply below_nil in Hp.
  - apply Forall_cons in Hl as [Hs Hl]. rewrite step_below by done.
    assert (Ha' : Forall normal (a ++ [s])) by (apply Forall_app; auto).
    assert (Hnext : forall v', notlink (abs_path (a ++ [s])) -> (uc = true -> forall p, p ∈ v' -> notlink p) ->
      match link_loop isLinkOrReparse uc v' (abs_path (a ++ [s])) l with
      | Ok v'' => (forall p, below a (s :: l) p -> notlink p) /\ (uc = true -> forall p, p ∈ v'' -> notlink p)
      | Err e => exists p, below a (s :: l) p /\
          (e = PStat p /\ isLinkOrReparse p = Err tt \/ e = PLink p /\ isLinkOrReparse p = Ok true)
      end).
    { intros v' Hn Hv'. specialize (IH _ v' Ha' Hl Hv'). destruct (link_loop _ _ _ _ _).
      - destruct IH as [IH1 IH2]. split; [|done]. intros p [-> | Hp]%below_cons; auto.
      - destruct IH as (p & Hp & He). exists p. split; [apply below_cons; by right | done]. }
    case_bool_decide as Hin; destruct uc; cbn [andb].
    1: { apply Hnext; auto. }
    all: destruct (isLinkOrReparse (abs_path (a ++ [s]))) as [[]|[]] eqn:E.
    all: try (exists (abs_path (a ++ [s])); split; [apply below_cons; by left | by auto]).
    all: apply Hnext; [done |].
    all: intros Hu p; first [done | intros [->%elem_of_singleton | Hp]%elem_of_union; [done | by apply Hv]].
Qed.

Lemma Split_rel l : l <> [] -> Forall normal l -> Split slash (GoStr.Join s_slash l) = l.
Proof.
  intros Hne Hl. unfold s_slash. apply Split_Join; [done |]. eapply Forall_impl; [done |]. apply normal_noslash.
Qed.

Lemma rel_not_dot l : l <> [] -> Forall normal l -> eqs (GoStr.Join s_slash l) s_dot = false.
Proof.
  intros Hne Hl. apply eqs_false. intros He. pose proof (Split_rel l Hne Hl) as Hs. rewrite He in Hs.
  change (Split slash s_dot) with [s_dot] in Hs. subst l. apply Forall_cons in Hl as [(_ & ? & _) _]. done.
Qed.

(** For a path below the target, [ensureLinkFree] (whose cache may hold
    only components found not to be links) succeeds exactly when no
    component below the target is a symlink or unreadable, keeps its cache
    sound, and otherwise names the offending component; the re-check after
    the write decides the same question without the cache. *)
Theorem link_checker_exact a l v : Forall normal a -> Forall normal l -> (forall p, p ∈ v -> notlink p) ->
  match ensureLinkFree isLinkOrReparse (MkLC (abs_path a) v) (abs_path (a ++ l)) with
  | Ok lc' => (forall p, below a l p -> notlink p) /\ lc_targetDir lc' = abs_path a /\
      (forall p, p ∈ lc_verified lc' -> notlink p) /\
      recheckLinkFree isLinkOrReparse lc' (abs_path (a ++ l)) = Ok tt
  | Err e => exists p, below a l p /\
      (e = PStat p /\ isLinkOrReparse p = Err tt \/ e = PLink p /\ isLinkOrReparse p = Ok true) /\
      exists e', recheckLinkFree isLinkOrReparse (MkLC (abs_path a) v) (abs_path (a ++ l)) = Err e'
  end.
Proof.
  intros Ha Hl Hv. unfold ensureLinkFree, recheckLinkFree. cbn [lc_targetDir lc_verified].
  rewrite RelAbs_below by done. destruct l as [|s l].
  { rewrite eqs_refl. cbn [lc_targetDir]. rewrite RelAbs_below by done. rewrite eqs_refl. split_and!; try done.
    intros p Hp. by apply below_nil in Hp. }
  rewrite rel_not_dot, Split_rel by done.
  pose proof (link_loop_exact true (s :: l) a v Ha Hl (fun _ => Hv)) as H1.
  pose proof (link_loop_exact false (s :: l) a ∅ Ha Hl ltac:(done)) as H2.
  destruct (link_loop isLinkOrReparse true _ _ _) as [v1|e1]; cbn [mbind result_bind].
  - destruct H1 as [Hb Hv1]. cbn [lc_targetDir lc_verified]. rewrite RelAbs_below, rel_not_dot, Split_rel by done.
    split_and!; [done | done | by apply Hv1 |].
    destruct (link_loop isLinkOrReparse false _ _ _) as [v2|e2]; [done |].
    destruct H2 as (p & Hp & [[_ He] | [_ He]]); rewrite (Hb p Hp) in He; done.
  - destruct H1 as (p & Hp & He). exists p. split_and!; [done | done |].
    destruct (link_loop isLinkOrReparse false _ _ _) as [v2|e2]; [|by exists e2].
    destruct H2 as [Hb _]. destruct He as [[_ He] | [_ He]]; rewrite (Hb p Hp) in He; done.
Qed.
End LinkFacts.

(** ** What a link is *)

(** How [os.Lstat] fails. *)
Inductive lstat_err := LNotExist | LOther.

(** Bits of [os.FileMode]. *)
Definition ModeSymlink : Z := 2 ^ 27.
Definition ModeIrregular : Z := 2 ^ 19.

(** [isLinkOrReparse]; [lstat] gives the mode of what is at a path. *)
Definition isLinkOrReparse (lstat : bytes -> result lstat_err Z) (path : bytes) : result unit bool :=
  match lstat path with
  | Err LNotExist => Ok false
  | Err LOther => Err tt
  | Ok m => Ok (negb (Z.land m ModeSymlink =? 0) || negb (Z.land m ModeIrregular =? 0))
  end.

Lemma land_bit m n : 0 <= n -> negb (Z.land m (2 ^ n) =? 0) = Z.testbit m n.
Proof.
  intros Hn. destruct (Z.eqb_spec (Z.land m (2 ^ n)) 0) as [E|E]; cbn.
  - symmetry. apply Z.bits_inj_iff in E. specialize (E n). rewrite Z.land_spec, Z.pow2_bits_true, andb_true_r, Z.bits_0 in E by done. done.
  - destruct (Z.testbit m n) eqn:T; [done |]. exfalso. apply E. apply Z.bits_inj'. intros i Hi. rewrite Z.land_spec, Z.bits_0.
    destruct (decide (i = n)) as [-> |]; [by rewrite T | rewrite Z.pow2_bits_false by done; apply andb_false_r].
Qed.

(** A path may be passed just when nothing is there or what is there is neither
    a symlink nor irregular: a failing [Lstat] never counts as no link. *)
Lemma isLinkOrReparse_false lstat p : isLinkOrReparse lstat p = Ok false <->
  lstat p = Err LNotExist \/ exists m, lstat p = Ok m /\ Z.testbit m 27 = false /\ Z.testbit m 19 = false.
Proof.
  unfold isLinkOrReparse, ModeSymlink, ModeIrregular. destruct (lstat p) as [m|[]].
  - rewrite !land_bit by lia. split.
    + intros [= [H1 H2]%orb_false_elim]. right. by exists m.
    + intros [?|(m' & [= <-] & -> & ->)]; done.
  - split; [intros _; by left | done].
  - split; [done |]. by intros [?|(m & ? & _)].
Qed.

Module PathWitness.
Definition w_cwd : bytes := go "/home/u".
Definition w_target : bytes := go "out/./x".

(** The confinement theorem at a path that is cleaned, and what it gives. *)
Lemma safe_restore_confined_witness :
  exists l, safeRestoreComponents w_cwd w_target (go "docs/../a//b.txt") = Ok l /\ Forall normal l /\
    safeRestorePath w_cwd w_target (go "docs/../a//b.txt") = Ok (go "/home/u/out/x/a/b.txt").
Proof.
  pose proof (safe_restore_confined w_cwd w_target (go "docs/../a//b.txt") ltac:(by vm_compute)) as H.
  assert (E : safeRestorePath w_cwd w_target (go "docs/../a//b.txt") = Ok (go "/home/u/out/x/a/b.txt")) by by vm_compute.
  rewrite E in H. destruct H as (l & Hl & _ & Hc). exists l. by split_and!.
Defined.

(** A file system in which [/t/evil] is a symlink. *)
Definition w_links (p : bytes) : result unit bool := Ok (eqs p (go "/t/evil")).

Lemma link_checker_exact_witness :
  match ensureLinkFree w_links (MkLC (abs_path [go "t"]) ∅) (abs_path ([go "t"] ++ [go "evil"; go "f"])) with
  | Ok _ => False
  | Err e => e = PLink (go "/t/evil")
  end.
Proof.
  pose proof (link_checker_exact w_links [go "t"] [go "evil"; go "f"] ∅ ltac:(by_decide) ltac:(by_decide)
    ltac:(intros p Hp; by apply elem_of_empty in Hp)) as H.
  assert (E : ensureLinkFree w_links (MkLC (abs_path [go "t"]) ∅) (abs_path ([go "t"] ++ [go "evil"; go "f"])) =
    Err (PLink (go "/t/evil"))) by by vm_compute.
  rewrite E in H |- *. by destruct H as (p & _ & [[? _] | [? _]] & _).
Defined.
End PathWitness.
