(* ===== verification/SecureDir.v ===== *)
(** SecureDir: the directory handles restore writes through
    ([simple/restore_secure.go], [simple/restore_secure_posix.go]).

    The file system is a map from inode numbers to directories, files and
    symbolic links.  Before every system call another process may change it
    in any way (an entry of the schedule [sw_env]), and the call may fail.
    A descriptor refers to the inode it was opened on, whatever becomes of
    the name.  [sw_touched] records the inodes the modelled calls change, so
    that a theorem can say which ones they never touch (creating the restore
    root itself, where the user asked for it, is not recorded).

    The restore code passes single path elements.  What the kernel does with
    a name that contains a separator is the parameter [Walk]. *)

From S2P Require Import Prelude GoStr FS Manifest RestorePath.
From stdpp Require Import base list gmap strings.
From Stdlib.Strings Require Import Byte.
Local Open Scope Z_scope.

Inductive errno := NOENT | EXIST | NOTDIR | LOOP | ISDIR | NOTEMPTY | BADF | BUSY | IOERR.

#[export] Instance errno_eq_dec : EqDecision errno.
Proof. solve_decision. Defined.

(** Directories know their parent, for [..]. *)
Inductive inode :=
| IDir (parent : nat) (ents : gmap bytes nat)
| IFile (data : bytes) (mode : Z) (mtime : Z)
| ILink (target : bytes).

Abbreviation fs := (gmap nat inode).

(** What happens just before a system call: another process's change to the
    file system, and the failure of the call, if any, with the number of bytes
    a failing write still writes. *)
Record env_step := Env { env_act : fs -> fs; env_fault : option (errno * nat) }.

Record sw := SW {
  sw_fs : fs;
  sw_fds : gmap nat nat;
  sw_env : list env_step;
  sw_draws : nat;
  sw_touched : list nat
}.

(** The kernel's resolution of a name with separators, relative to a directory,
    to the directory of its last element and that element; and of the path of
    the restore root, following symlinks; and [os.MkdirAll]. *)
Class Walk := {
  walk_at : fs -> nat -> bytes -> result errno (nat * bytes);
  walk_root : fs -> bytes -> result errno nat;
  mkdir_all : bytes -> fs -> result errno fs
}.

Section Calls.
Context `{Walk}.

Definition set_fs (f : fs) (w : sw) : sw := SW f (sw_fds w) (sw_env w) (sw_draws w) (sw_touched w).
Definition set_fds (f : gmap nat nat) (w : sw) : sw := SW (sw_fs w) f (sw_env w) (sw_draws w) (sw_touched w).
Definition touch (i : nat) (w : sw) : sw := SW (sw_fs w) (sw_fds w) (sw_env w) (sw_draws w) (i :: sw_touched w).

Definition take_env (w : sw) : option (errno * nat) * sw :=
  match sw_env w with
  | [] => (None, w)
  | e :: es => (env_fault e, SW (env_act e (sw_fs w)) (sw_fds w) es (sw_draws w) (sw_touched w))
  end.

Definition scall {A} (k : sw -> result errno A * sw) : eff sw errno A :=
  fun w => match take_env w with
           | (Some (e, _), w') => (Err e, w')
           | (None, w') => k w'
           end.

(** The inode behind a descriptor. *)
Definition fd_inode (fd : option nat) (w : sw) : result errno nat :=
  match fd with
  | Some n => match sw_fds w !! n with Some i => Ok i | None => Err BADF end
  | None => Err BADF
  end.

Definition namei (f : fs) (i : nat) (name : bytes) : result errno (nat * bytes) :=
  if bool_decide (slash ∈ name) then walk_at f i name else Ok (i, name).

(** The directory a name is looked up in, with its parent and entries, and the
    last element of the name. *)
Definition at_dir (fd : option nat) (name : bytes) (w : sw) : result errno (nat * (nat * gmap bytes nat) * bytes) :=
  i ← fd_inode fd w;
  '(d, last) ← namei (sw_fs w) i name;
  match sw_fs w !! d with
  | Some (IDir p ents) => Ok (d, (p, ents), last)
  | Some _ => Err NOTDIR
  | None => Err NOENT
  end.

(** The inode a last element names, links not followed. *)
Definition entry (d p : nat) (ents : gmap bytes nat) (last : bytes) : option nat :=
  if eqs last [] then None
  else if eqs last s_dot then Some d
  else if eqs last s_dotdot then Some p
  else ents !! last.

Definition lookup_at (fd : option nat) (name : bytes) (w : sw) : result errno nat :=
  '(d, (p, ents), last) ← at_dir fd name w;
  match entry d p ents last with Some j => Ok j | None => Err NOENT end.

Definition alloc_fd (i : nat) (w : sw) : nat * sw :=
  let fd := fresh (dom (sw_fds w)) in (fd, set_fds (<[fd := i]> (sw_fds w)) w).

(** [openat(fd, name, O_RDONLY|O_DIRECTORY|O_NOFOLLOW)] *)
Definition Openat_dir (fd : option nat) (name : bytes) : eff sw errno nat :=
  scall (fun w =>
    match lookup_at fd name w with
    | Err e => (Err e, w)
    | Ok j => match sw_fs w !! j with
              | Some (IDir _ _) => let '(n, w') := alloc_fd j w in (Ok n, w')
              | Some (IFile _ _ _) => (Err NOTDIR, w)
              | Some (ILink _) => (Err LOOP, w)
              | None => (Err NOENT, w)
              end
    end).

(** A new inode entered in directory [d]. *)
Definition add_inode (d p : nat) (ents : gmap bytes nat) (last : bytes) (new : nat -> inode) (w : sw) : nat * sw :=
  let j := fresh (dom (sw_fs w)) in
  (j, touch j (touch d (set_fs (<[j := new d]> (<[d := IDir p (<[last := j]> ents)]> (sw_fs w))) w))).

Definition create_at {A} (fd : option nat) (name : bytes) (new : nat -> inode)
    (k : nat -> sw -> result errno A * sw) (w : sw) : result errno A * sw :=
  match at_dir fd name w with
  | Err e => (Err e, w)
  | Ok (d, (p, ents), last) =>
      if eqs last [] then (Err NOENT, w)
      else match entry d p ents last with
           | Some _ => (Err EXIST, w)
           | None => let '(j, w') := add_inode d p ents last new w in k j w'
           end
  end.

Definition Mkdirat (fd : option nat) (name : bytes) : eff sw errno unit :=
  scall (create_at fd name (fun d => IDir d ∅) (fun _ w => (Ok tt, w))).

(** [openat(fd, name, O_WRONLY|O_CREAT|O_EXCL, 0600)] *)
Definition Openat_excl (fd : option nat) (name : bytes) : eff sw errno nat :=
  scall (create_at fd name (fun _ => IFile [] 384 0) (fun j w => let '(n, w') := alloc_fd j w in (Ok n, w'))).

Definition append_inode (i : nat) (d : bytes) (w : sw) : sw :=
  match sw_fs w !! i with
  | Some (IFile data mode mt) => touch i (set_fs (<[i := IFile (data ++ d) mode mt]> (sw_fs w)) w)
  | _ => w
  end.

Definition FWrite (fd : option nat) (d : bytes) : eff sw errno unit :=
  fun w => let '(flt, w') := take_env w in
    match fd_inode fd w' with
    | Err e => (Err e, w')
    | Ok i => match flt with
              | Some (e, n) => (Err e, append_inode i (take n d) w')
              | None => (Ok tt, append_inode i d w')
              end
    end.

Definition Fchmod (fd : option nat) (mode : Z) : eff sw errno unit :=
  scall (fun w =>
    match fd_inode fd w with
    | Err e => (Err e, w)
    | Ok i => match sw_fs w !! i with
              | Some (IFile data _ mt) => (Ok tt, touch i (set_fs (<[i := IFile data mode mt]> (sw_fs w)) w))
              | _ => (Ok tt, w)
              end
    end).

Definition Fsync (fd : option nat) : eff sw errno unit :=
  scall (fun w => match fd_inode fd w with Err e => (Err e, w) | Ok _ => (Ok tt, w) end).

(** [close] releases the descriptor even when it reports an error. *)
Definition CloseFd (n : nat) : eff sw errno unit :=
  fun w => let '(flt, w') := take_env w in
    let w'' := set_fds (delete n (sw_fds w')) w' in
    match flt with Some (e, _) => (Err e, w'') | None => (Ok tt, w'') end.

Definition is_dir (f : fs) (i : nat) : bool := match f !! i with Some (IDir _ _) => true | _ => false end.
Definition empty_dir (f : fs) (i : nat) : bool :=
  match f !! i with Some (IDir _ ents) => bool_decide (ents = ∅) | _ => false end.

Definition special (name : bytes) : bool := eqs name s_dot || eqs name s_dotdot.

(** Whether inode [src] may be renamed over inode [dst]. *)
Definition rename_over (f : fs) (src dst : nat) : result errno unit :=
  if is_dir f src then
    if is_dir f dst then (if empty_dir f dst then Ok tt else Err NOTEMPTY) else Err NOTDIR
  else if is_dir f dst then Err ISDIR else Ok tt.

(** [renameat(fd, old, fd, new)] of two names in one directory. *)
Definition Renameat (fd : option nat) (old new : bytes) : eff sw errno unit :=
  scall (fun w =>
    match at_dir fd old w, at_dir fd new w with
    | Err e, _ => (Err e, w)
    | _, Err e => (Err e, w)
    | Ok (d, (p, ents), o), Ok (d', (p', ents'), n) =>
        if special o || special n then (Err BUSY, w)
        else if eqs n [] then (Err NOENT, w)
        else match ents !! o with
             | None => (Err NOENT, w)
             | Some j =>
                 let move :=
                   if bool_decide (d = d') then
                     touch d (set_fs (<[d := IDir p (<[n := j]> (delete o ents))]> (sw_fs w)) w)
                   else
                     touch d' (touch d (set_fs (<[d' := IDir p' (<[n := j]> ents')]>
                       (<[d := IDir p (delete o ents)]> (sw_fs w))) w)) in
                 match ents' !! n with
                 | None => (Ok tt, move)
                 | Some k =>
                     if bool_decide (j = k) then (Ok tt, w)
                     else match rename_over (sw_fs w) j k with
                          | Err e => (Err e, w)
                          | Ok _ => (Ok tt, move)
                          end
                 end
             end
    end).

Definition Unlinkat (fd : option nat) (name : bytes) : eff sw errno unit :=
  scall (fun w =>
    match at_dir fd name w with
    | Err e => (Err e, w)
    | Ok (d, (p, ents), last) =>
        if special last then (Err ISDIR, w)
        else match ents !! last with
             | None => (Err NOENT, w)
             | Some j => if is_dir (sw_fs w) j then (Err ISDIR, w)
                         else (Ok tt, touch d (set_fs (<[d := IDir p (delete last ents)]> (sw_fs w)) w))
             end
    end).

(** [fstatat] and [utimensat] with [AT_SYMLINK_NOFOLLOW]; the times of
    directories and links are not kept. *)
Definition Fstatat (fd : option nat) (name : bytes) : eff sw errno unit :=
  scall (fun w => match lookup_at fd name w with Err e => (Err e, w) | Ok _ => (Ok tt, w) end).

Definition UtimesNanoAt (fd : option nat) (name : bytes) (t : Z) : eff sw errno unit :=
  scall (fun w =>
    match lookup_at fd name w with
    | Err e => (Err e, w)
    | Ok i => match sw_fs w !! i with
              | Some (IFile data mode _) => (Ok tt, touch i (set_fs (<[i := IFile data mode t]> (sw_fs w)) w))
              | _ => (Ok tt, touch i w)
              end
    end).

Definition OpenRoot (path : bytes) : eff sw errno nat :=
  scall (fun w =>
    match walk_root (sw_fs w) path with
    | Err e => (Err e, w)
    | Ok i => if is_dir (sw_fs w) i then let '(n, w') := alloc_fd i w in (Ok n, w') else (Err NOTDIR, w)
    end).

Definition MkdirAllRoot (path : bytes) : eff sw errno unit :=
  scall (fun w => match mkdir_all path (sw_fs w) with Err e => (Err e, w) | Ok f => (Ok tt, set_fs f w) end).
End Calls.

(** ** posixDir *)

(** [pd_fd = None] is the closed handle ([fd] = -1). *)
Record posixDir := PD { pd_fd : option nat; pd_path : bytes }.

#[export] Instance posixDir_eq_dec : EqDecision posixDir.
Proof. solve_decision. Defined.

Inductive sderr :=
| SOs (e : errno)
| SMkdir (e : errno)
| SLink (path : bytes)
| SInvalid (comp : bytes)
| SStage (what : bytes) (e : errno).

Record posixStaging := PS { st_fd : option nat; st_dir : posixDir; st_name : bytes; st_done : bool }.

Section Ops.
Context `{Walk} `{Uuid}.

Definition openSecureDir (cwd root : bytes) : eff sw sderr posixDir :=
  let abs := Abs cwd root in
  r ← attempt (OpenRoot abs);
  match r with
  | Ok fd => mret (PD (Some fd) abs)
  | Err NOENT =>
      _ ← wrap_err SMkdir (MkdirAllRoot abs);
      fd ← wrap_err SOs (OpenRoot abs);
      mret (PD (Some fd) abs)
  | Err e => throw (SOs e)
  end.

(** The last lines of [Child]: which error a failed open is. *)
Definition child_err (d : posixDir) (name : bytes) (e : errno) : sderr :=
  match e with
  | LOOP | NOTDIR => SLink (FpJoin [pd_path d; name])
  | _ => SOs e
  end.

Definition Child (d : posixDir) (name : bytes) : eff sw sderr posixDir :=
  r ← attempt (Openat_dir (pd_fd d) name);
  match r with
  | Ok fd => mret (PD (Some fd) (FpJoin [pd_path d; name]))
  | Err NOENT =>
      mk ← attempt (Mkdirat (pd_fd d) name);
      match mk with
      | Err EXIST | Ok _ =>
          r2 ← attempt (Openat_dir (pd_fd d) name);
          match r2 with
          | Ok fd => mret (PD (Some fd) (FpJoin [pd_path d; name]))
          | Err e => throw (child_err d name e)
          end
      | Err e => throw (SMkdir e)
      end
  | Err e => throw (child_err d name e)
  end.

Definition EnsureDir (d : posixDir) : eff sw sderr unit := mret tt.

Definition Exists (d : posixDir) (name : bytes) : eff sw sderr bool :=
  r ← attempt (Fstatat (pd_fd d) name);
  match r with
  | Ok _ => mret true
  | Err NOENT => mret false
  | Err e => throw (SOs e)
  end.

Definition CreateStaging (d : posixDir) (name : bytes) : eff sw sderr posixStaging :=
  u ← (fun w => (Ok (uuid_string (sw_draws w)), SW (sw_fs w) (sw_fds w) (sw_env w) (S (sw_draws w)) (sw_touched w)));
  let stagingName := name ++ s_dot ++ u ++ go ".tmp" in
  fd ← wrap_err (SStage (go "create")) (Openat_excl (pd_fd d) stagingName);
  mret (PS (Some fd) d stagingName false).

Definition StWrite (s : posixStaging) (p : bytes) : eff sw errno unit := FWrite (st_fd s) p.
Definition StChmod (s : posixStaging) (mode : Z) : eff sw errno unit := Fchmod (st_fd s) mode.
Definition StSync (s : posixStaging) : eff sw errno unit := Fsync (st_fd s).

(** [(os.File).Close]: a second close is an error and reaches no system call. *)
Definition StClose (s : posixStaging) : eff sw sderr (result errno unit * posixStaging) :=
  match st_fd s with
  | None => mret (Err BADF, s)
  | Some n =>
      r ← attempt (CloseFd n);
      mret (r, PS None (st_dir s) (st_name s) (st_done s))
  end.

Definition Commit (s : posixStaging) (finalName : bytes) : eff sw sderr (result sderr unit * posixStaging) :=
  r ← attempt (Renameat (pd_fd (st_dir s)) (st_name s) finalName);
  match r with
  | Err e => mret (Err (SStage (go "rename") e), s)
  | Ok _ =>
      let s' := PS (st_fd s) (st_dir s) (st_name s) true in
      r2 ← attempt (Fsync (pd_fd (st_dir s)));
      match r2 with
      | Err e => mret (Err (SStage (go "fsync") e), s')
      | Ok _ => mret (Ok tt, s')
      end
  end.

Definition Cleanup (s : posixStaging) : eff sw sderr unit :=
  if st_done s then mret tt
  else
    _ ← StClose s;
    _ ← attempt (E := errno) (Unlinkat (pd_fd (st_dir s)) (st_name s));
    mret tt.

(** Run [m] on a staging file, then the rest unless it failed. *)
Definition stage_step (what : bytes) (s : posixStaging) (m : eff sw errno unit)
    (k : eff sw sderr (result sderr unit * posixStaging)) : eff sw sderr (result sderr unit * posixStaging) :=
  r ← attempt m;
  match r with
  | Err e => mret (Err (SStage what e), s)
  | Ok _ => k
  end.

(** Close, then commit under [name]. *)
Definition close_commit (s : posixStaging) (name : bytes) : eff sw sderr (result sderr unit * posixStaging) :=
  '(r, s') ← StClose s;
  match r with
  | Err e => mret (Err (SStage (go "close") e), s')
  | Ok _ => Commit s' name
  end.

(** [defer st.Cleanup()] around a body that ends in an error or in success. *)
Definition with_cleanup (body : eff sw sderr (result sderr unit * posixStaging)) : eff sw sderr unit :=
  '(r, s) ← body;
  _ ← Cleanup s;
  match r with Ok _ => mret tt | Err e => throw e end.

Definition WriteAtomic (d : posixDir) (name data : bytes) (mode : Z) : eff sw sderr unit :=
  s ← CreateStaging d name;
  with_cleanup
    (stage_step (go "write") s (StWrite s data)
      (stage_step (go "chmod") s (StChmod s mode)
        (stage_step (go "sync") s (StSync s)
          (close_commit s name)))).

Definition Chtimes (d : posixDir) (name : bytes) (t : Z) : eff sw errno unit := UtimesNanoAt (pd_fd d) name t.

(** [Close]: the error of the system call is dropped by every caller. *)
Definition PClose (d : posixDir) : eff sw sderr posixDir :=
  match pd_fd d with
  | None => mret d
  | Some n => _ ← attempt (E := errno) (CloseFd n); mret (PD None (pd_path d))
  end.

(** The loop of [openSecurePath]; [owned] also says that [dir] is not [root].
    A refused component leaves the handle reached so far open. *)
Fixpoint secure_loop (dir : posixDir) (owned : bool) (comps : list bytes) : eff sw sderr (posixDir * bool) :=
  match comps with
  | [] => mret (dir, owned)
  | c :: rest =>
      if eqs c [] || eqs c s_dot || eqs c s_dotdot then throw (SInvalid c)
      else
        next ← attempt (Child dir c);
        _ ← (if owned then (_ ← PClose dir; mret tt) else mret tt);
        match next with
        | Err e => throw e
        | Ok d => secure_loop d true rest
        end
  end.

Definition openSecurePath (root : posixDir) (comps : list bytes) : eff sw sderr (posixDir * bool) :=
  secure_loop root false comps.
End Ops.

(** * Confinement under interference *)

(** [O] is a set of inodes to protect.  A file system is sealed when they
    exist and no directory outside [O] has an entry for one of them; symbolic
    links to them may be anywhere. *)
Definition sealed (O : gset nat) (f : fs) : Prop :=
  (forall i, i ∈ O -> is_Some (f !! i)) /\
  (forall i p ents n j, f !! i = Some (IDir p ents) -> (i ∉ O) -> ents !! n = Some j -> j ∉ O).

Definition env_ok (O : gset nat) (e : env_step) : Prop := forall f, sealed O f -> sealed O (env_act e f).

(** The other processes keep the file system sealed, all open descriptors are
    outside [O], and the calls made so far changed nothing in [O]. *)
Record inv (O : gset nat) (w : sw) : Prop := Inv {
  inv_sealed : sealed O (sw_fs w);
  inv_env : Forall (env_ok O) (sw_env w);
  inv_fds : forall n i, sw_fds w !! n = Some i -> i ∉ O;
  inv_touched : forall i, i ∈ sw_touched w -> i ∉ O
}.

Create HintDb keeps.

(** Computations that keep the invariant. *)
Definition keeps (O : gset nat) {E A} (m : eff sw E A) : Prop := forall w, inv O w -> inv O (m w).2.

Section Keeps.
Context (O : gset nat).

Lemma keeps_ret {E A} (a : A) : keeps O (mret a : eff sw E A).
Proof. by intros w. Qed.

Lemma keeps_throw {E A} (e : E) : keeps O (throw e : eff sw E A).
Proof. by intros w. Qed.

Lemma keeps_bind {E A B} (m : eff sw E A) (f : A -> eff sw E B) :
  keeps O m -> (forall a, keeps O (f a)) -> keeps O (m ≫= f).
Proof.
  intros Hm Hf w Hw. unfold mbind, eff_bind. specialize (Hm w Hw). destruct (m w) as [[a|e] w']; [by apply Hf | done].
Qed.

Lemma keeps_attempt {E E' A} (m : eff sw E A) : keeps O m -> keeps O (attempt m : eff sw E' (result E A)).
Proof. intros Hm w Hw. unfold attempt. specialize (Hm w Hw). by destruct (m w). Qed.

Lemma keeps_wrap {E E' A} (f : E -> E') (m : eff sw E A) : keeps O m -> keeps O (wrap_err f m).
Proof. intros Hm w Hw. unfold wrap_err. specialize (Hm w Hw). by destruct (m w). Qed.

Lemma take_env_inv w : inv O w -> inv O (take_env w).2.
Proof.
  intros [Hs He Hf Ht]. unfold take_env. destruct (sw_env w) as [|e es] eqn:E; cbn; [by constructor; rewrite ?E |].
  apply Forall_cons in He as [He Hes]. constructor; cbn; auto.
Qed.

Lemma keeps_scall {A} (k : sw -> result errno A * sw) :
  (forall w, inv O w -> inv O (k w).2) -> keeps O (scall k).
Proof.
  intros Hk w Hw. apply take_env_inv in Hw. unfold scall. destruct (take_env w) as [[[e n]|] w']; cbn in Hw |- *; auto.
Qed.

(** What a descriptor refers to is outside [O], and so is every inode reached
    from it by one ordinary name. *)
Lemma fd_inode_outside fd w i : inv O w -> fd_inode fd w = Ok i -> i ∉ O.
Proof.
  intros Hw. unfold fd_inode. destruct fd as [n|]; [|done]. destruct (sw_fds w !! n) eqn:E; [|done].
  intros ->%ok_inv. by eapply inv_fds.
Qed.

Context `{Walk}.

Lemma at_dir_inv fd name w d p ents last : (slash ∉ name) -> inv O w ->
  at_dir fd name w = Ok (d, (p, ents), last) -> last = name /\ (d ∉ O) /\ sw_fs w !! d = Some (IDir p ents).
Proof.
  intros Hn Hw. unfold at_dir, namei. rewrite bool_decide_false by done.
  destruct (fd_inode fd w) as [i|] eqn:Ei; [|done]. cbn [mbind result_bind].
  destruct (sw_fs w !! i) as [[]|] eqn:Ef; [|done..]. intros Ha%ok_inv. simplify_eq.
  split_and!; [done | by eapply fd_inode_outside | done].
Qed.

Lemma entry_outside w d p ents name j : inv O w -> sw_fs w !! d = Some (IDir p ents) -> (d ∉ O) -> name <> s_dotdot ->
  entry d p ents name = Some j -> j ∉ O.
Proof.
  intros Hw Hd Ho Hn. unfold entry. destruct (eqs name []); [done |]. destruct (eqs name s_dot); [by intros [= <-] |].
  rewrite (proj2 (eqs_false _ _) Hn). by apply (proj2 (inv_sealed _ _ Hw) d p ents name j).
Qed.

Lemma lookup_at_outside fd name w j : (slash ∉ name) -> name <> s_dotdot -> inv O w ->
  lookup_at fd name w = Ok j -> j ∉ O.
Proof.
  intros Hs Hn Hw. unfold lookup_at. destruct (at_dir fd name w) as [[[d [p ents]] last]|] eqn:E; [|done].
  apply at_dir_inv in E as (-> & Ho & Hd); [|done..]. cbn [mbind result_bind].
  destruct (entry d p ents name) as [k|] eqn:Ee; [|done]. intros ->%ok_inv. by eapply entry_outside.
Qed.

Lemma alloc_fd_inv i w : inv O w -> (i ∉ O) -> inv O (alloc_fd i w).2.
Proof.
  intros [Hs He Hf Ht] Hi. constructor; cbn; try done. intros n j. rewrite lookup_insert_Some. intros [[_ <-] | [_ ?]]; eauto.
Qed.

(** Replacing an inode outside [O] by one whose entries are outside [O]. *)
Lemma set_inode_inv d x w : inv O w -> (d ∉ O) ->
  (forall p ents n j, x = IDir p ents -> ents !! n = Some j -> j ∉ O) ->
  inv O (touch d (set_fs (<[d := x]> (sw_fs w)) w)).
Proof.
  intros [Hs He Hf Ht] Hd Hx. constructor; cbn; try done.
  - destruct Hs as [Hs1 Hs2]. split.
    + intros i Hi. destruct (decide (d = i)) as [->|]; [done |]. rewrite lookup_insert_ne by done. auto.
    + intros i p ents n j. rewrite lookup_insert_Some. intros [[_ ->] | [_ ?]]; eauto.
  - intros i [-> | ?]%elem_of_cons; auto.
Qed.

Lemma dir_entries_outside w d p ents n j : inv O w -> sw_fs w !! d = Some (IDir p ents) -> (d ∉ O) ->
  ents !! n = Some j -> j ∉ O.
Proof. intros Hw Hd Ho. by apply (proj2 (inv_sealed _ _ Hw) d p ents n j). Qed.

Lemma fresh_outside w : inv O w -> fresh (dom (sw_fs w)) ∉ O.
Proof.
  intros Hw Hin. apply (proj1 (inv_sealed _ _ Hw)) in Hin. apply elem_of_dom in Hin. by apply is_fresh in Hin.
Qed.

Lemma add_inode_inv d p ents last new w : inv O w -> sw_fs w !! d = Some (IDir p ents) -> (d ∉ O) ->
  (forall p' e, new d = IDir p' e -> e = ∅) ->
  inv O (add_inode d p ents last new w).2 /\ (add_inode d p ents last new w).1 ∉ O.
Proof.
  intros Hw Hd Ho Hnew. pose proof (fresh_outside w Hw) as Hj. split; [|done].
  assert (Hw1 : inv O (touch d (set_fs (<[d := IDir p (<[last := fresh (dom (sw_fs w))]> ents)]> (sw_fs w)) w))).
  { apply set_inode_inv; [done | done |]. intros p' e' n j [= <- <-]. rewrite lookup_insert_Some.
    intros [[_ <-] | [_ ?]]; [done |]. by eapply dir_entries_outside. }
  apply (set_inode_inv (fresh (dom (sw_fs w))) (new d) _ Hw1 Hj).
  intros p' e' n j He Hn. apply Hnew in He as ->. by rewrite lookup_empty in Hn.
Qed.

Lemma create_at_inv {A} fd name new (k : nat -> sw -> result errno A * sw) w :
  (slash ∉ name) -> (forall d p' e, new d = IDir p' e -> e = ∅) ->
  (forall j w', inv O w' -> (j ∉ O) -> inv O (k j w').2) -> inv O w -> inv O (create_at fd name new k w).2.
Proof.
  intros Hs Hnew Hk Hw. unfold create_at. destruct (at_dir fd name w) as [[[d [p ents]] last]|] eqn:E; [|done].
  apply at_dir_inv in E as (-> & Ho & Hd); [|done..]. destruct (eqs name []); [done |].
  destruct (entry d p ents name); [done |].
  pose proof (add_inode_inv d p ents name new w Hw Hd Ho (Hnew d)) as [Hi Hj].
  destruct (add_inode d p ents name new w) as [j w']. by apply Hk.
Qed.

Lemma keeps_Mkdirat fd name : (slash ∉ name) -> keeps O (Mkdirat fd name).
Proof.
  intros Hs. apply keeps_scall. intros w. apply create_at_inv; [done | | done]. by intros d p' e [= _ <-].
Qed.

Lemma keeps_Openat_excl fd name : (slash ∉ name) -> keeps O (Openat_excl fd name).
Proof.
  intros Hs. apply keeps_scall. intros w. apply create_at_inv; [done | done |]. intros j w' Hw Hj.
  by apply (alloc_fd_inv j w').
Qed.

Lemma keeps_Openat_dir fd name : (slash ∉ name) -> name <> s_dotdot -> keeps O (Openat_dir fd name).
Proof.
  intros Hs Hn. apply keeps_scall. intros w Hw. destruct (lookup_at fd name w) as [j|] eqn:E; [|done].
  apply lookup_at_outside in E; [|done..]. destruct (sw_fs w !! j) as [[]|]; try done. by apply (alloc_fd_inv j w).
Qed.

Lemma append_inode_inv i d w : inv O w -> (i ∉ O) -> inv O (append_inode i d w).
Proof.
  intros Hw Hi. unfold append_inode. destruct (sw_fs w !! i) as [[]|]; try done. by apply set_inode_inv.
Qed.

Lemma keeps_FWrite fd d : keeps O (FWrite fd d).
Proof.
  intros w Hw. apply take_env_inv in Hw. unfold FWrite. destruct (take_env w) as [flt w']. cbn in Hw.
  destruct (fd_inode fd w') as [i|] eqn:E; [|done]. apply fd_inode_outside in E; [|done].
  destruct flt as [[e n]|]; cbn [snd]; by apply append_inode_inv.
Qed.

Lemma keeps_Fchmod fd mode : keeps O (Fchmod fd mode).
Proof.
  apply keeps_scall. intros w Hw. destruct (fd_inode fd w) as [i|] eqn:E; [|done].
  apply fd_inode_outside in E; [|done]. destruct (sw_fs w !! i) as [[]|]; try done. by apply set_inode_inv.
Qed.

Lemma keeps_Fsync fd : keeps O (Fsync fd).
Proof. apply keeps_scall. intros w Hw. by destruct (fd_inode fd w). Qed.

Lemma keeps_CloseFd n : keeps O (CloseFd n).
Proof.
  intros w Hw. apply take_env_inv in Hw. unfold CloseFd. destruct (take_env w) as [flt w']. cbn in Hw.
  assert (inv O (set_fds (delete n (sw_fds w')) w')).
  { destruct Hw as [Hs He Hf Ht]. constructor; cbn; try done. intros m i. rewrite lookup_delete_Some. intros [_ ?]. eauto. }
  by destruct flt as [[e m]|].
Qed.

Lemma keeps_Renameat fd old new : (slash ∉ old) -> (slash ∉ new) -> keeps O (Renameat fd old new).
Proof.
  intros Hso Hsn. apply keeps_scall. intros w Hw.
  destruct (at_dir fd old w) as [[[d [p ents]] o]|] eqn:E1; [|done].
  destruct (at_dir fd new w) as [[[d' [p' ents']] n]|] eqn:E2; [|done].
  assert (d' = d) as ->.
  { revert E1 E2. unfold at_dir, namei. rewrite !bool_decide_false by done.
    destruct (fd_inode fd w) as [i|]; [|done]. cbn [mbind result_bind]. destruct (sw_fs w !! i) as [[]|]; try done.
    intros ?%ok_inv ?%ok_inv. by simplify_eq. }
  apply at_dir_inv in E1 as (-> & Ho & Hd); [|done..]. apply at_dir_inv in E2 as (-> & _ & Hd'); [|done..].
  rewrite Hd in Hd'. injection Hd' as <- <-.
  destruct (special old || special new); [done |]. destruct (eqs new []); [done |].
  destruct (ents !! old) as [j|] eqn:Ej; [|done]. rewrite bool_decide_true by done.
  assert (Hmove : inv O (touch d (set_fs (<[d := IDir p (<[new := j]> (delete old ents))]> (sw_fs w)) w))).
  { apply set_inode_inv; [done | done |]. intros q e m k [= <- <-]. rewrite lookup_insert_Some, lookup_delete_Some.
    intros [[_ <-] | (_ & _ & ?)]; by eapply dir_entries_outside. }
  destruct (ents !! new) as [k|]; [|done]. case_bool_decide; [done |]. by destruct (rename_over (sw_fs w) j k).
Qed.

Lemma keeps_Unlinkat fd name : (slash ∉ name) -> keeps O (Unlinkat fd name).
Proof.
  intros Hs. apply keeps_scall. intros w Hw. destruct (at_dir fd name w) as [[[d [p ents]] last]|] eqn:E; [|done].
  apply at_dir_inv in E as (-> & Ho & Hd); [|done..]. destruct (special name); [done |].
  destruct (ents !! name) as [j|]; [|done]. destruct (is_dir (sw_fs w) j); [done |].
  apply set_inode_inv; [done | done |]. intros q e m k [= <- <-]. rewrite lookup_delete_Some. intros [_ ?].
  by eapply dir_entries_outside.
Qed.

Lemma keeps_Fstatat fd name : keeps O (Fstatat fd name).
Proof. apply keeps_scall. intros w Hw. by destruct (lookup_at fd name w). Qed.

Lemma keeps_UtimesNanoAt fd name t : (slash ∉ name) -> name <> s_dotdot -> keeps O (UtimesNanoAt fd name t).
Proof.
  intros Hs Hn. apply keeps_scall. intros w Hw. destruct (lookup_at fd name w) as [i|] eqn:E; [|done].
  apply lookup_at_outside in E; [|done..].
  assert (inv O (touch i w)).
  { destruct Hw as [H1 H2 H3 H4]. constructor; cbn; try done. intros k [-> | ?]%elem_of_cons; auto. }
  destruct (sw_fs w !! i) as [[]|]; try done. by apply set_inode_inv.
Qed.
End Keeps.

#[export] Hint Resolve keeps_ret keeps_throw keeps_attempt keeps_wrap keeps_Mkdirat keeps_Openat_excl keeps_Openat_dir
  keeps_FWrite keeps_Fchmod keeps_Fsync keeps_CloseFd keeps_Renameat keeps_Unlinkat keeps_Fstatat keeps_UtimesNanoAt : keeps.

(** [keeps]: go through a computation, branch by branch. *)
Ltac keeps :=
  repeat match goal with
  | |- keeps _ (mbind _ _) => apply keeps_bind
  | |- forall _, _ => intros ?
  | |- keeps _ (match ?x with _ => _ end) => destruct x
  | |- keeps _ _ => solve [eauto with keeps]
  end.

Section OpsKeep.
Context (O : gset nat) `{Walk} `{Uuid}.
Hypothesis uuid_clean : forall n, slash ∉ uuid_string n.

Lemma keeps_Child d name : (slash ∉ name) -> name <> s_dotdot -> keeps O (Child d name).
Proof. intros Hs Hn. unfold Child. keeps. Qed.

Lemma keeps_Exists d name : keeps O (Exists d name).
Proof. unfold Exists. keeps. Qed.

Lemma keeps_PClose d : keeps O (PClose d).
Proof. unfold PClose. keeps. Qed.

Lemma keeps_StClose s : keeps O (StClose s).
Proof. unfold StClose. keeps. Qed.

Lemma keeps_Commit s name : (slash ∉ st_name s) -> (slash ∉ name) -> keeps O (Commit s name).
Proof. intros Hs Hn. unfold Commit. keeps. Qed.

Lemma keeps_Cleanup s : (slash ∉ st_name s) -> keeps O (Cleanup s).
Proof. intros Hs. unfold Cleanup. keeps. apply keeps_StClose. Qed.

(** Computations that keep the invariant and whose result satisfies [Q]. *)
Definition keepsP {E A} (Q : A -> Prop) (m : eff sw E A) : Prop :=
  forall w, inv O w -> inv O (m w).2 /\ (forall a, (m w).1 = Ok a -> Q a).

Lemma keepsP_ret {E A} (Q : A -> Prop) a : Q a -> keepsP Q (mret a : eff sw E A).
Proof. intros Ha w Hw. split; [done |]. by intros b ->%ok_inv. Qed.

Lemma keepsP_bind {E A B} (P : A -> Prop) (Q : B -> Prop) (m : eff sw E A) f :
  keepsP P m -> (forall a, P a -> keepsP Q (f a)) -> keepsP Q (m ≫= f).
Proof.
  intros Hm Hf w Hw. unfold mbind, eff_bind. specialize (Hm w Hw) as [Hi Hp].
  destruct (m w) as [[a|e] w']; [|done]. apply Hf; [by apply Hp | done].
Qed.

Lemma keepsP_true {E A} (m : eff sw E A) : keeps O m -> keepsP (fun _ => True) m.
Proof. intros Hm w Hw. by split; [apply Hm |]. Qed.

Lemma keepsP_keeps {E A} (Q : A -> Prop) (m : eff sw E A) : keepsP Q m -> keeps O m.
Proof. intros Hm w Hw. by apply Hm. Qed.

Lemma keeps_bindP {E A B} (P : A -> Prop) (m : eff sw E A) (f : A -> eff sw E B) :
  keepsP P m -> (forall a, P a -> keeps O (f a)) -> keeps O (m ≫= f).
Proof.
  intros Hm Hf w Hw. unfold mbind, eff_bind. specialize (Hm w Hw) as [Hi Hp].
  destruct (m w) as [[a|e] w']; [|done]. apply Hf; [by apply Hp | done].
Qed.

(** A body that works on the staging file [s] and returns it. *)
Definition on_stage (s : posixStaging) : eff sw sderr (result sderr unit * posixStaging) -> Prop :=
  keepsP (fun '(_, s') => st_name s' = st_name s).

Lemma on_stage_step s what m k : keeps O m -> on_stage s k -> on_stage s (stage_step what s m k).
Proof.
  intros Hm Hk. unfold stage_step. eapply keepsP_bind; [apply keepsP_true; by apply keeps_attempt |].
  intros [] _; [done | by apply keepsP_ret].
Qed.

Lemma on_stage_close_commit s name : (slash ∉ st_name s) -> (slash ∉ name) -> on_stage s (close_commit s name).
Proof.
  intros Hs Hn. unfold close_commit. apply (keepsP_bind (fun '(_, s') => st_name s' = st_name s)).
  { intros w Hw. split; [by apply keeps_StClose |]. unfold StClose. destruct (st_fd s); [|by intros ? ->%ok_inv].
    unfold mbind, eff_bind, attempt. destruct (CloseFd n w) as [r w']. by intros ? ->%ok_inv. }
  intros [[] s'] Hs'; [|by apply keepsP_ret]. intros w Hw. split; [apply keeps_Commit; [by rewrite Hs' | done | done] |].
  unfold Commit, mbind, eff_bind, attempt. destruct (Renameat _ _ _ w) as [[] w1]; [|by intros ? ->%ok_inv].
  destruct (Fsync _ w1) as [[] w2]; by intros ? ->%ok_inv.
Qed.

Lemma keeps_with_cleanup s body : (slash ∉ st_name s) -> on_stage s body -> keeps O (with_cleanup body).
Proof.
  intros Hs Hb. unfold with_cleanup. eapply keeps_bindP; [done |]. intros [r s'] Hs'. keeps.
  apply keeps_Cleanup. by rewrite Hs'.
Qed.

Lemma keeps_CreateStaging d name : (slash ∉ name) ->
  keepsP (fun s => slash ∉ st_name s) (CreateStaging d name).
Proof.
  intros Hn w Hw. assert (Hs : forall n, slash ∉ name ++ s_dot ++ uuid_string n ++ go ".tmp").
  { intros n. rewrite !elem_of_app. specialize (uuid_clean n).
    assert (slash ∉ s_dot) by by_decide. assert (slash ∉ go ".tmp") by by_decide. naive_solver. }
  unfold CreateStaging, mbind, eff_bind. set (w1 := SW _ _ _ _ _).
  assert (Hw1 : inv O w1) by (destruct Hw; by constructor).
  pose proof (keeps_Openat_excl O (pd_fd d) _ (Hs (sw_draws w)) w1 Hw1) as Hk.
  unfold wrap_err. destruct (Openat_excl _ _ w1) as [[fd|e] w2]; [|done]. split; [done |]. intros s ->%ok_inv. apply Hs.
Qed.

Lemma keeps_WriteAtomic d name data mode : (slash ∉ name) -> keeps O (WriteAtomic d name data mode).
Proof.
  intros Hn. unfold WriteAtomic. eapply keeps_bindP; [by apply keeps_CreateStaging |]. intros s Hs.
  apply (keeps_with_cleanup s); [done |]. repeat apply on_stage_step; [apply keeps_FWrite | apply keeps_Fchmod | apply keeps_Fsync |].
  by apply on_stage_close_commit.
Qed.

Lemma keeps_Chtimes d name t : (slash ∉ name) -> name <> s_dotdot -> keeps O (Chtimes d name t).
Proof. apply keeps_UtimesNanoAt. Qed.

Lemma keeps_secure_loop comps : forall d owned, Forall (fun c => slash ∉ c) comps -> keeps O (secure_loop d owned comps).
Proof.
  induction comps as [|c rest IH]; intros d owned Hc; cbn [secure_loop]; [apply keeps_ret |].
  apply Forall_cons in Hc as [Hc Hrest].
  destruct (eqs c [] || eqs c s_dot || eqs c s_dotdot) eqn:E; [apply keeps_throw |].
  apply orb_false_iff in E as [_ E%eqs_false].
  apply keeps_bind; [by apply keeps_attempt, keeps_Child |]. intros next.
  apply keeps_bind; [destruct owned; keeps; apply keeps_PClose |]. intros _. destruct next; [by apply IH | apply keeps_throw].
Qed.

Lemma keeps_openSecurePath root comps : Forall (fun c => slash ∉ c) comps -> keeps O (openSecurePath root comps).
Proof. apply keeps_secure_loop. Qed.
End OpsKeep.

(** The way [Run] restores one file through a handle: open the directory,
    write, set the time. *)
Definition write_below `{Walk} `{Uuid} (root : posixDir) (comps : list bytes) (name data : bytes) (mode t : Z)
  : eff sw sderr unit :=
  '(dir, owned) ← openSecurePath root comps;
  _ ← WriteAtomic dir name data mode;
  _ ← attempt (E := errno) (Chtimes dir name t);
  mret tt.

(** Writing a file below the restore root never changes a protected
    inode, however other processes rename, replace and symlink things between
    the system calls (as long as they do not move a protected inode itself
    into an unprotected directory) and whatever fails: names are resolved
    relative to descriptors without following links, so no component can
    redirect the write. *)
Theorem secure_write_confined `{Walk} `{Uuid} O w root comps name data mode t :
  (forall n, slash ∉ uuid_string n) -> Forall (fun c => slash ∉ c) comps -> (slash ∉ name) -> name <> s_dotdot ->
  inv O w -> inv O (write_below root comps name data mode t w).2.
Proof.
  intros Hu Hc Hn Hd. revert w. change (keeps O (write_below root comps name data mode t)). unfold write_below.
  apply keeps_bind; [by apply keeps_openSecurePath |]. intros [dir owned].
  apply keeps_bind; [by apply keeps_WriteAtomic |]. intros _.
  apply keeps_bind; [by apply keeps_attempt, keeps_Chtimes |]. intros _. apply keeps_ret.
Qed.

(** * What a write does when nothing interferes *)

(** Following entries from a directory, never through a link. *)
Fixpoint nofollow (f : fs) (i : nat) (l : list bytes) : option nat :=
  match l with
  | [] => Some i
  | c :: l' => match f !! i with
               | Some (IDir _ ents) => ents !! c ≫= fun j => nofollow f j l'
               | _ => None
               end
  end.

(** Directories keep their parents and their entries for directories. *)
Definition kept (f f' : fs) : Prop :=
  forall i p ents, f !! i = Some (IDir p ents) ->
    exists ents', f' !! i = Some (IDir p ents') /\ (forall n m, ents !! n = Some m -> is_dir f m = true -> ents' !! n = Some m).

(** Files and links keep everything. *)
Definition leaves_kept (f f' : fs) : Prop :=
  forall i x, f !! i = Some x -> is_dir f i = false -> f' !! i = Some x.

Lemma is_dir_true f i : is_dir f i = true <-> exists p ents, f !! i = Some (IDir p ents).
Proof. unfold is_dir. destruct (f !! i) as [[]|]; naive_solver. Qed.

Lemma kept_refl f : kept f f.
Proof. intros i p ents Hi. by exists ents. Qed.

Lemma kept_is_dir f f' i : kept f f' -> is_dir f i = true -> is_dir f' i = true.
Proof. intros Hk (p & ents & Hi)%is_dir_true. destruct (Hk _ _ _ Hi) as (e & He & _). apply is_dir_true. eauto. Qed.

Lemma kept_trans f g h : kept f g -> kept g h -> kept f h.
Proof.
  intros H1 H2 i p ents Hi. destruct (H1 _ _ _ Hi) as (e1 & He1 & Hm1). destruct (H2 _ _ _ He1) as (e2 & He2 & Hm2).
  exists e2. split; [done |]. intros n m Hn Hd. apply Hm2; [by apply Hm1 | by eapply kept_is_dir].
Qed.

Lemma leaves_kept_refl f : leaves_kept f f.
Proof. by intros i x. Qed.

Lemma leaves_kept_trans f g h : leaves_kept f g -> leaves_kept g h -> leaves_kept f h.
Proof.
  intros H1 H2 i x Hi Hd. apply H2; [by apply H1 |]. pose proof (H1 _ _ Hi Hd) as Hg.
  unfold is_dir in Hd |- *. rewrite Hi in Hd. by rewrite Hg.
Qed.

Lemma nofollow_is_dir f i c l j : nofollow f i (c :: l) = Some j -> is_dir f i = true.
Proof. cbn. intros H. apply is_dir_true. destruct (f !! i) as [[]|]; try done. eauto. Qed.

Lemma nofollow_kept f f' l : forall i j, kept f f' -> nofollow f i l = Some j -> is_dir f j = true -> nofollow f' i l = Some j.
Proof.
  induction l as [|c l IH]; intros i j Hk Hn Hd; [done |]. cbn in Hn |- *.
  destruct (f !! i) as [[p ents| |]|] eqn:Ei; try done. destruct (Hk _ _ _ Ei) as (e & -> & He).
  destruct (ents !! c) as [m|] eqn:Ec; [|done]. cbn in Hn.
  assert (Hm : is_dir f m = true) by (destruct l; [by injection Hn as -> | by eapply nofollow_is_dir]).
  rewrite (He _ _ Ec Hm). cbn. auto.
Qed.

Lemma nofollow_snoc f l : forall i c, nofollow f i (l ++ [c]) = nofollow f i l ≫= fun j => nofollow f j [c].
Proof.
  induction l as [|x l IH]; intros i c; [done |]. cbn [app nofollow].
  destruct (f !! i) as [[p ents| |]|]; try done. destruct (ents !! x); [|done]. cbn. apply IH.
Qed.

Section Quiet.
Context `{Walk} `{Uuid}.

Lemma scall_quiet {A} (k : sw -> result errno A * sw) w : sw_env w = [] -> scall k w = k w.
Proof. intros He. unfold scall, take_env. by rewrite He. Qed.

Lemma at_dir_ok fd name w n i p ents : normal name -> fd = Some n -> sw_fds w !! n = Some i ->
  sw_fs w !! i = Some (IDir p ents) -> at_dir fd name w = Ok (i, (p, ents), name).
Proof.
  intros (_ & _ & _ & Hs) -> Hn Hi. unfold at_dir, fd_inode, namei. rewrite Hn. cbn [mbind result_bind].
  rewrite bool_decide_false by done. cbn [mbind result_bind]. by rewrite Hi.
Qed.

Lemma entry_normal d p ents name : normal name -> entry d p ents name = ents !! name.
Proof.
  intros (H1 & H2 & H3 & _). unfold entry. by rewrite !(proj2 (eqs_false _ _)) by done.
Qed.

Lemma lookup_at_ok fd name w n i p ents : normal name -> fd = Some n -> sw_fds w !! n = Some i ->
  sw_fs w !! i = Some (IDir p ents) ->
  lookup_at fd name w = match ents !! name with Some j => Ok j | None => Err NOENT end.
Proof.
  intros Hn Hf Hi Hd. unfold lookup_at. rewrite (at_dir_ok _ _ _ _ _ _ _ Hn Hf Hi Hd). cbn [mbind result_bind].
  by rewrite entry_normal.
Qed.

(** Opening a child that is a directory, one that is something else, and one
    that is missing. *)
Lemma Child_dir d name w n i p ents j : sw_env w = [] -> normal name -> pd_fd d = Some n -> sw_fds w !! n = Some i ->
  sw_fs w !! i = Some (IDir p ents) -> ents !! name = Some j -> is_dir (sw_fs w) j = true ->
  Child d name w = (Ok (PD (Some (fresh (dom (sw_fds w)))) (FpJoin [pd_path d; name])), (alloc_fd j w).2).
Proof.
  intros He Hn Hf Hi Hd Hj (q & e & Hdj)%is_dir_true. unfold Child, mbind, eff_bind, attempt, Openat_dir.
  rewrite scall_quiet by done. rewrite (lookup_at_ok _ _ _ _ _ _ _ Hn Hf Hi Hd), Hj, Hdj. done.
Qed.

Lemma Child_other d name w n i p ents j x : sw_env w = [] -> normal name -> pd_fd d = Some n -> sw_fds w !! n = Some i ->
  sw_fs w !! i = Some (IDir p ents) -> ents !! name = Some j -> sw_fs w !! j = Some x -> is_dir (sw_fs w) j = false ->
  Child d name w = (Err (SLink (FpJoin [pd_path d; name])), w).
Proof.
  intros He Hn Hf Hi Hd Hj Hx Hdj. unfold Child, mbind, eff_bind, attempt, Openat_dir.
  rewrite scall_quiet by done. rewrite (lookup_at_ok _ _ _ _ _ _ _ Hn Hf Hi Hd), Hj, Hx.
  unfold is_dir in Hdj. rewrite Hx in Hdj. by destruct x.
Qed.

(** The file system with a new inode entered in directory [i]. *)
Definition with_new (f : fs) (i p : nat) (ents : gmap bytes nat) (name : bytes) (x : inode) : fs :=
  <[fresh (dom f) := x]> (<[i := IDir p (<[name := fresh (dom f)]> ents)]> f).

Lemma with_new_at f i p ents name x : f !! i = Some (IDir p ents) ->
  with_new f i p ents name x !! i = Some (IDir p (<[name := fresh (dom f)]> ents)) /\
  with_new f i p ents name x !! fresh (dom f) = Some x /\ fresh (dom f) <> i /\ f !! fresh (dom f) = None.
Proof.
  intros Hi. assert (Hfr : f !! fresh (dom f) = None) by (apply not_elem_of_dom, is_fresh).
  assert (fresh (dom f) <> i) by (intros E; by rewrite E, Hi in Hfr).
  unfold with_new. rewrite lookup_insert_ne by done. by rewrite !lookup_insert_eq.
Qed.

Lemma Child_missing d name w n i p ents : sw_env w = [] -> normal name -> pd_fd d = Some n -> sw_fds w !! n = Some i ->
  sw_fs w !! i = Some (IDir p ents) -> ents !! name = None ->
  exists w', Child d name w = (Ok (PD (Some (fresh (dom (sw_fds w)))) (FpJoin [pd_path d; name])), w') /\
    sw_env w' = [] /\ sw_draws w' = sw_draws w /\ sw_fs w' = with_new (sw_fs w) i p ents name (IDir i ∅) /\
    sw_fds w' = <[fresh (dom (sw_fds w)) := fresh (dom (sw_fs w))]> (sw_fds w).
Proof.
  intros He Hn Hf Hi Hd Hj. pose proof (with_new_at _ _ _ _ name (IDir i ∅) Hd) as (Hat & Hnew & _ & _).
  unfold Child, mbind, eff_bind, attempt, Openat_dir, Mkdirat.
  rewrite scall_quiet by done. rewrite (lookup_at_ok _ _ _ _ _ _ _ Hn Hf Hi Hd), Hj.
  rewrite scall_quiet by done. unfold create_at. rewrite (at_dir_ok _ _ _ _ _ _ _ Hn Hf Hi Hd).
  rewrite (proj2 (eqs_false _ _)) by (by apply normal_ne). rewrite entry_normal, Hj by done. unfold add_inode.
  set (w1 := touch _ _). rewrite scall_quiet by done.
  rewrite (lookup_at_ok (pd_fd d) name w1 n i p (<[name := fresh (dom (sw_fs w))]> ents)) by done.
  rewrite lookup_insert_eq. unfold w1 at 1. cbn [sw_fs touch set_fs]. rewrite lookup_insert_eq.
  cbn. eexists. split; [done |]. cbn. by rewrite He.
Qed.

Lemma with_new_kept f i p ents name x : f !! i = Some (IDir p ents) -> ents !! name = None ->
  kept f (with_new f i p ents name x) /\ leaves_kept f (with_new f i p ents name x).
Proof.
  intros Hi Hn. pose proof (with_new_at f i p ents name x Hi) as (Hat & Hnew & Hne & Hfr). split.
  - intros k q e Hk. destruct (decide (k = i)) as [->|Hki].
    + rewrite Hi in Hk. injection Hk as <- <-. eexists. split; [done |]. intros m j Hm _.
      by rewrite lookup_insert_ne by congruence.
    + exists e. split; [|done]. unfold with_new. rewrite !lookup_insert_ne by congruence. done.
  - intros k y Hk Hd. assert (k <> i) by (intros ->; by rewrite (proj2 (is_dir_true f i)) in Hd by eauto).
    unfold with_new. by rewrite !lookup_insert_ne by congruence.
Qed.

Lemma fresh_fd_ne w n (i : nat) : sw_fds w !! n = Some i -> fresh (dom (sw_fds w)) <> n.
Proof. intros Hi E. apply (is_fresh (dom (sw_fds w))). rewrite E. apply elem_of_dom. eauto. Qed.

Lemma quiet_close_rest (owned : bool) d n w : sw_env w = [] -> pd_fd d = Some n ->
  exists w', (if owned then (_ ← PClose d; mret tt) else mret tt : eff sw sderr unit) w = (Ok tt, w') /\
    sw_env w' = [] /\ sw_fs w' = sw_fs w /\ sw_draws w' = sw_draws w /\
    sw_fds w' = (if owned then delete n (sw_fds w) else sw_fds w).
Proof.
  intros He Hn. destruct owned; [|by exists w]. unfold PClose, mbind, eff_bind, attempt, CloseFd, take_env. rewrite Hn, He.
  eexists. split; [done |]. cbn. by rewrite He.
Qed.

(** The walk of [openSecurePath] without interference, when nothing on the way
    is a link or a file: it ends on a handle for the directory the components
    name, creating what is missing; and the directory existed, with nothing
    created, or is new and empty. *)
Lemma secure_loop_quiet comps : forall d owned w n i, sw_env w = [] -> pd_fd d = Some n -> sw_fds w !! n = Some i ->
  is_dir (sw_fs w) i = true -> Forall normal comps ->
  (forall k j, k `prefix_of` comps -> nofollow (sw_fs w) i k = Some j -> is_dir (sw_fs w) j = true) ->
  exists d' w' n' j p' ents', secure_loop d owned comps w = (Ok (d', owned || negb (bool_decide (comps = []))), w') /\
    sw_env w' = [] /\ sw_draws w' = sw_draws w /\ pd_fd d' = Some n' /\ sw_fds w' !! n' = Some j /\
    nofollow (sw_fs w') i comps = Some j /\ sw_fs w' !! j = Some (IDir p' ents') /\
    kept (sw_fs w) (sw_fs w') /\ leaves_kept (sw_fs w) (sw_fs w') /\ (sw_fs w' = sw_fs w \/ ents' = ∅).
Proof.
  induction comps as [|c rest IH]; intros d owned w n i He Hn Hi Hd Hc Hpre.
  - apply is_dir_true in Hd as (p & ents & Hd). exists d, w, n, i, p, ents. rewrite orb_false_r.
    split_and!; try done; [apply kept_refl | apply leaves_kept_refl | by left].
  - apply Forall_cons in Hc as [Hc Hrest]. cbn [secure_loop]. rewrite orb_true_r.
    rewrite !(proj2 (eqs_false c _)) by (by destruct Hc as (?&?&?&?)). cbn [orb].
    apply is_dir_true in Hd as (p & ents & Hd). unfold mbind at 1, eff_bind at 1, attempt at 1.
    destruct (ents !! c) as [j|] eqn:Ej.
    + assert (Hdj : is_dir (sw_fs w) j = true).
      { apply (Hpre [c]); [by exists rest |]. cbn. by rewrite Hd, Ej. }
      rewrite (Child_dir d c w n i p ents j) by done. set (w1 := (alloc_fd j w).2).
      destruct (quiet_close_rest owned d n w1 He Hn) as (w2 & Hw2 & He2 & Hf2 & Hdr2 & Hfd2).
      unfold mbind at 1, eff_bind at 1. rewrite Hw2.
      edestruct (IH (PD (Some (fresh (dom (sw_fds w)))) (FpJoin [pd_path d; c])) true w2 (fresh (dom (sw_fds w))) j)
        as (d' & w' & n' & j' & p' & ents' & HE & H1 & H2 & H3 & H4 & H5 & H6 & H7 & H8 & H9);
        [done | done | | by rewrite Hf2 | done | |].
      { rewrite Hfd2. pose proof (fresh_fd_ne w n i Hi).
        destruct owned; cbn; [rewrite lookup_delete_ne by done |]; by rewrite lookup_insert_eq. }
      { rewrite Hf2. intros k j' [l ->] Hk. apply (Hpre (c :: k)); [by exists l |]. cbn. by rewrite Hd, Ej. }
      exists d', w', n', j', p', ents'. rewrite Hf2 in H7, H8, H9. split_and!; try done; [by rewrite H2, Hdr2 |].
      destruct (H7 _ _ _ Hd) as (e & He' & Hm). cbn. rewrite He', (Hm _ _ Ej Hdj). done.
    + destruct (Child_missing d c w n i p ents He Hc Hn Hi Hd Ej) as (w1 & -> & He1 & Hdr1 & Hf1 & Hfd1).
      destruct (quiet_close_rest owned d n w1 He1 Hn) as (w2 & Hw2 & He2 & Hf2 & Hdr2 & Hfd2).
      unfold mbind at 1, eff_bind at 1. rewrite Hw2.
      pose proof (with_new_at _ _ _ _ c (IDir i ∅) Hd) as (Hat & Hnew & Hne & Hfr). rewrite Hf1 in Hf2.
      destruct (with_new_kept _ _ _ _ c (IDir i ∅) Hd Ej) as [Hk Hl].
      edestruct (IH (PD (Some (fresh (dom (sw_fds w)))) (FpJoin [pd_path d; c])) true w2 (fresh (dom (sw_fds w))) (fresh (dom (sw_fs w))))
        as (d' & w' & n' & j' & p' & ents' & HE & H1 & H2 & H3 & H4 & H5 & H6 & H7 & H8 & H9);
        [done | done | | | done | |].
      { rewrite Hfd2, Hfd1. pose proof (fresh_fd_ne w n i Hi).
        destruct owned; cbn; [rewrite lookup_delete_ne by done |]; by rewrite lookup_insert_eq. }
      { rewrite Hf2. apply is_dir_true. eauto. }
      { rewrite Hf2. intros [|x k] j' _ Hkj; cbn in Hkj; [injection Hkj as <-; apply is_dir_true; eauto |].
        rewrite Hnew, lookup_empty in Hkj. done. }
      exists d', w', n', j', p', ents'. rewrite Hf2 in H7, H8. split_and!; try done.
      * by rewrite H2, Hdr2.
      * assert (Hdn : is_dir (with_new (sw_fs w) i p ents c (IDir i ∅)) (fresh (dom (sw_fs w))) = true) by (apply is_dir_true; eauto).
        destruct (H7 _ _ _ Hat) as (e & He' & Hm). cbn. rewrite He', (Hm _ _ (lookup_insert_eq _ _ _) Hdn). done.
      * by eapply kept_trans.
      * by eapply leaves_kept_trans.
      * right. destruct H9 as [H9 | ->]; [|done]. rewrite H9, Hf2 in H5, H6.
        destruct rest as [|x rest]; cbn in H5; [injection H5 as <-; congruence |].
        by rewrite Hnew, lookup_empty in H5.
Qed.

Lemma with_new_update f i p ents name x y :
  <[fresh (dom f) := y]> (with_new f i p ents name x) = with_new f i p ents name y.
Proof. unfold with_new. by rewrite insert_insert_eq. Qed.

Lemma with_new_rename f i p ents old name x : f !! i = Some (IDir p ents) -> ents !! old = None ->
  <[i := IDir p (<[name := fresh (dom f)]> (delete old (<[old := fresh (dom f)]> ents)))]> (with_new f i p ents old x) =
  with_new f i p ents name x.
Proof.
  intros Hi Ho. pose proof (with_new_at f i p ents name x Hi) as (_ & _ & Hne & _).
  rewrite delete_insert_id by done. unfold with_new. rewrite (insert_insert_ne _ i) by done. by rewrite insert_insert_eq.
Qed.

(** A world in which descriptor [n] is a directory, with inode [fresh] of [f]
    entered in it as [x]. *)
Record at_stage (f : fs) (fds : gmap nat nat) (i p : nat) (ents : gmap bytes nat) (name : bytes) (x : inode) (w : sw) : Prop := AtStage {
  as_env : sw_env w = [];
  as_fs : sw_fs w = with_new f i p ents name x;
  as_fds : sw_fds w = fds
}.

Lemma at_stage_inj f g g' i p ents name x y w : f !! i = Some (IDir p ents) ->
  at_stage f g i p ents name x w -> at_stage f g' i p ents name y w -> x = y.
Proof.
  intros Hi [_ Ha _] [_ Hb _]. rewrite Ha in Hb.
  pose proof (proj1 (proj2 (with_new_at f i p ents name x Hi))) as Hx.
  rewrite Hb, (proj1 (proj2 (with_new_at f i p ents name y Hi))) in Hx. by injection Hx.
Qed.

Section OneDir.
Context (f : fs) (fds : gmap nat nat) (n i p : nat) (ents : gmap bytes nat).
Hypothesis Hn : fds !! n = Some i.
Hypothesis Hi : f !! i = Some (IDir p ents).
Abbreviation k := (fresh (dom f)).
Abbreviation fdk := (fresh (dom fds)).

Lemma quiet_excl w name : sw_env w = [] -> sw_fs w = f -> sw_fds w = fds -> normal name -> ents !! name = None ->
  exists w', Openat_excl (Some n) name w = (Ok fdk, w') /\ at_stage f (<[fdk := k]> fds) i p ents name (IFile [] 384 0) w'.
Proof.
  intros He Hf Hfd Hnm Hm. unfold Openat_excl. rewrite scall_quiet by done. unfold create_at.
  rewrite (at_dir_ok _ _ w n i p ents) by (by rewrite ?Hf, ?Hfd).
  rewrite (proj2 (eqs_false _ _)) by (by apply normal_ne). rewrite entry_normal, Hm by done. cbn. rewrite Hf, Hfd.
  eexists. split; [done |]. by constructor.
Qed.

Lemma quiet_write w name d0 d m t : at_stage f (<[fdk := k]> fds) i p ents name (IFile d0 m t) w ->
  exists w', FWrite (Some fdk) d w = (Ok tt, w') /\ at_stage f (<[fdk := k]> fds) i p ents name (IFile (d0 ++ d) m t) w'.
Proof.
  intros [He Hf Hfd]. unfold FWrite, take_env, fd_inode. rewrite He, Hfd, lookup_insert_eq. unfold append_inode.
  rewrite Hf, (proj1 (proj2 (with_new_at f i p ents name _ Hi))). eexists. split; [done |].
  constructor; cbn; [done | by rewrite with_new_update | done].
Qed.

Lemma quiet_chmod w name d0 m m' t : at_stage f (<[fdk := k]> fds) i p ents name (IFile d0 m t) w ->
  exists w', Fchmod (Some fdk) m' w = (Ok tt, w') /\ at_stage f (<[fdk := k]> fds) i p ents name (IFile d0 m' t) w'.
Proof.
  intros [He Hf Hfd]. unfold Fchmod. rewrite scall_quiet by done. unfold fd_inode. rewrite Hfd, lookup_insert_eq.
  rewrite Hf, (proj1 (proj2 (with_new_at f i p ents name _ Hi))). eexists. split; [done |].
  constructor; cbn; [done | by rewrite with_new_update | done].
Qed.

Lemma quiet_sync w g n' j name x : at_stage f g i p ents name x w -> g !! n' = Some j -> Fsync (Some n') w = (Ok tt, w).
Proof. intros [He Hf Hfd] Hg. unfold Fsync. rewrite scall_quiet by done. unfold fd_inode. by rewrite Hfd, Hg. Qed.

Lemma quiet_close w name x : at_stage f (<[fdk := k]> fds) i p ents name x w ->
  exists w', CloseFd fdk w = (Ok tt, w') /\ at_stage f fds i p ents name x w'.
Proof.
  intros [He Hf Hfd]. unfold CloseFd, take_env. rewrite He. eexists. split; [done |]. constructor; cbn; [done | done |].
  rewrite Hfd. apply delete_insert_id. apply not_elem_of_dom, is_fresh.
Qed.

Lemma quiet_rename w old name d m t : at_stage f fds i p ents old (IFile d m t) w -> normal old -> normal name ->
  old <> name -> ents !! old = None -> (forall j, ents !! name = Some j -> exists x, f !! j = Some x /\ is_dir f j = false) ->
  exists w', Renameat (Some n) old name w = (Ok tt, w') /\ at_stage f fds i p ents name (IFile d m t) w'.
Proof.
  intros [He Hf Hfd] Ho Hnm Hne Hold Hdst. unfold Renameat. rewrite scall_quiet by done.
  pose proof (with_new_at f i p ents old (IFile d m t) Hi) as (Hat & Hk & Hki & Hfr).
  rewrite !(at_dir_ok _ _ w n i p (<[old := k]> ents)) by (by rewrite ?Hf, ?Hfd).
  assert (Hsp : forall s, normal s -> special s = false).
  { intros s (? & ? & ? & _). unfold special. by rewrite !(proj2 (eqs_false _ _)) by done. }
  rewrite !Hsp by done. cbn [orb]. rewrite (proj2 (eqs_false _ _)) by (by apply normal_ne).
  rewrite lookup_insert_eq, lookup_insert_ne by done. rewrite bool_decide_true by done.
  rewrite Hf, with_new_rename by done. set (w' := touch _ _).
  assert (Hw' : at_stage f fds i p ents name (IFile d m t) w') by by constructor.
  destruct (ents !! name) as [j|] eqn:Ej; [|by exists w'].
  destruct (Hdst j eq_refl) as (x & Hx & Hxd). rewrite bool_decide_false by congruence.
  assert (Hd : is_dir (with_new f i p ents old (IFile d m t)) k = false) by (unfold is_dir; by rewrite Hk).
  assert (Hj : is_dir (with_new f i p ents old (IFile d m t)) j = false).
  { unfold is_dir. rewrite (proj2 (with_new_kept f i p ents old _ Hi Hold) j x Hx Hxd). unfold is_dir in Hxd. by rewrite Hx in Hxd. }
  unfold rename_over. rewrite Hd, Hj. by exists w'.
Qed.

Lemma quiet_utimes w name d m t0 t : at_stage f fds i p ents name (IFile d m t0) w -> normal name ->
  exists w', UtimesNanoAt (Some n) name t w = (Ok tt, w') /\ at_stage f fds i p ents name (IFile d m t) w'.
Proof.
  intros [He Hf Hfd] Hnm. pose proof (with_new_at f i p ents name (IFile d m t0) Hi) as (Hat & Hk & _ & _).
  unfold UtimesNanoAt. rewrite scall_quiet by done.
  rewrite (lookup_at_ok _ _ w n i p (<[name := k]> ents)) by (by rewrite ?Hf, ?Hfd).
  rewrite lookup_insert_eq, Hf, Hk. eexists. split; [done |]. constructor; cbn; [done | by rewrite with_new_update | done].
Qed.

Lemma staging_normal name u : normal name -> (slash ∉ u) -> normal (name ++ s_dot ++ u ++ go ".tmp") /\ name ++ s_dot ++ u ++ go ".tmp" <> name.
Proof.
  intros (H1 & H2 & H3 & H4) Hu. assert (Hd : slash ∉ s_dot) by by_decide. assert (Ht : slash ∉ go ".tmp") by by_decide.
  assert (Hlen : (length (name ++ s_dot ++ u ++ go ".tmp") > length name + 4)%nat).
  { rewrite !length_app. change (length (go ".tmp")) with 4%nat. change (length s_dot) with 1%nat. lia. }
  revert Hlen. generalize (go ".tmp") as x, Ht. intros x Hx Hlen. repeat split.
  - by destruct name.
  - intros E. rewrite E in Hlen. cbn in Hlen. lia.
  - intros E. rewrite E in Hlen. cbn in Hlen. lia.
  - rewrite !elem_of_app. naive_solver.
  - intros E. rewrite E in Hlen. lia.
Qed.

Lemma WriteAtomic_quiet d name data mode w : sw_env w = [] -> sw_fs w = f -> sw_fds w = fds -> pd_fd d = Some n ->
  normal name -> (slash ∉ uuid_string (sw_draws w)) ->
  ents !! (name ++ s_dot ++ uuid_string (sw_draws w) ++ go ".tmp") = None ->
  (forall j, ents !! name = Some j -> exists x, f !! j = Some x /\ is_dir f j = false) ->
  exists w', WriteAtomic d name data mode w = (Ok tt, w') /\ at_stage f fds i p ents name (IFile data mode 0) w'.
Proof.
  intros He Hf Hfd Hd Hnm Hu Hfree Hdst. destruct (staging_normal name _ Hnm Hu) as [Hsn Hne].
  unfold WriteAtomic, CreateStaging, with_cleanup, stage_step, close_commit, StWrite, StChmod, StSync, StClose, Commit, Cleanup.
  unfold mbind, eff_bind, attempt, wrap_err. cbn [st_fd st_dir st_name st_done]. rewrite Hd.
  revert Hfree Hsn Hne. generalize (name ++ s_dot ++ uuid_string (sw_draws w) ++ go ".tmp") as sn. intros sn Hfree Hsn Hne.
  set (w0 := SW _ _ _ _ _). destruct (quiet_excl w0 sn He Hf Hfd Hsn Hfree) as (w1 & -> & H1). cbn [mret eff_ret st_fd st_dir st_name st_done].
  destruct (quiet_write w1 sn [] data _ _ H1) as (w2 & -> & H2). cbn [app] in H2.
  destruct (quiet_chmod w2 sn _ _ mode _ H2) as (w3 & -> & H3).
  rewrite (quiet_sync w3 _ fdk k _ _ H3) by apply lookup_insert_eq.
  destruct (quiet_close w3 sn _ H3) as (w4 & -> & H4). cbn [mret eff_ret st_fd st_dir st_name st_done]. rewrite ?Hd.
  destruct (quiet_rename w4 sn name _ _ _ H4 Hsn Hnm Hne Hfree Hdst) as (w5 & -> & H5).
  rewrite (quiet_sync w5 _ n i _ _ H5) by done. by exists w5.
Qed.
End OneDir.
End Quiet.

Section Landed.
Context (f0 f1 : fs) (r i p : nat) (comps : list bytes) (ents : gmap bytes nat).
Hypothesis Hwalk : nofollow f1 r comps = Some i.
Hypothesis Hi : f1 !! i = Some (IDir p ents).

(** What the directory the walk ended on holds, in terms of the file system
    before the walk. *)
Lemma opened_entry name : (f1 = f0 \/ ents = ∅) -> ents !! name = None \/ nofollow f0 r (comps ++ [name]) = ents !! name /\ f1 = f0.
Proof.
  intros [-> | ->]; [right | left; apply lookup_empty]. split; [|done]. rewrite nofollow_snoc, Hwalk.
  cbn [mbind option_bind nofollow]. rewrite Hi. by destruct (ents !! name).
Qed.

(** A new inode entered there is found under its path. *)
Lemma landed_path name x : (forall j, ents !! name = Some j -> exists x, f1 !! j = Some x /\ is_dir f1 j = false) ->
  nofollow (with_new f1 i p ents name x) r (comps ++ [name]) = Some (fresh (dom f1)) /\
  leaves_kept f1 (with_new f1 i p ents name x).
Proof.
  intros Hdst. pose proof (with_new_at f1 i p ents name x Hi) as (Hat & Hnew & Hne & Hfr). split.
  - assert (Hk : kept f1 (with_new f1 i p ents name x)).
    { intros a q e Ha. destruct (decide (a = i)) as [->|].
      - rewrite Hi in Ha. injection Ha as <- <-. eexists. split; [done |]. intros m j Hm Hdj.
        rewrite lookup_insert_ne; [done |]. intros <-. destruct (Hdst j Hm) as (y & _ & Hy). congruence.
      - exists e. split; [|done]. unfold with_new. by rewrite !lookup_insert_ne by congruence. }
    rewrite nofollow_snoc, (nofollow_kept _ _ _ _ _ Hk Hwalk) by (apply is_dir_true; eauto).
    cbn [mbind option_bind nofollow]. by rewrite Hat, lookup_insert_eq.
  - intros a y Ha Hda. assert (a <> i) by (intros ->; rewrite (proj2 (is_dir_true _ i)) in Hda; eauto; done).
    unfold with_new. by rewrite !lookup_insert_ne by congruence.
Qed.
End Landed.

(** With nothing interfering, writing below the root does what it says:
    when no directory component is a link or a file, the staging name is free
    and the target is not a directory, the write succeeds, the components
    then lead (through directories only) to a file with exactly the data, the
    mode and the time given, and every file and link that was there before is
    unchanged. *)
Theorem secure_write_lands `{Walk} `{Uuid} w root n r comps name data mode t :
  (forall m, slash ∉ uuid_string m) -> sw_env w = [] -> pd_fd root = Some n -> sw_fds w !! n = Some r ->
  is_dir (sw_fs w) r = true -> Forall normal comps -> normal name ->
  (forall k j, k `prefix_of` comps -> nofollow (sw_fs w) r k = Some j -> is_dir (sw_fs w) j = true) ->
  nofollow (sw_fs w) r (comps ++ [name ++ s_dot ++ uuid_string (sw_draws w) ++ go ".tmp"]) = None ->
  (forall j, nofollow (sw_fs w) r (comps ++ [name]) = Some j -> exists x, sw_fs w !! j = Some x /\ is_dir (sw_fs w) j = false) ->
  exists w' j, write_below root comps name data mode t w = (Ok tt, w') /\
    nofollow (sw_fs w') r (comps ++ [name]) = Some j /\ sw_fs w' !! j = Some (IFile data mode t) /\
    leaves_kept (sw_fs w) (sw_fs w').
Proof.
  intros Hu He Hn Hr Hd Hc Hnm Hpre Hfree Hdst. unfold write_below, openSecurePath.
  destruct (secure_loop_quiet comps root false w n r He Hn Hr Hd Hc Hpre)
    as (d' & w1 & n' & i & p & ents & HE & He1 & Hdr & Hn' & Hi & Hwalk & Hdi & Hk & Hl & Hor).
  unfold mbind at 1, eff_bind at 1. rewrite HE.
  assert (Hfree' : ents !! (name ++ s_dot ++ uuid_string (sw_draws w1) ++ go ".tmp") = None).
  { rewrite Hdr. revert Hfree. generalize (name ++ s_dot ++ uuid_string (sw_draws w) ++ go ".tmp") as sn. intros sn Hfree.
    by destruct (opened_entry (sw_fs w) (sw_fs w1) r i p comps ents Hwalk Hdi sn Hor) as [? | [<- _]]. }
  assert (Hdst' : forall j, ents !! name = Some j -> exists x, sw_fs w1 !! j = Some x /\ is_dir (sw_fs w1) j = false).
  { intros j Hj. destruct (opened_entry (sw_fs w) (sw_fs w1) r i p comps ents Hwalk Hdi name Hor) as [? | [Hno ->]]; [congruence |].
    apply Hdst. by rewrite Hno. }
  destruct (WriteAtomic_quiet (sw_fs w1) (sw_fds w1) n' i p ents Hi Hdi d' name data mode w1 He1 eq_refl eq_refl Hn' Hnm (Hu _) Hfree' Hdst')
    as (w2 & HW & H2).
  unfold mbind at 1, eff_bind at 1. rewrite HW. unfold Chtimes, mbind, eff_bind, attempt. rewrite Hn'.
  destruct (quiet_utimes (sw_fs w1) (sw_fds w1) n' i p ents Hi Hdi w2 name _ _ _ t H2 Hnm) as (w3 & -> & [_ Hf3 _]).
  destruct (landed_path _ r i p comps ents Hwalk Hdi name (IFile data mode t) Hdst') as [Hp Hlv].
  exists w3, (fresh (dom (sw_fs w1))). rewrite Hf3. split_and!; [done | done | | by eapply leaves_kept_trans].
  apply (with_new_at _ _ _ _ name (IFile data mode t) Hdi).
Qed.

(** A component that is a link or a file stops the walk with the link error,
    and the write has changed nothing. *)
Lemma secure_loop_refuses `{Walk} comps : forall d owned w n i c rest j x, sw_env w = [] -> pd_fd d = Some n ->
  sw_fds w !! n = Some i -> Forall normal (comps ++ [c]) -> nofollow (sw_fs w) i (comps ++ [c]) = Some j ->
  sw_fs w !! j = Some x -> is_dir (sw_fs w) j = false ->
  exists path w', secure_loop d owned (comps ++ c :: rest) w = (Err (SLink path), w') /\ sw_fs w' = sw_fs w.
Proof.
  induction comps as [|a comps IH]; intros d owned w n i c rest j x He Hn Hi Hc Hw Hx Hd; cbn [app secure_loop].
  - apply Forall_cons in Hc as [Hc _]. rewrite !(proj2 (eqs_false c _)) by (by destruct Hc as (?&?&?&?)). cbn [orb].
    cbn in Hw. destruct (sw_fs w !! i) as [[p ents| |]|] eqn:Ed; try done. destruct (ents !! c) as [m|] eqn:Ec; [|done].
    cbn in Hw. injection Hw as ->. unfold mbind at 1, eff_bind at 1, attempt at 1.
    rewrite (Child_other d c w n i p ents j x) by done.
    destruct (quiet_close_rest owned d n w He Hn) as (w2 & Hw2 & _ & Hf2 & _). unfold mbind at 1, eff_bind at 1. rewrite Hw2.
    by eexists _, w2.
  - apply Forall_cons in Hc as [Ha Hc]. rewrite !(proj2 (eqs_false a _)) by (by destruct Ha as (?&?&?&?)). cbn [orb].
    cbn in Hw. destruct (sw_fs w !! i) as [[p ents| |]|] eqn:Ed; try done. destruct (ents !! a) as [m|] eqn:Ea; [|done].
    cbn in Hw. assert (Hm : is_dir (sw_fs w) m = true) by (destruct comps; by eapply nofollow_is_dir).
    unfold mbind at 1, eff_bind at 1, attempt at 1. rewrite (Child_dir d a w n i p ents m) by done.
    set (w1 := (alloc_fd m w).2).
    destruct (quiet_close_rest owned d n w1 He Hn) as (w2 & Hw2 & He2 & Hf2 & _ & Hfd2).
    unfold mbind at 1, eff_bind at 1. rewrite Hw2.
    edestruct (IH (PD (Some (fresh (dom (sw_fds w)))) (FpJoin [pd_path d; a])) true w2 (fresh (dom (sw_fds w))) m c rest j x)
      as (path & w' & HE & Hf'); [done | done | | done | by rewrite Hf2 | by rewrite Hf2 | by rewrite Hf2 |].
    { rewrite Hfd2. pose proof (fresh_fd_ne w n i Hi).
      destruct owned; cbn; [rewrite lookup_delete_ne by done |]; by rewrite lookup_insert_eq. }
    exists path, w'. split; [exact HE |]. by rewrite Hf', Hf2.
Qed.

(** A restore path that passes through a symlink (or a file) is refused
    with the link error before anything is written: the file system is left
    as it was. *)
Theorem secure_path_refuses_links `{Walk} `{Uuid} w root n r comps c rest j x name data mode t :
  sw_env w = [] -> pd_fd root = Some n -> sw_fds w !! n = Some r -> Forall normal (comps ++ [c]) ->
  nofollow (sw_fs w) r (comps ++ [c]) = Some j -> sw_fs w !! j = Some x -> is_dir (sw_fs w) j = false ->
  exists path w', write_below root (comps ++ c :: rest) name data mode t w = (Err (SLink path), w') /\ sw_fs w' = sw_fs w.
Proof.
  intros He Hn Hr Hc Hw Hx Hd. destruct (secure_loop_refuses comps root false w n r c rest j x He Hn Hr Hc Hw Hx Hd)
    as (path & w' & HE & Hf).
  exists path, w'. split; [|done]. unfold write_below, openSecurePath, mbind at 1, eff_bind at 1. by rewrite HE.
Qed.

Module SecureWitness.
#[local] Instance w_walk : Walk := {
  walk_at := fun _ _ _ => Err NOENT; walk_root := fun _ _ => Ok 1%nat; mkdir_all := fun _ f => Ok f }.
#[local] Instance w_uuid : Uuid := toy_uuid.

Lemma w_uuid_clean m : slash ∉ uuid_string m.
Proof.
  unfold uuid_string, w_uuid, toy_uuid. rewrite elem_of_app. intros [Hin | Hin].
  - revert Hin. by_decide.
  - revert Hin. unfold FormatInt. destruct (Z.of_nat m <? 0) eqn:E; [apply Z.ltb_lt in E; lia |]. apply digits_no_us; [done |].
    by intros ?%elem_of_nil.
Qed.

(** Inode 1 is the restore root, 2 an outside directory, 3 a link to it. *)
Definition f0 : fs := {[ 1%nat := IDir 0 {[ go "evil" := 3%nat ]}; 2%nat := IDir 0 ∅; 3%nat := ILink (go "/outside") ]}.
Definition swap (f : fs) : fs := <[1%nat := IDir 0 {[ go "a" := 3%nat ]}]> f.
Definition root : posixDir := PD (Some 5%nat) (go "/t").
Definition w0 (env : list env_step) : sw := SW f0 {[ 5%nat := 1%nat ]} env 0 [].

Lemma entries_outside (m : gmap bytes nat) (O : gset nat) : map_Forall (fun _ j => j ∉ O) m ->
  forall n j, m !! n = Some j -> j ∉ O.
Proof. intros Hm n j Hj. exact (Hm n j Hj). Qed.

(** Replacing the root by a directory whose only entry is the link. *)
Lemma swap_ok : env_ok {[ 2%nat ]} (Env swap None).
Proof.
  intros f [Hs1 Hs2]. cbn. unfold swap. split.
  - intros i ->%elem_of_singleton. rewrite lookup_insert_ne by done. apply Hs1. set_solver.
  - intros i p ents n j. rewrite lookup_insert_Some. intros [[<- [= <- <-]] | [_ Hi]]; [|by eapply Hs2].
    intros _. apply entries_outside. by_decide.
Qed.

Lemma w0_inv env : Forall (env_ok {[ 2%nat ]}) env -> inv {[ 2%nat ]} (w0 env).
Proof.
  intros He. constructor; [|done | |].
  - split.
    + intros i ->%elem_of_singleton. by eexists.
    + intros i p ents n j Hi _. revert n j.
      assert (Hf : map_Forall (fun _ x => match x with IDir _ e => map_Forall (fun _ j => j ∉ ({[ 2%nat ]} : gset nat)) e | _ => True end) f0).
      { unfold f0. repeat (apply map_Forall_insert_2; [by_decide || exact I |]). apply map_Forall_empty. }
      apply entries_outside. exact (Hf _ _ Hi).
  - cbn. intros n i [<- <-]%lookup_singleton_Some. by_decide.
  - by intros i ?%elem_of_nil.
Qed.

(** An attacker swaps a component for a link between the calls. *)
Lemma secure_write_confined_witness :
  inv {[ 2%nat ]} (write_below root [go "a"] (go "f") [x07] 420 9 (w0 [Env swap None; Env swap None])).2.
Proof.
  apply secure_write_confined; [apply w_uuid_clean | by_decide | by_decide | done |].
  apply w0_inv. apply Forall_cons. split; [apply swap_ok |]. apply Forall_cons. split; [apply swap_ok | by constructor].
Defined.

Lemma secure_write_lands_witness :
  exists w' j, write_below root [go "a"; go "b"] (go "f") [x07] 420 9 (w0 []) = (Ok tt, w') /\
    nofollow (sw_fs w') 1 ([go "a"; go "b"] ++ [go "f"]) = Some j /\ sw_fs w' !! j = Some (IFile [x07] 420 9) /\
    leaves_kept f0 (sw_fs w').
Proof.
  apply (secure_write_lands (w0 []) root 5 1); try done; [apply w_uuid_clean | by_decide | by_decide |].
  intros k j Hk. assert (k = [] \/ k = [go "a"] \/ k = [go "a"; go "b"]) as [-> | [-> | ->]].
  { destruct Hk as [l Hl]. destruct k as [|x [|y [|z k]]]; cbn in Hl; simplify_eq; auto. }
  - by intros [= <-].
  - by vm_compute.
  - by vm_compute.
Defined.

Lemma secure_path_refuses_links_witness :
  exists path w', write_below root [go "evil"; go "x"] (go "f") [x07] 420 9 (w0 []) = (Err (SLink path), w') /\ sw_fs w' = f0.
Proof.
  apply (secure_path_refuses_links (w0 []) root 5 1 [] (go "evil") [go "x"] 3 (ILink (go "/outside"))); try done. by_decide.
Defined.
End SecureWitness.
