(* ===== verification/Restore.v ===== *)
(** Restore: restoring a snapshot ([simple/restore.go], from [RestoreConfig]
    on), over the blob store interface and the directory handles of
    [SecureDir].

    The manifest is an argument of [restoreManifest], which is [Run] after the
    manifest is loaded.  The state is the store, the file system, the schedule
    of the answers of [ctx.Err()] and the result counters.  Progress callbacks
    and log messages are not represented.  Writes of the streaming decoder into
    the staging file are combined into one write of what it produced; [room] is
    how much fits.  Scratch buffers that are only reused memory are dropped.

    [time.Parse(time.RFC3339, _)] is the parameter [Rfc3339], in nanoseconds. *)

From S2P Require Import Prelude GoStr Externs Compress Crypto Stream FS BlobStore Blob Manifest RestorePath SecureDir.
From stdpp Require Import base list gmap strings.
From Stdlib.Strings Require Import Byte.
Local Open Scope Z_scope.

Record RestoreConfig := MkRestoreConfig {
  rc_RepoRoot : bytes; rc_TargetDir : bytes; rc_SourceID : Z; rc_CloudID : bytes; rc_Timestamp : bytes; rc_DeviceID : bytes;
  rc_Key : bytes; rc_Overwrite : bool
}.
Record RestoreResult := MkRestoreResult { rr_RestoredFiles : Z; rr_RestoredBytes : Z; rr_SkippedFiles : Z }.

(** [time.Time{}] in nanoseconds since the epoch. *)
Definition zero_time : Z := - 62135596800 * 10 ^ 9.

(** [MtimeTime]: the zero time when there is none or it does not parse. *)
Definition MtimeTime `{Rfc3339} (f : FileEntry) : Z :=
  if eqs (f_Mtime f) [] then zero_time
  else match parse_rfc3339 (f_Mtime f) with Some t => t | None => zero_time end.

Definition cdcMaxSize : Z := 16 * 1024 * 1024.
Definition maxChunkBlobSize : Z := cdcMaxSize + MagicSize + IVSize + TagSize + 2 ^ 20.

Inductive rserr :=
| RPath (e : perr) | RDir (e : sderr) | REmptyPath | RCancelled
| RBlob (e : berr) | RStream (e : serr) | RStage (e : errno)
| RTooLarge | RReadChunk
| RHash (expected got : bytes) | RSize (expected got : Z)
| RStore (e : store_err).

(** [readAllBounded]: everything the reader delivers, at most [limit] bytes; the
    limit is noticed before a later read error is. *)
Definition readAllBounded (r : reader) (limit : Z) : result rserr bytes :=
  if limit <? blen (rd_data r) then Err RTooLarge
  else if rd_fails r then Err RReadChunk
  else Ok (rd_data r).

Section Ops.
Context `{AE : AEAD, ZS : Zstd, SH : Sha256}.

(** [decryptChunkBlobStream] up to the write: the verified plaintext of one
    chunk blob. *)
Definition decryptChunk (dec : Decryptor) (src : reader) (expectedHash : bytes) : result rserr bytes :=
  data ← readAllBounded src maxChunkBlobSize;
  let full := match Decrypt dec data with Ok p => Ok p | Err e => Err (RBlob (BDecrypt e)) end in
  plaintext ←
    (if (MagicSize + IVSize + TagSize <? blen data) && bool_decide (upto MagicSize data = MagicGB1)
        && negb (isChunkCount (upto ChunkCountSize (from MagicSize data))) then
       match newGCM (dkey dec) with
       | Err e => Err (RBlob (BDecrypt e))
       | Ok _ =>
           match gcm_open (dkey dec) (upto IVSize (from MagicSize data)) (from (MagicSize + IVSize) data) with
           | Some opened => Ok opened
           | None => full
           end
       end
     else full);
  p ← (if Zstd.IsCompressed plaintext then
         match Zstd.Decompress defaultStreamDecompressor plaintext with
         | Ok d => Ok d
         | Err e => Err (RBlob (BDecompress e))
         end
       else Ok plaintext);
  if negb (eqs (SHA256Bytes p) expectedHash) then Err (RHash expectedHash (SHA256Bytes p)) else Ok p.

Section Run.
Context {S : Type} `{B : BlobStore S} `{WK : Walk} `{U : Uuid} `{RF : Rfc3339}.

Record rst := RS { r_store : S; r_sw : sw; r_ctx : list bool; r_res : RestoreResult }.

Definition on_store {E A} (f : E -> rserr) (m : eff S E A) : eff rst rserr A :=
  wrap_err f (zoom r_store (fun s t => RS s (r_sw t) (r_ctx t) (r_res t)) m).
Definition on_disk {E A} (f : E -> rserr) (m : eff sw E A) : eff rst rserr A :=
  wrap_err f (zoom r_sw (fun w t => RS (r_store t) w (r_ctx t) (r_res t)) m).

Definition cancelled : eff rst rserr bool :=
  fun t => match r_ctx t with
           | [] => (Ok false, t)
           | b :: l => (Ok b, RS (r_store t) (r_sw t) l (r_res t))
           end.

Definition lift_result {A} (r : result rserr A) : eff rst rserr A :=
  match r with Ok a => mret a | Err e => throw e end.

(** The staging file's life: the deferred [Cleanup] around a body that writes
    it, then close and commit. *)
Definition staged (dir : posixDir) (name : bytes) (body : posixStaging -> eff rst rserr unit) : eff rst rserr unit :=
  st ← on_disk RDir (CreateStaging dir name);
  r ← attempt (body st);
  match r with
  | Err e => _ ← on_disk RDir (Cleanup st); throw e
  | Ok _ =>
      '(c, st') ← on_disk RDir (close_commit st name);
      _ ← on_disk RDir (Cleanup st');
      match c with Ok _ => mret tt | Err e => throw (RDir e) end
  end.

(** Mode (best effort) and sync before the commit. *)
Definition seal_staging (st : posixStaging) (mode : Z) : eff rst rserr unit :=
  _ ← attempt (on_disk RStage (StChmod st mode));
  on_disk RStage (StSync st).

Definition restoreChunkStream (dec : Decryptor) (hash : bytes) (st : posixStaging) : eff rst rserr unit :=
  rc ← attempt (on_store RStore (bs_GetStream hash));
  match rc with
  | Err _ =>
      plaintext ← on_store RBlob (DownloadBlob dec hash);
      on_disk RStage (StWrite st plaintext)
  | Ok src =>
      plaintext ← lift_result (decryptChunk dec src hash);
      on_disk RStage (StWrite st plaintext)
  end.

Fixpoint restore_chunks (dec : Decryptor) (st : posixStaging) (chunks : list ChunkRef) : eff rst rserr unit :=
  match chunks with
  | [] => mret tt
  | chunk :: rest =>
      c ← cancelled;
      if (c : bool) then throw RCancelled
      else
        _ ← restoreChunkStream dec (c_Hash chunk) st;
        restore_chunks dec st rest
  end.

Definition restoreChunkedFile (dec : Decryptor) (file : FileEntry) (dir : posixDir) (name : bytes) : eff rst rserr unit :=
  staged dir name (fun st =>
    _ ← restore_chunks dec st (f_Chunks file);
    seal_staging st (f_Mode file)).

Definition downloadBlobToSecureDir (dec : Decryptor) (room : Z) (hash : bytes) (dir : posixDir) (name : bytes)
    (mode expectedSize : Z) : eff rst rserr unit :=
  rc ← attempt (on_store RStore (bs_GetStream hash));
  match rc with
  | Err _ =>
      plaintext ← on_store RBlob (DownloadBlob dec hash);
      if negb (blen plaintext =? expectedSize) then throw (RSize expectedSize (blen plaintext))
      else on_disk RDir (WriteAtomic dir name plaintext mode)
  | Ok src =>
      staged dir name (fun st =>
        match decryptStreamToFile dec src (VW (FileW [] room) [] 0) with
        | Err e => throw (RStream e)
        | Ok vw =>
            _ ← on_disk RStage (StWrite st (fw_data (vw_w vw)));
            let got := SHA256Bytes (vw_h vw) in
            if negb (eqs got hash) then throw (RHash hash got)
            else if negb (vw_n vw =? expectedSize) then throw (RSize expectedSize (vw_n vw))
            else seal_staging st mode
        end)
  end.

Definition bump (f : RestoreResult -> RestoreResult) : eff rst rserr unit :=
  modify (fun t => RS (r_store t) (r_sw t) (r_ctx t) (f (r_res t))).

Definition skipped (r : RestoreResult) : RestoreResult :=
  MkRestoreResult (rr_RestoredFiles r) (rr_RestoredBytes r) (rr_SkippedFiles r + 1).

Definition counted (file : FileEntry) (r : RestoreResult) : RestoreResult :=
  MkRestoreResult (rr_RestoredFiles r + 1) (int64 (rr_RestoredBytes r + f_Size file)) (rr_SkippedFiles r).

Definition skip : eff rst rserr unit := bump skipped.

Definition close_owned (dir : posixDir) (owned : bool) : eff rst rserr unit :=
  if owned then _ ← on_disk RDir (PClose dir); mret tt else mret tt.

(** Fetch a file's content and write it: the three ways of [Run]. *)
Definition restore_content (dec : Decryptor) (room : Z) (file : FileEntry) (dir : posixDir) (name : bytes) : eff rst rserr unit :=
  match f_Chunks file with
  | _ :: _ => restoreChunkedFile dec file dir name
  | [] =>
      if DefaultChunkSize <=? f_Size file then
        downloadBlobToSecureDir dec room (f_ContentHash file) dir name (f_Mode file) (f_Size file)
      else
        plaintext ← on_store RBlob (DownloadBlob dec (f_ContentHash file));
        on_disk RDir (WriteAtomic dir name plaintext (f_Mode file))
  end.

(** The last component and those before it. *)
Definition split_comps (comps : list bytes) : option (list bytes * bytes) :=
  match last comps with
  | Some name => Some (take (length comps - 1) comps, name)
  | None => None
  end.

(** The end of an iteration of the file loop: content, time, counters. *)
Definition write_file (dec : Decryptor) (room : Z) (file : FileEntry) (dir : posixDir) (owned : bool) (name : bytes) : eff rst rserr unit :=
  r ← attempt (restore_content dec room file dir name);
  match r with
  | Err e => _ ← close_owned dir owned; throw e
  | Ok _ =>
      _ ← (if MtimeTime file =? zero_time then mret tt
           else _ ← attempt (E := rserr) (on_disk RStage (Chtimes dir name (MtimeTime file))); mret tt);
      _ ← close_owned dir owned;
      bump (counted file)
  end.

(** One iteration of the file loop after the status check. *)
Definition restore_file (cwd : bytes) (cfg : RestoreConfig) (dec : Decryptor) (room : Z) (root : posixDir)
    (file : FileEntry) : eff rst rserr unit :=
  comps ← lift_result (match safeRestoreComponents cwd (rc_TargetDir cfg) (f_Name file) with
                       | Ok l => Ok l | Err e => Err (RPath e) end);
  match split_comps comps with
  | None => throw REmptyPath
  | Some (dirComps, name) =>
      '(dir, owned) ← on_disk RDir (openSecurePath root dirComps);
      present ← attempt (if rc_Overwrite cfg then mret false else on_disk RDir (SecureDir.Exists dir name));
      match present with
      | Err e => _ ← close_owned dir owned; throw e
      | Ok true => _ ← skip; close_owned dir owned
      | Ok false => write_file dec room file dir owned name
      end
  end.

Fixpoint restore_dirs (cwd : bytes) (cfg : RestoreConfig) (root : posixDir) (dirs : list bytes) : eff rst rserr unit :=
  match dirs with
  | [] => mret tt
  | dirPath :: rest =>
      if eqs dirPath [] then restore_dirs cwd cfg root rest
      else
        comps ← lift_result (match safeRestoreComponents cwd (rc_TargetDir cfg) dirPath with
                             | Ok l => Ok l | Err e => Err (RPath e) end);
        '(dir, owned) ← on_disk RDir (openSecurePath root comps);
        r ← attempt (on_disk RDir (EnsureDir dir));
        _ ← close_owned dir owned;
        match r with
        | Err e => throw e
        | Ok _ => restore_dirs cwd cfg root rest
        end
  end.

Fixpoint restore_files (cwd : bytes) (cfg : RestoreConfig) (dec : Decryptor) (room : Z) (root : posixDir)
    (files : list FileEntry) : eff rst rserr unit :=
  match files with
  | [] => mret tt
  | file :: rest =>
      c ← cancelled;
      if (c : bool) then throw RCancelled
      else if negb (IsRestorable file) then
        _ ← skip; restore_files cwd cfg dec room root rest
      else
        _ ← restore_file cwd cfg dec room root file;
        restore_files cwd cfg dec room root rest
  end.

(** [Run] once the manifest is loaded. *)
Definition restoreManifest (cwd : bytes) (cfg : RestoreConfig) (room : Z) (m : Manifest) : eff rst rserr RestoreResult :=
  let dec := NewDecryptor (rc_Key cfg) DefaultChunkSize in
  root ← on_disk RDir (openSecureDir cwd (rc_TargetDir cfg));
  r ← attempt (
    _ ← restore_dirs cwd cfg root (map_to_list (m_Dirs m)).*1;
    restore_files cwd cfg dec room root (AllFiles m));
  _ ← on_disk RDir (PClose root);
  match r with
  | Err e => throw e
  | Ok _ => gets r_res
  end.
End Run.
End Ops.

(** * Confinement *)

Create HintDb rkeeps.

Section Confined.
Context `{AE : AEAD, ZS : Zstd, SH : Sha256}.
Context {S : Type} `{B : BlobStore S} `{WK : Walk} `{U : Uuid} `{RF : Rfc3339}.
Context (O : gset nat).
Hypothesis uuid_clean : forall n, slash ∉ uuid_string n.

(** Computations that keep the invariant of the file system, with a fact about
    their result. *)
Definition rkeeps {A} (Q : A -> Prop) (m : eff (@rst S) rserr A) : Prop :=
  forall t, inv O (r_sw t) -> inv O (r_sw (m t).2) /\ (forall a, (m t).1 = Ok a -> Q a).

Lemma rkeeps_ret {A} (Q : A -> Prop) a : Q a -> rkeeps Q (mret a).
Proof. intros Ha t Ht. split; [done |]. by intros b ->%ok_inv. Qed.

Lemma rkeeps_throw {A} (Q : A -> Prop) e : rkeeps Q (throw e).
Proof. by intros t Ht. Qed.

Lemma rkeeps_bind {A C} (P : A -> Prop) (Q : C -> Prop) (m : eff rst rserr A) f :
  rkeeps P m -> (forall a, P a -> rkeeps Q (f a)) -> rkeeps Q (m ≫= f).
Proof.
  intros Hm Hf t Ht. unfold mbind, eff_bind. specialize (Hm t Ht) as [Hi Hp].
  destruct (m t) as [[a|e] t']; [|done]. apply Hf; [by apply Hp | done].
Qed.

Lemma rkeeps_attempt {A} (m : eff rst rserr A) :
  rkeeps (fun _ => True) m -> rkeeps (fun _ => True) (attempt m : eff rst rserr (result rserr A)).
Proof. intros Hm t Ht. specialize (Hm t Ht) as [Hi _]. unfold attempt. by destruct (m t). Qed.

Lemma rkeeps_disk {E A} (P : A -> Prop) (f : E -> rserr) (m : eff sw E A) : keepsP O P m -> rkeeps P (on_disk f m).
Proof.
  intros Hm t Ht. specialize (Hm _ Ht) as [Hi Hp]. unfold on_disk, wrap_err, zoom. destruct (m (r_sw t)) as [r w'].
  cbn in Hi |- *. split; [done |]. destruct r as [a|]; [|done]. intros b ->%ok_inv. by apply Hp.
Qed.

Lemma rkeeps_disk_any {E A} (f : E -> rserr) (m : eff sw E A) : keeps O m -> rkeeps (fun _ => True) (on_disk f m).
Proof. intros Hm. by apply rkeeps_disk, keepsP_true. Qed.

Lemma rkeeps_store {E A} (f : E -> rserr) (m : eff S E A) : rkeeps (fun _ => True) (on_store f m).
Proof. intros t Ht. unfold on_store, wrap_err, zoom. by destruct (m (r_store t)). Qed.

Lemma rkeeps_cancelled : rkeeps (fun _ => True) cancelled.
Proof. intros t Ht. unfold cancelled. by destruct (r_ctx t). Qed.

Lemma rkeeps_bump f : rkeeps (fun _ => True) (bump f).
Proof. by intros t Ht. Qed.

Lemma rkeeps_lift {A} (Q : A -> Prop) r : (forall a, r = Ok a -> Q a) -> rkeeps Q (lift_result r).
Proof. destruct r as [a|]; intros Ha; [apply rkeeps_ret; by apply Ha | apply rkeeps_throw]. Qed.

Ltac rk := repeat match goal with
  | |- rkeeps _ (mbind _ _) => eapply (rkeeps_bind (fun _ => True)); [|intros ? ?]
  | |- rkeeps _ (match ?x with _ => _ end) => destruct x
  | |- rkeeps _ (mret _) => by apply rkeeps_ret
  | |- rkeeps _ (throw _) => apply rkeeps_throw
  | |- rkeeps _ (attempt _) => apply rkeeps_attempt
  | |- rkeeps _ (on_store _ _) => apply rkeeps_store
  | |- rkeeps _ cancelled => apply rkeeps_cancelled
  | |- rkeeps _ (bump _) => apply rkeeps_bump
  | |- rkeeps _ (on_disk _ _) => apply rkeeps_disk_any
  end.

Lemma rkeeps_staged dir name body : (slash ∉ name) -> (forall st, rkeeps (fun _ => True) (body st)) ->
  rkeeps (fun _ => True) (staged dir name body).
Proof.
  intros Hn Hb. unfold staged. eapply rkeeps_bind; [apply rkeeps_disk; by apply keeps_CreateStaging |]. intros st Hst.
  eapply rkeeps_bind; [apply rkeeps_attempt, Hb |]. intros r _. destruct r.
  - eapply rkeeps_bind; [apply rkeeps_disk; by apply on_stage_close_commit |]. intros [c st'] Hst'.
    rk. apply keeps_Cleanup. by rewrite Hst'.
  - rk. by apply keeps_Cleanup.
Qed.

Lemma rkeeps_seal st mode : rkeeps (fun _ => True) (seal_staging st mode).
Proof. unfold seal_staging. rk; [apply keeps_Fchmod | apply keeps_Fsync]. Qed.

Lemma rkeeps_chunk dec h st : rkeeps (fun _ => True) (restoreChunkStream dec h st).
Proof.
  unfold restoreChunkStream. rk; try apply keeps_FWrite. by apply (rkeeps_lift (fun _ => True)).
Qed.

Lemma rkeeps_chunks dec st cs : rkeeps (fun _ => True) (restore_chunks dec st cs).
Proof.
  induction cs as [|c cs IH]; cbn [restore_chunks]; [by apply rkeeps_ret |]. rk; [apply rkeeps_chunk | done].
Qed.

Lemma rkeeps_content dec room file dir name : (slash ∉ name) -> rkeeps (fun _ => True) (restore_content dec room file dir name).
Proof.
  intros Hn. unfold restore_content, restoreChunkedFile, downloadBlobToSecureDir. rk; try by apply keeps_WriteAtomic.
  - apply rkeeps_staged; [done |]. intros st. rk; [apply keeps_FWrite | apply rkeeps_seal].
  - apply rkeeps_staged; [done |]. intros st. rk; [apply rkeeps_chunks | apply rkeeps_seal].
Qed.

Lemma rkeeps_close dir owned : rkeeps (fun _ => True) (close_owned dir owned).
Proof. unfold close_owned. rk. apply keeps_PClose. Qed.

Lemma comps_normal cwd t p l : IsAbs cwd = true -> safeRestoreComponents cwd t p = Ok l -> Forall normal l.
Proof.
  intros Hc Hl. unfold safeRestoreComponents in Hl. destruct (safeRestorePath cwd t p) as [q|] eqn:E; [|done].
  destruct (safeRestoreComponents_spec cwd t p q Hc E) as (Hn & _ & Hs). unfold safeRestoreComponents in Hs. rewrite E in Hs.
  rewrite Hs in Hl. by apply ok_inv in Hl as ->.
Qed.

Lemma rkeeps_comps cwd t p : IsAbs cwd = true ->
  rkeeps (Forall normal) (lift_result (match safeRestoreComponents cwd t p with Ok l => Ok l | Err e => Err (RPath e) end)).
Proof.
  intros Hc. apply rkeeps_lift. intros l. destruct (safeRestoreComponents cwd t p) as [l'|] eqn:E; [|done].
  intros ->%ok_inv. by eapply comps_normal.
Qed.

Lemma normal_slashfree l : Forall normal l -> Forall (fun c => slash ∉ c) l.
Proof. intros H. eapply Forall_impl; [done |]. apply normal_noslash. Qed.

Lemma split_comps_spec l dirs name : split_comps l = Some (dirs, name) -> l = dirs ++ [name].
Proof.
  unfold split_comps. destruct (last l) as [x|] eqn:E; [|done]. intros [= <- <-].
  apply last_Some in E as [l' ->]. rewrite length_app. cbn [length].
  replace (length l' + 1 - 1)%nat with (length l') by lia. by rewrite take_app_length.
Qed.

Lemma rkeeps_file cwd cfg dec room root file : IsAbs cwd = true ->
  rkeeps (fun _ => True) (restore_file cwd cfg dec room root file).
Proof.
  intros Hc. unfold restore_file. eapply rkeeps_bind; [by apply rkeeps_comps |]. intros comps Hn.
  destruct (split_comps comps) as [[dirs name]|] eqn:E; [|apply rkeeps_throw].
  apply split_comps_spec in E as ->. apply Forall_app in Hn as [Hd [Hnm _]%Forall_cons].
  pose proof (normal_noslash _ Hnm) as Hs. unfold skip, write_file.
  eapply rkeeps_bind; [apply rkeeps_disk_any, keeps_openSecurePath; by apply normal_slashfree |]. intros [dir owned] _.
  rk; try (by apply rkeeps_close); try (by apply rkeeps_content); try (by apply keeps_Exists).
  apply keeps_Chtimes; [done | by destruct Hnm as (_ & _ & ? & _)].
Qed.

Lemma rkeeps_dirs cwd cfg root dirs : IsAbs cwd = true -> rkeeps (fun _ => True) (restore_dirs cwd cfg root dirs).
Proof.
  intros Hc. induction dirs as [|d dirs IH]; cbn [restore_dirs]; [by apply rkeeps_ret |]. destruct (eqs d []); [done |].
  eapply rkeeps_bind; [by apply rkeeps_comps |]. intros comps Hn.
  eapply rkeeps_bind; [apply rkeeps_disk_any, keeps_openSecurePath; by apply normal_slashfree |]. intros [dir owned] _.
  rk; [apply keeps_ret | apply rkeeps_close | done].
Qed.

Lemma rkeeps_files cwd cfg dec room root files : IsAbs cwd = true ->
  rkeeps (fun _ => True) (restore_files cwd cfg dec room root files).
Proof.
  intros Hc. induction files as [|f files IH]; cbn [restore_files]; unfold skip; rk; try done. by apply rkeeps_file.
Qed.

(** The target directory the user chose is not protected, and creating it when
    it is missing keeps the file system sealed. *)
Definition root_outside (cwd target : bytes) : Prop :=
  (forall f i, sealed O f -> walk_root f (Abs cwd target) = Ok i -> i ∉ O) /\
  (forall f f', sealed O f -> mkdir_all (Abs cwd target) f = Ok f' -> sealed O f').

Lemma keeps_OpenRoot cwd target : root_outside cwd target -> keeps O (OpenRoot (Abs cwd target)).
Proof.
  intros [Hr _]. apply keeps_scall. intros w Hw. destruct (walk_root (sw_fs w) _) as [i|] eqn:E; [|done].
  destruct (is_dir (sw_fs w) i); [|done]. apply (alloc_fd_inv O i w Hw). eapply Hr; [|done]. by apply inv_sealed.
Qed.

Lemma keeps_openSecureDir cwd target : root_outside cwd target -> keeps O (openSecureDir cwd target).
Proof.
  intros Hr. unfold openSecureDir. pose proof (keeps_OpenRoot cwd target Hr) as Ho.
  assert (Hm : keeps O (MkdirAllRoot (Abs cwd target))).
  { apply keeps_scall. intros w Hw. destruct (mkdir_all _ (sw_fs w)) as [f'|] eqn:E; [|done].
    destruct Hw as [Hs He Hf Ht]. constructor; try done. cbn. by eapply (proj2 Hr). }
  keeps.
Qed.

(** C5: restoring a snapshot never changes a protected inode, whatever the
    manifest says (its paths may be hostile), whatever the store returns,
    whatever fails, and however other processes swap directories for symlinks
    meanwhile, as long as they do not move protected inodes into the restore
    tree and the target itself is not protected. *)
Theorem restore_confined cwd cfg room m t : IsAbs cwd = true -> root_outside cwd (rc_TargetDir cfg) ->
  inv O (r_sw t) -> inv O (r_sw (restoreManifest cwd cfg room m t).2).
Proof.
  intros Hc Hr. revert t.
  assert (H : rkeeps (fun _ => True) (restoreManifest cwd cfg room m)).
  { unfold restoreManifest. rk.
    - by apply keeps_openSecureDir.
    - by apply rkeeps_dirs.
    - by apply rkeeps_files.
    - apply keeps_PClose.
    - by intros t Ht. }
  intros t Ht. apply (H t Ht).
Qed.
End Confined.

(** * What is restored *)

(** A restored file has verified content: for a whole blob the content hash
    (and, from 4 MiB on, the size) of the manifest, for a chunked file the
    concatenation of pieces that have the hashes of its chunks. *)
Definition verified `{SH : Sha256} (file : FileEntry) (p : bytes) : Prop :=
  match f_Chunks file with
  | [] => SHA256Bytes p = f_ContentHash file /\ (DefaultChunkSize <= f_Size file -> blen p = f_Size file)
  | cs => exists ps, Forall2 (fun c q => SHA256Bytes q = c_Hash c) cs ps /\ p = mjoin ps
  end.

Section Spec.
Context `{AE : AEAD, ZS : Zstd, SH : Sha256}.
Context (dec : Decryptor) (room : Z) (blob : bytes -> option bytes).

(** The content the stored blobs of a file give. *)
Definition chunk_content (h : bytes) : option bytes :=
  blob h ≫= fun c => match decryptChunk dec (Reader c false) h with Ok p => Some p | Err _ => None end.

Definition file_content (file : FileEntry) : option bytes :=
  match f_Chunks file with
  | _ :: _ => mjoin <$> mapM (fun c => chunk_content (c_Hash c)) (f_Chunks file)
  | [] =>
      blob (f_ContentHash file) ≫= fun c =>
      if DefaultChunkSize <=? f_Size file then
        match decryptStreamToFile dec (Reader c false) (VW (FileW [] room) [] 0) with
        | Ok vw => if eqs (SHA256Bytes (vw_h vw)) (f_ContentHash file) && (vw_n vw =? f_Size file)
                   then Some (fw_data (vw_w vw)) else None
        | Err _ => None
        end
      else match open_blob dec (f_ContentHash file) c with Ok p => Some p | Err _ => None end
  end.
End Spec.

Section Landing.
Context `{AE : AEAD, ZS : Zstd, SH : Sha256}.
Context {S : Type} `{B : BlobStore S, SV : StoreView S, BS : !BlobStoreSpec S} `{WK : Walk} `{U : Uuid} `{RF : Rfc3339}.

Definition set_sw (w : sw) (t : @rst S) : rst := RS (r_store t) w (r_ctx t) (r_res t).

Lemma wp_disk {E A} (f : E -> rserr) (m : eff sw E A) Q t a w' :
  m (r_sw t) = (Ok a, w') -> Q (Ok a) (set_sw w' t) -> wp (on_disk f m) Q t.
Proof. intros Hm HQ. unfold wp, on_disk, wrap_err, zoom. by rewrite Hm. Qed.

Lemma wp_onstore {E A} (f : E -> rserr) (m : eff S E A) Q (t : @rst S) :
  wp m (fun r s' => Q (match r with Ok a => Ok a | Err e => Err (f e) end) (RS s' (r_sw t) (r_ctx t) (r_res t))) (r_store t) ->
  wp (on_store f m) Q t.
Proof. intros H. unfold on_store. wp_step. wp_step. exact H. Qed.

Lemma wp_cancelled (Q : result rserr bool -> @rst S -> Prop) t :
  (forall b t1, r_store t1 = r_store t -> r_sw t1 = r_sw t -> (r_ctx t = [] -> b = false /\ r_ctx t1 = []) -> Q (Ok b) t1) ->
  wp cancelled Q t.
Proof.
  intros HQ. unfold wp, cancelled. destruct (r_ctx t) as [|b l] eqn:E; cbn; apply HQ; by rewrite ?E.
Qed.

Lemma Cleanup_ok s w : exists w', Cleanup s w = (Ok tt, w').
Proof.
  unfold Cleanup. destruct (st_done s); [by exists w |]. unfold mbind, eff_bind, StClose, attempt. destruct (st_fd s) as [n|].
  - unfold mbind, eff_bind, attempt. destruct (CloseFd n w) as [r w1]. cbn. destruct (Unlinkat _ _ w1) as [r2 w2]. by exists w2.
  - cbn. destruct (Unlinkat _ _ w) as [r2 w2]. by exists w2.
Qed.

Lemma Cleanup_done s w : st_done s = true -> Cleanup s w = (Ok tt, w).
Proof. intros H. unfold Cleanup. by rewrite H. Qed.

Section OneDir.
Context (f : SecureDir.fs) (fds : gmap nat nat) (n i p : nat) (ents : gmap bytes nat) (dir : posixDir) (name : bytes).
Hypothesis Hn : fds !! n = Some i.
Hypothesis Hi : f !! i = Some (IDir p ents).
Hypothesis Hdir : pd_fd dir = Some n.
Hypothesis Hname : normal name.
Hypothesis Huuid : forall m, slash ∉ uuid_string m.
Hypothesis Hdst : forall j, ents !! name = Some j -> exists x, f !! j = Some x /\ is_dir f j = false.
Abbreviation fds' := (<[fresh (dom fds) := fresh (dom f)]> fds).
Abbreviation landed x w := (at_stage f fds i p ents name x w).
Abbreviation staging u := (name ++ s_dot ++ uuid_string u ++ go ".tmp").

(** The disk before a file is written. *)
Record ready (t : @rst S) : Prop := Ready {
  rd_env : sw_env (r_sw t) = [];
  rd_fs : sw_fs (r_sw t) = f;
  rd_fds : sw_fds (r_sw t) = fds;
  rd_free : ents !! staging (sw_draws (r_sw t)) = None
}.

Definition stage_of (t : @rst S) : posixStaging := PS (Some (fresh (dom fds))) dir (staging (sw_draws (r_sw t))) false.
Abbreviation in_stage t x w := (at_stage f fds' i p ents (staging (sw_draws (r_sw t))) x w).

Lemma quiet_CreateStaging t : ready t -> exists w', CreateStaging dir name (r_sw t) = (Ok (stage_of t), w') /\
  in_stage t (IFile [] 384 0) w'.
Proof.
  intros [He Hf Hfd Hfree]. destruct (staging_normal name _ Hname (Huuid (sw_draws (r_sw t)))) as [Hsn _].
  unfold CreateStaging, stage_of, mbind, eff_bind, wrap_err. rewrite Hdir.
  revert Hfree Hsn. generalize (staging (sw_draws (r_sw t))) as sn. intros sn Hfree Hsn. set (w0 := SW _ _ _ _ _).
  destruct (quiet_excl f fds n i p ents Hn Hi w0 sn He Hf Hfd Hsn Hfree) as (w1 & -> & H1). by exists w1.
Qed.

Lemma quiet_close_commit t w d m : ready t -> in_stage t (IFile d m 0) w ->
  exists s' w', close_commit (stage_of t) name w = (Ok (Ok tt, s'), w') /\ st_done s' = true /\ landed (IFile d m 0) w'.
Proof.
  intros [_ _ _ Hfree] H1. destruct (staging_normal name _ Hname (Huuid (sw_draws (r_sw t)))) as [Hsn Hne].
  unfold close_commit, StClose, Commit, stage_of, mbind, eff_bind, attempt. cbn [st_fd st_dir st_name st_done].
  revert Hfree Hsn Hne H1. generalize (staging (sw_draws (r_sw t))) as sn. intros sn Hfree Hsn Hne H1.
  destruct (quiet_close f fds i p ents w sn _ H1) as (w4 & -> & H4). cbn [mret eff_ret st_fd st_dir st_name st_done].
  rewrite ?Hdir. destruct (quiet_rename f fds n i p ents Hn Hi w4 sn name _ _ _ H4 Hsn Hname Hne Hfree Hdst) as (w5 & -> & H5).
  rewrite (quiet_sync f i p ents w5 _ n i _ _ H5) by done. by eexists _, w5.
Qed.

Lemma wp_staged body Q t : ready t ->
  (forall w, in_stage t (IFile [] 384 0) w ->
     wp (body (stage_of t)) (fun r t' =>
       match r with
       | Err e => forall w', Q (Err e) (set_sw w' t')
       | Ok _ => exists d m, in_stage t (IFile d m 0) (r_sw t') /\
                   (forall w', landed (IFile d m 0) w' -> Q (Ok tt) (set_sw w' t'))
       end) (set_sw w t)) ->
  wp (staged dir name body) Q t.
Proof.
  intros Hr Hb. unfold staged. destruct (quiet_CreateStaging t Hr) as (w1 & E1 & H1).
  wp_step. eapply wp_disk; [done |]. cbn beta iota. do 2 wp_step. eapply wp_mono; [by apply Hb |]. intros [[]|e] t1.
  - intros (d & m & Hst & HQ). destruct (quiet_close_commit t (r_sw t1) d m Hr Hst) as (s' & w2 & E2 & Hd & Hl).
    cbn beta iota. wp_step. eapply wp_disk; [done |]. cbn beta iota. wp_step. eapply wp_disk; [by apply Cleanup_done |]. cbn beta iota. wp_step. by apply HQ.
  - intros HQ. cbn beta iota. wp_step. destruct (Cleanup_ok (stage_of t) (r_sw t1)) as [w2 E2]. eapply wp_disk; [done |]. cbn beta iota. wp_step. apply HQ.
Qed.

Lemma wp_seal st t d m mode (Q : result rserr unit -> @rst S -> Prop) sn : st_fd st = Some (fresh (dom fds)) ->
  at_stage f fds' i p ents sn (IFile d m 0) (r_sw t) ->
  (forall w', at_stage f fds' i p ents sn (IFile d mode 0) w' -> Q (Ok tt) (set_sw w' t)) -> wp (seal_staging st mode) Q t.
Proof.
  intros Hst H1 HQ. destruct (quiet_chmod f fds i p ents Hi (r_sw t) sn d m mode 0 H1) as (w2 & E2 & H2).
  unfold seal_staging, StChmod, StSync. rewrite Hst. do 2 wp_step. eapply wp_disk; [done |]. cbn beta iota.
  eapply wp_disk; [eapply quiet_sync; [done | apply lookup_insert_eq] |]. by apply HQ.
Qed.

Lemma wp_stwrite st t d0 m d (Q : result rserr unit -> @rst S -> Prop) sn : st_fd st = Some (fresh (dom fds)) ->
  at_stage f fds' i p ents sn (IFile d0 m 0) (r_sw t) ->
  (forall w', at_stage f fds' i p ents sn (IFile (d0 ++ d) m 0) w' -> Q (Ok tt) (set_sw w' t)) ->
  wp (on_disk RStage (StWrite st d)) Q t.
Proof.
  intros Hst H1 HQ. destruct (quiet_write f fds i p ents Hi (r_sw t) sn d0 d m 0 H1) as (w2 & E2 & H2).
  unfold StWrite. rewrite Hst. eapply wp_disk; [done |]. by apply HQ.
Qed.

Context `{SHS : !Sha256Spec SH}.

Lemma decryptChunk_hash dec src h q : decryptChunk dec src h = Ok q -> SHA256Bytes q = h.
Proof.
  unfold decryptChunk. intros (d & _ & Hd)%bind_ok_inv. apply bind_ok_inv in Hd as (pt & _ & Hd).
  apply bind_ok_inv in Hd as (q' & _ & Hd). destruct (eqs (SHA256Bytes q') h) eqn:E; [|done].
  apply ok_inv in Hd as ->. by apply eqs_true.
Qed.

Lemma chunk_content_hash dec blob h q : chunk_content dec blob h = Some q -> SHA256Bytes q = h.
Proof.
  unfold chunk_content. destruct (blob h); [|done]. cbn. destruct (decryptChunk _ _ _) eqn:E; [|done].
  intros [= <-]. by eapply decryptChunk_hash.
Qed.

Lemma chunk_content_stable dec s s' h q : unchanged bs_blob s s' ->
  chunk_content dec (bs_blob s) h = Some q -> chunk_content dec (bs_blob s') h = Some q.
Proof.
  intros Hu Hc. pose proof (chunk_content_hash _ _ _ _ Hc) as <-. unfold chunk_content in *.
  by rewrite (Hu _ (SHA256Bytes_valid q)).
Qed.

(** What every step that reads the store guarantees of it. *)
Definition store_ok (t t' : @rst S) : Prop :=
  bs_inv (r_store t') /\ unchanged bs_blob (r_store t) (r_store t') /\ r_ctx t' = r_ctx t.

Lemma wp_chunk dec h st sn d0 m t : st_fd st = Some (fresh (dom fds)) -> bs_inv (r_store t) ->
  at_stage f fds' i p ents sn (IFile d0 m 0) (r_sw t) ->
  wp (restoreChunkStream dec h st) (fun r t' => store_ok t t' /\
    (r = Ok tt -> exists q, SHA256Bytes q = h /\ at_stage f fds' i p ents sn (IFile (d0 ++ q) m 0) (r_sw t')) /\
    (bs_calm (r_store t) -> forall q, chunk_content dec (bs_blob (r_store t)) h = Some q ->
       r = Ok tt /\ bs_calm (r_store t') /\ at_stage f fds' i p ents sn (IFile (d0 ++ q) m 0) (r_sw t'))) t.
Proof.
  intros Hst Hinv H1. unfold restoreChunkStream. do 2 wp_step. apply wp_onstore. eapply wp_mono; [by apply bs_GetStream_ok |].
  intros r s1 (Hi1 & Hu1 & _ & Hc1). destruct r as [src|e]; cbn beta iota.
  - destruct (decryptChunk dec src h) as [q|e] eqn:Ed; cbn [lift_result]; wp_steps.
    + eapply wp_stwrite; [done | done |]. intros w' Hw'. split; [done |]. split; [intros _; exists q; split; [by eapply decryptChunk_hash | done] |].
      intros Hcalm q' Hq'. destruct (Hc1 Hcalm) as [Hcs1 Hget]. unfold chunk_content in Hq'.
      destruct (bs_blob (r_store t) h) as [c|]; [|done]. cbn in Hq'. specialize (Hget c eq_refl). injection Hget as ->.
      rewrite Ed in Hq'. injection Hq' as <-. done.
    + split; [done |]. split; [done |]. intros Hcalm q' Hq'. destruct (Hc1 Hcalm) as [_ Hget]. unfold chunk_content in Hq'.
      destruct (bs_blob (r_store t) h) as [c|]; [|done]. cbn in Hq'. specialize (Hget c eq_refl). injection Hget as ->.
      by rewrite Ed in Hq'.
  - wp_step. apply wp_onstore. cbn [r_store]. eapply wp_mono; [by apply (wp_DownloadBlob dec h s1) |].
    intros r s2 (Hi2 & Hu2 & Hp2 & _). assert (U2 : unchanged bs_blob (r_store t) s2) by (intros k Hk; by rewrite Hu2, Hu1).
    assert (Hno : bs_calm (r_store t) -> forall q, chunk_content dec (bs_blob (r_store t)) h = Some q -> False).
    { intros Hcalm q Hq. destruct (Hc1 Hcalm) as [_ Hget]. unfold chunk_content in Hq.
      destruct (bs_blob (r_store t) h) as [c|]; [|done]. by specialize (Hget c eq_refl). }
    destruct r as [q|e']; cbn beta iota.
    + destruct (Hp2 q eq_refl) as (c & _ & Ho). apply open_blob_hash in Ho.
      eapply wp_stwrite; [done | done |]. intros w' Hw'. split; [done |]. split; [by eauto |]. intros Hcalm q' Hq'. by destruct (Hno Hcalm q').
    + split; [done |]. split; [done |]. intros Hcalm q' Hq'. by destruct (Hno Hcalm q').
Qed.

Lemma wp_chunks dec st sn m cs : forall d0 t, st_fd st = Some (fresh (dom fds)) -> bs_inv (r_store t) ->
  at_stage f fds' i p ents sn (IFile d0 m 0) (r_sw t) ->
  wp (restore_chunks dec st cs) (fun r t' => bs_inv (r_store t') /\ unchanged bs_blob (r_store t) (r_store t') /\
    (r = Ok tt -> exists ps, Forall2 (fun c q => SHA256Bytes q = c_Hash c) cs ps /\
       at_stage f fds' i p ents sn (IFile (d0 ++ mjoin ps) m 0) (r_sw t')) /\
    (bs_calm (r_store t) -> r_ctx t = [] -> forall ps, Forall2 (fun c q => chunk_content dec (bs_blob (r_store t)) (c_Hash c) = Some q) cs ps ->
       r = Ok tt /\ at_stage f fds' i p ents sn (IFile (d0 ++ mjoin ps) m 0) (r_sw t'))) t.
Proof.
  induction cs as [|c cs IH]; intros d0 t Hst Hinv H1; cbn [restore_chunks].
  - wp_steps. split; [done |]. split; [done |]. split; [intros _; exists []; cbn; by rewrite app_nil_r |].
    intros _ _ ps Hps. inversion Hps; subst. cbn. by rewrite app_nil_r.
  - wp_step. apply wp_cancelled. intros b t1 Hs1 Hw1 Hb1. destruct b.
    { wp_steps. split; [by rewrite Hs1 |]. split; [by rewrite Hs1 |]. split; [done |]. intros _ Hctx. by destruct (Hb1 Hctx). }
    wp_step. eapply wp_mono; [apply (wp_chunk dec (c_Hash c) st sn d0 m t1); [done | by rewrite Hs1 | by rewrite Hw1] |].
    rewrite Hs1. intros r t2 ((Hi2 & Hu2 & Hc2) & Hok2 & Hcalm2). rewrite Hs1 in Hu2. destruct r as [[]|e]; cbn beta iota.
    + destruct (Hok2 eq_refl) as (q & Hq & Hst2). eapply wp_mono; [by apply (IH (d0 ++ q) t2) |].
      intros r t3 (Hi3 & Hu3 & Hok3 & Hcalm3). split; [done |]. split; [intros k Hk; by rewrite Hu3, Hu2 |]. split.
      * intros Hr. destruct (Hok3 Hr) as (ps & Hf & Hst3). exists (q :: ps). split; [by constructor |]. cbn. by rewrite app_assoc.
      * intros Hcalm Hctx ps Hm. inversion Hm as [|? q' ? ps' Eq Em]; subst.
        destruct (Hcalm2 Hcalm q' Eq) as (_ & Hcs2 & Hst2').
        assert (q' = q) as ->.
        { pose proof (at_stage_inj _ _ _ _ _ _ _ _ _ _ Hi Hst2 Hst2') as E. injection E as E. by apply app_inv_head in E. }
        destruct (Hb1 Hctx) as [_ Hctx1]. rewrite <- Hc2 in Hctx1.
        destruct (Hcalm3 Hcs2 Hctx1 ps') as [Hr Hst3].
        { eapply Forall2_impl; [exact Em |]. intros c' x Hx. by eapply chunk_content_stable. }
        split; [done |]. cbn. by rewrite app_assoc.
    + split; [done |]. split; [done |]. split; [done |]. intros Hcalm Hctx ps Hm.
      inversion Hm as [|? q' ? ps' Eq Em]; subst. by destruct (Hcalm2 Hcalm q' Eq).
Qed.

(** What [restore_content] does at a directory handle when the disk is quiet:
    success leaves a verified file under the name, and with a store in order
    that holds the blobs it does succeed, with their content. *)
Definition content_post (dec : Decryptor) (room : Z) (file : FileEntry) (t : @rst S) (r : result rserr unit) (t' : @rst S) : Prop :=
  bs_inv (r_store t') /\ unchanged bs_blob (r_store t) (r_store t') /\
  (r = Ok tt -> exists q, verified file q /\ landed (IFile q (f_Mode file) 0) (r_sw t')) /\
  (bs_calm (r_store t) -> r_ctx t = [] -> forall q, file_content dec room (bs_blob (r_store t)) file = Some q ->
     r = Ok tt /\ landed (IFile q (f_Mode file) 0) (r_sw t')).

Lemma wp_WriteAtomic (Q : result rserr unit -> @rst S -> Prop) t data mode : ready t ->
  (forall w', landed (IFile data mode 0) w' -> Q (Ok tt) (set_sw w' t)) ->
  wp (on_disk RDir (WriteAtomic dir name data mode)) Q t.
Proof.
  intros [He Hf Hfd Hfree] HQ.
  destruct (WriteAtomic_quiet f fds n i p ents Hn Hi dir name data mode (r_sw t) He Hf Hfd Hdir Hname (Huuid _) Hfree Hdst)
    as (w' & E & Hl). eapply wp_disk; [done |]. by apply HQ.
Qed.

Lemma wp_chunked dec room file c cs t : f_Chunks file = c :: cs -> ready t -> bs_inv (r_store t) ->
  wp (restoreChunkedFile dec file dir name) (content_post dec room file t) t.
Proof.
  intros Hcs Hr Hinv. unfold restoreChunkedFile. apply wp_staged; [done |]. intros w Hw. wp_step.
  eapply wp_mono; [apply (wp_chunks dec (stage_of t) (staging (sw_draws (r_sw t))) 384 (f_Chunks file) [] (set_sw w t)); done |].
  intros r t1 (Hi1 & Hu1 & Hok1 & Hc1). cbn [set_sw r_store r_ctx app] in *.
  destruct r as [[]|e]; cbn beta iota.
  - destruct (Hok1 eq_refl) as (ps & Hps & Hst). eapply wp_seal; [done | done |]. intros w2 Hw2.
    exists (mjoin ps), (f_Mode file). split; [done |]. intros w3 Hw3. split; [done |]. split; [done |]. split.
    + intros _. exists (mjoin ps). split; [|done]. unfold verified. rewrite Hcs in Hps |- *. by exists ps.
    + intros Hcalm Hctx q Hq. split; [done |]. unfold file_content in Hq. rewrite Hcs in Hq. rewrite <- Hcs in Hq.
      apply fmap_Some in Hq as (ps' & Hm & ->). apply mapM_Some in Hm. destruct (Hc1 Hcalm Hctx ps' Hm) as [_ Hst'].
      pose proof (at_stage_inj _ _ _ _ _ _ _ _ _ _ Hi Hst Hst') as E. injection E as <-. done.
  - intros w'. split; [done |]. split; [done |]. split; [done |]. intros Hcalm Hctx q Hq.
    unfold file_content in Hq. rewrite Hcs in Hq. rewrite <- Hcs in Hq.
    apply fmap_Some in Hq as (ps' & Hm & ->). apply mapM_Some in Hm. by destruct (Hc1 Hcalm Hctx ps' Hm).
Qed.

Lemma wp_large dec room file t : f_Chunks file = [] -> DefaultChunkSize <= f_Size file -> ready t -> bs_inv (r_store t) ->
  wp (downloadBlobToSecureDir dec room (f_ContentHash file) dir name (f_Mode file) (f_Size file)) (content_post dec room file t) t.
Proof.
  intros Ecs Hbig Hr Hinv. unfold downloadBlobToSecureDir. do 2 wp_step. apply wp_onstore. eapply wp_mono; [by apply bs_GetStream_ok |].
  intros r s1 (Hi1 & Hu1 & _ & Hc1).
  assert (Hcont : bs_calm (r_store t) -> forall q, file_content dec room (bs_blob (r_store t)) file = Some q ->
    exists c vw, r = Ok (Reader c false) /\ decryptStreamToFile dec (Reader c false) (VW (FileW [] room) [] 0) = Ok vw /\
      eqs (SHA256Bytes (vw_h vw)) (f_ContentHash file) = true /\ vw_n vw = f_Size file /\ q = fw_data (vw_w vw)).
  { intros Hcalm q. unfold file_content. rewrite Ecs. destruct (bs_blob _ _) as [c|] eqn:Eb; [|done]. cbn.
    destruct (Z.leb_spec DefaultChunkSize (f_Size file)); [|lia]. destruct (decryptStreamToFile _ _ _) as [vw|] eqn:Ed; [|done].
    destruct (eqs _ _) eqn:E1; [|done]. destruct (Z.eqb_spec (vw_n vw) (f_Size file)); [|done]. intros [= <-].
    exists c, vw. split_and!; try done. by apply (proj2 (Hc1 Hcalm)). }
  destruct r as [src|e]; cbn beta iota.
  - apply wp_staged; [by destruct Hr |]. intros w Hw. destruct (decryptStreamToFile dec src _) as [vw|e] eqn:Ed; wp_steps.
    2: { intros w'. split; [done |]. split; [done |]. split; [done |]. intros Hcalm _ q Hq.
         destruct (Hcont Hcalm q Hq) as (c & vw & [= ->] & Hd & _). congruence. }
    apply decryptStreamToFile_good in Ed as Hg; [|done]. destruct Hg as [Hgh Hgn].
    eapply wp_stwrite; [done | done |]. intros w2 Hw2. cbn beta iota zeta.
    destruct (eqs (SHA256Bytes (vw_h vw)) (f_ContentHash file)) eqn:E1; cbn [negb]; wp_steps.
    2: { intros w'. split; [done |]. split; [done |]. split; [done |]. intros Hcalm _ q Hq.
         destruct (Hcont Hcalm q Hq) as (c & vw' & [= ->] & Hd & He & _). rewrite Ed in Hd. apply ok_inv in Hd as ->. congruence. }
    destruct (Z.eqb_spec (vw_n vw) (f_Size file)) as [E2|E2]; cbn [negb]; wp_steps.
    2: { intros w'. split; [done |]. split; [done |]. split; [done |]. intros Hcalm _ q Hq.
         destruct (Hcont Hcalm q Hq) as (c & vw' & [= ->] & Hd & _ & He & _). rewrite Ed in Hd. apply ok_inv in Hd as ->. congruence. }
    eapply wp_seal; [done | exact Hw2 |]. intros w3 Hw3. eexists _, _. split; [done |]. intros w4 Hw4.
    split; [done |]. split; [done |]. cbn [app] in Hw4. split.
    + intros _. eexists. split; [|done]. unfold verified. rewrite Ecs. apply eqs_true in E1. split; [by rewrite <- Hgh | by intros _; rewrite <- Hgn].
    + intros Hcalm _ q Hq. split; [done |]. destruct (Hcont Hcalm q Hq) as (c & vw' & [= ->] & Hd & _ & _ & ->).
      rewrite Ed in Hd. apply ok_inv in Hd as ->. done.
  - wp_step. apply wp_onstore. cbn [r_store]. eapply wp_mono; [by apply (wp_DownloadBlob dec _ s1) |].
    intros r s2 (Hi2 & Hu2 & Hp2 & _). assert (U2 : unchanged bs_blob (r_store t) s2) by (intros k Hk; by rewrite Hu2, Hu1).
    assert (Hno : bs_calm (r_store t) -> forall q, file_content dec room (bs_blob (r_store t)) file = Some q -> False).
    { intros Hcalm q Hq. by destruct (Hcont Hcalm q Hq) as (? & ? & ? & _). }
    destruct r as [q|e']; cbn beta iota.
    2: { split; [done |]. split; [done |]. split; [done |]. intros Hcalm _ q' Hq'. by destruct (Hno Hcalm q'). }
    destruct (Hp2 q eq_refl) as (c & _ & Ho). apply open_blob_hash in Ho.
    destruct (Z.eqb_spec (blen q) (f_Size file)) as [E2|E2]; cbn [negb]; wp_steps.
    2: { split; [done |]. split; [done |]. split; [done |]. intros Hcalm _ q' Hq'. by destruct (Hno Hcalm q'). }
    eapply wp_WriteAtomic; [by destruct Hr |]. intros w' Hw'. split; [done |]. split; [done |]. split.
    + intros _. exists q. split; [|done]. unfold verified. by rewrite Ecs.
    + intros Hcalm _ q' Hq'. by destruct (Hno Hcalm q').
Qed.

Lemma wp_content dec room file t : ready t -> bs_inv (r_store t) ->
  wp (restore_content dec room file dir name) (content_post dec room file t) t.
Proof.
  intros Hr Hinv. unfold restore_content. destruct (f_Chunks file) as [|c cs] eqn:Ecs; [|by eapply wp_chunked].
  destruct (Z.leb_spec DefaultChunkSize (f_Size file)) as [Hbig | Hsmall]; [by apply wp_large |].
  wp_step. apply wp_onstore. eapply wp_mono; [by apply (wp_DownloadBlob dec _ (r_store t)) |].
  intros r s1 (Hi1 & Hu1 & Hp1 & Hc1).
  assert (Hcont : bs_calm (r_store t) -> forall q, file_content dec room (bs_blob (r_store t)) file = Some q -> r = Ok q).
  { intros Hcalm q. unfold file_content. rewrite Ecs. destruct (bs_blob _ _) as [c|] eqn:Eb; [|done]. cbn.
    destruct (Z.leb_spec DefaultChunkSize (f_Size file)); [lia |]. rewrite <- (Hc1 Hcalm c eq_refl). by destruct r; intros [= <-]. }
  destruct r as [q|e]; cbn beta iota.
  - destruct (Hp1 q eq_refl) as (c & _ & Ho). apply open_blob_hash in Ho. eapply wp_WriteAtomic; [by destruct Hr |].
    intros w' Hw'. split; [done |]. split; [done |]. split.
    + intros _. exists q. split; [|done]. unfold verified. rewrite Ecs. split; [done | lia].
    + intros Hcalm _ q' Hq'. specialize (Hcont Hcalm q' Hq'). apply ok_inv in Hcont as ->. done.
  - split; [done |]. split; [done |]. split; [done |]. intros Hcalm _ q' Hq'. by discriminate (Hcont Hcalm q' Hq').
Qed.
End OneDir.

Context `{SHS : !Sha256Spec SH}.

Lemma split_comps_app dirs name : split_comps (dirs ++ [name]) = Some (dirs, name).
Proof.
  unfold split_comps. rewrite last_snoc, length_app. cbn [length].
  replace (length dirs + 1 - 1)%nat with (length dirs) by lia. by rewrite take_app_length.
Qed.

(** The descriptors after a handle that is owned was closed. *)
Definition closed (owned : bool) (n : nat) (fds : gmap nat nat) : gmap nat nat := if owned then delete n fds else fds.

Lemma wp_close_owned dir owned n (Q : result rserr unit -> @rst S -> Prop) t : pd_fd dir = Some n -> sw_env (r_sw t) = [] ->
  (forall w', sw_fs w' = sw_fs (r_sw t) -> sw_env w' = [] -> sw_fds w' = closed owned n (sw_fds (r_sw t)) -> sw_draws w' = sw_draws (r_sw t) ->
     Q (Ok tt) (set_sw w' t)) ->
  wp (close_owned dir owned) Q t.
Proof.
  intros Hd He HQ. destruct owned; cbn [close_owned].
  - wp_step. eapply wp_disk; [unfold PClose, mbind, eff_bind, attempt, CloseFd, take_env; by rewrite Hd, He |].
    cbn beta iota. wp_step. by apply HQ.
  - wp_step. replace t with (set_sw (r_sw t) t) by (by destruct t). by apply HQ.
Qed.

Lemma wp_close_any dir owned (Q : result rserr unit -> @rst S -> Prop) t :
  (forall w', Q (Ok tt) (set_sw w' t)) -> wp (close_owned dir owned) Q t.
Proof.
  intros HQ. destruct owned; cbn [close_owned].
  - wp_step. unfold PClose. destruct (pd_fd dir) as [n|].
    + destruct (CloseFd n (r_sw t)) as [r w'] eqn:E. eapply wp_disk; [unfold mbind, eff_bind, attempt; by rewrite E |].
      cbn beta iota. wp_step. apply HQ.
    + eapply wp_disk; [done |]. cbn beta iota. wp_step. apply HQ.
  - wp_step. replace t with (set_sw (r_sw t) t) by (by destruct t). by apply HQ.
Qed.

(** The time the restored file ends up with; 0 stands for the time of the
    write. *)
Definition final_time (file : FileEntry) : Z := if MtimeTime file =? zero_time then 0 else MtimeTime file.

(** [file] was restored with content [q] under [comps] below inode [r]. *)
Definition restored (r : nat) (comps : list bytes) (file : FileEntry) (q : bytes) (t t' : @rst S) : Prop :=
  (exists j, nofollow (sw_fs (r_sw t')) r comps = Some j /\
     sw_fs (r_sw t') !! j = Some (IFile q (f_Mode file) (final_time file))) /\
  leaves_kept (sw_fs (r_sw t)) (sw_fs (r_sw t')) /\
  r_res t' = MkRestoreResult (rr_RestoredFiles (r_res t) + 1) (int64 (rr_RestoredBytes (r_res t) + f_Size file)) (rr_SkippedFiles (r_res t)).

Lemma quiet_Exists w dir name n i p ents : sw_env w = [] -> normal name -> pd_fd dir = Some n -> sw_fds w !! n = Some i ->
  sw_fs w !! i = Some (IDir p ents) -> SecureDir.Exists dir name w = (Ok (match ents !! name with Some _ => true | None => false end), w).
Proof.
  intros He Hnm Hd Hn Hi. unfold SecureDir.Exists, mbind, eff_bind, attempt, Fstatat. rewrite scall_quiet by done.
  rewrite (lookup_at_ok _ _ w n i p ents) by done. by destruct (ents !! name).
Qed.

(** The disk after a file was written at a directory handle: the time is set,
    the handle closed and the counters advanced. *)
Lemma wp_finish f fds n i p ents dir owned name file q mode g (Q : result rserr unit -> @rst S -> Prop) t :
  fds !! n = Some i -> f !! i = Some (IDir p ents) -> pd_fd dir = Some n -> normal name ->
  at_stage f fds i p ents name (IFile q mode 0) (r_sw t) ->
  (forall w', at_stage f (closed owned n fds) i p ents name (IFile q mode (final_time file)) w' ->
     Q (Ok tt) (RS (r_store t) w' (r_ctx t) (g (r_res t)))) ->
  wp (_ ← (if MtimeTime file =? zero_time then mret tt
           else _ ← attempt (E := rserr) (on_disk RStage (Chtimes dir name (MtimeTime file))); mret tt);
      _ ← close_owned dir owned; bump g) Q t.
Proof.
  intros Hn Hi Hd Hnm Hst HQ. unfold final_time in HQ.
  assert (Hclose : forall x w, at_stage f fds i p ents name x w -> (forall w', at_stage f (closed owned n fds) i p ents name x w' ->
      Q (Ok tt) (RS (r_store t) w' (r_ctx t) (g (r_res t)))) -> wp (_ ← close_owned dir owned; bump g) Q (set_sw w t)).
  { intros x w [He Hf Hfd] Hx. wp_step. eapply wp_close_owned; [done | done |]. cbn [set_sw r_sw]. intros w' H1 H2 H3 _. unfold bump. wp_step.
    apply (Hx w'). by constructor; [| rewrite H1 | rewrite H3, Hfd]. }
  wp_step. destruct (MtimeTime file =? zero_time).
  - wp_step. replace t with (set_sw (r_sw t) t) by (by destruct t). by eapply Hclose.
  - destruct (quiet_utimes f fds n i p ents Hn Hi (r_sw t) name _ _ _ (MtimeTime file) Hst Hnm) as (w2 & E2 & H2).
    do 2 wp_step. unfold Chtimes. rewrite Hd. eapply wp_disk; [done |]. cbn beta iota. wp_step. by eapply Hclose.
Qed.

(** Fetching and writing a file leaves the counters alone. *)
Definition nores {A} (m : eff (@rst S) rserr A) : Prop := forall t, r_res (m t).2 = r_res t.

Lemma nores_bind {A C} (m : eff (@rst S) rserr A) (f : A -> eff rst rserr C) : nores m -> (forall a, nores (f a)) -> nores (m ≫= f).
Proof. intros Hm Hf t. unfold mbind, eff_bind. specialize (Hm t). destruct (m t) as [[a|e] t']; [|done]. by rewrite Hf. Qed.

Lemma nores_attempt {A} (m : eff (@rst S) rserr A) : nores m -> nores (attempt m : eff rst rserr (result rserr A)).
Proof. intros Hm t. unfold attempt. specialize (Hm t). by destruct (m t). Qed.

Lemma nores_disk {E A} (f : E -> rserr) (m : eff sw E A) : nores (on_disk f m).
Proof. intros t. unfold on_disk, wrap_err, zoom. by destruct (m (r_sw t)). Qed.

Lemma nores_store {E A} (f : E -> rserr) (m : eff S E A) : nores (on_store f m).
Proof. intros t. unfold on_store, wrap_err, zoom. by destruct (m (r_store t)). Qed.

Lemma nores_lift {A} (r : result rserr A) : nores (lift_result r).
Proof. by destruct r. Qed.

Lemma nores_cancelled : nores cancelled.
Proof. intros t. unfold cancelled. by destruct (r_ctx t). Qed.

Ltac nr := repeat match goal with
  | |- nores (mbind _ _) => apply nores_bind; [|intros ?]
  | |- nores (match ?x with _ => _ end) => destruct x
  | |- nores (attempt _) => apply nores_attempt
  | |- nores (on_disk _ _) => apply nores_disk
  | |- nores (on_store _ _) => apply nores_store
  | |- nores (lift_result _) => apply nores_lift
  | |- nores cancelled => apply nores_cancelled
  | |- nores _ => done
  end.

Lemma nores_chunks dec st cs : nores (restore_chunks dec st cs).
Proof. induction cs as [|c cs IH]; cbn [restore_chunks]; unfold restoreChunkStream; nr. Qed.

Lemma nores_content dec room file dir name : nores (restore_content dec room file dir name).
Proof.
  unfold restore_content, restoreChunkedFile, downloadBlobToSecureDir, staged, seal_staging. nr. apply nores_chunks.
Qed.

(** What restoring one file guarantees. *)
Definition file_post (dec : Decryptor) (room : Z) (r : nat) (comps : list bytes) (file : FileEntry) (t : @rst S)
    (res : result rserr unit) (t' : @rst S) : Prop :=
  bs_inv (r_store t') /\ unchanged bs_blob (r_store t) (r_store t') /\
  (res = Ok tt -> exists q, verified file q /\ restored r comps file q t t') /\
  (bs_calm (r_store t) -> r_ctx t = [] -> forall q, file_content dec room (bs_blob (r_store t)) file = Some q ->
     res = Ok tt /\ restored r comps file q t t').

(** What writing a file through the handle [n] of its directory [i] guarantees,
    in terms of the disk [w1] before. *)
Definition write_post (w1 : sw) (n i p : nat) (ents : gmap bytes nat) (owned : bool) (name : bytes) (dec : Decryptor) (room : Z)
    (file : FileEntry) (t : @rst S) (res : result rserr unit) (t' : @rst S) : Prop :=
  let wrote q := at_stage (sw_fs w1) (closed owned n (sw_fds w1)) i p ents name (IFile q (f_Mode file) (final_time file)) (r_sw t') /\
                 r_res t' = counted file (r_res t) in
  bs_inv (r_store t') /\ unchanged bs_blob (r_store t) (r_store t') /\
  (res = Ok tt -> exists q, verified file q /\ wrote q) /\
  (bs_calm (r_store t) -> r_ctx t = [] -> forall q, file_content dec room (bs_blob (r_store t)) file = Some q -> res = Ok tt /\ wrote q).

(** Writing a file through the handle of its directory. *)
Lemma wp_write_file w1 n i p ents dir owned name dec room file t :
  (forall m, slash ∉ uuid_string m) -> sw_env w1 = [] -> pd_fd dir = Some n -> sw_fds w1 !! n = Some i ->
  sw_fs w1 !! i = Some (IDir p ents) -> normal name ->
  ents !! (name ++ s_dot ++ uuid_string (sw_draws w1) ++ go ".tmp") = None ->
  (forall j, ents !! name = Some j -> exists x, sw_fs w1 !! j = Some x /\ is_dir (sw_fs w1) j = false) -> bs_inv (r_store t) ->
  wp (write_file dec room file dir owned name) (write_post w1 n i p ents owned name dec room file t) (set_sw w1 t).
Proof.
  intros Hu He Hd Hn Hi Hnm Hfree Hdst Hinv.
  assert (Hready : ready (sw_fs w1) (sw_fds w1) ents name (set_sw w1 t)) by by constructor.
  unfold write_file. do 2 wp_step. pose proof (nores_content dec room file dir name (set_sw w1 t)) as Hres.
  pose proof (wp_content (sw_fs w1) (sw_fds w1) n i p ents dir name Hn Hi Hd Hnm Hu Hdst dec room file (set_sw w1 t) Hready Hinv) as Hcont.
  eapply (wp_mono _ (fun res t1 => content_post _ _ _ _ _ _ dec room file (set_sw w1 t) res t1 /\ r_res t1 = r_res t));
    [exact (conj Hcont Hres) |].
  intros res t1 [(Hi1 & Hu1 & Hok & Hcalm) Hr1]. cbn [set_sw r_store r_ctx r_res] in *. destruct res as [[]|e]; cbn beta iota.
  - destruct (Hok eq_refl) as (q & Hv & Hst). eapply wp_finish; [exact Hn | exact Hi | done | done | exact Hst |].
    intros w' Hw'. rewrite Hr1. split; [done |]. split; [done |]. split; [by eauto |].
    intros Hca Hctx q' Hq'. split; [done |]. destruct (Hcalm Hca Hctx q' Hq') as [_ Hst'].
    pose proof (at_stage_inj _ _ _ _ _ _ _ _ _ _ Hi Hst Hst') as E. injection E as <-. done.
  - wp_step. apply wp_close_any. intros w'. wp_step. split; [done |]. split; [done |]. split; [done |].
    intros Hca Hctx q' Hq'. by destruct (Hcalm Hca Hctx q' Hq').
Qed.

Lemma write_lands w1 n i p ents owned name dec room file r dirs t res t' :
  nofollow (sw_fs w1) r dirs = Some i -> sw_fs w1 !! i = Some (IDir p ents) ->
  (forall j, ents !! name = Some j -> exists x, sw_fs w1 !! j = Some x /\ is_dir (sw_fs w1) j = false) ->
  leaves_kept (sw_fs (r_sw t)) (sw_fs w1) ->
  write_post w1 n i p ents owned name dec room file t res t' -> file_post dec room r (dirs ++ [name]) file t res t'.
Proof.
  intros Hwalk Hi Hdst Hl (Hinv & Hu & Hok & Hcalm).
  assert (Hland : forall q, at_stage (sw_fs w1) (closed owned n (sw_fds w1)) i p ents name (IFile q (f_Mode file) (final_time file)) (r_sw t') /\
      r_res t' = counted file (r_res t) -> restored r (dirs ++ [name]) file q t t').
  { intros q [[_ Hw' _] Hr]. destruct (landed_path (sw_fs w1) r i p dirs ents Hwalk Hi name (IFile q (f_Mode file) (final_time file)) Hdst) as [Hp Hlv].
    split; [|split; [rewrite Hw'; by eapply leaves_kept_trans | done]]. rewrite Hw'. eexists. split; [exact Hp |].
    apply (with_new_at _ _ _ _ name _ Hi). }
  split; [done |]. split; [done |]. split.
  - intros Hr. destruct (Hok Hr) as (q & Hv & Hq). exists q. split; [done | by apply Hland].
  - intros Hc Hx q Hq. destruct (Hcalm Hc Hx q Hq) as [? ?]. split; [done | by apply Hland].
Qed.

Lemma wp_restore_file cwd cfg dec room root file dirs name n r t :
  (forall m, slash ∉ uuid_string m) -> IsAbs cwd = true ->
  safeRestoreComponents cwd (rc_TargetDir cfg) (f_Name file) = Ok (dirs ++ [name]) ->
  sw_env (r_sw t) = [] -> pd_fd root = Some n -> sw_fds (r_sw t) !! n = Some r -> is_dir (sw_fs (r_sw t)) r = true ->
  (forall k j, k `prefix_of` dirs -> nofollow (sw_fs (r_sw t)) r k = Some j -> is_dir (sw_fs (r_sw t)) j = true) ->
  nofollow (sw_fs (r_sw t)) r (dirs ++ [name ++ s_dot ++ uuid_string (sw_draws (r_sw t)) ++ go ".tmp"]) = None ->
  (forall j, nofollow (sw_fs (r_sw t)) r (dirs ++ [name]) = Some j -> rc_Overwrite cfg = true /\
     exists x, sw_fs (r_sw t) !! j = Some x /\ is_dir (sw_fs (r_sw t)) j = false) ->
  bs_inv (r_store t) ->
  wp (restore_file cwd cfg dec room root file) (file_post dec room r (dirs ++ [name]) file t) t.
Proof.
  intros Hu Hc Hcomps He Hn Hr Hd Hpre Hfree Hdst Hinv. unfold restore_file. rewrite Hcomps. cbn [lift_result]. wp_steps.
  rewrite split_comps_app. apply comps_normal in Hcomps; [|done]. apply Forall_app in Hcomps as [Hdirs [Hnm _]%Forall_cons].
  destruct (secure_loop_quiet dirs root false (r_sw t) n r He Hn Hr Hd Hdirs Hpre)
    as (d' & w1 & n' & i & p & ents & HE & He1 & Hdr & Hn' & Hi & Hwalk & Hdi & Hk & Hl & Hor).
  wp_step. eapply wp_disk; [exact HE |]. cbn beta iota. cbn [orb]. set (owned := negb _). clearbody owned.
  assert (Hfree' : ents !! (name ++ s_dot ++ uuid_string (sw_draws w1) ++ go ".tmp") = None).
  { rewrite Hdr. revert Hfree. generalize (name ++ s_dot ++ uuid_string (sw_draws (r_sw t)) ++ go ".tmp") as sn. intros sn Hfree.
    by destruct (opened_entry (sw_fs (r_sw t)) (sw_fs w1) r i p dirs ents Hwalk Hdi sn Hor) as [? | [<- _]]. }
  assert (Hdst' : forall j, ents !! name = Some j -> rc_Overwrite cfg = true /\ exists x, sw_fs w1 !! j = Some x /\ is_dir (sw_fs w1) j = false).
  { intros j Hj. destruct (opened_entry (sw_fs (r_sw t)) (sw_fs w1) r i p dirs ents Hwalk Hdi name Hor) as [? | [Hno ->]]; [congruence |].
    apply Hdst. by rewrite Hno. }
  assert (Hrest : wp (write_file dec room file d' owned name) (file_post dec room r (dirs ++ [name]) file t) (set_sw w1 t)).
  { pose proof (fun j Hj => proj2 (Hdst' j Hj)) as Hdst2. eapply wp_mono; [by apply (wp_write_file w1 n' i p ents) |].
    intros res t'. by apply (write_lands w1 n' i p ents owned). }
  wp_step. wp_step. destruct (rc_Overwrite cfg) eqn:Eo.
  - wp_step. cbn beta iota. exact Hrest.
  - eapply wp_disk; [by eapply quiet_Exists |]. cbn beta iota. destruct (ents !! name) as [j|] eqn:Ej.
    + by destruct (Hdst' j eq_refl).
    + exact Hrest.
Qed.

(** Restoring one file on a quiet disk: when nothing on its way is a
    link or a file and it is to be written, success means that its path below
    the target leads to a file with its mode and time whose content is
    verified against the manifest, with all files that were there before
    unchanged and the counters advanced, and the store's blobs untouched; and
    if the store is in order and holds the file's blobs, it does succeed, with
    exactly their content. *)
Theorem restore_file_exact cwd cfg dec room root file dirs name n r t :
  (forall m, slash ∉ uuid_string m) -> IsAbs cwd = true ->
  safeRestoreComponents cwd (rc_TargetDir cfg) (f_Name file) = Ok (dirs ++ [name]) ->
  sw_env (r_sw t) = [] -> pd_fd root = Some n -> sw_fds (r_sw t) !! n = Some r -> is_dir (sw_fs (r_sw t)) r = true ->
  (forall k j, k `prefix_of` dirs -> nofollow (sw_fs (r_sw t)) r k = Some j -> is_dir (sw_fs (r_sw t)) j = true) ->
  nofollow (sw_fs (r_sw t)) r (dirs ++ [name ++ s_dot ++ uuid_string (sw_draws (r_sw t)) ++ go ".tmp"]) = None ->
  (forall j, nofollow (sw_fs (r_sw t)) r (dirs ++ [name]) = Some j -> rc_Overwrite cfg = true /\
     exists x, sw_fs (r_sw t) !! j = Some x /\ is_dir (sw_fs (r_sw t)) j = false) ->
  bs_inv (r_store t) ->
  wp (restore_file cwd cfg dec room root file) (file_post dec room r (dirs ++ [name]) file t) t.
Proof. apply wp_restore_file. Qed.
End Landing.
