(* ===== verification/RestoreTree.v ===== *)
(** RestoreTree: a whole restore against an abstract specification.

    The specification is a function on trees: a tree says for each path (a list
    of names below the target directory) whether a directory, a file or a link
    is there.  [spec_restore] lays a manifest out on a tree: directories first,
    then one file after the other, skipping those that were not backed up or
    are already there; it gives nothing when something is in the way.  The
    refinement theorem says that [restoreManifest] on a disk on which nothing
    interferes, with a store in order, does to the tree below the target
    exactly what the specification says. *)

From S2P Require Import Prelude GoStr Externs Compress Crypto Stream FS BlobStore Blob Manifest RestorePath SecureDir Restore.
From stdpp Require Import base list gmap strings.
From Stdlib.Strings Require Import Byte.
Local Open Scope Z_scope.

(** * Trees *)

Inductive thing := TDir | TFile (data : bytes) (mode mtime : Z) | TLink.
Definition tree := list bytes -> option thing.

#[export] Instance thing_eq_dec : EqDecision thing.
Proof. solve_decision. Defined.

Definition put (path : list bytes) (x : thing) (V : tree) : tree := fun l => if decide (l = path) then Some x else V l.

(** A directory at [path] and at everything above it. *)
Definition put_dirs (path : list bytes) (V : tree) : tree := fun l => if decide (l `prefix_of` path) then Some TDir else V l.

Fixpoint above (path : list bytes) : list (list bytes) :=
  [] :: match path with [] => [] | c :: rest => cons c <$> above rest end.

(** Nothing but directories on the way down to [path]. *)
Definition passable (V : tree) (path : list bytes) : bool :=
  forallb (fun l => match V l with None | Some TDir => true | _ => false end) (above path).

Lemma elem_of_above l path : l ∈ above path <-> l `prefix_of` path.
Proof.
  revert l. induction path as [|c path IH]; intros l; cbn [above].
  - rewrite list_elem_of_singleton. split; [by intros -> | by intros ->%prefix_nil_inv].
  - rewrite elem_of_cons, list_elem_of_fmap. split.
    + intros [-> | (k & -> & Hk%IH)]; [apply prefix_nil | by apply prefix_cons].
    + intros Hl. destruct l as [|x l]; [by left |]. right. pose proof (prefix_cons_inv_1 _ _ _ _ Hl) as ->.
      apply prefix_cons_inv_2 in Hl. exists l. split; [done | by apply IH].
Qed.

Lemma passable_spec V path : passable V path = true <-> forall l, l `prefix_of` path -> V l = None \/ V l = Some TDir.
Proof.
  unfold passable. rewrite forallb_forall. split.
  - intros H l Hl. specialize (H l (proj1 (list_elem_of_In _ _) (proj2 (elem_of_above l path) Hl))).
    destruct (V l) as [[]|]; auto; done.
  - intros H l Hl. apply list_elem_of_In, elem_of_above in Hl. by destruct (H l Hl) as [-> | ->].
Qed.

(** * The tree a disk holds *)

Definition thing_of (x : inode) : thing :=
  match x with IDir _ _ => TDir | IFile d m t => TFile d m t | ILink _ => TLink end.

Definition view (f : SecureDir.fs) (r : nat) : tree := fun l => nofollow f r l ≫= fun j => thing_of <$> f !! j.

(** Below [r] every entry leads somewhere and no directory is reached twice. *)
Record treelike (f : SecureDir.fs) (r : nat) : Prop := {
  tl_closed : forall l j, nofollow f r l = Some j -> is_Some (f !! j);
  tl_inj : forall l l' j, nofollow f r l = Some j -> nofollow f r l' = Some j -> is_dir f j = true -> l = l'
}.

Lemma view_dir f r l : view f r l = Some TDir <-> exists j, nofollow f r l = Some j /\ is_dir f j = true.
Proof.
  unfold view, is_dir. destruct (nofollow f r l) as [j|]; cbn; [|naive_solver]. split.
  - intros H. exists j. split; [done |]. by destruct (f !! j) as [[]|].
  - intros (j' & [= <-] & H). by destruct (f !! j) as [[]|].
Qed.

Lemma view_none f r l : treelike f r -> view f r l = None <-> nofollow f r l = None.
Proof.
  intros Ht. unfold view. destruct (nofollow f r l) as [j|] eqn:E; cbn; [|done].
  destruct (tl_closed _ _ Ht _ _ E) as [x ->]. done.
Qed.

Lemma nofollow_one f j c : nofollow f j [c] = match f !! j with Some (IDir _ ents) => ents !! c | _ => None end.
Proof. cbn. destruct (f !! j) as [[p ents| |]|]; try done. by destruct (ents !! c). Qed.

Section New.
Context (f : SecureDir.fs) (r i p : nat) (ents : gmap bytes nat) (path : list bytes) (name : bytes) (x : inode).
Hypothesis Ht : treelike f r.
Hypothesis Hwalk : nofollow f r path = Some i.
Hypothesis Hi : f !! i = Some (IDir p ents).
Hypothesis Hdst : forall j, ents !! name = Some j -> is_dir f j = false.
Hypothesis Hx : forall q e, x = IDir q e -> e = ∅.
Abbreviation f' := (with_new f i p ents name x).

(** Where paths lead after a new inode was entered in directory [i]. *)
Lemma nofollow_new l : nofollow f' r l = if decide (l = path ++ [name]) then Some (fresh (dom f)) else nofollow f r l.
Proof.
  pose proof (with_new_at f i p ents name x Hi) as (Hat & Hnew & Hne & Hfr).
  induction l as [|c l IH] using rev_ind; [case_decide as E; [by destruct path | done] |].
  rewrite !nofollow_snoc, IH. clear IH. destruct (decide (l = path ++ [name])) as [-> |Hl].
  - cbn [mbind option_bind]. rewrite nofollow_one, Hnew. rewrite decide_False by (intros E; apply (f_equal length) in E; rewrite !length_app in E; cbn in E; lia).
    rewrite nofollow_snoc, Hwalk. cbn [mbind option_bind]. rewrite nofollow_one, Hi.
    destruct x as [q e| |] eqn:Ex; [rewrite (Hx q e eq_refl), lookup_empty | |]; destruct (ents !! name) as [j|] eqn:Ej; try done;
      cbn [mbind option_bind]; rewrite nofollow_one; specialize (Hdst j eq_refl); unfold is_dir in Hdst; by destruct (f !! j) as [[]|].
  - destruct (nofollow f r l) as [j|] eqn:Ej; cbn [mbind option_bind].
    + rewrite !nofollow_one. destruct (decide (j = i)) as [->|Hji].
      * assert (l = path) as -> by (eapply (tl_inj _ _ Ht); [done | done | apply is_dir_true; eauto]). rewrite Hat, Hi.
        destruct (decide (c = name)) as [->|Hc]; [by rewrite lookup_insert_eq, decide_True |].
        rewrite lookup_insert_ne by congruence. rewrite decide_False; [done |]. intros E. apply app_inj_tail in E as [_ ?]. done.
      * rewrite decide_False by (intros E; apply app_inj_tail in E as [-> _]; congruence).
        destruct (tl_closed _ _ Ht _ _ Ej) as [y Hy]. unfold with_new. by rewrite !lookup_insert_ne by congruence.
    + rewrite decide_False; [done |]. intros E. apply app_inj_tail in E as [-> _]. congruence.
Qed.

Lemma reached_old l j : nofollow f r l = Some j -> j <> fresh (dom f) /\ (j <> i -> f' !! j = f !! j).
Proof.
  intros Hj. pose proof (with_new_at f i p ents name x Hi) as (_ & _ & _ & Hfr). destruct (tl_closed _ _ Ht _ _ Hj) as [y Hy].
  split; [congruence |]. intros Hji. unfold with_new. by rewrite !lookup_insert_ne by congruence.
Qed.

Lemma treelike_new : treelike f' r.
Proof.
  pose proof (with_new_at f i p ents name x Hi) as (Hat & Hnew & Hne & Hfr). split.
  - intros l j. rewrite nofollow_new. case_decide; [intros [= <-]; eauto |]. intros Hj. destruct (reached_old l j Hj) as [_ Ho].
    destruct (decide (j = i)) as [->|Hji]; [eauto |]. rewrite Ho by done. by eapply tl_closed.
  - intros l l' j. rewrite !nofollow_new. repeat case_decide; subst; try done.
    + intros [= <-] Hj _. by destruct (reached_old l' _ Hj).
    + intros Hj [= <-] _. by destruct (reached_old l _ Hj).
    + intros Hj Hj' Hd. eapply (tl_inj _ _ Ht); [done | done |]. destruct (decide (j = i)) as [->|Hji]; [apply is_dir_true; eauto |].
      unfold is_dir in *. by rewrite <- (proj2 (reached_old l j Hj) Hji).
Qed.

Lemma view_new l : view f' r l = put (path ++ [name]) (thing_of x) (view f r) l.
Proof.
  pose proof (with_new_at f i p ents name x Hi) as (Hat & Hnew & Hne & Hfr). unfold view, put. rewrite nofollow_new.
  case_decide; cbn [mbind option_bind]; [by rewrite Hnew |]. destruct (nofollow f r l) as [j|] eqn:Ej; [|done]. cbn [mbind option_bind].
  destruct (decide (j = i)) as [->|Hji]; [by rewrite Hat, Hi |]. by rewrite (proj2 (reached_old l j Ej) Hji).
Qed.
End New.

(** * A quiet disk with a known tree *)

(** Nothing interferes, descriptor [N] is the directory [r], and the tree below
    it is [V]. *)
Record desk (N r : nat) (V : tree) (w : sw) : Prop := {
  dk_env : sw_env w = [];
  dk_root : sw_fds w !! N = Some r;
  dk_tree : treelike (sw_fs w) r;
  dk_view : forall l, view (sw_fs w) r l = V l
}.

Lemma desk_ext N r V V' w : (forall l, V l = V' l) -> desk N r V w -> desk N r V' w.
Proof. intros H []. split; try done. intros l. by rewrite <- H. Qed.

Lemma prefix_snoc_inv {A} (l k : list A) c : l `prefix_of` k ++ [c] -> l `prefix_of` k \/ l = k ++ [c].
Proof. intros [m Hm]. destruct m as [|y m _] using rev_ind; [right; by rewrite app_nil_r in Hm |].
  left. rewrite app_assoc in Hm. apply app_inj_tail in Hm as [-> _]. by exists m.
Qed.

Lemma put_dirs_id path V l : (forall k, k `prefix_of` path -> V k = Some TDir) -> V l = put_dirs path V l.
Proof. intros H. unfold put_dirs. case_decide; auto. Qed.

Section Disk.
Context `{WK : Walk} `{U : Uuid}.

(** Opening a child keeps the root and enters at most one directory. *)
Lemma Child_tree N r d c w n i base V : desk N r V w -> pd_fd d = Some n -> sw_fds w !! n = Some i -> nofollow (sw_fs w) r base = Some i ->
  V base = Some TDir -> normal c -> V (base ++ [c]) = None \/ V (base ++ [c]) = Some TDir ->
  exists w' j, Child d c w = (Ok (PD (Some (fresh (dom (sw_fds w)))) (FpJoin [pd_path d; c])), w') /\
    desk N r (put (base ++ [c]) TDir V) w' /\ sw_draws w' = sw_draws w /\ nofollow (sw_fs w') r (base ++ [c]) = Some j /\
    sw_fds w' = <[fresh (dom (sw_fds w)) := j]> (sw_fds w).
Proof.
  intros [He Hr Ht Hv] Hn Hi Hb Hd Hc Hcase.
  assert (exists p ents, sw_fs w !! i = Some (IDir p ents)) as (p & ents & Hdi).
  { apply is_dir_true. rewrite <- Hv in Hd. apply view_dir in Hd as (i' & Hi' & ?). congruence. }
  assert (Hentry : nofollow (sw_fs w) r (base ++ [c]) = ents !! c) by (by rewrite nofollow_snoc, Hb; cbn [mbind option_bind]; rewrite nofollow_one, Hdi).
  assert (Hroot : forall j, <[fresh (dom (sw_fds w)) := j]> (sw_fds w) !! N = Some r) by (intros j; rewrite lookup_insert_ne; [done | by eapply fresh_fd_ne]).
  destruct Hcase as [Hno | Hyes].
  - rewrite <- Hv in Hno. apply view_none in Hno; [|done]. rewrite Hentry in Hno.
    destruct (Child_missing d c w n i p ents He Hc Hn Hi Hdi Hno) as (w1 & HE & He1 & Hdr1 & Hf1 & Hfd1).
    assert (Hdst : forall j, ents !! c = Some j -> is_dir (sw_fs w) j = false) by congruence.
    assert (Hx : forall q e, IDir i ∅ = IDir q e -> e = ∅) by (by intros q e [= _ <-]).
    exists w1, (fresh (dom (sw_fs w))). split; [done |]. split; [|split; [done |]; split; [|done]].
    + split; [done | by rewrite Hfd1 | rewrite Hf1; by eapply treelike_new |].
      intros l. rewrite Hf1, (view_new (sw_fs w) r i p ents base c (IDir i ∅) Ht Hb Hdi Hdst Hx l). unfold put. case_decide; [done | apply Hv].
    + rewrite Hf1, (nofollow_new (sw_fs w) r i p ents base c (IDir i ∅) Ht Hb Hdi Hdst Hx). by rewrite decide_True.
  - pose proof Hyes as Hyes'. rewrite <- Hv in Hyes. apply view_dir in Hyes as (j & Hj & Hdj). rewrite Hentry in Hj.
    rewrite (Child_dir d c w n i p ents j) by done. eexists _, j. split; [done |]. split; [|split; [done |]; split; [by cbn; rewrite Hentry | done]].
    split; [done | by apply Hroot | done |]. intros l. cbn. rewrite Hv. unfold put. case_decide; [by subst |done].
Qed.

(** The walk of [openSecurePath]. *)
Lemma secure_loop_tree N r comps : forall base d owned w n i V, desk N r V w -> pd_fd d = Some n -> sw_fds w !! n = Some i ->
  nofollow (sw_fs w) r base = Some i -> (forall k, k `prefix_of` base -> V k = Some TDir) -> (owned = true -> n <> N) ->
  Forall normal comps -> (forall l, l `prefix_of` base ++ comps -> V l = None \/ V l = Some TDir) ->
  exists d' w' n' j, secure_loop d owned comps w = (Ok (d', owned || negb (bool_decide (comps = []))), w') /\
    desk N r (put_dirs (base ++ comps) V) w' /\ sw_draws w' = sw_draws w /\ pd_fd d' = Some n' /\ sw_fds w' !! n' = Some j /\
    nofollow (sw_fs w') r (base ++ comps) = Some j /\ (owned || negb (bool_decide (comps = [])) = true -> n' <> N).
Proof.
  induction comps as [|c rest IH]; intros base d owned w n i V Hdk Hn Hi Hb Hbase Hown Hc Hpass.
  - exists d, w, n, i. rewrite app_nil_r, orb_false_r. split; [done |]. split; [|done].
    eapply desk_ext; [|done]. intros l. by apply put_dirs_id.
  - apply Forall_cons in Hc as [Hc Hrest]. cbn [secure_loop]. rewrite orb_true_r.
    rewrite !(proj2 (eqs_false c _)) by (by destruct Hc as (?&?&?&?)). cbn [orb]. rewrite cons_middle, app_assoc in Hpass.
    destruct (Child_tree N r d c w n i base V Hdk Hn Hi Hb (Hbase base ltac:(done)) Hc (Hpass (base ++ [c]) ltac:(by eexists)))
      as (w1 & j & HE & [He1 Hr1 Ht1 Hv1] & Hdr1 & Hj & Hfd1).
    unfold mbind at 1, eff_bind at 1, attempt at 1. rewrite HE.
    destruct (quiet_close_rest owned d n w1 He1 Hn) as (w2 & Hw2 & He2 & Hf2 & Hdr2 & Hfd2).
    unfold mbind at 1, eff_bind at 1. rewrite Hw2. pose proof (fresh_fd_ne w n i Hi) as Hnn.
    assert (HnN : fresh (dom (sw_fds w)) <> N) by (eapply fresh_fd_ne, dk_root; exact Hdk).
    edestruct (IH (base ++ [c]) (PD (Some (fresh (dom (sw_fds w)))) (FpJoin [pd_path d; c])) true w2 (fresh (dom (sw_fds w))) j (put (base ++ [c]) TDir V))
      as (d' & w' & n' & j' & HE' & Hdk' & Hdr' & Hn' & Hj' & Hw' & Hne'); try done.
    + split; [done | | by rewrite Hf2 | intros l; by rewrite Hf2].
      rewrite Hfd2. destruct owned; [rewrite lookup_delete_ne by (by apply Hown) |]; done.
    + rewrite Hfd2, Hfd1. destruct owned; [rewrite lookup_delete_ne by done |]; by rewrite lookup_insert_eq.
    + by rewrite Hf2.
    + intros k [Hk | ->]%prefix_snoc_inv; unfold put; case_decide; auto; done.
    + intros l Hl. unfold put. case_decide; [by right | by apply Hpass].
    + exists d', w', n', j'. rewrite HE'. rewrite <- app_assoc in Hdk', Hw'. cbn [app] in Hdk', Hw'. split; [done |]. split; [|by rewrite Hdr', Hdr2, Hdr1].
      eapply desk_ext; [|exact Hdk']. intros l. unfold put_dirs, put. repeat case_decide; subst; try done.
      match goal with H : ~ _ `prefix_of` _ |- _ => destruct H end. exists rest. by rewrite <- app_assoc.
Qed.
End Disk.

(** * The specification *)

Section Spec.
Context `{AE : AEAD, ZS : Zstd, SH : Sha256} `{RF : Rfc3339}.
Context (cwd : bytes) (cfg : RestoreConfig) (dec : Decryptor) (room : Z) (blob : bytes -> option bytes).

Definition spec_dir (d : bytes) (V : tree) : option tree :=
  if eqs d [] then Some V
  else match safeRestoreComponents cwd (rc_TargetDir cfg) d with
       | Ok comps => if passable V comps then Some (put_dirs comps V) else None
       | Err _ => None
       end.

Fixpoint spec_dirs (ds : list bytes) (V : tree) : option tree :=
  match ds with
  | [] => Some V
  | d :: rest => spec_dir d V ≫= spec_dirs rest
  end.

(** What becomes of the place of a file whose directory is there. *)
Definition spec_place (file : FileEntry) (comps : list bytes) (V : tree) (res : RestoreResult) : option (tree * RestoreResult) :=
  let write := (fun q => (put comps (TFile q (f_Mode file) (final_time file)) V, counted file res)) <$> file_content dec room blob file in
  match V comps with
  | None => write
  | Some x => if negb (rc_Overwrite cfg) then Some (V, skipped res)
              else if decide (x = TDir) then None else write
  end.

Definition spec_file (file : FileEntry) (V : tree) (res : RestoreResult) : option (tree * RestoreResult) :=
  if negb (IsRestorable file) then Some (V, skipped res)
  else match safeRestoreComponents cwd (rc_TargetDir cfg) (f_Name file) with
       | Ok comps =>
           match split_comps comps with
           | Some (dirs, _) => if passable V dirs then spec_place file comps (put_dirs dirs V) res else None
           | None => None
           end
       | Err _ => None
       end.

Fixpoint spec_files (files : list FileEntry) (V : tree) (res : RestoreResult) : option (tree * RestoreResult) :=
  match files with
  | [] => Some (V, res)
  | file :: rest => spec_file file V res ≫= fun '(V', res') => spec_files rest V' res'
  end.

Definition spec_restore (m : Manifest) (V : tree) (res : RestoreResult) : option (tree * RestoreResult) :=
  spec_dirs (map_to_list (m_Dirs m)).*1 V ≫= fun V' => spec_files (AllFiles m) V' res.
End Spec.

(** * Refinement *)

(** A name that is no staging name. *)
Definition plain_name `{U : Uuid} (c : bytes) : Prop := forall b u, c <> b ++ s_dot ++ uuid_string u ++ go ".tmp".
Definition plain `{U : Uuid} (V : tree) : Prop := forall l, is_Some (V l) -> Forall plain_name l.

Lemma plain_put `{U : Uuid} path x V : plain V -> Forall plain_name path -> plain (put path x V).
Proof. intros HV Hp l. unfold put. case_decide; [by subst | apply HV]. Qed.

Lemma plain_dirs `{U : Uuid} path V : plain V -> Forall plain_name path -> plain (put_dirs path V).
Proof. intros HV Hp l. unfold put_dirs. case_decide as H; [destruct H as [k ->]; by apply Forall_app in Hp as [? _] | apply HV]. Qed.

Section Refine.
Context `{AE : AEAD, ZS : Zstd, SH : Sha256, SHS : !Sha256Spec SH}.
Context {S : Type} `{B : BlobStore S, SV : StoreView S, BS : !BlobStoreSpec S} `{WK : Walk} `{U : Uuid} `{RF : Rfc3339}.
Context (s0 : S).

(** The store is in order and still has the blobs of [s0], and nobody cancels. *)
Definition good (t : @rst S) : Prop :=
  bs_inv (r_store t) /\ bs_calm (r_store t) /\ r_ctx t = [] /\ unchanged bs_blob s0 (r_store t).

Definition steady {A} (m : eff (@rst S) rserr A) : Prop := forall t, good t -> good (m t).2.

Lemma steady_bind {A C} (m : eff (@rst S) rserr A) (f : A -> eff rst rserr C) : steady m -> (forall a, steady (f a)) -> steady (m ≫= f).
Proof. intros Hm Hf t Ht. unfold mbind, eff_bind. specialize (Hm t Ht). destruct (m t) as [[a|e] t']; [by apply Hf | done]. Qed.

Lemma steady_attempt {A} (m : eff (@rst S) rserr A) : steady m -> steady (attempt m : eff rst rserr (result rserr A)).
Proof. intros Hm t Ht. unfold attempt. specialize (Hm t Ht). by destruct (m t). Qed.

Lemma steady_disk {E A} (f : E -> rserr) (m : eff sw E A) : steady (on_disk f m).
Proof. intros t Ht. unfold on_disk, wrap_err, zoom. by destruct (m (r_sw t)). Qed.

Lemma steady_lift {A} (r : result rserr A) : steady (lift_result r).
Proof. by destruct r; intros t Ht. Qed.

Lemma steady_bump f : steady (bump f).
Proof. by intros t Ht. Qed.

Lemma steady_cancelled : steady cancelled.
Proof. intros t (H1 & H2 & H3 & H4). unfold cancelled. rewrite H3. by repeat split. Qed.

(** Store operations that read. *)
Definition reading {E A} (m : eff S E A) : Prop := forall s, bs_inv s -> wp m (fun _ s' => bs_inv s' /\ unchanged bs_blob s s' /\ (bs_calm s -> bs_calm s')) s.

Lemma steady_store {E A} (f : E -> rserr) (m : eff S E A) : reading m -> steady (on_store f m).
Proof.
  intros Hm t (H1 & H2 & H3 & H4). specialize (Hm _ H1). unfold wp in Hm. unfold on_store, wrap_err, zoom.
  destruct (m (r_store t)) as [r s']. destruct Hm as (Hi & Hu & Hc). split; [done |]. split; [by apply Hc |]. split; [done |].
  intros k Hk. cbn in *. by rewrite Hu, H4.
Qed.

Lemma reading_GetStream h : reading (bs_GetStream h).
Proof. intros s Hs. eapply wp_mono; [by apply bs_GetStream_ok |]. intros r s' (? & ? & _ & Hc). split; [done |]. split; [done |]. intros Hs0. by apply Hc. Qed.

Lemma reading_DownloadBlob dec h : reading (DownloadBlob dec h).
Proof.
  intros s Hs. unfold DownloadBlob. do 2 wp_step. eapply wp_mono; [by apply bs_Get_ok |]. intros r s' (Hi & Hu & _ & Hc).
  assert (bs_calm s -> bs_calm s') by (intros Hs0; by apply Hc). destruct r as [c|e]; cbn beta iota; [|done].
  destruct (open_blob dec h c); by wp_step.
Qed.

Ltac st := repeat match goal with
  | |- steady (mbind _ _) => apply steady_bind; [|intros ?]
  | |- steady (match ?x with _ => _ end) => destruct x
  | |- steady (attempt _) => apply steady_attempt
  | |- steady (on_disk _ _) => apply steady_disk
  | |- steady (on_store _ (bs_GetStream _)) => apply steady_store, reading_GetStream
  | |- steady (on_store _ (DownloadBlob _ _)) => apply steady_store, reading_DownloadBlob
  | |- steady (lift_result _) => apply steady_lift
  | |- steady (bump _) => apply steady_bump
  | |- steady cancelled => apply steady_cancelled
  | |- steady _ => by intros t Ht
  end.

Lemma steady_chunks dec st cs : steady (restore_chunks dec st cs).
Proof. induction cs as [|c cs IH]; cbn [restore_chunks]; unfold restoreChunkStream; st; done. Qed.

Lemma steady_write_file dec room file dir owned name : steady (write_file dec room file dir owned name).
Proof.
  unfold write_file, restore_content, restoreChunkedFile, downloadBlobToSecureDir, staged, seal_staging, close_owned. st.
  all: try apply steady_chunks.
Qed.

Lemma content_stable dec room s file q : unchanged bs_blob s0 s ->
  file_content dec room (bs_blob s0) file = Some q -> file_content dec room (bs_blob s) file = Some q.
Proof.
  intros Hu. unfold file_content. destruct (f_Chunks file) as [|c cs].
  - destruct (bs_blob s0 (f_ContentHash file)) as [d|] eqn:E; [|done]. intros Hq.
    assert (Hv : validateHash (f_ContentHash file) = true).
    { cbn in Hq. destruct (DefaultChunkSize <=? f_Size file).
      - destruct (decryptStreamToFile _ _ _) as [vw|]; [|done]. destruct (eqs _ _) eqn:Ee; [|done].
        apply eqs_true in Ee as <-. apply SHA256Bytes_valid.
      - destruct (open_blob _ _ _) as [x|] eqn:Eo; [|done]. apply open_blob_hash in Eo as <-. apply SHA256Bytes_valid. }
    by rewrite (Hu _ Hv), E.
  - intros Hq. apply fmap_Some in Hq as (ps & Hm & ->). apply mapM_Some in Hm. apply fmap_Some. exists ps. split; [|done].
    apply mapM_Some. eapply Forall2_impl; [exact Hm |]. intros c' x Hx. by eapply chunk_content_stable.
Qed.

Section Run.
Context (cwd : bytes) (cfg : RestoreConfig) (dec : Decryptor) (room : Z) (N r : nat) (root : posixDir).
Hypothesis Hcwd : IsAbs cwd = true.
Hypothesis Huuid : forall m, slash ∉ uuid_string m.
Hypothesis Hroot : pd_fd root = Some N.
Abbreviation comps_of p := (safeRestoreComponents cwd (rc_TargetDir cfg) p).

(** The state of a run that goes well: the tree is [V], the counters are
    [res]. *)
Record going (V : tree) (res : RestoreResult) (t : @rst S) : Prop := {
  go_desk : desk N r V (r_sw t);
  go_top : V [] = Some TDir;
  go_plain : plain V;
  go_good : good t;
  go_res : r_res t = res
}.

Lemma put_dirs_top path V : put_dirs path V [] = Some TDir.
Proof. unfold put_dirs. rewrite decide_True; [done | apply prefix_nil]. Qed.

Lemma going_sw V V' res t w : going V res t -> desk N r V' w -> V' [] = Some TDir -> plain V' -> going V' res (set_sw w t).
Proof. by intros []. Qed.

(** Opening the directory [path]. *)
Lemma wp_open_path {A} path V res t (k : posixDir * bool -> eff (@rst S) rserr A) Q : going V res t -> Forall normal path -> Forall plain_name path ->
  passable V path = true ->
  (forall d owned w n i p ents, going (put_dirs path V) res (set_sw w t) -> pd_fd d = Some n -> sw_fds w !! n = Some i ->
     nofollow (sw_fs w) r path = Some i -> sw_fs w !! i = Some (IDir p ents) -> (owned = true -> n <> N) -> wp (k (d, owned)) Q (set_sw w t)) ->
  wp (on_disk RDir (openSecurePath root path) ≫= k) Q t.
Proof.
  intros Hg Hn Hp Hpass HQ. pose proof Hg as [Hd Htop HV _ _].
  assert (Htop' : forall k, k `prefix_of` [] -> V k = Some TDir) by (by intros k' ->%prefix_nil_inv).
  destruct (secure_loop_tree N r path [] root false (r_sw t) N r V Hd Hroot (dk_root _ _ _ _ Hd) eq_refl Htop' ltac:(done) Hn
    (proj1 (passable_spec V path) Hpass)) as (d' & w' & n' & j & HE & Hdk & _ & Hn' & Hj & Hw & Hne).
  cbn [app] in Hw, Hdk. assert (exists p ents, sw_fs w' !! j = Some (IDir p ents)) as (p & ents & Hdj).
  { apply is_dir_true. destruct (proj1 (view_dir (sw_fs w') r path)) as (j' & Hj' & ?); [|congruence].
    rewrite (dk_view _ _ _ _ Hdk). unfold put_dirs. by rewrite decide_True. }
  wp_step. eapply wp_disk; [exact HE |]. cbn beta iota. eapply HQ; [|done..|exact Hne].
  eapply going_sw; [done | exact Hdk | apply put_dirs_top | by apply plain_dirs].
Qed.

(** Closing a handle that is not the root's. *)
Lemma wp_close_going V res t d owned n (Q : result rserr unit -> @rst S -> Prop) : going V res t -> pd_fd d = Some n -> (owned = true -> n <> N) ->
  (forall t', going V res t' -> Q (Ok tt) t') -> wp (close_owned d owned) Q t.
Proof.
  intros [[He Hr Ht Hv] Htop HV Hg Hres] Hd Hne HQ. eapply wp_close_owned; [done | done |]. intros w' H1 H2 H3 _. apply HQ. split; try done.
  split; cbn; [done | | by rewrite H1 | intros l; by rewrite H1].
  rewrite H3. unfold closed. destruct owned; [rewrite lookup_delete_ne by (by apply Hne) |]; done.
Qed.

Lemma wp_restore_dirs ds : forall V V' res t, going V res t -> spec_dirs cwd cfg ds V = Some V' ->
  Forall (fun d => forall l, comps_of d = Ok l -> Forall plain_name l) ds ->
  wp (restore_dirs cwd cfg root ds) (fun x t' => x = Ok tt /\ going V' res t') t.
Proof.
  induction ds as [|d ds IH]; intros V V' res t Hg Hs Hp; cbn [restore_dirs spec_dirs] in *.
  - injection Hs as <-. by wp_step.
  - apply Forall_cons in Hp as [Hp1 Hp]. unfold spec_dir in Hs. destruct (eqs d []); [by eapply IH |].
    destruct (comps_of d) as [comps|e] eqn:Ec; [|done]. destruct (passable V comps) eqn:Epass; [|done]. cbn [mbind option_bind] in Hs.
    cbn [lift_result]. apply wp_bind, wp_ret. eapply wp_open_path; [exact Hg | by eapply comps_normal | by apply Hp1 | done |].
    intros dir owned w n i p ents Hg' Hd _ _ _ Hne. cbv beta iota. do 2 wp_step. eapply wp_disk; [done |]. cbn beta iota. wp_step.
    eapply wp_close_going; [exact Hg' | done | done |]. intros t' Ht'. cbn beta iota. by eapply IH.
Qed.

(** The disk after the new file was entered. *)
Lemma going_written V res t w1 n i p ents owned dirs name file q t' : going V res (set_sw w1 t) -> nofollow (sw_fs w1) r dirs = Some i ->
  sw_fs w1 !! i = Some (IDir p ents) -> (forall j, ents !! name = Some j -> is_dir (sw_fs w1) j = false) -> (owned = true -> n <> N) ->
  Forall plain_name (dirs ++ [name]) ->
  at_stage (sw_fs w1) (closed owned n (sw_fds w1)) i p ents name (IFile q (f_Mode file) (final_time file)) (r_sw t') ->
  r_res t' = counted file res -> good t' -> going (put (dirs ++ [name]) (TFile q (f_Mode file) (final_time file)) V) (counted file res) t'.
Proof.
  intros [[He Hr Ht Hv] Htop HV _ _] Hw Hi Hdst Hne Hp [He' Hf' Hfd'] Hres Hg. cbn [set_sw r_sw] in *.
  assert (Hx : forall a b, IFile q (f_Mode file) (final_time file) = IDir a b -> b = ∅) by done. split; try done.
  - split; [done | | rewrite Hf'; by eapply treelike_new |].
    + rewrite Hfd'. unfold closed. destruct owned; [rewrite lookup_delete_ne by (by apply Hne) |]; done.
    + intros l. rewrite Hf', (view_new (sw_fs w1) r i p ents dirs name _ Ht Hw Hi Hdst Hx l). unfold put. case_decide; [done | apply Hv].
  - unfold put. rewrite decide_False; [done |]. by destruct dirs.
  - by apply plain_put.
Qed.

Lemma wp_write_going V res t w n i p ents dir owned dirs name file q : going V res (set_sw w t) -> pd_fd dir = Some n -> sw_fds w !! n = Some i ->
  nofollow (sw_fs w) r dirs = Some i -> sw_fs w !! i = Some (IDir p ents) -> (owned = true -> n <> N) -> normal name ->
  Forall plain_name (dirs ++ [name]) -> V (dirs ++ [name]) <> Some TDir -> file_content dec room (bs_blob s0) file = Some q ->
  wp (write_file dec room file dir owned name)
    (fun x t' => x = Ok tt /\ going (put (dirs ++ [name]) (TFile q (f_Mode file) (final_time file)) V) (counted file res) t') (set_sw w t).
Proof.
  intros Hg Hd Hn Hw Hi Hne Hnm Hp Hdst Hq. pose proof Hg as [[He _ Ht Hv] _ HV Hgood Hres]. cbn [set_sw r_sw] in He, Ht, Hv.
  assert (Hentry : forall c, nofollow (sw_fs w) r (dirs ++ [c]) = ents !! c) by (intros c; by rewrite nofollow_snoc, Hw; cbn [mbind option_bind]; rewrite nofollow_one, Hi).
  assert (Hnd : forall j, ents !! name = Some j -> is_dir (sw_fs w) j = false).
  { intros j Hj. rewrite <- Hentry in Hj. destruct (is_dir _ j) eqn:E; [|done]. destruct Hdst. rewrite <- Hv. apply view_dir. eauto. }
  assert (Hfree : ents !! (name ++ s_dot ++ uuid_string (sw_draws w) ++ go ".tmp") = None).
  { rewrite <- Hentry. apply view_none; [done |]. rewrite Hv. apply eq_None_not_Some. intros Hs%HV. apply Forall_app in Hs as [_ [Hs _]%Forall_cons]. by eapply Hs. }
  assert (Hdst' : forall j, ents !! name = Some j -> exists x, sw_fs w !! j = Some x /\ is_dir (sw_fs w) j = false).
  { intros j Hj. destruct (tl_closed _ _ Ht (dirs ++ [name]) j) as [x Hx]; [by rewrite Hentry |]. eauto. }
  eapply (wp_mono _ (fun x t' => write_post w n i p ents owned name dec room file t x t' /\ good t')).
  { split; [by apply (wp_write_file w n i p ents dir owned name dec room file t Huuid); try done; apply Hgood | by apply steady_write_file]. }
  intros x t' [(_ & _ & _ & Hok) Hg']. destruct Hgood as (_ & Hcalm & Hctx & Hu).
  destruct (Hok Hcalm Hctx q) as [-> [Hst Hr]]; [by apply content_stable |]. split; [done |]. eapply going_written; try done. by rewrite Hr, <- Hres.
Qed.

Lemma wp_restore_file_tree file V V' res res' t : going V res t -> IsRestorable file = true ->
  spec_file cwd cfg dec room (bs_blob s0) file V res = Some (V', res') -> (forall l, comps_of (f_Name file) = Ok l -> Forall plain_name l) ->
  wp (restore_file cwd cfg dec room root file) (fun x t' => x = Ok tt /\ going V' res' t') t.
Proof.
  intros Hg Hrest Hs Hp. unfold spec_file in Hs. rewrite Hrest in Hs. cbn [negb] in Hs. unfold restore_file.
  destruct (comps_of (f_Name file)) as [comps|e] eqn:Ec; [|done]. cbn [lift_result]. apply wp_bind, wp_ret. specialize (Hp comps eq_refl).
  apply comps_normal in Ec; [|done]. destruct (split_comps comps) as [[dirs name]|] eqn:Es; [|done]. apply split_comps_spec in Es as ->.
  destruct (passable V dirs) eqn:Epass; [|done]. apply Forall_app in Ec as [Hnd [Hnn _]%Forall_cons]. pose proof Hp as [Hpd _]%Forall_app.
  eapply wp_open_path; [exact Hg | done | done | done |]. intros dir owned w n i p ents Hg1 Hd Hn Hw Hi Hne. cbv beta iota.
  set (V1 := put_dirs dirs V) in *. clearbody V1. pose proof Hg1 as [[He _ Ht Hv] _ HV1 _ _]. cbn [set_sw r_sw] in He, Ht, Hv.
  assert (Hentry : forall c, nofollow (sw_fs w) r (dirs ++ [c]) = ents !! c) by (intros c; by rewrite nofollow_snoc, Hw; cbn [mbind option_bind]; rewrite nofollow_one, Hi).
  assert (Hwrite : V1 (dirs ++ [name]) <> Some TDir ->
    (fun q => (put (dirs ++ [name]) (TFile q (f_Mode file) (final_time file)) V1, counted file res)) <$> file_content dec room (bs_blob s0) file = Some (V', res') ->
    wp (write_file dec room file dir owned name) (fun x t' => x = Ok tt /\ going V' res' t') (set_sw w t)).
  { intros Hdst (q & Hq & [= -> ->])%fmap_Some. by eapply wp_write_going. }
  assert (Hhere : ents !! name = None <-> V1 (dirs ++ [name]) = None) by (by rewrite <- Hentry, <- Hv, view_none).
  unfold spec_place in Hs. wp_step. wp_step. destruct (rc_Overwrite cfg); cbn [negb] in Hs.
  - wp_step. cbn beta iota. apply Hwrite; destruct (V1 (dirs ++ [name])) as [x|]; try done; destruct (decide (x = TDir)); try done. congruence.
  - eapply wp_disk; [by eapply quiet_Exists |]. cbn beta iota. destruct (V1 (dirs ++ [name])) as [x|] eqn:Ex.
    + destruct (ents !! name) as [j|]; [|by destruct Hhere as [H _]; specialize (H eq_refl)]. injection Hs as <- <-. unfold skip, bump. do 2 wp_step.
      eapply wp_close_going; [|done | done |]; [|by intros t' Ht'; exact (conj eq_refl Ht')].
      destruct Hg1. split; try done. cbn in *. by subst res.
    + rewrite (proj2 Hhere eq_refl). by apply Hwrite.
Qed.

Lemma wp_restore_files files : forall V V' res res' t, going V res t ->
  spec_files cwd cfg dec room (bs_blob s0) files V res = Some (V', res') ->
  Forall (fun file => forall l, comps_of (f_Name file) = Ok l -> Forall plain_name l) files ->
  wp (restore_files cwd cfg dec room root files) (fun x t' => x = Ok tt /\ going V' res' t') t.
Proof.
  induction files as [|file files IH]; intros V V' res res' t Hg Hs Hp; cbn [restore_files spec_files] in *.
  - injection Hs as <- <-. by wp_step.
  - apply Forall_cons in Hp as [Hp1 Hp]. destruct (spec_file _ _ _ _ _ file V res) as [[V1 res1]|] eqn:E1; [|done]. cbn [mbind option_bind] in Hs.
    wp_step. eapply (wp_mono _ (fun b t' => b = Ok false /\ going V res t')).
    { unfold wp, cancelled. destruct Hg as [? ? ? (? & ? & Hctx & ?) ?]. rewrite Hctx. cbn. done. }
    intros b t1 [-> Hg1]. cbn beta iota. destruct (IsRestorable file) eqn:Er; cbn [negb].
    + wp_step. eapply wp_mono; [by eapply wp_restore_file_tree |]. intros x t2 [-> Hg2]. cbn beta iota. by eapply IH.
    + unfold spec_file in E1. rewrite Er in E1. cbn [negb] in E1. injection E1 as <- <-. unfold skip, bump. do 2 wp_step. eapply IH; [|done|done].
      destruct Hg1. split; try done. cbn in *. by subst res.
Qed.
End Run.
End Refine.

(** The target directory is there, or is created. *)
Definition root_at `{WK : Walk} (path : bytes) (f f' : SecureDir.fs) (r : nat) : Prop :=
  is_dir f' r = true /\ walk_root f' path = Ok r /\ (f' = f \/ walk_root f path = Err NOENT /\ mkdir_all path f = Ok f').

Lemma open_target `{WK : Walk} cwd target w f r : sw_env w = [] -> root_at (Abs cwd target) (sw_fs w) f r ->
  exists w', openSecureDir cwd target w = (Ok (PD (Some (fresh (dom (sw_fds w)))) (Abs cwd target)), w') /\ sw_env w' = [] /\ sw_fs w' = f /\
    sw_fds w' = <[fresh (dom (sw_fds w)) := r]> (sw_fds w).
Proof.
  intros He (Hd & Hw & Hcase). unfold openSecureDir, mbind, eff_bind, attempt, OpenRoot, MkdirAllRoot, wrap_err. rewrite !scall_quiet by done.
  destruct Hcase as [-> | [Hno Hmk]].
  - rewrite Hw, Hd. cbn. eexists. split; [done |]. done.
  - rewrite Hno. rewrite scall_quiet by done. rewrite Hmk. rewrite scall_quiet by done. cbn [set_fs sw_fs]. rewrite Hw, Hd. cbn. eexists. split; [done |]. done.
Qed.

Section Whole.
Context `{AE : AEAD, ZS : Zstd, SH : Sha256, SHS : !Sha256Spec SH}.
Context {S : Type} `{B : BlobStore S, SV : StoreView S, BS : !BlobStoreSpec S} `{WK : Walk} `{U : Uuid} `{RF : Rfc3339}.

(** What a restore to [cfg]'s target starts from: a disk on which nothing
    interferes, with the tree below [r], and a store in order; no name in the
    tree or in the manifest is a staging name. *)
Record start_of (cwd : bytes) (cfg : RestoreConfig) (m : Manifest) (f : SecureDir.fs) (r : nat) (t : @rst S) : Prop := {
  so_cwd : IsAbs cwd = true;
  so_uuid : forall n, slash ∉ uuid_string n;
  so_env : sw_env (r_sw t) = [];
  so_good : good (r_store t) t;
  so_root : root_at (Abs cwd (rc_TargetDir cfg)) (sw_fs (r_sw t)) f r;
  so_tree : treelike f r;
  so_plain : plain (view f r);
  so_dirs : Forall (fun d => forall l, safeRestoreComponents cwd (rc_TargetDir cfg) d = Ok l -> Forall plain_name l) (map_to_list (m_Dirs m)).*1;
  so_files : Forall (fun file => forall l, safeRestoreComponents cwd (rc_TargetDir cfg) (f_Name file) = Ok l -> Forall plain_name l) (AllFiles m)
}.

Definition decryptor_of (cfg : RestoreConfig) : Decryptor := NewDecryptor (rc_Key cfg) DefaultChunkSize.

Lemma wp_restore_tree cwd cfg room m f r t V' res' : start_of cwd cfg m f r t ->
  spec_restore cwd cfg (decryptor_of cfg) room (bs_blob (r_store t)) m (view f r) (r_res t) = Some (V', res') ->
  wp (restoreManifest cwd cfg room m) (fun x t' => x = Ok res' /\ (forall l, view (sw_fs (r_sw t')) r l = V' l) /\
    bs_inv (r_store t') /\ unchanged bs_blob (r_store t) (r_store t')) t.
Proof.
  intros [Hcwd Hu He Hg Hroot Ht Hp Hpd Hpf] Hs. unfold spec_restore in Hs.
  destruct (spec_dirs cwd cfg _ _) as [V1|] eqn:Ed; [|done]. cbn [mbind option_bind] in Hs.
  destruct (open_target cwd (rc_TargetDir cfg) (r_sw t) f r He Hroot) as (w1 & E1 & He1 & Hf1 & Hfd1).
  unfold restoreManifest. fold (decryptor_of cfg). wp_step. eapply wp_disk; [exact E1 |]. cbn beta iota. set (root := PD _ _). set (N := fresh _) in *.
  assert (Hgo : going (r_store t) N r (view f r) (r_res t) (set_sw w1 t)).
  { split; try done.
    - split; cbn; [done | by rewrite Hfd1, lookup_insert_eq | by rewrite Hf1 | by rewrite Hf1].
    - apply view_dir. exists r. split; [done | apply Hroot]. }
  wp_step. wp_step. wp_step. eapply wp_mono; [eapply (wp_restore_dirs (r_store t) cwd cfg N r root Hcwd eq_refl); [exact Hgo | exact Ed | done] |].
  intros x t2 [-> Hg2]. cbn beta iota.
  eapply wp_mono; [eapply (wp_restore_files (r_store t) cwd cfg (decryptor_of cfg) room N r root Hcwd Hu eq_refl); [exact Hg2 | exact Hs | done] |].
  intros x t3 [-> [[He3 _ _ Hv3] _ _ (Hi3 & _ & _ & Hu3) Hr3]]. cbn beta iota. wp_step.
  eapply wp_disk; [unfold PClose, mbind, eff_bind, attempt, CloseFd, take_env; cbn [pd_fd root]; by rewrite He3 |]. cbn beta iota.
  unfold gets. unfold wp. cbn. by rewrite Hr3.
Qed.
End Whole.

(** * Restoring an orderly snapshot to a clear place *)

Definition tally (files : list FileEntry) (res : RestoreResult) : RestoreResult :=
  foldl (fun res f => if IsRestorable f then counted f res else skipped res) res files.

Section Orderly.
Context `{AE : AEAD, ZS : Zstd, SH : Sha256} `{RF : Rfc3339}.
Context (cwd : bytes) (cfg : RestoreConfig) (dec : Decryptor) (room : Z) (blob : bytes -> option bytes).
Abbreviation comps_of p := (safeRestoreComponents cwd (rc_TargetDir cfg) p).

(** The place of a file that is to be restored. *)
Definition place (file : FileEntry) : option (list bytes) :=
  if IsRestorable file then match comps_of (f_Name file) with Ok l => Some l | Err _ => None end else None.

(** The directories a snapshot needs: those it lists, and those of its files. *)
Definition needed (m : Manifest) (l : list bytes) : Prop :=
  (exists d p, d ∈ (map_to_list (m_Dirs m)).*1 /\ d <> [] /\ comps_of d = Ok p /\ l `prefix_of` p) \/
  (exists file dirs name, file ∈ AllFiles m /\ place file = Some (dirs ++ [name]) /\ l `prefix_of` dirs).

(** Every path is acceptable, files have different places and none is where a
    directory is needed, their contents are in the store; below the target
    nothing is where a file goes, and at most directories where directories
    go. *)
Record orderly (m : Manifest) (V0 : tree) : Prop := {
  td_dirs : forall d, d ∈ (map_to_list (m_Dirs m)).*1 -> d <> [] -> exists p, comps_of d = Ok p;
  td_files : forall file, file ∈ AllFiles m -> IsRestorable file = true ->
    exists dirs name, place file = Some (dirs ++ [name]) /\ is_Some (file_content dec room blob file);
  td_places : NoDup (omap place (AllFiles m));
  td_apart : forall file l, file ∈ AllFiles m -> place file = Some l -> ~ needed m l /\ V0 l = None;
  td_clear : forall l, needed m l -> V0 l = None \/ V0 l = Some TDir
}.

Section Way.
Context (way : list bytes -> Prop) (Hway : forall l p, way p -> l `prefix_of` p -> way l).
Definition tame (V : tree) : Prop := forall l, way l -> V l = None \/ V l = Some TDir.

Lemma tame_passable V p : tame V -> way p -> passable V p = true.
Proof using Hway. intros HV Hp. apply passable_spec. intros l Hl. apply HV. by eapply Hway. Qed.

Lemma tame_dirs V p : tame V -> tame (put_dirs p V).
Proof using Type. intros HV l Hl. unfold put_dirs. case_decide; [by right | by apply HV]. Qed.

Lemma dirs_outside V p l : way p -> way l \/ put_dirs p V l = V l.
Proof using Hway. intros Hp. unfold put_dirs. case_decide as H; [left; by eapply Hway | by right]. Qed.

(** [V'] has the directories of [V], and agrees with it off the way. *)
Definition grown (V V' : tree) : Prop := tame V' /\ (forall l, V l = Some TDir -> way l -> V' l = Some TDir).

Lemma spec_dirs_tame ds : forall V, tame V -> (forall d, d ∈ ds -> d <> [] -> exists p, comps_of d = Ok p /\ way p) ->
  exists V', spec_dirs cwd cfg ds V = Some V' /\ grown V V' /\ (forall l, way l \/ V' l = V l) /\
    (forall d p, d ∈ ds -> d <> [] -> comps_of d = Ok p -> V' p = Some TDir).
Proof using Hway.
  induction ds as [|d ds IH]; intros V HV Hds; cbn [spec_dirs].
  - exists V. split_and!; [done | done | by right | by intros ? ? ?%elem_of_nil].
  - assert (exists V1, spec_dir cwd cfg d V = Some V1 /\ tame V1 /\ (forall l, V l = Some TDir -> V1 l = Some TDir) /\ (forall l, way l \/ V1 l = V l) /\
      (forall p, d <> [] -> comps_of d = Ok p -> way p /\ V1 p = Some TDir)) as (V1 & E1 & HV1 & Hk1 & Ho1 & Hd1).
    { unfold spec_dir. destruct (eqs d []) eqn:Ed; [apply eqs_true in Ed as ->; exists V; split_and!; auto; done |]. apply eqs_false in Ed.
      destruct (Hds d ltac:(by left) Ed) as (p & -> & Hp). rewrite (tame_passable V p HV Hp). eexists. split; [done |]. split; [by apply tame_dirs |].
      split; [intros l Hl; unfold put_dirs; by case_decide |]. split; [intros l; by apply dirs_outside |].
      intros p' _ [= <-]. split; [done |]. unfold put_dirs. by rewrite decide_True. }
    rewrite E1. cbn [mbind option_bind]. destruct (IH V1 HV1) as (V' & -> & [HV' Hk] & Ho & Hd); [intros d' Hd'; apply Hds; by right |].
    exists V'. split; [done |]. split; [split; auto |]. split; [intros l; destruct (Ho l) as [?| ->]; auto |].
    intros d' p [-> | Hin]%elem_of_cons Hne Hp; [|by eapply Hd]. destruct (Hd1 p Hne Hp). auto.
Qed.

Lemma spec_files_tame files : forall V res, tame V ->
  (forall file, file ∈ files -> IsRestorable file = true -> exists dirs name, place file = Some (dirs ++ [name]) /\
     is_Some (file_content dec room blob file) /\ way dirs /\ ~ way (dirs ++ [name]) /\ V (dirs ++ [name]) = None) ->
  NoDup (omap place files) ->
  exists V', spec_files cwd cfg dec room blob files V res = Some (V', tally files res) /\ grown V V' /\
    (forall file l, file ∈ files -> place file = Some l -> exists q, file_content dec room blob file = Some q /\
       V' l = Some (TFile q (f_Mode file) (final_time file))) /\
    (forall l, way l \/ l ∈ omap place files \/ V' l = V l).
Proof using Hway.
  induction files as [|file files IH]; intros V res HV Hfs Hnd; cbn [spec_files tally foldl].
  - exists V. split_and!; [done | done | by intros ? ? ?%elem_of_nil | auto].
  - destruct (IsRestorable file) eqn:Er.
    2: { assert (Ep : place file = None) by (unfold place; by rewrite Er). cbn in Hnd. rewrite Ep in Hnd. unfold spec_file. rewrite Er. cbn [negb mbind option_bind].
         destruct (IH V (skipped res) HV) as (V' & -> & Hg & Hf & Ho); [intros f Hf; apply Hfs; by right | done |].
         exists V'. split; [done |]. split; [done |]. split; [|cbn; by rewrite Ep].
         intros f l [-> | Hin]%elem_of_cons Hl; [congruence | by eapply Hf]. }
    destruct (Hfs file ltac:(by left) Er) as (dirs & name & Ep & [q Hq] & Hwd & Hnw & Hno). cbn in Hnd. rewrite Ep in Hnd. apply NoDup_cons in Hnd as [Hnin Hnd].
    set (V1 := put (dirs ++ [name]) (TFile q (f_Mode file) (final_time file)) (put_dirs dirs V)).
    assert (E1 : spec_file cwd cfg dec room blob file V res = Some (V1, counted file res)).
    { unfold spec_file. unfold place in Ep. rewrite Er in Ep |- *. cbn [negb]. destruct (comps_of (f_Name file)) as [l|]; [|done]. injection Ep as ->.
      rewrite split_comps_app, (tame_passable V dirs HV Hwd). unfold spec_place. destruct (dirs_outside V dirs (dirs ++ [name]) Hwd) as [?| ->]; [done |]. rewrite Hno, Hq. done. }
    assert (Hoff : forall l, way l \/ l = dirs ++ [name] \/ V1 l = V l).
    { intros l. unfold V1, put. destruct (decide (l = dirs ++ [name])); [by right; left |]. destruct (dirs_outside V dirs l Hwd); auto. }
    assert (Hon : forall l, way l -> V1 l = put_dirs dirs V l) by (intros l Hl; unfold V1, put; rewrite decide_False; [done | by intros ->]).
    rewrite E1. cbn [mbind option_bind].
    destruct (IH V1 (counted file res)) as (V' & -> & [HV' Hk] & Hf & Ho); [| |done|].
    { intros l Hl. rewrite Hon by done. by apply tame_dirs. }
    { intros f Hf Hr. destruct (Hfs f ltac:(by right) Hr) as (ds & nm & Hp' & Hq' & Hw' & Hnw' & Hno'). exists ds, nm. split_and!; try done.
      destruct (Hoff (ds ++ [nm])) as [?|[E| ->]]; try done. destruct Hnin. apply list_elem_of_omap. exists f. split; [done | by rewrite Hp', E]. }
    exists V'. split; [done |]. split; [split; [done |] |split].
    + intros l Hl Hw. apply Hk; [|done]. rewrite Hon by done. unfold put_dirs. by case_decide.
    + intros f l [-> | Hin]%elem_of_cons Hl; [|by eapply Hf]. rewrite Ep in Hl. injection Hl as <-. exists q. split; [done |].
      destruct (Ho (dirs ++ [name])) as [?|[?| ->]]; try done. unfold V1, put. by rewrite decide_True.
    + intros l. cbn. rewrite Ep, elem_of_cons. destruct (Ho l) as [?|[?| ->]]; auto. destruct (Hoff l) as [?|[?|?]]; auto.
Qed.
End Way.

(** [V'] is [V0] with the snapshot laid out on it: every file with the content
    its blobs give, its mode and its time, every directory, and nothing else
    changed. *)
Definition rebuilt (m : Manifest) (V0 V' : tree) : Prop :=
  (forall file l, file ∈ AllFiles m -> place file = Some l -> exists q, file_content dec room blob file = Some q /\
     V' l = Some (TFile q (f_Mode file) (final_time file))) /\
  (forall d p, d ∈ (map_to_list (m_Dirs m)).*1 -> d <> [] -> comps_of d = Ok p -> V' p = Some TDir) /\
  (forall l, needed m l \/ l ∈ omap place (AllFiles m) \/ V' l = V0 l).

Lemma place_comps file l : place file = Some l -> comps_of (f_Name file) = Ok l.
Proof. unfold place. destruct (IsRestorable file); [|done]. by destruct (comps_of _) as [k|]; intros [= ->]. Qed.

(** Laying out an orderly snapshot succeeds, and rebuilds it. *)
Lemma spec_restore_tidy m V0 res : orderly m V0 ->
  exists V', spec_restore cwd cfg dec room blob m V0 res = Some (V', tally (AllFiles m) res) /\ rebuilt m V0 V'.
Proof.
  intros [Hd Hf Hnd Hap Hcl].
  assert (Hway : forall l p, needed m p -> l `prefix_of` p -> needed m l).
  { intros l p [(d & q & ? & ? & ? & ?) | (file & dirs & name & ? & ? & ?)] Hl; [left; exists d, q | right; exists file, dirs, name];
      split_and!; try done; by etrans. }
  destruct (spec_dirs_tame (needed m) Hway (map_to_list (m_Dirs m)).*1 V0 Hcl) as (V1 & E1 & [HV1 _] & Ho1 & Hd1).
  { intros d Hin Hne. destruct (Hd d Hin Hne) as [p Hp]. exists p. split; [done |]. left. by exists d, p. }
  destruct (spec_files_tame (needed m) Hway (AllFiles m) V1 res HV1) as (V2 & E2 & [_ Hk2] & Hf2 & Ho2); [|done|].
  { intros file Hin Hr. destruct (Hf file Hin Hr) as (dirs & name & Hp & Hq). destruct (Hap file _ Hin Hp) as [Hn Hz].
    exists dirs, name. split_and!; try done; [right; by exists file, dirs, name |]. by destruct (Ho1 (dirs ++ [name])) as [?| ->]. }
  exists V2. unfold spec_restore. rewrite E1. cbn [mbind option_bind]. split; [done |]. split_and!; [done | |].
  - intros d p Hin Hne Hp. apply Hk2; [by eapply Hd1 |]. left. by exists d, p.
  - intros l. destruct (Ho2 l) as [?|[?| ->]]; auto. destruct (Ho1 l); auto.
Qed.
End Orderly.

Section Theorems.
Context `{AE : AEAD, ZS : Zstd, SH : Sha256, SHS : !Sha256Spec SH}.
Context {S : Type} `{B : BlobStore S, SV : StoreView S, BS : !BlobStoreSpec S} `{WK : Walk} `{U : Uuid} `{RF : Rfc3339}.

Lemma rebuilt_ext cwd cfg dec room blob m V0 V V' : (forall l, V' l = V l) -> rebuilt cwd cfg dec room blob m V0 V -> rebuilt cwd cfg dec room blob m V0 V'.
Proof. intros HV (H1 & H2 & H3). split_and!; [intros file l ??; rewrite HV; eauto | intros d p ???; rewrite HV; eauto | intros l; rewrite HV; eauto]. Qed.

Lemma wp_restore_rebuilds cwd cfg room m f r (t : @rst S) : start_of cwd cfg m f r t ->
  orderly cwd cfg (decryptor_of cfg) room (bs_blob (r_store t)) m (view f r) ->
  wp (restoreManifest cwd cfg room m) (fun x t' => x = Ok (tally (AllFiles m) (r_res t)) /\
    rebuilt cwd cfg (decryptor_of cfg) room (bs_blob (r_store t)) m (view f r) (view (sw_fs (r_sw t')) r) /\
    unchanged bs_blob (r_store t) (r_store t')) t.
Proof.
  intros Hs Ht. destruct (spec_restore_tidy _ _ _ _ _ _ _ (r_res t) Ht) as (V' & E & Hr).
  eapply wp_mono; [by eapply wp_restore_tree |]. intros x t' (-> & Hv & _ & Hu). split; [done |]. split; [|done]. by eapply rebuilt_ext.
Qed.

(** C6: a restore on which nothing interferes, from a store in order, does to
    the tree below the target exactly what the specification [spec_restore]
    says, whatever is there already: the directories of the snapshot, then its
    files, each with the content of its blobs, its mode and its time, those
    that were not backed up or (unless overwriting) are already there skipped
    and counted; everything else in the tree and all blobs stay as they
    were. *)
Theorem restore_refines_tree cwd cfg room m f r (t : @rst S) V' res' : start_of cwd cfg m f r t ->
  spec_restore cwd cfg (decryptor_of cfg) room (bs_blob (r_store t)) m (view f r) (r_res t) = Some (V', res') ->
  wp (restoreManifest cwd cfg room m) (fun x t' => x = Ok res' /\ (forall l, view (sw_fs (r_sw t')) r l = V' l) /\
    bs_inv (r_store t') /\ unchanged bs_blob (r_store t) (r_store t')) t.
Proof. apply wp_restore_tree. Qed.
End Theorems.
