(* ===== verification/RestoreLocal.v ===== *)
(** RestoreLocal: the restore theorems of [Restore] at the local store, on a
    concrete snapshot and file system. *)

From S2P Require Import Prelude GoStr Externs Compress Crypto Stream FS BlobStore LocalStore Blob BlobLocal Manifest RestorePath SecureDir Restore.
From stdpp Require Import base list gmap strings.
From Stdlib.Strings Require Import Byte.
Local Open Scope Z_scope.

Module RestoreWitness.
Import Toy CryptoWitness BlobWitness SecureWitness.

#[local] Instance rs_walk : Walk := {
  walk_at := fun _ _ _ => Err NOENT; walk_root := fun _ _ => Ok 1%nat; mkdir_all := fun _ _ => Err IOERR }.
#[local] Instance rs_uuid : Uuid := toy_uuid.
#[local] Instance rs_time : Rfc3339 := fun _ => Some 1700000000000000000.

Definition cwd0 : bytes := go "/home/u".
Definition cfg0 : RestoreConfig := MkRestoreConfig (go "/r") (go "out") 1 [] [] (go "dev1") key false.

(** A store that holds one uploaded blob, and a file that references it. *)
Definition store1 : sys := (UploadBlob enc4 msg ent store0).2.
Definition note : FileEntry :=
  MkFileEntry (go "docs/note.txt") (SHA256Bytes msg) (blen msg) (go "2023-11-14T22:13:20Z") 420 (go "new") [].

Lemma store1_inv : bs_inv store1.
Proof. exact (proj1 (wp_UploadBlob enc4 msg ent store0 inv0)). Qed.

(** The file system has the restore root 1, an outside directory 2, and the
    root holds a link 3 to it; before the first calls another process swaps a
    link in. *)
Definition t0 (env : list env_step) : @rst sys := RS store1 (w0 env) [] (MkRestoreResult 0 0 0).

Definition hostile : Manifest :=
  MkManifest 2 1 (go "c") [] [] [] [] {[ go "../../etc" := MkDir [] []; [] := MkDir [note] [] ]} (MkStats 0 0 0 0 0 0 0 0) [].

Lemma root_outside0 : root_outside {[ 2%nat ]} cwd0 (rc_TargetDir cfg0).
Proof. split; [|done]. intros f i _ [= <-]. by_decide. Qed.

Lemma restore_confined_witness :
  inv {[ 2%nat ]} (r_sw (restoreManifest cwd0 cfg0 100 hostile (t0 [Env swap None; Env swap None])).2).
Proof.
  apply (restore_confined {[ 2%nat ]} w_uuid_clean cwd0 cfg0 100 hostile); [done | apply root_outside0 |].
  apply w0_inv. apply Forall_cons. split; [apply swap_ok |]. apply Forall_cons. split; [apply swap_ok | by constructor].
Defined.

Lemma restore_file_exact_witness :
  exists t', restore_file cwd0 cfg0 dec4 100 root note (t0 []) = (Ok tt, t') /\
    restored 1 ([go "docs"] ++ [go "note.txt"]) note msg (t0 []) t'.
Proof.
  assert (Hc : safeRestoreComponents cwd0 (rc_TargetDir cfg0) (f_Name note) = Ok ([go "docs"] ++ [go "note.txt"])) by by vm_compute.
  assert (Hpre : forall k j, k `prefix_of` [go "docs"] -> nofollow f0 1 k = Some j -> is_dir f0 j = true).
  { intros k j Hk. assert (k = [] \/ k = [go "docs"]) as [-> | ->].
    - destruct Hk as [l Hl]. destruct k as [|x [|y k]]; cbn in Hl; simplify_eq; auto.
    - by intros [= <-].
    - by vm_compute. }
  pose proof (restore_file_exact cwd0 cfg0 dec4 100 root note [go "docs"] (go "note.txt") 5 1 (t0 [])
    w_uuid_clean eq_refl Hc eq_refl eq_refl eq_refl eq_refl Hpre eq_refl ltac:(intros j Hj; by vm_compute in Hj) store1_inv) as H.
  unfold wp in H. destruct (restore_file _ _ _ _ _ _ (t0 [])) as [res t']. destruct H as (_ & _ & _ & H).
  destruct (H (conj eq_refl eq_refl) eq_refl msg ltac:(by vm_compute)) as [Hr Hd]. cbn [fst snd] in *. subst res. by exists t'.
Defined.
End RestoreWitness.
