(* ===== verification/Ignore.v ===== *)
(** Ignore: which paths a backup leaves out ([fsutil/ignore.go]), on Linux.

    [path.Match] and [utf8.DecodeRuneInString] are written out as the Go
    library has them.  [MatchPattern] and [matchGlobstar] call each other with
    shorter patterns; [match_pattern] carries fuel, one more than the pattern's
    length, and [MatchPattern_unfold] shows that it never runs out. *)

From S2P Require Import Prelude GoStr.
From stdpp Require Import base list gmap strings.
From Stdlib.Strings Require Import Byte.
Local Open Scope Z_scope.

Definition IgnoreFileName : bytes := go ".ginkgo-backupignore".
Definition RestoreTmpSuffix : bytes := go ".ginkgo-backup-restore-tmp".

Definition GOOS : bytes := go "linux".
Definition caseInsensitiveFS : bool := eqs GOOS (go "windows") || eqs GOOS (go "darwin").
Definition normalizeForMatch (s : bytes) : bytes := if caseInsensitiveFS then ToLower s else s.

(** ** The ignore file *)

(** [bufio.MaxScanTokenSize]: a line of this length ends the scan. *)
Definition MaxScanTokenSize : nat := 64 * 1024.

(** What [bufio.ScanLines] delivers: the lines up to the first too long one,
    without a carriage return at the end. *)
Fixpoint scan_lines (ls : list bytes) : list bytes :=
  match ls with
  | [] => []
  | l :: ls' => if (MaxScanTokenSize <=? length l)%nat then [] else TrimSuffix l [x0d] :: scan_lines ls'
  end.

(** [ReadFile] is [os.ReadFile]; [None] is an error. *)
Definition LoadIgnoreFile (ReadFile : bytes -> option bytes) (root : bytes) : list bytes :=
  match ReadFile (FpJoin [root; IgnoreFileName]) with
  | None => []
  | Some data =>
      filter (fun line => negb (eqs line []) && negb (HasPrefix line (go "#"))) (TrimSpace <$> scan_lines (Split x0a data))
  end.

(** Both loops run over the same [seen] and append to the same result. *)
Definition MergeExcludes (sourceExcludes ignoreFilePatterns : list bytes) : list bytes :=
  uniq ∅ (sourceExcludes ++ ignoreFilePatterns).

(** ** Size filters *)

Inductive sizeOp := OpGE | OpLE | OpGT | OpLT.
Record SizeFilter := MkSizeFilter { sf_Op : sizeOp; sf_Bytes : Z }.

(** The operator at the start, and what follows it. *)
Definition parse_op (rest : bytes) : option (sizeOp * bytes) :=
  if HasPrefix rest (go ">=") then Some (OpGE, drop 2 rest)
  else if HasPrefix rest (go "<=") then Some (OpLE, drop 2 rest)
  else if HasPrefix rest (go ">") then Some (OpGT, drop 1 rest)
  else if HasPrefix rest (go "<") then Some (OpLT, drop 1 rest)
  else None.

(** The multiplier of the unit at the end, and what precedes it. *)
Definition parse_unit (rest : bytes) : Z * bytes :=
  let lower := ToLower rest in
  if HasSuffix lower (go "gb") then (2 ^ 30, take (length rest - 2) rest)
  else if HasSuffix lower (go "mb") then (2 ^ 20, take (length rest - 2) rest)
  else if HasSuffix lower (go "kb") then (2 ^ 10, take (length rest - 2) rest)
  else if HasSuffix lower (go "b") then (1, take (length rest - 1) rest)
  else (1, rest).

Definition ParseSizeFilter (s : bytes) : option SizeFilter :=
  let s := TrimSpace s in
  if negb (HasPrefix s (go "size:")) then None
  else
    '(op, rest) ← parse_op (drop 5 s);
    let rest := TrimSpace rest in
    if eqs rest [] then None
    else
      let '(multiplier, rest) := parse_unit rest in
      val ← ParseInt (TrimSpace rest);
      if (val <? 0) || ((1 <? multiplier) && (MaxInt64 `div` multiplier <? val)) then None
      else Some (MkSizeFilter op (int64 (val * multiplier))).

Definition size_matches (size : Z) (f : SizeFilter) : bool :=
  match sf_Op f with
  | OpGT => sf_Bytes f <? size
  | OpGE => sf_Bytes f <=? size
  | OpLT => size <? sf_Bytes f
  | OpLE => size <=? sf_Bytes f
  end.

Definition IsSizeExcluded (size : Z) (sizeFilters : list SizeFilter) : bool := existsb (size_matches size) sizeFilters.

(** Positive patterns, negative patterns, size filters. *)
Fixpoint SplitExcludePatterns (patterns : list bytes) : list bytes * list bytes * list SizeFilter :=
  match patterns with
  | [] => ([], [], [])
  | p :: ps =>
      let '(pos, neg, sizes) := SplitExcludePatterns ps in
      if HasPrefix p (go "!") then (pos, TrimPrefix p (go "!") :: neg, sizes)
      else match ParseSizeFilter p with
           | Some sf => (pos, neg, sf :: sizes)
           | None => (p :: pos, neg, sizes)
           end
  end.

(** ** [path.Match] *)

Definition RuneError : Z := 65533.

Definition cont (lo hi : Z) (b : byte) : bool := (lo <=? b2z b) && (b2z b <=? hi).

(** The range of the second byte of a sequence that starts with [b0]. *)
Definition second (b0 : Z) : Z * Z :=
  if b0 =? 224 then (160, 191) else if b0 =? 237 then (128, 159)
  else if b0 =? 240 then (144, 191) else if b0 =? 244 then (128, 143) else (128, 191).

(** [utf8.DecodeRuneInString]: the rune and its width. *)
Definition DecodeRune (s : bytes) : Z * nat :=
  match s with
  | [] => (RuneError, 0%nat)
  | c0 :: s1 =>
      let b0 := b2z c0 in
      let '(lo, hi) := second b0 in
      if b0 <? 128 then (b0, 1%nat)
      else if (194 <=? b0) && (b0 <? 224) then
        match s1 with
        | c1 :: _ => if cont lo hi c1 then ((b0 - 192) * 64 + (b2z c1 - 128), 2%nat) else (RuneError, 1%nat)
        | _ => (RuneError, 1%nat)
        end
      else if (224 <=? b0) && (b0 <? 240) then
        match s1 with
        | c1 :: c2 :: _ =>
            if cont lo hi c1 && cont 128 191 c2
            then ((b0 - 224) * 4096 + (b2z c1 - 128) * 64 + (b2z c2 - 128), 3%nat) else (RuneError, 1%nat)
        | _ => (RuneError, 1%nat)
        end
      else if (240 <=? b0) && (b0 <=? 244) then
        match s1 with
        | c1 :: c2 :: c3 :: _ =>
            if cont lo hi c1 && cont 128 191 c2 && cont 128 191 c3
            then ((b0 - 240) * 262144 + (b2z c1 - 128) * 4096 + (b2z c2 - 128) * 64 + (b2z c3 - 128), 4%nat)
            else (RuneError, 1%nat)
        | _ => (RuneError, 1%nat)
        end
      else (RuneError, 1%nat)
  end.

(** A rune of a character class; [None] is [ErrBadPattern]. *)
Definition getEsc (chunk : bytes) : option (Z * bytes) :=
  let plain (chunk : bytes) :=
    let '(r, n) := DecodeRune chunk in
    if (r =? RuneError) && (n =? 1)%nat then None
    else match drop n chunk with [] => None | rest => Some (r, rest) end in
  match chunk with
  | [] => None
  | c :: rest =>
      if bool_decide (c = x2d) || bool_decide (c = x5d) then None
      else if bool_decide (c = x5c) then match rest with [] => None | _ => plain rest end
      else plain chunk
  end.

(** The ranges of a class up to its bracket: does [r] match one, and the rest. *)
Fixpoint ranges (fuel : nat) (r : Z) (some hit : bool) (chunk : bytes) : option (bool * bytes) :=
  match fuel with
  | O => None
  | S f =>
      match chunk with
      | c :: rest =>
          if bool_decide (c = x5d) && some then Some (hit, rest)
          else
            '(lo, chunk1) ← getEsc chunk;
            '(hi, chunk2) ← (match chunk1 with
                             | c1 :: rest1 => if bool_decide (c1 = x2d) then getEsc rest1 else Some (lo, chunk1)
                             | [] => Some (lo, chunk1)
                             end);
            ranges f r true (hit || (lo <=? r) && (r <=? hi)) chunk2
      | [] => None
      end
  end.

(** [matchChunk]: an error, no match, or what is left of [s].  Every round
    shortens the chunk, whose length is the fuel. *)
Fixpoint match_chunk (fuel : nat) (failed : bool) (chunk s : bytes) : option (option bytes) :=
  match fuel, chunk with
  | S f, c :: chunk1 =>
      let failed := failed || eqs s [] in
      if bool_decide (c = x5b) then
        let '(r, s1) := if failed then (0, s) else let '(r, n) := DecodeRune s in (r, drop n s) in
        let '(negated, chunk2) :=
          match chunk1 with c1 :: rest => if bool_decide (c1 = x5e) then (true, rest) else (false, chunk1) | [] => (false, chunk1) end in
        '(hit, chunk3) ← ranges (S (length chunk2)) r false false chunk2;
        match_chunk f (failed || bool_decide (hit = negated)) chunk3 s1
      else if bool_decide (c = x3f) then
        if (failed : bool) then match_chunk f failed chunk1 s
        else match_chunk f (bool_decide (head s = Some slash)) chunk1 (drop (DecodeRune s).2 s)
      else
        let lit (c : byte) (rest : bytes) :=
          if (failed : bool) then match_chunk f failed rest s
          else match_chunk f (negb (bool_decide (head s = Some c))) rest (drop 1 s) in
        if bool_decide (c = x5c) then match chunk1 with [] => None | c1 :: rest => lit c1 rest end
        else lit c chunk1
  | _, _ => Some (if failed then None else Some s)
  end.

Definition matchChunk (chunk s : bytes) : option (option bytes) := match_chunk (length chunk) false chunk s.

(** The length of the chunk at the start of a pattern. *)
Fixpoint chunk_len (inrange : bool) (pattern : bytes) : nat :=
  match pattern with
  | [] => O
  | c :: rest =>
      if bool_decide (c = x5c) then match rest with [] => 1%nat | _ :: rest' => S (S (chunk_len inrange rest')) end
      else if bool_decide (c = x5b) then S (chunk_len true rest)
      else if bool_decide (c = x5d) then S (chunk_len false rest)
      else if bool_decide (c = x2a) && negb inrange then O
      else S (chunk_len inrange rest)
  end.

Fixpoint strip_stars (pattern : bytes) : bytes :=
  match pattern with c :: rest => if bool_decide (c = x2a) then strip_stars rest else pattern | [] => [] end.

Definition scanChunk (pattern : bytes) : bool * bytes * bytes :=
  let p := strip_stars pattern in
  let i := chunk_len false p in
  (bool_decide (head pattern = Some x2a), take i p, drop i p).

(** The rest of a pattern that does not match is only checked. *)
Fixpoint check_rest (fuel : nat) (pattern : bytes) : option bool :=
  match fuel, pattern with
  | S f, _ :: _ => let '(_, chunk, rest) := scanChunk pattern in _ ← matchChunk chunk []; check_rest f rest
  | _, _ => Some false
  end.

(** The loop that skips bytes of the name after a star: what is left after the
    first fitting match, if there is one. *)
Fixpoint star_loop (last : bool) (chunk name : bytes) : option (option bytes) :=
  match name with
  | [] => Some None
  | b :: name' =>
      if bool_decide (b = slash) then Some None
      else
        r ← matchChunk chunk name';
        match r with
        | Some t => if last && negb (eqs t []) then star_loop last chunk name' else Some (Some t)
        | None => star_loop last chunk name'
        end
  end.

Fixpoint glob (fuel : nat) (pattern name : bytes) : option bool :=
  match fuel, pattern with
  | S f, _ :: _ =>
      let '(star, chunk, rest) := scanChunk pattern in
      if star && eqs chunk [] then Some (negb (ContainsByte name slash))
      else
        let last := eqs rest [] in
        r ← matchChunk chunk name;
        match r with
        | Some t =>
            if eqs t [] || negb last then glob f rest t
            else if star then
              r' ← star_loop last chunk name;
              match r' with Some t' => glob f rest t' | None => check_rest f rest end
            else check_rest f rest
        | None =>
            if star then
              r' ← star_loop last chunk name;
              match r' with Some t' => glob f rest t' | None => check_rest f rest end
            else check_rest f rest
        end
  | _, _ => Some (eqs name [])
  end.

(** [path.Match], every round of which consumes some of the pattern; [None] is
    [ErrBadPattern]. *)
Definition Match (pattern name : bytes) : option bool := glob (length pattern) pattern name.

(** ** Patterns *)

Definition ds : bytes := go "**".

(** The two calls that end both functions. *)
Definition match_base_or_path (relPath pattern : bytes) : bool :=
  match Match pattern (Base relPath) with
  | Some true => true
  | _ => match Match pattern relPath with Some b => b | None => false end
  end.

(** A name with no glob characters matches whole elements. *)
Definition match_literal (relPath pattern : bytes) : bool :=
  eqs relPath pattern || HasPrefix relPath (pattern ++ s_slash)
  || (Contains relPath (s_slash ++ pattern ++ s_slash) || HasSuffix relPath (s_slash ++ pattern)).

Section Pattern.
(** [M] is [MatchPattern] on the shorter patterns. *)
Context (M : bytes -> bytes -> bool).

Definition matchGlobstar (relPath pattern : bytes) : bool :=
  if eqs pattern ds then true
  else if HasPrefix pattern (go "**/") then
    let suffix := drop 3 pattern in
    let parts := Split slash relPath in
    M relPath suffix || existsb (fun i => M (GoStr.Join s_slash (drop i parts)) suffix) (seq 1 (length parts - 1))
  else if HasSuffix pattern (go "/**") then
    let prefix := TrimSuffix pattern (go "/**") in
    eqs relPath prefix || HasPrefix relPath (prefix ++ s_slash) || Contains relPath (s_slash ++ prefix ++ s_slash)
  else
    match Index pattern (go "/**/") with
    | Some idx =>
        let prefix := take idx pattern in
        let suffix := drop (idx + 4) pattern in
        let parts := Split slash relPath in
        existsb (fun i =>
          let prefixPath := GoStr.Join s_slash (take (i + 1) parts) in
          if eqs prefixPath prefix || Contains prefixPath (s_slash ++ prefix) && (0 <? i)%nat then
            let remaining := GoStr.Join s_slash (drop (i + 1) parts) in
            if eqs remaining [] then false else M remaining suffix
          else false) (seq 0 (length parts))
    | None => match_base_or_path relPath pattern
    end.

Definition match_body (relPath pattern : bytes) : bool :=
  if Contains pattern ds then matchGlobstar relPath pattern
  else if negb (ContainsAny pattern (go "*?[")) then
    if HasSuffix pattern s_slash then match_literal relPath (TrimSuffix pattern s_slash)
    else match_literal relPath pattern
  else match_base_or_path relPath pattern.
End Pattern.

Fixpoint match_pattern (fuel : nat) (relPath pattern : bytes) : bool :=
  match fuel with O => false | S f => match_body (match_pattern f) relPath pattern end.

Definition MatchPattern (relPath pattern : bytes) : bool := match_pattern (S (length pattern)) relPath pattern.

Definition IsExcluded (relPath : bytes) (positives negatives : list bytes) : bool :=
  if HasSuffix (normalizeForMatch relPath) RestoreTmpSuffix then true
  else
    let relPath := normalizeForMatch relPath in
    let hits pats := existsb (fun pat => MatchPattern relPath (normalizeForMatch pat)) pats in
    if negb (hits positives) then false else negb (hits negatives).

Definition ShouldSkipDir (relPath : bytes) (positives negatives : list bytes) : bool :=
  if negb (IsExcluded relPath positives negatives) then false
  else
    let normPath := normalizeForMatch relPath in
    negb (existsb (fun neg => let neg := normalizeForMatch neg in
      eqs neg normPath || HasPrefix normPath (neg ++ s_slash)) negatives).

(** * Facts *)

(** ** Patterns: termination *)

Lemma existsb_ext {A} (f g : A -> bool) l : (forall x, f x = g x) -> existsb f l = existsb g l.
Proof. intros H. induction l as [|x l IH]; cbn; [done |]. by rewrite H, IH. Qed.

(** The body only asks for shorter patterns. *)
Lemma match_body_ext M M' rel pat : (forall r q, (length q < length pat)%nat -> M r q = M' r q) ->
  match_body M rel pat = match_body M' rel pat.
Proof.
  intros H. unfold match_body. destruct (Contains pat ds) eqn:E; [|done].
  assert (Hlen : (0 < length pat)%nat) by (destruct pat; [done | cbn; lia]).
  assert (Hd : forall n r, (0 < n)%nat -> M r (drop n pat) = M' r (drop n pat)) by (intros; apply H; rewrite length_drop; lia).
  unfold matchGlobstar. destruct (eqs pat ds); [done |]. destruct (HasPrefix pat _).
  { rewrite Hd by lia. f_equal. apply existsb_ext. intros i. apply Hd. lia. }
  destruct (HasSuffix pat _); [done |]. destruct (Index pat _) as [i|]; [|done].
  apply existsb_ext. intros j. by rewrite Hd by lia.
Qed.

Lemma match_pattern_fuel f : forall f' rel pat, (length pat < f)%nat -> (length pat < f')%nat ->
  match_pattern f rel pat = match_pattern f' rel pat.
Proof.
  induction f as [|f IH]; intros [|f'] rel pat H H'; try lia. cbn [match_pattern]. apply match_body_ext.
  intros r q Hq. apply IH; lia.
Qed.

Lemma MatchPattern_eq rel pat : MatchPattern rel pat = match_body MatchPattern rel pat.
Proof.
  unfold MatchPattern at 1. cbn [match_pattern]. apply match_body_ext. intros r q Hq. apply match_pattern_fuel; lia.
Qed.

(** ** Literal patterns *)

Lemma Contains_true s sub : Contains s sub = true <-> exists a b, s = a ++ sub ++ b.
Proof.
  induction s as [|x s IH]; cbn [Contains]; rewrite orb_true_iff; unfold HasPrefix; rewrite bool_decide_eq_true.
  - split; [intros [[k Hk] | ?]; [by exists [], k | done] |]. intros (a & b & E). symmetry in E. apply app_nil in E as [-> E].
    left. by exists b.
  - rewrite IH. split.
    + intros [[k Hk] | (a & b & ->)]; [by exists [], k | by exists (x :: a), b].
    + intros ([|y a] & b & E); [left; by exists b |]. injection E as -> ->. right. by exists a, b.
Qed.

(** No character of [pat] is a glob character. *)
Definition literal (pat : bytes) : Prop := ContainsAny pat (go "*?[") = false.

Lemma literal_not_ds pat : literal pat -> Contains pat ds = false.
Proof.
  intros H. apply not_true_iff_false. intros (a & b & ->)%Contains_true. unfold literal, ContainsAny in H.
  rewrite existsb_app in H. apply orb_false_iff in H as [_ H]. done.
Qed.

Lemma literal_app a b : literal (a ++ b) <-> literal a /\ literal b.
Proof. unfold literal, ContainsAny. rewrite existsb_app. apply orb_false_iff. Qed.

(** The elements of [pat] stand together in those of [rel]. *)
Definition within (pat rel : bytes) : Prop := exists a b, Split slash rel = a ++ Split slash pat ++ b.

Lemma match_literal_within rel pat : match_literal rel pat = true <-> within pat rel.
Proof.
  unfold match_literal. rewrite !orb_true_iff, Contains_true. unfold HasPrefix, HasSuffix, s_slash.
  rewrite eqs_true, !bool_decide_eq_true. split.
  - intros [[-> | [k ->]] | [(a & b & ->) | [k ->]]].
    + exists [], []. by rewrite app_nil_r.
    + exists [], (Split slash k). rewrite <- app_assoc. apply Split_app_gen.
    + exists (Split slash a), (Split slash b). cbn [app]. rewrite <- app_assoc. cbn [app]. by rewrite !Split_app_gen.
    + exists (Split slash k), []. rewrite app_nil_r. apply Split_app_gen.
  - intros (a & b & E). apply (f_equal (GoStr.Join [slash])) in E. rewrite Join_Split in E.
    pose proof (Split_nonempty slash pat) as Hp. destruct a as [|x a], b as [|y b].
    + left. left. rewrite E. cbn [app]. by rewrite app_nil_r, Join_Split.
    + left. right. rewrite E. cbn [app]. rewrite Join_app, Join_Split by done. exists (GoStr.Join [slash] (y :: b)). by rewrite <- app_assoc.
    + right. right. rewrite E, app_nil_r, Join_app, Join_Split by done. by exists (GoStr.Join [slash] (x :: a)).
    + right. left. rewrite E, Join_app, Join_app, Join_Split by (done || by destruct (Split slash pat)).
      exists (GoStr.Join [slash] (x :: a)), (GoStr.Join [slash] (y :: b)). cbn [app]. by rewrite <- app_assoc.
Qed.

Lemma TrimSuffix_none s p : HasSuffix s p = false -> TrimSuffix s p = s.
Proof. unfold TrimSuffix. by intros ->. Qed.

Lemma match_literal_pattern rel pat : literal pat -> MatchPattern rel pat = true <-> within (TrimSuffix pat s_slash) rel.
Proof.
  intros H. rewrite MatchPattern_eq. unfold match_body. rewrite (literal_not_ds pat H), H. cbn [negb].
  destruct (HasSuffix pat s_slash) eqn:E; [|rewrite TrimSuffix_none by done]; apply match_literal_within.
Qed.

(** ** A star and a literal ending *)

(** No character of [e] is special to [path.Match] or a slash. *)
Definition ordinary (e : bytes) : Prop := Forall (fun c => c ∉ [x2a; x3f; x5b; x5c; slash]) e.

Lemma ordinary_byte c : (c ∉ [x2a; x3f; x5b; x5c; slash]) ->
  bool_decide (c = x2a) = false /\ bool_decide (c = x3f) = false /\ bool_decide (c = x5b) = false /\ bool_decide (c = x5c) = false.
Proof. intros H. repeat split; apply bool_decide_eq_false; intros ->; apply H; by_decide. Qed.

Lemma match_chunk_failed e : ordinary e -> forall s, match_chunk (length e) true e s = Some None.
Proof.
  induction 1 as [|c e (H1 & H2 & H3 & H4)%ordinary_byte He IH]; intros s; [done |]. cbn [length match_chunk orb]. rewrite H3, H2, H4. apply IH.
Qed.

Lemma match_chunk_ordinary e : ordinary e -> forall s,
  matchChunk e s = Some (if HasPrefix s e then Some (drop (length e) s) else None).
Proof.
  unfold matchChunk. induction 1 as [|c e Hc He IH]; intros s; [by cbn; rewrite drop_0 |].
  pose proof (match_chunk_failed e He) as Hf. apply ordinary_byte in Hc as (H1 & H2 & H3 & H4).
  cbn [length match_chunk orb]. rewrite H3, H2, H4. destruct s as [|b s].
  - cbn [eqs]. change (eqs [] []) with true. cbn iota. by rewrite Hf.
  - change (eqs (b :: s) []) with false. cbn iota. cbn [head drop]. unfold HasPrefix. destruct (decide (b = c)) as [->|Hne].
    + rewrite bool_decide_true by done. cbn [negb]. rewrite IH. unfold HasPrefix.
      rewrite (bool_decide_ext (c :: e `prefix_of` c :: s) (e `prefix_of` s)); [done |].
      split; [apply prefix_cons_inv_2 | apply prefix_cons].
    + rewrite (bool_decide_false (Some b = Some c)) by congruence. cbn [negb]. rewrite Hf.
      rewrite bool_decide_false; [done |]. intros ->%prefix_cons_inv_1. done.
Qed.

Lemma chunk_len_ordinary e r : ordinary e -> chunk_len r e = length e.
Proof.
  induction 1 as [|c e (H1 & H2 & H3 & H4)%ordinary_byte He IH] in r |- *; [done |]. cbn [chunk_len length].
  rewrite H4, H3, H1. destruct (bool_decide (c = x5d)); cbn [andb]; by rewrite IH.
Qed.

Lemma scanChunk_star e : ordinary e -> scanChunk (x2a :: e) = (true, e, []).
Proof.
  intros He. unfold scanChunk. assert (Hs : strip_stars (x2a :: e) = e).
  { cbn [strip_stars]. rewrite bool_decide_true by done. destruct He as [|c e Hc He]; [done |]. cbn [strip_stars].
    by destruct (ordinary_byte c Hc) as (-> & _). }
  rewrite Hs, chunk_len_ordinary, take_ge, drop_ge by done. done.
Qed.

Lemma star_loop_ordinary e : ordinary e -> forall name, exists r, star_loop true e name = Some r /\
  (r = Some [] /\ (exists b k, name = b :: k ++ e /\ slash ∉ b :: k) \/
   r = None /\ ~ exists b k, name = b :: k ++ e /\ slash ∉ b :: k).
Proof.
  intros He. induction name as [|b name IH]; cbn [star_loop].
  { exists None. split; [done |]. right. split; [done |]. by intros (? & ? & ? & _). }
  case_bool_decide as Hb.
  { exists None. split; [done |]. right. split; [done |]. intros (? & k & [= <- ->] & Hk). apply Hk. subst. by left. }
  rewrite (match_chunk_ordinary e He). cbn [mbind option_bind].
  assert (Hgo : name <> e -> exists r, star_loop true e name = Some r /\
    (r = Some [] /\ (exists b0 k, b :: name = b0 :: k ++ e /\ slash ∉ b0 :: k) \/ r = None /\ ~ exists b0 k, b :: name = b0 :: k ++ e /\ slash ∉ b0 :: k)).
  { intros Hne. destruct IH as (r & Hr & Hc). exists r. split; [done |]. destruct Hc as [[-> (c & k & -> & Hk)] | [-> Hn]]; [left | right]; (split; [done |]).
    - exists b, (c :: k). split; [done |]. apply not_elem_of_cons. auto.
    - intros (? & [|c k] & [= <- E] & Hk); [done |]. apply Hn. exists c, k. split; [done |]. by apply not_elem_of_cons in Hk as [_ ?]. }
  unfold HasPrefix. case_bool_decide as Hp.
  - destruct Hp as [t ->]. rewrite drop_app_length. destruct t as [|x t].
    + exists (Some []). split; [done |]. left. split; [done |]. exists b, []. rewrite app_nil_r. split; [done |]. set_solver.
    + change (eqs (x :: t) []) with false. cbn [negb andb]. apply Hgo. intros E. apply (f_equal length) in E. rewrite length_app in E. cbn in E. lia.
  - apply Hgo. intros ->. by apply Hp.
Qed.

Lemma glob_nil f t : glob f [] t = Some (eqs t []).
Proof. by destruct f. Qed.

Lemma check_rest_nil f : check_rest f [] = Some false.
Proof. by destruct f. Qed.

Lemma Match_star e name : e <> [] -> ordinary e ->
  Match (x2a :: e) name = Some (bool_decide (e `suffix_of` name /\ slash ∉ take (length name - length e) name)).
Proof.
  intros Hne He. unfold Match. cbn [length glob]. rewrite scanChunk_star by done. cbn [andb].
  rewrite (proj2 (eqs_false e [])) by done. change (eqs [] []) with true. cbn [andb negb]. rewrite (match_chunk_ordinary e He). cbn [mbind option_bind].
  assert (Hloop : (exists t, name = e ++ t /\ t <> []) \/ ~ e `prefix_of` name ->
    (r' ← star_loop true e name; match r' with Some t' => glob (length e) [] t' | None => check_rest (length e) [] end) =
    Some (bool_decide (e `suffix_of` name /\ slash ∉ take (length name - length e) name))).
  { intros Hno. destruct (star_loop_ordinary e He name) as (r & -> & Hc). cbn [mbind option_bind].
    destruct Hc as [[-> (b & k & -> & Hk)] | [-> Hn']]; rewrite ?glob_nil, ?check_rest_nil; f_equal; symmetry.
    - apply bool_decide_eq_true. split; [by exists (b :: k) |]. cbn [length]. rewrite length_app.
      replace (S (length k + length e) - length e)%nat with (length (b :: k)) by (cbn; lia). by rewrite app_comm_cons, take_app_length.
    - apply bool_decide_eq_false. intros [[k ->] Hk]. rewrite length_app in Hk. replace (length k + length e - length e)%nat with (length k) in Hk by lia.
      rewrite take_app_length in Hk. destruct k as [|b k]; [|apply Hn'; by exists b, k].
      destruct Hno as [(t & E & Ht) | Hp]; [|by apply Hp]. apply (f_equal length) in E. rewrite !length_app in E. destruct t; [done | cbn in E; lia]. }
  unfold HasPrefix. destruct (decide (e `prefix_of` name)) as [Hp|Hp]; [rewrite (bool_decide_true (_ `prefix_of` _)) by done | rewrite (bool_decide_false (_ `prefix_of` _)) by done].
  - destruct Hp as [t ->]. rewrite drop_app_length. destruct t as [|x t]; [|change (eqs (x :: t) []) with false; cbn [orb]; apply Hloop; left; by exists (x :: t)].
    change (eqs [] []) with true. cbn [orb]. rewrite glob_nil. symmetry. f_equal. apply bool_decide_eq_true. rewrite app_nil_r, Nat.sub_diag. split; [done |]. by intros ?%elem_of_nil.
  - apply Hloop. by right.
Qed.

Lemma TrimRight_id p b cut : (b ∉ cut) -> TrimRight (p ++ [b]) cut = p ++ [b].
Proof. intros Hb. unfold TrimRight. rewrite reverse_snoc. rewrite bool_decide_false by done. by rewrite reverse_cons, reverse_involutive. Qed.

Lemma Base_trimmed p : p <> [] -> TrimRight p s_slash = p ->
  Base p = match LastIndexByte p slash with Some i => drop (S i) p | None => p end.
Proof. unfold Base. intros Hp ->. by destruct p. Qed.

(** The last element of a relative path. *)
Lemma Base_last dirs name : normal name -> Base (GoStr.Join s_slash (dirs ++ [name])) = name.
Proof.
  intros (Hne & _ & _ & Hs). destruct (exists_last Hne) as (q & b & ->).
  assert (Hb : b ∉ s_slash) by (intros ->%list_elem_of_singleton; apply Hs, elem_of_app; right; by left).
  assert (Hgen : forall p, p = [] \/ (exists k, p = k ++ [slash]) -> Base (p ++ q ++ [b]) = q ++ [b]).
  { intros p Hp. rewrite Base_trimmed; [|by destruct p, q | rewrite app_assoc; by apply TrimRight_id]. destruct Hp as [-> | [k ->]].
    - cbn [app]. by rewrite LastIndexByte_notin.
    - rewrite <- (app_assoc k). cbn [app]. rewrite LastIndexByte_app by done.
      replace (S (length k)) with (length (k ++ [slash])) by (rewrite length_app; cbn; lia).
      replace (k ++ slash :: q ++ [b]) with ((k ++ [slash]) ++ q ++ [b]) by (by rewrite <- app_assoc). by rewrite drop_app_length. }
  destruct dirs as [|d dirs]; [cbn [app GoStr.Join]; by apply (Hgen []); left |].
  unfold s_slash. rewrite Join_snoc by done.
  replace (GoStr.Join [slash] (d :: dirs) ++ slash :: q ++ [b]) with ((GoStr.Join [slash] (d :: dirs) ++ [slash]) ++ q ++ [b]) by (by rewrite <- app_assoc).
  apply Hgen. right. by eexists.
Qed.

Lemma ordinary_no_star e : ordinary e -> Contains (x2a :: e) ds = false.
Proof.
  intros He. apply not_true_iff_false. intros (a & b & E)%Contains_true. destruct a as [|x a]; cbn in E.
  - injection E as E. rewrite E in He. apply Forall_cons in He as [Hx _]. apply Hx. by_decide.
  - injection E as _ E. rewrite E in He. apply Forall_app in He as [_ He]. apply Forall_cons in He as [Hx _]. apply Hx. by_decide.
Qed.

Lemma MatchPattern_star dirs name e : e <> [] -> ordinary e -> Forall normal (dirs ++ [name]) ->
  MatchPattern (GoStr.Join s_slash (dirs ++ [name])) (x2a :: e) = true <-> e `suffix_of` name.
Proof.
  intros Hne He Hn. pose proof Hn as [Hd Hname]%Forall_app. apply Forall_cons in Hname as [Hname _]. pose proof Hname as (_ & _ & _ & Hs).
  rewrite MatchPattern_eq. unfold match_body. rewrite ordinary_no_star by done. change (ContainsAny (x2a :: e) (go "*?[")) with true. cbn [negb].
  unfold match_base_or_path. rewrite Base_last, !Match_star by done. split.
  - case_bool_decide as H1; [by destruct H1 |]. rewrite bool_decide_eq_true. intros [Hsuf Hsl]. destruct dirs as [|d dirs]; [done |].
    exfalso. unfold s_slash in *. rewrite Join_snoc in Hsuf, Hsl by done. set (p := GoStr.Join [slash] (d :: dirs)) in *.
    destruct Hsuf as [k Hk]. rewrite Hk, length_app in Hsl. replace (length k + length e - length e)%nat with (length k) in Hsl by lia.
    rewrite take_app_length in Hsl. assert (Hse : slash ∉ e) by (intros Hin; eapply Forall_forall in He; [|exact Hin]; apply He; by_decide).
    assert (Hin : slash ∈ k ++ e) by (rewrite <- Hk; apply elem_of_app; right; by left). apply elem_of_app in Hin as [?|?]; done.
  - intros [k ->]. rewrite bool_decide_true; [done |]. split; [by exists k |]. rewrite length_app.
    replace (length k + length e - length e)%nat with (length k) by lia. rewrite take_app_length. intros Hin. apply Hs, elem_of_app. by left.
Qed.

(** ** Size filters *)

(** Bytes that are neither white space nor part of a wider character. *)
Definition printable (b : byte) : bool := (32 <? b2z b) && (b2z b <? 128).

Lemma no_space_prefix b s : printable b = true -> list_find (fun p => p `prefix_of` b :: s) spaces = None.
Proof.
  intros Hb. apply list_find_None.
  assert (Hs : Forall (fun p => exists c q, p = c :: q /\ printable c = false) spaces) by (repeat constructor; by eexists _, _).
  eapply Forall_impl; [exact Hs |]. intros p (c & q & -> & Hc) ->%prefix_cons_inv_1. congruence.
Qed.

Lemma no_space_suffix b s : printable b = true -> list_find (fun p => p `suffix_of` s ++ [b]) spaces = None.
Proof.
  intros Hb. apply list_find_None.
  assert (Hs : Forall (fun p => exists q c, p = q ++ [c] /\ printable c = false) spaces).
  { repeat constructor; first [by exists [], x09 | by exists [], x0a | by exists [], x0b | by exists [], x0c | by exists [], x0d | by exists [], x20 |
      match goal with |- exists q c, [?a; ?b] = _ /\ _ => by exists [a], b | |- exists q c, [?a; ?b; ?d] = _ /\ _ => by exists [a; b], d end]. }
  eapply Forall_impl; [exact Hs |]. intros p (q & c & -> & Hc) ->%suffix_snoc_inv_1. congruence.
Qed.

Lemma TrimSpace_printable s : Forall (fun b => printable b = true) s -> TrimSpace s = s.
Proof.
  intros Hf. destruct s as [|a s]; [done |]. destruct (exists_last (l := a :: s)) as (t & b & E); [done |].
  unfold TrimSpace. cbn [length trim_left trim_right]. pose proof Hf as [Ha _]%Forall_cons. rewrite no_space_prefix by done.
  rewrite E in Hf |- *. apply Forall_app in Hf as [_ [Hb _]%Forall_cons]. by rewrite no_space_suffix.
Qed.

Lemma HasPrefix_cons a s b p : HasPrefix (a :: s) (b :: p) = bool_decide (a = b) && HasPrefix s p.
Proof.
  unfold HasPrefix. case_bool_decide as H; symmetry; [apply andb_true_iff; rewrite !bool_decide_eq_true; split; [by apply prefix_cons_inv_1 in H | by apply prefix_cons_inv_2 in H] |].
  apply andb_false_iff. rewrite !bool_decide_eq_false. destruct (decide (a = b)) as [->|]; [right | by left]. intros Hp. by apply H, prefix_cons.
Qed.

Definition op_text (op : sizeOp) : bytes :=
  match op with OpGE => go ">=" | OpLE => go "<=" | OpGT => go ">" | OpLT => go "<" end.

(** The units, whatever their case. *)
Definition units : list (bytes * Z) := [(go "gb", 2 ^ 30); (go "mb", 2 ^ 20); (go "kb", 2 ^ 10); (go "b", 1); ([], 1)].

Definition all_digits (d : bytes) : Prop := Forall (fun c => is_digit c = true) d.

Lemma FormatInt_digits n : 0 <= n -> all_digits (FormatInt n) /\ FormatInt n <> [].
Proof.
  intros Hn. unfold FormatInt. destruct (Z.ltb_spec n 0); [lia |]. split.
  - apply Forall_forall. intros c Hc. destruct (is_digit c) eqn:E; [done |]. exfalso. revert Hc. by apply digits_no_us; [|apply not_elem_of_nil].
  - destruct (digits_head 20 n [] ltac:(done)) as (b & l & -> & _). done.
Qed.

Lemma digit_printable c : is_digit c = true -> printable c = true /\ (if is_upper c then z2b (b2z c + 32) else c) = c.
Proof. destruct c; try done. Qed.

Lemma ToLower_digits d : all_digits d -> ToLower d = d.
Proof. induction 1 as [|c d Hc Hd IH]; [done |]. unfold ToLower in *. cbn [fmap list_fmap]. by rewrite IH, (proj2 (digit_printable c Hc)). Qed.

(** A suffix without digits does not reach into the digits. *)
Lemma HasSuffix_digits d l p : all_digits d -> Forall (fun c => is_digit c = false) p -> HasSuffix (d ++ l) p = HasSuffix l p.
Proof.
  intros Hd Hp. unfold HasSuffix. apply bool_decide_ext. split; [|intros [k ->]; exists (d ++ k); by rewrite app_assoc].
  intros [k E]. apply app_eq_inv in E as [(x & -> & ->) | (x & -> & ->)]; [|by exists x].
  destruct x as [|c x]; [done |]. apply Forall_app in Hd as [_ [Hc _]%Forall_cons]. apply Forall_cons in Hp as [Hc' _]. congruence.
Qed.

Lemma parse_unit_app d u k : all_digits d -> (ToLower u, k) ∈ units -> parse_unit (d ++ u) = (k, d).
Proof.
  intros Hd Hu. assert (El : ToLower (d ++ u) = d ++ ToLower u).
  { unfold ToLower at 1. rewrite fmap_app. f_equal. by apply ToLower_digits. }
  assert (Hlen : length u = length (ToLower u)) by (unfold ToLower; by rewrite length_fmap).
  assert (Hcut : forall n, take (length d + n - n) (d ++ u) = d) by (intros n; rewrite Nat.add_sub; apply take_app_length).
  assert (Hall : Forall (fun '(l, z) => ToLower u = l /\ k = z -> parse_unit (d ++ u) = (k, d)) units); [|rewrite Forall_forall in Hall; by apply (Hall _ Hu)].
  unfold parse_unit. rewrite El, length_app, Hlen, !HasSuffix_digits by (done || by repeat constructor).
  repeat constructor; intros [Hl ->]; rewrite Hl; cbn [HasSuffix].
  all: try by apply (f_equal (pair _)), (Hcut 2%nat). all: try by apply (f_equal (pair _)), (Hcut 1%nat).
  apply (f_equal (pair _)). rewrite Hl in Hlen. apply nil_length_inv in Hlen as ->. apply app_nil_r.
Qed.

Lemma parse_op_app op c s : is_digit c = true -> parse_op (op_text op ++ c :: s) = Some (op, c :: s).
Proof.
  intros Hc. unfold parse_op. change (go ">=") with [x3e; x3d]. change (go "<=") with [x3c; x3d]. change (go ">") with [x3e]. change (go "<") with [x3c].
  assert (He : bool_decide (c = x3d) = false) by (by apply bool_decide_eq_false; intros ->).
  assert (Hn : forall l : bytes, HasPrefix l [] = true) by (intros l; apply bool_decide_eq_true, prefix_nil).
  destruct op; [change (op_text OpGE) with [x3e; x3d] | change (op_text OpLE) with [x3c; x3d] | change (op_text OpGT) with [x3e] | change (op_text OpLT) with [x3c]];
    cbn [app]; rewrite !HasPrefix_cons, ?He, !Hn; by cbn.
Qed.

Lemma HasPrefix_app p s : HasPrefix (p ++ s) p = true.
Proof. apply bool_decide_eq_true. by exists s. Qed.

Lemma units_printable u k : (ToLower u, k) ∈ units -> Forall (fun b => printable b = true) u.
Proof.
  intros Hu. assert (Hall : Forall (fun uk => Forall (fun b => printable b = true) uk.1) units) by (repeat constructor).
  rewrite Forall_forall in Hall. specialize (Hall _ Hu). cbn [fst] in Hall. unfold ToLower in Hall. rewrite Forall_fmap in Hall.
  eapply Forall_impl; [exact Hall |]. intros []; done.
Qed.

Lemma units_pos u k : (u, k) ∈ units -> 0 < k.
Proof.
  intros Hu. assert (Hall : Forall (fun uk => 0 < uk.2) units) by (repeat constructor). rewrite Forall_forall in Hall. by apply (Hall _ Hu).
Qed.

(** A size filter written with an operator, a number and a unit (in any
    case) is read as exactly that many bytes; a number whose product with the
    unit does not fit 64 bits is refused instead of wrapping around. *)
Theorem size_filter_roundtrip op n u k : 0 <= n <= MaxInt64 -> (ToLower u, k) ∈ units ->
  ParseSizeFilter (go "size:" ++ op_text op ++ FormatInt n ++ u) =
    if n * k <=? MaxInt64 then Some (MkSizeFilter op (n * k)) else None.
Proof.
  intros Hn Hu. destruct (FormatInt_digits n ltac:(lia)) as [Hd Hne]. pose proof (ParseInt_FormatInt n ltac:(unfold MinInt64; lia)) as Hp.
  destruct (FormatInt n) as [|c d] eqn:Ed; [done |]. pose proof Hd as [Hc _]%Forall_cons.
  assert (Hdp : Forall (fun b => printable b = true) (c :: d)) by (eapply Forall_impl; [exact Hd |]; intros x Hx; by apply digit_printable).
  assert (Hup : Forall (fun b => printable b = true) u).
  { by eapply units_printable. }
  unfold ParseSizeFilter. rewrite TrimSpace_printable by (repeat apply Forall_app_2; try done; destruct op; by repeat constructor).
  change (drop 5 (go "size:" ++ ?x)) with x. rewrite HasPrefix_app. cbn [negb app].
  rewrite (parse_op_app op c (d ++ u) Hc). cbn [mbind option_bind].
  rewrite TrimSpace_printable by (change (c :: d ++ u) with ((c :: d) ++ u); by apply Forall_app_2).
  change (eqs (c :: d ++ u) []) with false. cbn iota. change (c :: d ++ u) with ((c :: d) ++ u). rewrite (parse_unit_app _ _ _ Hd Hu).
  rewrite TrimSpace_printable, Hp by done. cbn [mbind option_bind]. pose proof (units_pos _ _ Hu) as Hk.
  destruct (Z.ltb_spec n 0); [lia |]. cbn [orb]. pose proof (Z.div_le_lower_bound MaxInt64 k n ltac:(lia)).
  pose proof (Z.mul_div_le MaxInt64 k ltac:(lia)).
  destruct (Z.leb_spec (n * k) MaxInt64), (Z.ltb_spec (MaxInt64 / k) n), (Z.ltb_spec 1 k); cbn [andb]; try nia; try done;
    rewrite int64_small by (unfold MaxInt64 in *; nia); done.
Qed.

(** ** Exclusion *)

Lemma normalize_id s : normalizeForMatch s = s.
Proof. done. Qed.

Lemma existsb_literal rel pats : Forall literal pats ->
  existsb (fun pat => MatchPattern rel (normalizeForMatch pat)) pats = true <->
  exists pat, pat ∈ pats /\ within (TrimSuffix pat s_slash) rel.
Proof.
  intros Hl. rewrite existsb_exists. setoid_rewrite <- list_elem_of_In. rewrite Forall_forall in Hl. split; intros (pat & Hin & Hm); exists pat; (split; [done |]);
    by apply (match_literal_pattern rel pat (Hl pat Hin)).
Qed.

Lemma IsExcluded_literal rel pos neg : Forall literal pos -> Forall literal neg ->
  IsExcluded rel pos neg = true <->
  RestoreTmpSuffix `suffix_of` rel \/
  (exists p, p ∈ pos /\ within (TrimSuffix p s_slash) rel) /\ ~ exists n, n ∈ neg /\ within (TrimSuffix n s_slash) rel.
Proof.
  intros Hp Hn. unfold IsExcluded. rewrite normalize_id. rewrite <- (existsb_literal rel pos Hp), <- (existsb_literal rel neg Hn).
  unfold HasSuffix. case_bool_decide; [naive_solver |]. destruct (existsb _ pos), (existsb _ neg); cbn; naive_solver.
Qed.

(** C31: with patterns that have no glob characters, a path is left out
    exactly when it is a leftover of a restore, or the elements of some positive
    pattern stand together in it and those of no negative pattern do. *)
Theorem excluded_exact rel pos neg : Forall literal pos -> Forall literal neg ->
  IsExcluded rel pos neg = true <->
  RestoreTmpSuffix `suffix_of` rel \/
  (exists p, p ∈ pos /\ within (TrimSuffix p s_slash) rel) /\ ~ exists n, n ∈ neg /\ within (TrimSuffix n s_slash) rel.
Proof. apply IsExcluded_literal. Qed.

(** A pattern [*.ext] matches exactly the paths whose last element ends
    in [.ext], in whatever directory they are. *)
Theorem extension_exact dirs name ext : ext <> [] -> ordinary ext -> Forall normal (dirs ++ [name]) ->
  MatchPattern (GoStr.Join s_slash (dirs ++ [name])) (x2a :: ext) = true <-> ext `suffix_of` name.
Proof. apply MatchPattern_star. Qed.

(** The recursion of pattern matching ends: it satisfies the equation the
    two functions are written as, which only asks for shorter patterns. *)
Theorem match_pattern_total rel pat : MatchPattern rel pat = match_body MatchPattern rel pat.
Proof. apply MatchPattern_eq. Qed.

Lemma within_below pat d rest : within pat d -> within pat (d ++ slash :: rest).
Proof. intros (a & b & E). exists a, (b ++ Split slash rest). by rewrite Split_app_gen, E, <- !app_assoc. Qed.

(** A directory that literal patterns exclude may be skipped: without
    negative patterns everything below it is excluded as well. *)
Theorem skip_dir_sound d pos rest : Forall literal pos -> ~ RestoreTmpSuffix `suffix_of` d ->
  ShouldSkipDir d pos [] = true -> IsExcluded (d ++ slash :: rest) pos [] = true.
Proof.
  intros Hp Ht. unfold ShouldSkipDir. destruct (IsExcluded d pos []) eqn:E; [|done]. intros _.
  apply IsExcluded_literal in E as [? | [(p & Hin & Hw) _]]; [done | | done | done].
  apply IsExcluded_literal; [done | done |]. right. split; [|by intros (? & ?%elem_of_nil & _)].
  exists p. split; [done | by apply within_below].
Qed.

Lemma TrimSuffix_snoc s c : TrimSuffix (s ++ [c]) [c] = s.
Proof.
  unfold TrimSuffix, HasSuffix. rewrite bool_decide_true by (by exists s). rewrite length_app. cbn [length].
  by replace (length s + 1 - 1)%nat with (length s) by lia; rewrite take_app_length.
Qed.

Lemma TrimSuffix_cases s c : TrimSuffix s [c] = s \/ s = TrimSuffix s [c] ++ [c].
Proof.
  destruct (HasSuffix s [c]) eqn:E; [|left; by apply TrimSuffix_none]. apply bool_decide_eq_true in E as [k ->]. right. by rewrite TrimSuffix_snoc.
Qed.

Lemma within_trim s : within (TrimSuffix s s_slash) s.
Proof.
  destruct (TrimSuffix_cases s slash) as [E | E]; unfold s_slash; [rewrite E; exists [], []; by rewrite app_nil_r |].
  rewrite E at 2. exists [], (Split slash []). apply Split_app_gen.
Qed.

Lemma within_length pat rel : within pat rel -> (length (Split slash pat) <= length (Split slash rel))%nat.
Proof. intros (a & b & ->). rewrite !length_app. lia. Qed.

Lemma trim_longer d rest : rest <> [] -> (length (Split slash d) < length (Split slash (TrimSuffix (d ++ slash :: rest) s_slash)))%nat.
Proof.
  intros Hr. destruct (exists_last Hr) as (q & c & ->). assert (Hs : forall r, (0 < length (Split slash r))%nat).
  { intros r. pose proof (Split_nonempty slash r). destruct (Split slash r); [done | cbn; lia]. }
  assert (Hd : forall r, (length (Split slash d) < length (Split slash (d ++ slash :: r)))%nat) by (intros r; rewrite Split_app_gen, length_app; specialize (Hs r); lia).
  destruct (TrimSuffix_cases (d ++ slash :: q ++ [c]) slash) as [E | E]; unfold s_slash; [rewrite E; apply Hd |].
  assert (E' : TrimSuffix (d ++ slash :: q ++ [c]) [slash] = d ++ slash :: q); [|rewrite E'; apply Hd].
  rewrite app_comm_cons, app_assoc in E. apply app_inj_tail in E as [E _]. rewrite app_comm_cons, app_assoc. by rewrite <- E.
Qed.

(** A negative pattern below an excluded directory is lost: the directory
    is skipped, so the scan never reaches the path although the rules include
    it. *)
Theorem reincluded_file_skipped d rest : literal d -> literal rest -> rest <> [] ->
  let keep := d ++ slash :: rest in
  ShouldSkipDir d [d] [keep] = true /\ (~ RestoreTmpSuffix `suffix_of` keep -> IsExcluded keep [d] [keep] = false).
Proof.
  intros Hd Hr Hne keep. assert (Hk : literal keep) by (apply literal_app; split; [done | by apply (literal_app [slash])]).
  assert (Hf : Forall literal [d]) by (by repeat constructor). assert (Hfk : Forall literal [keep]) by (by repeat constructor).
  pose proof (trim_longer d rest Hne) as Hlen. assert (Hno : ~ within (TrimSuffix keep s_slash) d) by (intros Hw%within_length; unfold keep in *; lia).
  split.
  - unfold ShouldSkipDir. rewrite normalize_id. assert (E : IsExcluded d [d] [keep] = true).
    { apply IsExcluded_literal; [done | done |]. right. split; [exists d; split; [by left | apply within_trim] |].
      by intros (n & ->%list_elem_of_singleton & Hw). }
    rewrite E. cbn [negb existsb]. rewrite normalize_id, orb_false_r. apply negb_true_iff, orb_false_iff. split.
    + apply eqs_false. intros Ek. apply (f_equal length) in Ek. unfold keep in Ek. rewrite length_app in Ek. cbn in Ek. lia.
    + apply bool_decide_eq_false. intros [k Ek]. apply (f_equal length) in Ek. unfold keep in Ek. rewrite !length_app in Ek. cbn in Ek. lia.
  - intros Ht. apply not_true_iff_false. intros [? | [_ Hn]]%IsExcluded_literal; [done | | done | done].
    apply Hn. exists keep. split; [by left | apply within_trim].
Qed.

(** A line of 64 KiB in the ignore file hides the patterns after it. *)
Lemma long_line_hides_rules read root l rest : read (FpJoin [root; IgnoreFileName]) = Some (l ++ x0a :: rest) ->
  (x0a ∉ l) -> (MaxScanTokenSize <= length l)%nat -> LoadIgnoreFile read root = [].
Proof.
  intros Hr Hl Hlen. unfold LoadIgnoreFile. rewrite Hr, Split_app by done. cbn [scan_lines]. by rewrite (proj2 (Nat.leb_le _ _) Hlen).
Qed.

(** A prefix before [/**/] need not end at an element: [a/**/x] matches
    [q/abc/x]. *)
Example globstar_unaligned : MatchPattern (go "q/abc/x") (go "a/**/x") = true.
Proof. by vm_compute. Qed.

(** ** Witnesses *)

Module IgnoreWitness.
Lemma excluded_exact_witness :
  IsExcluded (go "a/build/x.o") [go "build/"] [go "keep"] = true /\ IsExcluded (go "a/build/keep/x") [go "build/"] [go "keep"] = false.
Proof.
  assert (Hf : Forall literal [go "build/"] /\ Forall literal [go "keep"]) by (by repeat constructor). destruct Hf as [Hp Hn]. split.
  - apply (excluded_exact (go "a/build/x.o") _ _ Hp Hn). right. split.
    + exists (go "build/"). split; [by left |]. by exists [go "a"], [go "x.o"].
    + intros (n & ->%list_elem_of_singleton & Hw%match_literal_within). by vm_compute in Hw.
  - apply not_true_iff_false. intros [Ht | [_ Hno]]%(excluded_exact (go "a/build/keep/x") _ _ Hp Hn).
    + revert Ht. by_decide.
    + apply Hno. exists (go "keep"). split; [by left |]. by exists [go "a"; go "build"], [go "x"].
Defined.

Lemma extension_exact_witness : MatchPattern (go "var/log/a.log") (go "*.log") = true.
Proof. apply (extension_exact [go "var"; go "log"] (go "a.log") (go ".log")); [done | by_decide | by_decide | by exists (go "a")]. Defined.

Lemma size_filter_roundtrip_witness :
  ParseSizeFilter (go "size:>=9000000000GB") = None /\ ParseSizeFilter (go "size:<10Mb") = Some (MkSizeFilter OpLT 10485760).
Proof.
  split.
  - etrans; [apply (size_filter_roundtrip OpGE 9000000000 (go "GB") (2 ^ 30)); [by vm_compute | by_decide] | by vm_compute].
  - etrans; [apply (size_filter_roundtrip OpLT 10 (go "Mb") (2 ^ 20)); [by vm_compute | by_decide] | by vm_compute].
Defined.

Lemma skip_dir_sound_witness : IsExcluded (go "a/tmp/b/c") [go "tmp"] [] = true.
Proof. apply (skip_dir_sound (go "a/tmp") [go "tmp"] (go "b/c")); [by repeat constructor | by_decide | by vm_compute]. Defined.

Lemma reincluded_file_skipped_witness :
  ShouldSkipDir (go "build") [go "build"] [go "build/keep.txt"] = true /\ IsExcluded (go "build/keep.txt") [go "build"] [go "build/keep.txt"] = false.
Proof.
  destruct (reincluded_file_skipped (go "build") (go "keep.txt") eq_refl eq_refl ltac:(done)) as [Hs Hi].
  split; [exact Hs |]. apply Hi. by_decide.
Defined.
End IgnoreWitness.
