(* ===== verification/PipeFile.v ===== *)
(** PipeFile: backing up one file ([simple/pipeline.go] from [resolveFileStatus]
    on, and [hashFileWithCDC] of [simple/chunk_cdc.go]).

    The source tree is an environment that changes while it is read: [open_file]
    is what the n-th [os.Open] of the run finds at a path, a failure or a file
    whose two successive readings may differ.  The state is the store, the
    answers of [ctx.Err()] and [ctx.Done()], the number of opens and the random
    bytes.  The CDC splitter is the third-party [restic/chunker], the parameter
    [Chunker].  Buffers that are only reused memory are dropped, the largest
    read they allow is kept.  [processFile] never returns a [nil] entry without
    an error, so its result is an entry or an error. *)

From S2P Require Import Prelude GoStr Externs Compress Crypto Stream FS BlobStore Blob Manifest RestorePath SecureDir Restore.
From stdpp Require Import base list gmap strings.
From Stdlib.Strings Require Import Byte.
Local Open Scope Z_scope.

(** ** The environment and the third-party splitter *)

Inductive opened :=
| OpenErr (errno : Z)
| OpenFile (first : reader) (seek : bool) (again : reader).

Class SourceFS := open_file : bytes -> nat -> opened.

(** The text of [syscall.Errno.Error]. *)
Class Strerror := strerror : Z -> bytes.

(** [chunker.NewWithBoundaries(r, pol, min, max)] with 22 average bits: the
    chunks [Next] delivers, and whether it then fails instead of ending. *)
Class Chunker := cdc_chunks : Z -> reader -> list bytes * bool.

(** What the chunker documents: the chunks are the stream cut into pieces of at
    most the maximal size, and a read error is reported. *)
Class ChunkerSpec (C : Chunker) : Prop := {
  cdc_concat pol d : mjoin (cdc_chunks pol (Reader d false)).1 = d;
  cdc_sizes pol r : Forall (fun q => 0 < blen q <= cdcMaxSize) (cdc_chunks pol r).1;
  cdc_fails pol r : (cdc_chunks pol r).2 = rd_fails r
}.

(** A store that answers a batch of existence checks in one call. *)
Class BatchExistencer (S : Type) := exists_batch : option (list bytes -> eff S store_err (gset bytes)).

Definition inMemoryChunkThreshold : Z := 32 * 2 ^ 20.

Record scanEntry := MkScan { se_relPath : bytes; se_absPath : bytes; se_size : Z; se_mtime : bytes; se_mode : Z }.

Inductive ferr :=
| FExists (e : store_err) | FOpen (errno : Z) | FCancelled | FRead | FSeek | FMustStream
| FGcm (e : cerr) | FChunk | FTruncated | FReadChunk | FModified | FPut (e : store_err).

(** The pipeline's fields these methods use. *)
Record pipe := Pipe {
  pp_enc : Encryptor;
  pp_comp : option Zstd.ZstdCompressor;
  pp_env : bytes;            (* the environment variable GINKGO_CDC *)
  pp_disableCDC : bool;
  pp_pol : Z;
  pp_globalPol : Z
}.

Definition cdcEnabled (p : pipe) : bool :=
  if eqs (pp_env p) (go "0") then false
  else if eqs (pp_env p) (go "1") then true
  else negb (pp_disableCDC p).

(** [resolveFileStatus]: status, new, changed. *)
Definition resolveFileStatus (hasPrev : bool) (contentHash prevHash : bytes) : bytes * bool * bool :=
  let isNew := negb hasPrev in
  let isChanged := hasPrev && negb (eqs contentHash prevHash) in
  let status := if isChanged then FileStatusChanged
                else if hasPrev && eqs contentHash prevHash then FileStatusUnchanged
                else FileStatusNew in
  (status, isNew, isChanged).

Definition makeFileEntry (fe : scanEntry) (contentHash status : bytes) : FileEntry :=
  MkFileEntry (se_relPath fe) contentHash (se_size fe) (se_mtime fe) (se_mode fe) status [].

Definition set_chunks (e : FileEntry) (cs : list ChunkRef) : FileEntry :=
  MkFileEntry (f_Name e) (f_ContentHash e) (f_Size e) (f_Mtime e) (f_Mode e) (f_Status e) cs.

(** [isFileLockedError]: [pathErr] is the [*os.PathError] in the chain, if any,
    with its [syscall.Errno], if it is one; [text] is [err.Error()]. *)
Definition isFileLockedError (pathErr : option (option Z)) (text : bytes) : bool :=
  let by_text :=
    let msg := ToLower text in
    Contains msg (go "being used by another process") || Contains msg (go "sharing violation")
    || Contains msg (go "text file is busy") in
  match pathErr with
  | Some None => false
  | Some (Some errno) => if (errno =? 32) || (errno =? 33) then true else by_text
  | None => by_text
  end.

(** The hash and the size of a chunk. *)
Definition chunk_ref `{Sha256} (d : bytes) : ChunkRef := MkChunkRef (SHA256Bytes d) (blen d).

(** The hash pass: the bytes hashed, the chunks, and their bytes when they are
    retained. *)
Record hashPass := HashPass { hp_data : bytes; hp_refs : list ChunkRef; hp_kept : list bytes }.

Definition hp_add `{Sha256} (keep : bool) (d : bytes) (h : hashPass) : hashPass :=
  HashPass (hp_data h ++ d) (hp_refs h ++ [chunk_ref d]) (if keep then hp_kept h ++ [d] else hp_kept h).

Definition outcome : Type := FileEntry * Z * bool * bool.

Section Ops.
Context `{AE : AEAD, ZS : Zstd, SH : Sha256} `{SF : SourceFS} `{SE : Strerror} `{CK : Chunker}.
Context {S : Type} `{B : BlobStore S} `{BE : BatchExistencer S}.

Record pst := PS { p_store : S; p_ctx : list bool; p_opens : nat; p_ent : bytes }.

Definition at_store {E A} (m : eff S E A) : eff pst E A :=
  zoom p_store (fun s t => PS s (p_ctx t) (p_opens t) (p_ent t)) m.

(** Is the context cancelled now? *)
Definition stopped : eff pst ferr bool :=
  fun t => match p_ctx t with
           | [] => (Ok false, t)
           | b :: l => (Ok b, PS (p_store t) l (p_opens t) (p_ent t))
           end.

Definition Open (path : bytes) : eff pst ferr opened :=
  fun t => (Ok (open_file path (p_opens t)), PS (p_store t) (p_ctx t) (Datatypes.S (p_opens t)) (p_ent t)).

(** Draw from the random bytes. *)
Definition random {A} (f : bytes -> result cerr (A * bytes)) : eff pst ferr A :=
  fun t => match f (p_ent t) with
           | Ok (a, ent') => (Ok a, PS (p_store t) (p_ctx t) (p_opens t) ent')
           | Err e => (Err (FGcm e), t)
           end.

Definition lift {A} (r : result ferr A) : eff pst ferr A :=
  match r with Ok a => mret a | Err e => throw e end.

(** ** Opening *)

Definition open_text (path : bytes) (errno : Z) : bytes := go "open " ++ path ++ go ": " ++ strerror errno.

(** One attempt and [n] more; each but the last is followed by a pause that the
    context may cut short. *)
Fixpoint open_retry (n : nat) (path : bytes) : eff pst ferr (reader * bool * reader) :=
  o ← Open path;
  match o with
  | OpenFile a seek b => mret (a, seek, b)
  | OpenErr errno =>
      if negb (isFileLockedError (Some (Some errno)) (open_text path errno)) then throw (FOpen errno)
      else
        match n with
        | O => throw (FOpen errno)
        | Datatypes.S n' =>
            c ← stopped;
            if (c : bool) then throw FCancelled else open_retry n' path
        end
  end.

Definition openFileWithRetry (path : bytes) : eff pst ferr (reader * bool * reader) := open_retry 3 path.

(** ** Existence checks *)

Fixpoint exists_each (hs : list bytes) : eff pst ferr (gset bytes) :=
  match hs with
  | [] => mret ∅
  | h :: rest =>
      r ← attempt (at_store (bs_Exists h));
      match r with
      | Err (ErrPermissionDenied e) => throw (FExists (ErrPermissionDenied e))
      | Err _ => exists_each rest
      | Ok b => found ← exists_each rest; mret (if (b : bool) then {[h]} ∪ found else found)
      end
  end.

(** [blobsExist]: the hashes that are mapped to true. *)
Definition blobsExist (hashes : list bytes) : eff pst ferr (gset bytes) :=
  let us := uniq ∅ hashes in
  match hashes with
  | [] => mret ∅
  | _ =>
      match exists_batch with
      | None => exists_each us
      | Some batch =>
          r ← attempt (at_store (batch us));
          match r with
          | Ok found => mret (filter (fun h => h ∈ found) (list_to_set us))
          | Err (ErrPermissionDenied e) => throw (FExists (ErrPermissionDenied e))
          | Err _ => exists_each us
          end
      end
  end.

(** [tryUnchangedEntry]: [None] when a referenced blob is missing. *)
Definition tryUnchangedEntry (fe : scanEntry) (prevFile : FileEntry) (contentHash : bytes) : eff pst ferr (option FileEntry) :=
  let hashes := match f_Chunks prevFile with [] => [contentHash] | cs => c_Hash <$> cs end in
  presence ← blobsExist hashes;
  if forallb (fun h => bool_decide (h ∈ presence)) hashes then
    let entry := makeFileEntry fe contentHash FileStatusUnchanged in
    mret (Some (match f_Chunks prevFile with [] => entry | cs => set_chunks entry cs end))
  else mret None.

(** ** Small files *)

(** [getGCM]: whether there is a cipher. *)
Definition getGCM (p : pipe) : result ferr bool :=
  if blen (ekey (pp_enc p)) =? 0 then Ok false
  else match newGCM (ekey (pp_enc p)) with Ok _ => Ok true | Err e => Err (FGcm e) end.

(** What is sealed for [data]: from 64 KiB on the compressed form if it is
    smaller. *)
Definition packed (p : pipe) (path data : bytes) : bytes :=
  match pp_comp p with
  | Some c =>
      if (65536 <=? blen data) && negb (isLikelyIncompressible path) then
        let z := Zstd.Compress c data in
        if blen z <? blen data then z else data
      else data
  | None => data
  end.

Definition hashOnlyFile (p : pipe) (path : bytes) (size : Z) : eff pst ferr (bytes * bytes) :=
  '(a, seek, b) ← openFileWithRetry path;
  if rd_fails a then throw FRead
  else
    let contentHash := SHA256Bytes (rd_data a) in
    if negb seek then throw FSeek
    else if size <? echunkSize (pp_enc p) then
      if rd_fails b then throw FRead else mret (contentHash, rd_data b)
    else throw FMustStream.

Definition hashAndEncryptFile (p : pipe) (path : bytes) (size : Z) : eff pst ferr (bytes * bytes) :=
  if blen (ekey (pp_enc p)) =? 0 then hashOnlyFile p path size
  else
    '(a, _, _) ← openFileWithRetry path;
    if size <? echunkSize (pp_enc p) then
      if rd_fails a then throw FRead
      else
        let contentHash := SHA256Bytes (rd_data a) in
        _ ← lift (getGCM p);
        blob ← random (encryptSmall (pp_enc p) (packed p path (rd_data a)));
        mret (contentHash, blob)
    else throw FMustStream.

(** The existence check that [checkAndUploadBlob] makes: an error other than a
    refused permission counts as missing. *)
Definition probe (h : bytes) : eff pst ferr bool :=
  r ← attempt (at_store (bs_Exists h));
  match r with
  | Ok b => mret b
  | Err (ErrPermissionDenied e) => throw (FExists (ErrPermissionDenied e))
  | Err _ => mret false
  end.

Definition checkAndUploadBlob (fe : scanEntry) (hasPrev : bool) (prevHash contentHash ciphertext : bytes)
    (prevChunks : list ChunkRef) : eff pst ferr outcome :=
  same ← (if hasPrev && eqs prevHash contentHash then probe contentHash else mret false);
  if (same : bool) then
    let entry := makeFileEntry fe contentHash FileStatusUnchanged in
    mret (match prevChunks with [] => entry | cs => set_chunks entry cs end, 0, false, false)
  else
    let '(status, isNew, isChanged) := resolveFileStatus hasPrev contentHash prevHash in
    found ← probe contentHash;
    if (found : bool) then mret (makeFileEntry fe contentHash status, 0, isChanged, isNew)
    else
      _ ← wrap_err FPut (at_store (bs_Put contentHash ciphertext));
      mret (makeFileEntry fe contentHash status, se_size fe, isChanged, isNew).

(** ** Chunked files *)

(** The loop of [hashFileWithChunks]; each iteration reads at least a byte, so
    one more than the bytes there are is enough fuel. *)
Fixpoint fixed_loop (fuel : nat) (cs : Z) (retain : bool) (remaining : Z) (r : reader) (acc : hashPass)
  : eff pst ferr hashPass :=
  match fuel with
  | O => mret acc
  | Datatypes.S fuel' =>
      if remaining <=? 0 then mret acc
      else
        c ← stopped;
        if (c : bool) then throw FCancelled
        else
          let '(d, err, r') := read_full (Z.min remaining cs) r in
          match err with
          | Some RdErr => throw FRead
          | _ =>
              if blen d =? 0 then mret acc
              else fixed_loop fuel' cs retain (remaining - blen d) r' (hp_add retain d acc)
          end
  end.

Definition hashFileWithChunks (p : pipe) (path : bytes) (size : Z) (retain : bool) : eff pst ferr hashPass :=
  '(a, _, _) ← openFileWithRetry path;
  fixed_loop (Datatypes.S (length (rd_data a))) (echunkSize (pp_enc p)) retain size a (HashPass [] [] []).

(** The loop of [hashFileWithCDC] over what the chunker delivers; [kept] counts
    the retained bytes. *)
Fixpoint cdc_loop (qs : list bytes) (fails retain : bool) (kept : Z) (acc : hashPass) : eff pst ferr hashPass :=
  c ← stopped;
  if (c : bool) then throw FCancelled
  else
    match qs with
    | [] => if fails then throw FChunk else mret acc
    | d :: rest =>
        if retain then
          if inMemoryChunkThreshold <? kept + blen d then
            let acc' := hp_add false d acc in
            cdc_loop rest fails false kept (HashPass (hp_data acc') (hp_refs acc') [])
          else cdc_loop rest fails true (kept + blen d) (hp_add true d acc)
        else cdc_loop rest fails false kept (hp_add false d acc)
    end.

Definition hashFileWithCDC (p : pipe) (path : bytes) (size : Z) (retain : bool) : eff pst ferr hashPass :=
  '(a, _, _) ← openFileWithRetry path;
  let pol := if pp_pol p =? 0 then pp_globalPol p else pp_pol p in
  let '(qs, fails) := cdc_chunks pol a in
  cdc_loop qs fails retain 0 (HashPass [] [] []).

(** One chunk that is not there yet: compress, seal, put. *)
Definition put_chunk (p : pipe) (path : bytes) (cipher : bool) (c : ChunkRef) (d : bytes) : eff pst ferr unit :=
  let toStore := packed p path d in
  blob ← (if cipher then random (encryptSmall (pp_enc p) toStore) else mret toStore);
  wrap_err FPut (at_store (bs_Put (c_Hash c) blob)).

(** The upload loop over retained bytes. *)
Fixpoint upload_mem (p : pipe) (path : bytes) (cipher : bool) (present : gset bytes) (cds : list (ChunkRef * bytes)) (up : Z)
  : eff pst ferr Z :=
  match cds with
  | [] => mret up
  | (c, d) :: rest =>
      x ← stopped;
      if (x : bool) then throw FCancelled
      else if bool_decide (c_Hash c ∈ present) then upload_mem p path cipher present rest up
      else
        _ ← put_chunk p path cipher c d;
        upload_mem p path cipher present rest (up + blen d)
  end.

(** The upload loop that reads the file again. *)
Fixpoint upload_read (p : pipe) (path : bytes) (cipher : bool) (present : gset bytes) (buf : Z) (cs : list ChunkRef)
    (r : reader) (up : Z) : eff pst ferr Z :=
  match cs with
  | [] => mret up
  | c :: rest =>
      x ← stopped;
      if (x : bool) then throw FCancelled
      else
        let '(d, err, r') := read_full (Z.min (c_Size c) buf) r in
        match err with
        | Some ErrUnexpectedEOF => throw FTruncated
        | Some RdErr => throw FReadChunk
        | _ =>
            if blen d =? 0 then mret up
            else if bool_decide (c_Hash c ∈ present) then upload_read p path cipher present buf rest r' up
            else if negb (eqs (SHA256Bytes d) (c_Hash c)) then throw FModified
            else
              _ ← put_chunk p path cipher c d;
              upload_read p path cipher present buf rest r' (up + blen d)
        end
  end.

Definition uploadChangedChunks (p : pipe) (path : bytes) (chunks : list ChunkRef) (chunkData : list bytes)
    (prevChunks : list ChunkRef) : eff pst ferr Z :=
  present ← blobsExist (c_Hash <$> prevChunks);
  if forallb (fun c => bool_decide (c_Hash c ∈ present)) chunks then mret 0
  else if (0 <? length chunks)%nat && (length chunkData =? length chunks)%nat then
    cipher ← lift (getGCM p);
    upload_mem p path cipher present (zip chunks chunkData) 0
  else
    '(a, _, _) ← openFileWithRetry path;
    cipher ← lift (getGCM p);
    let cs := echunkSize (pp_enc p) in
    let buf := if cdcEnabled p && (cs <? cdcMaxSize) then cdcMaxSize else cs in
    upload_read p path cipher present buf chunks a 0.

Definition processFileStreaming (p : pipe) (fe : scanEntry) (prev : option FileEntry) (skipUnchanged : bool) : eff pst ferr outcome :=
  let retain := se_size fe <=? inMemoryChunkThreshold in
  h ← (if cdcEnabled p then hashFileWithCDC p (se_absPath fe) (se_size fe) retain
       else hashFileWithChunks p (se_absPath fe) (se_size fe) retain);
  let contentHash := SHA256Bytes (hp_data h) in
  kept ← (match prev with
          | Some pf => if eqs (f_ContentHash pf) contentHash && negb skipUnchanged
                       then tryUnchangedEntry fe pf contentHash else mret None
          | None => mret None
          end);
  match kept with
  | Some entry => mret (entry, 0, false, false)
  | None =>
      let '(status, isNew, isChanged) :=
        resolveFileStatus (bool_decide (is_Some prev)) contentHash (from_option f_ContentHash [] prev) in
      uploaded ← uploadChangedChunks p (se_absPath fe) (hp_refs h) (hp_kept h) (from_option f_Chunks [] prev);
      mret (set_chunks (makeFileEntry fe contentHash status) (hp_refs h), uploaded, isChanged, isNew)
  end.

(** The previous entry looks unchanged: same time, same size, with a hash. *)
Definition fast_path (fe : scanEntry) (pf : FileEntry) : bool :=
  eqs (f_Mtime pf) (se_mtime fe) && (f_Size pf =? se_size fe) && (2 <=? blen (f_ContentHash pf)).

Definition processFile (p : pipe) (fe : scanEntry) (prevFiles : gmap bytes FileEntry) : eff pst ferr outcome :=
  let prev := prevFiles !! se_relPath fe in
  fast ← (match prev with
          | Some pf => if fast_path fe pf then r ← tryUnchangedEntry fe pf (f_ContentHash pf); mret (Some r) else mret None
          | None => mret None
          end);
  match fast with
  | Some (Some entry) => mret (entry, 0, false, false)
  | _ =>
      if echunkSize (pp_enc p) <=? se_size fe then
        processFileStreaming p fe prev (match fast with Some _ => true | None => false end)
      else
        '(contentHash, ciphertext) ← hashAndEncryptFile p (se_absPath fe) (se_size fe);
        checkAndUploadBlob fe (bool_decide (is_Some prev)) (from_option f_ContentHash [] prev) contentHash ciphertext
          (from_option f_Chunks [] prev)
  end.
End Ops.

(** * Facts *)

(** What a batch check promises. *)
Class BatchSpec (S : Type) `{SV : StoreView S} `{BE : BatchExistencer S} : Prop :=
  exists_batch_ok f hs s : exists_batch = Some f -> bs_inv s ->
    wp (f hs) (fun r s' => bs_inv s' /\ unchanged bs_blob s s' /\
      (forall found, r = Ok found -> forall h, h ∈ hs -> h ∈ found -> validateHash h = true /\ is_Some (bs_blob s h)) /\
      (bs_calm s -> bs_calm s' /\ (Forall (fun h => validateHash h = true) hs -> is_ok r = true))) s.

(** ** Cutting *)

Fixpoint cut (fuel : nat) (cs : Z) (d : bytes) : list bytes :=
  match fuel, d with
  | Datatypes.S f, _ :: _ => upto cs d :: cut f cs (from cs d)
  | _, _ => []
  end.

Lemma cut_join fuel : forall cs d, 0 < cs -> (length d <= fuel)%nat -> mjoin (cut fuel cs d) = d.
Proof.
  induction fuel as [|f IH]; intros cs [|b d] Hc Hf; try done; [cbn in Hf; lia |].
  cbn [cut]. change (mjoin (?a :: ?l)) with (a ++ mjoin l). rewrite IH; [apply upto_from | done |].
  unfold from. rewrite length_drop. cbn [length] in *. lia.
Qed.

Lemma cut_sizes fuel : forall cs d, 0 < cs -> Forall (fun q => 0 < blen q <= cs) (cut fuel cs d).
Proof.
  induction fuel as [|f IH]; intros cs [|b d] Hc; cbn [cut]; try constructor; [|by apply IH].
  unfold upto, blen. rewrite length_take. cbn [length]. lia.
Qed.

(** ** Sealing *)

Section Sealing.
Context `{AE : AEAD, ZS : Zstd, SH : Sha256} `{AES : !AEADSpec AE, ZSS : !ZstdSpec ZS, SHS : !Sha256Spec SH}.
Context (dec : Decryptor).

(** The stored form [c] gives back [q], read as a chunk or as a whole blob. *)
Definition gives (c q : bytes) : Prop :=
  decryptChunk dec (Reader c false) (SHA256Bytes q) = Ok q /\ open_blob dec (SHA256Bytes q) c = Ok q.

(** A content that its stored form gives back: not marked like a compressed
    one, and no larger than a chunk. *)
Definition plain (d : bytes) : Prop := Zstd.IsCompressed d = false /\ blen d <= cdcMaxSize.

Lemma packed_form p path d : plain d -> stored_form d (packed p path d) /\ blen (packed p path d) <= blen d.
Proof.
  intros [Hc Hl]. assert (Hraw : stored_form d d /\ blen d <= blen d) by (split; [by left | lia]).
  unfold packed. destruct (pp_comp p) as [z|]; [|done]. destruct (Z.leb_spec 65536 (blen d)); [|done]. cbn [andb].
  destruct (isLikelyIncompressible path); [done |]. cbn [negb]. destruct (Z.ltb_spec (blen (Zstd.Compress z d)) (blen d)); [|done].
  split; [|lia]. right. exists z. split; [done |]. split; [by intros -> |].
  unfold MaxDecompressedSize, cdcMaxSize in *. lia.
Qed.

(** The direct way of [decryptChunk] on a sealed small blob. *)
Lemma decryptChunk_sealed enc x ent blob ent' h : dkey dec = ekey enc -> blen x <= cdcMaxSize ->
  encryptSmall enc x ent = Ok (blob, ent') ->
  decryptChunk dec (Reader blob false) h =
    (q ← (if Zstd.IsCompressed x then
            match Zstd.Decompress defaultStreamDecompressor x with Ok d => Ok d | Err e => Err (RBlob (BDecompress e)) end
          else Ok x);
     if negb (eqs (SHA256Bytes q) h) then Err (RHash h (SHA256Bytes q)) else Ok q).
Proof.
  intros Hk Hx He. pose proof (encryptSmall_decrypt enc dec x ent blob ent' Hk He) as Hd.
  unfold encryptSmall in He. apply bind_ok_inv in He as ([] & Hg & He). apply bind_ok_inv in He as ([iv ent1] & Hiv & He).
  apply ok_pair_inv in He as [-> ->]. apply newSmallBlobIV_ok in Hiv as [Hl Hc].
  pose proof (gcm_seal_len (ekey enc) iv x Hl) as Hsl. pose proof (blen_nonneg x).
  unfold decryptChunk, readAllBounded. cbn [rd_data rd_fails].
  assert (Hlen : blen (MagicGB1 ++ iv ++ gcm_seal (ekey enc) iv x) = 32 + blen x).
  { rewrite !blen_app, Hsl, Hl. change (blen MagicGB1) with 4. unfold IVSize, Overhead. lia. }
  rewrite Hlen. unfold maxChunkBlobSize, cdcMaxSize, MagicSize, IVSize, TagSize in *.
  destruct (Z.ltb_spec (16 * 1024 * 1024 + 4 + 12 + 16 + 2 ^ 20) (32 + blen x)); [lia |]. cbn [mbind result_bind].
  rewrite Hd, Hlen, (upto_app 4), (from_app 4), bool_decide_true by done.
  assert (Hu : upto ChunkCountSize (iv ++ gcm_seal (ekey enc) iv x) = upto ChunkCountSize iv).
  { unfold upto. apply take_app_le. unfold blen in Hl. change (Z.to_nat ChunkCountSize) with 4%nat. lia. }
  rewrite Hu, Hc. cbn [negb]. rewrite !andb_true_r. destruct (4 + 12 + 16 <? 32 + blen x); [|done].
  rewrite Hk, Hg, (upto_app 12) by (by rewrite Hl).
  rewrite app_assoc, from_app by (rewrite blen_app, Hl; done). rewrite gcm_open_seal by done. done.
Qed.

Lemma sealed_opens p path d ent blob ent' : dkey dec = ekey (pp_enc p) -> plain d ->
  encryptSmall (pp_enc p) (packed p path d) ent = Ok (blob, ent') -> gives blob d.
Proof.
  intros Hk Hp He. destruct (packed_form p path d Hp) as [Hf Hl]. destruct Hp as [Hc Hd]. split.
  - assert (Hx : blen (packed p path d) <= cdcMaxSize) by lia. rewrite (decryptChunk_sealed _ _ _ _ _ _ Hk Hx He). destruct Hf as [[-> _] | (z & -> & Hne & Hm)].
    + rewrite Hc. cbn [mbind result_bind]. by rewrite eqs_refl.
    + rewrite Zstd.Compress_marked by done. change (Zstd.Compress z d) with (Zstd.Compress defaultStreamDecompressor d).
      rewrite Zstd.Decompress_Compress by done. cbn [mbind result_bind]. by rewrite eqs_refl.
  - by eapply open_blob_ok; [eapply encryptSmall_decrypt |].
Qed.

End Sealing.

(** ** What an upload needs of the store *)

Section Contract.
Context `{SH : Sha256} {S : Type} `{SV : StoreView S}.
(** [opens c q]: the stored form [c] stands for the content [q]; [P] are the
    contents the run may store. *)
Context (opens : bytes -> bytes -> Prop) (P : list bytes).

(** A blob stored under the hash of [q], if there is one, stands for [q]. *)
Definition consistent (s : S) (q : bytes) : Prop :=
  forall c, bs_blob s (SHA256Bytes q) = Some c -> opens c q.

Definition sane (s : S) : Prop := bs_inv s /\ Forall (consistent s) P.

Definition present (s : S) (h : bytes) : Prop := validateHash h = true /\ is_Some (bs_blob s h).

(** Blobs are kept, and only those of the contents [P] may differ. *)
Definition extends (s s' : S) : Prop :=
  (forall h, present s h -> present s' h) /\
  (forall h, validateHash h = true -> (h ∉ SHA256Bytes <$> P) -> bs_blob s' h = bs_blob s h).

#[export] Instance extends_preorder : PreOrder extends.
Proof.
  split; [done |]. intros x y z [H1 F1] [H2 F2]. split; [auto |]. intros h Hv Hh. by rewrite F2, F1.
Qed.

(** [d] is one of the contents, and no other collides with it. *)
Definition known (d : bytes) : Prop := d ∈ P /\ forall q, q ∈ P -> SHA256Bytes q = SHA256Bytes d -> q = d.
End Contract.

(** The contract between an upload and its store, weaker than that of
    [BlobStoreSpec]: between two operations others may have stored contents too. *)
Class UploadSpec (opens : bytes -> bytes -> Prop) (P : list bytes) (S : Type) `{SH : Sha256} `{B : BlobStore S} `{SV : StoreView S} `{BE : BatchExistencer S} : Prop := {
  up_Exists h s : sane opens P s ->
    wp (bs_Exists h) (fun r s' => sane opens P s' /\ extends P s s' /\ (r = Ok true -> present s' h) /\
      (bs_calm s -> bs_calm s' /\ (validateHash h = true -> is_ok r = true))) s;
  up_batch f hs s : exists_batch = Some f -> sane opens P s ->
    wp (f hs) (fun r s' => sane opens P s' /\ extends P s s' /\ (forall found, r = Ok found -> forall h, h ∈ hs -> h ∈ found -> present s' h) /\
      (bs_calm s -> bs_calm s' /\ (Forall (fun h => validateHash h = true) hs -> is_ok r = true))) s;
  up_Put d blob s : sane opens P s -> opens blob d -> known P d ->
    wp (bs_Put (SHA256Bytes d) blob) (fun r s' => sane opens P s' /\ extends P s s' /\ (r = Ok tt -> present s' (SHA256Bytes d)) /\
      (bs_calm s -> r = Ok tt /\ bs_calm s')) s
}.

(** A store that only this upload uses keeps it. *)
Section Alone.
Context `{SH : Sha256, SHS : !Sha256Spec SH} {S : Type} `{B : BlobStore S, SV : StoreView S, BS : !BlobStoreSpec S} `{BE : BatchExistencer S, BES : !BatchSpec S}.
Context (opens : bytes -> bytes -> Prop) (P : list bytes).

(** A store operation that leaves the blobs alone. *)
Lemma sane_unchanged s s' : sane opens P s -> bs_inv s' -> unchanged bs_blob s s' -> sane opens P s' /\ extends P s s'.
Proof.
  intros [Hi Hc] Hi' Hu. split; [split; [done |] |].
  - eapply Forall_impl; [exact Hc |]. intros q Hcq c Hb. apply Hcq. by rewrite <- (Hu _ (SHA256Bytes_valid q)).
  - split; [|intros h Hv _; by apply Hu]. intros h [Hv Hh]. split; [done |]. by rewrite (Hu h Hv).
Qed.

Lemma sane_put d blob r s s' : sane opens P s -> opens blob d -> known P d -> bs_inv s' -> put_post bs_blob (SHA256Bytes d) blob True s r s' ->
  sane opens P s' /\ extends P s s' /\ (r = Ok tt -> present s' (SHA256Bytes d)).
Proof.
  intros [Hi Hc] Ho [Hd Ha] Hi' (Hoth & Hat & Hok). split; [split; [done |] | split; [split |]].
  - apply Forall_forall. intros q Hin c Hb. destruct (decide (SHA256Bytes q = SHA256Bytes d)) as [E|E].
    + assert (q = d) as -> by (by apply Ha). destruct Hat as [Hat | (_ & _ & Hat)]; [|congruence].
      eapply Forall_forall in Hc; [|exact Hin]. apply Hc. congruence.
    + eapply Forall_forall in Hc; [|exact Hin]. apply Hc. rewrite <- (Hoth _ (SHA256Bytes_valid q) E). done.
  - intros h [Hvh Hb]. split; [done |]. destruct (decide (h = SHA256Bytes d)) as [->|E]; [|by rewrite Hoth].
    destruct Hat as [-> | (_ & _ & ->)]; [done | by eexists].
  - intros h Hvh Hh. apply Hoth; [done |]. intros ->. apply Hh, list_elem_of_fmap. by exists d.
  - intros Hr. by destruct (Hok Hr).
Qed.

#[export] Instance alone_upload : UploadSpec opens P S.
Proof.
  split.
  - intros h s Hs. eapply wp_mono; [apply bs_Exists_ok, Hs |]. intros r s' (Hi & Hu & Hr & Hc).
    destruct (sane_unchanged s s' Hs Hi Hu) as [? ?]. split_and!; try done.
    intros ->. destruct (Hr true eq_refl) as [Hv [Hb _]]. split; [done |]. rewrite (Hu h Hv). by apply Hb.
  - intros f hs s Ef Hs. eapply wp_mono; [apply (exists_batch_ok f hs s Ef), Hs |]. intros r s' (Hi & Hu & Hr & Hc).
    destruct (sane_unchanged s s' Hs Hi Hu) as [? ?]. split_and!; try done.
    intros found -> h Hin Hf. destruct (Hr found eq_refl h Hin Hf) as [Hv Hb]. split; [done |]. by rewrite (Hu h Hv).
  - intros d blob s Hs Ho Hk. eapply wp_mono; [apply bs_Put_ok, Hs |]. intros r s' (Hi & Hp & Hc).
    destruct (sane_put d blob r s s' Hs Ho Hk Hi Hp) as (? & ? & ?). split_and!; try done.
    intros Hcs. apply Hc; [done | apply SHA256Bytes_valid].
Qed.
End Alone.

(** ** Steps of a run *)

Section Facts.
Context `{AE : AEAD, ZS : Zstd, SH : Sha256} `{AES : !AEADSpec AE, ZSS : !ZstdSpec ZS, SHS : !Sha256Spec SH}.
Context `{SF : SourceFS} `{SE : Strerror} `{CK : Chunker} `{CKS : !ChunkerSpec CK}.
Context {S : Type} `{B : BlobStore S, SV : StoreView S} `{BE : BatchExistencer S}.
Context (opens : bytes -> bytes -> Prop) (P : list bytes) (calm_run : Prop).
Context `{US : !UploadSpec opens P S}.

Definition has (t : @pst S) (h : bytes) : Prop := present (p_store t) h.

(** The store is [extend]ed. *)
Definition grows (t t' : @pst S) : Prop := extends P (p_store t) (p_store t').

#[export] Instance grows_preorder : PreOrder grows.
Proof. split; [intros x; by unfold grows |]. intros x y z H1 H2. unfold grows. by etrans. Qed.

Lemma grows_store t t' : p_store t' = p_store t -> grows t t'.
Proof. intros E. unfold grows. by rewrite E. Qed.

(** Nothing is about to go wrong in the store, and the context is live. *)
Definition quiet (t : @pst S) : Prop := bs_calm (p_store t) /\ p_ctx t = [].

(** The states of a run; [calm_run] is the assumption that it starts quiet. *)
Definition good (t : @pst S) : Prop :=
  bs_inv (p_store t) /\ Forall (consistent opens (p_store t)) P /\ (calm_run -> quiet t).

(** An error of the cipher or of its random source. *)
Definition is_gcm (e : ferr) : Prop := exists c, e = FGcm c.

(** What every step guarantees: the store stays good and keeps its blobs, a
    result has the property [Q], and in a calm run the only error is one of the
    cipher or its random source. *)
Definition sound (t : pst) {A} (Q : A -> pst -> Prop) (r : result ferr A) (t' : pst) : Prop :=
  good t' /\ grows t t' /\ (forall a, r = Ok a -> Q a t') /\ (calm_run -> forall e, r = Err e -> is_gcm e).

Lemma sound_ret t {A} (a : A) (Q : A -> pst -> Prop) : good t -> Q a t -> wp (mret a) (sound t Q) t.
Proof. intros Hg Ha. wp_step. split; [done |]. split; [done |]. split; [by intros b ->%ok_inv | done]. Qed.

Lemma sound_throw t {A} e (Q : A -> pst -> Prop) : good t -> (calm_run -> is_gcm e) -> wp (throw e) (sound t Q) t.
Proof. intros Hg He. wp_step. split; [done |]. split; [done |]. split; [done |]. intros Hq e' [= <-]. auto. Qed.

Lemma sound_from t t1 {A} (m : eff pst ferr A) (Q : A -> pst -> Prop) t0 : grows t t1 -> wp m (sound t1 Q) t0 -> wp m (sound t Q) t0.
Proof. intros Hgr Hm. eapply wp_mono; [exact Hm |]. intros r t' (? & ? & ? & ?). split; [done |]. split; [by etrans | done]. Qed.

Lemma sound_bind t {A C} (m : eff pst ferr A) (f : A -> eff pst ferr C) (Q1 : A -> pst -> Prop) (Q : C -> pst -> Prop) :
  wp m (sound t Q1) t -> (forall a t1, good t1 -> grows t t1 -> Q1 a t1 -> wp (f a) (sound t1 Q) t1) ->
  wp (m ≫= f) (sound t Q) t.
Proof.
  intros Hm Hf. wp_step. eapply wp_mono; [exact Hm |]. intros r t1 (Hg & Hgr & Ha & He). destruct r as [a|e]; cbn beta iota.
  - eapply sound_from; [exact Hgr |]. by apply Hf, Ha.
  - split; [done |]. split; [done |]. split; [done |]. intros H e' [= <-]. by apply He.
Qed.

Lemma sound_good t {A} (m : eff pst ferr A) (Q1 Q2 : A -> pst -> Prop) :
  wp m (sound t Q1) t -> (forall a t', good t' -> grows t t' -> Q1 a t' -> Q2 a t') -> wp m (sound t Q2) t.
Proof.
  intros Hm H. eapply wp_mono; [exact Hm |]. intros r t' (Hg & Hgr & Ha & He). split_and!; try done.
  intros a Hr. by apply H; [| |apply Ha].
Qed.

Lemma sound_mono t {A} (m : eff pst ferr A) (Q1 Q2 : A -> pst -> Prop) :
  wp m (sound t Q1) t -> (forall a t', grows t t' -> Q1 a t' -> Q2 a t') -> wp m (sound t Q2) t.
Proof. intros Hm H. eapply sound_good; [exact Hm | auto]. Qed.

Lemma sound_stopped t : good t -> wp stopped (sound t (fun b _ => calm_run -> b = false)) t.
Proof.
  intros Hg. unfold wp, stopped. destruct (p_ctx t) as [|b l] eqn:E; cbn.
  - split; [done |]. split; [done |]. split; [by intros a [= <-] | done].
  - assert (Hno : calm_run -> False) by (intros H; destruct Hg as (_ & _ & Hq); destruct (Hq H); congruence).
    split; [destruct Hg as (? & ? & ?); split_and!; try done; by intros H%Hno |]. split; [by apply grows_store |]. split; [|done].
    intros a _ H. by destruct (Hno H).
Qed.

(** What a store operation guarantees, for the whole state. *)
Lemma good_store t s' : good t -> sane opens P s' -> extends P (p_store t) s' -> (bs_calm (p_store t) -> bs_calm s') ->
  let t' := PS s' (p_ctx t) (p_opens t) (p_ent t) in good t' /\ grows t t'.
Proof. intros (_ & _ & Hq) [Hi Hc] He Hca t'. split; [|done]. split; [done |]. split; [done |]. intros H. destruct (Hq H). split; [by apply Hca | done]. Qed.

Lemma good_sane t : good t -> sane opens P (p_store t).
Proof. by intros (? & ? & _). Qed.

Lemma sound_exists {A} t h (k : result store_err bool -> eff pst ferr A) (Q : A -> pst -> Prop) : good t ->
  (forall r t1, good t1 -> grows t t1 -> (calm_run -> validateHash h = true -> is_ok r = true) ->
     (r = Ok true -> has t1 h) -> wp (k r) (sound t1 Q) t1) ->
  wp (r ← attempt (at_store (bs_Exists h)); k r) (sound t Q) t.
Proof.
  intros Hg Hk. wp_step. wp_step. unfold at_store. wp_step. eapply wp_mono; [apply up_Exists, good_sane, Hg |].
  intros r s' (Hs & He & Hr & Hc). destruct (good_store t s' Hg Hs He (fun H => proj1 (Hc H))) as [Hg' Hgr].
  eapply sound_from; [exact Hgr |]. apply Hk; [done | done | | done].
  intros H. destruct Hg as (_ & _ & Hq). by apply Hc, Hq.
Qed.

Lemma sound_probe t h : good t -> validateHash h = true -> wp (probe h) (sound t (fun b t' => b = true -> has t' h)) t.
Proof.
  intros Hg Hv. unfold probe. apply sound_exists; [done |]. intros r t1 Hg1 Hgr Hq Hr. destruct r as [b|e].
  - apply sound_ret; [done |]. intros ->. by apply Hr.
  - destruct e; try (by apply sound_ret). apply sound_throw; [done |]. intros H. by specialize (Hq H Hv).
Qed.

Definition valid (hs : list bytes) : Prop := Forall (fun h => validateHash h = true) hs.

Definition found_ok (hs : list bytes) (found : gset bytes) (t : pst) : Prop := forall h, h ∈ found -> h ∈ hs /\ has t h.

Lemma sound_exists_each hs : forall t, good t -> valid hs -> wp (exists_each hs) (sound t (found_ok hs)) t.
Proof.
  induction hs as [|h hs IH]; intros t Hg Hv; cbn [exists_each]; [apply sound_ret; [done | by intros h ?%elem_of_empty] |].
  apply Forall_cons in Hv as [Hh Hv]. apply sound_exists; [done |]. intros r t1 Hg1 Hgr Hq Hr.
  assert (Hsub : forall found t', found_ok hs found t' -> found_ok (h :: hs) found t').
  { intros found t' Hf k [? ?]%Hf. split; [by right | done]. }
  assert (Hskip : wp (exists_each hs) (sound t1 (found_ok (h :: hs))) t1).
  { eapply sound_mono; [by apply IH |]. intros found t' _. apply Hsub. }
  destruct r as [b|e]; [|destruct e; try exact Hskip; apply sound_throw; [done | intros H; by specialize (Hq H Hh)]].
  eapply sound_bind; [by apply IH |]. intros found t2 Hg2 Hgr2 Hf. apply sound_ret; [done |].
  destruct b; [|by apply Hsub]. intros k [->%elem_of_singleton | Hk]%elem_of_union; [|by apply (Hsub found)].
  split; [by left | by apply (proj1 Hgr2), Hr].
Qed.

Lemma sound_blobsExist hs t : good t -> valid hs -> wp (blobsExist hs) (sound t (found_ok hs)) t.
Proof.
  intros Hg Hv. unfold blobsExist. set (us := uniq ∅ hs).
  assert (Hsub : forall h, h ∈ us -> h ∈ hs) by (by intros h [? _]%elem_of_uniq).
  assert (Hvu : valid us) by (apply Forall_forall; intros h Hh; eapply Forall_forall in Hv; [exact Hv | by apply Hsub]).
  destruct hs as [|h0 hs0] eqn:Ehs; [apply sound_ret; [done | by intros h ?%elem_of_empty] |]. rewrite <- Ehs in *.
  assert (Heach : forall t1, good t1 -> wp (exists_each us) (sound t1 (found_ok hs)) t1).
  { intros t1 Hg1. eapply sound_mono; [by apply sound_exists_each |]. intros found t' _ Hf h [? ?]%Hf. split; [by apply Hsub | done]. }
  destruct exists_batch as [f|] eqn:Ef; [|by apply Heach].
  wp_step. wp_step. unfold at_store. wp_step. eapply wp_mono; [apply (up_batch f us _ Ef), good_sane, Hg |].
  intros r s' (Hs & He & Hr & Hc). destruct (good_store t s' Hg Hs He (fun H => proj1 (Hc H))) as [Hg' Hgr].
  eapply sound_from; [exact Hgr |]. destruct r as [found|e].
  - apply sound_ret; [done |]. intros h [Hin Hl]%elem_of_filter. apply elem_of_list_to_set in Hl. split; [by apply Hsub |].
    exact (Hr found eq_refl h Hl Hin).
  - destruct e; try by apply Heach. apply sound_throw; [done |]. intros H. destruct Hg as (_ & _ & Hq).
    destruct (Hc (proj1 (Hq H))) as [_ Ho]. by specialize (Ho Hvu).
Qed.

(** The hashes [tryUnchangedEntry] checks. *)
Definition checked (pf : FileEntry) (contentHash : bytes) : list bytes :=
  match f_Chunks pf with [] => [contentHash] | cs => c_Hash <$> cs end.

Definition unchanged_entry (fe : scanEntry) (pf : FileEntry) (contentHash : bytes) : FileEntry :=
  set_chunks (makeFileEntry fe contentHash FileStatusUnchanged) (f_Chunks pf).

Lemma sound_tryUnchanged fe pf ch t : good t -> valid (checked pf ch) ->
  wp (tryUnchangedEntry fe pf ch) (sound t (fun r t' => forall e, r = Some e ->
    e = unchanged_entry fe pf ch /\ Forall (has t') (checked pf ch))) t.
Proof.
  intros Hg Hv. unfold tryUnchangedEntry. fold (checked pf ch). eapply sound_bind; [by apply sound_blobsExist |].
  intros found t1 Hg1 Hgr Hf. destruct (forallb _ (checked pf ch)) eqn:Ea; [|by apply sound_ret].
  apply sound_ret; [done |]. intros e [= <-]. split; [unfold unchanged_entry; by destruct (f_Chunks pf) |].
  rewrite forallb_forall in Ea. apply Forall_forall. intros h Hh. apply Hf.
  specialize (Ea h (proj1 (list_elem_of_In _ _) Hh)). by apply bool_decide_eq_true in Ea.
Qed.

(** ** Putting *)

Lemma sound_put t d blob : good t -> opens blob d -> known P d ->
  wp (wrap_err FPut (at_store (bs_Put (SHA256Bytes d) blob))) (sound t (fun _ t' => has t' (SHA256Bytes d))) t.
Proof.
  intros Hg Ho Hk. wp_step. unfold at_store. wp_step. eapply wp_mono; [by apply up_Put; [apply good_sane | |] |].
  intros r s' (Hs & He & Hr & Hc). destruct (good_store t s' Hg Hs He (fun H => proj2 (Hc H))) as [Hg' Hgr]. split; [done |]. split; [done |]. split.
  - intros [] E. apply Hr. by destruct r as [[]|].
  - intros H e. destruct Hg as (_ & _ & Hq). by destruct (Hc (proj1 (Hq H))) as [-> _].
Qed.

Lemma sound_random t x enc : good t -> wp (random (encryptSmall enc x))
  (sound t (fun blob _ => exists e e', encryptSmall enc x e = Ok (blob, e'))) t.
Proof.
  intros Hg. unfold wp, random. destruct (encryptSmall enc x (p_ent t)) as [[blob e']|e] eqn:E; cbn.
  - split; [done |]. split; [by apply grows_store |]. split; [intros a [= <-]; eauto | done].
  - split; [done |]. split; [done |]. split; [done |]. intros _ e0 [= <-]. by eexists.
Qed.

(** ** Opening and the hash passes *)

(** Every open of [path] finds a file with content [d]. *)
Definition stable (path d : bytes) : Prop := forall n, open_file path n = OpenFile (Reader d false) true (Reader d false).

Lemma sound_open t path d : stable path d -> good t ->
  wp (openFileWithRetry path) (sound t (fun o _ => o = (Reader d false, true, Reader d false))) t.
Proof.
  intros Hst Hg. unfold openFileWithRetry. cbn [open_retry]. unfold wp, mbind, eff_bind, Open. rewrite Hst. cbn.
  split; [done |]. split; [by apply grows_store |]. split; [by intros o [= <-] | done].
Qed.

(** A finished hash pass over [d] that cut it into [qs]. *)
Definition passed (d : bytes) (qs : list bytes) (h : hashPass) : Prop :=
  hp_data h = d /\ hp_refs h = chunk_ref <$> qs /\ (hp_kept h = qs \/ hp_kept h = []).

Lemma sound_fixed fuel : forall cs retain r t acc, 0 < cs -> good t -> (length r <= fuel)%nat ->
  wp (fixed_loop (Datatypes.S fuel) cs retain (blen r) (Reader r false) acc)
     (sound t (fun h _ => h = HashPass (hp_data acc ++ r) (hp_refs acc ++ (chunk_ref <$> cut fuel cs r))
       (if retain then hp_kept acc ++ cut fuel cs r else hp_kept acc))) t.
Proof.
  assert (Hend : forall acc retain, acc = HashPass (hp_data acc ++ []) (hp_refs acc ++ (chunk_ref <$> []))
    (if (retain : bool) then hp_kept acc ++ [] else hp_kept acc)).
  { intros [a b c] retain. cbn [hp_data hp_refs hp_kept fmap list_fmap]. rewrite !app_nil_r. by destruct retain; rewrite ?app_nil_r. }
  induction fuel as [|f IH]; intros cs retain r t acc Hcs Hg Hf.
  { destruct r; [|cbn in Hf; lia]. cbn [fixed_loop cut]. change (blen [] <=? 0) with true. apply sound_ret; [done | apply Hend]. }
  destruct r as [|b r]; [cbn [fixed_loop cut]; change (blen [] <=? 0) with true; apply sound_ret; [done | apply Hend] |].
  set (l := b :: r) in *. assert (Hpos : 0 < blen l) by (unfold l, blen; cbn [length]; lia).
  cbn [fixed_loop]. destruct (Z.leb_spec (blen l) 0); [lia |]. eapply sound_bind; [by apply sound_stopped |].
  intros c t1 Hg1 Hgr Hc. destruct c; [apply sound_throw; [done | by intros Hx%Hc] |].
  assert (Hrd : read_full (Z.min (blen l) cs) (Reader l false) = (upto cs l, None, Reader (from cs l) false)).
  { unfold read_full. cbn [rd_data rd_fails]. destruct (Z.leb_spec (Z.min (blen l) cs) (blen l)); [|lia].
    destruct (Z.le_gt_cases (blen l) cs).
    - rewrite Z.min_l by done. by rewrite !upto_all, !from_all by lia.
    - by rewrite Z.min_r by lia. }
  rewrite Hrd. cbv beta iota. assert (Hu : 0 < blen (upto cs l)).
  { unfold upto, blen, l. rewrite length_take. cbn [length]. lia. }
  destruct (Z.eqb_spec (blen (upto cs l)) 0); [lia |].
  assert (Hrem : blen l - blen (upto cs l) = blen (from cs l)).
  { rewrite <- (upto_from cs l) at 1. rewrite blen_app. lia. }
  rewrite Hrem. eapply sound_mono; [apply IH; [done | done |] |].
  { unfold from. rewrite length_drop. cbn [length] in Hf. lia. }
  intros h t' _ ->. change (cut (Datatypes.S f) cs l) with (upto cs l :: cut f cs (from cs l)).
  unfold hp_add. cbn [hp_data hp_refs hp_kept]. rewrite fmap_cons, <- !app_assoc. cbn [app]. rewrite upto_from.
  destruct retain; cbn [hp_kept]; [|done]. by rewrite <- app_assoc.
Qed.

Lemma sound_cdc qs : forall retain kept acc t, good t ->
  wp (cdc_loop qs false retain kept acc) (sound t (fun h _ =>
    hp_data h = hp_data acc ++ mjoin qs /\ hp_refs h = hp_refs acc ++ (chunk_ref <$> qs) /\
    if retain then hp_kept h = hp_kept acc ++ qs \/ hp_kept h = [] else hp_kept h = hp_kept acc)) t.
Proof.
  induction qs as [|q qs IH]; intros retain kept acc t Hg; cbn [cdc_loop];
    (eapply sound_bind; [by apply sound_stopped |]); intros c t1 Hg1 Hgr Hc;
    (destruct c; [apply sound_throw; [done | by intros Hx%Hc] |]).
  { apply sound_ret; [done |]. cbn [fmap list_fmap mjoin list_join]. rewrite !app_nil_r. by destruct retain; auto. }
  change (mjoin (q :: qs)) with (q ++ mjoin qs). rewrite fmap_cons, (app_assoc (hp_data acc)).
  change (hp_refs acc ++ chunk_ref q :: (chunk_ref <$> qs)) with (hp_refs acc ++ [chunk_ref q] ++ (chunk_ref <$> qs)).
  rewrite (app_assoc (hp_refs acc)). destruct retain; [destruct (_ <? _) |].
  - eapply sound_mono; [by apply IH |]. intros h t' _ (-> & -> & ->). split_and!; [done | done | by right].
  - eapply sound_mono; [by apply IH |]. intros h t' _ (-> & -> & [-> | ->]); [|split_and!; [done | done | by right]].
    cbn [hp_add hp_data hp_refs hp_kept]. rewrite <- (app_assoc (hp_kept acc)). split_and!; [done | done | by left].
  - eapply sound_mono; [by apply IH |]. by intros h t' _ (-> & -> & ->).
Qed.

(** The pieces a chunked backup of [d] cuts. *)
Definition pieces (p : pipe) (d : bytes) : list bytes :=
  if cdcEnabled p then (cdc_chunks (if pp_pol p =? 0 then pp_globalPol p else pp_pol p) (Reader d false)).1
  else cut (length d) (echunkSize (pp_enc p)) d.

Definition read_buf (p : pipe) : Z :=
  if cdcEnabled p && (echunkSize (pp_enc p) <? cdcMaxSize) then cdcMaxSize else echunkSize (pp_enc p).

Lemma pieces_ok p d : 0 < echunkSize (pp_enc p) ->
  mjoin (pieces p d) = d /\ Forall (fun q => 0 < blen q <= read_buf p) (pieces p d).
Proof.
  intros Hcs. unfold pieces, read_buf. destruct (cdcEnabled p); cbn [andb].
  - split; [apply cdc_concat |]. eapply Forall_impl; [apply cdc_sizes |]. cbn. intros q Hq.
    destruct (Z.ltb_spec (echunkSize (pp_enc p)) cdcMaxSize); lia.
  - split; [by apply cut_join | by apply cut_sizes].
Qed.

Lemma sound_hash p path d retain t : stable path d -> 0 < echunkSize (pp_enc p) -> good t ->
  wp (if cdcEnabled p then hashFileWithCDC p path (blen d) retain else hashFileWithChunks p path (blen d) retain)
     (sound t (fun h _ => passed d (pieces p d) h)) t.
Proof.
  intros Hst Hcs Hg. unfold pieces, passed. destruct (cdcEnabled p).
  - unfold hashFileWithCDC. eapply sound_bind; [by apply sound_open |]. intros o t1 Hg1 _ ->. cbv beta iota zeta.
    set (pol := if _ =? _ then _ else _). pose proof (cdc_fails pol (Reader d false)) as Hf. pose proof (cdc_concat pol d) as Hj.
    destruct (cdc_chunks pol (Reader d false)) as [qs fails]. cbn [fst snd rd_fails] in *. subst fails.
    eapply sound_mono; [by apply sound_cdc |]. intros h t' _ (-> & -> & Hk). cbn [hp_data hp_refs hp_kept app] in *.
    split; [done |]. split; [done |]. by destruct retain; [|right].
  - unfold hashFileWithChunks. eapply sound_bind; [by apply sound_open |]. intros o t1 Hg1 _ ->. cbv beta iota. cbn [rd_data].
    eapply sound_mono; [by apply sound_fixed |]. intros h t' _ ->. cbn [hp_data hp_refs hp_kept app].
    split; [done |]. split; [done |]. by destruct retain; [left | right].
Qed.

(** ** Uploading the chunks *)

Section Upload.
Context (p : pipe) (path : bytes).
Hypothesis Hgcm : newGCM (ekey (pp_enc p)) = Ok tt.
Hypothesis Hseal : forall q blob e e', q ∈ P -> encryptSmall (pp_enc p) (packed p path q) e = Ok (blob, e') -> opens blob q.

Definition all_in (qs : list bytes) (t : pst) : Prop := Forall (fun q => has t (SHA256Bytes q)) qs.

Lemma sound_put_chunk q t : known P q -> good t ->
  wp (put_chunk p path true (chunk_ref q) q) (sound t (fun _ t' => has t' (SHA256Bytes q))) t.
Proof.
  intros Hk Hg. unfold put_chunk. eapply sound_bind; [by apply sound_random |].
  intros blob t1 Hg1 _ (e & e' & He). apply sound_put; [done | eapply Hseal; [apply Hk | exact He] | done].
Qed.

(** A chunk that is put and one that was there: the rest follows. *)
Lemma all_in_cons q qs t t' : grows t t' -> has t (SHA256Bytes q) -> all_in qs t' -> all_in (q :: qs) t'.
Proof. intros Hgr Hq Hqs. constructor; [by apply (proj1 Hgr) | done]. Qed.

Lemma sound_upload_mem present qs : forall up t, Forall (known P) qs -> good t ->
  (forall h, h ∈ present -> has t h) ->
  wp (upload_mem p path true present (zip (chunk_ref <$> qs) qs) up) (sound t (fun _ t' => all_in qs t')) t.
Proof.
  induction qs as [|q qs IH]; intros up t Ha Hg Hin; cbn [fmap list_fmap zip upload_mem]; [apply sound_ret; [done | constructor] |].
  apply Forall_cons in Ha as [Haq Ha]. eapply sound_bind; [by apply sound_stopped |].
  intros c t1 Hg1 Hgr Hc. destruct c; [apply sound_throw; [done | by intros Hx%Hc] |].
  cbn [chunk_ref c_Hash]. case_bool_decide as Hpre.
  - eapply sound_mono; [apply IH; [done | done | intros h Hh; by apply (proj1 Hgr), Hin] |].
    intros ? t' Hgr' Hall. cbn beta in Hall. eapply all_in_cons; [|by apply Hin|done]. by etrans.
  - eapply sound_bind; [by apply sound_put_chunk |]. intros x t2 Hg2 Hgr2 Hq. cbn beta in Hq.
    eapply sound_mono; [apply IH; [done | done | intros h Hh; by apply (proj1 Hgr2), (proj1 Hgr), Hin] |].
    intros ? t' Hgr' Hall. cbn beta in Hall. by eapply all_in_cons.
Qed.

(** The file read again holds exactly the chunks [qs]; the loop stops before
    the others. *)
Lemma sound_upload_read present buf rest qs : forall up t, Forall (known P) qs ->
  Forall (fun q => 0 < blen q <= buf) (qs ++ rest) -> good t -> (forall h, h ∈ present -> has t h) ->
  wp (upload_read p path true present buf (chunk_ref <$> qs ++ rest) (Reader (mjoin qs) false) up) (sound t (fun _ t' => all_in qs t')) t.
Proof.
  induction qs as [|q qs IH]; intros up t Ha Hs Hg Hin.
  { destruct rest as [|q rest]; cbn [app fmap list_fmap upload_read]; [apply sound_ret; [done | constructor] |].
    apply Forall_cons in Hs as [Hsq _]. eapply sound_bind; [by apply sound_stopped |].
    intros c t1 Hg1 Hgr Hc. destruct c; [apply sound_throw; [done | by intros Hx%Hc] |].
    cbn [chunk_ref c_Hash c_Size]. rewrite Z.min_l by lia. unfold read_full. change (blen (rd_data (Reader (mjoin []) false))) with 0.
    destruct (Z.leb_spec (blen q) 0); [lia |]. cbn. apply sound_ret; [done | constructor]. }
  cbn [app fmap list_fmap upload_read] in *. apply Forall_cons in Ha as [Haq Ha], Hs as [Hsq Hs].
  eapply sound_bind; [by apply sound_stopped |].
  intros c t1 Hg1 Hgr Hc. destruct c; [apply sound_throw; [done | by intros Hx%Hc] |].
  change (mjoin (q :: qs)) with (q ++ mjoin qs). cbn [chunk_ref c_Hash c_Size].
  rewrite Z.min_l, read_full_ok by (done || lia). cbv beta iota. destruct (Z.eqb_spec (blen q) 0); [lia |].
  case_bool_decide as Hpre.
  - eapply sound_mono; [apply IH; [done | done | done | intros h Hh; by apply (proj1 Hgr), Hin] |].
    intros ? t' Hgr' Hall. cbn beta in Hall. eapply all_in_cons; [|by apply Hin|done]. by etrans.
  - rewrite eqs_refl. cbn [negb]. eapply sound_bind; [by apply sound_put_chunk |]. intros x t2 Hg2 Hgr2 Hq. cbn beta in Hq.
    eapply sound_mono; [apply IH; [done | done | done | intros h Hh; by apply (proj1 Hgr2), (proj1 Hgr), Hin] |].
    intros ? t' Hgr' Hall. cbn beta in Hall. by eapply all_in_cons.
Qed.

Lemma getGCM_ok : getGCM p = Ok true.
Proof.
  unfold getGCM. rewrite Hgcm. destruct (Z.eqb_spec (blen (ekey (pp_enc p))) 0) as [E|]; [|done].
  unfold newGCM in Hgcm. by rewrite E in Hgcm.
Qed.

Lemma sound_getGCM t : good t -> wp (lift (getGCM p)) (sound t (fun x _ => x = true)) t.
Proof. intros Hg. rewrite getGCM_ok. by apply sound_ret. Qed.

Lemma sound_uploadChanged d h prevChunks t : stable path d -> 0 < echunkSize (pp_enc p) -> passed d (pieces p d) h ->
  Forall (known P) (pieces p d) -> valid (c_Hash <$> prevChunks) -> good t ->
  wp (uploadChangedChunks p path (hp_refs h) (hp_kept h) prevChunks) (sound t (fun _ t' => all_in (pieces p d) t')) t.
Proof.
  intros Hst Hcs (Hd & Hr & Hk) Ha Hv Hg. destruct (pieces_ok p d Hcs) as [Hj Hsz]. set (qs := pieces p d) in *.
  unfold uploadChangedChunks. eapply sound_bind; [by apply sound_blobsExist |]. intros present t1 Hg1 Hgr Hf.
  assert (Hpre : forall t', grows t1 t' -> forall x, x ∈ present -> has t' x) by (intros t' Hgr' x Hx; by apply (proj1 Hgr'), Hf).
  destruct (forallb _ (hp_refs h)) eqn:Eall.
  { apply sound_ret; [done |]. apply Forall_forall. intros q Hq. apply (Hpre t1); [done |]. rewrite forallb_forall in Eall.
    assert (Hin : chunk_ref q ∈ hp_refs h) by (rewrite Hr; by apply list_elem_of_fmap_2).
    specialize (Eall _ (proj1 (list_elem_of_In _ _) Hin)). by apply bool_decide_eq_true in Eall. }
  destruct (_ && _) eqn:Emem.
  - apply andb_true_iff in Emem as [En El]. apply Nat.ltb_lt in En. apply Nat.eqb_eq in El.
    eapply sound_bind; [by apply sound_getGCM |].
    intros c t2 Hg2 Hgr2 ->. assert (Ek : hp_kept h = qs).
    { destruct Hk as [?| Hnil]; [done |]. rewrite Hnil in El. cbn in El. lia. }
    rewrite Ek, Hr. apply sound_upload_mem; auto.
  - eapply sound_bind; [by apply sound_open |]. intros o t2 Hg2 Hgr2 ->. cbv beta iota.
    eapply sound_bind; [by apply sound_getGCM |].
    intros c t3 Hg3 Hgr3 ->. cbv zeta. fold (read_buf p). rewrite Hr, <- Hj at 1. rewrite <- (app_nil_r qs) at 1.
    apply sound_upload_read; [done | by rewrite app_nil_r | done |]. apply Hpre. by etrans.
Qed.
End Upload.

End Facts.

Section Restorable.
Context `{AE : AEAD, ZS : Zstd, SH : Sha256} `{AES : !AEADSpec AE, ZSS : !ZstdSpec ZS, SHS : !Sha256Spec SH}.
Context `{SF : SourceFS} `{SE : Strerror} `{CK : Chunker} `{CKS : !ChunkerSpec CK}.
Context {S : Type} `{B : BlobStore S, SV : StoreView S} `{BE : BatchExistencer S}.
Context (dec : Decryptor) (P : list bytes) (calm_run : Prop).
Context `{US : !UploadSpec (gives dec) P S}.

#[local] Abbreviation good := (good (S := S) (gives dec) P calm_run).
#[local] Abbreviation sound := (sound (S := S) (gives dec) P calm_run).

(** ** What the stored blobs give back *)

Lemma has_opens t q : good t -> q ∈ P -> has t (SHA256Bytes q) -> exists c, bs_blob (p_store t) (SHA256Bytes q) = Some c /\ gives dec c q.
Proof. intros (_ & Hc & _) Hq [_ [c Hb]]. exists c. split; [done |]. eapply Forall_forall in Hc; [by apply Hc | done]. Qed.

Lemma chunks_content t cs qs : good t -> Forall (fun q => q ∈ P) qs -> c_Hash <$> cs = SHA256Bytes <$> qs -> all_in qs t ->
  mapM (fun c => chunk_content dec (bs_blob (p_store t)) (c_Hash c)) cs = Some qs.
Proof.
  intros Hg. revert cs. induction qs as [|q qs IH]; intros [|c cs] HP E Hin; try done.
  apply Forall_cons in HP as [Hq HP], Hin as [Hh Hin]. cbn [fmap list_fmap] in E. injection E as Ec E.
  destruct (has_opens t q Hg Hq Hh) as (x & Hb & Ho & _). 
  assert (Hcc : chunk_content dec (bs_blob (p_store t)) (c_Hash c) = Some q).
  { unfold chunk_content. rewrite Ec, Hb. cbn [mbind option_bind]. by rewrite Ho. }
  cbn [mapM]. rewrite Hcc. cbn [mbind option_bind]. by rewrite (IH cs HP E Hin).
Qed.

(** The entry [e] describes the content [d] by contents among the known ones;
    its chunks carry their hashes and their sizes. *)
Definition describes (e : FileEntry) (d : bytes) : Prop :=
  f_ContentHash e = SHA256Bytes d /\
  match f_Chunks e with
  | [] => d ∈ P /\ f_Size e < DefaultChunkSize
  | cs => exists ps, cs = chunk_ref <$> ps /\ mjoin ps = d /\ Forall (fun q => q ∈ P) ps
  end.

Lemma refs_hashes (ps : list bytes) : c_Hash <$> (chunk_ref <$> ps) = SHA256Bytes <$> ps.
Proof. by rewrite <- list_fmap_compose. Qed.

Lemma describes_content room t e d : good t -> describes e d -> Forall (has t) (checked e (f_ContentHash e)) ->
  file_content dec room (bs_blob (p_store t)) e = Some d.
Proof.
  intros Hg [Hh Hd] Hin. unfold file_content, checked in *. destruct (f_Chunks e) as [|c cs] eqn:Ec.
  - destruct Hd as [Hd Hs]. apply Forall_cons in Hin as [Hin _]. rewrite Hh in *.
    destruct (has_opens t d Hg Hd Hin) as (x & Hb & _ & Ho). rewrite Hb. cbn [mbind option_bind].
    destruct (Z.leb_spec DefaultChunkSize (f_Size e)); [lia |]. by rewrite Ho.
  - destruct Hd as (ps & E & Hj & HP). assert (Hps : c_Hash <$> (c :: cs) = SHA256Bytes <$> ps) by (by rewrite E, refs_hashes). rewrite (chunks_content t (c :: cs) ps Hg HP Hps); [by rewrite <- Hj |].
    rewrite Hps, Forall_fmap in Hin. exact Hin.
Qed.

(** ** One file *)

(** The result of backing up [d] as [fe]: an entry with the scanned metadata
    that the restore accepts and for which the store gives back [d]. *)
Definition backed_up (room : Z) (d : bytes) (fe : scanEntry) (o : outcome) (t : pst) : Prop :=
  let e := o.1.1.1 in
  file_content dec room (bs_blob (p_store t)) e = Some d /\ IsRestorable e = true /\
  f_ContentHash e = SHA256Bytes d /\ f_Name e = se_relPath fe /\ f_Size e = se_size fe /\
  f_Mtime e = se_mtime fe /\ f_Mode e = se_mode fe /\
  describes e d /\ Forall (has t) (checked e (f_ContentHash e)).

(** It stays so while the run goes on. *)
Lemma backed_up_stays room d fe o t t' : good t' -> grows P t t' -> backed_up room d fe o t -> backed_up room d fe o t'.
Proof.
  intros Hg [Hgr _] (_ & H1 & H2 & H3 & H4 & H5 & H6 & Hd & Hh). assert (Hh' : Forall (has t') (checked (o.1.1.1) (f_ContentHash (o.1.1.1)))).
  { eapply Forall_impl; [exact Hh |]. apply Hgr. }
  split; [by apply describes_content |]. by split_and!.
Qed.

Definition whole_status (s : bytes) : Prop := s = FileStatusNew \/ s = FileStatusChanged \/ s = FileStatusUnchanged.

Lemma restorable_status fe d st cs : whole_status st -> IsRestorable (set_chunks (makeFileEntry fe (SHA256Bytes d) st) cs) = true.
Proof.
  intros Hst. unfold IsRestorable, bad_status. cbn [f_Status f_ContentHash set_chunks makeFileEntry].
  assert (Hne : eqs (SHA256Bytes d) [] = false).
  { apply eqs_false. intros E. pose proof (SHA256Bytes_valid d) as Hv. by rewrite E in Hv. }
  rewrite Hne. destruct Hst as [-> | [-> | ->]]; by vm_compute.
Qed.

Lemma backed_up_entry room d fe st cs o t : good t -> whole_status st ->
  o.1.1.1 = set_chunks (makeFileEntry fe (SHA256Bytes d) st) cs -> describes (o.1.1.1) d ->
  Forall (has t) (checked (o.1.1.1) (SHA256Bytes d)) -> backed_up room d fe o t.
Proof.
  intros Hg Hst He Hd Hin. unfold backed_up. rewrite He in *.
  split; [apply describes_content; [done | done | exact Hin] |]. split; [by apply restorable_status |]. by split_and!.
Qed.

Lemma resolve_whole a h1 h2 : whole_status (resolveFileStatus a h1 h2).1.1.
Proof. unfold resolveFileStatus, whole_status. cbn. destruct a, (eqs h1 h2); cbn; auto. Qed.

Section OneFile.
Context (p : pipe) (fe : scanEntry) (d : bytes) (room : Z).
Hypothesis Hkey : dkey dec = ekey (pp_enc p).
Hypothesis Hgcm : newGCM (ekey (pp_enc p)) = Ok tt.
Hypothesis Hcs : 0 < echunkSize (pp_enc p) <= DefaultChunkSize.
Hypothesis Hst : stable (se_absPath fe) d.
Hypothesis Hsize : se_size fe = blen d.
Hypothesis HP : Forall plain P.
Hypothesis Hfree : forall q q', q ∈ P -> q' ∈ P -> SHA256Bytes q = SHA256Bytes q' -> q = q'.
Hypothesis Hparts : Forall (fun q => q ∈ P) (if echunkSize (pp_enc p) <=? blen d then pieces p d else [d]).

(** What a previous entry of the file may look like. *)
Definition prev_ok (pf : FileEntry) : Prop :=
  valid (c_Hash <$> f_Chunks pf) /\ (se_size fe < echunkSize (pp_enc p) -> f_ContentHash pf = SHA256Bytes d -> f_Chunks pf = []) /\
  (fast_path fe pf = true \/ f_ContentHash pf = SHA256Bytes d ->
   describes (MkFileEntry (f_Name pf) (f_ContentHash pf) (se_size fe) (f_Mtime pf) (f_Mode pf) (f_Status pf) (f_Chunks pf)) d).

(** The file is backed up, and it is chunked only if it is large. *)
Definition kept (o : outcome) (t : pst) : Prop :=
  backed_up room d fe o t /\ (se_size fe < echunkSize (pp_enc p) -> f_Chunks (o.1.1.1) = []).

Lemma in_known q : q ∈ P -> known P q.
Proof. intros Hq. split; [done |]. intros q' Hq' E. by apply Hfree. Qed.

Lemma in_sealed path q blob e e' : q ∈ P -> encryptSmall (pp_enc p) (packed p path q) e = Ok (blob, e') -> gives dec blob q.
Proof. intros Hq. apply sealed_opens; [done |]. by eapply Forall_forall in HP. Qed.

Lemma sound_unchanged pf t : good t -> prev_ok pf -> fast_path fe pf = true \/ f_ContentHash pf = SHA256Bytes d ->
  wp (tryUnchangedEntry fe pf (f_ContentHash pf)) (sound t (fun r t' => forall e, r = Some e -> kept (e, 0, false, false) t')) t.
Proof.
  intros Hg (Hv & Hsm & Hd) Hor. specialize (Hd Hor) as Hdesc. destruct Hdesc as [Hh Hm]. cbn [f_ContentHash f_Chunks f_Size] in Hh, Hm.
  eapply sound_good; [apply (sound_tryUnchanged _ _ _); [done |] |].
  { unfold checked, valid. destruct (f_Chunks pf); [|done]. constructor; [rewrite Hh; apply SHA256Bytes_valid | done]. }
  intros r t' Hg' _ Hr e ->. destruct (Hr e eq_refl) as [-> Hin]. rewrite Hh in *. split; [|exact (fun Hlt => Hsm Hlt eq_refl)].
  eapply (backed_up_entry _ _ _ FileStatusUnchanged (f_Chunks pf)); [done | by do 2 right | done | | exact Hin]. by split.
Qed.

Lemma sound_small prev t : good t -> se_size fe < echunkSize (pp_enc p) -> (forall pf, prev = Some pf -> prev_ok pf) ->
  wp ('(contentHash, ciphertext) ← hashAndEncryptFile p (se_absPath fe) (se_size fe);
      checkAndUploadBlob fe (bool_decide (is_Some prev)) (from_option f_ContentHash [] prev) contentHash ciphertext
        (from_option f_Chunks [] prev)) (sound t kept) t.
Proof.
  intros Hg Hlt Hprev. assert (Hd : d ∈ P).
  { destruct (Z.leb_spec (echunkSize (pp_enc p)) (blen d)); [lia |]. by apply Forall_cons in Hparts as [? _]. }
  assert (Hpl : plain d) by (eapply Forall_forall in HP; done). pose proof (SHA256Bytes_valid d) as Hv.
  eapply (sound_bind _ _ _ _ _ _ (fun o _ => o.1 = SHA256Bytes d /\ gives dec o.2 d)).
  { unfold hashAndEncryptFile. pose proof (getGCM_ok p Hgcm) as Hg'. pose proof Hg' as Hk. unfold getGCM in Hk.
    destruct (blen (ekey (pp_enc p)) =? 0); [done |]. eapply sound_bind; [by apply sound_open |]. intros o t1 Hg1 _ ->.
    cbv beta iota. cbn [rd_fails rd_data]. destruct (Z.ltb_spec (se_size fe) (echunkSize (pp_enc p))); [|lia].
    eapply sound_bind; [by apply sound_getGCM |].
    intros c t2 Hg2 _ ->. eapply sound_bind; [by apply sound_random |]. intros blob t3 Hg3 _ (e & e' & He).
    apply sound_ret; [done |]. split; [done |]. by eapply in_sealed. }
  intros [ch blob] t1 Hg1 Hgr [E Ho]. cbn [fst snd] in E, Ho. subst ch. unfold checkAndUploadBlob.
  assert (Hdone : forall st x y z t', good t' -> whole_status st -> has t' (SHA256Bytes d) ->
    kept (makeFileEntry fe (SHA256Bytes d) st, x, y, z) t').
  { intros st x y z t' Hg' Hw Hh. split; [|done]. eapply (backed_up_entry _ _ _ st []); [done | done | done | | by constructor].
    split; [done |]. split; [done |]. cbn. lia. }
  eapply (sound_bind _ _ _ _ _ _ (fun b t' => b = true -> has t' (SHA256Bytes d) /\ from_option f_Chunks [] prev = [])).
  { destruct (bool_decide (is_Some prev) && _) eqn:Eb; [|by apply sound_ret]. assert (Hno : from_option f_Chunks [] prev = []).
    { apply andb_true_iff in Eb as [_ Eb%eqs_true]. destruct prev as [pf|]; [|done]. destruct (Hprev pf eq_refl) as (_ & Hc & _). cbn in *. by apply Hc. }
    eapply sound_good; [by apply (sound_probe _ _ _) |]. intros b t2 _ _ Hb ->. split; [by apply Hb | done]. }
  intros b t2 Hg2 _ Hb. destruct b; [destruct (Hb eq_refl) as [Hh ->]; apply sound_ret; [done |]; apply Hdone; [done | by do 2 right | done] |].
  pose proof (resolve_whole (bool_decide (is_Some prev)) (SHA256Bytes d) (from_option f_ContentHash [] prev)) as Hw.
  destruct (resolveFileStatus _ _ _) as [[status isNew] isChanged]. cbn [fst] in Hw.
  eapply sound_bind; [by apply (sound_probe _ _ _) |]. intros b t3 Hg3 _ Hb'. destruct b; [apply sound_ret; [done |]; by apply Hdone, Hb' |].
  eapply sound_bind; [apply (sound_put _ _ _); [done | exact Ho | by apply in_known] |]. intros u t4 Hg4 _ Hh.
  apply sound_ret; [done |]. by apply Hdone.
Qed.

Lemma sound_streaming prev skip t : good t -> echunkSize (pp_enc p) <= se_size fe -> (forall pf, prev = Some pf -> prev_ok pf) ->
  wp (processFileStreaming p fe prev skip) (sound t kept) t.
Proof.
  intros Hg Hle Hprev. rewrite Hsize in Hle.
  assert (Hin : Forall (fun q => q ∈ P) (pieces p d)) by (by destruct (Z.leb_spec (echunkSize (pp_enc p)) (blen d)); [|lia]).
  destruct (pieces_ok p d (proj1 Hcs)) as [Hj _].
  unfold processFileStreaming. cbv zeta. rewrite !Hsize. eapply sound_bind; [apply sound_hash; [done | lia | done] |]. intros h t1 Hg1 Hgr Hpass.
  pose proof Hpass as (-> & Hrefs & _).
  eapply (sound_bind _ _ _ _ _ _ (fun r t' => forall e, r = Some e -> kept (e, 0, false, false) t')).
  { destruct prev as [pf|]; [|by apply sound_ret]. destruct (eqs (f_ContentHash pf) _ && _) eqn:E; [|by apply sound_ret].
    apply andb_true_iff in E as [E _]. apply eqs_true in E. rewrite <- E. apply sound_unchanged; [done | by apply Hprev | by right]. }
  intros kept t2 Hg2 _ Hk. destruct kept as [e|]; [apply sound_ret; [done |]; by apply Hk |].
  pose proof (resolve_whole (bool_decide (is_Some prev)) (SHA256Bytes d) (from_option f_ContentHash [] prev)) as Hw.
  destruct (resolveFileStatus _ _ _) as [[status isNew] isChanged]. cbn [fst] in Hw.
  eapply sound_bind.
  { eapply (sound_uploadChanged _ _ _ p _ Hgcm (in_sealed _) d); [done | lia | done | | | done].
    - apply Forall_forall. intros q Hq. eapply Forall_forall in Hin; [|done]. by apply in_known.
    - destruct prev as [pf|]; [|constructor]. by destruct (Hprev pf eq_refl). }
  intros up t3 Hg3 _ Hall. apply sound_ret; [done |]. rewrite Hrefs.
  assert (Hne : exists c cs, chunk_ref <$> pieces p d = c :: cs).
  { destruct (pieces p d) as [|q qs]; [|by eexists _, _]. cbn in Hj. rewrite <- Hj, blen_nil in Hle. lia. }
  split; [|cbn; lia]. eapply (backed_up_entry _ _ _ status (chunk_ref <$> pieces p d)); [done | done | done | |].
  - split; [done |]. cbn [fst f_Chunks set_chunks]. destruct Hne as (c & cs & E). rewrite E, <- E. by exists (pieces p d).
  - unfold checked. cbn [fst f_Chunks set_chunks]. destruct Hne as (c & cs & E). rewrite E, <- E, refs_hashes, Forall_fmap. exact Hall.
Qed.

Lemma sound_processFile prevFiles t : good t -> (forall pf, prevFiles !! se_relPath fe = Some pf -> prev_ok pf) ->
  wp (processFile p fe prevFiles) (sound t kept) t.
Proof.
  intros Hg Hprev. unfold processFile. destruct (prevFiles !! se_relPath fe) as [pf|] eqn:E.
  - eapply (sound_bind _ _ _ _ _ _ (fun r t' => forall e, r = Some (Some e) -> kept (e, 0, false, false) t')).
    { destruct (fast_path fe pf) eqn:Ef; [|by apply sound_ret].
      eapply sound_bind; [apply sound_unchanged; [done | by apply Hprev | by left] |]. intros r t1 Hg1 _ Hr.
      apply sound_ret; [done |]. intros e [= ->]. by apply Hr. }
    intros fast t1 Hg1 _ Hf. destruct fast as [[e|]|]; [apply sound_ret; [done |]; by apply Hf | |];
      (destruct (Z.leb_spec (echunkSize (pp_enc p)) (se_size fe)); [by apply sound_streaming | by apply sound_small]).
  - eapply (sound_bind _ _ _ _ _ _ (fun r _ => r = None)); [by apply sound_ret |]. intros fast t1 Hg1 _ ->.
    destruct (Z.leb_spec (echunkSize (pp_enc p)) (se_size fe)); [by apply sound_streaming | by apply sound_small].
Qed.
End OneFile.

(** A backup of [fe] with content [d]: the file does not change while it is
    read; the key is an AES key; [P] holds the contents that are stored, which
    do not collide and do not start like compressed data; what the store holds
    under their hashes is theirs; and a previous entry that looks unchanged
    describes [d]. *)
Record setting (p : pipe) (fe : scanEntry) (d : bytes) (prevFiles : gmap bytes FileEntry) (t : @pst S) : Prop := {
  st_key : dkey dec = ekey (pp_enc p);
  st_gcm : newGCM (ekey (pp_enc p)) = Ok tt;
  st_cs : 0 < echunkSize (pp_enc p) <= DefaultChunkSize;
  st_file : stable (se_absPath fe) d;
  st_size : se_size fe = blen d;
  st_plain : Forall plain P;
  st_free : forall q q', q ∈ P -> q' ∈ P -> SHA256Bytes q = SHA256Bytes q' -> q = q';
  st_parts : Forall (fun q => q ∈ P) (if echunkSize (pp_enc p) <=? blen d then pieces p d else [d]);
  st_prev : forall pf, prevFiles !! se_relPath fe = Some pf -> prev_ok p fe d pf;
  st_inv : bs_inv (p_store t);
  st_consistent : Forall (consistent (gives dec) (p_store t)) P
}.
End Restorable.

Section Theorems.
Context `{AE : AEAD, ZS : Zstd, SH : Sha256} `{AES : !AEADSpec AE, ZSS : !ZstdSpec ZS, SHS : !Sha256Spec SH}.
Context `{SF : SourceFS} `{SE : Strerror} `{CK : Chunker} `{CKS : !ChunkerSpec CK}.
Context {S : Type} `{B : BlobStore S, SV : StoreView S, BS : !BlobStoreSpec S} `{BE : BatchExistencer S, BES : !BatchSpec S}.

(** C8: backing up a file makes it restorable when it does not change meanwhile,
    the key has 16, 24 or 32 bytes and the chunk size is at most 4 MiB, no piece
    of its content that is stored as a blob (the whole of a file below the chunk
    size, or a chunk) starts with the zstd magic number, no two have the same
    hash, what the store has under their hashes is theirs, and what the previous
    snapshot says of the file, if it looks unchanged, is true.  Then, whatever
    way the pipeline takes (unchanged, whole, chunked by size or content, from
    memory or read again), when it reports an entry, the entry carries the
    scanned metadata and the content hash, the restore accepts it, and the blobs
    it references are in the store and give back exactly the content.  Blobs
    that were there are kept, only the file's own can be new, and on a quiet
    store nothing but the cipher or its random source can make it fail. *)
Theorem process_file_restorable dec P p fe d prevFiles room (t : @pst S) : setting dec P p fe d prevFiles t ->
  wp (processFile p fe prevFiles) (fun r t' => bs_inv (p_store t') /\ grows P t t' /\
    (forall o, r = Ok o -> backed_up dec P room d fe o t') /\ (quiet t -> forall e, r = Err e -> is_gcm e)) t.
Proof.
  intros []. eapply wp_mono; [apply (sound_processFile dec P (quiet t) p fe d room); try done |].
  intros r t' ((Hi & _) & Hgr & Ha & He). split_and!; try done. intros o ->. by apply Ha.
Qed.

(** ** What a changing file does *)

(** The upload loop that reads the file again accepts a file cut off at
    a chunk boundary: when only the first chunks can still be read, it reports
    success and stores nothing for the others. *)
Theorem truncated_upload_accepted dec p path qs rest (t : @pst S) :
  newGCM (ekey (pp_enc p)) = Ok tt -> dkey dec = ekey (pp_enc p) -> stable path (mjoin qs) ->
  Forall (fun q => 0 < blen q <= read_buf p) (qs ++ rest) -> Forall plain qs -> Forall (known qs) qs ->
  bs_inv (p_store t) -> Forall (consistent (gives dec) (p_store t)) qs ->
  wp (uploadChangedChunks p path (chunk_ref <$> qs ++ rest) [] []) (fun r t' =>
    (quiet t -> forall e, r = Err e -> is_gcm e) /\
    forall q, q ∈ rest -> (SHA256Bytes q ∉ SHA256Bytes <$> qs) ->
      bs_blob (p_store t') (SHA256Bytes q) = bs_blob (p_store t) (SHA256Bytes q)) t.
Proof.
  intros Hgcm Hkey Hst Hsz Hpl Hkn Hi Hco.
  assert (Hg : good (gives dec) qs (quiet t) t) by done.
  assert (Hw : wp (uploadChangedChunks p path (chunk_ref <$> qs ++ rest) [] []) (sound (gives dec) qs (quiet t) t (fun _ _ => True)) t).
  { unfold uploadChangedChunks. eapply (sound_bind _ _ _ _ _ _ (fun x _ => x = ∅)); [by apply sound_ret |].
    intros present t1 Hg1 _ ->. destruct (forallb _ _) eqn:Hne.
    { apply sound_ret; done. }
    cbn [length]. rewrite length_fmap. assert (Hb : forall n, (0 <? n)%nat && (0 =? n)%nat = false) by (by intros []). rewrite Hb.
    eapply sound_bind; [by apply sound_open |]. intros o t2 Hg2 _ ->. cbv beta iota.
    eapply sound_bind; [by apply sound_getGCM |]. intros c t3 Hg3 _ ->. cbv zeta. fold (read_buf p).
    eapply sound_mono; [apply (sound_upload_read (gives dec) qs (quiet t)); [ | done | done | done | set_solver] | done].
    intros q blob e e' Hq. apply sealed_opens; [done |]. by eapply Forall_forall in Hpl. }
  eapply wp_mono; [exact Hw |]. intros r t' (_ & [_ Hfr] & _ & He). split; [done |].
  intros q _ Hq. apply Hfr; [apply SHA256Bytes_valid | done].
Qed.

Lemma wp_open path d Q (t : @pst S) : stable path d ->
  Q (Ok (Reader d false, true, Reader d false)) (PS (p_store t) (p_ctx t) (Datatypes.S (p_opens t)) (p_ent t)) ->
  wp (openFileWithRetry path) Q t.
Proof. intros Hst HQ. unfold wp, openFileWithRetry. cbn [open_retry]. unfold mbind, eff_bind, Open. by rewrite Hst. Qed.

Lemma wp_stopped Q (t : @pst S) : p_ctx t = [] -> Q (Ok false) t -> wp stopped Q t.
Proof. intros E HQ. unfold wp, stopped. by rewrite E. Qed.

Lemma wp_any {A} (m : eff (@pst S) ferr A) Q t : (forall r t', Q r t') -> wp m Q t.
Proof. intros HQ. apply HQ. Qed.

Lemma wp_any_stopped (Q : result ferr bool -> @pst S -> Prop) t : (forall b t', Q (Ok b) t') -> wp stopped Q t.
Proof. intros HQ. unfold wp, stopped. destruct (p_ctx t); apply HQ. Qed.

Lemma pieces_nil p : 0 < echunkSize (pp_enc p) -> pieces p [] = [].
Proof.
  intros Hcs. destruct (pieces_ok p [] Hcs) as [Hj Hs]. destruct (pieces p []) as [|q qs]; [done |].
  apply Forall_cons in Hs as [Hq _]. change (mjoin (q :: qs)) with (q ++ mjoin qs) in Hj. apply app_nil in Hj as [-> _].
  rewrite blen_nil in Hq. lia.
Qed.

(** The hash pass over an empty file. *)
Lemma wp_hash_empty p path size retain Q (t : @pst S) : 0 < echunkSize (pp_enc p) -> 0 < size -> stable path [] -> p_ctx t = [] ->
  Q (Ok (HashPass [] [] [])) (PS (p_store t) (p_ctx t) (Datatypes.S (p_opens t)) (p_ent t)) ->
  wp (if cdcEnabled p then hashFileWithCDC p path size retain else hashFileWithChunks p path size retain) Q t.
Proof.
  intros Hcs Hs Hst Hctx HQ. pose proof (pieces_nil p Hcs) as Hp. unfold pieces in Hp. destruct (cdcEnabled p).
  - unfold hashFileWithCDC. wp_step. apply (wp_open path []); [done |]. cbv beta iota zeta.
    set (pol := if _ =? _ then _ else _) in *. pose proof (cdc_fails pol (Reader [] false)) as Hf.
    destruct (cdc_chunks pol (Reader [] false)) as [qs fails]. cbn [fst snd rd_fails] in *. subst.
    cbn [cdc_loop]. wp_step. apply wp_stopped; [done |]. cbn beta iota. by wp_step.
  - unfold hashFileWithChunks. wp_step. apply (wp_open path []); [done |]. cbv beta iota. cbn [rd_data length fixed_loop].
    destruct (Z.leb_spec size 0); [lia |]. wp_step. apply wp_stopped; [done |]. unfold read_full. change (blen (rd_data (Reader [] false))) with 0.
    destruct (Z.leb_spec (Z.min size (echunkSize (pp_enc p))) 0); [lia |]. exact HQ.
Qed.

(** A file of at least a chunk's size that is emptied between the scan
    and the reading is recorded as restorable although nothing is stored for
    it: unless the store happens to have a blob for the empty content, the
    restore cannot find it. *)
Theorem emptied_file_unrestorable dec p fe prevFiles room (t : @pst S) :
  prevFiles !! se_relPath fe = None -> 0 < echunkSize (pp_enc p) <= se_size fe -> stable (se_absPath fe) [] ->
  p_ctx t = [] -> bs_blob (p_store t) (SHA256Bytes []) = None ->
  wp (processFile p fe prevFiles) (fun r t' => exists e, r = Ok (e, 0, false, true) /\
    IsRestorable e = true /\ file_content dec room (bs_blob (p_store t')) e = None) t.
Proof.
  intros Hprev Hcs Hst Hctx Hno. unfold processFile. rewrite Hprev. do 2 wp_step. cbn beta iota.
  destruct (Z.leb_spec (echunkSize (pp_enc p)) (se_size fe)); [|lia]. unfold processFileStreaming. cbv zeta. wp_step.
  apply wp_hash_empty; [lia | lia | done | done |]. cbn beta iota. wp_step. wp_step. cbn beta iota.
  cbn [hp_data hp_refs hp_kept from_option]. rewrite bool_decide_false by (by intros [? ?]). cbn [resolveFileStatus negb andb].
  wp_step. unfold uploadChangedChunks. wp_step. apply (wp_ret ∅). cbn beta iota. cbn [forallb]. wp_step. cbn beta iota. wp_step.
  eexists. split; [done |]. split.
  - apply restorable_status. by left.
  - unfold file_content. cbn [f_Chunks set_chunks f_ContentHash makeFileEntry p_store]. by rewrite Hno.
Qed.

(** The chunks of the CDC pass over [d] are [d] cut into pieces. *)
Lemma wp_cdc_refs qs fails : forall retain kept acc (t : @pst S),
  wp (cdc_loop qs fails retain kept acc) (fun r _ => forall h, r = Ok h -> hp_refs h = hp_refs acc ++ (chunk_ref <$> qs)) t.
Proof.
  induction qs as [|q qs IH]; intros retain kept acc t; cbn [cdc_loop]; apply wp_bind, wp_any_stopped; intros [] t'; cbn beta iota; try (by wp_step).
  - destruct fails; wp_step; [done |]. intros h ->%ok_inv. by rewrite app_nil_r.
  - rewrite fmap_cons, cons_middle, app_assoc. destruct retain; [destruct (_ <? _) |]; apply IH.
Qed.

Lemma chunk_sum_refs qs : chunk_sum (chunk_ref <$> qs) = int64 (blen (mjoin qs)).
Proof.
  unfold chunk_sum. change 0 with (int64 0). rewrite <- (Z.add_0_l (blen (mjoin qs))). generalize 0 as a.
  induction qs as [|q qs IH]; intros a; cbn [fmap list_fmap foldl]; [change (blen (mjoin [])) with 0; by rewrite Z.add_0_r |].
  change (mjoin (q :: qs)) with (q ++ mjoin qs). cbn [chunk_ref c_Size]. rewrite int64_add, IH, blen_app. f_equal. lia.
Qed.

(** A chunked file whose size changed between the scan and the reading
    makes the manifest it is added to invalid, whatever else that holds: with
    content-defined chunking the sum of the chunks is the size that was read,
    not the one that was scanned, so the whole manifest cannot be saved. *)
Theorem resized_file_invalid p fe d prevFiles (t : @pst S) :
  prevFiles !! se_relPath fe = None -> cdcEnabled p = true -> echunkSize (pp_enc p) <= se_size fe ->
  stable (se_absPath fe) d -> d <> [] -> blen d < 2 ^ 63 -> se_size fe <> blen d ->
  wp (processFile p fe prevFiles) (fun r _ => forall o, r = Ok o -> forall m, ValidateStructure (AddFile m o.1.1.1) <> Ok tt) t.
Proof.
  intros Hprev Hcdc Hle Hst Hne Hb Hsz. unfold processFile. rewrite Hprev. do 2 wp_step. cbn beta iota.
  destruct (Z.leb_spec (echunkSize (pp_enc p)) (se_size fe)); [|lia]. unfold processFileStreaming. rewrite Hcdc. cbv zeta. wp_step.
  unfold hashFileWithCDC. wp_step. apply (wp_open _ d); [done |]. cbv beta iota zeta. set (pol := if _ =? _ then _ else _).
  pose proof (cdc_concat pol d) as Hj. destruct (cdc_chunks pol (Reader d false)) as [qs fails]. cbn [fst] in Hj.
  eapply wp_mono; [apply wp_cdc_refs |]. intros r t1 Hr. destruct r as [h|]; [|done]. cbn beta iota. specialize (Hr h eq_refl). cbn [hp_refs app] in Hr.
  wp_step. wp_step. cbn beta iota. destruct (resolveFileStatus _ _ _) as [[status isNew] isChanged] eqn:Es. wp_step.
  assert (Hst' : IsRestorable (set_chunks (makeFileEntry fe (SHA256Bytes (hp_data h)) status) (hp_refs h)) = true).
  { pose proof (resolve_whole (bool_decide (is_Some (@None FileEntry))) (SHA256Bytes (hp_data h)) []) as Hw. cbn [from_option] in Es. rewrite Es in Hw.
    by apply restorable_status. }
  apply wp_any. intros [up|] t2; [|done]. cbn beta iota. wp_step.
  intros o ->%ok_inv m Hv. cbn [fst] in Hv. apply ValidateStructure_ok in Hv as [[Hl _] _].
  apply (AddFile_checked m _ Hl) in Hst'; cbn [f_Chunks f_Size set_chunks makeFileEntry] in *; rewrite Hr in *.
  - rewrite chunk_sum_refs, Hj, int64_small in Hst' by (pose proof (blen_nonneg d); lia). done.
  - by destruct qs; [subst d |].
Qed.
(** The entry carries what the scan saw, and says the file is whole. *)
Definition entry_for (fe : scanEntry) (e : FileEntry) : Prop :=
  f_Name e = se_relPath fe /\ f_Size e = se_size fe /\ f_Mtime e = se_mtime fe /\ f_Mode e = se_mode fe /\ whole_status (f_Status e).

Definition entry_post (fe : scanEntry) (r : result ferr outcome) (_ : @pst S) : Prop := forall o, r = Ok o -> entry_for fe (o.1.1.1).

Lemma wp_bind_any {A C} (m : eff (@pst S) ferr A) (f : A -> eff (@pst S) ferr C) (Q : result ferr C -> @pst S -> Prop) t :
  (forall a t', wp (f a) Q t') -> (forall e t', Q (Err e) t') -> wp (m ≫= f) Q t.
Proof. intros Hf He. apply wp_bind, wp_any. intros [a|e] t'; auto. Qed.

Lemma entry_ret fe e u c n (t : @pst S) : entry_for fe e -> wp (mret (e, u, c, n)) (entry_post fe) t.
Proof. intros He. wp_step. by intros o ->%ok_inv. Qed.

Lemma entry_made fe h st cs : whole_status st -> entry_for fe (set_chunks (makeFileEntry fe h st) cs).
Proof. done. Qed.

(** Whatever happens meanwhile, a reported entry is the scanned file's own. *)
Lemma processFile_entry p fe prevFiles (t : @pst S) : wp (processFile p fe prevFiles) (entry_post fe) t.
Proof.
  assert (Hu : whole_status FileStatusUnchanged) by (by do 2 right).
  assert (Htry : forall pf h t, wp (tryUnchangedEntry fe pf h) (fun r _ => forall e, r = Ok (Some e) -> entry_for fe e) t).
  { intros pf h t0. unfold tryUnchangedEntry. apply wp_bind, wp_any. intros [found|] t1; [|done]. cbn beta iota.
    destruct (forallb _ _); wp_step; [|done]. intros e E%ok_inv. apply (inj Some) in E. subst e. by destruct (f_Chunks pf). }
  assert (Hopt : forall pf h (g : option FileEntry -> eff (@pst S) ferr outcome) t, (forall t', wp (g None) (entry_post fe) t') ->
    (forall e t', entry_for fe e -> wp (g (Some e)) (entry_post fe) t') -> wp (tryUnchangedEntry fe pf h ≫= g) (entry_post fe) t).
  { intros pf h g t0 Hn Hs. apply wp_bind. eapply wp_mono; [apply Htry |]. intros [[e|]|] t1 He; [by apply Hs, He | apply Hn | done]. }
  assert (Hstream : forall prev skip t, wp (processFileStreaming p fe prev skip) (entry_post fe) t).
  { intros prev skip t0. unfold processFileStreaming. cbv zeta. apply wp_bind_any; [|done]. intros h t1.
    assert (Hrest : forall t', wp (let '(status, isNew, isChanged) := resolveFileStatus (bool_decide (is_Some prev)) (SHA256Bytes (hp_data h)) (from_option f_ContentHash [] prev) in
      uploaded ← uploadChangedChunks p (se_absPath fe) (hp_refs h) (hp_kept h) (from_option f_Chunks [] prev);
      mret (set_chunks (makeFileEntry fe (SHA256Bytes (hp_data h)) status) (hp_refs h), uploaded, isChanged, isNew)) (entry_post fe) t').
    { intros t'. pose proof (resolve_whole (bool_decide (is_Some prev)) (SHA256Bytes (hp_data h)) (from_option f_ContentHash [] prev)) as Hw.
      destruct (resolveFileStatus _ _ _) as [[st n] c]. apply wp_bind_any; [|done]. intros up t2. by apply entry_ret, entry_made. }
    destruct prev as [pf|]; [destruct (_ && _) |].
    - apply Hopt; [exact Hrest | intros e t' He; by apply entry_ret].
    - apply wp_bind, wp_ret. apply Hrest.
    - apply wp_bind, wp_ret. apply Hrest. }
  assert (Hsmall : forall a b c t, wp ('(contentHash, ciphertext) ← hashAndEncryptFile p (se_absPath fe) (se_size fe); checkAndUploadBlob fe a b contentHash ciphertext c) (entry_post fe) t).
  { intros a b c t0. apply wp_bind_any; [|done]. intros [h d] t1. unfold checkAndUploadBlob. apply wp_bind_any; [|done]. intros same t2.
    destruct same; [destruct c; by apply entry_ret, (entry_made fe h _ []) || by apply entry_ret, entry_made |].
    pose proof (resolve_whole a h b) as Hw. destruct (resolveFileStatus _ _ _) as [[st n] ch]. apply wp_bind_any; [|done]. intros found t3.
    destruct found; [by apply entry_ret, (entry_made fe h st []) |]. apply wp_bind_any; [|done]. intros ? t4. by apply entry_ret, (entry_made fe h st []). }
  assert (Hslow : forall prev skip t, wp (if echunkSize (pp_enc p) <=? se_size fe then processFileStreaming p fe prev skip
    else '(contentHash, ciphertext) ← hashAndEncryptFile p (se_absPath fe) (se_size fe);
      checkAndUploadBlob fe (bool_decide (is_Some prev)) (from_option f_ContentHash [] prev) contentHash ciphertext (from_option f_Chunks [] prev)) (entry_post fe) t).
  { intros prev skip t0. destruct (_ <=? _); auto. }
  unfold processFile. destruct (prevFiles !! se_relPath fe) as [pf|]; [destruct (fast_path fe pf) |].
  - apply wp_bind, wp_bind. eapply wp_mono; [apply Htry |]. intros [[e|]|] t1 He; [wp_step; by apply entry_ret, He | wp_step; apply Hslow | done].
  - apply wp_bind, wp_ret. apply Hslow.
  - apply wp_bind, wp_ret. apply Hslow.
Qed.
End Theorems.

(** ** There and back *)

Section RoundTrip.
Context `{AE : AEAD, ZS : Zstd, SH : Sha256} `{AES : !AEADSpec AE, ZSS : !ZstdSpec ZS, SHS : !Sha256Spec SH}.
Context `{SF : SourceFS} `{SE : Strerror} `{CK : Chunker} `{CKS : !ChunkerSpec CK}.
Context {S : Type} `{B : BlobStore S, SV : StoreView S, BS : !BlobStoreSpec S} `{BE : BatchExistencer S, BES : !BatchSpec S}.
Context `{WK : Walk} `{U : Uuid} `{RF : Rfc3339}.

(** The restore target: a quiet disk on which the root handle is a directory,
    the path leads through directories and its place is free or may be
    overwritten. *)
Record clear_target (cwd : bytes) (cfg : RestoreConfig) (relPath : bytes) (root : posixDir) (r : nat) (dirs : list bytes) (name : bytes)
    (rt : @rst S) : Prop := {
  ct_uuid : forall m, slash ∉ uuid_string m;
  ct_cwd : IsAbs cwd = true;
  ct_comps : safeRestoreComponents cwd (rc_TargetDir cfg) relPath = Ok (dirs ++ [name]);
  ct_env : sw_env (r_sw rt) = [];
  ct_root : exists n, pd_fd root = Some n /\ sw_fds (r_sw rt) !! n = Some r;
  ct_dir : is_dir (sw_fs (r_sw rt)) r = true;
  ct_way : forall k j, k `prefix_of` dirs -> nofollow (sw_fs (r_sw rt)) r k = Some j -> is_dir (sw_fs (r_sw rt)) j = true;
  ct_tmp : nofollow (sw_fs (r_sw rt)) r (dirs ++ [name ++ s_dot ++ uuid_string (sw_draws (r_sw rt)) ++ go ".tmp"]) = None;
  ct_free : forall j, nofollow (sw_fs (r_sw rt)) r (dirs ++ [name]) = Some j -> rc_Overwrite cfg = true /\
    exists x, sw_fs (r_sw rt) !! j = Some x /\ is_dir (sw_fs (r_sw rt)) j = false
}.

(** What is backed up can be restored: when a file that does not change
    meanwhile is backed up and an entry is reported, then restoring that entry
    from the resulting store to a clear place succeeds and puts a file with
    exactly the content, the scanned mode and the scanned time at its path. *)
Theorem backup_restore_roundtrip dec P p fe d prevFiles room (t : @pst S) : setting dec P p fe d prevFiles t ->
  wp (processFile p fe prevFiles) (fun res t' => forall o, res = Ok o ->
    forall cwd cfg root r dirs name rt, clear_target cwd cfg (se_relPath fe) root r dirs name rt ->
    r_store rt = p_store t' -> bs_calm (r_store rt) -> r_ctx rt = [] ->
    wp (restore_file cwd cfg dec room root (o.1.1.1)) (fun res' rt' => res' = Ok tt /\ exists j,
      nofollow (sw_fs (r_sw rt')) r (dirs ++ [name]) = Some j /\
      sw_fs (r_sw rt') !! j = Some (IFile d (se_mode fe) (final_time (o.1.1.1)))) rt) t.
Proof.
  intros []. eapply wp_mono; [apply (sound_processFile dec P False p fe d room); try done |].
  intros res t' ((Hi & _) & _ & Ha & _) o Ho cwd cfg root r dirs name rt [Hu Hc Hcomps He (n & Hn & Hr) Hd Hway Htmp Hfree] Hst Hcalm Hctx.
  destruct (Ha o Ho) as [(Hcont & _ & _ & Hname & _ & _ & Hmode & _) _].
  eapply wp_mono; [eapply (wp_restore_file cwd cfg dec room root (o.1.1.1) dirs name n r rt); try done; [by rewrite Hname | by rewrite Hst] |].
  intros res' rt' (_ & _ & _ & Hok). rewrite Hst in Hok. destruct (Hok ltac:(by rewrite <- Hst) Hctx d Hcont) as [-> ((j & Hj & Hf) & _)].
  split; [done |]. exists j. split; [done |]. by rewrite Hf, Hmode.
Qed.
End RoundTrip.
