(* ===== verification/PipeLocal.v ===== *)
(** PipeLocal: the local store as the store of a backup run (it has the batch
    existence check), and the theorems of [PipeFile] on concrete files. *)

From S2P Require Import Prelude GoStr Externs Compress Crypto Stream FS BlobStore LocalStore Blob BlobLocal Manifest RestorePath SecureDir Restore RestoreLocal PipeFile.
From stdpp Require Import base list gmap strings.
From Stdlib.Strings Require Import Byte.
Local Open Scope Z_scope.

#[export] Instance local_batch : BatchExistencer sys := Some ExistsBatch.

#[export] Instance local_batch_spec `{U : Uuid} : BatchSpec sys.
Proof.
  intros f hs s [= <-] Hi. eapply wp_mono; [by apply wp_ExistsBatch |]. intros r s' (Hi' & Hb & Hbad & Hok & Hc).
  split; [done |]. split; [by intros k _; apply Hb |]. split; [|done].
  intros found -> h Hin Hf. destruct (Hok found eq_refl h) as [Hh _]. destruct (Hh Hf) as [_ Hs]. split; [|done].
  destruct (validateHash h) eqn:E; [done |]. destruct Hbad as [_ Hbad]. by specialize (Hbad (ex_intro _ h (conj Hin E))).
Qed.

(** [warmStoreCache] on the local store; an error is dropped. *)
Definition warmStoreCache {E} : eff sys E unit := _ ← attempt WarmExistsCache; mret tt.

(** Warming leaves the store right for the uploads that follow. *)
Lemma warm_sane `{SH : Sha256} {E} (opens : bytes -> bytes -> Prop) (P : list bytes) s : sharded s -> sane opens P s ->
  wp (warmStoreCache (E := E)) (fun r s' => r = Ok tt /\ sane opens P s' /\ unchanged bs_blob s s') s.
Proof.
  intros Hsh [Hi Hc]. unfold warmStoreCache. do 2 wp_step. eapply wp_mono; [by apply warm_cache_exact |]. intros r s' (Hi' & Hb & _). wp_step. split; [done |].
  split; [|intros k _; apply Hb]. split; [done |]. eapply Forall_impl; [exact Hc |]. intros q Hq c. cbn. rewrite Hb. apply Hq.
Qed.

Module PipeWitness.
Import Toy CryptoWitness BlobWitness.

#[local] Instance pw_uuid : Uuid := toy_uuid.
#[local] Instance pw_strerror : Strerror := fun _ => go "input/output error".

(** A splitter that cuts pieces of at most three bytes. *)
#[local] Instance pw_chunker : Chunker := fun _ r => (cut (length (rd_data r)) 3 (rd_data r), rd_fails r).
#[local] Instance pw_chunker_spec : ChunkerSpec pw_chunker.
Proof.
  split; [intros pol d; by apply cut_join | | done]. intros pol r. eapply Forall_impl; [by apply cut_sizes |].
  cbn. unfold cdcMaxSize. lia.
Qed.

Definition notes : bytes := go "/home/u/notes.txt".
Definition gone : bytes := go "/home/u/gone.txt".

(** [notes] holds the five bytes [msg]; [gone] is empty by now. *)
#[local] Instance pw_source : SourceFS := fun path _ =>
  if eqs path notes then OpenFile (Reader msg false) true (Reader msg false)
  else OpenFile (Reader [] false) true (Reader [] false).

Definition fe0 : scanEntry := MkScan (go "notes.txt") notes (blen msg) (go "2023-11-14T22:13:20Z") 420.
Definition p0 : pipe := Pipe enc4 None [] false 7 7.
Definition pieces0 : list bytes := [upto 3 msg; from 3 msg].
Definition t0 : @pst sys := PS store0 [] 0 ent.

Lemma stable_notes : stable notes msg.
Proof. done. Qed.

Lemma consistent0 dec qs : Forall (fun q => bs_blob store0 (SHA256Bytes q) = None) qs ->
  Forall (consistent (gives dec) (p_store t0)) qs.
Proof. intros H. eapply Forall_impl; [exact H |]. intros q Hq c. cbn in *. by rewrite Hq. Qed.

Lemma setting0 : setting dec4 pieces0 p0 fe0 msg ∅ t0.
Proof.
  split; try done; try exact inv0.
  - apply Forall_forall. intros q Hq. split; [|]; (apply elem_of_cons in Hq as [-> | ->%list_elem_of_singleton]; by vm_compute).
  - intros q q' Hq Hq' E. assert (Hcase : q = q' \/ SHA256Bytes q <> SHA256Bytes q').
    { apply elem_of_cons in Hq as [-> | ->%list_elem_of_singleton], Hq' as [-> | ->%list_elem_of_singleton];
        ((by left) || (right; by_decide)). }
    by destruct Hcase.
  - by_decide.
  - apply consistent0. repeat constructor; by vm_compute.
Qed.

(** The five-byte file is chunked, stored and given back. *)
Lemma process_file_restorable_witness :
  exists o t', processFile p0 fe0 ∅ t0 = (Ok o, t') /\ backed_up dec4 pieces0 100 msg fe0 o t' /\ length (f_Chunks o.1.1.1) = 2%nat.
Proof.
  pose proof (process_file_restorable dec4 pieces0 p0 fe0 msg ∅ 100 t0 setting0) as H. unfold wp in H.
  destruct (processFile p0 fe0 ∅ t0) as [r t'] eqn:E. destruct H as (_ & _ & Hok & _).
  assert (Hr : exists o, r = Ok o /\ length (f_Chunks o.1.1.1) = 2%nat).
  { apply (f_equal fst) in E. vm_compute in E. subst r. by eexists. }
  destruct Hr as (o & -> & Hl). exists o, t'. split; [done |]. split; [by apply Hok | done].
Defined.

#[local] Instance pw_walk : Walk := {
  walk_at := fun _ _ _ => Err NOENT; walk_root := fun _ _ => Ok 1%nat; mkdir_all := fun _ _ => Err IOERR }.
#[local] Instance pw_time : Rfc3339 := fun _ => Some 1700000000000000000.

(** The disk of the restore witnesses, with the store [s]. *)
Definition rt0 (s : sys) : @rst sys := RS s (SecureWitness.w0 []) [] (MkRestoreResult 0 0 0).

Lemma target0 s : clear_target (go "/home/u") RestoreWitness.cfg0 (se_relPath fe0) SecureWitness.root 1 [] (go "notes.txt") (rt0 s).
Proof.
  split; try done.
  all: try exact SecureWitness.w_uuid_clean.
  all: try (by exists 5%nat).
  all: try (intros k j Hk; apply prefix_nil_inv in Hk as ->; by intros [= <-]).
  all: intros j Hj; by vm_compute in Hj.
Qed.

Lemma backup_restore_roundtrip_witness :
  exists o t', processFile p0 fe0 ∅ t0 = (Ok o, t') /\
    exists rt' j, restore_file (go "/home/u") RestoreWitness.cfg0 dec4 100 SecureWitness.root (o.1.1.1) (rt0 (p_store t')) = (Ok tt, rt') /\
      nofollow (sw_fs (r_sw rt')) 1 [go "notes.txt"] = Some j /\
      sw_fs (r_sw rt') !! j = Some (IFile msg 420 (final_time (o.1.1.1))).
Proof.
  pose proof (backup_restore_roundtrip dec4 pieces0 p0 fe0 msg ∅ 100 t0 setting0) as H. unfold wp at 1 in H.
  assert (E : is_ok (processFile p0 fe0 ∅ t0).1 = true) by (vm_compute; reflexivity).
  assert (Ec : w_faults (LocalStore.sw (p_store (processFile p0 fe0 ∅ t0).2)) = [] /\ w_ctx (LocalStore.sw (p_store (processFile p0 fe0 ∅ t0).2)) = []) by (vm_compute; split; reflexivity).
  destruct (processFile p0 fe0 ∅ t0) as [[o|] t']; [|discriminate E]. cbn [fst snd] in *. exists o, t'. split; [reflexivity |].
  pose proof (H o eq_refl _ _ _ _ _ _ _ (target0 (p_store t')) eq_refl Ec eq_refl) as H2. unfold wp in H2.
  destruct (restore_file _ _ _ _ _ _ _) as [r rt']. cbn [fst snd] in H2. destruct H2 as [-> (j & Hj & Hf)]. exists rt', j. split; [reflexivity |]. split; [exact Hj | exact Hf].
Defined.

(** Only the first piece of the file is still there when it is read again. *)
Lemma truncated_upload_accepted_witness :
  exists qs rest t', rest <> [] /\ uploadChangedChunks p0 notes (chunk_ref <$> qs ++ rest) [] [] t0 = (Ok (blen msg), t') /\
    forall q, q ∈ rest -> bs_blob (p_store t') (SHA256Bytes q) = None.
Proof.
  pose proof (truncated_upload_accepted dec4 p0 notes [msg] [go "lost"] t0 eq_refl eq_refl stable_notes) as H.
  specialize (H ltac:(by_decide) ltac:(by_decide)).
  assert (Hk : Forall (known [msg]) [msg]).
  { constructor; [|done]. split; [by left |]. by intros q ->%list_elem_of_singleton. }
  specialize (H Hk inv0 (consistent0 dec4 [msg] ltac:(repeat constructor; by vm_compute))). unfold wp in H.
  destruct (uploadChangedChunks p0 notes (chunk_ref <$> [msg] ++ [go "lost"]) [] [] t0) as [r t'] eqn:E.
  destruct H as [_ Hn]. cbn [snd] in Hn. exists [msg], [go "lost"], t'. split; [done |]. split.
  - rewrite E. f_equal. apply (f_equal fst) in E. vm_compute in E. by subst r.
  - intros q Hq. rewrite (Hn q Hq); [|]; apply list_elem_of_singleton in Hq as ->; [by vm_compute | by_decide].
Defined.

Definition fe_gone : scanEntry := MkScan (go "gone.txt") gone 9 (go "2023-11-14T22:13:20Z") 420.

Lemma emptied_file_unrestorable_witness :
  exists e t', processFile p0 fe_gone ∅ t0 = (Ok (e, 0, false, true), t') /\ IsRestorable e = true /\
    file_content dec4 100 (bs_blob (p_store t')) e = None.
Proof.
  pose proof (emptied_file_unrestorable dec4 p0 fe_gone ∅ 100 t0 eq_refl ltac:(by vm_compute) ltac:(done) eq_refl ltac:(by vm_compute)) as H.
  unfold wp in H. destruct (processFile p0 fe_gone ∅ t0) as [r t']. destruct H as (e & Hr & H). cbn [fst] in Hr. subst r. by exists e, t'.
Defined.

(** The scan saw nine bytes, five are read. *)
Lemma resized_file_invalid_witness :
  exists o t', processFile p0 (MkScan (go "notes.txt") notes 9 [] 420) ∅ t0 = (Ok o, t') /\
    ValidateStructure (AddFile (NewManifest [] 1 (go "c") [] [] []) o.1.1.1) <> Ok tt.
Proof.
  set (fe := MkScan (go "notes.txt") notes 9 [] 420).
  pose proof (resized_file_invalid p0 fe msg ∅ t0 eq_refl eq_refl ltac:(by vm_compute) stable_notes ltac:(done)
    ltac:(by vm_compute) ltac:(by vm_compute)) as H.
  unfold wp in H. destruct (processFile p0 fe ∅ t0) as [r t'] eqn:E.
  assert (Hr : exists o, r = Ok o).
  { apply (f_equal fst) in E. vm_compute in E. subst r. by eexists. }
  destruct Hr as [o ->]. exists o, t'. split; [done |]. by apply (H o).
Defined.
End PipeWitness.
