(* ===== verification/Interleave.v ===== *)
(** Interleave: the upload workers of a backup on one store ([processFile] of
    [simple/pipeline.go], called by several goroutines at a time).

    Each store operation is a step of its own, and between two operations of a
    worker the others may do theirs; that each operation can be taken as one
    step is what [StoreConc] is about.  A worker in the middle of [processFile]
    is given by the answers its operations have had so far: [processFile] is
    run on a [replay] of these answers, and either returns or asks for its next
    operation.  The worker's own part of the state, the random bytes it draws
    and what it finds when it opens files, is given at its start. *)

From S2P Require Import Prelude GoStr Externs Compress Crypto Stream FS BlobStore Blob Manifest RestorePath SecureDir Restore PipeFile.
From stdpp Require Import base list gmap strings relations.
From Stdlib.Strings Require Import Byte.
Local Open Scope Z_scope.

(** ** Operations and their answers *)

(** The store operations of an upload. *)
Inductive request :=
| QPut (h d : bytes)
| QExists (h : bytes)
| QBatch (hs : list bytes).

#[export] Instance request_eq_dec : EqDecision request.
Proof. solve_decision. Defined.

Inductive answer :=
| APut (r : result store_err unit)
| AExists (r : result store_err bool)
| ABatch (r : result store_err (gset bytes)).

Definition as_put (a : answer) : option (result store_err unit) := match a with APut r => Some r | _ => None end.
Definition as_exists (a : answer) : option (result store_err bool) := match a with AExists r => Some r | _ => None end.
Definition as_batch (a : answer) : option (result store_err (gset bytes)) := match a with ABatch r => Some r | _ => None end.

(** An operation that has been answered; the store right after it. *)
Record event (S : Type) := Event { ev_req : request; ev_ans : answer; ev_after : S }.
#[global] Arguments Event {S}.
#[global] Arguments ev_req {S}.
#[global] Arguments ev_ans {S}.
#[global] Arguments ev_after {S}.

(** A replay goes on, or it is at an operation that has no answer yet, or it
    is stuck: the answer is one to another operation. *)
Inductive status := Going | Asked (q : request) | Stuck.

(** The store as it was after the last answer used, the answers left, and the
    store to go on with when there are none left, if there is one. *)
Record replay (S : Type) := Replay { rp_seen : S; rp_todo : list (event S); rp_status : status; rp_live : option S }.
#[global] Arguments Replay {S}.
#[global] Arguments rp_seen {S}.
#[global] Arguments rp_todo {S}.
#[global] Arguments rp_status {S}.
#[global] Arguments rp_live {S}.

Section Ops.
Context {S : Type} `{B : BlobStore S} `{BE : BatchExistencer S}.

(** The operation on the store itself. *)
Definition perform (q : request) (s : S) : answer * S :=
  match q with
  | QPut h d => let '(r, s') := bs_Put h d s in (APut r, s')
  | QExists h => let '(r, s') := bs_Exists h s in (AExists r, s')
  | QBatch hs => match exists_batch with
                 | Some f => let '(r, s') := f hs s in (ABatch r, s')
                 | None => (ABatch (Err StoreCtx), s)
                 end
  end.
(** An operation that has no answer. *)
Definition unanswered {A} (proj : answer -> option (result store_err A)) (q : request) : eff (replay S) store_err A :=
  fun rp => match rp_live rp with
            | None => (Err StoreCtx, Replay (rp_seen rp) (rp_todo rp) (match rp_todo rp with [] => Asked q | _ => Stuck end) None)
            | Some s =>
                let '(a, s') := perform q s in
                match proj a with
                | Some r => (r, Replay s' [] Going (Some s'))
                | None => (Err StoreCtx, Replay (rp_seen rp) (rp_todo rp) Stuck (Some s))
                end
            end.

(** An operation of the replayed run. *)
Definition consult {A} (proj : answer -> option (result store_err A)) (q : request) : eff (replay S) store_err A :=
  fun rp => match rp_status rp with
            | Going =>
                match rp_todo rp with
                | [] => unanswered proj q rp
                | e :: l =>
                    match decide (ev_req e = q), proj (ev_ans e) with
                    | left _, Some r => (r, Replay (ev_after e) l Going (rp_live rp))
                    | _, _ => unanswered proj q rp
                    end
                end
            | _ => (Err StoreCtx, rp)
            end.

(** An operation that uploads do not use. *)
Definition stray {A} : eff (replay S) store_err A :=
  fun rp => (Err StoreCtx, match rp_status rp with Going => Replay (rp_seen rp) (rp_todo rp) Stuck (rp_live rp) | _ => rp end).

#[export] Instance replay_store : BlobStore (replay S) := {
  bs_Put h d := consult as_put (QPut h d);
  bs_Get h := stray;
  bs_PutStream h rd := stray;
  bs_GetStream h := stray;
  bs_Exists h := consult as_exists (QExists h);
  bs_List p := stray;
  bs_ListWithModTime p := stray;
  bs_Delete h := stray
}.

#[export] Instance replay_batch : BatchExistencer (replay S) :=
  match exists_batch (S := S) with Some _ => Some (fun hs => consult as_batch (QBatch hs)) | None => None end.

End Ops.

(** ** Workers on one store *)

Section Workers.
Context `{AE : AEAD, ZS : Zstd, SH : Sha256} `{SF : SourceFS} `{SE : Strerror} `{CK : Chunker}.
Context {S : Type} `{B : BlobStore S} `{BE : BatchExistencer S}.
Context (p : pipe) (prevFiles : gmap bytes FileEntry).

(** A call of [processFile]: its file, the store, the context and the random
    bytes at its start, and the answers so far. *)
Record task := Task {
  tk_file : scanEntry;
  tk_store : S;
  tk_ctx : list bool;
  tk_opens : nat;
  tk_ent : bytes;
  tk_history : list (event S)
}.

Definition tk_start (tk : task) : @pst (replay S) :=
  PS (Replay (tk_store tk) (tk_history tk) Going None) (tk_ctx tk) (tk_opens tk) (tk_ent tk).

(** How far the call has come. *)
Definition so_far (tk : task) : result ferr outcome * @pst (replay S) := processFile p (tk_file tk) prevFiles (tk_start tk).

Definition status_of (t : @pst (replay S)) : status := rp_status (p_store t).

Definition at_request (tk : task) : status := status_of (so_far tk).2.

(** The call has returned [r]. *)
Definition returned (tk : task) (r : result ferr outcome) : Prop := at_request tk = Going /\ (so_far tk).1 = r.

Definition answered (tk : task) (e : event S) : task :=
  Task (tk_file tk) (tk_store tk) (tk_ctx tk) (tk_opens tk) (tk_ent tk) (tk_history tk ++ [e]).

(** The store and the calls on it. *)
Record conf := Conf { cf_store : S; cf_tasks : list task }.

(** Some call does its next operation. *)
Inductive istep : conf -> conf -> Prop :=
| istep_ask s ts i tk q a s' : ts !! i = Some tk -> at_request tk = Asked q -> perform q s = (a, s') ->
    istep (Conf s ts) (Conf s' (<[i := answered tk (Event q a s')]> ts)).

(** Calls for [files] that have not done any operation. *)
Definition beginning (s : S) (files : list scanEntry) (c : conf) : Prop :=
  cf_store c = s /\ tk_file <$> cf_tasks c = files /\ Forall (fun tk => tk_store tk = s /\ tk_history tk = []) (cf_tasks c).

(** The turns of the calls as a schedule. *)
Definition turn (c : conf) (i : nat) : conf :=
  match cf_tasks c !! i with
  | Some tk =>
      match at_request tk with
      | Asked q => let '(a, s') := perform q (cf_store c) in Conf s' (<[i := answered tk (Event q a s')]> (cf_tasks c))
      | _ => c
      end
  | None => c
  end.

(** The call whose turn it is has an operation to do. *)
Definition can_move (c : conf) (i : nat) : bool :=
  match cf_tasks c !! i with Some tk => match at_request tk with Asked _ => true | _ => false end | None => false end.

Lemma turn_step c i : if can_move c i then istep c (turn c i) else turn c i = c.
Proof.
  unfold can_move, turn. destruct c as [s ts]. cbn [cf_store cf_tasks]. destruct (ts !! i) as [tk|] eqn:Ei; [|done].
  destruct (at_request tk) as [|q|] eqn:Eq; [done | | done]. destruct (perform q s) as [a s'] eqn:Ep. by econstructor.
Qed.

Lemma move_step c i : can_move c i = true -> istep c (turn c i).
Proof. pose proof (turn_step c i) as H. by destruct (can_move c i). Qed.

Lemma turns_reach turns : forall c, rtc istep c (foldl turn c turns).
Proof.
  induction turns as [|i turns IH]; intros c; cbn [foldl]; [done |]. pose proof (turn_step c i) as H. destruct (can_move c i); [by eapply rtc_l | rewrite H; apply IH].
Qed.
End Workers.
#[global] Arguments task S : clear implicits.
#[global] Arguments conf S : clear implicits.

(** * Facts *)

(** ** A replay does what was done before *)

Section Replays.
Context {S : Type} `{B : BlobStore S} `{BE : BatchExistencer S}.
Abbreviation T := (@pst (replay S)).

(** All answers are used, and each was one to the operation it was used for. *)
Definition idle (t : T) : Prop := rp_todo (p_store t) = [] /\ status_of t <> Stuck.

(** One more answer at the end. *)
Definition extended (e : event S) (t : T) : T :=
  PS (Replay (rp_seen (p_store t)) (rp_todo (p_store t) ++ [e]) (rp_status (p_store t)) (rp_live (p_store t))) (p_ctx t) (p_opens t) (p_ent t).

(** A store to go on with. *)
Definition with_live (s : S) (t : T) : T :=
  PS (Replay (rp_seen (p_store t)) (rp_todo (p_store t)) (rp_status (p_store t)) (Some s)) (p_ctx t) (p_opens t) (p_ent t).

Definition live (t : T) : option S := rp_live (p_store t).

(** The answer is one to this operation. *)
Definition fits (e : event S) : Prop :=
  match ev_req e, ev_ans e with
  | QPut _ _, APut _ | QExists _, AExists _ | QBatch _, ABatch _ => True
  | _, _ => False
  end.

(** A program does the same with the same answers: once halted it leaves the
    replay alone, it is never stuck without answers, it does not look at
    answers it does not need, it goes on with the answer it asked for, and it
    does not look at the store while it has answers. *)
Record replays {E A} (m : eff T E A) : Prop := {
  rs_halt t : status_of t <> Going -> p_store (m t).2 = p_store t;
  rs_idle t : idle t -> idle (m t).2;
  rs_dead t : live t = None -> live (m t).2 = None;
  rs_same t e : live t = None -> status_of (m t).2 = Going -> m (extended e t) = ((m t).1, extended e (m t).2);
  rs_live t s : live t = None -> status_of (m t).2 = Going -> m (with_live s t) = ((m t).1, with_live s (m t).2);
  rs_more t e q : live t = None -> status_of t = Going -> status_of (m t).2 = Asked q -> ev_req e = q -> fits e -> idle (m (extended e t)).2
}.

Lemma replays_pure {E A} (m : eff T E A) : (forall t, p_store (m t).2 = p_store t) ->
  (forall t e, m (extended e t) = ((m t).1, extended e (m t).2)) -> (forall t s, m (with_live s t) = ((m t).1, with_live s (m t).2)) -> replays m.
Proof.
  intros Hs He Hl. split.
  - intros t _. apply Hs.
  - intros t Hi. unfold idle, status_of. by rewrite Hs.
  - intros t H. unfold live. by rewrite Hs.
  - intros t e _ _. apply He.
  - intros t s _ _. apply Hl.
  - intros t e q _ Hg Ha. unfold status_of in Ha. rewrite Hs in Ha. unfold status_of in Hg. congruence.
Qed.

Lemma replays_ret {E A} (a : A) : replays (mret a : eff T E A).
Proof. by apply replays_pure. Qed.

Lemma replays_throw {E A} (e : E) : replays (throw e : eff T E A).
Proof. by apply replays_pure. Qed.

Lemma replays_lift {A} (r : result ferr A) : replays (lift (S := replay S) r).
Proof. destruct r; by apply replays_pure. Qed.

Lemma replays_stopped : replays (stopped (S := replay S)).
Proof. apply replays_pure; intros [s [|b l] n x]; done. Qed.

Lemma replays_Open `{SF : SourceFS} path : replays (Open (S := replay S) path).
Proof. by apply replays_pure. Qed.

Lemma replays_random {A} (f : bytes -> result cerr (A * bytes)) : replays (random (S := replay S) f).
Proof. apply replays_pure; intros [s l n x]; unfold random; cbn; by destruct (f x) as [[]|]. Qed.

(** Only what becomes of the result differs. *)
Lemma replays_map {E E' A A'} (g : result E A -> result E' A') (m : eff T E A) (m' : eff T E' A') :
  (forall t, m' t = (g (m t).1, (m t).2)) -> replays m -> replays m'.
Proof.
  intros H [Hh Hi Hd Hs Hl Hm]. split; intros *; rewrite ?H; cbn [fst snd]; auto.
  - intros Hn Hg. by rewrite Hs.
  - intros Hn Hg. by rewrite Hl.
  - intros. by eapply Hm.
Qed.

Lemma replays_attempt {E E' A} (m : eff T E A) : replays m -> replays (attempt (E' := E') m).
Proof. apply (replays_map Ok). intros t. unfold attempt. by destruct (m t). Qed.

Lemma replays_wrap {E E' A} (f : E -> E') (m : eff T E A) : replays m -> replays (wrap_err f m).
Proof. apply (replays_map (fun r => match r with Ok a => Ok a | Err e => Err (f e) end)). intros t. unfold wrap_err. by destruct (m t). Qed.

(** The first part of a run that goes on has gone on. *)
Lemma going_first {E A C} (m : eff T E A) (f : A -> eff T E C) t : (forall a, replays (f a)) ->
  status_of (match (m t).1 with Ok a => f a (m t).2 | Err e => (Err e, (m t).2) end).2 = Going -> status_of (m t).2 = Going.
Proof.
  intros Hf Hg. destruct (m t).1 as [a|]; [|done]. destruct (status_of (m t).2) eqn:Es; [done | |];
    (unfold status_of in Hg, Es; rewrite (rs_halt _ (Hf a)) in Hg by (unfold status_of; congruence); congruence).
Qed.

Lemma replays_bind {E A C} (m : eff T E A) (f : A -> eff T E C) : replays m -> (forall a, replays (f a)) -> replays (m ≫= f).
Proof.
  intros Hm Hf. assert (Ev : forall t, (m ≫= f) t = match (m t).1 with Ok a => f a (m t).2 | Err e => (Err e, (m t).2) end).
  { intros t. unfold mbind, eff_bind. by destruct (m t) as [[]]. }
  split; intros *; rewrite ?Ev.
  - intros Hn. pose proof (rs_halt m Hm t Hn) as E1. destruct (m t).1 as [a|]; [|done]. rewrite (rs_halt _ (Hf a)), E1; [done |]. unfold status_of. by rewrite E1.
  - intros Hi%(rs_idle m Hm). destruct (m t).1 as [a|]; [by apply (rs_idle _ (Hf a)) | done].
  - intros Hn%(rs_dead m Hm). destruct (m t).1 as [a|]; [by apply (rs_dead _ (Hf a)) | done].
  - intros Hn Hg. pose proof (going_first m f t Hf Hg) as Hg1. rewrite (rs_same m Hm t e Hn Hg1). cbn [fst snd].
    pose proof (rs_dead m Hm t Hn). destruct (m t).1 as [a|]; [by apply (rs_same _ (Hf a)) | done].
  - intros Hn Hg. pose proof (going_first m f t Hf Hg) as Hg1. rewrite (rs_live m Hm t s Hn Hg1). cbn [fst snd].
    pose proof (rs_dead m Hm t Hn). destruct (m t).1 as [a|]; [by apply (rs_live _ (Hf a)) | done].
  - intros Hn Hg Ha Hq He. pose proof (rs_dead m Hm t Hn) as Hn1. destruct (status_of (m t).2) as [|q'|] eqn:Es.
    + rewrite (rs_same m Hm t e Hn Es). cbn [fst snd]. destruct (m t).1 as [a|]; [by eapply (rs_more _ (Hf a)) | cbn in Ha; congruence].
    + assert (q' = q) as ->.
      { destruct (m t).1 as [a|]; [|cbn in Ha; congruence]. unfold status_of in Ha, Es. rewrite (rs_halt _ (Hf a)) in Ha by (unfold status_of; congruence). congruence. }
      pose proof (rs_more m Hm t e q Hn Hg Es Hq He) as Hi. destruct (m (extended e t)).1 as [a|]; [by apply (rs_idle _ (Hf a)) | done].
    + exfalso. destruct (m t).1 as [a|]; [|cbn in Ha; congruence]. unfold status_of in Ha, Es. rewrite (rs_halt _ (Hf a)) in Ha by (unfold status_of; congruence). congruence.
Qed.

Lemma perform_fits q (s : S) : fits (Event q (perform q s).1 (perform q s).2).
Proof. destruct q; unfold fits, perform; cbn; [destruct (bs_Put _ _ _) | destruct (bs_Exists _ _) | destruct exists_batch as [f|]; [destruct (f _ _) |]]; done. Qed.

Lemma replays_consult {A} (proj : answer -> option (result store_err A)) q : (forall e : event S, ev_req e = q -> fits e -> is_Some (proj (ev_ans e))) ->
  replays (at_store (S := replay S) (consult proj q)).
Proof.
  intros Hp. assert (Hpf : forall s, is_Some (proj (perform q s).1)) by (intros s; exact (Hp (Event q (perform q s).1 (perform q s).2) eq_refl (perform_fits q s))).
  split; intros [[s l st lv] c n x]; unfold at_store, zoom, consult, unanswered, status_of, extended, with_live, live, idle; cbn.
  - intros Hn. by destruct st.
  - intros [-> Hst]. unfold status_of in *. cbn in *. destruct st; [|done|done]. destruct lv as [s'|]; [|done]. destruct (Hpf s') as [r Hr]. destruct (perform q s') as [a s2]. cbn in *. by rewrite Hr.
  - intros ->. destruct st; [|done|done]. destruct l as [|e l]; [done |]. destruct (decide _); [|done]. by destruct (proj _).
  - intros e -> . destruct st; [|done|done]. destruct l as [|e0 l]; [done |]. cbn. destruct (decide (ev_req e0 = q)); [|done]. by destruct (proj (ev_ans e0)).
  - intros s2 ->. destruct st; [|done|done]. destruct l as [|e0 l]; [done |]. cbn. destruct (decide (ev_req e0 = q)); [|done]. by destruct (proj (ev_ans e0)).
  - intros e q' -> Hg. unfold status_of in *. cbn in *. subst st. destruct l as [|e0 l]; cbn.
    + intros [= <-] He Hf. rewrite decide_True by done. destruct (Hp e He Hf) as [r ->]. done.
    + destruct (decide (ev_req e0 = q)); [|done]. by destruct (proj (ev_ans e0)).
Qed.
End Replays.

Create HintDb replay discriminated.
#[export] Hint Resolve replays_ret replays_throw replays_lift replays_stopped replays_Open replays_random replays_attempt replays_wrap : replay.

(** Follow the program: sequencing, then the branches. *)
Ltac replay_step :=
  first
    [ progress intros
    | solve [eauto with replay]
    | match goal with
      | |- replays (mbind _ _) => apply replays_bind
      | |- replays (wrap_err _ _) => apply replays_wrap
      | |- replays (attempt _) => apply replays_attempt
      | |- replays (let '_ := ?x in _) => destruct x
      | |- replays (match ?x with _ => _ end) => destruct x
      end ].
Ltac replay := cbv zeta; repeat (replay_step; cbv beta iota zeta).

Section ReplayUpload.
Context `{AE : AEAD, ZS : Zstd, SH : Sha256} `{SF : SourceFS} `{SE : Strerror} `{CK : Chunker}.
Context {S : Type} `{B : BlobStore S} `{BE : BatchExistencer S}.
Abbreviation ST := (replay S).

Lemma replays_Exists h : replays (at_store (S := ST) (bs_Exists h)).
Proof. apply replays_consult. intros [q a s] E. cbn in *. subst. destruct a; [done | by eexists | done]. Qed.

Lemma replays_Put h d : replays (at_store (S := ST) (bs_Put h d)).
Proof. apply replays_consult. intros [q a s] E. cbn in *. subst. destruct a; [by eexists | done | done]. Qed.

Lemma replays_Batch f hs : exists_batch (S := ST) = Some f -> replays (at_store (S := ST) (f hs)).
Proof.
  unfold exists_batch, replay_batch. destruct exists_batch as [g|]; [|done]. intros [= <-]. apply replays_consult.
  intros [q a s] E. cbn in *. subst. destruct a; [done | done | by eexists].
Qed.
#[local] Hint Resolve replays_Exists replays_Put replays_Batch : replay.

Lemma replays_open_retry n path : replays (open_retry (S := ST) n path).
Proof. induction n as [|n IH]; cbn [open_retry]; replay. Qed.

Lemma replays_open path : replays (openFileWithRetry (S := ST) path).
Proof. apply replays_open_retry. Qed.
#[local] Hint Resolve replays_open : replay.

Lemma replays_exists_each hs : replays (exists_each (S := ST) hs).
Proof. induction hs as [|h hs IH]; cbn [exists_each]; replay. Qed.
#[local] Hint Resolve replays_exists_each : replay.

Lemma replays_blobsExist hs : replays (blobsExist (S := ST) hs).
Proof. unfold blobsExist. destruct exists_batch as [f|] eqn:E; replay. Qed.
#[local] Hint Resolve replays_blobsExist : replay.

Lemma replays_tryUnchanged fe pf h : replays (tryUnchangedEntry (S := ST) fe pf h).
Proof. unfold tryUnchangedEntry. replay. Qed.

Lemma replays_small_read p path size : replays (hashAndEncryptFile (S := ST) p path size).
Proof. unfold hashAndEncryptFile, hashOnlyFile. replay. Qed.

Lemma replays_probe h : replays (probe (S := ST) h).
Proof. unfold probe. replay. Qed.
#[local] Hint Resolve replays_tryUnchanged replays_small_read replays_probe : replay.

Lemma replays_checkAndUpload fe a b c d e : replays (checkAndUploadBlob (S := ST) fe a b c d e).
Proof. unfold checkAndUploadBlob. replay. Qed.

Lemma replays_fixed fuel cs retain : forall remaining r acc, replays (fixed_loop (S := ST) fuel cs retain remaining r acc).
Proof. induction fuel as [|f IH]; intros remaining r acc; cbn [fixed_loop]; replay. Qed.

Lemma replays_cdc qs fails : forall retain kept acc, replays (cdc_loop (S := ST) qs fails retain kept acc).
Proof. induction qs as [|q qs IH]; intros retain kept acc; cbn [cdc_loop]; replay. Qed.
#[local] Hint Resolve replays_checkAndUpload replays_fixed replays_cdc : replay.

Lemma replays_put_chunk p path cipher c d : replays (put_chunk (S := ST) p path cipher c d).
Proof. unfold put_chunk. replay. Qed.
#[local] Hint Resolve replays_put_chunk : replay.

Lemma replays_upload_mem p path cipher present cds : forall up, replays (upload_mem (S := ST) p path cipher present cds up).
Proof. induction cds as [|[c d] cds IH]; intros up; cbn [upload_mem]; replay. Qed.

Lemma replays_upload_read p path cipher present buf cs : forall r up, replays (upload_read (S := ST) p path cipher present buf cs r up).
Proof. induction cs as [|c cs IH]; intros r up; cbn [upload_read]; replay. Qed.
#[local] Hint Resolve replays_upload_mem replays_upload_read : replay.

Lemma replays_uploadChanged p path cs ds prev : replays (uploadChangedChunks (S := ST) p path cs ds prev).
Proof. unfold uploadChangedChunks. replay. Qed.
#[local] Hint Resolve replays_uploadChanged : replay.

Lemma replays_streaming p fe prev skip : replays (processFileStreaming (S := ST) p fe prev skip).
Proof. unfold processFileStreaming, hashFileWithCDC, hashFileWithChunks. replay. Qed.
#[local] Hint Resolve replays_streaming : replay.

Lemma replays_processFile p fe prevFiles : replays (processFile (S := ST) p fe prevFiles).
Proof. unfold processFile. replay. Qed.

(** ** No call is ever stuck *)

Section Steps.
Context (p : pipe) (prevFiles : gmap bytes FileEntry).

Lemma extended_start (tk : task S) (e : event S) : tk_start (answered tk e) = extended e (tk_start tk).
Proof. done. Qed.

Lemma answered_idle (tk : task S) q (s : S) : at_request p prevFiles tk = Asked q -> idle (so_far p prevFiles (answered tk (Event q (perform q s).1 (perform q s).2))).2.
Proof.
  intros Ha. unfold so_far. rewrite extended_start. eapply (rs_more _ (replays_processFile p _ prevFiles)); [done | done | exact Ha | done | apply perform_fits].
Qed.

(** A call that has returned has done so for good: more answers are left over. *)
Lemma returned_idle (tk : task S) : tk_history tk = [] -> idle (so_far p prevFiles tk).2.
Proof. intros E. apply (rs_idle _ (replays_processFile p _ prevFiles)). split; [cbn; by rewrite E | done]. Qed.

Lemma steps_idle (c c' : conf S) : Forall (fun tk => idle (so_far p prevFiles tk).2) (cf_tasks c) -> rtc (istep p prevFiles) c c' ->
  Forall (fun tk => idle (so_far p prevFiles tk).2) (cf_tasks c').
Proof.
  intros H0. induction 1 as [|c c1 c' Hst _ IH]; [done |]. apply IH. destruct Hst as [s ts i tk q a s' Hi Ha Hp]. cbn in *.
  apply Forall_insert; [done |]. pose proof (answered_idle tk q s Ha) as H. by rewrite Hp in H.
Qed.

(** At any time each call has returned or can do its next operation. *)
Lemma no_call_stuck s files (c c' : conf S) : beginning s files c -> rtc (istep p prevFiles) c c' -> forall i tk, cf_tasks c' !! i = Some tk ->
  (exists r, returned p prevFiles tk r) \/ exists q, at_request p prevFiles tk = Asked q /\ exists c2, istep p prevFiles c' c2.
Proof.
  intros (_ & _ & Hb) Hr i tk Hi. assert (H : Forall (fun tk => idle (so_far p prevFiles tk).2) (cf_tasks c)).
  { eapply Forall_impl; [exact Hb |]. intros tk' [_ E]. by apply returned_idle. }
  pose proof (Forall_lookup_1 _ _ _ _ (steps_idle c c' H Hr) Hi) as [_ Hns]. unfold returned, at_request in *.
  destruct (status_of (so_far p prevFiles tk).2) as [|q|] eqn:E; [left; by eexists | right | done]. exists q. split; [done |].
  destruct c' as [s' ts]. destruct (perform q s') as [a s2] eqn:Ep. eexists. by econstructor.
Qed.
End Steps.
End ReplayUpload.

(** ** What the answers say *)

Section Safe.
Context `{AE : AEAD, ZS : Zstd, SH : Sha256} `{AES : !AEADSpec AE, ZSS : !ZstdSpec ZS, SHS : !Sha256Spec SH}.
Context `{SF : SourceFS} `{SE : Strerror} `{CK : Chunker} `{CKS : !ChunkerSpec CK}.
Context {S : Type} `{B : BlobStore S, SV : StoreView S} `{BE : BatchExistencer S}.

Section Contents.
Context (opens : bytes -> bytes -> Prop) (P : list bytes) `{US : !UploadSpec opens P S}.

(** An upload only puts what stands for one of its contents, and asks for a
    batch only when the store has such an operation. *)
Definition allowed (q : request) : Prop :=
  match q with
  | QPut h d => exists c, known P c /\ h = SHA256Bytes c /\ opens d c
  | QExists _ => True
  | QBatch _ => is_Some (exists_batch (S := S))
  end.

(** The answer is right in the store after the operation. *)
Definition answer_ok (q : request) (a : answer) (s' : S) : Prop :=
  match q, a with
  | QPut h _, APut r => r = Ok tt -> present s' h
  | QExists h, AExists r => r = Ok true -> present s' h
  | QBatch hs, ABatch r => forall found, r = Ok found -> forall h, h ∈ hs -> h ∈ found -> present s' h
  | _, _ => False
  end.

(** The operations were done in this order, on a store that others only
    extended meanwhile. *)
Fixpoint truthful (s : S) (l : list (event S)) : Prop :=
  match l with
  | [] => True
  | e :: l => sane opens P (ev_after e) /\ extends P s (ev_after e) /\ answer_ok (ev_req e) (ev_ans e) (ev_after e) /\ truthful (ev_after e) l
  end.

Fixpoint seen_last (s : S) (l : list (event S)) : S := match l with [] => s | e :: l => seen_last (ev_after e) l end.

Lemma truthful_snoc l : forall s e, truthful s l -> sane opens P (ev_after e) -> extends P (seen_last s l) (ev_after e) ->
  answer_ok (ev_req e) (ev_ans e) (ev_after e) -> truthful s (l ++ [e]).
Proof. induction l as [|e0 l IH]; intros s e; cbn; [done |]. intros (? & ? & ? & ?). do 3 (split; [done |]). auto. Qed.

Lemma seen_last_snoc l : forall s e, seen_last s (l ++ [e]) = ev_after e.
Proof. induction l; intros s e; cbn; auto. Qed.

Lemma truthful_extends l : forall s, truthful s l -> extends P s (seen_last s l).
Proof. induction l as [|e l IH]; intros s; cbn; [done |]. intros (_ & Hx & _ & Ht). etrans; [exact Hx | by apply IH]. Qed.

(** The answer of a store on which nothing goes wrong. *)
Definition fine (q : request) (a : answer) : Prop :=
  match q, a with
  | QPut _ _, APut r => r = Ok tt
  | QExists h, AExists r => validateHash h = true -> is_ok r = true
  | QBatch hs, ABatch r => Forall (fun h => validateHash h = true) hs -> is_ok r = true
  | _, _ => False
  end.

Lemma perform_ok q s a s' : sane opens P s -> allowed q -> perform q s = (a, s') ->
  sane opens P s' /\ extends P s s' /\ answer_ok q a s' /\ (bs_calm s -> bs_calm s' /\ fine q a).
Proof.
  intros Hs Hq Hp. destruct q as [h d|h|hs]; cbn in Hp.
  - destruct Hq as (c & Hk & -> & Ho). pose proof (up_Put c d s Hs Ho Hk) as H. unfold wp in H.
    destruct (bs_Put _ _ _) as [r s1]. injection Hp as <- <-. cbn [fst snd] in H. destruct H as (? & ? & ? & Hc). do 3 (split; [done |]). intros [-> ?]%Hc. done.
  - pose proof (up_Exists h s Hs) as H. unfold wp in H. destruct (bs_Exists _ _) as [r s1]. injection Hp as <- <-. by destruct H as (? & ? & ? & Hc).
  - destruct Hq as [f Ef]. rewrite Ef in Hp. pose proof (up_batch f hs s Ef Hs) as H. unfold wp in H.
    destruct (f hs s) as [r s1]. injection Hp as <- <-. by destruct H as (? & ? & ? & Hc).
Qed.

(** How a replay is seen: as the store after the last answer it has used; [fin]
    is the store after the last answer there is. *)
Definition replay_view (fin : S) : StoreView (replay S) := {|
  bs_inv rp := bs_inv (rp_seen rp) /\ (truthful (rp_seen rp) (rp_todo rp) /\ (rp_live rp = None -> seen_last (rp_seen rp) (rp_todo rp) = fin)) /\
    (forall q, rp_status rp = Asked q -> allowed q) /\ (forall s, rp_live rp = Some s -> sane opens P s /\ extends P (seen_last (rp_seen rp) (rp_todo rp)) s);
  bs_blob rp := bs_blob (rp_seen rp);
  bs_calm rp := rp_status rp = Going /\ Forall (fun e => fine (ev_req e) (ev_ans e)) (rp_todo rp) /\ exists s, rp_live rp = Some s /\ bs_calm s
|}.

Section View.
Context (fin : S).
#[local] Instance this_view : StoreView (replay S) := replay_view fin.

Definition consulted {A} (proj : answer -> option (result store_err A)) (q : request) (rp : replay S) (r : result store_err A) (rp' : replay S) : Prop :=
  sane opens P rp' /\ extends P rp rp' /\ (forall x, r = Ok x -> exists a, proj a = Some (Ok x) /\ answer_ok q a (rp_seen rp')) /\
  (bs_calm rp -> bs_calm rp' /\ exists a, proj a = Some r /\ fine q a).

(** The replay stays where it is. *)
Lemma consulted_stay {A} (proj : answer -> option (result store_err A)) q rp rp' : sane opens P rp -> allowed q -> ~ bs_calm rp -> rp_seen rp' = rp_seen rp -> rp_todo rp' = rp_todo rp ->
  rp_live rp' = rp_live rp -> (forall q', rp_status rp' = Asked q' -> rp_status rp = Asked q' \/ q' = q) -> consulted proj q rp (Err StoreCtx) rp'.
Proof.
  destruct rp as [s l st lv]. intros [(Hi & Ht & Ha & Hl) Hc] Hq Hno. destruct rp' as [s' l' st' lv']. intros Es El Elv Hst. cbn in *. subst s' l' lv'.
  split; [|split; [done |]; split; [done |]; intros H; by destruct Hno]. split; [|done]. split; [done |]. split; [done |]. split; [|done].
  intros q' [E | ->]%Hst; [by apply Ha | done].
Qed.

Lemma unanswered_ok {A} (proj : answer -> option (result store_err A)) q (rp : replay S) : sane opens P rp -> allowed q -> rp_status rp = Going ->
  (forall s, is_Some (proj (perform q s).1)) -> wp (unanswered proj q) (consulted proj q rp) rp.
Proof.
  intros Hs Hq Hst Hpf. unfold wp, unanswered. destruct (rp_live rp) as [s1|] eqn:El.
  - pose proof Hs as [(_ & (Ht & _) & _ & Hl) _]. destruct (Hl s1 El) as [Hs1 Hx1]. destruct (Hpf s1) as [r Hr].
    destruct (perform q s1) as [a s2] eqn:Ep. cbn in Hr. rewrite Hr. destruct (perform_ok q s1 a s2 Hs1 Hq Ep) as ([Hi2 Hc2] & Hx2 & Hok & Hcalm). cbn [fst snd]. split; [|split; [|split]].
    + split; [|done]. split; [done |]. split; [done |]. split; [done |]. cbn. intros s3 [= <-]. done.
    + change (extends P (rp_seen rp) s2). etrans; [|exact Hx2]. etrans; [by apply truthful_extends | exact Hx1].
    + intros x ->. by exists a.
    + intros (_ & _ & s3 & E & Hcs). assert (s3 = s1) as -> by congruence. destruct (Hcalm Hcs) as [Hc' Hf]. split; [|by exists a]. split; [done |]. split; [done |]. by exists s2.
  - apply consulted_stay; cbn; try done. { intros (_ & _ & ? & E & _). congruence. } intros q'. destruct (rp_todo rp); [intros [= ->]; by right | done].
Qed.

Lemma consult_ok {A} (proj : answer -> option (result store_err A)) q (rp : replay S) : sane opens P rp -> allowed q ->
  (forall s, is_Some (proj (perform q s).1)) -> wp (consult proj q) (consulted proj q rp) rp.
Proof.
  intros Hs Hq Hpf. unfold wp, consult. destruct (rp_status rp) eqn:Est; [|apply consulted_stay; try done; [intros [? _]; congruence | intros q' E; by left]..].
  destruct (rp_todo rp) as [|e l] eqn:El; [by apply unanswered_ok |]. destruct (decide _) as [<-|]; [|by apply unanswered_ok].
  destruct (proj (ev_ans e)) as [r|] eqn:Ep; [|by apply unanswered_ok]. destruct rp as [s l0 st lv]. cbn in El, Est. subst l0 st.
  destruct Hs as [(_ & ((Hse & Hx & Hok & Ht) & Hlast) & _ & Hl) _]. destruct Hse as [Hi Hc]. cbn [fst snd]. split; [|split; [exact Hx | split]].
  - split; [|done]. done.
  - intros x ->. by exists (ev_ans e).
  - intros (_ & [Hf Hfs]%Forall_cons & Hlv). split; [done |]. by exists (ev_ans e).
Qed.

Lemma perform_proj q (s : S) : match q with
  | QPut _ _ => is_Some (as_put (perform q s).1) | QExists _ => is_Some (as_exists (perform q s).1) | QBatch _ => is_Some (as_batch (perform q s).1) end.
Proof. destruct q; cbn; [destruct (bs_Put _ _ _) | destruct (bs_Exists _ _) | destruct exists_batch as [f|]; [destruct (f _ _) |]]; by eexists. Qed.

Lemma replay_upload : UploadSpec opens P (replay S).
Proof.
  split.
  - intros h rp Hs. eapply wp_mono; [apply (consult_ok as_exists (QExists h)); [done | done | exact (perform_proj (QExists h))] |]. intros r rp' (? & ? & Hr & Hc). do 2 (split; [done |]). split.
    + intros ->. destruct (Hr true eq_refl) as ([] & [= ->] & Hok). exact (Hok eq_refl).
    + intros [? ([] & [= ->] & Hf)]%Hc. done.
  - intros f hs rp Ef Hs. unfold exists_batch, replay_batch in Ef. destruct exists_batch as [g|] eqn:Eg; [|done]. injection Ef as <-.
    eapply wp_mono; [apply (consult_ok as_batch (QBatch hs)); [done | by exists g | exact (perform_proj (QBatch hs))] |]. intros r rp' (? & ? & Hr & Hc). do 2 (split; [done |]). split.
    + intros found -> h Hin Hf. destruct (Hr found eq_refl) as ([] & [= ->] & Hok). by apply (Hok found).
    + intros [? ([] & [= ->] & Hf)]%Hc. done.
  - intros d blob rp Hs Ho Hk. eapply wp_mono; [apply (consult_ok as_put (QPut (SHA256Bytes d) blob)); [done | by exists d | exact (perform_proj (QPut _ _))] |]. intros r rp' (? & ? & Hr & Hc).
    do 2 (split; [done |]). split.
    + intros ->. destruct (Hr tt eq_refl) as ([] & [= ->] & Hok). exact (Hok eq_refl).
    + intros [? ([] & [= ->] & Hf)]%Hc. done.
Qed.
End View.
End Contents.

(** ** What the calls store *)

Section Calls.
Context (dec : Decryptor) (P : list bytes) (p : pipe) (prevFiles : gmap bytes FileEntry) (content : scanEntry -> bytes).
Context `{US : !UploadSpec (gives dec) P S}.

(** The file is backed up in the store [s]: its entry carries what the scan
    saw, and the store has the blobs of its content. *)
Definition stored (s : S) (fe : scanEntry) (o : outcome) : Prop :=
  let e := o.1.1.1 in
  entry_for fe e /\ IsRestorable e = true /\ describes P e (content fe) /\ Forall (present s) (checked e (f_ContentHash e)) /\
  (se_size fe < echunkSize (pp_enc p) -> f_Chunks e = []).

Lemma stored_extends s s' fe o : extends P s s' -> stored s fe o -> stored s' fe o.
Proof. intros [Hx _] (H1 & H2 & H3 & H4 & H5). do 3 (split; [done |]). split; [|done]. eapply Forall_impl; [exact H4 | apply Hx]. Qed.

Lemma stored_content s room fe o : sane (gives dec) P s -> stored s fe o -> file_content dec room (bs_blob s) (o.1.1.1) = Some (content fe).
Proof. intros [Hi Hc] (_ & _ & Hd & Hp & _). by apply (describes_content dec P False room (PS s [] O [])). Qed.

(** A call that has had true answers asks for allowed operations only, and what
    it returns is stored. *)
Lemma call_sound (tk : task S) : sane (gives dec) P (tk_store tk) -> truthful (gives dec) P (tk_store tk) (tk_history tk) ->
  setting dec P p (tk_file tk) (content (tk_file tk)) prevFiles (PS (tk_store tk) [] O []) ->
  (forall q, at_request p prevFiles tk = Asked q -> allowed (gives dec) P q) /\
  forall o, returned p prevFiles tk (Ok o) -> stored (seen_last (tk_store tk) (tk_history tk)) (tk_file tk) o.
Proof.
  intros [Hi Hc] Ht []. pose (RV := replay_view (gives dec) P (seen_last (tk_store tk) (tk_history tk))).
  pose proof (replay_upload (gives dec) P (seen_last (tk_store tk) (tk_history tk))) as RU.
  assert (Hg : good (gives dec) P False (tk_start tk)) by (repeat split; done).
  pose proof (wp_and _ _ _ _ (sound_processFile (S := replay S) dec P False p (tk_file tk) (content (tk_file tk)) 0 ltac:(done) ltac:(done) ltac:(done) ltac:(done) ltac:(done) ltac:(done) ltac:(done) ltac:(done) prevFiles (tk_start tk) Hg ltac:(done))
    (processFile_entry p (tk_file tk) prevFiles (tk_start tk))) as [((Hi' & _) & _ & Hok & _) He].
  pose proof (rs_dead _ (replays_processFile p (tk_file tk) prevFiles) (tk_start tk) eq_refl) as Hn.
  fold (so_far p prevFiles tk) in *. destruct Hi' as (_ & (Ht' & Hl) & Ha & _). specialize (Hl Hn). split; [exact Ha |]. intros o [_ Er].
  destruct (Hok o Er) as [(_ & Hr & _ & _ & _ & _ & _ & Hd & Hh) Hs]. split; [by apply He |]. split; [done |]. split; [done |]. split; [|done].
  eapply Forall_impl; [exact Hh |]. intros h Hhas. rewrite <- Hl. by eapply (proj1 (truthful_extends _ _ _ _ Ht')).
Qed.

(** On a quiet store, and when the context is not cancelled, only the cipher or
    its random source can make a call fail. *)
Lemma call_fails (tk : task S) (s : S) e : sane (gives dec) P (tk_store tk) -> truthful (gives dec) P (tk_store tk) (tk_history tk) ->
  setting dec P p (tk_file tk) (content (tk_file tk)) prevFiles (PS (tk_store tk) [] O []) ->
  Forall (fun e => fine (ev_req e) (ev_ans e)) (tk_history tk) -> tk_ctx tk = [] ->
  sane (gives dec) P s -> extends P (seen_last (tk_store tk) (tk_history tk)) s -> bs_calm s -> returned p prevFiles tk (Err e) -> is_gcm e.
Proof.
  intros [Hi Hc] Ht [] Hf Hctx Hs Hx Hcs [Hg Hr]. pose (RV := replay_view (gives dec) P (seen_last (tk_store tk) (tk_history tk))).
  pose proof (replay_upload (gives dec) P (seen_last (tk_store tk) (tk_history tk))) as RU. unfold so_far in Hr.
  pose proof (rs_live _ (replays_processFile p (tk_file tk) prevFiles) (tk_start tk) s eq_refl Hg) as El. rewrite Hr in El.
  assert (Hgood : good (gives dec) P True (with_live s (tk_start tk))).
  { split; [split; [done |]; split; [done |]; split; [done |]; by intros s1 [= <-] |]. split; [done |]. intros _. split; [|done]. split; [done |]. split; [done |]. by exists s. }
  pose proof (sound_processFile (S := replay S) dec P True p (tk_file tk) (content (tk_file tk)) 0 ltac:(done) ltac:(done) ltac:(done) ltac:(done) ltac:(done) ltac:(done) ltac:(done) ltac:(done) prevFiles
    (with_live s (tk_start tk)) Hgood ltac:(done)) as (_ & _ & _ & He). apply (He I). by rewrite El.
Qed.

(** The store is right, and each call has had true answers from it. *)
Definition conf_ok (s0 : S) (files : list scanEntry) (c : conf S) : Prop :=
  sane (gives dec) P (cf_store c) /\ tk_file <$> cf_tasks c = files /\ extends P s0 (cf_store c) /\
  Forall (fun tk => tk_store tk = s0 /\ truthful (gives dec) P s0 (tk_history tk) /\ extends P (seen_last s0 (tk_history tk)) (cf_store c)) (cf_tasks c) /\
  (bs_calm s0 -> bs_calm (cf_store c) /\ Forall (fun tk => Forall (fun e => fine (ev_req e) (ev_ans e)) (tk_history tk)) (cf_tasks c)).

Section Reached.
Context (s0 : S) (files : list scanEntry).
Hypothesis Hsane : sane (gives dec) P s0.
Hypothesis Hset : forall fe, fe ∈ files -> setting dec P p fe (content fe) prevFiles (PS s0 [] O []).

Lemma task_set c i tk : conf_ok s0 files c -> cf_tasks c !! i = Some tk -> setting dec P p (tk_file tk) (content (tk_file tk)) prevFiles (PS (tk_store tk) [] O []).
Proof.
  intros (_ & Hf & _ & Hts & _) Hi. pose proof (Forall_lookup_1 _ _ _ _ Hts Hi) as (Es & _ & _). rewrite Es. apply Hset.
  rewrite <- Hf. apply list_elem_of_fmap_2. by eapply list_elem_of_lookup_2.
Qed.

Lemma task_call c i tk : conf_ok s0 files c -> cf_tasks c !! i = Some tk ->
  (forall q, at_request p prevFiles tk = Asked q -> allowed (gives dec) P q) /\ forall o, returned p prevFiles tk (Ok o) -> stored (cf_store c) (tk_file tk) o.
Proof.
  intros Hc Hi. pose proof Hc as (_ & Hf & _ & Hts & _). pose proof (Forall_lookup_1 _ _ _ _ Hts Hi) as (Es & Ht & Hx). rewrite <- Es in Ht.
  destruct (call_sound tk) as [Ha Hr]; [by rewrite Es | done | by eapply task_set |]. split; [done |]. intros o Ho.
  eapply stored_extends; [exact Hx |]. rewrite <- Es. by apply Hr.
Qed.

Lemma step_conf c c' : conf_ok s0 files c -> istep p prevFiles c c' -> conf_ok s0 files c'.
Proof.
  intros Hc Hst. pose proof Hc as (Hs & Hf & Hx0 & Hts & Hcalm). destruct Hst as [s ts i tk q a s' Hi Ha Hp]. cbn [cf_store cf_tasks] in *.
  destruct (task_call (Conf s ts) i tk Hc Hi) as [Hal _]. destruct (perform_ok (gives dec) P q s a s' Hs (Hal q Ha) Hp) as (Hs' & Hx & Hok & Hfine).
  split; [done |]. split; [|split; [by etrans | split]]; cbn [cf_store cf_tasks].
  - rewrite list_fmap_insert. cbn [tk_file answered]. rewrite list_insert_id; [done |]. by rewrite list_lookup_fmap, Hi.
  - pose proof (Forall_lookup_1 _ _ _ _ Hts Hi) as (Es & Ht & Hxl). apply Forall_insert.
    + eapply Forall_impl; [exact Hts |]. intros tk' (? & ? & ?). split; [done |]. split; [done |]. by etrans.
    + cbn [tk_store tk_history answered]. split; [done |]. rewrite seen_last_snoc. split; [|done]. apply truthful_snoc; [done | done | by etrans | done].
  - intros [Hcs Hfs]%Hcalm. destruct (Hfine Hcs) as [Hcs' Hfa]. split; [done |]. apply Forall_insert; [done |]. cbn [tk_history answered].
    apply Forall_app. split; [exact (Forall_lookup_1 _ _ _ _ Hfs Hi) | by constructor].
Qed.

Lemma step_ctx c c' : istep p prevFiles c c' -> Forall (fun tk => tk_ctx tk = []) (cf_tasks c) -> Forall (fun tk => tk_ctx tk = []) (cf_tasks c').
Proof. intros [s ts i tk q a s' Hi _ _] H. apply Forall_insert; [done |]. exact (Forall_lookup_1 _ _ _ _ H Hi). Qed.

Lemma reach_conf c c' : beginning s0 files c -> rtc (istep p prevFiles) c c' -> conf_ok s0 files c'.
Proof.
  intros (Es & Hf & Hb) Hr. assert (H0 : conf_ok s0 files c).
  { split; [by rewrite Es |]. split; [done |]. split; [by rewrite Es |]. split.
    - eapply Forall_impl; [exact Hb |]. intros tk [-> ->]. cbn. by rewrite Es.
    - intros Hcs. split; [by rewrite Es |]. eapply Forall_impl; [exact Hb |]. by intros tk [_ ->]. }
  clear -H0 Hr Hsane Hset US AES ZSS SHS CKS. induction Hr; [done |]. eauto using step_conf.
Qed.

Lemma interleaved_fails c c' : beginning s0 files c -> rtc (istep p prevFiles) c c' -> bs_calm s0 -> Forall (fun tk => tk_ctx tk = []) (cf_tasks c) ->
  bs_calm (cf_store c') /\ forall i tk e, cf_tasks c' !! i = Some tk -> returned p prevFiles tk (Err e) -> is_gcm e.
Proof.
  intros Hb Hr Hcs Hctx. pose proof (reach_conf c c' Hb Hr) as Hc. pose proof Hc as (Hs & _ & _ & Hts & Hcalm). destruct (Hcalm Hcs) as [Hcs' Hfs]. split; [done |].
  assert (Hctx' : Forall (fun tk => tk_ctx tk = []) (cf_tasks c')).
  { clear -Hr Hctx. induction Hr; [done |]. eauto using step_ctx. }
  intros i tk e Hi He. pose proof (Forall_lookup_1 _ _ _ _ Hts Hi) as (Es & Ht & Hx). rewrite <- Es in Ht, Hx.
  apply (call_fails tk (cf_store c') e); [by rewrite Es | done | by eapply task_set | exact (Forall_lookup_1 _ _ _ _ Hfs Hi) | exact (Forall_lookup_1 _ _ _ _ Hctx' Hi) | done | done | done | done].
Qed.

(** In every interleaving. *)
Lemma interleaved_stored c c' : beginning s0 files c -> rtc (istep p prevFiles) c c' ->
  sane (gives dec) P (cf_store c') /\ extends P s0 (cf_store c') /\
  forall i tk o, cf_tasks c' !! i = Some tk -> returned p prevFiles tk (Ok o) -> stored (cf_store c') (tk_file tk) o.
Proof.
  intros Hb Hr. pose proof (reach_conf c c' Hb Hr) as Hc. pose proof Hc as (Hs & _ & Hx & _). split; [done |]. split; [done |].
  intros i tk o Hi. by apply (task_call c' i tk Hc Hi).
Qed.
End Reached.
End Calls.

(** ** How many operations a call does *)

Section Count.
Abbreviation T := (@pst (replay S)).
Context (p : pipe).

(** It does at most [n] operations, and a result has the property [Q]. *)
Definition spends {E A} (n : nat) (m : eff T E A) (Q : A -> Prop) : Prop :=
  forall t, live t = None -> wp m (fun r t' => live t' = None /\ (length (rp_todo (p_store t)) <= n + length (rp_todo (p_store t')))%nat /\ forall a, r = Ok a -> Q a) t.

Lemma spends_mono {E A} (n n' : nat) (m : eff T E A) (Q Q' : A -> Prop) : spends n m Q -> (n <= n')%nat -> (forall a, Q a -> Q' a) -> spends n' m Q'.
Proof. intros Hm Hn HQ t Hd. eapply wp_mono; [by apply Hm |]. intros r t' (Hd' & Hl & Hr). split; [done |]. split; [lia | eauto]. Qed.

Lemma spends_bind {E A C} (n k : nat) (m : eff T E A) (f : A -> eff T E C) (Q : A -> Prop) (Q' : C -> Prop) :
  spends n m Q -> (forall a, Q a -> spends k (f a) Q') -> spends (n + k) (m ≫= f) Q'.
Proof.
  intros Hm Hf t Hd. wp_step. eapply wp_mono; [by apply Hm |]. intros r t1 (Hd1 & Hl & Hr). destruct r as [a|e]; [|split; [done |]; split; [lia | done]].
  eapply wp_mono; [by apply (Hf a (Hr a eq_refl)) |]. intros r t2 (Hd2 & Hl2 & Hr2). split; [done |]. split; [lia | done].
Qed.

Lemma spends_map {E E' A A'} (n : nat) (g : result E A -> result E' A') (m : eff T E A) (m' : eff T E' A') :
  (forall t, m' t = (g (m t).1, (m t).2)) -> spends n m (fun _ => True) -> spends n m' (fun _ => True).
Proof. intros H Hm t Hd. unfold wp. rewrite H. cbn [fst snd]. destruct (Hm t Hd) as (? & ? & _). done. Qed.

Lemma spends_attempt {E E' A} (n : nat) (m : eff T E A) : spends n m (fun _ => True) -> spends n (attempt (E' := E') m) (fun _ => True).
Proof. apply (spends_map n Ok). intros t. unfold attempt. by destruct (m t). Qed.

Lemma spends_wrap {E E' A} (n : nat) (f : E -> E') (m : eff T E A) : spends n m (fun _ => True) -> spends n (wrap_err f m) (fun _ => True).
Proof. apply (spends_map n (fun r => match r with Ok a => Ok a | Err e => Err (f e) end)). intros t. unfold wrap_err. by destruct (m t). Qed.

Lemma spends_none {E A} (n : nat) (m : eff T E A) : (forall t, p_store (m t).2 = p_store t) -> spends n m (fun _ => True).
Proof. intros Hs t Hd. unfold wp, live. rewrite Hs. split; [done |]. split; [lia | done]. Qed.

Lemma spends_ret {E A} (n : nat) (a : A) (Q : A -> Prop) : Q a -> spends n (mret a : eff T E A) Q.
Proof. intros HQ t Hd. wp_step. split; [done |]. split; [lia | by intros b ->%ok_inv]. Qed.

Lemma spends_throw {E A} (n : nat) (e : E) (Q : A -> Prop) : spends n (throw e : eff T E A) Q.
Proof. intros t Hd. wp_step. split; [done |]. split; [lia | done]. Qed.

Lemma spends_consult {A} (proj : answer -> option (result store_err A)) q : spends 1 (at_store (S := replay S) (consult proj q)) (fun _ => True).
Proof.
  intros [[s l st lv] c n x] Hd. unfold live in Hd. cbn in Hd. subst lv. unfold wp, live, at_store, zoom, consult, unanswered. cbn. destruct st; cbn; [|split; [done |]; split; [lia | done]..].
  destruct l as [|e l]; [cbn; split; [done |]; split; [lia | done] |]. destruct (decide _); [destruct (proj _) |]; cbn; (split; [done |]; split; [lia | done]).
Qed.

(** Programs that do no operation. *)
Definition keeps {E A} (m : eff T E A) : Prop := forall t, p_store (m t).2 = p_store t.

Lemma keeps_store_bind {E A C} (m : eff T E A) (f : A -> eff T E C) : keeps m -> (forall a, keeps (f a)) -> keeps (m ≫= f).
Proof. intros Hm Hf t. specialize (Hm t). unfold mbind, eff_bind. destruct (m t) as [[a|e] t1]; cbn in *; [by rewrite (Hf a t1) | done]. Qed.

Lemma keeps_stopped : keeps (stopped (S := replay S)).
Proof. by intros [s [|b l] n x]. Qed.

Lemma keeps_open_retry n path : keeps (open_retry (S := replay S) n path).
Proof.
  induction n as [|n IH]; cbn [open_retry]; (apply keeps_store_bind; [done |]); intros [e|a seek b]; try done; (destruct (negb _); [done |]); [done |].
  apply keeps_store_bind; [apply keeps_stopped |]. by intros [].
Qed.

Lemma keeps_fixed fuel cs retain : forall remaining r acc, keeps (fixed_loop (S := replay S) fuel cs retain remaining r acc).
Proof.
  induction fuel as [|f IH]; intros remaining r acc; cbn [fixed_loop]; [done |]. destruct (_ <=? _); [done |].
  apply keeps_store_bind; [apply keeps_stopped |]. intros []; [done |]. destruct (read_full _ _) as [[d err] r']. destruct err as [[]|]; try done; (destruct (_ =? _); [done | apply IH]).
Qed.

Lemma keeps_cdc qs fails : forall retain kept acc, keeps (cdc_loop (S := replay S) qs fails retain kept acc).
Proof.
  induction qs as [|q qs IH]; intros retain kept acc; cbn [cdc_loop]; (apply keeps_store_bind; [apply keeps_stopped |]); intros []; try done; [by destruct fails |].
  destruct retain; [destruct (_ <? _) |]; apply IH.
Qed.

Lemma keeps_hash path size retain : keeps (if cdcEnabled p then hashFileWithCDC p path size retain else hashFileWithChunks p path size retain).
Proof.
  destruct (cdcEnabled p); (apply keeps_store_bind; [apply keeps_open_retry |]); intros [[a seek] b].
  - cbv beta iota zeta. destruct (cdc_chunks (if pp_pol p =? 0 then pp_globalPol p else pp_pol p) a). apply keeps_cdc.
  - apply keeps_fixed.
Qed.

Lemma keeps_random {A} (f : bytes -> result cerr (A * bytes)) : keeps (random (S := replay S) f).
Proof. intros [s l n x]. unfold random. cbn. by destruct (f x) as [[]|]. Qed.

Lemma keeps_lift {A} (r : result ferr A) : keeps (lift (S := replay S) r).
Proof. by destruct r. Qed.

Lemma keeps_small path size : keeps (hashAndEncryptFile (S := replay S) p path size).
Proof.
  unfold hashAndEncryptFile, hashOnlyFile. destruct (_ =? 0); (apply keeps_store_bind; [apply keeps_open_retry |]); intros [[a seek] b].
  - destruct (rd_fails a); [done |]. destruct (negb seek); [done |]. destruct (_ <? _); [by destruct (rd_fails b) | done].
  - destruct (_ <? _); [|done]. destruct (rd_fails a); [done |]. apply keeps_store_bind; [apply keeps_lift |]. intros _. by apply keeps_store_bind; [apply keeps_random |].
Qed.

Lemma spends_hash path d retain : stable path d -> 0 < echunkSize (pp_enc p) ->
  spends 0 (if cdcEnabled p then hashFileWithCDC p path (blen d) retain else hashFileWithChunks p path (blen d) retain) (fun h => length (hp_refs h) = length (pieces p d)).
Proof.
  intros Hst Hcs t Hd. pose (NV := Build_StoreView (replay S) (fun _ => True) (fun _ _ => None) (fun _ => False)).
  pose proof (sound_hash (SV := NV) (fun _ _ => True) [] False p path d retain t Hst Hcs ltac:(by repeat split)) as H. unfold wp, live in *. rewrite (keeps_hash path (blen d) retain t).
  split; [done |]. split; [lia |]. intros h Hh. destruct H as (_ & _ & H & _). destruct (H h Hh) as (_ & -> & _). by rewrite length_fmap.
Qed.

(** ** Bounds *)

Lemma spends_Exists h : spends 1 (at_store (S := replay S) (bs_Exists h)) (fun _ => True).
Proof. apply spends_consult. Qed.

Lemma spends_Put h d : spends 1 (at_store (S := replay S) (bs_Put h d)) (fun _ => True).
Proof. apply spends_consult. Qed.

Lemma spends_exists_each hs : spends (length hs) (exists_each (S := replay S) hs) (fun _ => True).
Proof.
  induction hs as [|h hs IH]; cbn [exists_each length]; [by apply spends_ret |]. apply (spends_bind 1 _ _ _ (fun _ => True)); [apply spends_attempt, spends_Exists |].
  intros r _. destruct r as [b|e]; [|destruct e; try exact IH; apply spends_throw].
  rewrite <- (Nat.add_0_r (length hs)). apply (spends_bind _ _ _ _ (fun _ => True)); [done |]. intros a _. by apply spends_ret.
Qed.

Lemma length_uniq hs : forall seen, (length (uniq seen hs) <= length hs)%nat.
Proof. induction hs as [|h hs IH]; intros seen; cbn [uniq length]; [lia |]. case_bool_decide; cbn [length]; [specialize (IH seen) | specialize (IH ({[h]} ∪ seen))]; lia. Qed.

Lemma spends_blobsExist hs : spends (1 + length hs) (blobsExist (S := replay S) hs) (fun _ => True).
Proof.
  assert (Heach : spends (length hs) (exists_each (S := replay S) (uniq ∅ hs)) (fun _ => True)) by (eapply spends_mono; [apply spends_exists_each | apply length_uniq | done]).
  unfold blobsExist. destruct hs as [|h0 hs0] eqn:Ehs; [by apply spends_ret |]. rewrite <- Ehs in *. unfold exists_batch, replay_batch. destruct exists_batch as [f|].
  - apply (spends_bind 1 _ _ _ (fun _ => True)); [apply spends_attempt, spends_consult |]. intros r _. destruct r as [found|e]; [by apply spends_ret |]. destruct e; try exact Heach; apply spends_throw.
  - eapply spends_mono; [exact Heach | lia | done].
Qed.

Lemma spends_tryUnchanged fe pf h : spends (2 + length (f_Chunks pf)) (tryUnchangedEntry (S := replay S) fe pf h) (fun _ => True).
Proof.
  unfold tryUnchangedEntry. rewrite <- (Nat.add_0_r (2 + _)). apply (spends_bind _ _ _ _ (fun _ => True)).
  - eapply spends_mono; [apply spends_blobsExist | | done]. destruct (f_Chunks pf); cbn; [lia |]. rewrite length_fmap. lia.
  - intros found _. destruct (forallb _ _); by apply spends_ret.
Qed.

Lemma spends_probe h : spends 1 (probe (S := replay S) h) (fun _ => True).
Proof.
  unfold probe. rewrite <- (Nat.add_0_r 1). apply (spends_bind _ _ _ _ (fun _ => True)); [apply spends_attempt, spends_Exists |].
  intros r _. destruct r as [b|e]; [by apply spends_ret |]. destruct e; by (apply spends_ret + apply spends_throw).
Qed.

Lemma spends_put (h d : bytes) : spends 1 (wrap_err FPut (at_store (S := replay S) (bs_Put h d))) (fun _ => True).
Proof. apply spends_wrap, spends_Put. Qed.

Lemma spends_checkAndUpload fe a b c d e : spends 3 (checkAndUploadBlob (S := replay S) fe a b c d e) (fun _ => True).
Proof.
  unfold checkAndUploadBlob. apply (spends_bind 1 2 _ _ (fun _ => True)); [destruct (_ && _); [apply spends_probe | by apply spends_ret] |].
  intros [] _; [by apply spends_ret |]. destruct (resolveFileStatus _ _ _) as [[st n] ch]. apply (spends_bind 1 1 _ _ (fun _ => True)); [apply spends_probe |].
  intros [] _; [by apply spends_ret |]. apply (spends_bind 1 0 _ _ (fun _ => True)); [apply spends_put | intros u _; by apply spends_ret].
Qed.

Lemma spends_put_chunk path cipher c d : spends 1 (put_chunk (S := replay S) p path cipher c d) (fun _ => True).
Proof.
  unfold put_chunk. apply (spends_bind 0 1 _ _ (fun _ => True)); [destruct (cipher : bool); [apply spends_none, keeps_random | by apply spends_ret] |].
  intros blob _. apply spends_put.
Qed.

Lemma spends_upload_mem path cipher present cds : forall up, spends (length cds) (upload_mem (S := replay S) p path cipher present cds up) (fun _ => True).
Proof.
  induction cds as [|[c d] cds IH]; intros up; cbn [upload_mem length]; [by apply spends_ret |].
  apply (spends_bind 0 _ _ _ (fun _ => True)); [apply spends_none, keeps_stopped |]. intros [] _; [apply spends_throw |].
  case_bool_decide; [eapply spends_mono; [apply IH | lia | done] |]. apply (spends_bind 1 _ _ _ (fun _ => True)); [apply spends_put_chunk | auto].
Qed.

Lemma spends_upload_read path cipher present buf cs : forall r up, spends (length cs) (upload_read (S := replay S) p path cipher present buf cs r up) (fun _ => True).
Proof.
  induction cs as [|c cs IH]; intros r up; cbn [upload_read length]; [by apply spends_ret |].
  assert (Hskip : forall r up, spends (Datatypes.S (length cs)) (upload_read (S := replay S) p path cipher present buf cs r up) (fun _ => True)) by (intros; eapply spends_mono; [apply IH | lia | done]).
  assert (Hgo : forall d r', spends (Datatypes.S (length cs)) (if blen d =? 0 then mret up
     else if bool_decide (c_Hash c ∈ present) then upload_read (S := replay S) p path cipher present buf cs r' up
     else if negb (eqs (SHA256Bytes d) (c_Hash c)) then throw FModified
     else _ ← put_chunk p path cipher c d; upload_read p path cipher present buf cs r' (up + blen d)) (fun _ => True)).
  { intros d r'. destruct (_ =? _); [by apply spends_ret |]. case_bool_decide; [apply Hskip |]. destruct (negb _); [apply spends_throw |].
    apply (spends_bind 1 _ _ _ (fun _ => True)); [apply spends_put_chunk | auto]. }
  apply (spends_bind 0 _ _ _ (fun _ => True)); [apply spends_none, keeps_stopped |]. intros [] _; [apply spends_throw |].
  destruct (read_full _ _) as [[d err] r']. destruct err as [[]|]; (apply spends_throw || apply Hgo).
Qed.

Lemma spends_uploadChanged path cs ds prevChunks : spends (1 + length prevChunks + length cs) (uploadChangedChunks (S := replay S) p path cs ds prevChunks) (fun _ => True).
Proof.
  unfold uploadChangedChunks. apply (spends_bind (1 + length prevChunks) (length cs) _ _ (fun _ => True)); [eapply spends_mono; [apply spends_blobsExist | by rewrite length_fmap | done] |].
  intros present _. destruct (forallb _ _); [by apply spends_ret |]. destruct (_ && _) eqn:E.
  - apply andb_true_iff in E as [_ E%Nat.eqb_eq]. apply (spends_bind 0 (length cs) _ _ (fun _ => True)); [apply spends_none, keeps_lift |]. intros c _.
    eapply spends_mono; [apply spends_upload_mem | | done]. rewrite length_zip. lia.
  - apply (spends_bind 0 (length cs) _ _ (fun _ => True)); [apply spends_none, keeps_open_retry |]. intros [[a seek] b] _.
    apply (spends_bind 0 (length cs) _ _ (fun _ => True)); [apply spends_none, keeps_lift |]. intros c _. apply spends_upload_read.
Qed.

(** The operations for one file whose content is [d]: three checks of the
    chunks it had, and one put for each chunk it has, are enough. *)
Definition ops_bound (prevFiles : gmap bytes FileEntry) (fe : scanEntry) (d : bytes) : nat :=
  (8 + 3 * length (from_option f_Chunks [] (prevFiles !! se_relPath fe)) + length (pieces p d))%nat.

Lemma spends_streaming fe d prev skip : stable (se_absPath fe) d -> se_size fe = blen d -> 0 < echunkSize (pp_enc p) ->
  spends (3 + 2 * length (from_option f_Chunks [] prev) + length (pieces p d)) (processFileStreaming (S := replay S) p fe prev skip) (fun _ => True).
Proof.
  intros Hst Hsz Hcs. unfold processFileStreaming. cbv zeta. rewrite Hsz. set (k := length (from_option f_Chunks [] prev)).
  apply (spends_bind 0 (3 + 2 * k + length (pieces p d)) _ _ _ _ (spends_hash _ d _ Hst Hcs)). intros h Hh. eapply (spends_mono ((2 + k) + ((1 + k + length (hp_refs h)) + 0)) _ _ (fun _ => True)); [|rewrite Hh; lia | done].
  apply (spends_bind _ _ _ _ (fun _ => True)).
  - destruct prev as [pf|]; [|by apply spends_ret]. destruct (_ && _); [apply spends_tryUnchanged | by apply spends_ret].
  - intros kept _. destruct kept as [e|]; [by apply spends_ret |]. destruct (resolveFileStatus _ _ _) as [[st n] ch].
    apply (spends_bind _ _ _ _ (fun _ => True)); [apply spends_uploadChanged | intros up _; by apply spends_ret].
Qed.

Lemma spends_processFile prevFiles fe d : stable (se_absPath fe) d -> se_size fe = blen d -> 0 < echunkSize (pp_enc p) ->
  spends (ops_bound prevFiles fe d) (processFile (S := replay S) p fe prevFiles) (fun _ => True).
Proof.
  intros Hst Hsz Hcs. unfold processFile, ops_bound. set (prev := prevFiles !! se_relPath fe). set (k := length (from_option f_Chunks [] prev)).
  eapply (spends_mono ((2 + k) + (3 + (3 + 2 * k + length (pieces p d)))) _ _ (fun _ => True)); [|lia | done]. apply (spends_bind _ _ _ _ (fun _ => True)).
  - destruct prev as [pf|]; [|by apply spends_ret]. destruct (fast_path fe pf); [|by apply spends_ret]. rewrite <- (Nat.add_0_r (2 + k)).
    apply (spends_bind _ _ _ _ (fun _ => True)); [apply spends_tryUnchanged | intros r _; by apply spends_ret].
  - intros fast _. assert (Hslow : forall skip, spends (3 + (3 + 2 * k + length (pieces p d))) (if echunkSize (pp_enc p) <=? se_size fe then processFileStreaming p fe prev skip
      else '(contentHash, ciphertext) ← hashAndEncryptFile (S := replay S) p (se_absPath fe) (se_size fe);
        checkAndUploadBlob fe (bool_decide (is_Some prev)) (from_option f_ContentHash [] prev) contentHash ciphertext (from_option f_Chunks [] prev)) (fun _ => True)).
    { intros skip. destruct (_ <=? _); [eapply spends_mono; [by apply (spends_streaming fe d) | lia | done] |].
      eapply (spends_mono (0 + 3)); [|lia | done]. apply (spends_bind _ _ _ _ (fun _ => True)); [apply spends_none, keeps_small |]. intros [h blob] _. apply spends_checkAndUpload. }
    destruct fast as [[e|]|]; [by apply spends_ret | apply Hslow..].
Qed.
End Count.

(** ** Every interleaving ends *)

Section Ends.
Context (p : pipe) (prevFiles : gmap bytes FileEntry) (content : scanEntry -> bytes) (files : list scanEntry).
Hypothesis Hcs : 0 < echunkSize (pp_enc p).
Hypothesis Hfiles : forall fe, fe ∈ files -> stable (se_absPath fe) (content fe) /\ se_size fe = blen (content fe).

Lemma history_bounded (tk : task S) : tk_file tk ∈ files -> idle (so_far p prevFiles tk).2 -> (length (tk_history tk) <= ops_bound p prevFiles (tk_file tk) (content (tk_file tk)))%nat.
Proof.
  intros [Hst Hsz]%Hfiles [Hl _]. pose proof (spends_processFile p prevFiles (tk_file tk) _ Hst Hsz Hcs (tk_start tk) eq_refl) as (_ & H & _).
  fold (so_far p prevFiles tk) in H. rewrite Hl, Nat.add_0_r in H. exact H.
Qed.

Definition operations (c : conf S) : nat := sum_list_with (fun tk => length (tk_history tk)) (cf_tasks c).

Lemma nsteps_operations n : forall c c', nsteps (istep p prevFiles) n c c' -> operations c' = (n + operations c)%nat /\ tk_file <$> cf_tasks c' = tk_file <$> cf_tasks c.
Proof.
  induction n as [|n IH]; intros c c' H; inversion H as [|? ? c1 ? Hst Hr]; subst; [done |]. destruct (IH _ _ Hr) as [-> ->]. destruct Hst as [s ts i tk q a s' Hi _ _].
  unfold operations. cbn [cf_tasks]. pose proof (sum_insert (fun tk => length (tk_history tk)) ts i tk (answered tk (Event q a s')) Hi) as Hs.
  cbn [tk_history answered] in Hs. rewrite length_app in Hs. cbn [length] in Hs. split; [lia |]. rewrite list_fmap_insert, list_insert_id; [done |]. by rewrite list_lookup_fmap, Hi.
Qed.

Lemma total_bounded (ts : list (task S)) : Forall (fun tk => tk_file tk ∈ files /\ idle (so_far p prevFiles tk).2) ts ->
  (sum_list_with (fun tk => length (tk_history tk)) ts <= sum_list_with (fun fe => ops_bound p prevFiles fe (content fe)) (tk_file <$> ts))%nat.
Proof. induction 1 as [|tk ts [Hin Hi] _ IH]; cbn [sum_list_with fmap list_fmap]; [lia |]. pose proof (history_bounded tk Hin Hi). lia. Qed.

Lemma interleaving_bounded s0 n (c c' : conf S) : beginning s0 files c -> nsteps (istep p prevFiles) n c c' ->
  (n <= sum_list_with (fun fe => ops_bound p prevFiles fe (content fe)) files)%nat.
Proof.
  intros Hb Hn. pose proof Hb as (_ & Hf & Hts). destruct (nsteps_operations n c c' Hn) as [Ho Hf']. rewrite Hf in Hf'.
  assert (H0 : Forall (fun tk => idle (so_far p prevFiles tk).2) (cf_tasks c)) by (eapply Forall_impl; [exact Hts |]; intros tk [_ E]; by apply returned_idle).
  assert (Hr : rtc (istep p prevFiles) c c') by (apply rtc_nsteps; by eexists). pose proof (steps_idle p prevFiles c c' H0 Hr) as Hi.
  assert (Hall : Forall (fun tk => tk_file tk ∈ files /\ idle (so_far p prevFiles tk).2) (cf_tasks c')).
  { apply Forall_forall. intros tk Htk. split; [rewrite <- Hf'; by apply list_elem_of_fmap_2 | by eapply (proj1 (Forall_forall _ _) Hi)]. }
  apply total_bounded in Hall. rewrite Hf' in Hall. unfold operations in Ho. lia.
Qed.
End Ends.

(** C7: several calls of [processFile] on one store, of files that do not change
    meanwhile, under a key of 16, 24 or 32 bytes and a chunk size of at most
    4 MiB, where no piece of content that is stored as a blob (a file below the
    chunk size, or a chunk) starts with the zstd magic number, no two have the
    same hash, what the store has under their hashes is theirs, and what the
    previous snapshot says of a file that looks unchanged is true.  However the
    calls interleave, each store operation being one step, and whichever of them
    have returned: the store stays right and keeps its blobs, and for every call
    that has reported an entry the entry carries what the scan saw, the restore
    accepts it, and the blobs it references are in the store and give back the
    file's content.  When the store answers every operation and nothing is
    cancelled, the only calls that fail are those to which the cipher refused a
    blob. *)
Theorem interleaved_uploads (dec : Decryptor) (P : list bytes) (p : pipe) (prevFiles : gmap bytes FileEntry) (content : scanEntry -> bytes) (room : Z) `{US : !UploadSpec (gives dec) P S}
    (s0 : S) (files : list scanEntry) (c c' : conf S) :
  sane (gives dec) P s0 -> (forall fe, fe ∈ files -> setting dec P p fe (content fe) prevFiles (PS s0 [] O [])) ->
  beginning s0 files c -> rtc (istep p prevFiles) c c' ->
  sane (gives dec) P (cf_store c') /\ extends P s0 (cf_store c') /\
  (forall i tk o, cf_tasks c' !! i = Some tk -> returned p prevFiles tk (Ok o) ->
    entry_for (tk_file tk) (o.1.1.1) /\ IsRestorable (o.1.1.1) = true /\
    file_content dec room (bs_blob (cf_store c')) (o.1.1.1) = Some (content (tk_file tk))) /\
  (bs_calm s0 -> Forall (fun tk => tk_ctx tk = []) (cf_tasks c) ->
    bs_calm (cf_store c') /\ forall i tk e, cf_tasks c' !! i = Some tk -> returned p prevFiles tk (Err e) -> is_gcm e).
Proof.
  intros Hs Hset Hb Hr. destruct (interleaved_stored dec P p prevFiles content s0 files Hs Hset c c' Hb Hr) as (Hs' & Hx & Hst).
  split; [done |]. split; [done |]. split; [|intros Hcs Hctx; by apply (interleaved_fails dec P p prevFiles content s0 files Hs Hset c c')].
  intros i tk o Hi Ho. pose proof (Hst i tk o Hi Ho) as H. pose proof H as (He & Hres & _).
  split; [done |]. split; [done |]. by eapply stored_content.
Qed.

(** C15: every interleaving of calls of [processFile] on files that keep the
    content and size they were scanned with ends: each call does at most a number
    of store operations that its chunks and those it had bound, no call is ever
    left without a next operation before it returns, and so when no call can go
    on all have returned. *)
Theorem interleaving_ends (p : pipe) (prevFiles : gmap bytes FileEntry) (content : scanEntry -> bytes) (s0 : S) (files : list scanEntry) (n : nat) (c c' : conf S) :
  0 < echunkSize (pp_enc p) -> (forall fe, fe ∈ files -> stable (se_absPath fe) (content fe) /\ se_size fe = blen (content fe)) ->
  beginning s0 files c -> nsteps (istep p prevFiles) n c c' ->
  (n <= sum_list_with (fun fe => ops_bound p prevFiles fe (content fe)) files)%nat /\
  ((forall c2, ~ istep p prevFiles c' c2) -> Forall (fun tk => exists r, returned p prevFiles tk r) (cf_tasks c')).
Proof.
  intros Hcs Hf Hb Hn. split; [by eapply interleaving_bounded |]. intros Hend. apply Forall_lookup. intros i tk Hi.
  assert (Hr : rtc (istep p prevFiles) c c') by (apply rtc_nsteps; by eexists).
  destruct (no_call_stuck p prevFiles s0 files c c' Hb Hr i tk Hi) as [? | (q & _ & c2 & Hst)]; [done | by destruct (Hend c2)].
Qed.
End Safe.
