(* ===== verification/BufPool.v ===== *)
(** BufPool: the pools of chunk buffers of [simple/pipeline.go] ([getChunkBuf],
    [putChunkBuf]).

    A [*\[\]byte] is an index into the buffers allocated so far, of which the
    capacity and the length are kept.  A [sync.Pool] is the list of what was put
    into it: [Get] takes any element, or calls [New], and the runtime may drop
    elements at any time.  [out] are the buffers that callers have and have not
    put back: the callers take one with [getChunkBuf] and put it back once, by a
    [defer]. *)

From S2P Require Import Prelude Crypto Restore.
From stdpp Require Import base list relations sorting.
Local Open Scope Z_scope.

Record buffer := Buffer { b_cap : Z; b_len : Z }.

Record pools := Pools { heap : list buffer; small : list nat; large : list nat; out : list nat }.

(** [make(\[\]byte, n)] behind a fresh pointer. *)
Definition make (n : Z) (s : pools) : nat * pools := (length (heap s), Pools (heap s ++ [Buffer n n]) (small s) (large s) (out s)).

(** [getChunkBuf]; [pick] is which element of the pool [Get] gives, [New] being
    called when there is none. *)
Definition getChunkBuf (minCap : Z) (pick : nat) (s : pools) : nat * pools :=
  if minCap <=? DefaultChunkSize then
    match small s !! pick with
    | Some b => (b, Pools (heap s) (delete pick (small s)) (large s) (out s))
    | None => make DefaultChunkSize s
    end
  else if minCap <=? cdcMaxSize then
    match large s !! pick with
    | Some b => (b, Pools (heap s) (small s) (delete pick (large s)) (out s))
    | None => make cdcMaxSize s
    end
  else make minCap s.

Definition truncate (b : nat) (h : list buffer) : list buffer := alter (fun x => Buffer (b_cap x) 0) b h.

(** [putChunkBuf]; [None] is the nil pointer. *)
Definition putChunkBuf (bp : option nat) (s : pools) : pools :=
  match bp with
  | None => s
  | Some b =>
      match heap s !! b with
      | None => s
      | Some x =>
          if b_cap x =? DefaultChunkSize then Pools (truncate b (heap s)) (small s ++ [b]) (large s) (out s)
          else if b_cap x =? cdcMaxSize then Pools (truncate b (heap s)) (small s) (large s ++ [b]) (out s)
          else s
      end
  end.

(** The buffers without [b]. *)
Definition without (b : nat) (l : list nat) : list nat := filter (fun x => x <> b) l.

Definition hold (b : nat) (s : pools) : pools := Pools (heap s) (small s) (large s) (b :: out s).
Definition release (b : nat) (s : pools) : pools := Pools (heap s) (small s) (large s) (without b (out s)).

(** What happens to the pools: a caller takes a buffer, a caller that has one
    puts it back, the garbage collector drops one. *)
Inductive step : pools -> pools -> Prop :=
| step_get minCap pick s : step s (hold (getChunkBuf minCap pick s).1 (getChunkBuf minCap pick s).2)
| step_put b s : b ∈ out s -> step s (release b (putChunkBuf (Some b) s))
| step_drop_small i s : step s (Pools (heap s) (delete i (small s)) (large s) (out s))
| step_drop_large i s : step s (Pools (heap s) (small s) (delete i (large s)) (out s)).

Definition start : pools := Pools [] [] [] [].

(** * Facts *)

(** A buffer of capacity [c]. *)
Definition sized (h : list buffer) (c : Z) (b : nat) : Prop := exists x, h !! b = Some x /\ b_cap x = c.

(** Each buffer is in one place, pooled buffers have the capacity of their pool. *)
Record inv (s : pools) : Prop := {
  inv_once : NoDup (small s ++ large s ++ out s);
  inv_heap : Forall (fun b => (b < length (heap s))%nat) (small s ++ large s ++ out s);
  inv_small : Forall (sized (heap s) DefaultChunkSize) (small s);
  inv_large : Forall (sized (heap s) cdcMaxSize) (large s)
}.

Lemma without_elem x b l : x ∈ without b l <-> x <> b /\ x ∈ l.
Proof. unfold without. by rewrite list_elem_of_filter. Qed.

Lemma without_sublist b l : without b l `sublist_of` l.
Proof. apply sublist_filter. Qed.

Lemma without_perm b l : NoDup l -> b ∈ l -> l ≡ₚ b :: without b l.
Proof.
  intros Hn [l1 [l2 ->]]%list_elem_of_split. apply NoDup_app in Hn as (_ & Hd & [Hb _]%NoDup_cons). assert (E : forall k, b ∉ k -> without b k = k).
  { induction k as [|x k IH]; [done |]. intros [Hx Hk]%not_elem_of_cons. unfold without. rewrite filter_cons_True by done. f_equal. by apply IH. }
  unfold without. rewrite filter_app, filter_cons_False by (by intros []). fold (without b l1) (without b l2).
  rewrite !E; [by rewrite Permutation_middle | done |]. intros Hx. apply (Hd b Hx). by left.
Qed.

Lemma Forall_sublist {A} (Q : A -> Prop) l k : l `sublist_of` k -> Forall Q k -> Forall Q l.
Proof. intros Hs Hk. apply Forall_forall. intros x Hx. apply (proj1 (Forall_forall _ _) Hk). eapply elem_of_submseteq; [exact Hx | by apply sublist_submseteq]. Qed.

Lemma sized_grow h y c b : sized h c b -> sized (h ++ [y]) c b.
Proof. intros (x & Hx & Hc). exists x. split; [by apply lookup_app_l_Some | done]. Qed.

Lemma sized_truncate h a c b : sized h c b -> sized (truncate a h) c b.
Proof.
  intros (x & Hx & Hc). unfold truncate, sized. destruct (decide (a = b)) as [-> |].
  - rewrite list_lookup_alter_eq, Hx. by eexists.
  - rewrite list_lookup_alter_ne by done. by exists x.
Qed.

Lemma inv_sub s sm la : inv s -> sm `sublist_of` small s -> la `sublist_of` large s -> inv (Pools (heap s) sm la (out s)).
Proof.
  intros [H1 H2 H3 H4] Hs Hl. assert (Hsub : (sm ++ la ++ out s) `sublist_of` (small s ++ large s ++ out s)) by (by repeat apply sublist_app).
  split; cbn; [by eapply sublist_NoDup | by eapply Forall_sublist | by eapply Forall_sublist | by eapply Forall_sublist].
Qed.

Lemma inv_perm s h sm la o : inv s -> sm ++ la ++ o ≡ₚ small s ++ large s ++ out s -> length h = length (heap s) ->
  Forall (sized h DefaultChunkSize) sm -> Forall (sized h cdcMaxSize) la -> inv (Pools h sm la o).
Proof. intros [H1 H2 H3 H4] Hp Hl Hs Hb. split; cbn; [by rewrite Hp | by rewrite Hp, Hl | done | done]. Qed.

Lemma perm_third {A} (x : A) a b c : a ++ b ++ x :: c ≡ₚ x :: a ++ b ++ c.
Proof. by rewrite (assoc_L (++) a b (x :: c)), <- Permutation_middle, <- (assoc_L (++) a b c). Qed.

Lemma inv_make n s : inv s -> inv (hold (make n s).1 (make n s).2) /\ (make n s).1 ∉ out s /\ sized (heap (make n s).2) n (make n s).1.
Proof.
  intros [H1 H2 H3 H4]. cbn. assert (Hf : length (heap s) ∉ small s ++ large s ++ out s).
  { intros Hin. apply (proj1 (Forall_forall _ _) H2) in Hin. lia. }
  split_and!.
  - pose proof (perm_third (length (heap s)) (small s) (large s) (out s)) as Hp.
    split; cbn.
    + rewrite Hp. by constructor.
    + rewrite Hp, length_app. cbn. constructor; [lia |]. eapply Forall_impl; [exact H2 |]. cbn. lia.
    + eapply Forall_impl; [exact H3 |]. intros b. apply sized_grow.
    + eapply Forall_impl; [exact H4 |]. intros b. apply sized_grow.
  - intros Hin. apply Hf. rewrite !elem_of_app. by right; right.
  - exists (Buffer n n). split; [|done]. by rewrite list_lookup_middle.
Qed.

Lemma get_ok minCap pick s : inv s -> let '(b, s') := getChunkBuf minCap pick s in
  inv (hold b s') /\ b ∉ out s /\ exists x, heap s' !! b = Some x /\ minCap <= b_cap x.
Proof.
  intros Hi. pose proof (inv_once s Hi) as Hnd. unfold getChunkBuf.
  assert (Hnew : forall n, minCap <= n -> let '(b, s') := make n s in inv (hold b s') /\ b ∉ out s /\ exists x, heap s' !! b = Some x /\ minCap <= b_cap x).
  { intros n Hn. destruct (inv_make n s Hi) as (H1 & H2 & (x & Hx & <-)). split; [done |]. split; [done |]. by exists x. }
  destruct (Z.leb_spec minCap DefaultChunkSize); [|destruct (Z.leb_spec minCap cdcMaxSize); [|apply Hnew; lia]].
  - destruct (small s !! pick) as [b|] eqn:Ei; [|by apply Hnew]. pose proof (list_elem_of_lookup_2 _ _ _ Ei) as E.
    apply NoDup_app in Hnd as (Hs & Hd & _). destruct (proj1 (Forall_forall _ _) (inv_small s Hi) b E) as (x & Hx & Hc). split_and!.
    + apply (inv_perm s); cbn; [done | | done | eapply Forall_sublist; [apply sublist_delete | apply inv_small, Hi] | apply inv_large, Hi].
      rewrite (delete_Permutation (small s) pick b Ei) at 2. apply perm_third.
    + intros Hin. apply (Hd b E). rewrite elem_of_app. by right.
    + exists x. split; [done | lia].
  - destruct (large s !! pick) as [b|] eqn:Ei; [|by apply Hnew]. pose proof (list_elem_of_lookup_2 _ _ _ Ei) as E.
    apply NoDup_app in Hnd as (_ & _ & (Hs & Hd & _)%NoDup_app). destruct (proj1 (Forall_forall _ _) (inv_large s Hi) b E) as (x & Hx & Hc). split_and!.
    + apply (inv_perm s); cbn; [done | | done | apply inv_small, Hi | eapply Forall_sublist; [apply sublist_delete | apply inv_large, Hi]].
      f_equiv. rewrite (delete_Permutation (large s) pick b Ei) at 2. cbn. by rewrite <- Permutation_middle.
    + intros Hin. by apply (Hd b E).
    + exists x. split; [done | lia].
Qed.

Lemma length_truncate b h : length (truncate b h) = length h.
Proof. apply length_alter. Qed.

Lemma Forall_truncate b h c l : Forall (sized h c) l -> Forall (sized (truncate b h) c) l.
Proof. intros H. eapply Forall_impl; [exact H |]. intros x. apply sized_truncate. Qed.

Lemma put_ok b s : inv s -> b ∈ out s -> inv (release b (putChunkBuf (Some b) s)).
Proof.
  intros Hi Hb. pose proof Hi as [Hnd Hh Hsm Hla]. apply NoDup_app in Hnd as (_ & _ & (_ & _ & Ho)%NoDup_app). pose proof (without_perm b (out s) Ho Hb) as Hp.
  cbn [putChunkBuf]. destruct (heap s !! b) as [x|] eqn:E; [|by apply lookup_ge_None in E; assert (b < length (heap s))%nat by (apply (proj1 (Forall_forall _ _) Hh); rewrite !elem_of_app; auto); lia].
  assert (Hx : forall c, b_cap x = c -> sized (truncate b (heap s)) c b) by (intros c Hc; apply sized_truncate; by exists x).
  destruct (Z.eqb_spec (b_cap x) DefaultChunkSize) as [Ec|_]; [|destruct (Z.eqb_spec (b_cap x) cdcMaxSize) as [Ec|_]].
  - apply (inv_perm s); cbn; [done | | apply length_truncate | | by apply Forall_truncate].
    + rewrite <- app_assoc. f_equiv. cbn. rewrite Permutation_middle. f_equiv. by rewrite Hp at 2.
    + apply Forall_app. split; [by apply Forall_truncate | apply Forall_singleton; by apply Hx].
  - apply (inv_perm s); cbn; [done | | apply length_truncate | by apply Forall_truncate |].
    + rewrite <- (app_assoc (large s)). do 2 f_equiv. by rewrite Hp at 2.
    + apply Forall_app. split; [by apply Forall_truncate | apply Forall_singleton; by apply Hx].
  - destruct Hi as [H1 H2 H3 H4]. assert (Hsub : (small s ++ large s ++ without b (out s)) `sublist_of` (small s ++ large s ++ out s)) by (repeat apply sublist_app; [done | done | apply without_sublist]).
    split; cbn; [eapply sublist_NoDup; [exact H1 | exact Hsub] | exact (Forall_sublist _ _ _ Hsub H2) | done | done].
Qed.

Lemma pools_inv_step s s' : step s s' -> inv s -> inv s'.
Proof.
  intros [minCap pick t | b t Hb | b t | b t] Hi.
  - pose proof (get_ok minCap pick t Hi) as H. by destruct (getChunkBuf minCap pick t) as [b t']; destruct H.
  - by apply put_ok.
  - by apply inv_sub; [| apply sublist_delete |].
  - by apply inv_sub; [| | apply sublist_delete].
Qed.

(** C39: a chunk buffer has one user: however callers take and return buffers
    and whatever the runtime drops, no two callers have the same buffer, what a
    caller is given is not in anybody's hands, and it is large enough for the
    capacity asked for, so that slicing it to that length never fails. *)
Theorem buffers_exclusive s minCap pick : rtc step start s ->
  NoDup (out s) /\ Forall (fun b => b ∉ small s /\ b ∉ large s) (out s) /\
  let '(b, s') := getChunkBuf minCap pick s in b ∉ out s /\ exists x, heap s' !! b = Some x /\ minCap <= b_cap x.
Proof.
  intros Hr. assert (Hi : inv s).
  { assert (H0 : inv start) by (by split; repeat constructor). revert H0. induction Hr as [|a b c Hab _ IH]; [done |]. intros Ha. by apply IH, (pools_inv_step a). }
  pose proof (inv_once s Hi) as (_ & Hd1 & (_ & Hd2 & Ho)%NoDup_app)%NoDup_app. split; [done |]. split.
  - apply Forall_forall. intros b Hb. split; intros Hx; [apply (Hd1 b Hx); rewrite elem_of_app; by right | by apply (Hd2 b Hx)].
  - pose proof (get_ok minCap pick s Hi) as H. destruct (getChunkBuf minCap pick s) as [b s']. by destruct H as (_ & ? & ?).
Qed.

Module BufWitness.

(** Two callers take a buffer each, the first puts its own back, a third takes
    that one again. *)
Definition two : pools := hold 1 (getChunkBuf 5000000 0 (hold 0 (getChunkBuf 100 0 start).2)).2.
Definition back : pools := release 0 (putChunkBuf (Some 0%nat) two).

Lemma back_reached : rtc step start back.
Proof.
  eapply rtc_l; [exact (step_get 100 0 start) |]. eapply rtc_l; [exact (step_get 5000000 0 (hold 0 (getChunkBuf 100 0 start).2)) |].
  eapply rtc_l; [|apply rtc_refl]. apply (step_put 0). vm_compute. right. left.
Qed.

Lemma buffers_exclusive_witness : getChunkBuf 4194304 0 back = (0%nat, Pools [Buffer 4194304 0; Buffer 16777216 16777216] [] [] [1%nat]) /\ 0%nat ∉ out back.
Proof.
  split; [vm_compute; reflexivity |]. pose proof (buffers_exclusive back 4194304 0 back_reached) as (_ & _ & H).
  assert (E : (getChunkBuf 4194304 0 back).1 = 0%nat) by (vm_compute; reflexivity). destruct (getChunkBuf 4194304 0 back) as [b s']. cbn in E. rewrite E in H. exact (proj1 H).
Defined.

(** A fresh buffer has its full length, not length 0. *)
Example fresh_length : exists b, heap (getChunkBuf 100 0 start).2 !! (getChunkBuf 100 0 start).1 = Some b /\ b_len b = 4194304.
Proof. eexists. by vm_compute. Qed.

(** Putting a buffer back twice would give it to two callers. *)
Example double_put_shares :
  let s := putChunkBuf (Some 0%nat) (putChunkBuf (Some 0%nat) (getChunkBuf 100 0 start).2) in small s = [0%nat; 0%nat].
Proof. by vm_compute. Qed.
End BufWitness.
