(* ===== verification/Scan.v ===== *)
(** Scan: what a backup finds in the source tree ([loadExcludePatterns],
    [scanSourceTree], [addEmptyDirs] and [countDeletedFiles] of
    [simple/pipeline.go]).

    The source tree is a [node]: what [os.Lstat] and [readDirNames] of
    [filepath.Walk] answer, the names in the order of the walk.  A symbolic link
    is a [Leaf].  [walk] is [filepath.Walk] with [walkFn] as its callback; the
    state are the variables the callback captures and the answers of
    [ctx.Err()].  The list of sample error paths only feeds a log message. *)

From S2P Require Import Prelude GoStr Ignore Externs Compress Crypto Stream FS BlobStore Blob Manifest RestorePath SecureDir Restore PipeFile.
From stdpp Require Import base list gmap strings.
From Stdlib.Strings Require Import Byte.
Local Open Scope Z_scope.

(** ** The source tree *)

(** Size, formatted modification time and permission bits of [os.FileInfo]. *)
Record finfo := MkInfo { fi_Size : Z; fi_ModTime : bytes; fi_Perm : Z }.

Inductive node :=
| NoStat
| Leaf (i : finfo)
| Folder (i : finfo) (listing : option (list (bytes * node))).

(** [filepath.Rel]; [None] is an error. *)
Definition Rel (base targ : bytes) : option bytes :=
  if negb (Bool.eqb (IsAbs base) (IsAbs targ)) then None
  else
    let '(b, t) := strip_common (root_segs base) (root_segs targ) in
    if bool_decide (head b = Some s_dotdot) then None
    else Some (match replicate (length b) s_dotdot ++ t with [] => s_dot | l => GoStr.Join s_slash l end).

(** ** The scan *)

Record excludes := MkExcludes { posExcludes : list bytes; negExcludes : list bytes; sizeFilters : list SizeFilter }.

Definition loadExcludePatterns (ReadFile : bytes -> option bytes) (cfgExcludes : list bytes) (scanPath : bytes) : excludes :=
  let '(p, n, s) := SplitExcludePatterns (MergeExcludes cfgExcludes (LoadIgnoreFile ReadFile scanPath)) in MkExcludes p n s.

Inductive wstop := SkipDir | WalkCancelled.

Record scan := Scan { sc_files : list scanEntry; sc_dirs : list scanEntry; sc_errs : Z; sc_ctx : list bool }.

(** The next answer of [ctx.Err()]; it stays nil once the list is used up. *)
Definition ctx_err : eff scan wstop bool :=
  fun s => match sc_ctx s with
           | [] => (Ok false, s)
           | b :: l => (Ok b, Scan (sc_files s) (sc_dirs s) (sc_errs s) l)
           end.

Section Walk.
Context (scanPath : bytes) (ex : excludes).

(** The callback; [info] is the name, [IsDir] and the rest of the file info. *)
Definition walkFn (path : bytes) (info : option (bytes * bool * finfo)) (failed : bool) : eff scan wstop unit :=
  if failed then
    _ ← modify (fun s => Scan (sc_files s) (sc_dirs s) (sc_errs s + 1) (sc_ctx s));
    match info with Some (_, true, _) => throw SkipDir | _ => mret tt end
  else
    c ← ctx_err;
    if (c : bool) then throw WalkCancelled
    else
      match Rel scanPath path, info with
      | Some relPath, Some (name, isDir, i) =>
          if eqs relPath s_dot then mret tt
          else if (isDir : bool) then
            if eqs name IgnoreFileName then throw SkipDir
            else if ShouldSkipDir relPath (posExcludes ex) (negExcludes ex) then throw SkipDir
            else modify (fun s => Scan (sc_files s) (sc_dirs s ++ [MkScan relPath path 0 (fi_ModTime i) (fi_Perm i)]) (sc_errs s) (sc_ctx s))
          else if IsExcluded relPath (posExcludes ex) (negExcludes ex) then mret tt
          else if (match sizeFilters ex with [] => false | _ => true end) && IsSizeExcluded (fi_Size i) (sizeFilters ex) then mret tt
          else modify (fun s => Scan (sc_files s ++ [MkScan relPath path (fi_Size i) (fi_ModTime i) (fi_Perm i)]) (sc_dirs s) (sc_errs s) (sc_ctx s))
      | _, _ => mret tt
      end.

Definition is_leaf (n : node) : bool := match n with Leaf _ => true | _ => false end.

(** [walk], with the failing [Lstat] of its caller. *)
Fixpoint walk (path name : bytes) (n : node) : eff scan wstop unit :=
  match n with
  | NoStat => walkFn path None true
  | Leaf i => walkFn path (Some (name, false, i)) false
  | Folder i None => walkFn path (Some (name, true, i)) true
  | Folder i (Some children) =>
      _ ← walkFn path (Some (name, true, i)) false;
      (fix loop (cs : list (bytes * node)) : eff scan wstop unit :=
         match cs with
         | [] => mret tt
         | (nm, c) :: cs' =>
             r ← attempt (walk (FpJoin [path; nm]) nm c);
             match r with
             | Ok _ => loop cs'
             | Err SkipDir => if is_leaf c then throw SkipDir else loop cs'
             | Err e => throw e
             end
         end) children
  end.

(** Files, directories and the number of errors, or the cancellation. *)
Definition scanSourceTree (root : node) (ctx : list bool) : result unit (list scanEntry * list scanEntry * Z) :=
  match walk scanPath (Base scanPath) root (Scan [] [] 0 ctx) with
  | (Err WalkCancelled, _) => Err tt
  | (_, s) => Ok (sc_files s, sc_dirs s, sc_errs s)
  end.
End Walk.

(** ** Directories and deletions *)

(** The proper ancestors of a path, as the first loop of [addEmptyDirs]
    enumerates them. *)
Definition ancestors (relPath : bytes) : list bytes :=
  let parts := Split slash relPath in
  (fun j => GoStr.Join s_slash (take j parts)) <$> seq 1 (length parts - 1).

(** The keys of [dirHasChildren]. *)
Definition dirHasChildren (files dirEntries : list scanEntry) : gset bytes :=
  list_to_set (files ≫= fun f => ancestors (se_relPath f)) ∪
  list_to_set (omap (fun d => match LastIndexByte (se_relPath d) slash with Some i => Some (take i (se_relPath d)) | None => None end) dirEntries).

Definition addEmptyDirs (m : Manifest) (files dirEntries : list scanEntry) : Manifest :=
  let has := dirHasChildren files dirEntries in
  foldl (fun m d =>
    if bool_decide (se_relPath d ∈ has) then m
    else if eqs (default [] (last (Split slash (se_relPath d)))) [] then m
    else AddEmptyDir m (se_relPath d)) m dirEntries.

Definition countDeletedFiles (prevFiles : gmap bytes FileEntry) (files : list scanEntry) : Z :=
  let curSet : gset bytes := list_to_set (se_relPath <$> files) in
  Z.of_nat (length (filter (fun p => p ∉ curSet) (map_to_list prevFiles).*1)).

(** * Facts *)

Lemma node_induction (P : node -> Prop) : P NoStat -> (forall i, P (Leaf i)) -> (forall i, P (Folder i None)) ->
  (forall i cs, Forall (fun c => P c.2) cs -> P (Folder i (Some cs))) -> forall n, P n.
Proof.
  intros H1 H2 H3 H4. fix IH 1. intros [|i|i [cs|]]; [exact H1 | apply H2 | apply H4 | apply H3].
  revert cs. fix IHcs 1. intros [|[nm c] cs]; constructor; [apply IH | apply IHcs].
Qed.

(** ** Relative paths *)

Lemma strip_common_prefix l k : strip_common l (l ++ k) = ([], k).
Proof. induction l as [|x l IH]; cbn; [by destruct k |]. by rewrite eqs_refl. Qed.

Lemma Rel_self base : Rel base base = Some s_dot.
Proof. unfold Rel. rewrite Bool.eqb_reflx. cbn [negb]. rewrite <- (app_nil_r (root_segs base)) at 2. by rewrite strip_common_prefix. Qed.

Lemma Rel_joined base k : k <> [] -> Forall normal k -> Rel base (FpJoin (base :: k)) = Some (GoStr.Join s_slash k).
Proof.
  intros Hk Hf. destruct (root_joined base k Hk Hf) as [Hp Hs]. unfold Rel. rewrite Hs, strip_common_prefix.
  assert (Ha : IsAbs (FpJoin (base :: k)) = IsAbs base) by (unfold root_pre in Hp; by destruct (IsAbs (FpJoin _)), (IsAbs base)).
  rewrite Ha, Bool.eqb_reflx. cbn. by destruct k.
Qed.

(** The path at which the walk visits the elements [k]. *)
Definition at_path (base : bytes) (k : list bytes) : bytes := match k with [] => base | _ => FpJoin (base :: k) end.

Lemma at_path_snoc base k s : Forall normal k -> normal s -> FpJoin [at_path base k; s] = at_path base (k ++ [s]).
Proof.
  intros Hk Hs. destruct k as [|x k]; [done |]. unfold at_path at 1. rewrite FpJoin_nested, <- FpJoin_snoc by done. done.
Qed.

Lemma Join_not_dot k : k <> [] -> Forall normal k -> eqs (GoStr.Join s_slash k) s_dot = false.
Proof.
  intros Hk Hf. apply eqs_false. intros E. apply (f_equal (Split slash)) in E. unfold s_slash in E.
  rewrite Split_Join in E; [|done | eapply Forall_impl; [done | by intros ? ?%normal_noslash]]. change (Split slash s_dot) with [s_dot] in E. subst k.
  apply Forall_cons in Hf as [(_ & Hd & _) _]. done.
Qed.

(** ** The walk as a list of events *)

Inductive event := EvFile (fe : scanEntry) | EvDir (fe : scanEntry) | EvErr.

Definition put_event (s : scan) (e : event) : scan :=
  match e with
  | EvFile fe => Scan (sc_files s ++ [fe]) (sc_dirs s) (sc_errs s) (sc_ctx s)
  | EvDir fe => Scan (sc_files s) (sc_dirs s ++ [fe]) (sc_errs s) (sc_ctx s)
  | EvErr => Scan (sc_files s) (sc_dirs s) (sc_errs s + 1) (sc_ctx s)
  end.

(** Names are path elements, no two children of a folder share one. *)
Fixpoint well_formed (n : node) : Prop :=
  match n with
  | Folder _ (Some cs) =>
      NoDup cs.*1 /\ Forall normal cs.*1 /\
      (fix all (cs : list (bytes * node)) : Prop := match cs with [] => True | (_, c) :: cs' => well_formed c /\ all cs' end) cs
  | _ => True
  end.

Lemma well_formed_folder i cs : well_formed (Folder i (Some cs)) <-> NoDup cs.*1 /\ Forall normal cs.*1 /\ Forall (fun c => well_formed c.2) cs.
Proof.
  cbn [well_formed]. assert (H : forall l : list (bytes * node), (fix all (cs : list (bytes * node)) : Prop := match cs with [] => True | (_, c) :: cs' => well_formed c /\ all cs' end) l <-> Forall (fun c => well_formed c.2) l).
  { induction l as [|[nm c] l IH]; [done |]. rewrite Forall_cons, IH. done. }
  by rewrite H.
Qed.

Section Exact.
Context (scanPath : bytes) (ex : excludes).

(** The rules on the directory and the file with the elements [k]. *)
Definition dir_kept (k : list bytes) : bool :=
  match k with
  | [] => true
  | _ => negb (eqs (default [] (last k)) IgnoreFileName)
         && negb (ShouldSkipDir (GoStr.Join s_slash k) (posExcludes ex) (negExcludes ex))
  end.

Definition file_kept (k : list bytes) (i : finfo) : bool :=
  match k with
  | [] => false
  | _ => negb (IsExcluded (GoStr.Join s_slash k) (posExcludes ex) (negExcludes ex)) && negb (IsSizeExcluded (fi_Size i) (sizeFilters ex))
  end.

Definition file_entry (k : list bytes) (i : finfo) : scanEntry :=
  MkScan (GoStr.Join s_slash k) (at_path scanPath k) (fi_Size i) (fi_ModTime i) (fi_Perm i).
Definition dir_entry (k : list bytes) (i : finfo) : scanEntry :=
  MkScan (GoStr.Join s_slash k) (at_path scanPath k) 0 (fi_ModTime i) (fi_Perm i).

Fixpoint collect (k : list bytes) (n : node) : list event :=
  match n with
  | NoStat | Folder _ None => [EvErr]
  | Leaf i => if file_kept k i then [EvFile (file_entry k i)] else []
  | Folder i (Some cs) =>
      if dir_kept k then
        (match k with [] => [] | _ => [EvDir (dir_entry k i)] end) ++
        (fix go (cs : list (bytes * node)) := match cs with [] => [] | (nm, c) :: cs' => collect (k ++ [nm]) c ++ go cs' end) cs
      else []
  end.

(** Does the walk of [n] end with [SkipDir]? *)
Definition skips (k : list bytes) (n : node) : bool :=
  match n with Folder _ None => true | Folder _ (Some _) => negb (dir_kept k) | _ => false end.

Lemma collect_folder k i cs : collect k (Folder i (Some cs)) =
  if dir_kept k then (match k with [] => [] | _ => [EvDir (dir_entry k i)] end) ++ (cs ≫= fun c => collect (k ++ [c.1]) c.2) else [].
Proof.
  cbn [collect]. destruct (dir_kept k); [|done]. f_equal. induction cs as [|[nm c] cs IH]; [done |]. cbn. by rewrite IH.
Qed.

Lemma put_events_ctx es s : sc_ctx (foldl put_event s es) = sc_ctx s.
Proof. revert s. induction es as [|[] es IH]; intros s; cbn; [done | ..]; by rewrite IH. Qed.

(** The callback on a visited entry, the context being live. *)
Lemma walkFn_live k isDir i s : Forall normal k -> sc_ctx s = [] ->
  walkFn scanPath ex (at_path scanPath k) (Some (default [] (last k), isDir, i)) false s =
  match k with
  | [] => (Ok tt, s)
  | _ => if (isDir : bool) then if dir_kept k then (Ok tt, put_event s (EvDir (dir_entry k i))) else (Err SkipDir, s)
         else if file_kept k i then (Ok tt, put_event s (EvFile (file_entry k i))) else (Ok tt, s)
  end.
Proof.
  intros Hk Hc. unfold walkFn. unfold mbind, eff_bind, ctx_err. rewrite Hc. destruct k as [|x k].
  - unfold at_path. rewrite Rel_self. by rewrite eqs_refl.
  - change (at_path scanPath (x :: k)) with (FpJoin (scanPath :: x :: k)). rewrite Rel_joined, Join_not_dot by done.
    unfold dir_kept, file_kept. destruct isDir.
    + destruct (eqs _ IgnoreFileName); [done |]. by destruct (ShouldSkipDir _ _ _).
    + destruct (IsExcluded _ _ _); [done |]. unfold IsSizeExcluded. destruct (sizeFilters ex); [done |]. cbn [andb]. by destruct (existsb _ _).
Qed.

Lemma walk_collect n : forall k s, well_formed n -> Forall normal k -> sc_ctx s = [] ->
  walk scanPath ex (at_path scanPath k) (default [] (last k)) n s =
  (if skips k n then Err SkipDir else Ok tt, foldl put_event s (collect k n)).
Proof.
  induction n as [|i|i|i cs IH] using node_induction; intros k s Hwf Hk Hc.
  - done.
  - cbn [walk skips collect]. rewrite walkFn_live by done. destruct k as [|x k]; [done |]. by destruct (file_kept (x :: k) i).
  - done.
  - apply well_formed_folder in Hwf as (_ & Hn & Hwf).
    assert (Hloop : forall s', sc_ctx s' = [] ->
      (fix loop (cs : list (bytes * node)) : eff scan wstop unit :=
         match cs with
         | [] => mret tt
         | (nm, c) :: cs' =>
             r ← attempt (walk scanPath ex (FpJoin [at_path scanPath k; nm]) nm c);
             match r with
             | Ok _ => loop cs'
             | Err SkipDir => if is_leaf c then throw SkipDir else loop cs'
             | Err e => throw e
             end
         end) cs s' = (Ok tt, foldl put_event s' (cs ≫= fun c => collect (k ++ [c.1]) c.2))).
    { clear Hc s. induction IH as [|[nm c] cs Hcn _ IHcs]; intros s' Hc; [done |].
      apply Forall_cons in Hn as [Hnm Hn], Hwf as [Hwc Hwf]. cbn [fst snd] in *. unfold mbind at 1, eff_bind at 1, attempt at 1.
      rewrite at_path_snoc by done. pose proof (Hcn (k ++ [nm]) s' Hwc ltac:(apply Forall_app; auto) Hc) as E.
      rewrite last_snoc in E. cbn [default from_option id] in E. rewrite E. clear E.
      assert (Hctx : sc_ctx (foldl put_event s' (collect (k ++ [nm]) c)) = []) by (by rewrite put_events_ctx).
      rewrite bind_cons, foldl_app. destruct (skips (k ++ [nm]) c) eqn:Es; [|by apply IHcs].
      assert (El : is_leaf c = false) by (by destruct c). rewrite El. by apply IHcs. }
    rewrite collect_folder. cbn [walk skips]. unfold mbind at 1, eff_bind at 1. rewrite walkFn_live by done.
    destruct k as [|x k]; [by rewrite Hloop |]. destruct (dir_kept (x :: k)); [|done].
    rewrite Hloop by done. by rewrite foldl_app.
Qed.

(** ** Which events there are *)

(** The node at the elements [k]. *)
Fixpoint find (n : node) (k : list bytes) : option node :=
  match k with
  | [] => Some n
  | x :: k' =>
      match n with
      | Folder _ (Some cs) => match list_find (fun c : bytes * node => c.1 = x) cs with Some (_, c) => find c.2 k' | None => None end
      | _ => None
      end
  end.

(** Every folder above the elements [j] below [k] is kept. *)
Definition open_above (k j : list bytes) : Prop := forall p x q, j = p ++ x :: q -> dir_kept (k ++ p) = true.

Definition own (k : list bytes) (n : node) : list event :=
  match n with
  | NoStat | Folder _ None => [EvErr]
  | Leaf i => if file_kept k i then [EvFile (file_entry k i)] else []
  | Folder i (Some _) => if dir_kept k then match k with [] => [] | _ => [EvDir (dir_entry k i)] end else []
  end.

Lemma list_find_key (cs : list (bytes * node)) nm c : NoDup cs.*1 -> (nm, c) ∈ cs -> exists i, list_find (fun c : bytes * node => c.1 = nm) cs = Some (i, (nm, c)).
Proof.
  induction cs as [|[x d] cs IH]; [by intros _ ?%elem_of_nil |]. intros [Hx Hn]%NoDup_cons [[= <- <-] | Hin]%elem_of_cons.
  - exists 0%nat. cbn. by rewrite decide_True.
  - destruct (IH Hn Hin) as [i Hi]. exists (S i). cbn. rewrite decide_False; [by rewrite Hi |]. intros ->. apply Hx, list_elem_of_fmap. by exists (nm, c).
Qed.

Lemma open_above_cons k x j : open_above k (x :: j) <-> dir_kept k = true /\ open_above (k ++ [x]) j.
Proof.
  split.
  - intros H. split; [rewrite <- (app_nil_r k); by eapply (H [] x j) |]. intros p y q ->. rewrite <- app_assoc. by eapply (H (x :: p)).
  - intros [H1 H2] [|y p] z q [= <- ->]; [by rewrite app_nil_r |]. specialize (H2 p z q eq_refl). by rewrite <- app_assoc in H2.
Qed.

Lemma collect_elem n : forall k e, well_formed n ->
  e ∈ collect k n <-> exists j m, find n j = Some m /\ open_above k j /\ e ∈ own (k ++ j) m.
Proof.
  assert (Hself : forall k e n, e ∈ own k n -> exists j m, find n j = Some m /\ open_above k j /\ e ∈ own (k ++ j) m).
  { intros k e n0 He. exists [], n0. split; [done |]. split; [by intros [] ? ? | by rewrite app_nil_r]. }
  assert (Hleaf : forall k e n, (forall x j, find n (x :: j) = None) -> (exists j m, find n j = Some m /\ open_above k j /\ e ∈ own (k ++ j) m) -> e ∈ own k n).
  { intros k e n0 Hno ([|x j] & m & Hf & _ & He); [|by rewrite Hno in Hf]. injection Hf as <-. by rewrite app_nil_r in He. }
  induction n as [|i|i|i cs IH] using node_induction; intros k e Hwf; try (split; [intros He; apply Hself; exact He | intros He; by apply Hleaf in He]).
  apply well_formed_folder in Hwf as (Hnd & _ & Hwf). rewrite collect_folder. rewrite !Forall_forall in IH, Hwf.
  destruct (dir_kept k) eqn:Ek.
  - rewrite elem_of_app, list_elem_of_bind. split.
    + intros [He | ([nm c] & He & Hc)]; [apply Hself; unfold own; by rewrite Ek |].
      apply (IH _ Hc) in He as (j & m & Hf & Ho & He); [|by apply (Hwf _ Hc)]. cbn [fst snd] in *.
      exists (nm :: j), m. destruct (list_find_key cs nm c Hnd Hc) as [x Hx]. cbn [find]. rewrite Hx. split; [done |].
      split; [by apply open_above_cons |]. by rewrite cons_middle, app_assoc.
    + intros ([|nm j] & m & Hf & Ho & He); [injection Hf as <-; rewrite app_nil_r in He; cbn in He; rewrite Ek in He; by left |]. right.
      cbn [find] in Hf. destruct (list_find _ cs) as [[x [nm' c]]|] eqn:Ex; [|done]. apply list_find_Some in Ex as (Hx & Hnm & _). cbn in Hnm. subst nm'.
      apply list_elem_of_lookup_2 in Hx. exists (nm, c). split; [|done]. apply (IH _ Hx); [by apply (Hwf _ Hx) |]. exists j, m. cbn [fst snd] in *.
      split; [done |]. apply open_above_cons in Ho as [_ Ho]. split; [done |]. by rewrite cons_middle, app_assoc in He.
  - split; [by intros ?%elem_of_nil |]. intros ([|nm j] & m & Hf & Ho & He).
    + injection Hf as <-. rewrite app_nil_r in He. cbn in He. rewrite Ek in He. by apply elem_of_nil in He.
    + apply open_above_cons in Ho as [Ho _]. congruence.
Qed.

(** ** No path twice *)

Definition file_of (e : event) : option scanEntry := match e with EvFile fe => Some fe | _ => None end.
Definition dir_of (e : event) : option scanEntry := match e with EvDir fe => Some fe | _ => None end.
Definition paths (es : list event) : list bytes := se_relPath <$> omap file_of es.

Definition is_err (e : event) : bool := match e with EvErr => true | _ => false end.

Lemma put_events es : forall s, foldl put_event s es =
  Scan (sc_files s ++ omap file_of es) (sc_dirs s ++ omap dir_of es) (sc_errs s + Z.of_nat (length (filter (fun e => is_err e = true) es))) (sc_ctx s).
Proof.
  induction es as [|e es IH]; intros [fs ds n c]; cbn [foldl]; [cbn; by rewrite !app_nil_r, Z.add_0_r |].
  rewrite IH, filter_cons. destruct e; cbn [put_event sc_files sc_dirs sc_errs sc_ctx is_err]; case_decide; try done;
    cbn [length omap list_omap file_of dir_of]; rewrite <- ?app_assoc; f_equal; lia.
Qed.

Lemma paths_bind {A} (f : A -> list event) l : paths (l ≫= f) = l ≫= fun a => paths (f a).
Proof.
  unfold paths. induction l as [|a l IH]; [done |]. rewrite !bind_cons, <- IH, omap_app, fmap_app. done.
Qed.

Lemma paths_below n k p : well_formed n -> p ∈ paths (collect k n) -> exists j i, find n j = Some (Leaf i) /\ p = GoStr.Join s_slash (k ++ j).
Proof.
  intros Hwf. unfold paths. intros (fe & -> & Hfe)%list_elem_of_fmap. apply list_elem_of_omap in Hfe as (e & He & Hf).
  apply collect_elem in He as (j & m & Hfind & _ & He); [|done]. exists j. destruct m as [|i|i [cs|]]; cbn in He.
  - apply list_elem_of_singleton in He as ->. done.
  - exists i. destruct (file_kept (k ++ j) i); [|by apply elem_of_nil in He]. apply list_elem_of_singleton in He as ->. cbn in Hf. by simplify_eq.
  - destruct (dir_kept (k ++ j)); [|by apply elem_of_nil in He]. destruct (k ++ j); [by apply elem_of_nil in He |]. apply list_elem_of_singleton in He as ->. done.
  - apply list_elem_of_singleton in He as ->. done.
Qed.

Lemma find_normal n : forall j m, well_formed n -> find n j = Some m -> Forall normal j.
Proof.
  induction n as [|i|i|i cs IH] using node_induction; intros [|x j] m Hwf Hf; try done.
  apply well_formed_folder in Hwf as (_ & Hn & Hwf). cbn [find] in Hf. destruct (list_find _ cs) as [[y [nm c]]|] eqn:Ex; [|done].
  apply list_find_Some in Ex as (Hx & Hnm & _). cbn in Hnm. subst nm. apply list_elem_of_lookup_2 in Hx.
  pose proof (proj1 (Forall_forall _ _) IH) as IH'. pose proof (proj1 (Forall_forall _ _) Hwf) as Hwf'. pose proof (proj1 (Forall_forall _ _) Hn) as Hn'.
  constructor; [apply Hn', list_elem_of_fmap; by exists (x, c) |]. eapply (IH' _ Hx); [by apply (Hwf' _ Hx) | exact Hf].
Qed.

Lemma Join_inj k k' : k <> [] -> k' <> [] -> Forall normal k -> Forall normal k' -> GoStr.Join s_slash k = GoStr.Join s_slash k' -> k = k'.
Proof.
  intros Hk Hk' Hn Hn' E. apply (f_equal (Split slash)) in E. unfold s_slash in E.
  rewrite !Split_Join in E; [done | | | |]; try done; (eapply Forall_impl; [done | by intros ? ?%normal_noslash]).
Qed.

Lemma paths_NoDup n : forall k, well_formed n -> Forall normal k -> NoDup (paths (collect k n)).
Proof.
  induction n as [|i|i|i cs IH] using node_induction; intros k Hwf Hk; try (by constructor).
  - cbn. destruct (file_kept k i); [apply NoDup_singleton | constructor].
  - rewrite collect_folder. destruct (dir_kept k); [|constructor]. pose proof Hwf as (Hnd & Hn & Hwc)%well_formed_folder.
    assert (E : paths (match k with [] => [] | _ => [EvDir (dir_entry k i)] end) = []) by (by destruct k).
    unfold paths. rewrite omap_app, fmap_app. fold (paths (match k with [] => [] | _ => [EvDir (dir_entry k i)] end)). rewrite E. cbn [app].
    fold (paths (cs ≫= fun c => collect (k ++ [c.1]) c.2)). rewrite paths_bind. pose proof (proj1 (Forall_forall _ _) IH) as IH'. rewrite Forall_forall in Hn. rewrite Forall_forall in Hwc.
    assert (Hnm : forall c, c ∈ cs -> normal c.1) by (intros c Hc; apply Hn, list_elem_of_fmap; by exists c).
    apply NoDup_bind; [| intros c Hc; apply (IH' _ Hc); [by apply Hwc | apply Forall_app; split; [done |]; constructor; [by apply Hnm | done]] | by apply NoDup_fmap_1 in Hnd].
    intros c c' p Hc Hc' (j & i1 & Hj & ->)%paths_below (j' & i2 & Hj' & E')%paths_below; [|by apply Hwc ..].
    apply find_normal in Hj, Hj'; [|by apply Hwc ..].
    assert (Hcons : forall y t, normal y -> Forall normal t -> (k ++ [y]) ++ t <> [] /\ Forall normal ((k ++ [y]) ++ t)).
    { intros y t Hy Ht. split; [by destruct k |]. repeat apply Forall_app_2; auto. }
    destruct (Hcons c.1 j (Hnm _ Hc) Hj) as [H1 H2], (Hcons c'.1 j' (Hnm _ Hc') Hj') as [H3 H4].
    apply Join_inj in E'; [|done ..]. rewrite <- !app_assoc in E'. apply app_inv_head in E'. injection E' as E' _.
    destruct c as [x c], c' as [x' c']. cbn in E'. subst x'. destruct (list_find_key cs x c Hnd Hc) as [a Ha], (list_find_key cs x c' Hnd Hc') as [b Hb].
    rewrite Ha in Hb. by injection Hb as _ ->.
Qed.
End Exact.

(** The name of the root does not matter. *)
Lemma walk_root_name scanPath ex n nm nm' s : walk scanPath ex scanPath nm n s = walk scanPath ex scanPath nm' n s.
Proof.
  assert (E : forall isDir i, walkFn scanPath ex scanPath (Some (nm, isDir, i)) false = walkFn scanPath ex scanPath (Some (nm', isDir, i)) false).
  { intros isDir i. unfold walkFn. by rewrite Rel_self. }
  destruct n as [|i|i [cs|]]; cbn [walk]; by rewrite ?E.
Qed.

(** ** The result of the scan *)

Section Result.
Context (scanPath : bytes) (ex : excludes) (root : node).

(** What a scan of [root] without cancellation delivers. *)
Definition scanned (files dirs : list scanEntry) (errs : Z) : Prop :=
  (forall fe, fe ∈ files <-> exists k i, find root k = Some (Leaf i) /\ open_above ex [] k /\ file_kept ex k i = true /\ fe = file_entry scanPath k i) /\
  (forall fe, fe ∈ dirs <-> exists k i cs, k <> [] /\ find root k = Some (Folder i (Some cs)) /\ open_above ex [] k /\ dir_kept ex k = true /\
     fe = dir_entry scanPath k i) /\
  NoDup (se_relPath <$> files) /\ 0 <= errs /\
  (errs = 0 <-> forall k n, find root k = Some n -> open_above ex [] k -> n <> NoStat /\ forall i, n <> Folder i None).

Lemma scan_result : well_formed root -> exists files dirs errs,
  scanSourceTree scanPath ex root [] = Ok (files, dirs, errs) /\ scanned files dirs errs.
Proof.
  intros Hwf. unfold scanSourceTree. set (nm := Base scanPath).
  assert (E : exists r, walk scanPath ex scanPath nm root (Scan [] [] 0 []) = (r, foldl put_event (Scan [] [] 0 []) (collect scanPath ex [] root)) /\ r <> Err WalkCancelled).
  { pose proof (walk_collect scanPath ex root [] (Scan [] [] 0 []) Hwf ltac:(done) eq_refl) as E. cbn [at_path last default from_option] in E.
    rewrite (walk_root_name scanPath ex root nm []) by done. rewrite E. destruct (skips ex [] root); by eexists. }
  destruct E as (r & -> & Hr). rewrite put_events. cbn [sc_files sc_dirs sc_errs sc_ctx app].
  set (es := collect scanPath ex [] root). exists (omap file_of es), (omap dir_of es), (0 + Z.of_nat (length (filter (fun e => is_err e = true) es))).
  split; [destruct r as [|[]]; done |].
  assert (Hel : forall e, e ∈ es <-> exists k n, find root k = Some n /\ open_above ex [] k /\ e ∈ own scanPath ex k n) by (intros e; by apply collect_elem).
  split; [|split; [|split; [by apply (paths_NoDup scanPath ex root []) | split; [lia |]]]].
  - intros fe. rewrite list_elem_of_omap. split.
    + intros (e & (k & n & Hf & Ho & He)%Hel & Hfe). destruct e; cbn in Hfe; simplify_eq. exists k. destruct n as [|i|i [cs|]]; cbn in He; [by apply list_elem_of_singleton in He | | |by apply list_elem_of_singleton in He].
      * exists i. destruct (file_kept ex k i); [|by apply elem_of_nil in He]. apply list_elem_of_singleton in He as [= ->]. done.
      * destruct (dir_kept ex k), k; (by apply elem_of_nil in He) || by apply list_elem_of_singleton in He.
    + intros (k & i & Hf & Ho & Hk & ->). exists (EvFile (file_entry scanPath k i)). split; [|done]. apply Hel. exists k, (Leaf i). split; [done |]. split; [done |].
      cbn. rewrite Hk. by left.
  - intros fe. rewrite list_elem_of_omap. split.
    + intros (e & (k & n & Hf & Ho & He)%Hel & Hfe). destruct e; cbn in Hfe; simplify_eq. exists k. destruct n as [|i|i [cs|]]; cbn in He; [by apply list_elem_of_singleton in He | | |by apply list_elem_of_singleton in He].
      * destruct (file_kept ex k i); (by apply elem_of_nil in He) || by apply list_elem_of_singleton in He.
      * exists i, cs. destruct (dir_kept ex k) eqn:Ek; [|by apply elem_of_nil in He]. destruct k as [|x k]; [by apply elem_of_nil in He |].
        apply list_elem_of_singleton in He as [= ->]. done.
    + intros (k & i & cs & Hk & Hf & Ho & Hd & ->). exists (EvDir (dir_entry scanPath k i)). split; [|done]. apply Hel. exists k, (Folder i (Some cs)). split; [done |]. split; [done |].
      cbn. rewrite Hd. destruct k; [done | by left].
  - rewrite Z.add_0_l. split.
    + intros E k n Hf Ho. assert (Hno : EvErr ∉ own scanPath ex k n).
      { intros He. assert (Hin : EvErr ∈ filter (fun e => is_err e = true) es) by (apply list_elem_of_filter; split; [done |]; apply Hel; by exists k, n).
        destruct (filter (fun e => is_err e = true) es); [by apply elem_of_nil in Hin | cbn in E; lia]. }
      split; [intros ->; apply Hno; by left |]. intros i ->. apply Hno. by left.
    + intros H. assert (Hn : filter (fun e => is_err e = true) es = []); [|by rewrite Hn]. destruct (filter _ es) as [|e l] eqn:Ef; [done |]. exfalso.
      assert (Hin : e ∈ filter (fun e => is_err e = true) es) by (rewrite Ef; by left). apply list_elem_of_filter in Hin as [He Hin].
      apply Hel in Hin as (k & n & Hf & Ho & Hown). destruct (H k n Hf Ho) as [H1 H2]. destruct n as [|i|i [cs|]]; [done | | |by apply (H2 i)]; cbn in Hown.
      * destruct (file_kept ex k i); [|by apply elem_of_nil in Hown]. apply list_elem_of_singleton in Hown as ->. done.
      * destruct (dir_kept ex k), k; try (by apply elem_of_nil in Hown). apply list_elem_of_singleton in Hown as ->. done.
Qed.

(** C20: the scan finds exactly what the rules keep: a file is listed just when
    no directory above it is skipped and no pattern or size filter excludes it,
    once and with its own metadata; the directories likewise; and the error
    count is zero just when every path that was reached could be read. *)
Theorem scan_exact : well_formed root -> exists files dirs errs,
  scanSourceTree scanPath ex root [] = Ok (files, dirs, errs) /\ scanned files dirs errs.
Proof. apply scan_result. Qed.
End Result.

(** ** Directories *)

Definition keyed (m : Manifest) (k : list bytes) : Prop := is_Some (m_Dirs m !! GoStr.Join s_slash k).

(** The non-empty prefixes of [k] are directories of [m]. *)
Definition chain (m : Manifest) (k : list bytes) : Prop := forall j l, k = j ++ l -> j <> [] -> keyed m j.

Lemma parents_keeps parts : forall pre D key, is_Some (D !! key) -> is_Some (parents pre parts D !! key).
Proof. induction parts as [|c parts IH]; intros pre D key Hk; cbn [parents]; [done |]. by apply IH, upd_some. Qed.

Lemma parents_keys parts : forall pre D j x l, parts = j ++ x :: l -> is_Some (parents pre parts D !! GoStr.Join s_slash (pre ++ j)).
Proof.
  induction parts as [|c parts IH]; intros pre D [|y j] x l E; cbn [app] in E; try done; injection E as <- E; cbn [parents].
  - rewrite app_nil_r. apply parents_keeps. unfold upd_dir. rewrite lookup_insert_eq. by eexists.
  - rewrite cons_middle, app_assoc. by eapply IH.
Qed.

Lemma ensure_keys D k : k <> [] -> Forall normal k -> is_Some (D !! GoStr.Join s_slash k) ->
  forall j l, k = j ++ l -> is_Some (ensureParentDirs D (GoStr.Join s_slash k) !! GoStr.Join s_slash j).
Proof.
  intros Hk Hn Hs j l ->. unfold ensureParentDirs. assert (E : Split slash (GoStr.Join s_slash (j ++ l)) = j ++ l).
  { apply Split_Join; [done |]. eapply Forall_impl; [done | by intros ? ?%normal_noslash]. }
  rewrite E. destruct l as [|x l]; [rewrite app_nil_r in *; by apply parents_keeps |].
  by apply (parents_keys (j ++ x :: l) [] D j x l).
Qed.

Lemma normalize_Join k : Forall normal k -> normalizeManifestPath (GoStr.Join s_slash k) = GoStr.Join s_slash k.
Proof.
  intros Hn. unfold normalizeManifestPath, TrimPrefix, HasPrefix. rewrite bool_decide_false; [done |].
  intros [t E]. destruct k as [|x k]; [done |]. apply Forall_cons in Hn as [(Hx & _ & _ & Hs) _]. destruct x as [|b x]; [done |].
  assert (Hh : head (GoStr.Join s_slash ((b :: x) :: k)) = Some b) by (by destruct k). rewrite E in Hh. cbn in Hh. injection Hh as <-. apply Hs. by left.
Qed.

Lemma split_last_Join k x : Forall normal k -> normal x -> split_last (GoStr.Join s_slash (k ++ [x])) = (GoStr.Join s_slash k, x).
Proof.
  intros Hk (_ & _ & _ & Hx). unfold split_last. destruct k as [|y k]; [cbn; by rewrite LastIndexByte_notin |].
  unfold s_slash. rewrite Join_snoc, LastIndexByte_app by done. rewrite take_app_length.
  replace (S (length (GoStr.Join [slash] (y :: k)))) with (length (GoStr.Join [slash] (y :: k) ++ [slash])) by (rewrite length_app; cbn; lia).
  replace (GoStr.Join [slash] (y :: k) ++ slash :: x) with ((GoStr.Join [slash] (y :: k) ++ [slash]) ++ x) by (by rewrite <- app_assoc). by rewrite drop_app_length.
Qed.

Lemma Join_nil k : Forall normal k -> eqs (GoStr.Join s_slash k) [] = bool_decide (k = []).
Proof.
  intros Hn. destruct k as [|x k]; [done |]. rewrite bool_decide_false by done. apply eqs_false.
  apply (Join_nonnil slash _ x); [by left |]. apply Forall_cons in Hn as [(? & _) _]. done.
Qed.

(** Keys are never removed. *)
Lemma AddFile_keeps m e key : is_Some (m_Dirs m !! key) -> is_Some (m_Dirs (AddFile m e) !! key).
Proof.
  intros Hk. unfold AddFile. destruct (split_last _) as [dir base]. cbn [m_Dirs set_dirs]. apply (upd_some (fun d => MkDir (d_Files d ++ [set_name e base]) (d_SubDirs d)) dir) in Hk.
  destruct (eqs dir []); [done |]. by apply parents_keeps.
Qed.

Lemma AddEmptyDir_keeps m p key : is_Some (m_Dirs m !! key) -> is_Some (m_Dirs (AddEmptyDir m p) !! key).
Proof.
  intros Hk. unfold AddEmptyDir. set (q := normalizeManifestPath p). destruct (eqs q []); [done |]. destruct (split_last q) as [parent nm].
  destruct (eqs nm []); [done |]. cbn [m_Dirs set_dirs].
  assert (H1 : is_Some ((match m_Dirs m !! q with Some _ => m_Dirs m | None => <[q := emptyDir]> (m_Dirs m) end) !! key)).
  { destruct (m_Dirs m !! q) eqn:E; [done |]. rewrite lookup_insert_ne; [done |]. intros <-. by rewrite E in Hk; destruct Hk. }
  destruct (negb _); [by apply parents_keeps | by apply upd_some].
Qed.

Lemma AddFile_chain m e k x : Forall normal k -> normal x -> f_Name e = GoStr.Join s_slash (k ++ [x]) -> chain (AddFile m e) k.
Proof.
  intros Hk Hx En j l -> Hj. unfold keyed, AddFile. rewrite En, normalize_Join by (apply Forall_app; auto).
  rewrite split_last_Join by done. cbn [m_Dirs set_dirs]. rewrite Join_nil, bool_decide_false by (done || by destruct j).
  eapply ensure_keys; [by destruct j | done | | done]. unfold upd_dir. rewrite lookup_insert_eq. by eexists.
Qed.

Lemma AddEmptyDir_chain m k x : Forall normal k -> normal x -> chain (AddEmptyDir m (GoStr.Join s_slash (k ++ [x]))) (k ++ [x]).
Proof.
  intros Hk Hx j l E Hj. assert (Hn : Forall normal (k ++ [x])) by (apply Forall_app; auto). assert (Hne : k ++ [x] <> []) by (by destruct k).
  unfold keyed, AddEmptyDir. rewrite normalize_Join, Join_nil, bool_decide_false by done. rewrite split_last_Join by done.
  rewrite (proj2 (eqs_false x [])) by (by destruct Hx). cbn [m_Dirs set_dirs].
  set (D1 := match m_Dirs m !! _ with Some _ => _ | None => _ end).
  assert (H1 : is_Some (D1 !! GoStr.Join s_slash (k ++ [x]))).
  { subst D1. destruct (m_Dirs m !! GoStr.Join s_slash (k ++ [x])) eqn:Ek; [by rewrite Ek; eexists |]. rewrite lookup_insert_eq. by eexists. }
  rewrite Join_nil by done. case_bool_decide as Hkn; cbn [negb].
  - subst k. cbn [app] in *. destruct j as [|y j]; [done |]. cbn in E. injection E as <- E. symmetry in E. apply app_nil in E as [-> ->]. by apply upd_some.
  - by eapply ensure_keys.
Qed.

Lemma chain_AddFiles es : forall m k, chain m k -> chain (foldl AddFile m es) k.
Proof.
  induction es as [|e es IH]; intros m k Hc; cbn [foldl]; [done |]. apply IH. intros j l E Hj. by apply AddFile_keeps, (Hc j l).
Qed.

(** A path of normal elements, as the scan produces them. *)
Definition rel_ok (fe : scanEntry) (k : list bytes) : Prop := k <> [] /\ Forall normal k /\ se_relPath fe = GoStr.Join s_slash k.

Lemma chain_prefix m k l : chain m (k ++ l) -> chain m k.
Proof. intros Hc j t -> Hj. eapply (Hc j (t ++ l)); [by rewrite app_assoc | done]. Qed.

Lemma chain_snoc (k : list bytes) : k <> [] -> exists k' x, k = k' ++ [x].
Proof. intros Hk. destruct (exists_last Hk) as (k' & x & ->). by exists k', x. Qed.

Definition add_dir (has : gset bytes) (m : Manifest) (d : scanEntry) : Manifest :=
  if bool_decide (se_relPath d ∈ has) then m
  else if eqs (default [] (last (Split slash (se_relPath d)))) [] then m
  else AddEmptyDir m (se_relPath d).

Lemma add_dir_chain has ds : forall m d k, d ∈ ds -> rel_ok d k -> (se_relPath d ∉ has) -> chain (foldl (add_dir has) m ds) k.
Proof.
  assert (Hkeep : forall ds m k, chain m k -> chain (foldl (add_dir has) m ds) k).
  { clear ds. induction ds as [|d ds IH]; intros m k Hc; cbn [foldl]; [done |]. apply IH. unfold add_dir. case_bool_decide; [done |].
    destruct (eqs _ _); [done |]. intros j l E Hj. by apply AddEmptyDir_keeps, (Hc j l). }
  induction ds as [|d ds IH]; intros m d' k; [by intros ?%elem_of_nil |]. intros [-> | Hin]%elem_of_cons Hr Hno; cbn [foldl]; [|by eapply IH].
  apply Hkeep. destruct Hr as (Hk & Hn & Er). unfold add_dir. rewrite bool_decide_false by done. rewrite Er, Split_rel by done.
  destruct (chain_snoc k Hk) as (k' & x & ->). apply Forall_app in Hn as [Hk' Hx]. apply Forall_cons in Hx as [Hx _].
  rewrite last_snoc. cbn [default from_option id]. rewrite (proj2 (eqs_false x [])) by (by destruct Hx). by apply AddEmptyDir_chain.
Qed.

Lemma files_chain es : forall m e k l, e ∈ es -> f_Name e = GoStr.Join s_slash (k ++ l) -> l <> [] -> Forall normal (k ++ l) -> chain (foldl AddFile m es) k.
Proof.
  induction es as [|e es IH]; intros m e' k l; [by intros ?%elem_of_nil |]. intros [-> | Hin]%elem_of_cons En Hl Hn; cbn [foldl]; [|by eapply IH].
  apply chain_AddFiles. destruct (chain_snoc l Hl) as (l' & x & ->). rewrite app_assoc in En, Hn. apply Forall_app in Hn as [Hk Hx].
  apply Forall_cons in Hx as [Hx _]. by eapply chain_prefix, AddFile_chain.
Qed.

(** ** No other directory *)

Lemma upd_dir_some f k D q : is_Some (upd_dir f k D !! q) -> q = k \/ is_Some (D !! q).
Proof. unfold upd_dir. destruct (decide (q = k)) as [->|]; [by left |]. rewrite lookup_insert_ne by done. by right. Qed.

Lemma parents_only parts : forall pre D q, is_Some (parents pre parts D !! q) ->
  is_Some (D !! q) \/ exists j, j `prefix_of` parts /\ q = GoStr.Join s_slash (pre ++ j).
Proof.
  induction parts as [|c parts IH]; intros pre D q; cbn [parents]; [by left |].
  intros [[-> | H]%upd_dir_some | (j & Hj & ->)]%IH; [right; exists []; split; [apply prefix_nil | by rewrite app_nil_r] | by left |].
  right. exists (c :: j). split; [by apply prefix_cons | by rewrite <- app_assoc].
Qed.

(** The keys that adding a path can create. *)
Definition on_way (k : list bytes) (q : bytes) : Prop := exists j, j `prefix_of` k /\ q = GoStr.Join s_slash j.

Lemma ensure_only D k q : k <> [] -> Forall normal k -> is_Some (ensureParentDirs D (GoStr.Join s_slash k) !! q) -> is_Some (D !! q) \/ on_way k q.
Proof.
  intros Hk Hn. unfold ensureParentDirs. rewrite Split_rel by done. intros [H | (j & Hj & ->)]%parents_only; [by left |]. right. by exists j.
Qed.

Lemma AddFile_only m e k x q : Forall normal k -> normal x -> f_Name e = GoStr.Join s_slash (k ++ [x]) ->
  is_Some (m_Dirs (AddFile m e) !! q) -> is_Some (m_Dirs m !! q) \/ on_way k q.
Proof.
  intros Hk Hx En. unfold AddFile. rewrite En, normalize_Join by (apply Forall_app; auto). rewrite split_last_Join by done. cbn [m_Dirs set_dirs].
  rewrite Join_nil by done. intros Hq. assert (H : is_Some (upd_dir (fun d => MkDir (d_Files d ++ [set_name e x]) (d_SubDirs d)) (GoStr.Join s_slash k) (m_Dirs m) !! q) \/ on_way k q).
  { case_bool_decide; [by left | by apply ensure_only in Hq]. }
  destruct H as [[-> | H]%upd_dir_some | H]; [right; by exists k | by left | by right].
Qed.

Lemma AddEmptyDir_only m k x q : Forall normal k -> normal x ->
  is_Some (m_Dirs (AddEmptyDir m (GoStr.Join s_slash (k ++ [x]))) !! q) -> is_Some (m_Dirs m !! q) \/ on_way (k ++ [x]) q.
Proof.
  intros Hk Hx. assert (Hn : Forall normal (k ++ [x])) by (apply Forall_app; auto). assert (Hne : k ++ [x] <> []) by (by destruct k).
  unfold AddEmptyDir. rewrite normalize_Join, Join_nil, bool_decide_false by done. rewrite split_last_Join by done.
  rewrite (proj2 (eqs_false x [])) by (by destruct Hx). cbn [m_Dirs set_dirs]. set (D1 := match m_Dirs m !! _ with Some _ => _ | None => _ end).
  assert (H1 : is_Some (D1 !! q) -> is_Some (m_Dirs m !! q) \/ on_way (k ++ [x]) q).
  { subst D1. destruct (m_Dirs m !! GoStr.Join s_slash (k ++ [x])); [by left |].
    destruct (decide (q = GoStr.Join s_slash (k ++ [x]))) as [->|]; [right; by exists (k ++ [x]) |]. rewrite lookup_insert_ne by done. by left. }
  destruct (negb _).
  - by intros [?%H1 | ?]%ensure_only; [| right |..].
  - intros [-> | ?%H1]%upd_dir_some; [right; exists []; split; [apply prefix_nil | done] | done].
Qed.

Lemma AddFiles_only es : forall m q, (forall e, e ∈ es -> exists k x, Forall normal k /\ normal x /\ f_Name e = GoStr.Join s_slash (k ++ [x])) ->
  is_Some (m_Dirs (foldl AddFile m es) !! q) -> is_Some (m_Dirs m !! q) \/ exists e k x, e ∈ es /\ Forall normal k /\ normal x /\ f_Name e = GoStr.Join s_slash (k ++ [x]) /\ on_way k q.
Proof.
  induction es as [|e es IH]; intros m q Hes; cbn [foldl]; [by left |].
  intros Hq. apply IH in Hq; [|intros e' He'; apply Hes; by right].
  destruct Hq as [Hq | (e' & k & x & He & Hr)]; [| right; exists e', k, x; split; [by right | done]].
  destruct (Hes e ltac:(by left)) as (k & x & Hk & Hx & En). destruct (AddFile_only m e k x q Hk Hx En Hq) as [?|?]; [by left |].
  right. exists e, k, x. split; [by left | done].
Qed.

Lemma addEmptyDirs_only files dirs : forall m q, (forall d, d ∈ dirs -> exists k, rel_ok d k) ->
  is_Some (m_Dirs (addEmptyDirs m files dirs) !! q) -> is_Some (m_Dirs m !! q) \/ exists d k, d ∈ dirs /\ rel_ok d k /\ on_way k q.
Proof.
  intros m q Hds. change (addEmptyDirs m files dirs) with (foldl (add_dir (dirHasChildren files dirs)) m dirs). generalize (dirHasChildren files dirs) as has. intros has.
  revert m Hds. induction dirs as [|d ds IH]; intros m Hds; cbn [foldl]; [by left |].
  intros Hq. apply IH in Hq; [|intros d' Hd'; apply Hds; by right].
  destruct Hq as [Hq | (d' & k & Hd & Hr)]; [| right; exists d', k; split; [by right | done]].
  destruct (Hds d ltac:(by left)) as (k & Hr). unfold add_dir in Hq. case_bool_decide; [by left |]. destruct (eqs _ _); [by left |].
  pose proof Hr as (Hk & Hn & Er). destruct (chain_snoc k Hk) as (k' & x & ->). apply Forall_app in Hn as [Hk' [Hx _]%Forall_cons]. rewrite Er in Hq.
  destruct (AddEmptyDir_only m k' x q Hk' Hx Hq) as [?|?]; [by left |]. right. exists d, (k' ++ [x]). split; [by left | done].
Qed.

(** ** What is above a scanned path was scanned *)

Lemma find_above n j : forall x q m, find n (j ++ x :: q) = Some m -> exists i cs, find n j = Some (Folder i (Some cs)).
Proof.
  revert n. induction j as [|y j IH]; intros n x q m; cbn [app find]; destruct n as [|i|i [cs|]]; try done; [by eexists _, _ |].
  destruct (list_find _ cs) as [[a c]|]; [|done]. apply IH.
Qed.

Section Above.
Context (scanPath : bytes) (ex : excludes) (root : node) (files dirs : list scanEntry) (errs : Z).
Hypothesis Hwf : well_formed root.
Hypothesis Hsc : scanned scanPath ex root files dirs errs.

(** A scanned entry and the node it stands for. *)
Lemma scanned_file fe : fe ∈ files -> exists k i, find root k = Some (Leaf i) /\ open_above ex [] k /\ rel_ok fe k.
Proof.
  intros (k & i & Hf & Ho & Hk & ->)%(proj1 Hsc). exists k, i. split; [done |]. split; [done |]. split; [by destruct k | split; [by eapply find_normal | done]].
Qed.

Lemma scanned_dir d : d ∈ dirs -> exists k i cs, find root k = Some (Folder i (Some cs)) /\ open_above ex [] k /\ dir_kept ex k = true /\ rel_ok d k.
Proof.
  intros (k & i & cs & Hk & Hf & Ho & Hd & ->)%(proj1 (proj2 Hsc)). exists k, i, cs. split_and!; try done. split; [done |]. split; [by eapply find_normal | done].
Qed.

Lemma scanned_above k j x q m : find root k = Some m -> open_above ex [] k -> k = j ++ x :: q -> j <> [] -> exists d, d ∈ dirs /\ rel_ok d j.
Proof.
  intros Hf Ho -> Hj. destruct (find_above _ _ _ _ _ Hf) as (i & cs & Hfj). exists (dir_entry scanPath j i). split.
  - apply (proj1 (proj2 Hsc)). exists j, i, cs. split; [done |]. split; [done |]. split; [|split; [by apply (Ho j x q) | done]].
    intros p y t ->. apply (Ho p y (t ++ x :: q)). by rewrite <- app_assoc.
  - split; [done |]. split; [by eapply find_normal | done].
Qed.

Lemma way_scanned k l q : Forall normal k -> on_way k q ->
  (exists m, find root (k ++ l) = Some m) -> open_above ex [] (k ++ l) -> l <> [] \/ (exists d, d ∈ dirs /\ rel_ok d k) ->
  q = [] \/ exists d, d ∈ dirs /\ q = se_relPath d.
Proof.
  intros Hn (j & [t ->] & ->) [m Hf] Ho Hor. destruct (decide (j = [])) as [->|Hj]; [by left |]. right.
  destruct t as [|x t].
  - rewrite app_nil_r in *. destruct Hor as [Hl | (d & Hd & _ & _ & E)]; [|by exists d].
    destruct l as [|x l]; [done |]. destruct (scanned_above _ j x l m Hf Ho eq_refl Hj) as (d & Hd & _ & _ & E). by exists d.
  - rewrite <- app_assoc in Hf, Ho. cbn in Hf, Ho. destruct (scanned_above _ j x (t ++ l) m Hf Ho eq_refl Hj) as (d & Hd & _ & _ & E). by exists d.
Qed.

(** The directories of the manifest are the scanned ones and the root. *)
Lemma dirs_only m0 es q : m_Dirs m0 = ∅ -> (forall e, e ∈ es -> exists f, f ∈ files /\ f_Name e = se_relPath f) ->
  is_Some (m_Dirs (foldl AddFile (addEmptyDirs m0 files dirs) es) !! q) -> q = [] \/ exists d, d ∈ dirs /\ q = se_relPath d.
Proof.
  intros H0 Hes Hq. assert (Hpath : forall e, e ∈ es -> exists k x i, Forall normal k /\ normal x /\ f_Name e = GoStr.Join s_slash (k ++ [x]) /\
    find root (k ++ [x]) = Some (Leaf i) /\ open_above ex [] (k ++ [x])).
  { intros e He. destruct (Hes e He) as (f & Hf & ->). destruct (scanned_file f Hf) as (k & i & Hk & Ho & Hne & Hn & ->).
    destruct (chain_snoc k Hne) as (k' & x & ->). apply Forall_app in Hn as [Hn1 [Hn2 _]%Forall_cons]. exists k', x, i. done. }
  apply AddFiles_only in Hq as [Hq | (e & k & x & He & Hk & Hx & En & Hw)].
  - apply addEmptyDirs_only in Hq as [Hq | (d & k & Hd & Hr & Hw)].
    + rewrite H0 in Hq. by destruct Hq.
    + destruct (scanned_dir d Hd) as (k' & i & cs & Hf & Ho & _ & Hr'). assert (k' = k) as ->.
      { destruct Hr as (? & ? & E), Hr' as (? & ? & E'). apply Join_inj; congruence. }
      eapply (way_scanned k []); [apply Hr | done | rewrite app_nil_r; by eexists | by rewrite app_nil_r | right; by exists d].
    + intros d Hd. destruct (scanned_dir d Hd) as (k & _ & _ & _ & _ & _ & Hr). by exists k.
  - destruct (Hpath e He) as (k' & x' & i & Hk' & Hx' & En' & Hf & Ho). rewrite En in En'. apply Join_inj in En'; [|by destruct k, k' .. | by apply Forall_app; auto | by apply Forall_app; auto].
    apply app_inj_tail in En' as [<- <-]. eapply (way_scanned k [x]); [done | done | by eexists | done | by left].
  - intros e He. destruct (Hpath e He) as (k & x & i & ? & ? & ? & _). by exists k, x.
Qed.
End Above.

Section Dirs.
Context (m0 : Manifest) (files dirs : list scanEntry) (es : list FileEntry).
Hypothesis Hfiles : forall f, f ∈ files -> exists k, rel_ok f k.
Hypothesis Hdirs : forall d, d ∈ dirs -> exists k, rel_ok d k.
Hypothesis Hes : forall f, f ∈ files -> exists e, e ∈ es /\ f_Name e = se_relPath f.

Lemma has_children k : k <> [] -> Forall normal k -> GoStr.Join s_slash k ∈ dirHasChildren files dirs ->
  (exists f l, f ∈ files /\ l <> [] /\ rel_ok f (k ++ l)) \/ (exists d x, d ∈ dirs /\ rel_ok d (k ++ [x])).
Proof.
  intros Hk Hn. unfold dirHasChildren. rewrite elem_of_union, !elem_of_list_to_set. intros [Hin | Hin]; [left | right].
  - apply list_elem_of_bind in Hin as (f & Ha & Hf). destruct (Hfiles f Hf) as (kf & Hkf & Hnf & Ef). unfold ancestors in Ha. rewrite Ef, Split_rel in Ha by done.
    apply list_elem_of_fmap in Ha as (j & Ej & [Hj1 Hj2]%elem_of_seq). assert (E : k = take j kf).
    { apply Join_inj; [done | by destruct kf, j; try (cbn in *; lia) | done | by apply Forall_take | done]. }
    exists f, (drop j kf). split; [done |]. split; [intros E'; apply (f_equal length) in E'; rewrite length_drop in E'; cbn in E'; lia |].
    rewrite E, take_drop. done.
  - apply list_elem_of_omap in Hin as (d & Hd & Hl). destruct (Hdirs d Hd) as (kd & Hkd & Hnd & Ed). rewrite Ed in Hl.
    destruct (chain_snoc kd Hkd) as (k' & x & ->). pose proof Hnd as [Hk' Hx]%Forall_app. apply Forall_cons in Hx as [Hx _].
    pose proof (split_last_Join k' x Hk' Hx) as Es. unfold split_last in Es. destruct (LastIndexByte _ slash) as [i|]; [|done].
    injection Es as Es _. injection Hl as Hl. rewrite Es in Hl. exists d, x. split; [done |].
    assert (E : k' = k); [|by subst]. destruct (decide (k' = [])) as [->|Hne]; [|by apply Join_inj].
    exfalso. pose proof (Join_nil k Hn) as Hj. rewrite <- Hl, bool_decide_false in Hj by done. done.
Qed.

Lemma dirs_chain d k : d ∈ dirs -> rel_ok d k -> chain (foldl AddFile (addEmptyDirs m0 files dirs) es) k.
Proof.
  assert (Hb : exists N, forall d, d ∈ dirs -> (length (Split slash (se_relPath d)) <= N)%nat).
  { clear. induction dirs as [|d ds [N HN]]; [exists 0%nat; by intros ? ?%elem_of_nil |]. exists (length (Split slash (se_relPath d)) + N)%nat.
    intros d' [-> | Hd]%elem_of_cons; [lia |]. specialize (HN d' Hd). lia. }
  destruct Hb as [N HN]. remember (N - length k)%nat as n eqn:En. revert d k En. induction n as [n IH] using lt_wf_ind. intros d k -> Hd Hr.
  pose proof Hr as (Hk & Hn & Er). destruct (decide (se_relPath d ∈ dirHasChildren files dirs)) as [Hin | Hin].
  - rewrite Er in Hin. destruct (has_children k Hk Hn Hin) as [(f & l & Hf & Hl & _ & Hfn & Ef) | (d' & x & Hd' & Hr')].
    + destruct (Hes f Hf) as (e & He & En). rewrite Ef in En. by eapply files_chain.
    + eapply chain_prefix, (IH (N - length (k ++ [x]))%nat); [|done | exact Hd' | exact Hr'].
      specialize (HN d' Hd'). destruct Hr' as (H1 & H2 & E'). rewrite E', Split_rel in HN by done. rewrite length_app in *. cbn in *. lia.
  - apply chain_AddFiles. change (addEmptyDirs m0 files dirs) with (foldl (add_dir (dirHasChildren files dirs)) m0 dirs). by eapply add_dir_chain.
Qed.

Lemma dirs_chain_some d : d ∈ dirs -> is_Some (m_Dirs (foldl AddFile (addEmptyDirs m0 files dirs) es) !! se_relPath d).
Proof.
  intros Hd. destruct (Hdirs d Hd) as (k & Hr). pose proof Hr as (Hk & _ & ->). eapply (dirs_chain d k Hd Hr k []); [by rewrite app_nil_r | done].
Qed.

(** No directory is lost: when every scanned file is added after the empty
    directories, every scanned directory is a directory of the manifest,
    whether it is empty or has only files or only directories in it. *)
Theorem dirs_recorded d : d ∈ dirs -> is_Some (m_Dirs (foldl AddFile (addEmptyDirs m0 files dirs) es) !! se_relPath d).
Proof. apply dirs_chain_some. Qed.
End Dirs.
