(* ===== verification/Pool.v ===== *)
(** Pool: the upload workers of a backup ([runUploadWorkers] and [uploadStats]
    of [simple/pipeline.go]) as a transition system.

    The feeder, the workers, the bounded channel, the mutex and the context are
    the parts of the state; any of them may move next.  The critical section
    reads the shared manifest and counters in one step and writes them back in
    another, so that the mutex matters.  [processFile] answers as [outcomes]
    allows; it never returns a nil entry without an error, so the branch that
    counts skipped files is never taken.  An error is what the worker sees of
    it: the path error in its chain and its text. *)

From S2P Require Import Prelude GoStr Externs Compress Crypto Stream FS BlobStore Blob Manifest RestorePath SecureDir Restore PipeFile.
From stdpp Require Import base list gmap strings relations.
From Stdlib.Strings Require Import Byte.
Local Open Scope Z_scope.

(** ** Results *)

Inductive presult :=
| Processed (o : outcome)
| FileErr (pathErr : option (option Z)) (text : bytes).

Record uploadStats := UploadStats {
  us_uploadedBytes : Z; us_newFiles : Z; us_changedFiles : Z; us_unchangedFiles : Z; us_skippedFiles : Z;
  us_failedFiles : Z; us_lockedFiles : Z;
  us_failedPaths : list bytes; us_lockedPaths : list bytes; us_failedErrors : list bytes
}.

Definition stats0 : uploadStats := UploadStats 0 0 0 0 0 0 0 [] [] [].

Definition shared : Type := Manifest * uploadStats.

(** The entry of a file that could not be read. *)
Definition failed_entry (fe : scanEntry) (locked : bool) : FileEntry :=
  MkFileEntry (se_relPath fe) [] (se_size fe) (se_mtime fe) (se_mode fe)
    (if locked then FileStatusLocked else FileStatusError) [].

(** What a worker does to the shared data under the mutex. *)
Definition record (sh : shared) (fr : scanEntry * presult) : shared :=
  let '(m, s) := sh in
  let '(fe, r) := fr in
  match r with
  | FileErr pathErr text =>
      if isFileLockedError pathErr text then
        (AddFile m (failed_entry fe true),
         UploadStats (us_uploadedBytes s) (us_newFiles s) (us_changedFiles s) (us_unchangedFiles s) (us_skippedFiles s)
           (us_failedFiles s) (us_lockedFiles s + 1)
           (us_failedPaths s) (us_lockedPaths s ++ [se_relPath fe]) (us_failedErrors s))
      else
        (AddFile m (failed_entry fe false),
         UploadStats (us_uploadedBytes s) (us_newFiles s) (us_changedFiles s) (us_unchangedFiles s) (us_skippedFiles s)
           (us_failedFiles s + 1) (us_lockedFiles s)
           (us_failedPaths s ++ [se_relPath fe]) (us_lockedPaths s) (us_failedErrors s ++ [se_relPath fe ++ go ": " ++ text]))
  | Processed (entry, uploaded, isChanged, isNew) =>
      let '(n, c, u) :=
        if (isNew : bool) then (us_newFiles s + 1, us_changedFiles s, us_unchangedFiles s)
        else if (isChanged : bool) then (us_newFiles s, us_changedFiles s + 1, us_unchangedFiles s)
        else (us_newFiles s, us_changedFiles s, us_unchangedFiles s + 1) in
      (AddFile m entry,
       UploadStats (int64 (us_uploadedBytes s + uploaded)) n c u (us_skippedFiles s)
         (us_failedFiles s) (us_lockedFiles s) (us_failedPaths s) (us_lockedPaths s) (us_failedErrors s))
  end.

(** ** The system *)

(** The number of workers; [ncpu] is [runtime.NumCPU()]. *)
Definition workerCount (configured ncpu : Z) : Z :=
  if configured <=? 0 then Z.min (Z.max ncpu 2) 8 else configured.

(** The feeder: at the top of its loop, at the [select], after it, before
    [close(ch)], in [wg.Wait()], returned. *)
Inductive feeder := AtTop | AtSelect | AfterSelect | AtClose | AtWait | Returned.

(** A worker: waiting for a file, having received one, in [processFile], at the
    lock, before and after the read of the shared data, gone. *)
Inductive worker :=
| Receiving
| Received (fe : scanEntry)
| Processing (fe : scanEntry)
| Locking (fe : scanEntry) (r : presult)
| Reading (fe : scanEntry) (r : presult)
| Writing (fe : scanEntry) (r : presult) (seen : shared)
| Gone.

#[export] Instance gone_dec w : Decision (w = Gone).
Proof. destruct w; (by left) || by right. Defined.

Record pool := Pool {
  pl_feed : list scanEntry;      (* files not sent yet *)
  pl_at : feeder;
  pl_queue : list scanEntry;     (* the channel's buffer *)
  pl_closed : bool;
  pl_workers : list worker;
  pl_mutex : option nat;
  pl_cancelled : bool;
  pl_shared : shared
}.

Section System.
Context (outcomes : scanEntry -> presult -> Prop).
Context (cap : nat).

Inductive feeder_step (x : bool) : list scanEntry * feeder * list scanEntry * bool -> list scanEntry * feeder * list scanEntry * bool -> Prop :=
| feed_end q c : feeder_step x ([], AtTop, q, c) ([], AtClose, q, c)
| feed_top_stop fe l q c : x = true -> feeder_step x (fe :: l, AtTop, q, c) (fe :: l, AtClose, q, c)
| feed_top_go fe l q c : x = false -> feeder_step x (fe :: l, AtTop, q, c) (fe :: l, AtSelect, q, c)
| feed_send fe l q c : (length q < cap)%nat -> feeder_step x (fe :: l, AtSelect, q, c) (l, AfterSelect, q ++ [fe], c)
| feed_done fe l q c : x = true -> feeder_step x (fe :: l, AtSelect, q, c) (l, AfterSelect, q, c)
| feed_after_stop l q c : x = true -> feeder_step x (l, AfterSelect, q, c) (l, AtClose, q, c)
| feed_after_go l q c : x = false -> feeder_step x (l, AfterSelect, q, c) (l, AtTop, q, c)
| feed_close l q c : feeder_step x (l, AtClose, q, c) (l, AtWait, q, true).

(** Worker [i], the cancellation flag being [x]: its place, the queue, the
    mutex and the shared data. *)
Inductive worker_step (i : nat) (x closed : bool) :
    worker * list scanEntry * option nat * shared -> worker * list scanEntry * option nat * shared -> Prop :=
| work_recv fe q mu sh : worker_step i x closed (Receiving, fe :: q, mu, sh) (Received fe, q, mu, sh)
| work_end mu sh : closed = true -> worker_step i x closed (Receiving, [], mu, sh) (Gone, [], mu, sh)
| work_stop fe q mu sh : x = true -> worker_step i x closed (Received fe, q, mu, sh) (Gone, q, mu, sh)
| work_go fe q mu sh : x = false -> worker_step i x closed (Received fe, q, mu, sh) (Processing fe, q, mu, sh)
| work_process fe r q mu sh : outcomes fe r -> worker_step i x closed (Processing fe, q, mu, sh) (Locking fe r, q, mu, sh)
| work_lock fe r q sh : worker_step i x closed (Locking fe r, q, None, sh) (Reading fe r, q, Some i, sh)
| work_read fe r q mu sh : worker_step i x closed (Reading fe r, q, mu, sh) (Writing fe r sh, q, mu, sh)
| work_write fe r seen q mu sh : worker_step i x closed (Writing fe r seen, q, mu, sh) (Receiving, q, None, record seen (fe, r)).

Inductive step : pool -> pool -> Prop :=
| step_cancel l a q c ws mu sh : step (Pool l a q c ws mu false sh) (Pool l a q c ws mu true sh)
| step_feeder l a q c l' a' q' c' ws mu x sh : feeder_step x (l, a, q, c) (l', a', q', c') ->
    step (Pool l a q c ws mu x sh) (Pool l' a' q' c' ws mu x sh)
| step_worker l a q c ws mu x sh i w w' q' mu' sh' : ws !! i = Some w ->
    worker_step i x c (w, q, mu, sh) (w', q', mu', sh') ->
    step (Pool l a q c ws mu x sh) (Pool l a q' c (<[i := w']> ws) mu' x sh')
| step_wait l q c ws mu x sh : Forall (fun w => w = Gone) ws ->
    step (Pool l AtWait q c ws mu x sh) (Pool l Returned q c ws mu x sh).
End System.

(** [runUploadWorkers] before its first step; the context may be cancelled
    already. *)
Definition start (files : list scanEntry) (n : nat) (cancelled : bool) (m : Manifest) : pool :=
  Pool files AtTop [] false (replicate n Receiving) None cancelled (m, stats0).

(** * Facts *)

(** ** Termination *)

Definition feeder_rank (a : feeder) : nat :=
  match a with AfterSelect => 5 | AtTop => 4 | AtSelect => 3 | AtClose => 2 | AtWait => 1 | Returned => 0 end.

Definition worker_rank (w : worker) : nat :=
  match w with
  | Received _ => 6 | Processing _ => 5 | Locking _ _ => 4 | Reading _ _ => 3 | Writing _ _ _ => 2 | Receiving => 1 | Gone => 0
  end.

Definition rank (p : pool) : nat :=
  (if pl_cancelled p then 0 else 1) + feeder_rank (pl_at p) + 10 * length (pl_feed p) + 6 * length (pl_queue p)
  + sum_list_with worker_rank (pl_workers p).

Lemma step_rank outcomes cap p p' : step outcomes cap p p' -> (rank p' < rank p)%nat.
Proof.
  destruct 1 as [| ? ? ? ? ? ? ? ? ? ? ? ? Hf | ? ? ? ? ? ? ? ? i w w' ? ? ? Hi Hw |]; unfold rank; cbn [pl_cancelled pl_at pl_feed pl_queue pl_workers].
  - lia.
  - inversion Hf; subst; rewrite ?length_app; cbn [feeder_rank length]; lia.
  - pose proof (sum_insert worker_rank _ i w w' Hi) as Hs. inversion Hw; subst; cbn [worker_rank length] in *; lia.
  - cbn [feeder_rank]. lia.
Qed.

(** ** The invariant *)

(** The file a worker holds. *)
Definition inflight (w : worker) : list scanEntry :=
  match w with
  | Received fe | Processing fe | Locking fe _ | Reading fe _ | Writing fe _ _ => [fe]
  | Receiving | Gone => []
  end.

Lemma bind_insert (f : worker -> list scanEntry) ws : forall i w, ws !! i = Some w ->
  exists rest, (ws ≫= f) ≡ₚ f w ++ rest /\ forall w', (<[i := w']> ws ≫= f) ≡ₚ f w' ++ rest.
Proof.
  induction ws as [|v ws IH]; intros [|i] w E; cbn in E; simplify_eq.
  - by exists (ws ≫= f).
  - destruct (IH i w E) as (rest & H1 & H2). exists (f v ++ rest). split; [|intros w']; cbn.
    + rewrite H1. apply Permutation_app_swap_app.
    + unfold mbind in H2. rewrite H2. apply Permutation_app_swap_app.
Qed.

Section Inv.
Context (outcomes : scanEntry -> presult -> Prop) (cap : nat) (files : list scanEntry) (m0 : Manifest).

(** What the place of worker [i] says about the rest of the state. *)
Definition worker_ok (p : pool) (i : nat) (w : worker) : Prop :=
  match w with
  | Locking fe r => outcomes fe r
  | Reading fe r => outcomes fe r /\ pl_mutex p = Some i
  | Writing fe r seen => outcomes fe r /\ pl_mutex p = Some i /\ seen = pl_shared p
  | Gone => pl_cancelled p = true \/ (pl_closed p = true /\ pl_queue p = [])
  | _ => True
  end.

Definition holds_lock (w : worker) : Prop := match w with Reading _ _ | Writing _ _ _ => True | _ => False end.

(** Every file is in exactly one place, and the shared data are what recording
    the finished ones one after the other gives; only a cancelled run drops
    files. *)
Definition accounted (p : pool) : Prop := exists l dropped,
  files ≡ₚ l.*1 ++ (pl_workers p ≫= inflight) ++ pl_queue p ++ pl_feed p ++ dropped /\
  pl_shared p = foldl record (m0, stats0) l /\ Forall (fun fr => outcomes fr.1 fr.2) l /\
  (pl_cancelled p = false -> dropped = []).

Record pool_inv (p : pool) : Prop := {
  pi_accounted : accounted p;
  pi_workers : forall i w, pl_workers p !! i = Some w -> worker_ok p i w;
  pi_mutex : forall i, pl_mutex p = Some i -> exists w, pl_workers p !! i = Some w /\ holds_lock w;
  pi_closed : pl_closed p = true <-> pl_at p = AtWait \/ pl_at p = Returned;
  pi_feed : pl_at p = AtClose \/ pl_at p = AtWait \/ pl_at p = Returned -> pl_cancelled p = true \/ pl_feed p = [];
  pi_select : pl_at p = AtSelect -> pl_feed p <> [];
  pi_returned : pl_at p = Returned -> Forall (fun w => w = Gone) (pl_workers p)
}.

Lemma inv_start n x : pool_inv (start files n x m0).
Proof.
  split; cbn [pl_workers pl_mutex pl_closed pl_at pl_feed pl_cancelled start]; try naive_solver.
  - exists [], []. cbn. split; [|done]. assert (E : replicate n Receiving ≫= inflight = []) by (induction n; done). by rewrite E, !app_nil_r.
  - intros i w [-> _]%lookup_replicate. done.
Qed.

Lemma inv_cancel l a q c ws mu sh : pool_inv (Pool l a q c ws mu false sh) -> pool_inv (Pool l a q c ws mu true sh).
Proof.
  intros [(r & d & H1 & H2 & H3 & H4) Hw Hm Hc Hf Hs Hr]; split; cbn in *; try done; [| |naive_solver].
  - exists r, d. split; [done |]. split; [done |]. split; [done |]. done.
  - intros i w Hi. specialize (Hw i w Hi). destruct w; cbn in *; naive_solver.
Qed.

Lemma inv_feeder x l a q c l' a' q' c' ws mu sh : feeder_step cap x (l, a, q, c) (l', a', q', c') ->
  pool_inv (Pool l a q c ws mu x sh) -> pool_inv (Pool l' a' q' c' ws mu x sh).
Proof.
  intros Hst [(r & d & H1 & H2 & H3 & H4) Hw Hm Hc Hf Hs Hr]. cbn in *. split; cbn.
  - inversion Hst; subst; try (by exists r, d).
    + exists r, d. split; [|done]. rewrite H1. cbn. do 2 f_equiv. by rewrite <- app_assoc.
    + exists r, (fe :: d). split; [|done]. rewrite H1. cbn. do 3 f_equiv. apply Permutation_middle.
  - intros i w Hi. specialize (Hw i w Hi). destruct w; cbn in *; try done. inversion Hst; subst; try naive_solver.
  - done.
  - inversion Hst; subst; naive_solver.
  - inversion Hst; subst; naive_solver.
  - inversion Hst; subst; naive_solver.
  - inversion Hst; subst; naive_solver.
Qed.

(** Worker [i] moves and the others keep what their place says. *)
Lemma workers_move l a q c ws mu x sh q' mu' sh' i w' :
  (forall j w, ws !! j = Some w -> worker_ok (Pool l a q c ws mu x sh) j w) ->
  (forall j w, j <> i -> worker_ok (Pool l a q c ws mu x sh) j w -> worker_ok (Pool l a q' c (<[i := w']> ws) mu' x sh') j w) ->
  worker_ok (Pool l a q' c (<[i := w']> ws) mu' x sh') i w' ->
  forall j w, <[i := w']> ws !! j = Some w -> worker_ok (Pool l a q' c (<[i := w']> ws) mu' x sh') j w.
Proof.
  intros Hall Hoth Hi j w [(-> & -> & _) | [Hne Hj]]%list_lookup_insert_Some; [done |]. apply Hoth; [done | by apply Hall].
Qed.

Lemma mutex_move (ws : list worker) mu mu' i w w' : ws !! i = Some w -> (forall j, mu = Some j -> exists v, ws !! j = Some v /\ holds_lock v) ->
  (mu' = mu /\ ~ holds_lock w \/ mu' = Some i /\ holds_lock w' \/ mu' = None) ->
  forall j, mu' = Some j -> exists v, <[i := w']> ws !! j = Some v /\ holds_lock v.
Proof.
  intros Hi Hm Hcase j Hj. destruct Hcase as [[-> Hn] | [[-> Hl] | ->]]; [|simplify_eq; exists w'; split; [by eapply list_lookup_insert_eq, lookup_lt_Some | done] | done].
  destruct (Hm j Hj) as (v & Hv & Hl). exists v. split; [|done]. rewrite list_lookup_insert_ne; [done |]. intros ->. congruence.
Qed.

Lemma inv_worker l a q c ws mu x sh i w w' q' mu' sh' : ws !! i = Some w ->
  worker_step outcomes i x c (w, q, mu, sh) (w', q', mu', sh') ->
  pool_inv (Pool l a q c ws mu x sh) -> pool_inv (Pool l a q' c (<[i := w']> ws) mu' x sh').
Proof.
  intros Hi Hst [(r & d & H1 & H2 & H3 & H4) Hw Hm Hc Hf Hs Hr]. cbn in Hc, Hf, Hs, Hr, H1, H2, H4, Hm. pose proof (Hw i w Hi) as Hwi.
  destruct (bind_insert inflight ws i w Hi) as (rest & Hp & Hp').
  split; cbn; try done.
  - unfold accounted. cbn [pl_workers pl_queue pl_feed pl_shared pl_cancelled]. inversion Hst; subst; cbn in Hwi, Hp, Hp', H1; setoid_rewrite Hp'; rewrite Hp in H1.
    + exists r, d. split; [|done]. rewrite H1. cbn. f_equiv. symmetry. apply Permutation_middle.
    + exists r, d. by split.
    + exists r, (fe :: d). split; [|done]. rewrite H1. cbn. f_equiv. rewrite !app_assoc. apply Permutation_middle.
    + exists r, d. by split.
    + exists r, d. by split.
    + exists r, d. by split.
    + exists r, d. by split.
    + destruct Hwi as (Ho & _ & ->). exists (r ++ [(fe, r0)]), d. split; [|split; [|split; [|done]]].
      * rewrite H1, fmap_app, <- app_assoc. done.
      * by rewrite foldl_app.
      * apply Forall_app. by repeat constructor.
  - eapply workers_move; [exact Hw | |].
    + clear - Hst Hwi. inversion Hst; subst; cbn in Hwi; intros j v Hj; destruct v; cbn; naive_solver.
    + clear - Hst Hwi. inversion Hst; subst; cbn in Hwi |- *; naive_solver.
  - eapply mutex_move; [exact Hi | exact Hm |]. clear - Hst Hwi. inversion Hst; subst; cbn; naive_solver.
  - intros Ha. specialize (Hr Ha). rewrite Forall_lookup in Hr. pose proof (Hr i w Hi) as ->. inversion Hst.
Qed.

Lemma inv_step p p' : step outcomes cap p p' -> pool_inv p -> pool_inv p'.
Proof.
  destruct 1 as [| ? ? ? ? ? ? ? ? ? ? ? ? Hf | ? ? ? ? ? ? ? ? i w w' ? ? ? Hi Hw | ? ? ? ? ? ? ? Hg].
  - apply inv_cancel.
  - by apply inv_feeder.
  - by eapply inv_worker.
  - intros [Ha Hw Hm Hc Hf Hs Hr]. split; cbn in *; try naive_solver.
Qed.

Lemma inv_reach p p' : rtc (step outcomes cap) p p' -> pool_inv p -> pool_inv p'.
Proof. induction 1 as [|p p1 p2 Hs _ IH]; [done |]. intros Hp. by eapply IH, inv_step. Qed.

(** A worker that has something to do moves, or the one that holds the mutex
    does. *)
Lemma worker_moves p i w : pool_inv p -> (forall fe, exists r, outcomes fe r) -> pl_workers p !! i = Some w -> w <> Gone ->
  (w = Receiving -> pl_queue p <> [] \/ pl_closed p = true) ->
  exists p', step outcomes cap p p' /\ pl_cancelled p' = pl_cancelled p.
Proof.
  intros Hinv Hout Hi Hg Hr. destruct p as [l a q c ws mu x sh]. cbn in *.
  assert (Hmv : forall j v v' q' mu' sh', ws !! j = Some v -> worker_step outcomes j x c (v, q, mu, sh) (v', q', mu', sh') ->
    exists p', step outcomes cap (Pool l a q c ws mu x sh) p' /\ pl_cancelled p' = x).
  { intros j v v' q' mu' sh' Hj Hst. eexists. split; [by eapply step_worker | done]. }
  assert (Hhold : forall j, mu = Some j -> exists p', step outcomes cap (Pool l a q c ws mu x sh) p' /\ pl_cancelled p' = x).
  { intros j Hj. destruct (pi_mutex _ Hinv j Hj) as (v & Hv & Hl). destruct v; try done; eapply Hmv; [exact Hv | constructor | exact Hv | constructor]. }
  destruct w as [| fe | fe | fe r | fe r | fe r seen |]; [| | | | | | done].
  - destruct q as [|fe q]; [|eapply Hmv; [exact Hi | constructor]]. destruct (Hr eq_refl) as [? | ->]; [done |]. eapply Hmv; [exact Hi | by constructor].
  - destruct x; eapply Hmv; [exact Hi | by apply work_stop | exact Hi | by apply work_go].
  - destruct (Hout fe) as [r Ho]. eapply Hmv; [exact Hi | by constructor].
  - destruct mu as [j|]; [by apply (Hhold j) |]. eapply Hmv; [exact Hi | constructor].
  - eapply Hmv; [exact Hi | constructor].
  - eapply Hmv; [exact Hi | constructor].
Qed.

Lemma pool_moves p : pool_inv p -> (forall fe, exists r, outcomes fe r) -> (0 < cap)%nat -> pl_workers p <> [] -> pl_at p <> Returned ->
  exists p', step outcomes cap p p' /\ pl_cancelled p' = pl_cancelled p.
Proof.
  intros Hinv Hout Hcap Hws Hret. pose proof (worker_moves p) as Hw. destruct p as [l a q c ws mu x sh]. cbn in *.
  assert (Hmv : forall l' a' q' c', feeder_step cap x (l, a, q, c) (l', a', q', c') ->
    exists p', step outcomes cap (Pool l a q c ws mu x sh) p' /\ pl_cancelled p' = x).
  { intros l' a' q' c' Hst. eexists. split; [by eapply step_feeder | done]. }
  destruct a; [| | | | |done].
  - destruct l as [|fe l]; [eapply Hmv; constructor |]. destruct x; eapply Hmv; [by apply feed_top_stop | by apply feed_top_go].
  - pose proof (pi_select _ Hinv eq_refl) as Hl. cbn in Hl. destruct l as [|fe l]; [done |].
    destruct (decide (length q < cap)%nat); [eapply Hmv; by constructor |]. destruct x; [eapply Hmv; by apply feed_done |].
    assert (Hq : q <> []) by (intros ->; cbn in *; lia). destruct ws as [|w ws]; [done |].
    eapply (Hw 0%nat w); [done | done | done | | by left].
    intros ->. pose proof (pi_workers _ Hinv 0%nat Gone eq_refl) as Hg. cbn in Hg. naive_solver.
  - destruct x; eapply Hmv; [by apply feed_after_stop | by apply feed_after_go].
  - eapply Hmv. constructor.
  - destruct (decide (Forall (fun w => w = Gone) ws)) as [Hall | Hnot]; [eexists; by split; [apply step_wait |] |].
    apply not_Forall_Exists in Hnot; [|apply _]. apply Exists_exists in Hnot as (w & Hin & Hw').
    apply list_elem_of_lookup in Hin as [i Hi]. eapply (Hw i w); [done | done | done | done |]. intros _. right.
    apply (pi_closed _ Hinv). by left.
Qed.
End Inv.

(** ** What the records add up to *)

Definition entry_of (fr : scanEntry * presult) : FileEntry :=
  match fr.2 with
  | FileErr pathErr text => failed_entry fr.1 (isFileLockedError pathErr text)
  | Processed o => o.1.1.1
  end.

Lemma record_manifest l : forall sh, (foldl record sh l).1 = foldl AddFile sh.1 (entry_of <$> l).
Proof.
  induction l as [|[fe r] l IH]; intros [m s]; [done |]. cbn [foldl fmap list_fmap]. rewrite IH. f_equal.
  destruct r as [[[[e u] c] n] | pe tx]; cbn [record entry_of fst snd]; [by destruct n, c |]. by destruct (isFileLockedError pe tx).
Qed.

Definition done_count (s : uploadStats) : Z :=
  us_newFiles s + us_changedFiles s + us_unchangedFiles s + us_failedFiles s + us_lockedFiles s.

Definition counts_ok (s : uploadStats) : Prop :=
  us_skippedFiles s = 0 /\ us_failedFiles s = Z.of_nat (length (us_failedPaths s)) /\
  us_lockedFiles s = Z.of_nat (length (us_lockedPaths s)) /\ length (us_failedErrors s) = length (us_failedPaths s).

Lemma record_counts fr sh : done_count (record sh fr).2 = done_count sh.2 + 1 /\ (counts_ok sh.2 -> counts_ok (record sh fr).2).
Proof.
  destruct sh as [m s], fr as [fe [[[[e u] c] n] | pe tx]]; unfold done_count, counts_ok; cbn [record snd].
  - destruct n, c; cbn; (split; [lia | tauto]).
  - destruct (isFileLockedError pe tx); cbn; rewrite !length_app; cbn; (split; [lia |]); intros (? & ? & ? & ?); split_and!; lia.
Qed.

Lemma fold_counts l : forall sh, done_count (foldl record sh l).2 = done_count sh.2 + Z.of_nat (length l) /\
  (counts_ok sh.2 -> counts_ok (foldl record sh l).2).
Proof.
  induction l as [|fr l IH]; intros sh; cbn [foldl length]; [split; [lia | done] |].
  destruct (IH (record sh fr)) as [H1 H2], (record_counts fr sh) as [H3 H4]. split; [lia | auto].
Qed.

(** One worker can do the files in their order. *)
Lemma one_worker outcomes l : Forall (fun fr => outcomes fr.1 fr.2) l -> forall sh,
  rtc (step outcomes 1) (Pool l.*1 AtTop [] false [Receiving] None false sh) (Pool [] AtTop [] false [Receiving] None false (foldl record sh l)).
Proof.
  induction 1 as [|[fe r] l Ho _ IH]; intros sh; [done |]. cbn [fmap list_fmap fst foldl].
  eapply rtc_l; [apply step_feeder; by apply feed_top_go |].
  eapply rtc_l; [apply step_feeder; apply feed_send; cbn; lia |].
  eapply rtc_l; [apply step_feeder; by apply feed_after_go |].
  eapply rtc_l; [eapply (step_worker _ _ _ _ _ _ _ _ _ _ 0%nat); [done | apply work_recv] |].
  eapply rtc_l; [eapply (step_worker _ _ _ _ _ _ _ _ _ _ 0%nat); [done | by apply work_go] |].
  eapply rtc_l; [eapply (step_worker _ _ _ _ _ _ _ _ _ _ 0%nat); [done | by apply work_process] |].
  eapply rtc_l; [eapply (step_worker _ _ _ _ _ _ _ _ _ _ 0%nat); [done | apply work_lock] |].
  eapply rtc_l; [eapply (step_worker _ _ _ _ _ _ _ _ _ _ 0%nat); [done | apply work_read] |].
  eapply rtc_l; [eapply (step_worker _ _ _ _ _ _ _ _ _ _ 0%nat); [done | apply work_write] |].
  apply IH.
Qed.

Lemma one_worker_returns outcomes l m : Forall (fun fr => outcomes fr.1 fr.2) l ->
  rtc (step outcomes 1) (start l.*1 1 false m) (Pool [] Returned [] true [Gone] None false (foldl record (m, stats0) l)).
Proof.
  intros Ho. etrans; [by apply one_worker |].
  eapply rtc_l; [apply step_feeder; apply feed_end |].
  eapply rtc_l; [apply step_feeder; apply feed_close |].
  eapply rtc_l; [eapply (step_worker _ _ _ _ _ _ _ _ _ _ 0%nat); [done | by apply work_end] |].
  eapply rtc_l; [apply step_wait; by repeat constructor |]. done.
Qed.

(** ** Theorems *)

Section Theorems.
Context (outcomes : scanEntry -> presult -> Prop) (cap n : nat) (files : list scanEntry) (m0 : Manifest) (x : bool).

Lemma start_length p : rtc (step outcomes cap) (start files n x m0) p -> length (pl_workers p) = n.
Proof.
  intros Hr. assert (Hgen : forall p0, rtc (step outcomes cap) p0 p -> length (pl_workers p) = length (pl_workers p0)).
  { clear Hr. induction 1 as [|p0 p1 p2 Hs _ IH]; [done |]. rewrite IH. inversion Hs; subst; cbn; try done. apply length_insert. }
  rewrite (Hgen _ Hr). apply length_replicate.
Qed.

Lemma pool_result p : (0 < n)%nat -> rtc (step outcomes cap) (start files n x m0) p -> pl_at p = Returned ->
  exists l, pl_shared p = foldl record (m0, stats0) l /\ Forall (fun fr => outcomes fr.1 fr.2) l /\
    l.*1 ⊆+ files /\ (pl_cancelled p = false -> l.*1 ≡ₚ files).
Proof.
  intros Hn Hr Ha. pose proof (inv_reach outcomes cap files m0 _ _ Hr (inv_start outcomes files m0 n x)) as Hinv.
  pose proof (start_length p Hr) as Hlen. destruct (pi_accounted _ _ _ _ Hinv) as (l & d & Hp & Hsh & Ho & Hd).
  exists l. split; [done |]. split; [done |]. split; [rewrite Hp; by apply submseteq_inserts_r |].
  intros Hc. pose proof (pi_returned _ _ _ _ Hinv Ha) as Hg.
  assert (Hq : pl_queue p = []).
  { destruct (pl_workers p) as [|w ws] eqn:Ew; [cbn in Hlen; lia |]. apply Forall_cons in Hg as [-> _].
    pose proof (pi_workers _ _ _ _ Hinv 0%nat Gone) as Hw. rewrite Ew in Hw. specialize (Hw eq_refl). cbn in Hw. rewrite Hc in Hw. naive_solver. }
  assert (Hf : pl_feed p = []) by (destruct (pi_feed _ _ _ _ Hinv) as [?|?]; [tauto | congruence | done]).
  assert (Hi : pl_workers p ≫= inflight = []) by (clear - Hg; induction Hg as [|w ws -> _ IH]; [done |]; exact IH).
  rewrite Hp, Hq, Hf, Hi, (Hd Hc). by rewrite !app_nil_r.
Qed.

(** C13: whatever the interleaving, a pool that returns has done what a
    sequential loop over some of the files, in some order, would have done to
    the manifest and the counters: each file at most once, with one of its
    possible outcomes; and all of them when the context was not cancelled. *)
Theorem pool_refines_loop p : (0 < n)%nat -> rtc (step outcomes cap) (start files n x m0) p -> pl_at p = Returned ->
  exists l, pl_shared p = foldl record (m0, stats0) l /\ Forall (fun fr => outcomes fr.1 fr.2) l /\
    l.*1 ⊆+ files /\ (pl_cancelled p = false -> l.*1 ≡ₚ files).
Proof. apply pool_result. Qed.

(** C14: the pool never deadlocks and always ends: until it has returned,
    something other than a cancellation can happen, with the channel full or
    empty, the mutex taken or free, the context live or cancelled; and no run
    takes more than ten steps a file and a few more. *)
Theorem pool_returns k p : (forall fe, exists r, outcomes fe r) -> (0 < cap)%nat -> (0 < n)%nat ->
  nsteps (step outcomes cap) k (start files n x m0) p ->
  (k <= 10 * length files + n + 5)%nat /\
  (pl_at p <> Returned -> exists p', step outcomes cap p p' /\ pl_cancelled p' = pl_cancelled p).
Proof.
  intros Hout Hcap Hn Hk. split.
  - assert (Hgen : forall p0, nsteps (step outcomes cap) k p0 p -> (k + rank p <= rank p0)%nat).
    { clear Hk. intros p0. induction 1 as [|j p0 p1 p2 Hs%step_rank _ IH]; lia. }
    pose proof (Hgen _ Hk) as Hle. unfold rank at 2 in Hle. cbn [start pl_cancelled pl_at pl_feed pl_queue pl_workers feeder_rank length] in Hle.
    assert (Hw : sum_list_with worker_rank (replicate n Receiving) = n) by (clear; induction n; cbn; lia). rewrite Hw in Hle. destruct x; lia.
  - assert (Hr : rtc (step outcomes cap) (start files n x m0) p) by (apply rtc_nsteps; by exists k).
    apply (pool_moves outcomes cap files m0); [by eapply inv_reach, inv_start | done | done |].
    intros E. apply start_length in Hr. rewrite E in Hr. cbn in Hr. lia.
Qed.

(** When the pool returns without having been cancelled, its counters add
    up to the number of files, nothing is skipped, and every failed or locked
    file is reported by its path. *)
Theorem pool_counts p : (0 < n)%nat -> rtc (step outcomes cap) (start files n x m0) p -> pl_at p = Returned ->
  pl_cancelled p = false -> done_count (pl_shared p).2 = Z.of_nat (length files) /\ counts_ok (pl_shared p).2.
Proof.
  intros Hn Hr Ha Hc. destruct (pool_result p Hn Hr Ha) as (l & -> & _ & _ & Hp). destruct (fold_counts l (m0, stats0)) as [H1 H2].
  split; [|by apply H2]. rewrite H1, <- (Hp Hc), length_fmap. done.
Qed.
End Theorems.

(** ** Witnesses *)

Module PoolWitness.
Definition fe1 : scanEntry := MkScan (go "a/b.txt") (go "/src/a/b.txt") 5 (go "2023-11-14T22:13:20Z") 420.
Definition ok1 : presult := Processed (makeFileEntry fe1 (go "00") FileStatusNew, 5, false, true).
Definition outs (fe : scanEntry) (r : presult) : Prop := r = ok1.
Definition man1 : Manifest := NewManifest [] 1 (go "c") [] [] [].
Definition end1 : pool := Pool [] Returned [] true [Gone] None false (record (man1, stats0) (fe1, ok1)).

(** The feeder sends the file and waits; then the worker handles it. *)
Lemma one_run : nsteps (step outs 4) 13 (start [fe1] 1 false man1) end1.
Proof.
  unfold start, end1. cbn [replicate].
  eapply nsteps_l; [apply step_feeder; by apply feed_top_go |].
  eapply nsteps_l; [apply step_feeder; apply feed_send; cbn; lia |].
  eapply nsteps_l; [apply step_feeder; by apply feed_after_go |].
  eapply nsteps_l; [apply step_feeder; apply feed_end |].
  eapply nsteps_l; [apply step_feeder; apply feed_close |].
  eapply nsteps_l; [eapply (step_worker _ _ _ _ _ _ _ _ _ _ 0%nat); [done | apply work_recv] |].
  eapply nsteps_l; [eapply (step_worker _ _ _ _ _ _ _ _ _ _ 0%nat); [done | by apply work_go] |].
  eapply nsteps_l; [eapply (step_worker _ _ _ _ _ _ _ _ _ _ 0%nat); [done | by apply work_process] |].
  eapply nsteps_l; [eapply (step_worker _ _ _ _ _ _ _ _ _ _ 0%nat); [done | apply work_lock] |].
  eapply nsteps_l; [eapply (step_worker _ _ _ _ _ _ _ _ _ _ 0%nat); [done | apply work_read] |].
  eapply nsteps_l; [eapply (step_worker _ _ _ _ _ _ _ _ _ _ 0%nat); [done | apply work_write] |].
  eapply nsteps_l; [eapply (step_worker _ _ _ _ _ _ _ _ _ _ 0%nat); [done | by apply work_end] |].
  eapply nsteps_l; [apply step_wait; by repeat constructor |].
  apply nsteps_O.
Qed.

Lemma one_reach : rtc (step outs 4) (start [fe1] 1 false man1) end1.
Proof. apply rtc_nsteps. eexists. apply one_run. Qed.

Lemma pool_refines_loop_witness : exists l, l.*1 ≡ₚ [fe1] /\ pl_shared end1 = foldl record (man1, stats0) l.
Proof.
  destruct (pool_refines_loop outs 4 1 [fe1] man1 false end1 ltac:(lia) one_reach eq_refl) as (l & Hs & _ & _ & Hp).
  exists l. split; [by apply Hp | done].
Defined.

Lemma pool_returns_witness : (13 <= 10 * 1 + 1 + 5)%nat /\
  (pl_at end1 <> Returned -> exists p', step outs 4 end1 p' /\ pl_cancelled p' = pl_cancelled end1).
Proof. apply (pool_returns outs 4 1 [fe1] man1 false 13 end1); [by intros fe; exists ok1 | lia | lia | apply one_run]. Defined.

Lemma pool_counts_witness : done_count (pl_shared end1).2 = 1 /\ counts_ok (pl_shared end1).2.
Proof. apply (pool_counts outs 4 1 [fe1] man1 false end1); [lia | apply one_reach | done | done]. Defined.
End PoolWitness.
