(* ===== verification/Collect.v ===== *)
(** Collect: the blobs that snapshots still need ([CollectAliveHashes],
    [CollectAliveHashesStreaming], [ListManifests], [ListSourceCloudIDs] and
    their helpers of [simple/manifest.go]).

    What is not collected may be deleted, so the theorems are about what is
    never left out.  The streaming collector decodes each manifest into a
    smaller structure; [LiteJson] is [encoding/json] for that structure, and its
    laws say that the fields both structures have are decoded alike.  A null
    directory, which the code dereferences, is [None] and panics.  The order of
    manifests with equal time stamps, which [sort.Slice] leaves open, is the one
    of a stable sort. *)

From S2P Require Import Prelude GoStr Externs Compress Crypto FS Manifest CloudID ManifestIO.
From stdpp Require Import base list gmap sorting strings.
From Stdlib.Strings Require Import Byte.
Local Open Scope Z_scope.

(** ** The smaller structure *)

Record fileEntryLite := MkFileLite { fl_ContentHash : bytes; fl_Chunks : list bytes }.
Record manifestLite := MkLite { ml_Dirs : gmap bytes (option (list fileEntryLite)); ml_Files : list fileEntryLite }.

Class LiteJson := json_lite : bytes -> option manifestLite.

Definition lite (f : FileEntry) : fileEntryLite := MkFileLite (f_ContentHash f) (c_Hash <$> f_Chunks f).

Class LiteJsonSpec (J : Json) (L : LiteJson) : Prop := {
  lite_dirs d m : json_unmarshal d = Some m ->
    exists l, json_lite d = Some l /\ ml_Dirs l = (fun dir => Some (lite <$> d_Files dir)) <$> m_Dirs m;
  lite_files d v l : json_unmarshal_v1 d = Some v -> json_lite d = Some l -> ml_Files l = lite <$> v1_Files v
}.

Inductive xerr := XErr (e : merr) | XPanic.

(** The hashes one file contributes; empty ones are passed over. *)
Definition lite_hashes (f : fileEntryLite) : list bytes :=
  match fl_Chunks f with
  | [] => if eqs (fl_ContentHash f) [] then [] else [fl_ContentHash f]
  | cs => filter (fun h => h <> []) cs
  end.

Section Ops.
Context `{AE : AEAD, ZS : Zstd, SH : Sha256, HK : Hkdf} `{J : Json, L : LiteJson}.
Context (hook : option (bytes -> option bytes)).

Definition extractHashesFromJSON (data : bytes) : result xerr (list bytes) :=
  match json_lite data with
  | None => Err (XErr MUnmarshal)
  | Some m =>
      match mapM snd (map_to_list (ml_Dirs m)) with
      | None => Err XPanic
      | Some dirs => Ok ((mjoin dirs ≫= lite_hashes) ++ (ml_Files m ≫= lite_hashes))
      end
  end.

(** Decrypted by the hook and decompressed, where the data says so. *)
Definition unpacked (data : bytes) : result merr bytes :=
  data ← (if (MagicSize <=? blen data) && bool_decide (upto MagicSize data = GKM1Magic) then
            match hook with
            | None => Err MNoHook
            | Some f => match f data with Some d => Ok d | None => Err MHook end
            end
          else Ok data);
  if Zstd.IsCompressed data then
    match Zstd.Decompress localManifestCompressor data with Ok d => Ok d | Err e => Err (MDecompress e) end
  else Ok data.

Definition lift {A} (r : result merr A) : eff world xerr A := match r with Ok a => mret a | Err e => throw (XErr e) end.

Definition extractHashesFromManifestFile (path : bytes) : eff world xerr (list bytes) :=
  data ← wrap_err (fun e => XErr (MRead e)) (ReadFile path);
  data ← (if isGBREnvelope data then lift (stripGBREnvelope data)
          else _ ← wrap_err XErr (verifyManifestChecksum path data); mret data);
  data ← lift (unpacked data);
  match extractHashesFromJSON data with Ok hs => mret hs | Err e => throw e end.

(** The loop over the manifest files: the hashes and what could not be read. *)
Fixpoint collect_loop (dir : bytes) (names : list bytes) (alive : gset bytes) (errs : list (bytes * merr))
  : eff world xerr (gset bytes * list (bytes * merr)) :=
  match names with
  | [] => mret (alive, errs)
  | n :: rest =>
      r ← attempt (extractHashesFromManifestFile (FpJoin [dir; n]));
      match r with
      | Err XPanic => throw XPanic
      | Err (XErr e) => collect_loop dir rest alive (errs ++ [(n, e)])
      | Ok hashes => collect_loop dir rest (list_to_set hashes ∪ alive) errs
      end
  end.

Definition CollectAliveHashesStreaming (metaDir cloudID : bytes) : eff world xerr (gset bytes * list (bytes * merr)) :=
  let dir := ManifestDir metaDir cloudID in
  r ← attempt (readManifestFiles dir);
  match r with
  | Err ENOENT => mret (∅, [])
  | Err e => throw (XErr (MReadDir e))
  | Ok entries => collect_loop dir entries ∅ []
  end.

Definition CollectAliveHashes (manifests : list Manifest) : gset bytes :=
  list_to_set (manifests ≫= fun m => map_to_list (m_Dirs m) ≫= fun kd => d_Files kd.2 ≫= file_hashes).

(** ** Listing *)

(** [fn] sees each manifest that loads, with its name, and may stop the loop. *)
Fixpoint forEachManifest {St} (dir : bytes) (names : list bytes) (fn : St -> Manifest -> bytes -> St * bool) (st : St)
  : eff world merr (St * list (bytes * merr)) :=
  match names with
  | [] => mret (st, [])
  | n :: rest =>
      r ← attempt (LoadManifest hook (FpJoin [dir; n]));
      match r with
      | Err e => '(st', errs) ← forEachManifest dir rest fn st; mret (st', (n, e) :: errs)
      | Ok m =>
          let '(st', stop) := fn st m n in
          if (stop : bool) then mret (st', []) else forEachManifest dir rest fn st'
      end
  end.

(** Newest first, by the text of the time stamp. *)
Definition by_time (a b : Manifest) : Prop := Is_true (ble (m_Timestamp b) (m_Timestamp a)).
#[global] Instance by_time_dec a b : Decision (by_time a b).
Proof. apply _. Defined.

Definition list_dir (dir : bytes) : eff world merr (list Manifest * list (bytes * merr)) :=
  r ← attempt (readManifestFiles dir);
  match r with
  | Err ENOENT => mret ([], [])
  | Err e => throw (MReadDir e)
  | Ok entries =>
      '(result, loadErrors) ← forEachManifest dir entries (fun ms m _ => (ms ++ [m], false)) [];
      mret (merge_sort by_time result, loadErrors)
  end.

Definition ListManifests (metaDir cloudID : bytes) := list_dir (ManifestDir metaDir cloudID).
End Ops.

(** The sources with a directory of their own two levels below [base]; entries
    that are not directories and [_sources] are passed over, as are directories
    that cannot be read. *)
Definition dir_names (entries : list (bytes * bool)) : list bytes := fst <$> filter (fun e => e.2 = true) entries.

Fixpoint sub_keys (base : bytes) (entries : list (bytes * bool)) : eff world merr (list bytes) :=
  match entries with
  | [] => mret []
  | (n, isDir) :: rest =>
      if negb isDir || eqs n (go "_sources") then sub_keys base rest
      else
        r ← attempt (ReadDir (FpJoin [base; n]));
        match r with
        | Err _ => sub_keys base rest
        | Ok subs => ks ← sub_keys base rest; mret ((ManifestPathKey n <$> dir_names subs) ++ ks)
        end
  end.

Definition list_keys (base : bytes) : eff world merr (list bytes) :=
  r ← attempt (ReadDir base);
  match r with
  | Err ENOENT => mret []
  | Err e => throw (MReadDir e)
  | Ok entries => sub_keys base entries
  end.

Definition ListSourceCloudIDs (manifestsDir : bytes) : eff world merr (list bytes) :=
  ks ← list_keys manifestsDir; mret (uniq ∅ ks).

(** * Facts *)

Lemma lite_hashes_lite f : lite_hashes (lite f) = filter (fun h => h <> []) (file_hashes f).
Proof.
  unfold lite_hashes, lite, file_hashes. cbn [fl_Chunks fl_ContentHash]. destruct (f_Chunks f) as [|c cs]; cbn [fmap list_fmap]; [|done].
  destruct (eqs (f_ContentHash f) []) eqn:E; [done |]. apply eqs_false in E. by rewrite filter_cons_True.
Qed.

Lemma flat_AddEmptyDirs {X} (g : bytes -> FileEntry -> list X) ps : forall m, flat g (m_Dirs (foldl AddEmptyDir m ps)) ≡ₚ flat g (m_Dirs m).
Proof. induction ps as [|p ps IH]; intros m; [done |]. cbn [foldl]. by rewrite IH, flat_AddEmptyDir. Qed.

(** What a manifest references; an empty hash is no reference. *)
Definition refs (m : Manifest) : gset bytes := CollectAliveHashes [m] ∖ {[ [] ]}.

Lemma elem_of_refs m h : h ∈ refs m <-> h ∈ flat (fun _ f => file_hashes f) (m_Dirs m) /\ h <> [].
Proof. unfold refs, CollectAliveHashes, flat. rewrite bind_singleton. set_solver. Qed.

Section Facts.
Context `{AE : AEAD, ZS : Zstd, SH : Sha256, HK : Hkdf} `{J : Json, L : LiteJson} `{LS : !LiteJsonSpec J L}.
Context (hook : option (bytes -> option bytes)).

Lemma lite_all (D : gmap bytes Dir) :
  mapM snd (map_to_list ((fun dir => Some (lite <$> d_Files dir)) <$> D)) = Some ((fun kd => lite <$> d_Files kd.2) <$> map_to_list D).
Proof. rewrite map_to_list_fmap. induction (map_to_list D) as [|[k d] l IH]; [done |]. cbn. cbn in IH. by rewrite IH. Qed.

(** A manifest that decodes gives up all its references. *)
Lemma extract_covers d m0 : json_unmarshal d = Some m0 -> exists hs, extractHashesFromJSON d = Ok hs /\
  refs (if m_Version m0 <? 2 then migrateV1Manifest m0 d else m0) ⊆ list_to_set hs.
Proof.
  intros Hj. destruct (lite_dirs d m0 Hj) as (l & Hl & Hd). unfold extractHashesFromJSON. rewrite Hl, Hd, lite_all. eexists. split; [done |].
  assert (H0 : refs m0 ⊆ list_to_set ((mjoin ((fun kd => lite <$> d_Files kd.2) <$> map_to_list (m_Dirs m0)) ≫= lite_hashes) ++ (ml_Files l ≫= lite_hashes))).
  { intros h [(kd & (f & Hh & Hf)%list_elem_of_bind & Hk)%list_elem_of_bind Hne]%elem_of_refs. apply elem_of_list_to_set, elem_of_app. left.
    apply list_elem_of_bind. exists (lite f). rewrite lite_hashes_lite. split; [by apply list_elem_of_filter |].
    apply list_elem_of_join. exists (lite <$> d_Files kd.2). split; [by apply list_elem_of_fmap_2 | by apply (list_elem_of_fmap_2 (fun kd : bytes * Dir => lite <$> d_Files kd.2))]. }
  destruct (m_Version m0 <? 2); [|done]. unfold migrateV1Manifest. destruct (json_unmarshal_v1 d) as [v|] eqn:Ev; [|done].
  intros h [Hh Hne]%elem_of_refs. rewrite flat_AddEmptyDirs, flat_AddFiles in Hh. apply list_elem_of_bind in Hh as (f & Hh & Hf).
  apply elem_of_list_to_set, elem_of_app. right. rewrite (lite_files d v l Ev Hl). apply list_elem_of_bind. exists (lite f).
  rewrite lite_hashes_lite. split; [by apply list_elem_of_filter | by apply list_elem_of_fmap_2].
Qed.

(** Loading and extracting take the same way to the JSON text. *)
Lemma load_unpacked data m : LoadManifestFromData hook data = Ok m -> exists d d' m0,
  (if isGBREnvelope data then stripGBREnvelope data else Ok data) = Ok d /\ unpacked hook d = Ok d' /\
  json_unmarshal d' = Some m0 /\ m = if m_Version m0 <? 2 then migrateV1Manifest m0 d' else m0.
Proof.
  unfold LoadManifestFromData. intros (d & Hd & H)%bind_ok_inv. apply bind_ok_inv in H as (d1 & H1 & H). apply bind_ok_inv in H as (d2 & H2 & H).
  destruct (json_unmarshal d2) as [m0|] eqn:Ej; [|done]. exists d, d2, m0. split; [done |]. split; [unfold unpacked; by rewrite H1 |]. split; [done |].
  destruct (ValidateStructure _); [|done]. by apply ok_inv in H.
Qed.

(** A JSON text with a null directory, and a manifest file that has one: what
    its data decodes to, behind envelope, encryption and compression. *)
Definition null_text (d : bytes) : Prop := exists l k, json_lite d = Some l /\ ml_Dirs l !! k = Some None.
Definition null_dir (files : gmap bytes file) (p : bytes) : Prop := exists f d d', files !! p = Some f /\
  (if isGBREnvelope (f_data f) then stripGBREnvelope (f_data f) else Ok (f_data f)) = Ok d /\ unpacked hook d = Ok d' /\ null_text d'.

Lemma extract_panic d : extractHashesFromJSON d = Err XPanic -> null_text d.
Proof.
  unfold extractHashesFromJSON. destruct (json_lite d) as [l|] eqn:El; [|done]. destruct (mapM snd _) eqn:Em; [done |]. intros _.
  apply mapM_None, Exists_exists in Em as ([k o] & Hin & Ho). cbn in Ho. subst o. exists l, k. split; [done |]. by apply elem_of_map_to_list.
Qed.

(** After the checksum. *)
Lemma wp_extract_rest d w :
  wp (data ← lift (unpacked hook d); match extractHashesFromJSON data with Ok hs => mret hs | Err e => throw e end)
    (fun r w' => w' = w /\ (r = Err XPanic -> exists d', unpacked hook d = Ok d' /\ null_text d') /\ forall d', unpacked hook d = Ok d' -> r = extractHashesFromJSON d') w.
Proof.
  wp_step. destruct (unpacked hook d) as [d1|e]; cbn [lift]; wp_step; [|done]. pose proof (extract_panic d1). destruct (extractHashesFromJSON d1) eqn:E; wp_step; (split; [done |]); (split; [by intros Hp; exists d1; split; [| apply H; congruence] |]); by intros d' ->%ok_inv.
Qed.

(** Whatever fails, what is extracted from a manifest that loads has all its
    references; and when nothing fails, something is extracted. *)
Definition covers (w : world) (p : bytes) (r : result xerr (list bytes)) : Prop :=
  forall m, load_file hook (w_files w) p = Ok m -> (forall hs, r = Ok hs -> refs m ⊆ list_to_set hs) /\ (calm w -> is_ok r = true).

Lemma covers_rest data d r m : LoadManifestFromData hook data = Ok m ->
  (if isGBREnvelope data then stripGBREnvelope data else Ok data) = Ok d ->
  (forall d', unpacked hook d = Ok d' -> r = extractHashesFromJSON d') ->
  (forall hs, r = Ok hs -> refs m ⊆ list_to_set hs) /\ is_ok r = true.
Proof.
  intros Hl Hd Hr. destruct (load_unpacked data m Hl) as (d0 & d' & m0 & Hd0 & Hu & Hj & ->). rewrite Hd in Hd0. apply ok_inv in Hd0 as ->.
  specialize (Hr d' Hu). destruct (extract_covers d' m0 Hj) as (hs & Hx & Hc). rewrite Hr, Hx. split; [by intros ? ->%ok_inv | done].
Qed.

Lemma wp_extract p w : wp (extractHashesFromManifestFile hook p) (fun r w' => same w w' /\ covers w p r /\ (r = Err XPanic -> null_dir (w_files w) p)) w.
Proof.
  unfold extractHashesFromManifestFile, covers, load_file. do 2 wp_step. apply wp_ReadFile; cbn beta iota.
  { intros e w1 Hs He Hc. split; [done |]. split; [|done]. intros m Hm. split; [done |]. intros Hcalm. by rewrite (He (Hc Hcalm)) in Hm. }
  intros f w1 Hs Hf. rewrite Hf. set (data := f_data f). wp_step.
  assert (Hrest : forall d w2, same w w2 -> (if isGBREnvelope data then stripGBREnvelope data else Ok data) = Ok d ->
    wp (data ← lift (unpacked hook d); match extractHashesFromJSON data with Ok hs => mret hs | Err e => throw e end)
      (fun r w' => same w w' /\ (r = Err XPanic -> null_dir (w_files w) p) /\ forall m, LoadManifestFromData hook data = Ok m -> (forall hs, r = Ok hs -> refs m ⊆ list_to_set hs) /\ is_ok r = true) w2).
  { intros d w2 Hs2 Hd. eapply wp_mono; [apply wp_extract_rest |]. intros r w3 (-> & Hp & Hr). split; [done |]. split; [|intros m Hm; by eapply covers_rest].
    intros E. destruct (Hp E) as (d' & Hu & Hnull). by exists f, d, d'. }
  destruct (isGBREnvelope data) eqn:Ee.
  - destruct (stripGBREnvelope data) as [d|e] eqn:Es; cbn [lift]; wp_step.
    + eapply wp_mono; [by apply Hrest |]. intros r w2 (Hs2 & Hp & Hr). split; [done |]. split; [|done]. intros m Hm. destruct (Hr m Hm). by split.
    + split; [done |]. split; [|done]. intros m Hm. destruct (load_unpacked data m Hm) as (d0 & ? & ? & Hd & _). rewrite Ee, Es in Hd. done.
  - do 2 wp_step. apply wp_verify. intros r w2 Hs2 Hc2. assert (S2 : same w w2) by (by etrans). destruct r as [[]|e].
    + wp_step. eapply wp_mono; [by apply Hrest |]. intros r w3 (Hs3 & Hp & Hr). split; [done |]. split; [|done]. intros m Hm.
      destruct (w_files w !! manifestChecksumPath p); [|done]. destruct (eqs _ _); [|done]. destruct (Hr m Hm). by split.
    + split; [done |]. split; [|done]. intros m Hm. split; [done |]. intros Hcalm. specialize (Hc2 (same_faults _ _ Hs Hcalm)). rewrite (same_files _ _ Hs) in Hc2.
      destruct (w_files w !! manifestChecksumPath p); [|done]. by destruct (eqs _ _).
Qed.

(** What collecting over [names] adds to [alive] and [errs]. *)
Definition collected (dir : bytes) (names : list bytes) (alive : gset bytes) (errs : list (bytes * merr)) (w : world)
    (r : result xerr (gset bytes * list (bytes * merr))) : Prop :=
  match r with
  | Ok (alive', errs') => alive ⊆ alive' /\ errs `prefix_of` errs' /\
      (forall n m, n ∈ names -> load_file hook (w_files w) (FpJoin [dir; n]) = Ok m -> refs m ⊆ alive' \/ n ∈ errs'.*1) /\
      (calm w -> forall n, n ∈ errs'.*1 -> n ∈ errs.*1 \/ n ∈ names /\ is_ok (load_file hook (w_files w) (FpJoin [dir; n])) = false)
  | Err e => (calm w -> e = XPanic) /\ (e = XPanic -> exists n, n ∈ names /\ null_dir (w_files w) (FpJoin [dir; n]))
  end.

Lemma wp_collect_loop dir names : forall alive errs w,
  wp (collect_loop hook dir names alive errs) (fun r w' => same w w' /\ collected dir names alive errs w r) w.
Proof.
  induction names as [|n names IH]; intros alive errs w; cbn [collect_loop].
  { wp_step. split; [done |]. split; [done |]. split; [done |]. split; [by intros ? ? ?%elem_of_nil | by left]. }
  do 2 wp_step. eapply wp_mono; [apply wp_extract |]. intros r w1 (Hs & Hcov & Hnull). cbn beta iota.
  assert (Hnext : forall alive' errs', alive ⊆ alive' -> errs `prefix_of` errs' ->
    (forall m, load_file hook (w_files w) (FpJoin [dir; n]) = Ok m -> refs m ⊆ alive' \/ n ∈ errs'.*1) ->
    (calm w -> forall k, k ∈ errs'.*1 -> k ∈ errs.*1 \/ k = n /\ is_ok (load_file hook (w_files w) (FpJoin [dir; n])) = false) ->
    wp (collect_loop hook dir names alive' errs') (fun r w' => same w w' /\ collected dir (n :: names) alive errs w r) w1).
  { intros alive' errs' Ha He Hm Hc. eapply wp_mono; [apply IH |]. intros r' w2 [Hs2 Hr]. split; [by etrans |]. unfold collected in *.
    rewrite (same_files _ _ Hs) in Hr. destruct r' as [[a e]|e]; [|split; [intros Hcalm; by apply Hr, (same_faults _ _ Hs) | intros E; destruct (proj2 Hr E) as (k & Hk & Hkn); exists k; split; [by right | done]]].
    destruct Hr as (Ha2 & He2 & Hm2 & Hc2). split; [set_solver |]. split; [by etrans |]. split.
    - intros k m [-> | Hk]%elem_of_cons Hl; [|by eapply Hm2]. destruct (Hm m Hl) as [? | Hin]; [left; set_solver | right].
      destruct He2 as [x ->]. rewrite fmap_app. set_solver.
    - intros Hcalm k Hk. destruct (Hc2 (same_faults _ _ Hs Hcalm) k Hk) as [Hin | [? ?]]; [|right; set_solver].
      destruct (Hc Hcalm k Hin) as [? | [-> ?]]; [by left | right; set_solver]. }
  destruct r as [hs|[e|]].
  - apply Hnext; [set_solver | done | | by left]. intros m Hl. left. destruct (Hcov m Hl) as [H1 _]. specialize (H1 hs eq_refl). set_solver.
  - apply Hnext; [done | by eexists | |]; rewrite fmap_app; cbn.
    + intros m Hl. right. set_solver.
    + intros Hcalm k [? | ->%list_elem_of_singleton]%elem_of_app; [by left | right]. split; [done |].
      destruct (load_file hook (w_files w) (FpJoin [dir; n])) as [m|] eqn:El; [|done]. by destruct (Hcov m El) as [_ Hx]; apply Hx in Hcalm.
  - wp_step. split; [done |]. split; [done |]. intros _. exists n. split; [by left | by apply Hnull].
Qed.

(** The manifest files of a source. *)
Definition manifest_names (metaDir cloudID : bytes) (files : gmap bytes file) : list bytes :=
  filter (fun n => isManifestFile n = true) (file_names (children (ManifestDir metaDir cloudID) files)).
Definition load_named (metaDir cloudID : bytes) (files : gmap bytes file) (n : bytes) : result merr Manifest :=
  load_file hook files (FpJoin [ManifestDir metaDir cloudID; n]).

(** Collecting, on every outcome. *)
Lemma wp_live_hashes metaDir cloudID w :
  wp (CollectAliveHashesStreaming hook metaDir cloudID) (fun r w' => same w w' /\
    (calm w -> is_ok r = true \/ exists n, n ∈ manifest_names metaDir cloudID (w_files w) /\ null_dir (w_files w) (FpJoin [ManifestDir metaDir cloudID; n])) /\
    forall alive errs, r = Ok (alive, errs) ->
    (forall n m, n ∈ manifest_names metaDir cloudID (w_files w) -> load_named metaDir cloudID (w_files w) n = Ok m ->
       refs m ⊆ alive \/ n ∈ errs.*1) /\
    (calm w -> forall n, n ∈ errs.*1 -> is_ok (load_named metaDir cloudID (w_files w) n) = false)) w.
Proof.
  unfold CollectAliveHashesStreaming, readManifestFiles, readManifestDirEntries. do 4 wp_step. apply wp_ReadDir; cbn beta iota.
  - intros e w1 Hs Hc He. destruct e; wp_step; (split; [done |]); (split; [intros Hcalm; destruct (Hc Hcalm) as [? _]; by left |]); intros alive errs Hr; try done.
    apply ok_pair_inv in Hr as [-> ->]. split; [|by intros ? ? ?%elem_of_nil].
    intros n m Hn. unfold manifest_names in Hn. rewrite (He eq_refl) in Hn. by apply elem_of_nil in Hn.
  - intros w1 Hs. do 2 wp_step. eapply wp_mono; [apply wp_collect_loop |]. intros r w2 [Hs2 Hr]. split; [by etrans |].
    split; [intros Hcalm; destruct r as [[]|e]; [by left | right; unfold collected in Hr; rewrite (same_files _ _ Hs) in Hr; apply Hr, Hr, (same_faults _ _ Hs Hcalm)] |].
    intros alive errs ->. destruct Hr as (_ & _ & Hm & Hc). rewrite (same_files _ _ Hs) in *. split; [done |].
    intros Hcalm n Hn. by destruct (Hc (same_faults _ _ Hs Hcalm) n Hn) as [?%elem_of_nil | [_ ?]].
Qed.


(** ** Listing *)

(** What the loop over the manifests does when nothing fails. *)
Fixpoint each {St} (load : bytes -> result merr Manifest) (names : list bytes) (fn : St -> Manifest -> bytes -> St * bool) (st : St)
  : St * list (bytes * merr) :=
  match names with
  | [] => (st, [])
  | n :: rest =>
      match load n with
      | Err e => let '(st', errs) := each load rest fn st in (st', (n, e) :: errs)
      | Ok m => let '(st', stop) := fn st m n in if (stop : bool) then (st', []) else each load rest fn st'
      end
  end.

Lemma wp_forEach {St} dir names (fn : St -> Manifest -> bytes -> St * bool) : forall st w, calm w ->
  wp (forEachManifest hook dir names fn st) (fun r w' => same w w' /\ r = Ok (each (fun n => load_file hook (w_files w) (FpJoin [dir; n])) names fn st)) w.
Proof.
  induction names as [|n names IH]; intros st w Hc; cbn [forEachManifest each]; [by wp_step |].
  do 2 wp_step. eapply wp_mono; [by apply wp_LoadManifest |]. intros r w1 [Hs ->]. cbn beta iota.
  destruct (load_file hook (w_files w) (FpJoin [dir; n])) as [m|e].
  - destruct (fn st m n) as [st' [|]]; [by wp_step |]. eapply wp_mono; [apply IH, (same_faults _ _ Hs Hc) |]. intros r w2 [Hs2 ->].
    rewrite (same_files _ _ Hs). split; [by etrans | done].
  - wp_step. eapply wp_mono; [apply IH, (same_faults _ _ Hs Hc) |]. intros r w2 [Hs2 ->]. rewrite (same_files _ _ Hs).
    destruct (each _ names fn st). wp_step. split; [by etrans | done].
Qed.

(** The manifests that load, and the names of the others with the reason. *)
Definition loaded (load : bytes -> result merr Manifest) (n : bytes) : option Manifest := match load n with Ok m => Some m | Err _ => None end.
Definition failed (load : bytes -> result merr Manifest) (n : bytes) : option (bytes * merr) := match load n with Ok _ => None | Err e => Some (n, e) end.

Lemma each_collect load names : forall ms, each load names (fun ms m _ => (ms ++ [m], false)) ms = (ms ++ omap (loaded load) names, omap (failed load) names).
Proof.
  induction names as [|n names IH]; intros ms; cbn [each omap list_omap]; [by rewrite app_nil_r |].
  unfold loaded at 1, failed at 1. destruct (load n) as [m|e]; rewrite IH; [by rewrite <- app_assoc | done].
Qed.

#[local] Instance by_time_trans : Transitive by_time.
Proof. intros a b c. unfold by_time. rewrite !Is_true_true. intros. by eapply ble_trans. Qed.
#[local] Instance by_time_total : Total by_time.
Proof. intros a b. unfold by_time. rewrite !Is_true_true. destruct (ble_total (m_Timestamp a) (m_Timestamp b)); auto. Qed.

(** When nothing fails, the listing of a source has exactly its manifests
    that load, newest first, and names exactly the others with the reason. *)
Theorem list_manifests_exact metaDir cloudID w : calm w ->
  let load := load_named metaDir cloudID (w_files w) in
  let names := manifest_names metaDir cloudID (w_files w) in
  wp (ListManifests hook metaDir cloudID) (fun r w' => same w w' /\ exists ms, r = Ok (ms, omap (failed load) names) /\
    ms ≡ₚ omap (loaded load) names /\ StronglySorted by_time ms) w.
Proof.
  intros Hc load names. unfold ListManifests, list_dir, readManifestFiles, readManifestDirEntries. do 4 wp_step. apply wp_ReadDir; cbn beta iota.
  - intros e w1 Hs He _. destruct (He Hc) as [-> Hch]. wp_step. split; [done |]. exists []. subst names. unfold manifest_names. rewrite Hch. split; [done |]. split; [done | constructor].
  - intros w1 Hs. do 3 wp_step. eapply wp_mono; [apply wp_forEach, (same_faults _ _ Hs Hc) |]. intros r w2 [Hs2 ->]. rewrite (same_files _ _ Hs).
    rewrite each_collect. cbn beta iota. wp_step. split; [by etrans |]. eexists. split; [done |]. split; [apply merge_sort_Permutation | apply StronglySorted_merge_sort; apply _].
Qed.

(** ** Sources *)

Definition key_found (base : bytes) (files : gmap bytes file) (entries : list (bytes * bool)) (key : bytes) : Prop :=
  exists a b, key = ManifestPathKey a b /\ (a, true) ∈ entries /\ a <> go "_sources" /\ (b, true) ∈ children (FpJoin [base; a]) files.

Lemma wp_sub_keys base entries : forall w, calm w ->
  wp (sub_keys base entries) (fun r w' => same w w' /\ exists ks, r = Ok ks /\ forall key, key ∈ ks <-> key_found base (w_files w) entries key) w.
Proof.
  induction entries as [|[n d] entries IH]; intros w Hc; cbn [sub_keys].
  { wp_step. split; [done |]. exists []. split; [done |]. intros key. split; [by intros ?%elem_of_nil | by intros (? & ? & _ & ?%elem_of_nil & _)]. }
  assert (Hskip : d = false \/ n = go "_sources" -> forall key, key_found base (w_files w) ((n, d) :: entries) key <-> key_found base (w_files w) entries key).
  { intros Hs key. unfold key_found. setoid_rewrite elem_of_cons. naive_solver. }
  destruct (negb d || eqs n (go "_sources")) eqn:Eg.
  { eapply wp_mono; [by apply IH |]. intros r w1 (Hs & ks & -> & Hk). split; [done |]. exists ks. split; [done |]. intros key. rewrite Hk, Hskip; [done |].
    apply orb_true_iff in Eg as [?%negb_true_iff | ?%eqs_true]; auto. }
  apply orb_false_iff in Eg as [Ed%negb_false_iff En%eqs_false]. subst d. do 2 wp_step. apply wp_ReadDir; cbn beta iota.
  - intros e w1 Hs He _. destruct (He Hc) as [_ Hch]. eapply wp_mono; [apply IH, (same_faults _ _ Hs Hc) |]. intros r w2 (Hs2 & ks & -> & Hk). split; [by etrans |].
    exists ks. split; [done |]. intros key. rewrite Hk, (same_files _ _ Hs). unfold key_found. setoid_rewrite elem_of_cons. split; [naive_solver |].
    intros (a & b & Hkey & [E | Ha] & Hne & Hb); [|naive_solver]. injection E as ->. rewrite Hch in Hb. by apply elem_of_nil in Hb.
  - intros w1 Hs. wp_step. eapply wp_mono; [apply IH, (same_faults _ _ Hs Hc) |]. intros r w2 (Hs2 & ks & -> & Hk). cbn beta iota. wp_step. split; [by etrans |].
    eexists. split; [done |]. intros key. rewrite elem_of_app, Hk, (same_files _ _ Hs). unfold key_found, dir_names. rewrite list_elem_of_fmap. setoid_rewrite list_elem_of_fmap.
    setoid_rewrite list_elem_of_filter. setoid_rewrite elem_of_cons. split.
    + intros [(b & -> & [b' bd] & -> & Hbd & Hb) | (a & b & ? & ? & ? & ?)]; [|naive_solver]. cbn in Hbd. subst bd. exists n, b'. naive_solver.
    + intros (a & b & -> & [E | Ha] & Hne & Hb); [|naive_solver]. injection E as ->. left. exists b. split; [done |]. by exists (b, true).
Qed.
End Facts.

Section Sources.
Context (metaDir : bytes).
Definition manifests_dir : bytes := FpJoin [metaDir; go "manifests"].

Lemma normal_manifests : Forall normal [go "manifests"].
Proof. by_decide. Qed.

Lemma join_manifests a : normal a -> FpJoin [manifests_dir; a] = manifests_dir ++ slash :: a.
Proof. intros Ha. by apply FpJoin_nested; [| apply normal_manifests |]. Qed.

Lemma wp_ListSources w : calm w -> tidy manifests_dir (w_files w) ->
  wp (ListSourceCloudIDs manifests_dir) (fun r w' => same w w' /\ exists ks, r = Ok ks /\ NoDup ks /\
    forall key, key ∈ ks <-> exists a b l, key = ManifestPathKey a b /\ a <> go "_sources" /\ l <> [] /\ Forall normal (a :: b :: l) /\
      is_Some (w_files w !! under manifests_dir (a :: b :: l))) w.
Proof.
  intros Hc Ht. unfold ListSourceCloudIDs, list_keys. do 3 wp_step.
  assert (Hkeys : forall key, key_found manifests_dir (w_files w) (children manifests_dir (w_files w)) key <->
    exists a b l, key = ManifestPathKey a b /\ a <> go "_sources" /\ l <> [] /\ Forall normal (a :: b :: l) /\ is_Some (w_files w !! under manifests_dir (a :: b :: l))).
  { intros key. unfold key_found. split.
    - intros (a & b & -> & Ha & Hs & Hb). apply (children_under _ _ _ _ Ht) in Ha as [Hna _]. rewrite join_manifests in Hb by done.
      apply (children_under _ _ _ _ (tidy_sub _ _ _ Ht Hna)) in Hb as (Hnb & l & f & Hl & Hf & Hlb). exists a, b, l. split; [done |]. split; [done |].
      split; [intros E; by apply Hlb in E |]. split; [by rewrite !Forall_cons |]. rewrite under_cons by done. by exists f.
    - intros (a & b & l & -> & Hs & Hl & [Hna [Hnb Hnl]%Forall_cons]%Forall_cons & [f Hf]). exists a, b. split; [done |].
      rewrite join_manifests by done. split; [|split; [done |]].
      + apply (children_under _ _ _ _ Ht). split; [done |]. exists (b :: l), f. split; [by constructor |]. by split.
      + apply (children_under _ _ _ _ (tidy_sub _ _ _ Ht Hna)). split; [done |]. exists l, f. rewrite under_cons in Hf by done. by split. }
  apply wp_ReadDir; cbn beta iota.
  - intros e w1 Hs He _. destruct (He Hc) as [-> Hch]. do 2 wp_step. split; [done |]. exists []. split; [done |]. split; [constructor |]. intros key.
    rewrite <- Hkeys, Hch. split; [by intros ?%elem_of_nil | by intros (? & ? & _ & ?%elem_of_nil & _)].
  - intros w1 Hs. eapply wp_mono; [apply wp_sub_keys, (same_faults _ _ Hs Hc) |]. intros r w2 (Hs2 & ks & -> & Hk). cbn beta iota. wp_step. split; [by etrans |].
    eexists. split; [done |]. split; [apply NoDup_uniq |]. intros key. rewrite elem_of_uniq, Hk, (same_files _ _ Hs), Hkeys. set_solver.
Qed.
(** The sources of a repository: when nothing fails, the listing has each
    device and source number once, and exactly those below whose directory
    there is some file. *)
Theorem sources_listed w : calm w -> tidy manifests_dir (w_files w) ->
  wp (ListSourceCloudIDs manifests_dir) (fun r w' => same w w' /\ exists ks, r = Ok ks /\ NoDup ks /\
    forall key, key ∈ ks <-> exists a b l, key = ManifestPathKey a b /\ a <> go "_sources" /\ l <> [] /\ Forall normal (a :: b :: l) /\
      is_Some (w_files w !! under manifests_dir (a :: b :: l))) w.
Proof. apply wp_ListSources. Qed.

Lemma FormatInt_noslash n : slash ∉ FormatInt n.
Proof.
  unfold FormatInt. destruct (n <? 0); [apply not_elem_of_cons; split; [done |] |]; (apply digits_no_us; [done | apply not_elem_of_nil]).
Qed.

(** A source without a device keeps its manifests one level higher, where the
    listing does not look: it is never listed, whatever files it has. *)
Theorem legacy_source_unlisted sid w : calm w -> tidy manifests_dir (w_files w) ->
  wp (ListSourceCloudIDs manifests_dir) (fun r _ => forall ks, r = Ok ks -> ResolveCloudID [] sid ∉ ks) w.
Proof.
  intros Hc Ht. eapply wp_mono; [by apply wp_ListSources |]. intros r w' (_ & ks & -> & _ & Hk) ks' ->%ok_inv. rewrite Hk.
  intros (a & b & l & E & _). unfold ResolveCloudID in E. rewrite eqs_refl in E. apply (FormatInt_noslash sid). rewrite E. unfold ManifestPathKey, s_slash. set_solver.
Qed.
End Sources.

(** ** Witnesses *)

Module CollectWitness.
Import Toy.

(** One manifest with one whole file and one chunked file, written as a brace. *)
Definition h1 : bytes := repeat x61 64.
Definition h2 : bytes := repeat x62 64.
Definition man1 : Manifest := foldl AddFile (NewManifest (go "2026-01-02T03:04:05Z") 42 (go "dev1/42") (go "home") (go "/home") (go "dev1")) [
  MkFileEntry (go "a.txt") h1 5 (go "2023-11-14T22:13:20Z") 420 FileStatusNew [];
  MkFileEntry (go "d/b.bin") h1 7 (go "2023-11-14T22:13:20Z") 420 FileStatusNew [MkChunkRef h2 7] ].

#[local] Instance cw_json : Json := {
  json_marshal m := go "{";
  json_unmarshal d := if eqs d (go "{") then Some man1 else None;
  json_unmarshal_v1 d := None
}.
#[local] Instance cw_lite : LiteJson := fun d =>
  if eqs d (go "{") then Some (MkLite ((fun dir => Some (lite <$> d_Files dir)) <$> m_Dirs man1) []) else None.
#[local] Instance cw_lite_spec : LiteJsonSpec cw_json cw_lite.
Proof.
  split; [|done]. intros d m. unfold json_unmarshal, json_lite, cw_json, cw_lite. destruct (eqs d (go "{")); [|done].
  intros Hm. apply (inj Some) in Hm. subst m. eexists. by split.
Qed.

Definition text : bytes := envelope (Zstd.Compress localManifestCompressor (go "{")).
Definition repo : world := World {[
  go "/r/manifests/dev1/42/100_dev1.json.zst" := File text 9;
  go "/r/manifests/dev1/42/200_dev1.json.zst" := File (take 40 text) 8;
  go "/r/manifests/7/100_.json.zst" := File text 7 ]} [] [] 5 0.

Lemma calm_repo : calm repo.
Proof. done. Qed.


Lemma list_manifests_exact_witness : exists ms errs, (ListManifests None (go "/r") (go "dev1/42") repo).1 = Ok (ms, errs) /\ ms = [man1] /\ errs.*1 = [go "200_dev1.json.zst"].
Proof.
  destruct (list_manifests_exact None (go "/r") (go "dev1/42") repo calm_repo) as (_ & ms & E & Hp & _). exists ms. eexists. split; [exact E |].
  assert (El : omap (loaded (load_named None (go "/r") (go "dev1/42") (w_files repo))) (manifest_names (go "/r") (go "dev1/42") (w_files repo)) = [man1]) by (vm_compute; reflexivity).
  rewrite El in Hp. split; [by apply Permutation_singleton_r in Hp | vm_compute; reflexivity].
Defined.

Lemma repo_tidy : tidy (manifests_dir (go "/r")) (w_files repo).
Proof.
  split; [vm_compute; reflexivity |]. change (manifests_dir (go "/r")) with (go "/r/manifests"). intros p f Hp _. unfold repo, w_files in Hp.
  rewrite !lookup_insert_Some, lookup_singleton_Some in Hp. destruct Hp as [[<- _] | [_ [[<- _] | [_ [<- _]]]]].
  - exists [go "dev1"; go "42"; go "100_dev1.json.zst"]. split; [done |]. split; [by_decide | vm_compute; reflexivity].
  - exists [go "dev1"; go "42"; go "200_dev1.json.zst"]. split; [done |]. split; [by_decide | vm_compute; reflexivity].
  - exists [go "7"; go "100_.json.zst"]. split; [done |]. split; [by_decide | vm_compute; reflexivity].
Qed.

Lemma sources_listed_witness : exists ks, (ListSourceCloudIDs (go "/r/manifests") repo).1 = Ok ks /\ go "dev1/42" ∈ ks.
Proof.
  destruct (sources_listed (go "/r") repo calm_repo repo_tidy) as (_ & ks & E & _ & Hk). exists ks. split; [exact E |]. apply Hk.
  exists (go "dev1"), (go "42"), [go "100_dev1.json.zst"]. split; [reflexivity |]. split; [done |]. split; [done |]. split; [by_decide |].
  by_decide.
Defined.

Lemma legacy_source_unlisted_witness : (ListSourceCloudIDs (go "/r/manifests") repo).1 = Ok [go "dev1/42"] /\ (ResolveCloudID [] 7 ∉ [go "dev1/42"]).
Proof.
  assert (E : (ListSourceCloudIDs (go "/r/manifests") repo).1 = Ok [go "dev1/42"]) by (vm_compute; reflexivity). split; [exact E |].
  exact (legacy_source_unlisted (go "/r") 7 repo calm_repo repo_tidy _ E).
Defined.
End CollectWitness.
