(* ===== verification/Registry.v ===== *)
(** Registry: the source registry ([SourceRegistry] to [LoadSourceRegistry] and
    [DeleteSourceRegistry] of [simple/manifest.go], [updateSourceRegistry] of
    [simple/pipeline.go]).

    A registry is marshalled, compressed and wrapped in the same GBR1 envelope
    as a manifest.  [encoding/json] is the parameter [RegJson]; [reg_text] are
    the registries all of whose strings are valid UTF-8. *)

From S2P Require Import Prelude GoStr Externs Compress Crypto FS Manifest CloudID ManifestIO.
From stdpp Require Import base list gmap strings.
From Stdlib.Strings Require Import Byte.
Local Open Scope Z_scope.

Record RegistryPin := MkPin { pin_RepoPath : bytes; pin_SnapshotTime : Z; pin_Note : bytes; pin_CreatedAt : Z }.

Record RegistryNote := MkNote {
  note_RepoPath : bytes; note_SnapshotTime : Z; note_Content : bytes; note_PushedFiles : bytes; note_Source : bytes;
  note_CreatedAt : Z; note_AuthorDeviceID : bytes; note_AuthorName : bytes
}.

Record RegistrySettings := MkSettings {
  set_Schedule : bytes; set_ScheduleConfig : bytes; set_Retention : bytes; set_RetentionCustom : bytes;
  set_Excludes : list bytes; set_EnableAI : bool; set_WatchMode : bytes
}.

Record RegistrySnapshot := MkSnapshot { snap_Timestamp : bytes; snap_FileCount : Z; snap_TotalSize : Z }.

Record SourceRegistry := MkRegistry {
  r_SchemaVersion : Z;
  r_CloudID : bytes; r_Name : bytes; r_Path : bytes; r_DeviceID : bytes; r_Hostname : bytes; r_OS : bytes;
  r_Pins : list RegistryPin; r_Notes : list RegistryNote; r_Snapshots : list RegistrySnapshot;
  r_Settings : option RegistrySettings;
  r_LastSnapshot : bytes; r_SnapshotCount : Z; r_CreatedAt : bytes
}.

Class RegJson := {
  reg_marshal : SourceRegistry -> bytes;
  reg_unmarshal : bytes -> option SourceRegistry
}.

Class RegJsonSpec (J : RegJson) := {
  reg_text : SourceRegistry -> Prop;
  reg_roundtrip r : reg_text r -> reg_unmarshal (reg_marshal r) = Some r;
  reg_nonempty r : reg_marshal r <> []
}.

Definition SourceRegistrySchemaVersion : Z := 1.

Definition set_schema (v : Z) (r : SourceRegistry) : SourceRegistry :=
  MkRegistry v (r_CloudID r) (r_Name r) (r_Path r) (r_DeviceID r) (r_Hostname r) (r_OS r) (r_Pins r) (r_Notes r)
    (r_Snapshots r) (r_Settings r) (r_LastSnapshot r) (r_SnapshotCount r) (r_CreatedAt r).

(** A version of zero is the current one. *)
Definition stamp (r : SourceRegistry) : SourceRegistry :=
  if r_SchemaVersion r =? 0 then set_schema SourceRegistrySchemaVersion r else r.

Inductive regerr :=
| GCloudID (e : ciderr) | GMkdir (e : oserr) | GWrite (e : oserr) | GRead (e : oserr) | GStat (e : oserr)
| GChecksum | GDecompress (e : zerr) | GUnmarshal | GVersion (v : Z) | GIdentity (stored : bytes).

Definition sourceRegistriesDir (metaDir : bytes) : bytes := FpJoin [metaDir; go "manifests"; go "_sources"].

Definition registry_path (metaDir cloudID : bytes) : bytes := FpJoin [sourceRegistriesDir metaDir; cloudID ++ jsonZst].

Section Ops.
Context `{ZS : Zstd, SH : Sha256} `{J : RegJson} `{U : Uuid}.

Definition EncodeSourceRegistry (reg : SourceRegistry) : bytes :=
  envelope (Zstd.Compress localManifestCompressor (reg_marshal (stamp reg))).

Definition DecodeSourceRegistry (data : bytes) : result regerr SourceRegistry :=
  data ← (if (registryEnvelopeHeaderSize <? blen data) && bool_decide (upto 4 data = RegistryEnvelopeMagic) then
            let want := upto 32 (from 4 data) in
            let payload := from registryEnvelopeHeaderSize data in
            if eqs want (sha256 payload) then Ok payload else Err GChecksum
          else Ok data);
  data ← (if Zstd.IsCompressed data then
            match Zstd.Decompress localManifestCompressor data with Ok d => Ok d | Err e => Err (GDecompress e) end
          else Ok data);
  match reg_unmarshal data with
  | None => Err GUnmarshal
  | Some reg =>
      if r_SchemaVersion reg =? 0 then Ok (set_schema SourceRegistrySchemaVersion reg)
      else if SourceRegistrySchemaVersion <? r_SchemaVersion reg then Err (GVersion (r_SchemaVersion reg))
      else Ok reg
  end.

Definition SaveSourceRegistry (metaDir : bytes) (reg : SourceRegistry) : eff world regerr unit :=
  match validateCloudID (r_CloudID reg) with
  | Some e => throw (GCloudID e)
  | None =>
      _ ← wrap_err GMkdir (MkdirAll (sourceRegistriesDir metaDir));
      let path := registry_path metaDir (r_CloudID reg) in
      _ ← wrap_err GMkdir (MkdirAll (GoStr.Dir path));
      wrap_err GWrite (WriteFileAtomic path (EncodeSourceRegistry reg))
  end.

Definition LoadSourceRegistry (metaDir cloudID : bytes) : eff world regerr SourceRegistry :=
  match validateCloudID cloudID with
  | Some e => throw (GCloudID e)
  | None =>
      data ← wrap_err GRead (ReadFile (registry_path metaDir cloudID));
      match DecodeSourceRegistry data with
      | Err e => throw e
      | Ok reg => if eqs (r_CloudID reg) cloudID then mret reg else throw (GIdentity (r_CloudID reg))
      end
  end.

Definition DeleteSourceRegistry (metaDir cloudID : bytes) : eff world regerr unit :=
  match validateCloudID cloudID with
  | Some e => throw (GCloudID e)
  | None =>
      r ← attempt (Stat (registry_path metaDir cloudID));
      match r with
      | Err ENOENT => mret tt
      | _ => wrap_err GWrite (Remove (registry_path metaDir cloudID))
      end
  end.

(** A registry made from the manifest alone. *)
Definition fresh_registry (cloudID : bytes) (m : Manifest) : SourceRegistry :=
  MkRegistry 0 cloudID (m_SourceName m) (m_SourcePath m) (m_DeviceID m) [] [] [] [] [] None [] 0 (m_Timestamp m).

(** The registry after one more snapshot. *)
Definition refresh (m : Manifest) (reg : SourceRegistry) : SourceRegistry :=
  MkRegistry (r_SchemaVersion reg) (r_CloudID reg) (m_SourceName m) (m_SourcePath m) (m_DeviceID m) (r_Hostname reg) (r_OS reg)
    (r_Pins reg) (r_Notes reg) (r_Snapshots reg) (r_Settings reg) (m_Timestamp m) (r_SnapshotCount reg + 1) (r_CreatedAt reg).

(** [updateSourceRegistry]: a failing save is only logged. *)
Definition updateSourceRegistry {E} (metaDir cloudID : bytes) (m : Manifest) : eff world E unit :=
  l ← attempt (LoadSourceRegistry metaDir cloudID);
  let reg := match l with Ok reg => reg | Err _ => fresh_registry cloudID m end in
  _ ← attempt (SaveSourceRegistry metaDir (refresh m reg));
  mret tt.
End Ops.

(** * Facts *)

Section Facts.
Context `{ZS : Zstd, SH : Sha256} `{ZSS : !ZstdSpec ZS, SHS : !Sha256Spec SH} `{J : RegJson} `{JS : !RegJsonSpec J} `{U : Uuid}.

(** A registry this build can write and read. *)
Definition writable (r : SourceRegistry) : Prop :=
  reg_text (stamp r) /\ r_SchemaVersion r <= 1 /\ blen (reg_marshal (stamp r)) <= MaxManifestDecompressedSize.

Lemma stamp_cloud r : r_CloudID (stamp r) = r_CloudID r.
Proof. unfold stamp. by destruct (_ =? _). Qed.

(** What the envelope and the compression give back. *)
Lemma Decode_envelope payload : payload <> [] -> DecodeSourceRegistry (envelope payload) =
  (data ← (if Zstd.IsCompressed payload then
            match Zstd.Decompress localManifestCompressor payload with Ok d => Ok d | Err e => Err (GDecompress e) end
          else Ok payload);
   match reg_unmarshal data with
   | None => Err GUnmarshal
   | Some reg =>
      if r_SchemaVersion reg =? 0 then Ok (set_schema SourceRegistrySchemaVersion reg)
      else if SourceRegistrySchemaVersion <? r_SchemaVersion reg then Err (GVersion (r_SchemaVersion reg))
      else Ok reg
   end).
Proof.
  intros Hp. destruct (envelope_strip payload) as [_ Hs]. unfold stripGBREnvelope in Hs. unfold DecodeSourceRegistry.
  pose proof (sha256_len payload) as Hl. assert (Hne : 0 < blen payload) by (destruct payload; [done | unfold blen; cbn; lia]).
  assert (Hh : (registryEnvelopeHeaderSize <? blen (envelope payload)) && bool_decide (upto 4 (envelope payload) = RegistryEnvelopeMagic) = true).
  { unfold envelope. rewrite !blen_app, Hl, upto_app by done. change (blen RegistryEnvelopeMagic) with 4. rewrite bool_decide_true by done.
    unfold registryEnvelopeHeaderSize. by destruct (Z.ltb_spec (4 + 32) (4 + (32 + blen payload))); [|lia]. }
  rewrite Hh. cbv zeta. destruct (eqs _ _); [|done]. injection Hs as ->. done.
Qed.

Lemma Decode_Encode r : writable r -> DecodeSourceRegistry (EncodeSourceRegistry r) = Ok (stamp r).
Proof.
  intros (Ht & Hv & Hl). unfold EncodeSourceRegistry. pose proof (reg_nonempty (stamp r)) as Hne.
  pose proof (Zstd.Compress_marked localManifestCompressor _ Hne) as Hm. rewrite Decode_envelope by (intros E; by rewrite E in Hm).
  rewrite Hm, Zstd.Decompress_Compress by done. cbn [mbind result_bind]. rewrite reg_roundtrip by done. unfold stamp, SourceRegistrySchemaVersion in *.
  destruct (Z.eqb_spec (r_SchemaVersion r) 0); [done |]. destruct (Z.eqb_spec (r_SchemaVersion r) 0); [done |].
  by destruct (Z.ltb_spec 1 (r_SchemaVersion r)); [lia |].
Qed.

Lemma LoadSourceRegistry_calm metaDir cloudID w d t : calm w -> validateCloudID cloudID = None ->
  w_files w !! registry_path metaDir cloudID = Some (File d t) ->
  wp (LoadSourceRegistry metaDir cloudID) (fun r w' => same w w' /\ r =
    match DecodeSourceRegistry d with
    | Err e => Err e
    | Ok reg => if eqs (r_CloudID reg) cloudID then Ok reg else Err (GIdentity (r_CloudID reg))
    end) w.
Proof.
  intros Hc Hv Hf. unfold LoadSourceRegistry. rewrite Hv. do 2 wp_step. apply wp_ReadFile.
  - intros e w' Hs He Hce. specialize (He (Hce Hc)). congruence.
  - intros f w' Hs Hf'. assert (f = File d t) as -> by congruence. cbn [f_data]. cbn beta iota.
    destruct (DecodeSourceRegistry d) as [reg|e]; [destruct (eqs _ _) |]; by wp_step.
Qed.

Definition save_outcome (metaDir : bytes) (reg : SourceRegistry) (w : world) (r : result regerr unit) (w' : world) : Prop :=
  let path := registry_path metaDir (r_CloudID reg) in
  (w_files w' !! path = w_files w !! path \/ f_data <$> w_files w' !! path = Some (EncodeSourceRegistry reg)) /\
  (calm w -> calm w' /\ r = Ok tt /\ f_data <$> w_files w' !! path = Some (EncodeSourceRegistry reg)).

Lemma wp_SaveSourceRegistry metaDir reg w : validateCloudID (r_CloudID reg) = None ->
  wp (SaveSourceRegistry metaDir reg) (save_outcome metaDir reg w) w.
Proof.
  intros Hv. unfold SaveSourceRegistry. rewrite Hv. do 2 wp_step. wp_nop. destruct r as [[]|e]; cbn beta iota.
  2: { split; [left; by rewrite (same_files _ _ H) |]. intros Hc. by apply H0 in Hc. }
  do 2 wp_step. wp_nop. destruct r as [[]|e]; cbn beta iota.
  2: { split; [left; by rewrite (same_files _ _ H1), (same_files _ _ H) |]. intros Hc. by apply (same_faults _ _ H), H2 in Hc. }
  wp_step. eapply wp_mono; [apply wp_WriteFileAtomic |]. intros r w3 [(Ho & (u & _ & Hok) & Hc) Hcc].
  assert (Hs : same w w'0) by (by etrans). split.
  - rewrite (same_files _ _ Hs) in Ho. destruct Ho as [-> | Ho]; [by left | by right].
  - intros Hcw. apply (same_faults _ _ Hs) in Hcw. specialize (Hc Hcw) as ->. split; [by apply Hcc |]. split; [done |]. by apply Hok.
Qed.

Lemma saved_loads metaDir reg w : calm w -> writable reg -> validateCloudID (r_CloudID reg) = None ->
  f_data <$> w_files w !! registry_path metaDir (r_CloudID reg) = Some (EncodeSourceRegistry reg) ->
  (LoadSourceRegistry metaDir (r_CloudID reg) w).1 = Ok (stamp reg).
Proof.
  intros Hc Hw Hv Hf. destruct (w_files w !! _) as [[d t]|] eqn:E; [|done]. change (Some d = Some (EncodeSourceRegistry reg)) in Hf. apply (inj Some) in Hf. subst d.
  destruct (LoadSourceRegistry_calm metaDir (r_CloudID reg) w _ t Hc Hv E) as [_ ->]. rewrite Decode_Encode by done.
  by rewrite stamp_cloud, eqs_refl.
Qed.

(** Saving a registry is all or nothing, and without faults what was saved
    loads back, stamped with the schema version. *)
Theorem registry_save_load metaDir reg w : writable reg -> validateCloudID (r_CloudID reg) = None ->
  wp (SaveSourceRegistry metaDir reg) (fun r w' =>
    (w_files w' !! registry_path metaDir (r_CloudID reg) = w_files w !! registry_path metaDir (r_CloudID reg) \/
     f_data <$> w_files w' !! registry_path metaDir (r_CloudID reg) = Some (EncodeSourceRegistry reg)) /\
    (calm w -> r = Ok tt /\ (LoadSourceRegistry metaDir (r_CloudID reg) w').1 = Ok (stamp reg))) w.
Proof.
  intros Hw Hv. eapply wp_mono; [by apply wp_SaveSourceRegistry |]. intros r w' [Ho Hc]. split; [done |].
  intros Hcw. destruct (Hc Hcw) as (Hc' & Hr & Hf). split; [done | by apply saved_loads].
Qed.

Lemma wp_LoadSourceRegistry metaDir cloudID w :
  wp (LoadSourceRegistry metaDir cloudID) (fun r w' => same w w' /\ forall reg, r = Ok reg -> r_CloudID reg = cloudID) w.
Proof.
  unfold LoadSourceRegistry. destruct (validateCloudID cloudID); [by wp_step |]. do 2 wp_step. apply wp_ReadFile; [by intros |].
  intros f w' Hs _. cbn beta iota. destruct (DecodeSourceRegistry (f_data f)) as [reg|]; [|by wp_step].
  destruct (eqs (r_CloudID reg) cloudID) eqn:E; wp_step; [|done]. split; [done |]. intros r ->%ok_inv. by apply eqs_true.
Qed.

(** The update never fails the run, and touches the registry of the source
    and its staging file only. *)
Lemma updateSourceRegistry_frame {E} metaDir cloudID m w : validateCloudID cloudID = None ->
  wp (updateSourceRegistry (E := E) metaDir cloudID m) (fun r w' => r = Ok tt /\ (calm w -> calm w') /\
    forall q, ~ registry_path metaDir cloudID `prefix_of` q -> w_files w' !! q = w_files w !! q) w.
Proof.
  intros Hv. unfold updateSourceRegistry. do 2 wp_step. eapply wp_mono; [apply wp_LoadSourceRegistry |]. intros l w1 [Hs Hl]. cbn beta iota zeta.
  set (reg := match l with Ok reg => reg | Err _ => _ end). assert (Hid : r_CloudID (refresh m reg) = cloudID) by (change (r_CloudID reg = cloudID); subst reg; destruct l as [reg|]; [by apply Hl | done]).
  do 2 wp_step. unfold SaveSourceRegistry. rewrite Hid, Hv. clearbody reg.
  assert (Hfr : forall w', same w w' -> (calm w -> calm w') /\ forall q, ~ registry_path metaDir cloudID `prefix_of` q -> w_files w' !! q = w_files w !! q).
  { intros w' Hs'. split; [by apply (same_faults _ _ Hs') | by rewrite (same_files _ _ Hs')]. }
  do 2 wp_step. wp_nop. destruct r as [[]|e]; cbn beta iota; [|wp_step; split; [done |]; apply Hfr; by etrans].
  do 2 wp_step. wp_nop. destruct r as [[]|e]; cbn beta iota; [|wp_step; split; [done |]; apply Hfr; etrans; [exact Hs |]; by etrans].
  wp_step. eapply wp_mono; [apply wp_WriteFileAtomic |]. intros r w2 [(_ & (u & Hq & _) & _) Hc]. wp_step. split; [done |].
  assert (S3 : same w w'0) by (etrans; [exact Hs |]; by etrans). destruct (Hfr _ S3) as [Hf1 Hf2]. split; [by intros ?%Hf1%Hc |].
  intros q Hn. rewrite <- Hf2 by done. apply Hq; intros ->; apply Hn; [done | by eexists].
Qed.

(** What a snapshot leaves in the registry of its source when nothing fails:
    the stored one refreshed if it loads, otherwise a fresh one. *)
Lemma wp_updateSourceRegistry {E} metaDir cloudID m d t w : calm w -> validateCloudID cloudID = None ->
  w_files w !! registry_path metaDir cloudID = Some (File d t) ->
  let reg := match DecodeSourceRegistry d with
             | Ok reg => if eqs (r_CloudID reg) cloudID then reg else fresh_registry cloudID m
             | Err _ => fresh_registry cloudID m end in
  writable (refresh m reg) ->
  wp (updateSourceRegistry (E := E) metaDir cloudID m) (fun r w' => r = Ok tt /\ (LoadSourceRegistry metaDir cloudID w').1 = Ok (stamp (refresh m reg))) w.
Proof.
  intros Hc Hv Hf reg Hw. assert (Hid : r_CloudID reg = cloudID).
  { subst reg. destruct (DecodeSourceRegistry d) as [reg|]; [|done]. destruct (eqs _ _) eqn:Ee; [by apply eqs_true | done]. }
  unfold updateSourceRegistry. do 2 wp_step. eapply wp_mono; [by apply (LoadSourceRegistry_calm metaDir cloudID w d t) |].
  intros l w1 [Hs ->]. cbn beta iota zeta.
  assert (El : match match DecodeSourceRegistry d with Err e => Err e | Ok reg => if eqs (r_CloudID reg) cloudID then Ok reg else Err (GIdentity (r_CloudID reg)) end
    with Ok reg => reg | Err _ => fresh_registry cloudID m end = reg).
  { subst reg. destruct (DecodeSourceRegistry d) as [reg|]; [|done]. by destruct (eqs _ _). }
  rewrite El. do 2 wp_step. assert (Hid' : r_CloudID (refresh m reg) = cloudID) by done.
  eapply wp_mono; [apply wp_SaveSourceRegistry; by rewrite Hid' |]. intros r w2 [_ Hcc]. wp_step. split; [done |].
  destruct (Hcc (same_faults _ _ Hs Hc)) as (Hc2 & _ & Hf2). rewrite <- Hid'. apply saved_loads; [done | done | by rewrite Hid' | done].
Qed.

(** A snapshot keeps what its source's registry says: when nothing fails,
    the stored registry comes back with one more snapshot counted and the pins,
    notes, settings and creation time it had. *)
Theorem registry_update_keeps {E} metaDir cloudID m reg t w : calm w -> validateCloudID cloudID = None ->
  writable reg -> r_CloudID reg = cloudID -> writable (refresh m (stamp reg)) ->
  w_files w !! registry_path metaDir cloudID = Some (File (EncodeSourceRegistry reg) t) ->
  wp (updateSourceRegistry (E := E) metaDir cloudID m) (fun _ w' => exists reg',
    (LoadSourceRegistry metaDir cloudID w').1 = Ok reg' /\ r_SnapshotCount reg' = r_SnapshotCount reg + 1 /\
    r_LastSnapshot reg' = m_Timestamp m /\ r_Pins reg' = r_Pins reg /\ r_Notes reg' = r_Notes reg /\
    r_Settings reg' = r_Settings reg /\ r_CreatedAt reg' = r_CreatedAt reg) w.
Proof.
  intros Hc Hv Hw Hid Hw' Hf. pose proof (wp_updateSourceRegistry (E := E) metaDir cloudID m _ t w Hc Hv Hf) as H. cbv zeta in H.
  rewrite (Decode_Encode reg Hw), stamp_cloud, Hid, eqs_refl in H. eapply wp_mono; [by apply H |].
  intros r w1 [_ Hl]. eexists. split; [exact Hl |]. unfold stamp. destruct (r_SchemaVersion reg =? 0) eqn:Ev; [done |].
  change (r_SchemaVersion (refresh m reg)) with (r_SchemaVersion reg). by rewrite Ev.
Qed.

(** A registry written by a newer version is destroyed: loading refuses
    it, and the snapshot then saves a fresh registry over it, without its pins,
    notes and settings. *)
Theorem newer_registry_overwritten {E} metaDir cloudID m reg t w : calm w -> validateCloudID cloudID = None ->
  reg_text reg -> blen (reg_marshal reg) <= MaxManifestDecompressedSize -> 1 < r_SchemaVersion reg ->
  writable (refresh m (fresh_registry cloudID m)) ->
  w_files w !! registry_path metaDir cloudID = Some (File (EncodeSourceRegistry reg) t) ->
  (LoadSourceRegistry metaDir cloudID w).1 = Err (GVersion (r_SchemaVersion reg)) /\
  wp (updateSourceRegistry (E := E) metaDir cloudID m) (fun _ w' => exists reg',
    (LoadSourceRegistry metaDir cloudID w').1 = Ok reg' /\ r_SnapshotCount reg' = 1 /\
    r_Pins reg' = [] /\ r_Notes reg' = [] /\ r_Settings reg' = None) w.
Proof.
  intros Hc Hv Ht Hl Hver Hw Hf. assert (Hd : DecodeSourceRegistry (EncodeSourceRegistry reg) = Err (GVersion (r_SchemaVersion reg))).
  { unfold EncodeSourceRegistry. assert (Es : stamp reg = reg) by (unfold stamp; by destruct (Z.eqb_spec (r_SchemaVersion reg) 0); [lia |]). rewrite Es.
    pose proof (reg_nonempty reg) as Hne. pose proof (Zstd.Compress_marked localManifestCompressor _ Hne) as Hm.
    rewrite Decode_envelope by (intros E'; by rewrite E' in Hm). rewrite Hm, Zstd.Decompress_Compress by done. cbn [mbind result_bind].
    rewrite reg_roundtrip by done. unfold SourceRegistrySchemaVersion. destruct (Z.eqb_spec (r_SchemaVersion reg) 0); [lia |].
    by destruct (Z.ltb_spec 1 (r_SchemaVersion reg)); [|lia]. }
  split; [destruct (LoadSourceRegistry_calm metaDir cloudID w _ t Hc Hv Hf) as [_ ->]; by rewrite Hd |].
  pose proof (wp_updateSourceRegistry (E := E) metaDir cloudID m _ t w Hc Hv Hf) as H. cbv zeta in H. rewrite Hd in H.
  eapply wp_mono; [by apply H |]. intros r w1 [_ Hl']. eexists. split; [exact Hl' |]. done.
Qed.
End Facts.

(** ** Witnesses *)

Module RegistryWitness.
Import Toy.

(** Registries that differ in their version and snapshot count. *)
Definition reg_of (v n : Z) : SourceRegistry := MkRegistry v (go "dev1/42") [] [] [] [] [] [] [] [] None [] n [].

#[local] Instance toy_reg : RegJson := {
  reg_marshal r := FormatInt (r_SchemaVersion r) ++ go "," ++ FormatInt (r_SnapshotCount r);
  reg_unmarshal d := match IndexByte d x2c with
    | Some i => v ← ParseInt (take i d); n ← ParseInt (drop (S i) d); Some (reg_of v n)
    | None => None end
}.
#[local] Instance toy_reg_spec : RegJsonSpec toy_reg.
Proof.
  refine {| reg_text r := exists v n, (v, n) ∈ [(1, 3); (1, 4); (1, 1); (2, 3)] /\ r = reg_of v n |}.
  - intros r (v & n & Hin & ->). repeat (apply elem_of_cons in Hin as [[= -> ->] | Hin]; [by vm_compute |]). by apply elem_of_nil in Hin.
  - intros r E. apply (f_equal length) in E. unfold reg_marshal, toy_reg in E. rewrite !length_app in E. cbn in E. lia.
Defined.
#[local] Instance reg_uuid : Uuid := toy_uuid.

Definition m1 : Manifest := NewManifest [] 1 (go "dev1/42") [] [] [].
Definition empty : world := World ∅ [] [] 5 0.
Definition holding (r : SourceRegistry) : world :=
  World {[ registry_path (go "/r") (go "dev1/42") := File (EncodeSourceRegistry r) 7 ]} [] [] 5 0.

Lemma writable_of v n : (v, n) ∈ [(1, 3); (1, 4); (1, 1)] -> writable (reg_of v n).
Proof.
  intros Hin. repeat (apply elem_of_cons in Hin as [[= -> ->] | Hin]; [split_and!; [eexists _, _; split; [|by vm_compute]; by_decide | by vm_compute | by vm_compute] |]).
  by apply elem_of_nil in Hin.
Qed.

Lemma registry_save_load_witness :
  exists w', SaveSourceRegistry (go "/r") (reg_of 1 3) empty = (Ok tt, w') /\ (LoadSourceRegistry (go "/r") (go "dev1/42") w').1 = Ok (reg_of 1 3).
Proof.
  pose proof (registry_save_load (go "/r") (reg_of 1 3) empty (writable_of 1 3 ltac:(by_decide)) ltac:(by vm_compute)) as H. unfold wp in H.
  destruct (SaveSourceRegistry (go "/r") (reg_of 1 3) empty) as [r w']. destruct H as [_ H]. destruct (H (conj eq_refl eq_refl)) as [Hr Hl]. cbn [fst snd] in Hr, Hl. subst r.
  exists w'. split; [reflexivity | exact Hl].
Defined.

Lemma registry_update_keeps_witness :
  exists reg', (LoadSourceRegistry (go "/r") (go "dev1/42") (updateSourceRegistry (E := unit) (go "/r") (go "dev1/42") m1 (holding (reg_of 1 3))).2).1 = Ok reg' /\ r_SnapshotCount reg' = 4.
Proof.
  assert (Hw : writable (refresh m1 (stamp (reg_of 1 3)))) by (by apply (writable_of 1 4); by_decide).
  destruct (registry_update_keeps (E := unit) (go "/r") (go "dev1/42") m1 (reg_of 1 3) 7 (holding (reg_of 1 3)) (conj eq_refl eq_refl) ltac:(by vm_compute)
    (writable_of 1 3 ltac:(by_decide)) eq_refl Hw eq_refl) as (reg' & Hl & Hn & _). exists reg'. split; [exact Hl | exact Hn].
Defined.

Lemma newer_registry_overwritten_witness :
  (LoadSourceRegistry (go "/r") (go "dev1/42") (holding (reg_of 2 3))).1 = Err (GVersion 2) /\
  exists reg', (LoadSourceRegistry (go "/r") (go "dev1/42") (updateSourceRegistry (E := unit) (go "/r") (go "dev1/42") m1 (holding (reg_of 2 3))).2).1 = Ok reg' /\ r_SnapshotCount reg' = 1.
Proof.
  assert (Hw : writable (refresh m1 (fresh_registry (go "dev1/42") m1))).
  { split_and!; [|by vm_compute | by vm_compute]. exists 1, 1. split; [by_decide | by vm_compute]. }
  assert (Ht : reg_text (reg_of 2 3)) by (exists 2, 3; split; [by_decide | done]).
  destruct (newer_registry_overwritten (E := unit) (go "/r") (go "dev1/42") m1 (reg_of 2 3) 7 (holding (reg_of 2 3)) (conj eq_refl eq_refl) ltac:(by vm_compute)
    Ht ltac:(by vm_compute) ltac:(by vm_compute) Hw eq_refl) as (H1 & reg' & Hl & Hn & _). split; [exact H1 |]. exists reg'. split; [exact Hl | exact Hn].
Defined.
End RegistryWitness.
