(* ===== verification/Trash.v ===== *)
(** Trash: deleting and trashing manifests and emptying the trash
    ([deleteOrTrashManifest], [deleteOrTrashAllManifests], [CleanTrashManifests],
    [CleanTrashManifestsForSource], [renameWithFallback] and the functions around
    them of [simple/manifest.go]).

    The mount a path is on is the parameter [Mounts]: a rename between mounts is
    refused with EXDEV, which the code answers by copying.  Directories are
    implied by the files below them, so removing an empty one changes nothing.
    The clock is an argument, in nanoseconds. *)

From S2P Require Import Prelude GoStr Ignore Externs Compress Crypto FS Manifest CloudID ManifestIO Collect Registry.
From stdpp Require Import base list gmap sorting strings.
From Stdlib.Strings Require Import Byte.
Local Open Scope Z_scope.

Class Mounts := device : bytes -> Z.

Inductive terr :=
| TRename (e : oserr) | TCross | TOpen (e : oserr) | TMkdir (e : oserr) | TCreate (e : oserr) | TCopy
| TRemove (e : oserr) | TReadDir (e : oserr) | TNotFound.

Definition trash_base (metaDir : bytes) : bytes := FpJoin [metaDir; go "trash"].
Definition ManifestTrashDir (metaDir cloudID : bytes) : bytes := FpJoin [metaDir; go "trash"; cloudID].

Section Ops.
Context `{AE : AEAD, ZS : Zstd, SH : Sha256, HK : Hkdf} `{J : Json} `{MO : Mounts}.
Context (hook : option (bytes -> option bytes)).

(** ** Moving *)

(** [os.Rename]; [TCross] is EXDEV, which [isCrossDeviceError] recognises. *)
Definition OsRename (src dst : bytes) : eff world terr unit :=
  if device src =? device dst then wrap_err TRename (Rename src dst)
  else _ ← wrap_err TRename (syscall (fun w => (Ok tt, w))); throw TCross.

Definition isCrossDeviceError (e : terr) : bool := match e with TCross => true | _ => false end.

(** The copy: what can be read is written; a failure removes the target, a
    success the source, and a source that cannot be removed is left. *)
Definition copy_then_remove (src dst : bytes) (rd : reader) : eff world terr unit :=
  _ ← wrap_err TMkdir (MkdirAll (GoStr.Dir dst));
  _ ← wrap_err TCreate (Create dst);
  c ← attempt (Write dst (rd_data rd));
  r ← (if is_ok c && negb (rd_fails rd) then _ ← attempt (Remove src); mret true
       else _ ← attempt (Remove dst); mret false);
  _ ← attempt (Close dst);
  if (r : bool) then mret tt else throw TCopy.

Definition renameWithFallback (src dst : bytes) : eff world terr unit :=
  r ← attempt (OsRename src dst);
  match r with
  | Ok _ => mret tt
  | Err e =>
      if negb (isCrossDeviceError e) then throw e
      else
        rd ← wrap_err TOpen (Open src);
        c ← attempt (copy_then_remove src dst rd);
        _ ← attempt (Close src);
        match c with Ok _ => mret tt | Err e => throw e end
  end.

Definition moveOrDeleteOneManifest (srcPath dstDir : bytes) (trash : bool) : eff world terr unit :=
  if trash then
    let dstPath := FpJoin [dstDir; Base srcPath] in
    _ ← renameWithFallback srcPath dstPath;
    s ← attempt (Stat (manifestChecksumPath srcPath));
    match s with
    | Ok _ => _ ← attempt (renameWithFallback (manifestChecksumPath srcPath) (manifestChecksumPath dstPath)); mret tt
    | Err _ => mret tt
    end
  else
    _ ← attempt (Remove (manifestChecksumPath srcPath));
    wrap_err TRemove (Remove srcPath).

(** ** One manifest *)

(** The callback: stop at the manifest with this time stamp and device. *)
Definition matching (timestamp deviceID : bytes) (st : option bytes) (m : Manifest) (name : bytes) : option bytes * bool :=
  if eqs (m_Timestamp m) timestamp && eqs (m_DeviceID m) deviceID then (Some name, true) else (st, false).

Definition deleteOrTrashManifest (metaDir cloudID timestamp deviceID : bytes) (trash : bool) : eff world terr unit :=
  let srcDir := ManifestDir metaDir cloudID in
  entries ← wrap_err TReadDir (readManifestFiles srcDir);
  '(matched, _) ← wrap_err (fun _ => TNotFound) (forEachManifest hook srcDir entries (matching timestamp deviceID) None);
  match matched with
  | Some name =>
      let srcPath := FpJoin [srcDir; name] in
      if trash then
        let dstDir := ManifestTrashDir metaDir cloudID in
        _ ← wrap_err TMkdir (MkdirAll dstDir);
        moveOrDeleteOneManifest srcPath dstDir true
      else moveOrDeleteOneManifest srcPath [] false
  | None => throw TNotFound
  end.

Definition DeleteManifest (metaDir cloudID timestamp deviceID : bytes) := deleteOrTrashManifest metaDir cloudID timestamp deviceID false.
Definition TrashManifest (metaDir cloudID timestamp deviceID : bytes) := deleteOrTrashManifest metaDir cloudID timestamp deviceID true.

(** ** All manifests of a source *)

Definition remove_if_empty {E} (dir : bytes) : eff world E bool :=
  r ← attempt (ReadDir dir);
  match r with
  | Ok (_ :: _) => mret false
  | _ => _ ← attempt (Remove dir); mret true
  end.

Fixpoint move_all (srcDir dstDir : bytes) (trash : bool) (names : list bytes) (count : Z) : eff world terr Z :=
  match names with
  | [] => mret count
  | n :: rest =>
      r ← attempt (moveOrDeleteOneManifest (FpJoin [srcDir; n]) dstDir trash);
      move_all srcDir dstDir trash rest (if is_ok r then count + 1 else count)
  end.

Definition deleteOrTrashAllManifests (metaDir cloudID : bytes) (trash : bool) : eff world terr Z :=
  let srcDir := ManifestDir metaDir cloudID in
  r ← attempt (readManifestFiles srcDir);
  match r with
  | Err ENOENT => mret 0
  | Err e => throw (TReadDir e)
  | Ok entries =>
      let dstDir := if trash then ManifestTrashDir metaDir cloudID else [] in
      _ ← (if trash then wrap_err TMkdir (MkdirAll dstDir) else mret tt);
      count ← move_all srcDir dstDir trash entries 0;
      _ ← remove_if_empty srcDir;
      mret count
  end.

Definition TrashAllSourceManifests (metaDir cloudID : bytes) := deleteOrTrashAllManifests metaDir cloudID true.
Definition DeleteAllSourceManifests (metaDir cloudID : bytes) := deleteOrTrashAllManifests metaDir cloudID false.

Definition ListTrashManifests (metaDir cloudID : bytes) := list_dir hook (ManifestTrashDir metaDir cloudID).
End Ops.

Definition ListTrashCloudIDs (metaDir : bytes) : eff world merr (list bytes) := list_keys (trash_base metaDir).

(** ** Emptying the trash *)

(** [now.Sub(t) > maxAge]: the difference saturates at 64 bits. *)
Definition older_than (now maxAge t : Z) : bool := maxAge <? Z.max MinInt64 (Z.min MaxInt64 (now - t)).

(** [os.Lstat]: a file, or [None] for a directory. *)
Definition Lstat (p : bytes) : eff world oserr (option file) :=
  syscall (fun w =>
    match w_files w !! p with
    | Some f => (Ok (Some f), w)
    | None => match children p (w_files w) with [] => (Err ENOENT, w) | _ => (Ok None, w) end
    end).

(** Remove the file at [p] if it is old: one more, or none. *)
Definition remove_old {E} (now maxAge : Z) (p : bytes) (f : file) : eff world E Z :=
  if older_than now maxAge (f_mtime f) then r ← attempt (Remove p); mret (if is_ok r then 1 else 0) else mret 0.

Fixpoint sum_each {E A} (f : A -> eff world E Z) (l : list A) : eff world E Z :=
  match l with
  | [] => mret 0
  | a :: l' => c ← f a; c' ← sum_each f l'; mret (c + c')
  end.

(** [filepath.Walk] with a callback that passes over errors and directories:
    the number of files removed.  The fuel bounds the depth of the tree. *)
Fixpoint walk_trash {E} (fuel : nat) (now maxAge : Z) (path : bytes) : eff world E Z :=
  match fuel with
  | O => mret 0
  | S fuel' =>
      i ← attempt (Lstat path);
      match i with
      | Err _ => mret 0
      | Ok (Some f) => remove_old now maxAge path f
      | Ok None =>
          names ← attempt (ReadDir path);
          match names with
          | Err _ => mret 0
          | Ok entries => sum_each (fun e => walk_trash fuel' now maxAge (FpJoin [path; e.1])) entries
          end
      end
  end.

(** More than the elements any path has. *)
Definition depth_bound (files : gmap bytes file) : nat := S (max_list (length <$> (map_to_list files).*1)).

Definition CleanTrashManifests {E} (metaDir : bytes) (now maxAge : Z) : eff world E Z :=
  fuel ← gets (fun w => depth_bound (w_files w));
  walk_trash fuel now maxAge (trash_base metaDir).

Definition clean_entry {E} (dir : bytes) (now maxAge : Z) (n : bytes) : eff world E Z :=
  i ← attempt (Stat (FpJoin [dir; n]));
  match i with Ok f => remove_old now maxAge (FpJoin [dir; n]) f | Err _ => mret 0 end.

Definition trash_registry_path (metaDir cloudID : bytes) : bytes :=
  FpJoin [FpJoin [metaDir; go "trash"; go "_sources"]; cloudID ++ jsonZst].

Definition cleanTrashSourceRegistry {E} (metaDir cloudID : bytes) : eff world E unit :=
  _ ← attempt (Remove (trash_registry_path metaDir cloudID));
  _ ← remove_if_empty (FpJoin [metaDir; go "trash"; go "_sources"]);
  mret tt.

Definition removeEmptyTrashFingerprintDir {E} (metaDir sourceDir : bytes) : eff world E unit :=
  let parent := GoStr.Dir sourceDir in
  if eqs parent (trash_base metaDir) then mret tt
  else
    r ← attempt (ReadDir parent);
    match r with
    | Ok [] => _ ← attempt (Remove parent); mret tt
    | _ => mret tt
    end.

Definition CleanTrashManifestsForSource (metaDir cloudID : bytes) (now maxAge : Z) : eff world terr Z :=
  let dir := ManifestTrashDir metaDir cloudID in
  r ← attempt (readManifestDirEntries dir);
  match r with
  | Err ENOENT => mret 0
  | Err e => throw (TReadDir e)
  | Ok entries =>
      cleaned ← sum_each (clean_entry dir now maxAge) entries;
      e ← remove_if_empty dir;
      _ ← (if (e : bool) then _ ← cleanTrashSourceRegistry metaDir cloudID; removeEmptyTrashFingerprintDir metaDir dir else mret tt);
      mret cleaned
  end.

Section Reg.
Context `{ZS : Zstd, SH : Sha256} `{RJ : RegJson}.

(** [LoadTrashSourceRegistry]: only the envelope has its version checked. *)
Definition LoadTrashSourceRegistry (metaDir cloudID : bytes) : eff world regerr SourceRegistry :=
  match validateCloudID cloudID with
  | Some e => throw (GCloudID e)
  | None =>
      data ← wrap_err GRead (ReadFile (trash_registry_path metaDir cloudID));
      if isGBREnvelope data then match DecodeSourceRegistry data with Ok r => mret r | Err e => throw e end
      else
        let plain := if Zstd.IsCompressed data then
                       match Zstd.Decompress localManifestCompressor data with Ok d => Ok d | Err e => Err (GDecompress e) end
                     else Ok data in
        match plain with
        | Err e => throw e
        | Ok d => match reg_unmarshal d with Some r => mret r | None => throw GUnmarshal end
        end
  end.
End Reg.

(** * Facts *)

(** ** Paths *)

(** What the join of a directory with one more name starts with. *)
Definition root_dir (base : bytes) : bytes := root_pre base ++ match root_segs base with [] => [] | l => GoStr.Join s_slash l ++ s_slash end.

Lemma FpJoin_root base s : normal s -> FpJoin [base; s] = root_dir base ++ s.
Proof.
  intros Hs. rewrite FpJoin_normal by (try done; by apply Forall_singleton). unfold root_dir. destruct (root_segs base) as [|x l]; [by rewrite app_nil_r |].
  unfold s_slash. rewrite Join_snoc by done. by rewrite <- !app_assoc.
Qed.

Lemma FpJoin_under base s l : normal s -> l <> [] -> Forall normal l -> FpJoin (base :: s :: l) = under (FpJoin [base; s]) l.
Proof.
  intros Hs Hl Hn. unfold under. destruct l as [|x l _] using rev_ind; [done |]. clear Hl. revert x Hn. induction l as [|y l IH] using rev_ind; intros x Hn.
  - apply Forall_app in Hn as [_ [Hx _]%Forall_cons]. by apply (FpJoin_snoc base [s] x); [| apply Forall_singleton |].
  - apply Forall_app in Hn as [Hl [Hx _]%Forall_cons]. rewrite app_comm_cons, FpJoin_snoc; [| done | by constructor | done]. rewrite IH by done.
    unfold s_slash. rewrite (Join_snoc slash (l ++ [y]) x) by (by destruct l). by rewrite <- app_assoc.
Qed.

Section Paths.
Context (metaDir cloudID : bytes) (Hid : validateCloudID cloudID = None).

Definition src_dir : bytes := ManifestDir metaDir cloudID.
Definition dst_dir : bytes := ManifestTrashDir metaDir cloudID.
(** The file [x] of the source and of its trash. *)
Definition at_src (x : bytes) : bytes := src_dir ++ slash :: x.
Definition at_dst (x : bytes) : bytes := dst_dir ++ slash :: x.

Lemma dir_segs top : normal top -> FpJoin [metaDir; top; cloudID] = FpJoin (metaDir :: top :: Split slash cloudID).
Proof.
  intros Ht. rewrite <- (Join_Split slash cloudID) at 1. change [slash] with s_slash. apply FpJoin_join; [by destruct Ht | apply Split_nonempty | by apply valid_segments].
Qed.

Lemma dir_top top : normal top -> exists r, FpJoin [metaDir; top; cloudID] = root_dir metaDir ++ top ++ slash :: r.
Proof.
  intros Ht. rewrite dir_segs by done. rewrite FpJoin_under; [| done | apply Split_nonempty | by apply valid_segments].
  unfold under. rewrite FpJoin_root by done. eexists. by rewrite <- app_assoc.
Qed.

Lemma at_src_dst x y : at_src x <> at_dst y.
Proof.
  unfold at_src, at_dst, src_dir, dst_dir, ManifestDir, ManifestTrashDir. destruct (dir_top (go "manifests")) as [r ->]; [by_decide |].
  destruct (dir_top (go "trash")) as [r' ->]; [by_decide |]. rewrite <- !app_assoc. intros E%app_inv_head. discriminate E.
Qed.

Lemma dirs_normal top : normal top -> Forall normal (top :: Split slash cloudID).
Proof. intros Ht. constructor; [done | by apply valid_segments]. Qed.

Lemma join_src n : normal n -> FpJoin [src_dir; n] = at_src n.
Proof.
  intros Hn. unfold at_src, src_dir, ManifestDir. rewrite dir_segs by by_decide. apply FpJoin_nested; [done | apply dirs_normal; by_decide | done].
Qed.

Lemma join_dst n : normal n -> FpJoin [dst_dir; n] = at_dst n.
Proof.
  intros Hn. unfold at_dst, dst_dir, ManifestTrashDir. rewrite dir_segs by by_decide. apply FpJoin_nested; [done | apply dirs_normal; by_decide | done].
Qed.

Lemma plain_src : plain_dir src_dir.
Proof. unfold src_dir, ManifestDir. rewrite dir_segs by by_decide. apply plain_FpJoin; [done | apply dirs_normal; by_decide]. Qed.

Lemma at_src_sum x : manifestChecksumPath (at_src x) = at_src (x ++ go ".sha256").
Proof. unfold manifestChecksumPath, at_src. by rewrite <- app_assoc. Qed.
Lemma at_dst_sum x : manifestChecksumPath (at_dst x) = at_dst (x ++ go ".sha256").
Proof. unfold manifestChecksumPath, at_dst. by rewrite <- app_assoc. Qed.

Lemma at_src_inj x y : at_src x = at_src y -> x = y.
Proof. intros E%app_inv_head. by injection E. Qed.
Lemma at_dst_inj x y : at_dst x = at_dst y -> x = y.
Proof. intros E%app_inv_head. by injection E. Qed.

Lemma sum_ne (x : bytes) : x ++ go ".sha256" <> x.
Proof. by apply app_ne_self. Qed.

Lemma manifest_name_normal files n : n ∈ manifest_names metaDir cloudID files -> normal n /\ isManifestFile n = true.
Proof.
  unfold manifest_names, file_names. intros [Hm Hin]%list_elem_of_filter. split; [|done]. apply list_elem_of_fmap in Hin as ([n' b] & -> & Hin).
  apply list_elem_of_filter in Hin as [_ (p & f & _ & Hc)%elem_of_children]. cbn [fst] in *. apply child_inv in Hc as [Hs _]; [|apply plain_src].
  unfold normal. split_and!; [..|done]; intros ->; vm_compute in Hm; discriminate Hm.
Qed.
End Paths.

(** ** Moving *)

Section Moving.
Context `{AE : AEAD, ZS : Zstd, SH : Sha256, HK : Hkdf} `{J : Json} `{MO : Mounts}.
Context (metaDir cloudID : bytes) (Hid : validateCloudID cloudID = None).
Abbreviation S' := (at_src metaDir cloudID).
Abbreviation D' := (at_dst metaDir cloudID).

(** From [w] to [w'] nothing is lost: outside the trash of the source a file
    stays as it is, or it was one of the source's and its data is in the trash
    under the same name; and in the trash only files of such names change. *)
Record moved (w w' : world) : Prop := Moved {
  mv_out p : (forall x, p <> D' x) -> w_files w' !! p = w_files w !! p \/
    exists x f, p = S' x /\ w_files w !! p = Some f /\ w_files w' !! p = None /\ f_data <$> w_files w' !! D' x = Some (f_data f);
  mv_in x : w_files w !! S' x = None -> w_files w' !! D' x = w_files w !! D' x;
  mv_calm : calm w -> calm w'
}.

#[local] Instance moved_preorder : PreOrder moved.
Proof.
  split.
  - intros w. split; [by left | done | done].
  - intros w w1 w2 [Ho1 Hi1 Hc1] [Ho2 Hi2 Hc2]. pose proof (at_src_dst metaDir cloudID Hid) as Hsd. split.
    + intros p Hp. destruct (Ho1 p Hp) as [E1 | (x & f & -> & Hf & Hn & Hd)], (Ho2 _ Hp) as [E2 | (y & g & Ey & Hg & Hn2 & Hd2)].
      * left. congruence.
      * right. exists y, g. subst p. rewrite <- E1. by split_and!.
      * right. exists x, f. rewrite E2, Hi2 by done. by split_and!.
      * congruence.
    + intros x Hx. rewrite Hi2, Hi1; [done | done |]. destruct (Ho1 (S' x)) as [-> | (y & f & _ & Hf & _)]; [by apply Hsd | done | congruence].
    + auto.
Qed.

Lemma same_moved w w' : same w w' -> moved w w'.
Proof. intros [Hf Hc]. split; [left; by rewrite Hf | intros; by rewrite Hf | done]. Qed.

(** Only the target changes. *)
Lemma only_moved x w w' f : w_files w !! S' x = Some f -> only (D' x) w w' -> moved w w'.
Proof.
  intros Hf [Ho Hc]. split; [intros p Hp; left; by apply Ho | | done]. intros y Hy. apply Ho. intros ->%at_dst_inj. congruence.
Qed.

(** The target has the data and the source is gone. *)
Lemma gone_moved x w w' f g : w_files w !! S' x = Some f -> f_data g = f_data f -> (forall p, p <> S' x -> p <> D' x -> w_files w' !! p = w_files w !! p) ->
  w_files w' !! S' x = None -> w_files w' !! D' x = Some g -> (calm w -> calm w') -> moved w w'.
Proof.
  intros Hf Hg Ho Hs Hd Hc. split; [| | done].
  - intros p Hp. destruct (decide (p = S' x)) as [->|]; [right | left; by apply Ho]. exists x, f. rewrite Hd, Hs. cbn. by rewrite Hg.
  - intros y Hy. apply Ho; [symmetry; by apply at_src_dst | intros ->%at_dst_inj; congruence].
Qed.

(** What a move of [x] gives. *)
Definition move_post (C : Prop) (x : bytes) (w : world) (r : result terr unit) (w' : world) : Prop :=
  moved w w' /\ (forall p, p <> S' x -> p <> D' x -> w_files w' !! p = w_files w !! p) /\ (r = Ok tt -> exists f, w_files w !! S' x = Some f /\ f_data <$> w_files w' !! D' x = Some (f_data f)) /\
  (C -> forall f, w_files w !! S' x = Some f -> r = Ok tt /\ w_files w' !! S' x = None).

Lemma wp_copy (C : Prop) x rd f w : (C -> calm w) -> w_files w !! S' x = Some f -> (rd_fails rd = false -> rd_data rd = f_data f) -> (C -> rd_fails rd = false) ->
  wp (copy_then_remove (S' x) (D' x) rd) (move_post C x w) w.
Proof.
  intros HC Hf Hrd Hcr. pose proof (at_src_dst metaDir cloudID Hid x x) as Hne.
  assert (Hfail : forall e w', only (D' x) w w' -> ~ C -> move_post C x w (Err e) w').
  { intros e w' Ho Hn. split; [by eapply only_moved |]. split; [|done]. intros p _ Hp. by apply (only_files _ _ _ Ho). }
  unfold copy_then_remove. do 2 wp_step. refine (quiet_nop _ _ _). intros r w1 S1 C1. destruct r as [[]|e]; [|apply Hfail; [by apply same_only | intros Hc; by specialize (C1 (HC Hc))]].
  do 2 wp_step. apply wp_Create; cbn beta iota.
  { intros e w2 Hs Hn. apply Hfail; [apply same_only; by etrans |]. intros Hc. by apply Hn, (same_faults _ _ S1), HC. }
  intros t w2 O2 Hp2. assert (O : only (D' x) w w2) by (etrans; [by apply same_only | done]). do 2 wp_step. apply wp_Write; cbn beta iota.
  { intros e w3 O3 Hn. cbn [is_ok andb]. do 3 wp_step. apply wp_Remove. intros r w4 O4 _ _ _ _ _. cbn beta iota. do 3 wp_step. wp_nop. cbn beta iota. wp_step.
    apply Hfail; [do 3 (etrans; [eassumption |]); by apply same_only |]. intros Hc. by apply Hn, (only_faults _ _ _ O), HC. }
  intros w3 O3 Hd3. destruct (Hd3 [] t Hp2) as [t' Hd]. cbn [app] in Hd. assert (O' : only (D' x) w w3) by (by etrans). cbn [is_ok andb].
  destruct (rd_fails rd) eqn:Er; cbn [negb].
  { do 3 wp_step. apply wp_Remove. intros r w4 O4 _ _ _ _ _. cbn beta iota. do 3 wp_step. wp_nop. cbn beta iota. wp_step.
    apply Hfail; [do 2 (etrans; [eassumption |]); by apply same_only |]. intros Hc. by specialize (Hcr Hc). }
  rewrite Hrd in Hd by done. do 3 wp_step. apply wp_Remove. intros r w4 O4 _ Hok Hnat _ Hsame. cbn beta iota. do 3 wp_step. refine (quiet_nop _ _ _). intros r5 w5 S5 C5. cbn beta iota. wp_step.
  assert (Hs3 : w_files w3 !! S' x = Some f) by (rewrite (only_files _ _ _ O') by done; done).
  assert (Hd5 : w_files w5 !! D' x = Some (File (f_data f) t')) by (rewrite (same_files _ _ S5), (only_files _ _ _ O4) by done; done).
  assert (Hc5 : calm w -> calm w5) by (intros Hc; apply (same_faults _ _ S5), (only_faults _ _ _ O4), (only_faults _ _ _ O'), Hc).
  assert (Hrest : forall p, p <> S' x -> p <> D' x -> w_files w5 !! p = w_files w !! p).
  { intros p H1 H2. by rewrite (same_files _ _ S5), (only_files _ _ _ O4), (only_files _ _ _ O'). }
  split; [|split; [done | split; [intros _; exists f; by rewrite Hd5 |]]].
  - destruct r as [[]|e].
    + by eapply gone_moved; [done | | | rewrite (same_files _ _ S5); by apply Hok | exact Hd5 | done].
    + eapply only_moved; [done |]. etrans; [exact O' |]. apply same_only. etrans; [by apply Hsame | done].
  - intros Hc f' _. split; [done |]. rewrite (same_files _ _ S5). apply Hok, (Hnat f Hs3), (only_faults _ _ _ O'), HC, Hc.
Qed.

Lemma move_same C x w w' r : same w w' -> (C -> w_files w !! S' x = None) -> is_ok r = false -> move_post C x w r w'.
Proof. intros Hs Hn Hr. split; [by apply same_moved |]. split; [intros; by rewrite (same_files _ _ Hs) |]. split; [by intros -> |]. intros Hc f Hf. rewrite Hn in Hf by done. done. Qed.

Lemma wp_rename x w : wp (renameWithFallback (S' x) (D' x)) (move_post (calm w) x w) w.
Proof.
  pose proof (at_src_dst metaDir cloudID Hid x x) as Hne. unfold renameWithFallback, OsRename. do 2 wp_step. destruct (_ =? _).
  - wp_step. apply wp_Rename; [done | |]; cbn beta iota.
    + intros e w1 Hs He Hce. cbn [isCrossDeviceError negb]. wp_step. apply move_same; [done | | done]. intros Hc. by apply He, Hce.
    + intros f w1 Hf Hw Hc. wp_step. assert (Hd : w_files w1 !! D' x = Some f) by (rewrite Hw; apply lookup_insert_eq).
      assert (Hrest : forall p, p <> S' x -> p <> D' x -> w_files w1 !! p = w_files w !! p) by (intros p H1 H2; by rewrite Hw, lookup_insert_ne, lookup_delete_ne).
      assert (Hg : w_files w1 !! S' x = None) by (rewrite Hw, lookup_insert_ne by done; apply lookup_delete_eq).
      split; [by eapply gone_moved |]. split; [done |]. split; [intros _; exists f; by rewrite Hd | done].
  - do 2 wp_step. refine (quiet_nop _ _ _). intros r w1 S1 C1. destruct r as [[]|e]; cbn beta iota.
    2: { cbn [isCrossDeviceError negb]. wp_step. split; [by apply same_moved |]. split; [intros; by rewrite (same_files _ _ S1) |]. split; [done |]. intros Hc. by specialize (C1 Hc). }
    wp_step. cbn [isCrossDeviceError negb]. do 2 wp_step. apply wp_Open; cbn beta iota.
    { intros e w2 Hs He Hce. apply move_same; [by etrans | | done]. intros Hc. rewrite <- (same_files _ _ S1). by apply He, Hce, (same_faults _ _ S1). }
    intros f rd w2 Hs Hf _ Hd Hr. assert (S2 : same w w2) by (by etrans). do 2 wp_step. rewrite (same_files _ _ S1) in Hf.
    eapply wp_mono; [apply (wp_copy (calm w) x rd f); [apply (same_faults _ _ S2) | by rewrite (same_files _ _ S2) | done |] |].
    { intros Hc. apply Hr, (same_faults _ _ S1), Hc. }
    intros r w3 (Hm & Ho & Hok & Hcalm). cbn beta iota. do 2 wp_step. refine (quiet_nop _ _ _). intros r4 w4 S4 _. cbn beta iota.
    assert (Hpost : move_post (calm w) x w r w4).
    { rewrite (same_files _ _ S2) in Hok, Hcalm, Ho. split; [etrans; [by apply same_moved |]; etrans; [exact Hm |]; by apply same_moved |].
      rewrite (same_files _ _ S4). by split. }
    destruct r as [[]|e]; wp_step; exact Hpost.
Qed.

(** One manifest with its checksum. *)
Definition trash_post (n : bytes) (w : world) (r : result terr unit) (w' : world) : Prop :=
  moved w w' /\ (forall p, p ∉ [S' n; D' n; S' (n ++ go ".sha256"); D' (n ++ go ".sha256")] -> w_files w' !! p = w_files w !! p) /\ (r = Ok tt -> exists f, w_files w !! S' n = Some f /\ f_data <$> w_files w' !! D' n = Some (f_data f)) /\
  (calm w -> forall f, w_files w !! S' n = Some f -> r = Ok tt /\ w_files w' !! S' n = None /\
     forall s, w_files w !! S' (n ++ go ".sha256") = Some s -> f_data <$> w_files w' !! D' (n ++ go ".sha256") = Some (f_data s)).

Lemma wp_trash_one n w : normal n -> wp (moveOrDeleteOneManifest (S' n) (dst_dir metaDir cloudID) true) (trash_post n w) w.
Proof.
  intros Hn. unfold moveOrDeleteOneManifest.
  assert (Base (S' n) = n) as ->. { change (S' n) with (GoStr.Join s_slash ([src_dir metaDir cloudID] ++ [n])). by apply Base_last. }
  rewrite join_dst by done. wp_step. eapply wp_mono; [apply wp_rename |]. intros r w1 (Hm & Ho & Hok & Hc1). destruct r as [[]|e].
  2: { split; [done |]. split; [intros p Hp; apply Ho; set_solver |]. split; [done |]. intros Hc f Hf. by destruct (Hc1 Hc f Hf). }
  destruct (Hok eq_refl) as (f & Hf & Hd). rewrite at_src_sum, at_dst_sum. set (k := n ++ go ".sha256"). assert (Hk : k <> n) by apply sum_ne.
  assert (Hsum : w_files w1 !! S' k = w_files w !! S' k) by (apply Ho; [by intros ->%at_src_inj | by apply at_src_dst]).
  do 2 wp_step. apply wp_Stat; cbn beta iota.
  - intros e w2 Hs He Hce. wp_step. split; [etrans; [done | by apply same_moved] |]. rewrite (same_files _ _ Hs). split; [intros p Hp; apply Ho; set_solver |]. split; [intros _; by exists f |].
    intros Hc f' Hf'. destruct (Hc1 Hc f' Hf') as [_ Hg]. split; [done |]. split; [done |]. intros s Hsx. fold k in Hsx. rewrite <- Hsum in Hsx. rewrite He in Hsx; [done |].
    apply Hce, (mv_calm _ _ Hm), Hc.
  - intros s w2 Hs Hsx. do 2 wp_step. eapply wp_mono; [apply wp_rename |]. intros r w3 (Hm3 & Ho3 & Hok3 & Hc3). cbn beta iota. wp_step.
    rewrite (same_files _ _ Hs) in *. pose proof (same_faults _ _ Hs) as Hcs. split; [etrans; [done |]; etrans; [by apply same_moved | done] |].
    assert (Hd3 : w_files w3 !! D' n = w_files w1 !! D' n) by (apply Ho3; [symmetry; by apply at_src_dst | by intros E%at_dst_inj]).
    split; [intros p Hp; rewrite Ho3, Ho; [done | set_solver ..] |]. split; [intros _; exists f; by rewrite Hd3 |]. intros Hc f' Hf'. destruct (Hc1 Hc f' Hf') as [_ Hg]. split; [done |].
    split; [rewrite Ho3; [done | by intros E%at_src_inj | by apply at_src_dst] |]. intros s' Hs'. fold k in Hs'. rewrite <- Hsum, Hsx in Hs'. injection Hs' as ->.
    destruct (Hc3 (Hcs (mv_calm _ _ Hm Hc)) s' Hsx) as [-> _]. destruct (Hok3 eq_refl) as (s2 & Hs2 & Hd2). rewrite Hsx in Hs2. by injection Hs2 as <-.
Qed.

(** ** Finding the manifest *)

Lemma load_any hook p w : wp (LoadManifest hook p) (fun r w' => same w w' /\ forall m, r = Ok m -> load_file hook (w_files w) p = Ok m) w.
Proof.
  unfold LoadManifest, load_file. do 2 wp_step. apply wp_ReadFile; cbn beta iota; [done |]. intros f w1 Hs Hf. rewrite Hf. wp_step.
  destruct (isGBREnvelope (f_data f)).
  - wp_step. destruct (LoadManifestFromData hook (f_data f)); wp_step; (split; [done |]); intros ? Hr; [by apply ok_inv in Hr as -> | done].
  - unfold verifyManifestChecksum. do 2 wp_step. apply wp_ReadFile; cbn beta iota.
    + intros e w2 Hs2 _ _. destruct e; wp_step; (split; [by etrans | done]).
    + intros g w2 Hs2 Hg. rewrite (same_files _ _ Hs) in Hg. rewrite Hg. destruct (eqs _ _); wp_step; [|by split; [etrans |]].
      destruct (LoadManifestFromData hook (f_data f)); wp_step; (split; [by etrans |]); intros ? Hr; [by apply ok_inv in Hr as -> | done].
Qed.

Definition is_it (ts dev : bytes) (m : Manifest) : Prop := m_Timestamp m = ts /\ m_DeviceID m = dev.
#[export] Instance is_it_dec ts dev m : Decision (is_it ts dev m).
Proof. unfold is_it. apply _. Defined.

Lemma matching_spec ts dev st m n : is_it ts dev m /\ matching ts dev st m n = (Some n, true) \/ ~ is_it ts dev m /\ matching ts dev st m n = (st, false).
Proof.
  unfold matching, is_it. destruct (eqs (m_Timestamp m) ts) eqn:E1; [|apply eqs_false in E1; right; naive_solver]. apply eqs_true in E1.
  destruct (eqs (m_DeviceID m) dev) eqn:E2; [apply eqs_true in E2; by left | apply eqs_false in E2; right; naive_solver].
Qed.

Lemma wp_find hook dir ts dev names : forall w, wp (forEachManifest hook dir names (matching ts dev) None) (fun r w' => same w w' /\
  forall n errs, r = Ok (Some n, errs) -> n ∈ names /\ exists m, load_file hook (w_files w) (FpJoin [dir; n]) = Ok m /\ is_it ts dev m) w.
Proof.
  induction names as [|n names IH]; intros w; cbn [forEachManifest]; [by wp_step |].
  do 2 wp_step. eapply wp_mono; [apply load_any |]. intros r w1 [Hs Hl]. cbn beta iota. destruct r as [m|e].
  - destruct (matching_spec ts dev None m n) as [[Hi ->] | [_ ->]].
    + wp_step. split; [done |]. intros k errs [= <- <-]. split; [by left |]. exists m. auto.
    + eapply wp_mono; [apply IH |]. intros r w2 [Hs2 H2]. split; [by etrans |]. rewrite (same_files _ _ Hs) in H2. intros k errs Hr.
      destruct (H2 k errs Hr) as [Hk Hm]. split; [by right | done].
  - wp_step. eapply wp_mono; [apply IH |]. intros r w2 [Hs2 H2]. rewrite (same_files _ _ Hs) in H2. destruct r as [[st errs']|e']; [wp_step |]; (split; [by etrans |]); [|done].
    intros k errs [= -> _]. destruct (H2 k errs' eq_refl) as [Hk Hm]. split; [by right | done].
Qed.

Definition first_match (load : bytes -> result merr Manifest) (ts dev : bytes) (names : list bytes) (n : bytes) (m : Manifest) : Prop :=
  exists pre post, names = pre ++ n :: post /\ load n = Ok m /\ is_it ts dev m /\ forall k m', k ∈ pre -> load k = Ok m' -> ~ is_it ts dev m'.

Lemma each_match load ts dev names : match (each load names (matching ts dev) None).1 with
  | Some n => exists m, first_match load ts dev names n m
  | None => forall n m, n ∈ names -> load n = Ok m -> ~ is_it ts dev m
  end.
Proof.
  induction names as [|n names IH]; cbn [each]; [by intros ? ? ?%elem_of_nil |].
  assert (Hnext : (forall m, load n = Ok m -> ~ is_it ts dev m) -> match (each load names (matching ts dev) None).1 with
    | Some k => exists m, first_match load ts dev (n :: names) k m
    | None => forall k m, k ∈ n :: names -> load k = Ok m -> ~ is_it ts dev m end).
  { intros Hn. destruct (each load names (matching ts dev) None).1 as [k|].
    - destruct IH as (m & pre & post & -> & Hl & Hi & Hpre). exists m, (n :: pre), post. split; [done |]. split; [done |]. split; [done |].
      intros k' m' [-> | Hk]%elem_of_cons; [apply Hn | by apply Hpre].
    - intros k m [-> | Hk]%elem_of_cons; [apply Hn | by apply IH]. }
  destruct (load n) as [m|e] eqn:El.
  - destruct (matching_spec ts dev None m n) as [[Hi ->] | [Hi ->]]; [|apply Hnext; by intros ? ->%ok_inv].
    exists m, [], names. split; [done |]. split; [done |]. split; [done |]. by intros ? ? ?%elem_of_nil.
  - destruct (each load names (matching ts dev) None) as [st errs]. by apply Hnext.
Qed.

(** ** Theorems *)

Context (hook : option (bytes -> option bytes)).
Abbreviation names w := (manifest_names metaDir cloudID (w_files w)).
Abbreviation load w := (load_named hook metaDir cloudID (w_files w)).

Lemma wp_readManifestFiles Q w :
  (forall e w', same w w' -> (calm w -> names w = []) -> (e = ENOENT -> names w = []) -> Q (Err e) w') -> (forall w', same w w' -> Q (Ok (names w)) w') ->
  wp (readManifestFiles (src_dir metaDir cloudID)) Q w.
Proof.
  intros H1 H2. unfold readManifestFiles, readManifestDirEntries. do 2 wp_step. apply wp_ReadDir; cbn beta iota.
  - intros e w1 Hs Hc He. apply H1; [done | |]; intros H; unfold manifest_names; change (ManifestDir metaDir cloudID) with (src_dir metaDir cloudID); [by destruct (Hc H) as [_ ->] | by rewrite He].
  - intros w1 Hs. do 2 wp_step. by apply H2.
Qed.

Lemma moved_trash_all l : forall c w, Forall normal l ->
  wp (move_all (src_dir metaDir cloudID) (dst_dir metaDir cloudID) true l c) (fun _ w' => moved w w') w.
Proof.
  induction l as [|n l IH]; intros c w Hl; cbn [move_all]; [by wp_step |]. apply Forall_cons in Hl as [Hn Hl]. do 2 wp_step. rewrite join_src by done.
  eapply wp_mono; [by apply wp_trash_one |]. intros r w1 [Hm _]. cbn beta iota. eapply wp_mono; [by apply IH |]. intros r2 w2 H2. by etrans.
Qed.

Lemma src_dir_not_dst x : src_dir metaDir cloudID <> D' x.
Proof.
  unfold src_dir, at_dst, dst_dir, ManifestDir, ManifestTrashDir. destruct (dir_top metaDir cloudID Hid (go "manifests")) as [r ->]; [by_decide |].
  destruct (dir_top metaDir cloudID Hid (go "trash")) as [r' ->]; [by_decide |]. rewrite <- !app_assoc. intros E%app_inv_head. discriminate E.
Qed.

(** Removing an empty directory changes nothing else, and no file. *)
Lemma wp_remove_empty_only {E} d Q w : (forall b w', only d w w' -> Q (Ok b) w') -> wp (remove_if_empty (E := E) d) Q w.
Proof.
  intros HQ. unfold remove_if_empty. do 2 wp_step.
  assert (Hrm : forall w1, same w w1 -> wp (_ ← attempt (Remove d); mret true) Q w1).
  { intros w1 Hs. do 2 wp_step. apply wp_Remove. intros r w2 O2 _ _ _ _ _. cbn beta iota. wp_step. apply HQ. etrans; [by apply same_only | done]. }
  apply wp_ReadDir; cbn beta iota; [intros e w1 Hs _ _; by apply Hrm |]. intros w1 Hs. destruct (children d (w_files w)); [by apply Hrm |]. wp_step. by apply HQ, same_only.
Qed.

Lemma wp_remove_empty {E} d Q w : w_files w !! d = None -> (forall b w', same w w' -> Q (Ok b) w') -> wp (remove_if_empty (E := E) d) Q w.
Proof.
  intros Hd HQ. unfold remove_if_empty. do 2 wp_step.
  assert (Hrm : forall w1, same w w1 -> wp (_ ← attempt (Remove d); mret true) Q w1).
  { intros w1 Hs. do 2 wp_step. apply wp_with_file; [intros e w2 Hs2 _ _; wp_step; apply HQ; by etrans |].
    intros f w2 Hs2 Hf. rewrite (same_files _ _ Hs), Hd in Hf. done. }
  apply wp_ReadDir; cbn beta iota; [intros e w1 Hs _ _; by apply Hrm |]. intros w1 Hs. destruct (children d (w_files w)); [by apply Hrm |]. wp_step. by apply HQ.
Qed.

(** C12: trashing never loses a manifest: whatever fails, and on whatever
    mounts the directories are, afterwards every file outside the trash is as it
    was, or it was one of the source's manifests or checksums and its data is in
    the trash under its name. *)
Theorem trash_never_loses ts dev w : w_files w !! src_dir metaDir cloudID = None ->
  wp (TrashManifest hook metaDir cloudID ts dev) (fun _ w' => moved w w') w /\
  wp (TrashAllSourceManifests metaDir cloudID) (fun _ w' => moved w w') w.
Proof.
  intros Hdir. split.
  - unfold TrashManifest, deleteOrTrashManifest. fold (src_dir metaDir cloudID). do 2 wp_step. apply wp_readManifestFiles; [intros e w1 Hs _ _; by apply same_moved |].
    intros w1 Hs. cbn beta iota. do 2 wp_step. eapply wp_mono; [apply wp_find |]. intros r w2 [Hs2 Hr]. assert (S2 : same w w2) by (by etrans).
    destruct r as [[[n|] errs]|e]; cbn beta iota; [| wp_step; by apply same_moved | by apply same_moved]. destruct (Hr n errs eq_refl) as [Hin _].
    apply (manifest_name_normal metaDir cloudID Hid) in Hin as [Hn _]. rewrite join_src by done. fold (dst_dir metaDir cloudID). do 2 wp_step.
    refine (quiet_nop _ _ _). intros r3 w3 S3 _. assert (SS : same w w3) by (by etrans). destruct r3 as [[]|e]; [|by apply same_moved].
    eapply wp_mono; [by apply wp_trash_one |]. intros r4 w4 [Hm _]. etrans; [by apply same_moved | done].
  - unfold TrashAllSourceManifests, deleteOrTrashAllManifests. fold (src_dir metaDir cloudID) (dst_dir metaDir cloudID). do 2 wp_step.
    apply wp_readManifestFiles; cbn beta iota; [intros e w1 Hs _ _; destruct e; wp_step; by apply same_moved |]. intros w1 Hs. do 2 wp_step. refine (quiet_nop _ _ _).
    intros r w2 S2 _. assert (SS : same w w2) by (by etrans). destruct r as [[]|e]; [|by apply same_moved]. cbn beta iota. wp_step.
    eapply wp_mono; [apply moved_trash_all; apply Forall_forall; intros n Hin; by apply (manifest_name_normal metaDir cloudID Hid) in Hin as [? _] |].
    intros r w3 Hm. assert (M : moved w w3) by (etrans; [by apply same_moved | done]). destruct r as [c|e]; [|done]. wp_step. apply wp_remove_empty.
    { destruct (mv_out _ _ M (src_dir metaDir cloudID) src_dir_not_dst) as [-> | (x & f & _ & Hf & _)]; [done | congruence]. }
    intros b w4 Hs4. wp_step. etrans; [exact M | by apply same_moved].
Qed.

(** Finding the manifest when nothing fails. *)
Lemma wp_find_calm ts dev w : calm w ->
  wp (forEachManifest hook (src_dir metaDir cloudID) (names w) (matching ts dev) None) (fun r w' => same w w' /\ exists o errs, r = Ok (o, errs) /\
    match o with
    | Some n => exists m, first_match (load w) ts dev (names w) n m
    | None => forall n m, n ∈ names w -> load w n = Ok m -> ~ is_it ts dev m
    end) w.
Proof.
  intros Hc. eapply wp_mono; [by apply wp_forEach |]. intros r w1 [Hs ->]. split; [done |]. pose proof (each_match (load w) ts dev (names w)) as Hm.
  change (fun n => load_file hook (w_files w) (FpJoin [src_dir metaDir cloudID; n])) with (load w).
  destruct (each (load w) (names w) (matching ts dev) None) as [o errs]. by exists o, errs.
Qed.

(** Loading depends on the data of the file and of its checksum. *)
Lemma load_moved files files' p q m : load_file hook files p = Ok m ->
  f_data <$> files' !! q = f_data <$> files !! p ->
  (forall s, files !! manifestChecksumPath p = Some s -> f_data <$> files' !! manifestChecksumPath q = Some (f_data s)) -> load_file hook files' q = Ok m.
Proof.
  unfold load_file. destruct (files !! p) as [f|]; [|done]. intros Hl Hq Hs. destruct (files' !! q) as [g|]; [|done]. cbn in Hq. apply (inj Some) in Hq. rewrite Hq.
  destruct (isGBREnvelope (f_data f)); [done |]. destruct (files !! manifestChecksumPath p) as [s|]; [|done]. specialize (Hs s eq_refl).
  destruct (files' !! manifestChecksumPath q) as [t|]; [|done]. cbn in Hs. apply (inj Some) in Hs. by rewrite Hs.
Qed.

(** Without faults, trashing the snapshot of a time and a device takes the
    first manifest that is it: it loads from the trash as it did before, it is
    gone from the source, and no other file changes; when there is none, nothing
    changes and an error is returned. *)
Theorem trash_manifest_exact ts dev w : calm w ->
  wp (TrashManifest hook metaDir cloudID ts dev) (fun r w' => calm w' /\
    ((exists n m, first_match (load w) ts dev (names w) n m /\ r = Ok tt /\ w_files w' !! S' n = None /\ load_file hook (w_files w') (D' n) = Ok m /\
        forall p, p ∉ [S' n; D' n; S' (n ++ go ".sha256"); D' (n ++ go ".sha256")] -> w_files w' !! p = w_files w !! p) \/
     (forall n m, n ∈ names w -> load w n = Ok m -> ~ is_it ts dev m) /\ is_ok r = false /\ w_files w' = w_files w)) w.
Proof.
  intros Hc. unfold TrashManifest, deleteOrTrashManifest. fold (src_dir metaDir cloudID). do 2 wp_step. apply wp_readManifestFiles; cbn beta iota.
  { intros e w1 Hs Hn _. split; [by apply (same_faults _ _ Hs) |]. right. rewrite (Hn Hc). split; [by intros ? ? ?%elem_of_nil |]. split; [done | apply (same_files _ _ Hs)]. }
  intros w1 Hs. do 2 wp_step. pose proof (same_faults _ _ Hs Hc) as Hc1. eapply wp_mono. { rewrite <- (same_files _ _ Hs). by apply wp_find_calm. }
  rewrite (same_files _ _ Hs). intros r w2 (Hs2 & o & errs & -> & Ho). assert (SS : same w w2) by (by etrans). destruct o as [n|]; cbn beta iota.
  2: { wp_step. split; [by apply (same_faults _ _ SS) |]. right. split; [done |]. split; [done | apply (same_files _ _ SS)]. }
  destruct Ho as (m & Hfm). pose proof Hfm as (pre & post & En & Hl & _). assert (Hin : n ∈ names w) by (rewrite En; set_solver).
  apply (manifest_name_normal metaDir cloudID Hid) in Hin as [Hn _]. rewrite join_src by done. fold (dst_dir metaDir cloudID). do 2 wp_step.
  refine (quiet_nop _ _ _). intros r3 w3 S3 C3. assert (S0 : same w w3) by (by etrans). destruct r3 as [[]|e]; [|by specialize (C3 (same_faults _ _ SS Hc))].
  eapply wp_mono; [by apply wp_trash_one |]. intros r4 w4 (Hm & Hrest & Hok & Hcalm). rewrite (same_files _ _ S0) in Hrest, Hok, Hcalm. split; [by apply (mv_calm _ _ Hm), (same_faults _ _ S0) |].
  left. exists n, m. unfold load_named in Hl. fold (src_dir metaDir cloudID) in Hl. rewrite join_src in Hl by done.
  assert (exists f, w_files w !! S' n = Some f) as [f Hf] by (unfold load_file in Hl; destruct (w_files w !! S' n) as [f|]; [by exists f | done]).
  destruct (Hcalm (same_faults _ _ S0 Hc) f Hf) as (-> & Hg & Hsum). destruct (Hok eq_refl) as (f' & Hf' & Hd). split; [done |]. split; [done |]. split; [done |]. split; [|done].
  eapply load_moved; [exact Hl | by rewrite Hd, Hf' |]. intros s Hsx. rewrite at_dst_sum. rewrite at_src_sum in Hsx. by apply Hsum.
Qed.

Lemma wp_delete_one n w : wp (moveOrDeleteOneManifest (S' n) [] false) (fun r w' =>
  forall p, p <> S' n -> p <> S' (n ++ go ".sha256") -> w_files w' !! p = w_files w !! p) w.
Proof.
  unfold moveOrDeleteOneManifest. rewrite at_src_sum. do 2 wp_step. apply wp_Remove. intros r w1 O1 _ _ _ _ _. cbn beta iota. wp_step. apply wp_Remove. intros r2 w2 O2 _ _ _ _ _.
  intros p H1 H2. by rewrite (only_files _ _ _ O2), (only_files _ _ _ O1).
Qed.

Lemma wp_Remove_calm p w : calm w -> wp (Remove p) (fun r w' => calm w' /\ w_files w' = delete p (w_files w) /\ (forall f, w_files w !! p = Some f -> r = Ok tt)) w.
Proof.
  intros Hc. apply wp_Remove. intros r w' Ho Hcr Hok Hnat Hno Hs. split; [by apply (only_faults _ _ _ Ho) |]. split; [|intros f Hf; by eapply Hnat].
  apply map_eq. intros q. destruct (decide (q = p)) as [->|]; [|rewrite lookup_delete_ne by done; by apply (only_files _ _ _ Ho)]. rewrite lookup_delete_eq.
  destruct (Hcr Hc) as [-> | ->]; auto.
Qed.

Lemma wp_delete_calm n w : calm w ->
  wp (moveOrDeleteOneManifest (S' n) [] false) (fun r w' => calm w' /\ w_files w' = delete (S' n) (delete (S' (n ++ go ".sha256")) (w_files w)) /\
    forall f, w_files w !! S' n = Some f -> r = Ok tt) w.
Proof.
  intros Hc. unfold moveOrDeleteOneManifest. rewrite at_src_sum. do 2 wp_step. eapply wp_mono; [by apply wp_Remove_calm |]. intros r w1 (Hc1 & H1 & _). cbn beta iota. wp_step.
  eapply wp_mono; [by apply wp_Remove_calm |]. intros r2 w2 (Hc2 & H2 & Hr). split; [done |]. rewrite H2, H1. split; [done |]. intros f Hf. rewrite (Hr f); [done |].
  rewrite H1, lookup_delete_ne; [done |]. intros E%at_src_inj. by apply (sum_ne n).
Qed.

(** Deleting the snapshot of a time and a device removes at most one
    manifest that is it and its checksum, whatever fails; without faults the
    first such manifest is removed, and when there is none an error is
    returned. *)
Theorem delete_manifest_exact ts dev w :
  wp (DeleteManifest hook metaDir cloudID ts dev) (fun r w' =>
    (w_files w' = w_files w \/ exists n m, n ∈ names w /\ load w n = Ok m /\ is_it ts dev m /\
       forall p, p <> S' n -> p <> S' (n ++ go ".sha256") -> w_files w' !! p = w_files w !! p) /\
    (calm w ->
      (exists n m, first_match (load w) ts dev (names w) n m /\ r = Ok tt /\
         w_files w' = delete (S' n) (delete (S' (n ++ go ".sha256")) (w_files w))) \/
      (forall n m, n ∈ names w -> load w n = Ok m -> ~ is_it ts dev m) /\ is_ok r = false)) w.
Proof.
  unfold DeleteManifest, deleteOrTrashManifest. fold (src_dir metaDir cloudID). do 2 wp_step. apply wp_readManifestFiles; cbn beta iota.
  { intros e w1 Hs Hn _. split; [left; apply (same_files _ _ Hs) |]. intros Hc. right. rewrite (Hn Hc). split; [by intros ? ? ?%elem_of_nil | done]. }
  intros w1 Hs. do 2 wp_step.
  assert (Hfind : wp (forEachManifest hook (src_dir metaDir cloudID) (names w) (matching ts dev) None) (fun r w' => same w1 w' /\
    (forall n errs, r = Ok (Some n, errs) -> n ∈ names w /\ exists m, load w n = Ok m /\ is_it ts dev m) /\
    (calm w -> exists o errs, r = Ok (o, errs) /\ match o with
      | Some n => exists m, first_match (load w) ts dev (names w) n m
      | None => forall n m, n ∈ names w -> load w n = Ok m -> ~ is_it ts dev m end)) w1).
  { rewrite <- (same_files _ _ Hs). split; [apply wp_find | split; [apply wp_find |]]. intros Hc. by apply wp_find_calm, (same_faults _ _ Hs). }
  eapply wp_mono; [exact Hfind |]. intros r w2 (Hs2 & Hr & Hrc). assert (SS : same w w2) by (by etrans). clear Hfind. destruct r as [[[n|] errs]|e]; cbn beta iota.
  - destruct (Hr n errs eq_refl) as (Hin & m & Hl & Hi). pose proof (manifest_name_normal metaDir cloudID Hid _ _ Hin) as [Hn _]. rewrite join_src by done.
    assert (Hl' := Hl). unfold load_named in Hl'. fold (src_dir metaDir cloudID) in Hl'. rewrite join_src in Hl' by done.
    assert (exists f, w_files w !! S' n = Some f) as [f Hf] by (unfold load_file in Hl'; destruct (w_files w !! S' n) as [f|]; [by exists f | done]).
    split.
    + right. exists n, m. split; [done |]. split; [done |]. split; [done |]. intros p H1 H2. rewrite <- (same_files _ _ SS). by apply (wp_delete_one n w2).
    + intros Hc. left. destruct (Hrc Hc) as (o & errs' & [= <- <-] & m' & Hfm). exists n, m'. split; [done |].
      destruct (wp_delete_calm n w2) as (_ & E2 & E1); [by apply (same_faults _ _ SS) |]. rewrite (same_files _ _ SS) in E1, E2. split; [by apply (E1 f) | exact E2].
  - wp_step. split; [left; apply (same_files _ _ SS) |]. intros Hc. right. destruct (Hrc Hc) as (o & errs' & [= <- <-] & Hno). by split.
  - split; [left; apply (same_files _ _ SS) |]. intros Hc. by destruct (Hrc Hc) as (? & ? & ? & _).
Qed.
(** One manifest at a time, by its name.  Without faults it is gone afterwards,
    and every other manifest of the source is as it was. *)
Definition gone_only (ns : list bytes) (w w' : world) : Prop :=
  forall k, isManifestFile k = true -> (k ∈ ns -> w_files w' !! S' k = None) /\ (k ∉ ns -> w_files w' !! S' k = w_files w !! S' k).

Lemma sum_no_manifest n : isManifestFile (n ++ go ".sha256") = false.
Proof.
  unfold isManifestFile. destruct (Contains _ _); [done |]. apply orb_false_iff. change (go ".sha256") with (go ".sha25" ++ [x36]). rewrite app_assoc.
  split; apply bool_decide_eq_false; intros [z E].
  - change jsonZst with (go ".json.zs" ++ [x74]) in E. rewrite app_assoc in E. apply app_inj_tail in E as [_ E]. discriminate E.
  - change (go ".json") with (go ".jso" ++ [x6e]) in E. rewrite app_assoc in E. apply app_inj_tail in E as [_ E]. discriminate E.
Qed.

Lemma wp_gone_one (trash : bool) n w : calm w -> normal n ->
  wp (moveOrDeleteOneManifest (S' n) (if trash then dst_dir metaDir cloudID else []) trash) (fun _ w' => calm w' /\ gone_only [n] w w') w.
Proof.
  intros Hc Hn. assert (Hother : forall k, isManifestFile k = true -> S' k <> S' (n ++ go ".sha256")) by (intros k Hk ->%at_src_inj; by rewrite sum_no_manifest in Hk).
  destruct trash.
  - eapply wp_mono; [by apply wp_trash_one |]. intros r w' (Hm & Hrest & _ & Hcalm). split; [by apply (mv_calm _ _ Hm) |]. intros k Hk. split.
    + intros ->%list_elem_of_singleton. destruct (w_files w !! S' n) as [f|] eqn:Hf; [by apply (Hcalm Hc f) |].
      destruct (mv_out _ _ Hm (S' n)) as [E | (x & f & _ & E & _)]; [intros x; by apply at_src_dst | by rewrite E | by rewrite Hf in E].
    + intros Hne. apply Hrest. rewrite !not_elem_of_cons. split; [intros ->%at_src_inj; set_solver |]. split; [by apply at_src_dst |]. split; [by apply Hother |]. split; [by apply at_src_dst | apply not_elem_of_nil].
  - eapply wp_mono; [by apply wp_delete_calm |]. intros r w' (Hc' & E & _). split; [done |]. intros k Hk. rewrite E. split.
    + intros ->%list_elem_of_singleton. apply lookup_delete_eq.
    + intros Hne. rewrite !lookup_delete_ne; [done | by apply not_eq_sym, Hother |]. intros ->%at_src_inj. set_solver.
Qed.

Lemma same_gone w w' : same w w' -> gone_only [] w w'.
Proof. intros Hs k _. rewrite (same_files _ _ Hs). split; [by intros ?%elem_of_nil | done]. Qed.

(** Without faults [deleteOrTrashManifest], whichever it does, takes the first
    manifest of the time and the device, and no other manifest. *)
Lemma wp_take_one (trash : bool) ts dev w : calm w ->
  wp (deleteOrTrashManifest hook metaDir cloudID ts dev trash) (fun _ w' => calm w' /\
    ((exists n m, first_match (load w) ts dev (names w) n m /\ gone_only [n] w w') \/
     (forall n m, n ∈ names w -> load w n = Ok m -> ~ is_it ts dev m) /\ gone_only [] w w')) w.
Proof.
  intros Hc. unfold deleteOrTrashManifest. fold (src_dir metaDir cloudID). do 2 wp_step. apply wp_readManifestFiles; cbn beta iota.
  { intros e w1 Hs Hn _. split; [by apply (same_faults _ _ Hs) |]. right. rewrite (Hn Hc). split; [by intros ? ? ?%elem_of_nil | by apply same_gone]. }
  intros w1 Hs. do 2 wp_step. pose proof (same_faults _ _ Hs Hc) as Hc1. eapply wp_mono. { rewrite <- (same_files _ _ Hs). by apply wp_find_calm. }
  rewrite (same_files _ _ Hs). intros r w2 (Hs2 & o & errs & -> & Ho). assert (SS : same w w2) by (by etrans). pose proof (same_faults _ _ SS Hc) as Hc2. destruct o as [n|]; cbn beta iota.
  2: { wp_step. split; [done |]. right. split; [done | by apply same_gone]. }
  destruct Ho as (m & Hfm). pose proof Hfm as (pre & post & En & _). assert (Hin : n ∈ names w) by (rewrite En; set_solver).
  apply (manifest_name_normal metaDir cloudID Hid) in Hin as [Hn _]. rewrite join_src by done.
  assert (Hone : forall w3, same w w3 -> wp (moveOrDeleteOneManifest (S' n) (if trash then dst_dir metaDir cloudID else []) trash) (fun _ w' => calm w' /\
    ((exists k m, first_match (load w) ts dev (names w) k m /\ gone_only [k] w w') \/ (forall n m, n ∈ names w -> load w n = Ok m -> ~ is_it ts dev m) /\ gone_only [] w w')) w3).
  { intros w3 S3. eapply wp_mono; [apply wp_gone_one; [by apply (same_faults _ _ S3) | done] |]. intros r w4 [Hc4 Hg]. split; [done |]. left. exists n, m. split; [done |].
    unfold gone_only in Hg. by rewrite (same_files _ _ S3) in Hg. }
  destruct trash; [|by apply Hone]. fold (dst_dir metaDir cloudID). do 2 wp_step. refine (quiet_nop _ _ _). intros r3 w3 S3 C3. cbn beta iota.
  destruct r3 as [[]|e]; [apply (Hone w3); by etrans | by specialize (C3 Hc2)].
Qed.

Lemma wp_move_all (trash : bool) l : forall c w, calm w -> Forall (fun n => normal n /\ isManifestFile n = true) l ->
  wp (move_all (src_dir metaDir cloudID) (if trash then dst_dir metaDir cloudID else []) trash l c) (fun r w' => is_ok r = true /\ calm w' /\ gone_only l w w') w.
Proof.
  induction l as [|n l IH]; intros c w Hc Hl; cbn [move_all]; [wp_step; by split_and!; [| | apply same_gone] |]. apply Forall_cons in Hl as [[Hn Hm] Hl]. do 2 wp_step. rewrite join_src by done.
  eapply wp_mono; [by apply wp_gone_one |]. intros r w1 [Hc1 H1]. cbn beta iota. eapply wp_mono; [by apply IH |]. intros r2 w2 (Hok & Hc2 & H2). split; [done |]. split; [done |].
  intros k Hk. destruct (H1 k Hk) as [G1 K1], (H2 k Hk) as [G2 K2]. split.
  - intros Hin. destruct (decide (k ∈ l)) as [Hx | Hx]; [by apply G2 |]. rewrite (K2 Hx). apply G1. set_solver.
  - intros Hin. rewrite K2, K1; [done | set_solver ..].
Qed.

(** Without faults [deleteOrTrashAllManifests] leaves no manifest of the source. *)
Lemma wp_take_all (trash : bool) w : calm w ->
  wp (deleteOrTrashAllManifests metaDir cloudID trash) (fun _ w' => calm w' /\ gone_only (names w) w w') w.
Proof.
  intros Hc. assert (Hnone : forall w', same w w' -> names w = [] -> calm w' /\ gone_only (names w) w w').
  { intros w' Hs ->. split; [by apply (same_faults _ _ Hs) | by apply same_gone]. }
  unfold deleteOrTrashAllManifests. fold (src_dir metaDir cloudID) (dst_dir metaDir cloudID). do 2 wp_step. apply wp_readManifestFiles; cbn beta iota.
  { intros e w1 Hs Hn _. destruct e; wp_step; by apply Hnone; [| apply Hn]. }
  intros w1 Hs.
  assert (Hrest : forall w2, same w w2 -> wp (count ← move_all (src_dir metaDir cloudID) (if trash then dst_dir metaDir cloudID else []) trash (names w) 0;
      _ ← remove_if_empty (src_dir metaDir cloudID); mret count) (fun _ w' => calm w' /\ gone_only (names w) w w') w2).
  { intros w2 S2. wp_step. eapply wp_mono; [apply wp_move_all; [by apply (same_faults _ _ S2) |] |].
    { apply Forall_forall. intros n Hin. by apply (manifest_name_normal metaDir cloudID Hid) in Hin. }
    intros [count|e] w3 (Hok & Hc3 & H3); [|done]. unfold gone_only in H3. rewrite (same_files _ _ S2) in H3. wp_step.
    assert (Hend : forall w4, only (src_dir metaDir cloudID) w3 w4 -> calm w4 /\ gone_only (names w) w w4).
    { intros w4 O4. split; [by apply (only_faults _ _ _ O4) |]. intros k Hk. rewrite (only_files _ _ _ O4); [by apply H3 |].
      unfold at_src. intros E. apply (f_equal length) in E. rewrite length_app in E. cbn [length] in E. lia. }
    apply wp_remove_empty_only. intros b w4 O4. wp_step. by apply Hend. }
  destruct trash; [|wp_step; wp_step; by apply Hrest]. do 2 wp_step. refine (quiet_nop _ _ _). intros r w2 S2 C2. cbn beta iota.
  destruct r as [[]|e]; [apply Hrest; by etrans | by specialize (C2 (same_faults _ _ Hs Hc))].
Qed.
End Moving.

(** ** Emptying the trash *)

(** Files that satisfy [P] may be gone. *)
Record pruned (P : bytes -> file -> Prop) (w w' : world) : Prop := Pruned {
  pr_at q : w_files w' !! q = w_files w !! q \/ w_files w' !! q = None /\ exists f, w_files w !! q = Some f /\ P q f;
  pr_calm : calm w -> calm w'
}.

#[export] Instance pruned_preorder P : PreOrder (pruned P).
Proof.
  split; [intros w; split; [by left | done] |]. intros w w1 w2 [H1 C1] [H2 C2]. split; [|auto]. intros q.
  destruct (H1 q) as [E1 | (E1 & f & Hf & Hp)], (H2 q) as [E2 | (E2 & g & Hg & Hq)]; [left; congruence | right; split; [done |]; exists g; by rewrite <- E1 | right; split; [congruence |]; by exists f | congruence].
Qed.

Lemma pruned_mono (P Q : bytes -> file -> Prop) w w' : (forall q f, P q f -> Q q f) -> pruned P w w' -> pruned Q w w'.
Proof. intros HPQ [H C]. split; [|done]. intros q. destruct (H q) as [? | (? & f & ? & ?)]; [by left | right; split; [done |]; exists f; auto]. Qed.

Lemma pruned_sub P w w' q f : pruned P w w' -> w_files w' !! q = Some f -> w_files w !! q = Some f.
Proof. intros [H _] Hq. destruct (H q) as [<- | [? _]]; [done | congruence]. Qed.

Lemma pruned_tidy P w w' d : pruned P w w' -> tidy d (w_files w) -> tidy d (w_files w').
Proof. intros Hp [Hd Ht]. split; [done |]. intros p f Hf. apply (Ht p f). by eapply pruned_sub. Qed.

Lemma same_pruned P w w' : same w w' -> pruned P w w'.
Proof. intros [Hf Hc]. split; [left; by rewrite Hf | done]. Qed.

(** The outcome of a cleaning step that may remove what satisfies [P]: the
    number it reports is the number of files removed, and when [C] holds all of
    them are removed. *)
Definition cleans (P : bytes -> file -> Prop) (C : Prop) {E} (w : world) (r : result E Z) (w' : world) : Prop :=
  pruned P w w' /\ (exists c, r = Ok c /\ Z.of_nat (size (w_files w)) = c + Z.of_nat (size (w_files w'))) /\
  (C -> forall q f, w_files w !! q = Some f -> P q f -> w_files w' !! q = None).

Lemma cleans_none P (C : Prop) {E} w w' : same w w' -> (C -> forall q f, w_files w !! q = Some f -> ~ P q f) -> cleans P C w (Ok 0 : result E Z) w'.
Proof.
  intros Hs Hn. split; [by apply same_pruned |]. split; [exists 0; split; [done |]; rewrite (same_files _ _ Hs); lia |]. intros Hc q f Hf HP. by destruct (Hn Hc q f Hf).
Qed.

Lemma wp_remove_old {E} now maxAge p f w (C : Prop) : (C -> calm w) -> w_files w !! p = Some f ->
  wp (remove_old (E := E) now maxAge p f) (cleans (fun q g => q = p /\ older_than now maxAge (f_mtime g) = true) C w) w.
Proof.
  intros HC Hf. unfold remove_old. destruct (older_than now maxAge (f_mtime f)) eqn:Eo.
  2: { wp_step. apply cleans_none; [done |]. intros _ q g Hq [-> Ho]. congruence. }
  do 2 wp_step. apply wp_Remove. intros r w' Ho _ Hok Hnat _ Hs. cbn beta iota. wp_step. split.
  - split; [|apply (only_faults _ _ _ Ho)]. intros q. destruct (decide (q = p)) as [->|]; [|left; by apply (only_files _ _ _ Ho)].
    destruct r as [[]|e]; [right; split; [by apply Hok |]; by exists f | left; by rewrite (same_files _ _ (Hs eq_refl))].
  - split.
    + destruct r as [[]|e]; cbn [is_ok]; eexists; (split; [done |]); [|rewrite (same_files _ _ (Hs eq_refl)); lia].
      assert (w_files w' = delete p (w_files w)) as ->.
      { apply map_eq. intros q. destruct (decide (q = p)) as [->|]; [rewrite lookup_delete_eq; by apply Hok | rewrite lookup_delete_ne by done; by apply (only_files _ _ _ Ho)]. }
      rewrite <- (insert_delete_id (w_files w) p f Hf) at 1. rewrite map_size_insert_None by apply lookup_delete_eq. lia.
    + intros HCC q g Hq [-> _]. specialize (Hnat f Hf (HC HCC)). by apply Hok.
Qed.

(** One cleaning step after another. *)
Lemma wp_sum_each {E A} (g : A -> eff world E Z) (P : A -> bytes -> file -> Prop) (I : world -> Prop) (C : Prop) l :
  (forall a w, a ∈ l -> I w -> (C -> calm w) -> wp (g a) (cleans (P a) C w) w) -> (forall Q w w', pruned Q w w' -> I w -> I w') ->
  forall w, I w -> (C -> calm w) -> wp (sum_each g l) (cleans (fun q f => exists a, a ∈ l /\ P a q f) C w) w.
Proof.
  intros Hg HI. induction l as [|a l IH]; intros w Hw HC; cbn [sum_each].
  { wp_step. apply cleans_none; [done |]. by intros _ q f _ (a & ?%elem_of_nil & _). }
  wp_step. eapply wp_mono; [apply Hg; [by left | done | done] |]. intros r w1 (Hp1 & (c & -> & Hc1) & Hall1). cbn beta iota. wp_step.
  eapply wp_mono; [apply IH; [intros; apply Hg; [by right | done | done] | by eapply HI | intros HCC; by apply (pr_calm _ _ _ Hp1), HC] |].
  intros r w2 (Hp2 & (c2 & -> & Hc2) & Hall2). cbn beta iota. wp_step. split.
  - etrans; (eapply pruned_mono; [|eassumption]); [intros q f Hq; exists a; split; [by left | done] | intros q f (b & Hb & Hq); exists b; split; [by right | done]].
  - split; [exists (c + c2); split; [done | lia] |]. intros HCC q f Hq (b & [-> | Hb]%elem_of_cons & HP).
    + pose proof (Hall1 HCC q f Hq HP) as Hn. destruct (pr_at _ _ _ Hp2 q) as [-> | [? _]]; done.
    + destruct (pr_at _ _ _ Hp1 q) as [E1 | [E1 _]]; [apply (Hall2 HCC q f); [by rewrite E1 | by exists b] |]. by destruct (pr_at _ _ _ Hp2 q) as [-> | [? _]].
Qed.

Lemma cleans_mono (P Q : bytes -> file -> Prop) (C : Prop) {E} w (r : result E Z) w' : (forall q f, P q f -> Q q f) ->
  (C -> forall q f, w_files w !! q = Some f -> Q q f -> P q f) -> cleans P C w r w' -> cleans Q C w r w'.
Proof.
  intros HPQ HQP (Hp & Hc & Hall). split; [by eapply pruned_mono |]. split; [done |]. intros HCC q f Hf HQ. apply (Hall HCC q f Hf). by apply HQP.
Qed.

Lemma cleans_same P (C : Prop) {E} w w1 (r : result E Z) w' : same w w1 -> cleans P C w1 r w' -> cleans P C w r w'.
Proof.
  intros Hs (Hp & Hc & Hall). split; [etrans; [by apply same_pruned | done] |]. by rewrite <- (same_files _ _ Hs).
Qed.

Lemma wp_Lstat p Q w :
  (forall e w', same w w' -> (calm w -> w_files w !! p = None /\ children p (w_files w) = [] /\ e = ENOENT) -> Q (Err e) w') ->
  (forall f w', same w w' -> w_files w !! p = Some f -> Q (Ok (Some f)) w') ->
  (forall w', same w w' -> w_files w !! p = None -> children p (w_files w) <> [] -> Q (Ok None) w') -> wp (Lstat p) Q w.
Proof.
  intros H1 H2 H3. apply wp_syscall; [intros e w' Hs Hn _; by apply H1 |]. intros w' Hs. rewrite (same_files _ _ Hs).
  destruct (w_files w !! p) as [f|] eqn:Ef; [by apply H2 |]. destruct (children p (w_files w)) eqn:Ec; [by apply H1 | by apply H3; rewrite ?Ec].
Qed.

(** No file is a directory at the same time. *)
Definition proper (files : gmap bytes file) : Prop := forall p r, is_Some (files !! p) -> files !! (p ++ slash :: r) = None.

Definition subtree (path q : bytes) : Prop := q = path \/ path ++ s_slash `prefix_of` q.

Section Clean.
Context (metaDir : bytes) (now maxAge : Z).
Abbreviation old f := (older_than now maxAge (f_mtime f) = true).

(** The directory or file of the elements [l] in the trash. *)
Definition tp (l : list bytes) : bytes := FpJoin (metaDir :: go "trash" :: l).

Lemma trash_normal l : Forall normal l -> Forall normal (go "trash" :: l).
Proof. intros Hl. constructor; [by_decide | done]. Qed.

Lemma tp_snoc l n : Forall normal l -> normal n -> FpJoin [tp l; n] = tp l ++ slash :: n /\ tp (l ++ [n]) = tp l ++ slash :: n.
Proof.
  intros Hl Hn. apply trash_normal in Hl. split; [by apply FpJoin_nested | by apply (FpJoin_snoc metaDir (go "trash" :: l))].
Qed.

Lemma under_subtree d k : k <> [] -> subtree d (under d k).
Proof. intros Hk. right. unfold under. exists (GoStr.Join s_slash k). by rewrite <- app_assoc. Qed.

Lemma subtree_sub d n q : subtree (d ++ slash :: n) q -> subtree d q.
Proof. intros [-> | [r ->]]; right; [exists n | exists (n ++ slash :: r)]; by rewrite <- !app_assoc. Qed.

Lemma under_single d n k : subtree (d ++ slash :: n) (under d (n :: k)).
Proof. destruct k as [|y k]; [by left |]. rewrite under_cons by done. by apply under_subtree. Qed.

(** Enough fuel for the tree below [d]. *)
Definition deep (fuel : nat) (d : bytes) (files : gmap bytes file) : Prop :=
  (0 < fuel)%nat /\ forall k f, Forall normal k -> files !! under d k = Some f -> (length k < fuel)%nat.

(** A file of a tidy tree is its root or lies below one of the entries. *)
Lemma tidy_subtree d files q f : tidy d files -> files !! q = Some f -> subtree d q -> q = d \/ exists n b, (n, b) ∈ children d files /\ subtree (d ++ slash :: n) q.
Proof.
  intros Ht Hf [-> | Hp]; [by left | right]. destruct (proj2 Ht q f Hf Hp) as ([|n k] & Hk & Hnk & ->); [done |]. apply Forall_cons in Hnk as [Hn Hnk].
  exists n, (match k with [] => false | _ => true end). split; [|apply under_single]. apply children_under; [done |]. split; [done |]. exists k, f. by destruct k.
Qed.

(** The part of [proper] and [deep] that removing files keeps. *)
Definition bounded (fuel : nat) (d : bytes) (files : gmap bytes file) : Prop :=
  proper files /\ forall k f, Forall normal k -> files !! under d k = Some f -> (length k < fuel)%nat.

Lemma pruned_bounded P w w' fuel d : pruned P w w' -> bounded fuel d (w_files w) -> bounded fuel d (w_files w').
Proof.
  intros Hp [Hprop Hd]. split; [|intros k f Hk Hf; by eapply Hd, pruned_sub]. intros p r [f Hf].
  destruct (w_files w' !! (p ++ slash :: r)) as [g|] eqn:Eg; [|done]. apply (pruned_sub _ _ _ _ _ Hp) in Eg, Hf. by rewrite (Hprop p r) in Eg.
Qed.

(** An entry of the tree needs one less. *)
Lemma bounded_entry fuel d files files' n b : tidy d files -> (n, b) ∈ children d files -> bounded (S fuel) d files -> bounded (S fuel) d files' ->
  proper files' /\ deep fuel (d ++ slash :: n) files'.
Proof.
  intros Ht Hin [_ Hd] [Hp' Hd']. split; [done |]. pose proof (proj1 (children_under _ _ _ _ Ht) Hin) as (Hn & k0 & f0 & Hk0 & Hf0 & _).
  assert (H0 : (0 < fuel)%nat) by (specialize (Hd (n :: k0) f0 ltac:(by constructor) Hf0); cbn in Hd; lia). split; [done |].
  intros k f Hk Hf. destruct k as [|y k]; [done |]. rewrite <- under_cons in Hf by done. specialize (Hd' (n :: y :: k) f ltac:(by constructor) Hf). cbn in *. lia.
Qed.

Lemma wp_walk_trash {E} fuel : forall (C : Prop) l w, Forall normal l -> tidy (tp l) (w_files w) -> (C -> calm w) -> (C -> proper (w_files w) /\ deep fuel (tp l) (w_files w)) ->
  wp (walk_trash (E := E) fuel now maxAge (tp l)) (cleans (fun q f => subtree (tp l) q /\ old f) C w) w.
Proof.
  induction fuel as [|fuel IH]; intros C l w Hl Ht HC HD; cbn [walk_trash].
  { wp_step. apply cleans_none; [done |]. intros HCC. destruct (HD HCC) as [_ [? _]]. lia. }
  assert (HB : C -> bounded (S fuel) (tp l) (w_files w)) by (intros HCC; destruct (HD HCC) as [? [_ ?]]; by split).
  do 2 wp_step. apply wp_Lstat; cbn beta iota.
  - intros e w1 Hs Hc. wp_step. apply cleans_none; [done |]. intros HCC q f Hf [Hq _]. destruct (Hc (HC HCC)) as (H1 & H2 & _).
    destruct (tidy_subtree _ _ q f Ht Hf Hq) as [-> | (n & b & Hin & _)]; [congruence |]. rewrite H2 in Hin. by apply elem_of_nil in Hin.
  - intros f w1 Hs Hf. eapply wp_mono; [apply (wp_remove_old now maxAge (tp l) f w1 C) |]; [intros HCC; by apply (same_faults _ _ Hs), HC | by rewrite (same_files _ _ Hs) |].
    intros r w2 Hcl. apply (cleans_same _ _ w w1) in Hcl; [|done]. eapply cleans_mono; [| |exact Hcl]; [intros q g [-> Ho]; split; [by left | done] |].
    intros HCC q g Hg [Hq Ho]. split; [|done]. destruct Hq as [-> | [r' ->]]; [done |]. destruct (HB HCC) as [Hprop _].
    rewrite <- app_assoc in Hg. cbn in Hg. rewrite (Hprop (tp l) r') in Hg; [done | by exists f].
  - intros w1 Hs Hnone Hne. do 2 wp_step. apply wp_ReadDir; cbn beta iota.
    { intros e w2 Hs2 Hc _. wp_step. apply cleans_none; [by etrans |]. intros HCC. destruct (Hc (same_faults _ _ Hs (HC HCC))) as [_ H2]. by rewrite (same_files _ _ Hs) in H2. }
    intros w2 Hs2. assert (S2 : same w w2) by (by etrans). rewrite (same_files _ _ Hs).
    eapply wp_mono; [apply (wp_sum_each _ (fun e q f => subtree (tp l ++ slash :: e.1) q /\ old f)
      (fun w' => tidy (tp l) (w_files w') /\ (C -> bounded (S fuel) (tp l) (w_files w'))) C) |].
    + intros [n b] w' Hin [Ht' HB'] HC'. cbn [fst]. pose proof (proj1 (children_under _ _ _ _ Ht) Hin) as [Hn _]. destruct (tp_snoc l n Hl Hn) as [-> <-].
      apply IH; [by apply Forall_app_2; [|apply Forall_singleton] | | done |]; destruct (tp_snoc l n Hl Hn) as [_ ->]; [by apply tidy_sub |].
      intros HCC. eapply bounded_entry; [exact Ht | exact Hin | by apply HB | by apply HB'].
    + intros Q w' w'' Hp [Ht' HB']. split; [by eapply pruned_tidy |]. intros HCC. eapply pruned_bounded; [exact Hp | by apply HB'].
    + rewrite (same_files _ _ S2). by split.
    + intros HCC. by apply (same_faults _ _ S2), HC.
    + intros r w3 Hcl. apply (cleans_same _ _ w w2) in Hcl; [|done]. eapply cleans_mono; [| |exact Hcl].
      * intros q f ([n b] & _ & Hq & Ho). split; [by eapply subtree_sub | done].
      * intros _ q f Hf [Hq Ho]. destruct (tidy_subtree _ _ q f Ht Hf Hq) as [-> | (n & b & Hin & Hn)]; [congruence |]. by exists (n, b).
Qed.
End Clean.

Lemma length_Join k : Forall normal k -> (length k <= length (GoStr.Join s_slash k))%nat.
Proof.
  intros Hk. induction Hk as [|n k Hn Hk IH]; [done |]. destruct n as [|c n]; [by destruct Hn |]. destruct k as [|m k]; [cbn; lia |].
  change (GoStr.Join s_slash ((c :: n) :: m :: k)) with ((c :: n) ++ slash :: GoStr.Join s_slash (m :: k)). rewrite length_app. cbn [length] in *. lia.
Qed.

Lemma deep_bound d files : deep (depth_bound files) d files.
Proof.
  unfold depth_bound. split; [lia |]. intros k f Hk Hf. assert (Hle : (length (under d k) <= max_list (length <$> (map_to_list files).*1))%nat).
  { apply max_list_elem_of_le, list_elem_of_fmap. exists (under d k). split; [done |]. apply list_elem_of_fmap. exists (under d k, f). split; [done |]. by apply elem_of_map_to_list. }
  pose proof (length_Join k Hk). unfold under in Hle. rewrite length_app in Hle. cbn [length] in Hle. lia.
Qed.

(** C27: emptying the trash removes only files of the trash that are older than
    the given age, whatever fails, and reports how many; without faults it
    removes all of them, however deep they lie. *)
Theorem clean_trash_exact {E} metaDir now maxAge w : tidy (trash_base metaDir) (w_files w) ->
  wp (CleanTrashManifests (E := E) metaDir now maxAge)
    (cleans (fun q f => subtree (trash_base metaDir) q /\ older_than now maxAge (f_mtime f) = true) (calm w /\ proper (w_files w)) w) w.
Proof.
  intros Ht. unfold CleanTrashManifests. do 2 wp_step. apply (wp_walk_trash metaDir now maxAge _ _ [] w); [constructor | done | by intros [] |].
  intros [_ Hp]. split; [done | apply deep_bound].
Qed.

(** ** Witnesses *)

Module TrashWitness.
Import Toy CollectWitness.

#[local] Existing Instance cw_json.

(** The trash is on a mount of its own. *)
#[local] Instance tw_mounts : Mounts := fun p => if HasPrefix p (go "/r/trash") then 1 else 0.

Definition ts : bytes := go "2026-01-02T03:04:05Z".
Definition id42 : bytes := go "dev1/42".
Definition name : bytes := go "100_dev1.json.zst".
Lemma id_ok : validateCloudID id42 = None.
Proof. vm_compute. reflexivity. Qed.

(** The disk fails in the middle of the copy. *)
Definition failing : world := World (w_files repo) [None; None; None; None; None; None; None; Some (Fault false 3)] [] 5 0.

Lemma trash_never_loses_witness : moved (go "/r") id42 failing (TrashManifest None (go "/r") id42 ts (go "dev1") failing).2 /\
  is_Some (w_files (TrashManifest None (go "/r") id42 ts (go "dev1") failing).2 !! at_src (go "/r") id42 name).
Proof.
  assert (Hd : w_files failing !! src_dir (go "/r") id42 = None) by (vm_compute; reflexivity).
  destruct (trash_never_loses (go "/r") id42 id_ok None ts (go "dev1") failing Hd) as [H _]. split; [exact H |].
  assert (E : bool_decide (is_Some (w_files (TrashManifest None (go "/r") id42 ts (go "dev1") failing).2 !! at_src (go "/r") id42 name)) = true) by (vm_compute; reflexivity).
  exact (bool_decide_eq_true_1 _ E).
Defined.

Lemma trash_manifest_exact_witness : exists n, w_files (TrashManifest None (go "/r") id42 ts (go "dev1") repo).2 !! at_src (go "/r") id42 n = None /\
  exists m, load_file None (w_files (TrashManifest None (go "/r") id42 ts (go "dev1") repo).2) (at_dst (go "/r") id42 n) = Ok m /\ is_it ts (go "dev1") m.
Proof.
  destruct (trash_manifest_exact (go "/r") id42 id_ok None ts (go "dev1") repo calm_repo) as [_ [(n & m & Hf & _ & Hn & Hl & _) | (_ & Hr & _)]].
  - exists n. split; [exact Hn |]. exists m. split; [exact Hl |]. destruct Hf as (pre & post & _ & _ & Hi & _). exact Hi.
  - assert (E : is_ok (TrashManifest None (go "/r") id42 ts (go "dev1") repo).1 = true) by (vm_compute; reflexivity). rewrite E in Hr. discriminate Hr.
Defined.

Lemma delete_manifest_exact_witness : exists n, w_files (DeleteManifest None (go "/r") id42 ts (go "dev1") repo).2 =
  delete (at_src (go "/r") id42 n) (delete (at_src (go "/r") id42 (n ++ go ".sha256")) (w_files repo)).
Proof.
  destruct (delete_manifest_exact (go "/r") id42 id_ok None ts (go "dev1") repo) as [_ H]. destruct (H calm_repo) as [(n & m & _ & _ & Hw) | (_ & Hr)].
  - exists n. exact Hw.
  - assert (E : is_ok (DeleteManifest None (go "/r") id42 ts (go "dev1") repo).1 = true) by (vm_compute; reflexivity). rewrite E in Hr. discriminate Hr.
Defined.

Definition full : world := World {[
  go "/r/trash/dev1/42/100_dev1.json.zst" := File (go "old") 9;
  go "/r/trash/dev1/42/200_dev1.json.zst" := File (go "new") 90 ]} [] [] 100 0.

Lemma full_tidy : tidy (trash_base (go "/r")) (w_files full).
Proof.
  split; [vm_compute; reflexivity |]. change (trash_base (go "/r")) with (go "/r/trash"). intros p f Hp _. unfold full, w_files in Hp.
  rewrite lookup_insert_Some, lookup_singleton_Some in Hp. destruct Hp as [[<- _] | [_ [<- _]]].
  - exists [go "dev1"; go "42"; go "100_dev1.json.zst"]. split; [done |]. split; [by_decide | vm_compute; reflexivity].
  - exists [go "dev1"; go "42"; go "200_dev1.json.zst"]. split; [done |]. split; [by_decide | vm_compute; reflexivity].
Qed.

Lemma clean_trash_exact_witness : (CleanTrashManifests (E := terr) (go "/r") 100 50 full).1 = Ok 1 /\
  pruned (fun q f => subtree (go "/r/trash") q /\ older_than 100 50 (f_mtime f) = true) full (CleanTrashManifests (E := terr) (go "/r") 100 50 full).2.
Proof.
  destruct (clean_trash_exact (E := terr) (go "/r") 100 50 full full_tidy) as [H _]. split; [vm_compute; reflexivity | exact H].
Defined.
(** On one mount the age counts from when the manifest was written: a snapshot
    can be purged by the first cleaning after it was trashed. *)
Example fresh_trash_purged :
  let moved := (TrashManifest (MO := fun _ => 0) None (go "/r") id42 ts (go "dev1") repo).2 in
  is_Some (w_files moved !! at_dst (go "/r") id42 name) /\ (CleanTrashManifests (E := terr) (go "/r") 100 50 moved).1 = Ok 1.
Proof. split; [by_decide | vm_compute; reflexivity]. Qed.
End TrashWitness.
