(* ===== verification/RegList.v ===== *)
(** RegList: listing the source registries ([ListSourceRegistries] and the
    errors it reports, of [simple/manifest.go]).

    [filepath.Walk] is written out for a tree of files and directories, with the
    bound of [Trash] on the depth; the walk function never skips a directory.
    The Go function returns the registries together with an error that lists
    those that failed to load; here it returns both lists, and no failure stands
    for the nil error. *)

From S2P Require Import Prelude GoStr Externs Compress Crypto Stream FS Manifest CloudID ManifestIO Ignore PipeFile Scan Collect Registry Trash.
From stdpp Require Import base list gmap strings.
From Stdlib.Strings Require Import Byte.
Local Open Scope Z_scope.

Record SourceRegistryLoadFailure := LoadFailure { lf_CloudID : bytes; lf_Path : bytes; lf_Err : regerr }.

Inductive listerr := WalkFailed (e : oserr).

(** The texts of the errors; [text] is [%v] of the error itself. *)
Definition failure_String (text : regerr -> bytes) (f : SourceRegistryLoadFailure) : bytes :=
  if eqs (lf_Path f) [] then lf_CloudID f ++ go ": " ++ text (lf_Err f)
  else lf_CloudID f ++ go " (" ++ lf_Path f ++ go "): " ++ text (lf_Err f).

Definition load_error (text : regerr -> bytes) (fs : list SourceRegistryLoadFailure) : bytes :=
  match fs with
  | [f] => go "1 source registry failed to load: " ++ failure_String text f
  | _ => FormatInt (Z.of_nat (length fs)) ++ go " source registries failed to load: " ++ GoStr.Join (go "; ") (failure_String text <$> fs)
  end.

Section Ops.
Context `{ZS : Zstd, SH : Sha256} `{J : RegJson}.

Definition listing : Type := list SourceRegistry * list SourceRegistryLoadFailure.
Definition append (a b : listing) : listing := (a.1 ++ b.1, a.2 ++ b.2).

(** The walk function on a file. *)
Definition visit (metaDir dir path : bytes) : eff world listerr listing :=
  if negb (HasSuffix path jsonZst) then mret ([], [])
  else
    match Rel dir path with
    | None => mret ([], [])
    | Some rel =>
        let cloudID := TrimSuffix rel jsonZst in
        r ← attempt (LoadSourceRegistry metaDir cloudID);
        match r with
        | Ok reg => mret ([reg], [])
        | Err e => mret ([], [LoadFailure cloudID path e])
        end
    end.

(** The walk function on an error. *)
Definition walk_error (e : oserr) : eff world listerr listing :=
  match e with ENOENT => mret ([], []) | _ => throw (WalkFailed e) end.

Fixpoint each {A} (f : A -> eff world listerr listing) (l : list A) : eff world listerr listing :=
  match l with
  | [] => mret ([], [])
  | a :: rest => x ← f a; y ← each f rest; mret (append x y)
  end.

Fixpoint walk_regs (fuel : nat) (metaDir dir path : bytes) : eff world listerr listing :=
  match fuel with
  | O => mret ([], [])
  | S fuel' =>
      i ← attempt (Lstat path);
      match i with
      | Err e => walk_error e
      | Ok (Some _) => visit metaDir dir path
      | Ok None =>
          names ← attempt (ReadDir path);
          match names with
          | Err e => walk_error e
          | Ok entries => each (fun e => walk_regs fuel' metaDir dir (FpJoin [path; e.1])) entries
          end
      end
  end.

Definition ListSourceRegistries (metaDir : bytes) : eff world listerr listing :=
  let dir := sourceRegistriesDir metaDir in
  fuel ← gets (fun w => depth_bound (w_files w));
  walk_regs fuel metaDir dir dir.
End Ops.

(** * Facts *)

Section Facts.
Context `{ZS : Zstd, SH : Sha256} `{J : RegJson}.
Context (metaDir : bytes).
Abbreviation dir := (sourceRegistriesDir metaDir).

(** The file or directory of the elements [l] among the registries. *)
Definition rp (l : list bytes) : bytes := FpJoin (metaDir :: go "manifests" :: go "_sources" :: l).

Lemma below_normal l : Forall normal l -> Forall normal (go "manifests" :: go "_sources" :: l).
Proof. intros Hl. repeat constructor; try by_decide. done. Qed.

Lemma rp_snoc l n : Forall normal l -> normal n -> FpJoin [rp l; n] = rp l ++ slash :: n /\ rp (l ++ [n]) = rp l ++ slash :: n.
Proof.
  intros Hl Hn. apply below_normal in Hl. split; [by apply FpJoin_nested | by apply (FpJoin_snoc metaDir (go "manifests" :: go "_sources" :: l))].
Qed.

Lemma rp_joined l : Forall normal l -> l <> [] -> rp l = FpJoin (dir :: l) /\ rp l = under dir l.
Proof.
  intros Hn Hl. assert (E : rp l = FpJoin (dir :: l)).
  { unfold rp. rewrite !FpJoin_normal by (done || by apply below_normal). unfold sourceRegistriesDir.
    destruct (root_joined metaDir [go "manifests"; go "_sources"] ltac:(done) (below_normal [] ltac:(constructor))) as [-> ->]. by rewrite <- app_assoc. }
  split; [done |]. clear E. induction l as [|x l IH] using rev_ind; [done |]. apply Forall_app in Hn as [Hn Hx]. apply Forall_cons in Hx as [Hx _].
  destruct (rp_snoc l x Hn Hx) as [_ ->].
  destruct l as [|y l]; [done |]. rewrite (IH Hn) by done. unfold under, s_slash. rewrite Join_snoc by done. by rewrite <- app_assoc.
Qed.

Lemma Rel_registry k : k <> [] -> Forall normal k -> Rel dir (under dir k) = Some (GoStr.Join s_slash k).
Proof. intros Hk Hn. destruct (rp_joined k Hn Hk) as [E1 E2]. rewrite <- E2, E1. by apply Rel_joined. Qed.

(** What loading gives when nothing fails. *)
Definition load_registry (files : gmap bytes file) (cloudID : bytes) : result regerr SourceRegistry :=
  match validateCloudID cloudID with
  | Some e => Err (GCloudID e)
  | None =>
      match files !! registry_path metaDir cloudID with
      | None => Err (GRead ENOENT)
      | Some f =>
          reg ← DecodeSourceRegistry (f_data f);
          if eqs (r_CloudID reg) cloudID then Ok reg else Err (GIdentity (r_CloudID reg))
      end
  end.

Lemma wp_load cloudID w : calm w -> wp (LoadSourceRegistry metaDir cloudID) (fun r w' => same w w' /\ r = load_registry (w_files w) cloudID) w.
Proof.
  intros Hc. unfold LoadSourceRegistry, load_registry. destruct (validateCloudID cloudID); [by wp_step |]. do 2 wp_step. apply wp_ReadFile.
  - intros e w' Hs He Hce. specialize (Hce Hc). subst e. rewrite (He eq_refl). done.
  - intros f w' Hs ->. cbn beta iota. destruct (DecodeSourceRegistry _) as [reg|e]; cbn [mbind result_bind]; [destruct (eqs _ _) |]; by wp_step.
Qed.

Definition visited (files : gmap bytes file) (path : bytes) : listing :=
  if negb (HasSuffix path jsonZst) then ([], [])
  else match Rel dir path with
       | None => ([], [])
       | Some rel =>
           match load_registry files (TrimSuffix rel jsonZst) with
           | Ok reg => ([reg], [])
           | Err e => ([], [LoadFailure (TrimSuffix rel jsonZst) path e])
           end
       end.

Lemma wp_visit_reg path w : calm w -> wp (visit metaDir dir path) (fun r w' => same w w' /\ r = Ok (visited (w_files w) path)) w.
Proof.
  intros Hc. unfold visit, visited. destruct (negb _); [by wp_step |]. destruct (Rel dir path) as [rel|]; [|by wp_step]. cbv zeta. do 2 wp_step.
  eapply wp_mono; [by apply wp_load |]. intros r w' [Hs ->]. cbn beta iota. destruct (load_registry _ _); by wp_step.
Qed.

Definition gather (files : gmap bytes file) (qs : list bytes) : listing := foldr (fun q x => append (visited files q) x) ([], []) qs.

Lemma gather_app files a b : gather files (a ++ b) = append (gather files a) (gather files b).
Proof.
  induction a as [|q a IH]; [exact (surjective_pairing (gather files b)) |].
  change (append (visited files q) (gather files (a ++ b)) = append (append (visited files q) (gather files a)) (gather files b)).
  rewrite IH. unfold append. cbn. by rewrite !app_assoc.
Qed.

(** The listing of some paths, each of them having the property [R]. *)
Definition lists (R : bytes -> Prop) (w : world) (r : result listerr listing) (w' : world) : Prop :=
  same w w' /\ exists qs, r = Ok (gather (w_files w) qs) /\ forall q, q ∈ qs <-> R q.

Lemma wp_each {A} (f : A -> eff world listerr listing) (R : A -> bytes -> Prop) l : forall w, calm w ->
  (forall a w', a ∈ l -> same w w' -> wp (f a) (lists (R a) w') w') -> wp (each f l) (lists (fun q => exists a, a ∈ l /\ R a q) w) w.
Proof.
  induction l as [|a l IH]; intros w Hc Hf; cbn [each].
  - wp_step. split; [done |]. exists []. split; [done |]. intros q. split; [by intros ?%elem_of_nil | by intros (? & ?%elem_of_nil & _)].
  - wp_step. eapply wp_mono; [apply (Hf a w); [by left | done] |]. intros r w1 [Hs1 (qs & -> & Hq)]. cbn beta iota. wp_step.
    eapply wp_mono; [apply (IH w1); [by apply (same_faults _ _ Hs1) |] |].
    { intros b w' Hb Hs'. apply Hf; [by right | by etrans]. }
    intros r w2 [Hs2 (qs2 & -> & Hq2)]. cbn beta iota. wp_step. split; [by etrans |]. exists (qs ++ qs2). rewrite (same_files _ _ Hs1), gather_app. split; [done |].
    intros q. rewrite elem_of_app, Hq, Hq2. split.
    + intros [H | (b & Hb & H)]; [exists a; split; [by left | done] | exists b; split; [by right | done]].
    + intros (b & [-> | Hb]%elem_of_cons & H); [by left | right; by exists b].
Qed.

Lemma wp_walk_regs fuel : forall l w, calm w -> Forall normal l -> tidy (rp l) (w_files w) -> proper (w_files w) -> deep fuel (rp l) (w_files w) ->
  wp (walk_regs fuel metaDir dir (rp l)) (lists (fun q => is_Some (w_files w !! q) /\ subtree (rp l) q) w) w.
Proof.
  induction fuel as [|fuel IH]; intros l w Hc Hl Ht Hp Hd; [destruct Hd; lia |]. cbn [walk_regs]. do 2 wp_step. apply wp_Lstat; cbn beta iota.
  - intros e w1 Hs He. destruct (He Hc) as (H1 & H2 & ->). cbn [walk_error]. wp_step. split; [done |]. exists []. split; [done |].
    intros q. split; [by intros ?%elem_of_nil |]. intros [[f Hf] Hq]. destruct (tidy_subtree _ _ q f Ht Hf Hq) as [-> | (n & b & Hin & _)]; [congruence |].
    rewrite H2 in Hin. by apply elem_of_nil in Hin.
  - intros f w1 Hs Hf. eapply wp_mono; [apply wp_visit_reg; by apply (same_faults _ _ Hs) |]. intros r w2 [Hs2 ->]. split; [by etrans |].
    exists [rp l]. rewrite (same_files _ _ Hs). split; [by cbn; destruct (visited _ _) as [a b]; unfold append; cbn; rewrite !app_nil_r |].
    intros q. rewrite list_elem_of_singleton. split; [intros ->; split; [by eexists | by left] |]. intros [[g Hg] [-> | [r' ->]]]; [done |].
    rewrite <- app_assoc in Hg. cbn in Hg. rewrite (Hp (rp l) r') in Hg; [done | by exists f].
  - intros w1 Hs Hnone Hne. do 2 wp_step. apply wp_ReadDir; cbn beta iota.
    { intros e w2 Hs2 He _. destruct (He (same_faults _ _ Hs Hc)) as [_ H2]. rewrite (same_files _ _ Hs) in H2. done. }
    intros w2 Hs2. assert (S2 : same w w2) by (by etrans). rewrite (same_files _ _ Hs).
    eapply wp_mono; [apply (wp_each _ (fun e q => is_Some (w_files w !! q) /\ subtree (rp l ++ slash :: e.1) q)); [by apply (same_faults _ _ S2) |] |].
    + intros [n b] w' Hin Hs'. cbn [fst]. pose proof (proj1 (children_under _ _ _ _ Ht) Hin) as [Hn _]. destruct (rp_snoc l n Hl Hn) as [-> <-].
      assert (S' : same w w') by (by etrans). eapply wp_mono; [apply IH |]; rewrite ?(same_files _ _ S').
      * by apply (same_faults _ _ S').
      * by apply Forall_app_2; [|apply Forall_singleton].
      * destruct (rp_snoc l n Hl Hn) as [_ ->]. by apply tidy_sub.
      * done.
      * destruct (rp_snoc l n Hl Hn) as [_ ->]. destruct Hd as [_ Hd]. eapply bounded_entry; [exact Ht | exact Hin | by split | by split].
      * done.
    + intros r w3 [Hs3 (qs & -> & Hq)]. split; [by etrans |]. exists qs. rewrite (same_files _ _ S2). split; [done |].
      intros q. rewrite Hq. split.
      * intros ([n b] & _ & H1 & H2). split; [done | by eapply subtree_sub].
      * intros [[f Hf] Hs']. destruct (tidy_subtree _ _ q f Ht Hf Hs') as [-> | (n & b & Hin & Hn)]; [congruence |]. exists (n, b). split; [done |]. split; [by exists f | done].
Qed.

Lemma gather_elem files qs : (forall reg, reg ∈ (gather files qs).1 <-> exists q, q ∈ qs /\ reg ∈ (visited files q).1) /\
  (forall x, x ∈ (gather files qs).2 <-> exists q, q ∈ qs /\ x ∈ (visited files q).2).
Proof.
  induction qs as [|q qs [IH1 IH2]].
  - split; (intros y; split; [by intros ?%elem_of_nil | by intros (? & ?%elem_of_nil & _)]).
  - split; intros y; cbn [gather foldr append fst snd]; fold (gather files qs); rewrite elem_of_app, ?IH1, ?IH2; (split;
      [intros [H | (z & Hz & H)]; [exists q; split; [by left | done] | exists z; split; [by right | done]] |
       intros (z & [-> | Hz]%elem_of_cons & H); [by left | right; by exists z]]).
Qed.

(** What a listing promises: every registry file among the source registries is
    accounted for, by its registry or by a failure that names it. *)
Definition accounted (files : gmap bytes file) (regs : list SourceRegistry) (fails : list SourceRegistryLoadFailure) : Prop :=
  (forall k c, k <> [] -> Forall normal k -> is_Some (files !! under dir k) -> GoStr.Join s_slash k = c ++ jsonZst ->
     match load_registry files c with Ok reg => reg ∈ regs | Err e => LoadFailure c (under dir k) e ∈ fails end) /\
  (forall reg, reg ∈ regs -> exists c, load_registry files c = Ok reg) /\
  (forall x, x ∈ fails -> load_registry files (lf_CloudID x) = Err (lf_Err x) /\ is_Some (files !! lf_Path x)).

Lemma TrimSuffix_app a b : TrimSuffix (a ++ b) b = a.
Proof.
  unfold TrimSuffix, HasSuffix. rewrite bool_decide_true by (by eexists). rewrite length_app.
  replace (length a + length b - length b)%nat with (length a) by lia. by rewrite take_app_length.
Qed.

Lemma gather_accounted files qs : (forall q, q ∈ qs <-> is_Some (files !! q) /\ subtree dir q) ->
  accounted files (gather files qs).1 (gather files qs).2.
Proof.
  intros Hq. destruct (gather_elem files qs) as [H1 H2]. split_and!.
  - intros k c Hk Hn Hf E. assert (Hin : under dir k ∈ qs).
    { apply Hq. split; [done |]. right. exists (GoStr.Join s_slash k). unfold under. by rewrite <- app_assoc. }
    assert (Ev : visited files (under dir k) = match load_registry files c with Ok reg => ([reg], []) | Err e => ([], [LoadFailure c (under dir k) e]) end).
    { unfold visited. rewrite Rel_registry, E, TrimSuffix_app by done. unfold HasSuffix. rewrite bool_decide_true; [done |].
      exists (dir ++ slash :: c). unfold under. rewrite E. by rewrite <- app_assoc. }
    destruct (load_registry files c) as [reg|e]; [apply H1 | apply H2]; exists (under dir k); (split; [done |]); rewrite Ev; by left.
  - intros reg (q & _ & Hr)%H1. unfold visited in Hr. destruct (negb _); [by apply elem_of_nil in Hr |]. destruct (Rel dir q) as [rel|]; [|by apply elem_of_nil in Hr].
    destruct (load_registry files _) as [reg'|e] eqn:El; [|by apply elem_of_nil in Hr]. apply list_elem_of_singleton in Hr as ->. by eexists.
  - intros x (q & Hin & Hr)%H2. unfold visited in Hr. destruct (negb _); [by apply elem_of_nil in Hr |]. destruct (Rel dir q) as [rel|]; [|by apply elem_of_nil in Hr].
    destruct (load_registry files _) as [reg'|e] eqn:El; [by apply elem_of_nil in Hr |]. apply list_elem_of_singleton in Hr as ->. split; [done |]. by apply Hq.
Qed.

(** C37: when nothing fails, listing the source registries leaves none out: each
    registry file, however deep it lies, gives its registry or a failure that
    names it, so a damaged registry is never taken for a missing source; and
    nothing is listed that is not there. *)
Theorem registries_listed w : calm w -> proper (w_files w) -> tidy dir (w_files w) ->
  wp (ListSourceRegistries metaDir) (fun r w' => same w w' /\ exists regs fails, r = Ok (regs, fails) /\ accounted (w_files w) regs fails) w.
Proof.
  intros Hc Hp Ht. unfold ListSourceRegistries. do 2 wp_step.
  eapply wp_mono; [apply (wp_walk_regs _ []); [done | constructor | exact Ht | done | apply deep_bound] |].
  intros r w' [Hs (qs & -> & Hq)]. split; [done |]. exists (gather (w_files w) qs).1, (gather (w_files w) qs).2.
  split; [by destruct (gather _ _) | by apply gather_accounted].
Qed.
End Facts.

Module ListWitness.
Import Toy RegistryWitness.
#[local] Existing Instance toy_reg.

(** A registry that loads, and a damaged one. *)
Definition shelf : world := World {[
  registry_path (go "/r") (go "dev1/42") := File (EncodeSourceRegistry (reg_of 1 3)) 7;
  registry_path (go "/r") (go "dev1/7") := File (go "damaged") 7 ]} [] [] 5 0.

Lemma shelf_files p f : w_files shelf !! p = Some f -> p = go "/r/manifests/_sources/dev1/42.json.zst" \/ p = go "/r/manifests/_sources/dev1/7.json.zst".
Proof.
  unfold shelf, w_files. rewrite lookup_insert_Some, lookup_singleton_Some. intros [[<- _] | [_ [<- _]]]; [left | right]; vm_compute; reflexivity.
Qed.

Lemma shelf_tidy : tidy (sourceRegistriesDir (go "/r")) (w_files shelf).
Proof.
  split; [vm_compute; reflexivity |]. intros p f [-> | ->]%shelf_files _.
  - exists [go "dev1"; go "42.json.zst"]. split; [done |]. split; [by_decide | vm_compute; reflexivity].
  - exists [go "dev1"; go "7.json.zst"]. split; [done |]. split; [by_decide | vm_compute; reflexivity].
Qed.

Lemma shelf_proper : proper (w_files shelf).
Proof.
  intros p r [f Hp]. destruct (w_files shelf !! (p ++ slash :: r)) as [g|] eqn:E; [|done]. exfalso.
  destruct (shelf_files _ _ Hp) as [-> | ->], (shelf_files _ _ E) as [E' | E']; by discriminate E'.
Qed.

Lemma registries_listed_witness : exists regs fails, (ListSourceRegistries (go "/r") shelf).1 = Ok (regs, fails) /\
  reg_of 1 3 ∈ regs /\ exists e, LoadFailure (go "dev1/7") (go "/r/manifests/_sources/dev1/7.json.zst") e ∈ fails.
Proof.
  destruct (registries_listed (go "/r") shelf (conj eq_refl eq_refl) shelf_proper shelf_tidy) as (_ & regs & fails & E & Hin & _). exists regs, fails. split; [exact E |]. split.
  - specialize (Hin [go "dev1"; go "42.json.zst"] (go "dev1/42") ltac:(discriminate) ltac:(by_decide) ltac:(eexists; vm_compute; reflexivity) ltac:(vm_compute; reflexivity)).
    assert (El : load_registry (go "/r") (w_files shelf) (go "dev1/42") = Ok (reg_of 1 3)) by (vm_compute; reflexivity). rewrite El in Hin. exact Hin.
  - specialize (Hin [go "dev1"; go "7.json.zst"] (go "dev1/7") ltac:(discriminate) ltac:(by_decide) ltac:(eexists; vm_compute; reflexivity) ltac:(vm_compute; reflexivity)).
    destruct (load_registry (go "/r") (w_files shelf) (go "dev1/7")) as [reg|e] eqn:El; [vm_compute in El; discriminate El |]. exists e. exact Hin.
Defined.
End ListWitness.
