(* ===== verification/Config.v ===== *)
(** Config: the repository's configuration file ([simple/config.go]), its
    initialisation and recognition ([simple/init.go], [simple/format_detect.go])
    and the chunking polynomial it keeps ([LoadCDCPolynomial] to
    [GenerateCDCPolynomial] of [simple/chunk_cdc.go]).

    [encoding/json] is the parameter [CfgJson].  [chunker.DerivePolynomial] is
    third-party: its draw is an argument, [None] when it fails. *)

From S2P Require Import Prelude GoStr Ignore FS.
From stdpp Require Import base list gmap strings.
From Stdlib.Strings Require Import Byte.
Local Open Scope Z_scope.

Record RepoConfig := MkConfig {
  cf_Version : Z; cf_Format : bytes; cf_RepositoryID : bytes; cf_Encrypted : bool; cf_HashAlgorithm : bytes;
  cf_CipherAlgorithm : bytes; cf_ChunkSize : Z; cf_DisableCDC : bool; cf_CDCPolynomial : Z; cf_Created : bytes; cf_DeviceID : bytes
}.

Class CfgJson := {
  cfg_marshal : RepoConfig -> bytes;
  cfg_unmarshal : bytes -> option RepoConfig
}.

Class CfgJsonSpec (J : CfgJson) := {
  cfg_text : RepoConfig -> Prop;
  cfg_roundtrip c : cfg_text c -> cfg_unmarshal (cfg_marshal c) = Some c
}.

Definition FormatGBF : bytes := go "gbf".
Definition FormatGBLegacy : bytes := go "gb".
Definition DefaultChunkSize : Z := 4 * 1024 * 1024.
Definition DefaultHashAlgo : bytes := go "sha256".
Definition DefaultCipherAlgo : bytes := go "aes-256-gcm".
Definition ConfigVersion : Z := 1.
Definition MetaDirName : bytes := go ".ginkgo-backup".

Definition MetaDir (repoRoot : bytes) : bytes := FpJoin [repoRoot; MetaDirName].
Definition ConfigPath (repoRoot : bytes) : bytes := FpJoin [MetaDir repoRoot; go "config.json"].
Definition ManifestsDir (metaDir : bytes) : bytes := FpJoin [metaDir; go "manifests"].

(** [id] is the new identifier, [now] the formatted time. *)
Definition DefaultConfig (id now deviceID : bytes) : RepoConfig :=
  MkConfig ConfigVersion FormatGBF id false DefaultHashAlgo DefaultCipherAlgo DefaultChunkSize false 0 now deviceID.

Definition set_pol (pol : Z) (c : RepoConfig) : RepoConfig :=
  MkConfig (cf_Version c) (cf_Format c) (cf_RepositoryID c) (cf_Encrypted c) (cf_HashAlgorithm c) (cf_CipherAlgorithm c)
    (cf_ChunkSize c) (cf_DisableCDC c) pol (cf_Created c) (cf_DeviceID c).

Definition set_encrypted (c : RepoConfig) : RepoConfig :=
  MkConfig (cf_Version c) (cf_Format c) (cf_RepositoryID c) true (cf_HashAlgorithm c) (cf_CipherAlgorithm c)
    (cf_ChunkSize c) (cf_DisableCDC c) (cf_CDCPolynomial c) (cf_Created c) (cf_DeviceID c).

Inductive cfgerr :=
| CfgRead (e : oserr) | CfgUnmarshal | CfgWrite (e : oserr) | CfgMkdir (e : oserr) | CfgDerive | CfgInitialised.

Section Ops.
Context `{U : Uuid} `{J : CfgJson}.

Definition SaveConfig (repoRoot : bytes) (cfg : RepoConfig) : eff world cfgerr unit :=
  wrap_err CfgWrite (WriteFileAtomic (ConfigPath repoRoot) (cfg_marshal cfg)).

Definition LoadConfig (repoRoot : bytes) : eff world cfgerr RepoConfig :=
  data ← wrap_err CfgRead (ReadFile (ConfigPath repoRoot));
  match cfg_unmarshal data with Some cfg => mret cfg | None => throw CfgUnmarshal end.

Definition IsGBRepo {E} (repoRoot : bytes) : eff world E bool :=
  r ← attempt (LoadConfig repoRoot);
  let known := match r with Ok cfg => eqs (cf_Format cfg) FormatGBF || eqs (cf_Format cfg) FormatGBLegacy | Err _ => false end in
  if known then mret true
  else
    l ← attempt (ReadDir (ManifestsDir (MetaDir repoRoot)));
    mret (match l with Ok (_ :: _) => true | _ => false end).

Definition GenerateCDCPolynomial (draw : option Z) : result cfgerr Z :=
  match draw with Some pol => Ok pol | None => Err CfgDerive end.

Fixpoint mkdirs (dirs : list bytes) : eff world cfgerr unit :=
  match dirs with
  | [] => mret tt
  | d :: ds => _ ← wrap_err CfgMkdir (MkdirAll d); mkdirs ds
  end.

Definition InitRepo (repoRoot deviceID now : bytes) (draw : option Z) : eff world cfgerr unit :=
  b ← IsGBRepo repoRoot;
  if (b : bool) then throw CfgInitialised
  else
    let metaDir := MetaDir repoRoot in
    _ ← mkdirs [metaDir; metaDir ++ go "/manifests"; repoRoot ++ go "/gb"];
    id ← new_uuid;
    match GenerateCDCPolynomial draw with
    | Err e => throw e
    | Ok pol => SaveConfig repoRoot (set_pol pol (DefaultConfig id now deviceID))
    end.

Definition LoadCDCPolynomial (repoRoot : bytes) (draw : option Z) : eff world cfgerr Z :=
  cfg ← LoadConfig repoRoot;
  if cf_CDCPolynomial cfg =? 0 then
    match GenerateCDCPolynomial draw with
    | Err e => throw e
    | Ok pol => _ ← SaveConfig repoRoot (set_pol pol cfg); mret pol
    end
  else mret (cf_CDCPolynomial cfg).

(** [LoadCDCPolynomialFromConfig] and [SetCDCPolynomial]: the new value of the
    global, unless loading fails. *)
Definition LoadCDCPolynomialFromConfig (repoRoot : bytes) (draw : option Z) : eff world cfgerr Z := LoadCDCPolynomial repoRoot draw.

Inductive RepoFormat := RepoFormatUnknown | RepoFormatGBF.

Definition DetectRepoFormat {E} (repoRoot : bytes) : eff world E RepoFormat :=
  r ← attempt (Stat (FpJoin [repoRoot; MetaDirName; go "config.json"]));
  match r with
  | Ok _ => b ← IsGBRepo repoRoot; mret (if (b : bool) then RepoFormatGBF else RepoFormatUnknown)
  | Err _ => mret RepoFormatUnknown
  end.
End Ops.

(** ** The other exclusion check *)

(** [filepath.Match], which on Linux is [path.Match]. *)
Definition matched (pattern name : bytes) : bool := match Match pattern name with Some true => true | _ => false end.

Definition matchGlob (pattern path : bytes) : bool :=
  if eqs pattern path then true
  else if HasPrefix pattern (go "**/") &&
          (let suffix := drop 3 pattern in
           HasSuffix path (s_slash ++ suffix) || eqs path suffix || Contains path (s_slash ++ suffix ++ s_slash)) then true
  else if HasSuffix pattern (go "/**") &&
          (let prefix := take (length pattern - 3) pattern in HasPrefix path (prefix ++ s_slash) || eqs path prefix) then true
  else if match Index pattern ds with
          | Some i => HasPrefix path (take i pattern) && HasSuffix path (drop (i + 2) pattern)
          | None => false
          end then true
  else matched pattern (Base path) || matched pattern path || HasPrefix path pattern.

Definition MatchExclude (relPath : bytes) (excludes : list bytes) : bool := existsb (fun pattern => matchGlob pattern relPath) excludes.

(** * Facts *)

Section Facts.
Context `{U : Uuid} `{J : CfgJson} `{JS : !CfgJsonSpec J}.

(** The configuration file as it would be read. *)
Definition stored_config (repoRoot : bytes) (w : world) : option RepoConfig :=
  w_files w !! ConfigPath repoRoot ≫= fun f => cfg_unmarshal (f_data f).

Lemma wp_LoadConfig repoRoot Q w :
  (forall e w', same w w' -> (calm w -> stored_config repoRoot w = None) -> Q (Err e) w') ->
  (forall c w', same w w' -> stored_config repoRoot w = Some c -> Q (Ok c) w') -> wp (LoadConfig repoRoot) Q w.
Proof.
  intros H1 H2. unfold LoadConfig, stored_config in *. do 2 wp_step. apply wp_ReadFile.
  - intros e w' Hs He Hc. apply H1; [done |]. intros Hcw. by rewrite (He (Hc Hcw)).
  - intros f w' Hs Hf. cbn beta iota. rewrite Hf in H1, H2. cbn in H1, H2. destruct (cfg_unmarshal (f_data f)) as [c|]; wp_step; auto.
Qed.

(** Every file but [path] and its staging names is as it was. *)
Definition untouched (path : bytes) (w w' : world) : Prop :=
  forall q, q <> path -> (forall u, q <> staging_name path u) -> w_files w' !! q = w_files w !! q.

#[export] Instance untouched_preorder path : PreOrder (untouched path).
Proof. split; [by intros w q |]. intros x y z H1 H2 q Hq Hu. by rewrite H2, H1. Qed.
Lemma same_untouched path w w' : same w w' -> untouched path w w'.
Proof. intros [H _] q _ _. by rewrite H. Qed.

(** An atomic write as its callers see it. *)
Lemma wp_atomic path data Q w :
  (forall e w', untouched path w w' -> (w_files w' !! path = w_files w !! path \/ f_data <$> w_files w' !! path = Some data) -> ~ calm w -> Q (Err e) w') ->
  (forall w', untouched path w w' -> f_data <$> w_files w' !! path = Some data -> (calm w -> calm w') -> Q (Ok tt) w') ->
  wp (WriteFileAtomic path data) Q w.
Proof.
  intros H1 H2. eapply wp_mono; [apply wp_WriteFileAtomic |]. intros r w' [(Ho & (u & Hfr & Hok) & Hc) Hcc].
  assert (Hu : untouched path w w') by (intros q Hq Hs; by apply Hfr).
  destruct r as [[]|e]; [apply H2; [done | by apply Hok | done] |]. apply H1; [done | done |]. intros E. by apply Hc in E.
Qed.

Lemma wp_SaveConfig repoRoot c Q w : cfg_text c ->
  (forall e w', untouched (ConfigPath repoRoot) w w' ->
     (w_files w' !! ConfigPath repoRoot = w_files w !! ConfigPath repoRoot \/ stored_config repoRoot w' = Some c) -> ~ calm w -> Q (Err e) w') ->
  (forall w', untouched (ConfigPath repoRoot) w w' -> stored_config repoRoot w' = Some c -> (calm w -> calm w') -> Q (Ok tt) w') ->
  wp (SaveConfig repoRoot c) Q w.
Proof.
  intros Ht H1 H2. unfold SaveConfig. wp_step.
  assert (Hst : forall w', f_data <$> w_files w' !! ConfigPath repoRoot = Some (cfg_marshal c) -> stored_config repoRoot w' = Some c).
  { intros w'. unfold stored_config. destruct (w_files w' !! _) as [f|]; [|done]. cbn. intros [= ->]. by apply cfg_roundtrip. }
  apply wp_atomic; [intros e w' Hu [?|?] Hc; apply H1; auto | intros; apply H2; auto].
Qed.

Lemma IsGBRepo_stored {E} repoRoot c w : calm w -> stored_config repoRoot w = Some c -> cf_Format c = FormatGBF ->
  wp (IsGBRepo (E := E) repoRoot) (fun r w' => r = Ok true /\ same w w') w.
Proof.
  intros Hc Hs Hf. unfold IsGBRepo. do 2 wp_step. apply wp_LoadConfig; [intros e w' _ Hno; by rewrite (Hno Hc) in Hs |].
  intros c' w' Hsame Hs'. assert (c' = c) as -> by congruence. cbn beta iota zeta. rewrite Hf, eqs_refl. cbn [orb]. by wp_step.
Qed.

Lemma wp_mkdirs dirs : forall Q w, (forall r w', same w w' -> (calm w -> r = Ok tt) -> Q r w') -> wp (mkdirs dirs) Q w.
Proof.
  induction dirs as [|d ds IH]; intros Q w HQ; cbn [mkdirs]; [wp_step; by apply HQ |]. do 2 wp_step. wp_nop. destruct r as [[]|e]; cbn beta iota.
  - apply IH. intros r w2 Hs Hr. apply HQ; [by etrans | intros Hc; by apply Hr, (same_faults _ _ H)].
  - apply HQ; [done |]. intros Hc. by apply H0 in Hc.
Qed.

(** The chunking polynomial is fixed by its first use: when a backup gets
    one, even among failures, the configuration that is stored then has it and
    is otherwise unchanged, so that every later backup that can read the
    configuration gets the same one, whatever it would draw. *)
Theorem cdc_polynomial_stable repoRoot draw w :
  (forall c pol, stored_config repoRoot w = Some c -> draw = Some pol -> cfg_text (set_pol pol c) /\ pol <> 0) ->
  wp (LoadCDCPolynomial repoRoot draw) (fun r w' => forall pol, r = Ok pol ->
    (exists c, stored_config repoRoot w = Some c /\ stored_config repoRoot w' = Some (set_pol pol c)) /\
    forall draw' w2, calm w2 -> w_files w2 = w_files w' -> (LoadCDCPolynomial repoRoot draw' w2).1 = Ok pol) w.
Proof.
  intros Ht. assert (Hagain : forall w2 c pol draw', calm w2 -> stored_config repoRoot w2 = Some c -> cf_CDCPolynomial c = pol -> pol <> 0 ->
    (LoadCDCPolynomial repoRoot draw' w2).1 = Ok pol).
  { intros w2 c pol draw' Hc Hs Hp Hz. change (wp (LoadCDCPolynomial repoRoot draw') (fun r _ => r = Ok pol) w2). unfold LoadCDCPolynomial. wp_step.
    apply wp_LoadConfig; [intros e w' _ Hno; by rewrite (Hno Hc) in Hs |]. intros c' w' _ Hs'. assert (c' = c) as -> by congruence. cbn beta iota.
    destruct (Z.eqb_spec (cf_CDCPolynomial c) 0); [congruence |]. wp_step. congruence. }
  assert (Hfiles : forall w1 w2 : world, w_files w2 = w_files w1 -> stored_config repoRoot w2 = stored_config repoRoot w1) by (intros w1 w2 E; unfold stored_config; by rewrite E).
  unfold LoadCDCPolynomial. wp_step. apply wp_LoadConfig; [by intros |]. intros c w1 Hs Hc. cbn beta iota.
  destruct (Z.eqb_spec (cf_CDCPolynomial c) 0) as [Hz|Hz].
  - destruct draw as [pol|]; cbn [GenerateCDCPolynomial]; [|by wp_step]. destruct (Ht c pol Hc eq_refl) as [Htx Hp]. wp_step.
    apply wp_SaveConfig; [done | by intros |]. intros w2 _ Hst _. cbn beta iota. wp_step. intros p [= <-]. split; [by exists c |].
    intros draw' w3 Hc3 Hf3. eapply Hagain; [done | by rewrite (Hfiles w2 w3 Hf3) | done | done].
  - wp_step. intros p [= <-]. assert (E : set_pol (cf_CDCPolynomial c) c = c) by (by destruct c). split.
    + exists c. rewrite E. split; [done |]. by rewrite (Hfiles w w1 (same_files _ _ Hs)).
    + intros draw' w3 Hc3 Hf3. eapply Hagain; [done | by rewrite (Hfiles w1 w3 Hf3), (Hfiles w w1 (same_files _ _ Hs)) | done | done].
Qed.

(** No repository can be seen at [repoRoot]. *)
Definition no_repo (repoRoot : bytes) (w : world) : Prop :=
  stored_config repoRoot w = None /\ children (ManifestsDir (MetaDir repoRoot)) (w_files w) = [].

Lemma wp_IsGBRepo {E} repoRoot (Q : result E bool -> world -> Prop) w :
  (forall b w', same w w' -> (calm w -> no_repo repoRoot w -> b = false) -> Q (Ok b) w') -> wp (IsGBRepo repoRoot) Q w.
Proof.
  intros HQ. unfold IsGBRepo. do 2 wp_step. apply wp_LoadConfig.
  - intros e w1 Hs1 _. cbn beta iota zeta. do 2 wp_step. apply wp_ReadDir.
    + intros e' w2 Hs2 _ _. wp_step. apply HQ; [by etrans | done].
    + intros w2 Hs2. rewrite (same_files _ _ Hs1). wp_step. apply HQ; [by etrans |]. by intros _ [_ ->].
  - intros c w1 Hs1 Hc. cbn beta iota zeta. destruct (eqs _ _ || eqs _ _); [wp_step; apply HQ; [done | intros _ [? _]; congruence] |].
    do 2 wp_step. apply wp_ReadDir; intros; wp_step; (apply HQ; [by etrans | intros _ [? _]; congruence]).
Qed.

(** Initialising touches the configuration only. *)
Lemma wp_InitRepo repoRoot deviceID now draw Q w :
  (forall id pol, draw = Some pol -> cfg_text (set_pol pol (DefaultConfig id now deviceID))) ->
  (forall e w', untouched (ConfigPath repoRoot) w w' -> (calm w -> no_repo repoRoot w -> draw = None) -> Q (Err e) w') ->
  (forall id pol w', draw = Some pol -> untouched (ConfigPath repoRoot) w w' ->
     stored_config repoRoot w' = Some (set_pol pol (DefaultConfig id now deviceID)) -> (calm w -> calm w') -> Q (Ok tt) w') ->
  wp (InitRepo repoRoot deviceID now draw) Q w.
Proof.
  intros Ht H1 H2. unfold InitRepo. wp_step. apply wp_IsGBRepo. intros b w1 S1 Hb. cbn beta iota. destruct b.
  { wp_step. apply H1; [by apply same_untouched |]. intros Hc Hn. by apply Hb in Hn. }
  wp_step. apply wp_mkdirs. intros r w2 S2 Hr. pose proof (same_faults _ _ S1) as C1. assert (S : same w w2) by (by etrans). destruct r as [[]|e]; cbn beta iota.
  2: { apply H1; [by apply same_untouched |]. intros Hc _. by apply C1, Hr in Hc. }
  wp_step. apply wp_new_uuid. intros u w3 S3. cbn beta iota. assert (S' : same w w3) by (by etrans). destruct draw as [pol|]; cbn [GenerateCDCPolynomial].
  2: { wp_step. apply H1; [by apply same_untouched | done]. }
  apply wp_SaveConfig; [by apply Ht | |].
  - intros e w4 Hu _ Hc. apply H1; [etrans; [by apply same_untouched | done] |]. intros Hcw. by apply (same_faults _ _ S') in Hcw.
  - intros w4 Hu Hst Hcc. apply (H2 u pol); [done | etrans; [by apply same_untouched | done] | done |]. intros Hc. by apply Hcc, (same_faults _ _ S').
Qed.

(** A repository is initialised once: without faults, initialising where
    there is none stores the default configuration with the drawn polynomial,
    after which the repository is recognised and a second initialisation is
    refused and changes nothing. *)
Theorem init_once repoRoot deviceID now pol w : calm w -> no_repo repoRoot w ->
  (forall id, cfg_text (set_pol pol (DefaultConfig id now deviceID))) ->
  wp (InitRepo repoRoot deviceID now (Some pol)) (fun r w' => r = Ok tt /\ calm w' /\
    (exists c, stored_config repoRoot w' = Some c /\ cf_Format c = FormatGBF /\ cf_CDCPolynomial c = pol) /\
    forall dev2 now2 draw2, wp (InitRepo repoRoot dev2 now2 draw2) (fun r2 w2 => r2 = Err CfgInitialised /\ same w' w2) w') w.
Proof.
  intros Hc Hno Ht. apply wp_InitRepo; [intros id p [= <-]; apply Ht | intros e w' _ H; by specialize (H Hc Hno) |].
  intros id p w' [= <-] _ Hst Hcc. split; [done |]. split; [by apply Hcc |]. split; [by eexists |].
  intros dev2 now2 draw2. unfold InitRepo. wp_step. eapply wp_mono; [by eapply IsGBRepo_stored; [apply Hcc | exact Hst |] |].
  intros r2 w2 [-> S2]. cbn beta iota. by wp_step.
Qed.
End Facts.

(** ** Witnesses *)

Module ConfigWitness.
(** Configurations that differ in the identifier and the polynomial. *)
Definition conf (id : bytes) (pol : Z) : RepoConfig := set_pol pol (DefaultConfig id (go "now") (go "dev1")).

#[export] Instance toy_cfg : CfgJson := {
  cfg_marshal c := (if cf_Encrypted c then x65 else x70) :: cf_RepositoryID c ++ x2c :: FormatInt (cf_CDCPolynomial c);
  cfg_unmarshal d := match d with
    | b :: d => match LastIndexByte d x2c with
                | Some i => pol ← ParseInt (drop (S i) d);
                            Some (if bool_decide (b = x65) then set_encrypted (conf (take i d) pol) else conf (take i d) pol)
                | None => None
                end
    | [] => None
    end
}.

Lemma toy_parts (id : bytes) pol : 0 <= pol <= MaxInt64 -> let d := id ++ x2c :: FormatInt pol in
  exists i, LastIndexByte d x2c = Some i /\ take i d = id /\ ParseInt (drop (S i) d) = Some pol.
Proof.
  intros Hp d. exists (length id). unfold d. assert (Hn : x2c ∉ FormatInt pol).
  { unfold FormatInt. destruct (Z.ltb_spec pol 0); [lia |]. by apply digits_no_us; [|apply not_elem_of_nil]. }
  rewrite LastIndexByte_app, take_app_length by done. split; [done |]. split; [done |].
  replace (S (length id)) with (length (id ++ [x2c])) by (rewrite length_app; cbn; lia).
  replace (id ++ x2c :: FormatInt pol) with ((id ++ [x2c]) ++ FormatInt pol) by (by rewrite <- app_assoc). rewrite drop_app_length.
  by rewrite ParseInt_FormatInt by (unfold MinInt64; lia).
Qed.

#[export] Instance toy_cfg_spec : CfgJsonSpec toy_cfg.
Proof.
  refine {| cfg_text c := exists id pol, 0 <= pol <= MaxInt64 /\ (c = conf id pol \/ c = set_encrypted (conf id pol)) |}. intros c (id & pol & Hp & Hc).
  destruct (toy_parts id pol Hp) as (i & E1 & E2 & E3).
  destruct Hc as [-> | ->]; unfold cfg_marshal, cfg_unmarshal, toy_cfg; cbn [cf_Encrypted cf_RepositoryID cf_CDCPolynomial conf set_pol set_encrypted DefaultConfig];
    by rewrite E1, E3, E2.
Defined.
#[local] Instance cfg_uuid : Uuid := toy_uuid.

Definition w_empty : world := World ∅ [] [] 5 0.
Definition w_old : world := World {[ ConfigPath (go "/r") := File (cfg_marshal (conf (go "id") 0)) 1 ]} [] [] 5 0.

Lemma cdc_polynomial_stable_witness :
  exists w', LoadCDCPolynomial (go "/r") (Some 77) w_old = (Ok 77, w') /\ (LoadCDCPolynomial (go "/r") (Some 99) w').1 = Ok 77.
Proof.
  pose proof (cdc_polynomial_stable (go "/r") (Some 77) w_old) as H. unfold wp in H.
  assert (Ht : forall c pol, stored_config (go "/r") w_old = Some c -> Some 77 = Some pol -> cfg_text (set_pol pol c) /\ pol <> 0).
  { intros c pol Hc [= <-]. assert (Ec : c = conf (go "id") 0) by (assert (Hs : stored_config (go "/r") w_old = Some (conf (go "id") 0)) by (by vm_compute); congruence).
    subst c. split; [|done]. exists (go "id"), 77. split; [done | by left]. }
  specialize (H Ht).
  assert (E1 : (LoadCDCPolynomial (go "/r") (Some 77) w_old).1 = Ok 77) by (vm_compute; reflexivity).
  assert (E2 : w_faults (LoadCDCPolynomial (go "/r") (Some 77) w_old).2 = []) by (vm_compute; reflexivity).
  assert (E3 : w_ctx (LoadCDCPolynomial (go "/r") (Some 77) w_old).2 = []) by (vm_compute; reflexivity).
  destruct (LoadCDCPolynomial (go "/r") (Some 77) w_old) as [r w']. cbn [fst snd] in *. subst r.
  exists w'. split; [reflexivity |]. destruct (H 77 eq_refl) as [_ H2]. exact (H2 (Some 99) w' (conj E2 E3) eq_refl).
Defined.

Lemma init_once_witness :
  exists w', InitRepo (go "/r") (go "dev1") (go "now") (Some 5) w_empty = (Ok tt, w') /\
    (InitRepo (go "/r") (go "dev2") (go "later") (Some 6) w').1 = Err CfgInitialised.
Proof.
  pose proof (init_once (go "/r") (go "dev1") (go "now") 5 w_empty (conj eq_refl eq_refl) ltac:(by vm_compute)) as H.
  specialize (H ltac:(intros id; exists id, 5; split; [done | by left])). unfold wp at 1 in H.
  destruct (InitRepo (go "/r") (go "dev1") (go "now") (Some 5) w_empty) as [r w']. cbn [fst snd] in H. destruct H as (-> & _ & _ & H).
  exists w'. split; [reflexivity |]. exact (proj1 (H (go "dev2") (go "later") (Some 6))).
Defined.
End ConfigWitness.
