(* ===== verification/RestoreRun.v ===== *)
(** RestoreRun: a whole restore ([SimpleRestore.Run] of [simple/restore.go]):
    choosing and loading the manifest from the repository's metadata, then
    restoring it.

    The state is the file system that holds the metadata beside the state of
    [Restore].  Progress reports and log messages are left out. *)

From S2P Require Import Prelude GoStr Externs Compress Crypto Stream FS BlobStore LocalStore Blob BlobLocal Manifest CloudID ManifestIO RestorePath SecureDir Restore RestoreTree RestoreLocal Config.
From stdpp Require Import base list gmap strings.
From Stdlib.Strings Require Import Byte.
Local Open Scope Z_scope.

Inductive rnerr := LoadByTime (e : merr) | LoadLatest (e : merr) | RunRestore (e : rserr).

Section Ops.
Context `{AE : AEAD, ZS : Zstd, SH : Sha256, HK : Hkdf} `{J : Json} `{WK : Walk} `{U : Uuid} `{RF : Rfc3339} `{RFF : Rfc3339Format}.
Context {S : Type} `{B : BlobStore S}.
Context (hook : option (bytes -> option bytes)).

Record site := Site { s_meta : world; s_rst : @rst S }.

Definition cloud_id (cfg : RestoreConfig) : bytes :=
  if eqs (rc_CloudID cfg) [] then ResolveCloudID (rc_DeviceID cfg) (rc_SourceID cfg) else rc_CloudID cfg.

Definition load_manifest (cfg : RestoreConfig) : eff world rnerr Manifest :=
  let metaDir := MetaDir (rc_RepoRoot cfg) in
  if negb (eqs (rc_Timestamp cfg) []) then wrap_err LoadByTime (LoadManifestByTimestamp hook metaDir (cloud_id cfg) (rc_Timestamp cfg))
  else wrap_err LoadLatest (LoadLatestManifest hook metaDir (cloud_id cfg)).

(** The counters of a run start at zero. *)
Definition no_result : RestoreResult := MkRestoreResult 0 0 0.
Definition started (t : @rst S) : @rst S := RS (r_store t) (r_sw t) (r_ctx t) no_result.

Definition Run (cwd : bytes) (cfg : RestoreConfig) (room : Z) : eff site rnerr RestoreResult :=
  m ← zoom s_meta (fun w s => Site w (s_rst s)) (load_manifest cfg);
  zoom (fun s => started (s_rst s)) (fun t s => Site (s_meta s) t) (wrap_err RunRestore (restoreManifest cwd cfg room m)).
End Ops.

Section Theorems.
Context `{AE : AEAD, ZS : Zstd, SH : Sha256, HK : Hkdf, SHS : !Sha256Spec SH} `{J : Json} `{WK : Walk} `{U : Uuid} `{RF : Rfc3339} `{RFF : Rfc3339Format}.
Context {S : Type} `{B : BlobStore S, SV : StoreView S, BS : !BlobStoreSpec S}.
Context (hook : option (bytes -> option bytes)).

Definition manifest_dir (cfg : RestoreConfig) : bytes := ManifestDir (MetaDir (rc_RepoRoot cfg)) (cloud_id cfg).

(** C17: restoring the latest snapshot: when the metadata can be read and some
    manifest of the source loads, [Run] restores the newest one that loads.  If
    it is orderly and the place is clear, the run succeeds, its counters say how
    many files were restored and skipped, and the tree below the target is what
    it was with exactly that snapshot laid out on it: each file with the
    content its blobs give, its mode and its time, each directory, and nothing
    else changed, no metadata and no blob either. *)
Theorem run_restores_newest cwd cfg room f r (s : @site S) : rc_Timestamp cfg = [] -> calm (s_meta s) ->
  (exists m, newest hook (w_files (s_meta s)) (manifest_dir cfg) m) ->
  (forall m, newest hook (w_files (s_meta s)) (manifest_dir cfg) m -> start_of cwd cfg m f r (started (s_rst s)) /\
     orderly cwd cfg (decryptor_of cfg) room (bs_blob (r_store (s_rst s))) m (view f r)) ->
  wp (Run hook cwd cfg room) (fun x s' => exists m, newest hook (w_files (s_meta s)) (manifest_dir cfg) m /\
    x = Ok (tally (AllFiles m) no_result) /\
    rebuilt cwd cfg (decryptor_of cfg) room (bs_blob (r_store (s_rst s))) m (view f r) (view (sw_fs (r_sw (s_rst s'))) r) /\
    same (s_meta s) (s_meta s') /\ unchanged bs_blob (r_store (s_rst s)) (r_store (s_rst s'))) s.
Proof.
  intros Hts Hc (m0 & c0 & Hc0 & Hl0 & _) Hok. unfold Run, load_manifest. rewrite Hts. change (negb (eqs [] [])) with false. cbv iota. do 3 wp_step.
  eapply wp_mono; [by apply wp_LoadLatest |]. fold (manifest_dir cfg). intros x w' [Hs Hx]. destruct x as [m|e]; cbn beta iota.
  - destruct (Hok m Hx) as [Hst Hord]. do 2 wp_step. eapply wp_mono; [by eapply wp_restore_rebuilds |].
    intros x t' (-> & Hr & Hu). exists m. done.
  - exfalso. destruct e; try done; [rewrite Hx in Hc0; by apply elem_of_nil in Hc0 |].
    destruct Hx as [_ Hx]. specialize (Hx c0 Hc0). by rewrite Hl0 in Hx.
Qed.
End Theorems.

Module RunWitness.
Import Toy CryptoWitness BlobWitness SecureWitness RestoreWitness.

#[local] Instance rw_walk : Walk := rs_walk.
#[local] Instance rw_uuid : Uuid := toy_uuid.
#[local] Instance rw_time : Rfc3339 := rs_time.
#[local] Instance rw_format : Rfc3339Format := FormatInt.

(** A snapshot of one file and an empty directory. *)
Definition entry1 : FileEntry := set_name note (go "note.txt").
Definition snap : Manifest :=
  MkManifest 2 1 [] (go "home") (go "/home") (go "2026-01-02T03:04:05Z") (go "dev1")
    {[ [] := MkDir [] [go "docs"; go "empty"]; go "docs" := MkDir [entry1] []; go "empty" := MkDir [] [] ]} (MkStats 1 5 1 0 0 0 5 0) (go "complete").

#[local] Instance rw_json : Json := { json_marshal m := go "{"; json_unmarshal d := Some snap; json_unmarshal_v1 d := None }.

Definition meta0 : world := World {[
  FpJoin [manifest_dir cfg0; go "100_dev1.json.zst"] := File (envelope (Zstd.Compress localManifestCompressor (go "{"))) 9 ]} [] [] 5 0.

(** The store after the file was uploaded with the default chunk size. *)
Definition store2 : sys := (UploadBlob (NewEncryptor key DefaultChunkSize) msg ent store0).2.
Definition t2 : @rst sys := RS store2 (w0 []) [] no_result.
Definition site0 : @site sys := Site meta0 t2.

Lemma store2_inv : bs_inv store2.
Proof. exact (proj1 (wp_UploadBlob (NewEncryptor key DefaultChunkSize) msg ent store0 inv0)). Qed.

Lemma newest_snap m : newest None (w_files meta0) (manifest_dir cfg0) m <-> m = snap.
Proof.
  assert (Ec : candidates_of (w_files meta0) (manifest_dir cfg0) = [MkCand (go "100_dev1.json.zst") 1700000000 9]) by (vm_compute; reflexivity).
  assert (El : load_file None (w_files meta0) (FpJoin [manifest_dir cfg0; go "100_dev1.json.zst"]) = Ok snap) by (vm_compute; reflexivity).
  unfold newest. rewrite Ec. split.
  - intros (c & ->%list_elem_of_singleton & Hl & _). cbn [ca_name] in Hl. rewrite El in Hl. apply ok_inv in Hl. exact Hl.
  - intros ->. exists (MkCand (go "100_dev1.json.zst") 1700000000 9). split; [apply list_elem_of_singleton; reflexivity |]. split; [exact El |].
    intros c' ->%list_elem_of_singleton [_ Hne]%later_newer. destruct Hne. reflexivity.
Qed.

Lemma walks0 l j : nofollow f0 1 l = Some j -> l = [] /\ j = 1%nat \/ l = [go "evil"] /\ j = 3%nat.
Proof.
  destruct l as [|c l]; [intros [= <-]; by left |]. cbn [nofollow]. change (f0 !! 1%nat) with (Some (IDir 0 {[ go "evil" := 3%nat ]})). cbv iota.
  destruct (decide (c = go "evil")) as [->|Hc]; [|by rewrite lookup_singleton_ne by congruence].
  rewrite lookup_singleton_eq. cbn [mbind option_bind]. destruct l as [|d l]; cbn [nofollow]; [intros [= <-]; by right |]. done.
Qed.

Lemma tree0 : treelike f0 1.
Proof.
  split.
  - intros l j [[_ ->] | [_ ->]]%walks0; eauto.
  - intros l l' j [[-> ->] | [-> ->]]%walks0 [[-> ?] | [-> ?]]%walks0; done.
Qed.

Lemma plain_short c : HasSuffix c (go ".tmp") = false -> plain_name c.
Proof.
  intros H b u ->. apply bool_decide_eq_false in H. apply H. rewrite !app_assoc. by eexists.
Qed.

Lemma forallb_elem {A} (g : A -> bool) l x : forallb g l = true -> x ∈ l -> g x = true.
Proof. rewrite forallb_forall. intros H Hx. apply H. by apply list_elem_of_In. Qed.

Definition plain_comps (p : bytes) : bool :=
  match safeRestoreComponents cwd0 (rc_TargetDir cfg0) p with Ok l => forallb (fun c => negb (HasSuffix c (go ".tmp"))) l | Err _ => true end.

Lemma plain_comps_ok p l : plain_comps p = true -> safeRestoreComponents cwd0 (rc_TargetDir cfg0) p = Ok l -> Forall plain_name l.
Proof.
  unfold plain_comps. intros H Hl. rewrite Hl in H. apply Forall_forall. intros c Hc. apply plain_short.
  apply negb_true_iff. exact (forallb_elem _ _ c H Hc).
Qed.

Lemma start0 : start_of cwd0 cfg0 snap f0 1 (started t2).
Proof.
  split.
  - reflexivity.
  - apply w_uuid_clean.
  - reflexivity.
  - split; [exact store2_inv |]. split; [exact (conj eq_refl eq_refl) |]. split; [reflexivity |]. intros k _. reflexivity.
  - split; [reflexivity |]. split; [reflexivity |]. left. reflexivity.
  - exact tree0.
  - intros l Hl. unfold view in Hl. destruct (nofollow f0 1 l) as [j|] eqn:E; [|by destruct Hl]. apply walks0 in E as [[-> _] | [-> _]]; [constructor |].
    apply Forall_singleton, plain_short. vm_compute. reflexivity.
  - assert (Hd : forallb plain_comps (map_to_list (m_Dirs snap)).*1 = true) by (vm_compute; reflexivity).
    apply Forall_forall. intros d Hx l. apply plain_comps_ok. exact (forallb_elem _ _ d Hd Hx).
  - assert (Hd : forallb (fun f => plain_comps (f_Name f)) (AllFiles snap) = true) by (vm_compute; reflexivity).
    apply Forall_forall. intros f Hx l. apply plain_comps_ok. exact (forallb_elem _ _ f Hd Hx).
Qed.

(** The only file, under its full path. *)
Definition listed1 : FileEntry := set_name note (go "docs/note.txt").

Lemma files0 : AllFiles snap = [listed1].
Proof. vm_compute. reflexivity. Qed.

Lemma dirs0 : (map_to_list (m_Dirs snap)).*1 ≡ₚ [[]; go "docs"; go "empty"].
Proof.
  assert (E : bool_decide ((map_to_list (m_Dirs snap)).*1 ≡ₚ [[]; go "docs"; go "empty"]) = true) by (vm_compute; reflexivity).
  by apply bool_decide_eq_true in E.
Qed.

Lemma place0 : place cwd0 cfg0 listed1 = Some [go "docs"; go "note.txt"].
Proof. vm_compute. reflexivity. Qed.

Lemma comps0 d p : d ∈ (map_to_list (m_Dirs snap)).*1 -> d <> [] -> safeRestoreComponents cwd0 (rc_TargetDir cfg0) d = Ok p -> p = [go "docs"] \/ p = [go "empty"].
Proof.
  rewrite dirs0, !elem_of_cons. intros [-> | [-> | [-> | ?%elem_of_nil]]] Hne Hp; try done; vm_compute in Hp; injection Hp as <-; [left | right]; vm_compute; reflexivity.
Qed.

Lemma needed0 l : needed cwd0 cfg0 snap l -> l = [] \/ l = [go "docs"] \/ l = [go "empty"].
Proof.
  assert (Hone : forall c, l `prefix_of` [c] -> l = [] \/ l = [c]).
  { intros c [k Hk]. destruct l as [|x l]; [by left |]. right. injection Hk as -> Hk. by destruct l. }
  intros [(d & p & Hd & Hne & Hp & Hl) | (file & dirs & name & Hf & Hp & Hl)].
  - destruct (comps0 d p Hd Hne Hp) as [-> | ->]; destruct (Hone _ Hl) as [-> | ->]; tauto.
  - rewrite files0 in Hf. apply list_elem_of_singleton in Hf as ->. rewrite place0 in Hp.
    injection Hp as Hp. apply (app_inj_tail [go "docs"] dirs (go "note.txt") name) in Hp as [<- _].
    destruct (Hone _ Hl) as [-> | ->]; tauto.
Qed.

Lemma orderly0 : orderly cwd0 cfg0 (decryptor_of cfg0) 100 (bs_blob store2) snap (view f0 1).
Proof.
  split.
  - intros d Hd Hne. rewrite dirs0, !elem_of_cons in Hd. destruct Hd as [-> | [-> | [-> | ?%elem_of_nil]]]; [done | exists [go "docs"] | exists [go "empty"] | done];
      vm_compute; reflexivity.
  - intros file Hf _. rewrite files0 in Hf. apply list_elem_of_singleton in Hf as ->. exists [go "docs"], (go "note.txt"). split; [exact place0 |].
    assert (E : file_content (decryptor_of cfg0) 100 (bs_blob store2) listed1 = Some msg) by (vm_compute; reflexivity). rewrite E. by eexists.
  - rewrite files0. cbn [omap list_omap]. rewrite place0. apply NoDup_singleton.
  - intros file l Hf Hl. rewrite files0 in Hf. apply list_elem_of_singleton in Hf as ->. rewrite place0 in Hl. injection Hl as <-. split; [|vm_compute; reflexivity].
    intros [E | [E | E]]%needed0; discriminate E.
  - intros l [-> | [-> | ->]]%needed0; vm_compute; tauto.
Qed.

(** The run restores the file and the empty directory, and leaves the link. *)
Lemma run_restores_newest_witness : exists s', Run None cwd0 cfg0 100 site0 = (Ok (MkRestoreResult 1 5 0), s') /\
  view (sw_fs (r_sw (s_rst s'))) 1 [go "docs"; go "note.txt"] = Some (TFile msg 420 1700000000000000000) /\
  view (sw_fs (r_sw (s_rst s'))) 1 [go "empty"] = Some TDir /\ view (sw_fs (r_sw (s_rst s'))) 1 [go "evil"] = Some TLink.
Proof.
  pose proof (run_restores_newest None cwd0 cfg0 100 f0 1 site0 eq_refl (conj eq_refl eq_refl) (ex_intro _ snap (proj2 (newest_snap snap) eq_refl))
    (fun m Hm => match eq_sym (proj1 (newest_snap m) Hm) in _ = m' return start_of cwd0 cfg0 m' f0 1 (started t2) /\
       orderly cwd0 cfg0 (decryptor_of cfg0) 100 (bs_blob store2) m' (view f0 1) with eq_refl => conj start0 orderly0 end)) as H.
  unfold wp in H. destruct (Run None cwd0 cfg0 100 site0) as [x s']. cbn [fst snd] in H. destruct H as (m & ->%newest_snap & -> & (Hf & Hd & Ho) & _).
  exists s'. split; [reflexivity |]. split; [|split].
  - destruct (Hf listed1 [go "docs"; go "note.txt"]) as (q & Hq & ->); [rewrite files0; by left | exact place0 |].
    assert (E : file_content (decryptor_of cfg0) 100 (bs_blob store2) listed1 = Some msg) by (vm_compute; reflexivity). 
    pose proof (eq_trans (eq_sym E) Hq) as Eq. injection Eq as <-. reflexivity.
  - apply (Hd (go "empty")); [rewrite dirs0; by right; right; left | discriminate | vm_compute; reflexivity].
  - destruct (Ho [go "evil"]) as [E | [E | ->]]; [apply needed0 in E as [E | [E | E]]; discriminate E | | vm_compute; reflexivity].
    rewrite files0 in E. cbn [omap list_omap] in E. rewrite place0 in E. apply list_elem_of_singleton in E. discriminate E.
Defined.

Lemma restore_refines_tree_witness : exists V' t', spec_restore cwd0 cfg0 (decryptor_of cfg0) 100 (bs_blob store2) snap (view f0 1) no_result = Some (V', MkRestoreResult 1 5 0) /\
  restoreManifest cwd0 cfg0 100 snap t2 = (Ok (MkRestoreResult 1 5 0), t') /\ forall l, view (sw_fs (r_sw t')) 1 l = V' l.
Proof.
  destruct (spec_restore_tidy cwd0 cfg0 (decryptor_of cfg0) 100 (bs_blob store2) snap (view f0 1) no_result orderly0) as (V' & E & _).
  rewrite files0 in E. pose proof (restore_refines_tree cwd0 cfg0 100 snap f0 1 t2 V' (MkRestoreResult 1 5 0) start0 E) as H.
  unfold wp in H. destruct (restoreManifest cwd0 cfg0 100 snap t2) as [x t']. cbn [fst snd] in H. destruct H as (-> & Hv & _).
  exists V', t'. split; [exact E |]. split; [reflexivity | exact Hv].
Defined.
End RunWitness.
