(* ===== verification/Keys.v ===== *)
(** Keys: the repository's key file ([simple/keys.go]).

    The master key is random; [repo.key] holds it either wrapped under a
    password (GEK1: a magic, the salt, and nonce and ciphertext of AES-GCM under
    the Argon2id key) or, in old repositories, in base64 inside JSON.
    [encoding/json] is the parameter [KeyJson]; [base64.StdEncoding] is modelled
    ([std_encode], [std_decode]).  Random bytes come from the supply [ent]. *)

From S2P Require Import Prelude GoStr Externs Crypto FS CloudID Config.
From stdpp Require Import base list gmap strings.
From Stdlib.Strings Require Import Byte.
Local Open Scope Z_scope.

(** ** base64.StdEncoding *)

Definition std_char (n : Z) : byte := if n =? 62 then x2b else if n =? 63 then x2f else b64_char n.

Definition std_val (c : byte) : option Z :=
  if bool_decide (c = x2b) then Some 62 else if bool_decide (c = x2f) then Some 63
  else match b64_val c with Some n => if n <? 62 then Some n else None | None => None end.

Definition b64_pad (n : nat) : bytes := match (n mod 3)%nat with 1%nat => go "==" | 2%nat => go "=" | _ => [] end.

Definition std_encode (l : bytes) : bytes := (std_char <$> b64_vals l) ++ b64_pad (length l).

(** Line breaks are skipped; the rest is groups of four characters, the last of
    which may end in one or two padding characters. *)
Definition std_decode (s : bytes) : option bytes :=
  let s := filter (fun c => c <> x0a /\ c <> x0d) s in
  if negb (length s mod 4 =? 0)%nat then None
  else vals ← mapM std_val (TrimSuffix s (if HasSuffix s (go "==") then go "==" else go "=")); b64_join vals.

(** ** Key files *)

Definition SaltSize : Z := 32.

Record KeyFileData := MkKeyFile { kf_Version : Z; kf_Algorithm : bytes; kf_Key : bytes; kf_Salt : bytes }.

Class KeyJson := {
  kf_marshal : KeyFileData -> bytes;
  kf_unmarshal : bytes -> option KeyFileData
}.

(** A marshalled structure is a JSON object; text of valid UTF-8 is read back
    as it was written. *)
Class KeyJsonSpec (J : KeyJson) := {
  kf_text : KeyFileData -> Prop;
  kf_roundtrip k : kf_text k -> kf_unmarshal (kf_marshal k) = Some k;
  kf_object k : exists r, kf_marshal k = x7b :: r
}.

Inductive kerr :=
| SaltFailed | KeyFailed | NonceFailed | CipherFailed
| KeyWrite (e : oserr) | KeyRead (e : oserr) | KeyConfig (e : cfgerr)
| UnsupportedFormat | GEK1TooShort | EncryptedTooShort | WrongPassword
| PasswordRequired | KeyParse | EmptyKey | KeyDecode
| EmptyPassword | AlreadyGEK1 | NoLegacyKey
| VerifyFailed (e : kerr) | VerifyMismatch.

Inductive KeyProtection := KeyProtectionGEK1 | KeyProtectionLegacyPlaintext | KeyProtectionNone.

Definition gek1_magic : bytes := [x47; x45; x4b; x01].

Definition KeyFilePath (repoRoot : bytes) : bytes := FpJoin [MetaDir repoRoot; go "repo.key"].

(** [len(data) >= 4 && data[0] == 'G' && ... && data[3] == 1]. *)
Definition is_gek1 (data : bytes) : bool := (4 <=? blen data) && bool_decide (upto 4 data = gek1_magic).

Section Wrap.
Context `{A2 : Argon2} `{AE : AEAD}.

Definition DeriveKeyFromPassword (password salt : bytes) : bytes := argon2id password salt.

Definition GenerateSalt (ent : bytes) : result kerr (bytes * bytes) :=
  match rand_read SaltSize ent with Some p => Ok p | None => Err SaltFailed end.

Definition GenerateRandomKey (ent : bytes) : result kerr (bytes * bytes) :=
  match rand_read 32 ent with Some p => Ok p | None => Err KeyFailed end.

Definition EncodeGEK1KeyFile (masterKey password ent : bytes) : result kerr (bytes * bytes) :=
  match GenerateSalt ent with
  | Err e => Err e
  | Ok (salt, ent1) =>
      let encKey := DeriveKeyFromPassword password salt in
      match newGCM encKey with
      | Err _ => Err CipherFailed
      | Ok _ =>
          match rand_read NonceSize ent1 with
          | None => Err NonceFailed
          | Some (nonce, ent2) =>
              let encryptedKey := nonce ++ gcm_seal encKey nonce masterKey in
              Ok (gek1_magic ++ salt ++ encryptedKey, ent2)
          end
      end
  end.

Definition DecryptGEK1MasterKey (salt encryptedKey password : bytes) : result kerr bytes :=
  let encKey := DeriveKeyFromPassword password salt in
  match newGCM encKey with
  | Err _ => Err CipherFailed
  | Ok _ =>
      if blen encryptedKey <? NonceSize + Overhead then Err EncryptedTooShort
      else match gcm_open encKey (upto NonceSize encryptedKey) (from NonceSize encryptedKey) with
           | None => Err WrongPassword
           | Some masterKey => Ok masterKey
           end
  end.

Definition unlockGEK1KeyFile (data password : bytes) : result kerr bytes :=
  if blen data <? 4 + SaltSize then Err GEK1TooShort
  else DecryptGEK1MasterKey (slice 4 (4 + SaltSize) data) (from (4 + SaltSize) data) password.

(** What [UnlockRepoWithPassword] does with the bytes it has read. *)
Definition unlock_data (data password : bytes) : result kerr bytes :=
  if is_gek1 data then unlockGEK1KeyFile data password else Err UnsupportedFormat.
End Wrap.

Definition DecodeKey (kf : KeyFileData) : result kerr bytes :=
  if eqs (kf_Key kf) [] then Err EmptyKey
  else match std_decode (kf_Key kf) with Some key => Ok key | None => Err KeyDecode end.

Section Ops.
Context `{A2 : Argon2} `{AE : AEAD} `{U : Uuid} `{J : CfgJson} `{KJ : KeyJson}.

Definition SaveGEK1KeyFile (repoRoot masterKey password ent : bytes) : eff world kerr bytes :=
  '(keyFileData, ent1) ← of_result (EncodeGEK1KeyFile masterKey password ent);
  _ ← wrap_err KeyWrite (WriteFileAtomic (KeyFilePath repoRoot) keyFileData);
  mret ent1.

Definition UnlockRepoWithPassword (repoRoot password : bytes) : eff world kerr bytes :=
  data ← wrap_err KeyRead (ReadFile (KeyFilePath repoRoot));
  of_result (unlock_data data password).

Definition mark_encrypted (repoRoot : bytes) : eff world kerr unit :=
  cfg ← wrap_err KeyConfig (LoadConfig repoRoot);
  wrap_err KeyConfig (SaveConfig repoRoot (set_encrypted cfg)).

Definition InitRepoWithPassword (repoRoot deviceID password now : bytes) (draw : option Z) (ent : bytes) : eff world kerr unit :=
  _ ← wrap_err KeyConfig (InitRepo repoRoot deviceID now draw);
  '(masterKey, ent1) ← of_result (GenerateRandomKey ent);
  _ ← SaveGEK1KeyFile repoRoot masterKey password ent1;
  mark_encrypted repoRoot.

Definition LoadKeyFile (repoRoot : bytes) : eff world kerr KeyFileData :=
  data ← wrap_err KeyRead (ReadFile (KeyFilePath repoRoot));
  if is_gek1 data then throw PasswordRequired
  else match kf_unmarshal data with Some kf => mret kf | None => throw KeyParse end.

Definition KeyFileProtectionMode (repoRoot : bytes) : eff world kerr KeyProtection :=
  r ← attempt (ReadFile (KeyFilePath repoRoot));
  match r with
  | Err ENOENT => mret KeyProtectionNone
  | Err e => throw (KeyRead e)
  | Ok data =>
      if is_gek1 data then mret KeyProtectionGEK1
      else match kf_unmarshal data with Some _ => mret KeyProtectionLegacyPlaintext | None => throw KeyParse end
  end.

Definition MigrateKeyFileToGEK1 (repoRoot password ent : bytes) : eff world kerr unit :=
  if eqs password [] then throw EmptyPassword
  else
    mode ← KeyFileProtectionMode repoRoot;
    match mode with
    | KeyProtectionGEK1 => throw AlreadyGEK1
    | KeyProtectionNone => throw NoLegacyKey
    | KeyProtectionLegacyPlaintext =>
        kf ← LoadKeyFile repoRoot;
        masterKey ← of_result (DecodeKey kf);
        _ ← SaveGEK1KeyFile repoRoot masterKey password ent;
        unlocked ← wrap_err VerifyFailed (UnlockRepoWithPassword repoRoot password);
        if eqs unlocked masterKey then mret tt else throw VerifyMismatch
    end.

Definition legacy_data (masterKey : bytes) : KeyFileData :=
  MkKeyFile 1 (go "aes-256-gcm") (std_encode masterKey) [].

Definition InitRepoWithKeyFile (repoRoot deviceID now : bytes) (draw : option Z) (ent : bytes) : eff world kerr unit :=
  _ ← wrap_err KeyConfig (InitRepo repoRoot deviceID now draw);
  '(masterKey, _) ← of_result (GenerateRandomKey ent);
  _ ← wrap_err KeyWrite (WriteFileAtomic (KeyFilePath repoRoot) (kf_marshal (legacy_data masterKey)));
  mark_encrypted repoRoot.
End Ops.

(** * Facts *)

(** ** base64 *)

Lemma std_char_val n : 0 <= n < 64 ->
  std_val (std_char n) = Some n /\ std_char n <> x0a /\ std_char n <> x0d /\ std_char n <> x3d.
Proof.
  intros Hn. assert (Forall (fun n => std_val (std_char n) = Some n /\ std_char n <> x0a /\ std_char n <> x0d /\ std_char n <> x3d) (seqZ 0 64)) as Hf.
  { by_decide. }
  rewrite Forall_forall in Hf. apply Hf, elem_of_seqZ. lia.
Qed.

Lemma b64_pad_len l : ((length (b64_vals l) + length (b64_pad (length l))) mod 4 = 0)%nat.
Proof.
  induction l as [|a|a b|a b c l IH] using bytes_ind3; [done .. |]. cbn [b64_vals length].
  replace (b64_pad (S (S (S (length l))))) with (b64_pad (length l)); [|unfold b64_pad; replace (S (S (S (length l)))) with (length l + 1 * 3)%nat by lia; by rewrite Nat.Div0.mod_add].
  replace (_ + _)%nat with (length (b64_vals l) + length (b64_pad (length l)) + 1 * 4)%nat by lia. by rewrite Nat.Div0.mod_add.
Qed.

Lemma std_chars_plain l : Forall (fun c => c <> x0a /\ c <> x0d /\ c <> x3d) (std_char <$> b64_vals l).
Proof.
  destruct (b64_encode_vals l) as [_ Hf]. apply Forall_fmap. eapply Forall_impl; [exact Hf |]. intros n Hn. cbn. by apply std_char_val.
Qed.

Lemma b64_pad_cases n : b64_pad n = [] \/ b64_pad n = go "=" \/ b64_pad n = go "==".
Proof. unfold b64_pad. destruct (n mod 3)%nat as [|[|[|?]]]; auto. Qed.

Lemma no_pad_suffix s t : Forall (fun c => c <> x0a /\ c <> x0d /\ c <> x3d) s -> HasSuffix s (t ++ go "=") = false.
Proof.
  intros Hf. apply bool_decide_eq_false. intros [k ->]. apply Forall_app in Hf as [_ Hf]. apply Forall_app in Hf as [_ Hf].
  by apply Forall_cons in Hf as [(_ & _ & ?) _].
Qed.

Lemma trim_pad s n : Forall (fun c => c <> x0a /\ c <> x0d /\ c <> x3d) s ->
  TrimSuffix (s ++ b64_pad n) (if HasSuffix (s ++ b64_pad n) (go "==") then go "==" else go "=") = s.
Proof.
  intros Hs. assert (Hok : forall t, HasSuffix (s ++ t) t = true) by (intros t; apply bool_decide_eq_true; by exists s).
  assert (Htrim : forall t, TrimSuffix (s ++ t) t = s).
  { intros t. unfold TrimSuffix. rewrite Hok, length_app. by rewrite Nat.add_sub, take_app_length. }
  destruct (b64_pad_cases n) as [-> | [-> | ->]].
  - pose proof (no_pad_suffix s (go "=") Hs) as H2. pose proof (no_pad_suffix s [] Hs) as H1. cbn in H1, H2.
    rewrite app_nil_r. cbn. rewrite H2. unfold TrimSuffix. by rewrite H1.
  - assert (HasSuffix (s ++ go "=") (go "==") = false) as ->; [|apply Htrim].
    apply bool_decide_eq_false. intros [k Hk]. change (go "==") with (go "=" ++ go "=") in Hk. rewrite app_assoc in Hk.
    apply (app_inv_tail (go "=")) in Hk. subst s. apply Forall_app in Hs as [_ Hs]. by apply Forall_cons in Hs as [(_ & _ & ?) _].
  - rewrite Hok. apply Htrim.
Qed.

(** base64 loses nothing. *)
Lemma std_roundtrip l : std_decode (std_encode l) = Some l.
Proof.
  pose proof (std_chars_plain l) as Hp. unfold std_decode, std_encode. set (s := std_char <$> b64_vals l) in *.
  assert (Hfil : filter (fun c => c <> x0a /\ c <> x0d) (s ++ b64_pad (length l)) = s ++ b64_pad (length l)).
  { rewrite filter_app. f_equal.
    - clear -Hp. induction Hp as [|c k (? & ? & _) _ IH]; [done |]. by rewrite filter_cons_True, IH.
    - by destruct (b64_pad_cases (length l)) as [-> | [-> | ->]]. }
  rewrite Hfil, length_app. unfold s at 1. rewrite length_fmap, b64_pad_len. cbn [Nat.eqb negb]. rewrite trim_pad by done.
  assert (mapM std_val s = Some (b64_vals l)) as ->; [|apply b64_join_vals].
  apply mapM_Some. destruct (b64_encode_vals l) as [_ Hf]. unfold s. clear -Hf.
  induction Hf as [|n k Hn Hk IH]; [constructor |]. constructor; [apply std_char_val, Hn | exact IH].
Qed.

(** A legacy key file holds its key in the clear. *)
Lemma legacy_decodes key : key <> [] -> DecodeKey (legacy_data key) = Ok key.
Proof.
  intros Hk. unfold DecodeKey, legacy_data. cbn [kf_Key]. rewrite std_roundtrip.
  assert (std_encode key <> []) as Hne by (destruct key as [|? [|? [|? ?]]]; done). by rewrite (proj2 (eqs_false _ _) Hne).
Qed.

(** ** The wrapped key *)

Section Gek1.
Context `{A2 : Argon2} `{A2S : !Argon2Spec A2} `{AE : AEAD} `{AES : !AEADSpec AE}.

Lemma derived_gcm password salt : newGCM (DeriveKeyFromPassword password salt) = Ok tt.
Proof. unfold newGCM, DeriveKeyFromPassword. by rewrite argon2_len. Qed.

(** What is drawn and how the file is laid out. *)
Lemma encode_ok masterKey password ent data ent1 : EncodeGEK1KeyFile masterKey password ent = Ok (data, ent1) ->
  exists salt nonce, ent = salt ++ nonce ++ ent1 /\ blen salt = SaltSize /\ blen nonce = NonceSize /\
    data = gek1_magic ++ salt ++ nonce ++ gcm_seal (DeriveKeyFromPassword password salt) nonce masterKey.
Proof.
  unfold EncodeGEK1KeyFile, GenerateSalt. destruct (rand_read SaltSize ent) as [[salt e1]|] eqn:E1; [|done].
  rewrite derived_gcm. destruct (rand_read NonceSize e1) as [[nonce e2]|] eqn:E2; [|done]. intros [-> ->]%ok_pair_inv.
  apply rand_read_some in E1 as [L1 ->]; [|done]. apply rand_read_some in E2 as [L2 ->]; [|done]. by exists salt, nonce.
Qed.

(** 32 bytes of salt and 12 of nonce are all the randomness it takes. *)
Lemma encode_total masterKey password ent : SaltSize + NonceSize <= blen ent ->
  exists data ent1, EncodeGEK1KeyFile masterKey password ent = Ok (data, ent1).
Proof.
  intros Hl. assert (SaltSize = 32) by done. assert (NonceSize = 12) by done. unfold EncodeGEK1KeyFile, GenerateSalt, rand_read.
  destruct (Z.leb_spec SaltSize (blen ent)); [|lia]. rewrite derived_gcm, blen_from by lia.
  destruct (Z.leb_spec NonceSize (blen ent - SaltSize)); [eauto | lia].
Qed.

Lemma is_gek1_magic r : is_gek1 (gek1_magic ++ r) = true.
Proof.
  unfold is_gek1. rewrite upto_app by done. rewrite bool_decide_true by done. rewrite andb_true_r. apply Z.leb_le. rewrite blen_app.
  pose proof (blen_nonneg r). change (blen gek1_magic) with 4. lia.
Qed.

(** Unlocking takes the file apart where encoding put it together. *)
Lemma unlock_layout salt rest password : blen salt = SaltSize ->
  unlock_data (gek1_magic ++ salt ++ rest) password = DecryptGEK1MasterKey salt rest password.
Proof.
  intros Hs. unfold unlock_data, unlockGEK1KeyFile. rewrite is_gek1_magic. assert (SaltSize = 32) by done. assert (blen gek1_magic = 4) by done.
  destruct (Z.ltb_spec (blen (gek1_magic ++ salt ++ rest)) (4 + SaltSize)) as [Hlt|_].
  { rewrite !blen_app in Hlt. pose proof (blen_nonneg rest). lia. }
  unfold slice. rewrite from_app, upto_app by lia. rewrite app_assoc, from_app by (rewrite blen_app; lia). done.
Qed.

Lemma decrypt_layout salt nonce ct password : blen nonce = NonceSize ->
  DecryptGEK1MasterKey salt (nonce ++ ct) password =
  if blen ct <? Overhead then Err EncryptedTooShort
  else match gcm_open (DeriveKeyFromPassword password salt) nonce ct with None => Err WrongPassword | Some k => Ok k end.
Proof.
  intros Hn. unfold DecryptGEK1MasterKey. rewrite derived_gcm, upto_app, from_app, blen_app, Hn by done.
  destruct (Z.ltb_spec (blen ct) Overhead), (Z.ltb_spec (NonceSize + blen ct) (NonceSize + Overhead)); (done || lia).
Qed.

(** A key file: magic, salt, nonce, ciphertext. *)
Definition gek1_file (salt nonce ct : bytes) : bytes := gek1_magic ++ salt ++ nonce ++ ct.

Lemma unlock_file salt nonce ct password : blen salt = SaltSize -> blen nonce = NonceSize ->
  unlock_data (gek1_file salt nonce ct) password =
  if blen ct <? Overhead then Err EncryptedTooShort
  else match gcm_open (DeriveKeyFromPassword password salt) nonce ct with None => Err WrongPassword | Some k => Ok k end.
Proof. intros Hs Hn. unfold gek1_file. by rewrite unlock_layout, decrypt_layout. Qed.

(** Exactly the files of this shape whose ciphertext AES-GCM accepts under the
    key derived from the password unlock. *)
Theorem unlock_exact data password key : unlock_data data password = Ok key <->
  exists salt nonce ct, data = gek1_file salt nonce ct /\ blen salt = SaltSize /\ blen nonce = NonceSize /\
    gcm_open (DeriveKeyFromPassword password salt) nonce ct = Some key.
Proof.
  assert (SaltSize = 32) by done. assert (NonceSize = 12) by done. assert (Overhead = 16) by done. split.
  - unfold unlock_data, is_gek1. destruct (Z.leb_spec 4 (blen data)); cbn [andb]; [|done]. case_bool_decide as Hm; [|done].
    unfold unlockGEK1KeyFile. destruct (Z.ltb_spec (blen data) (4 + SaltSize)); [done |]. unfold DecryptGEK1MasterKey. rewrite derived_gcm.
    destruct (Z.ltb_spec (blen (from (4 + SaltSize) data)) (NonceSize + Overhead)); [done |].
    set (enc := from (4 + SaltSize) data) in *. destruct (gcm_open _ _ _) as [k|] eqn:Eo; [|done]. intros <-%ok_inv.
    exists (slice 4 (4 + SaltSize) data), (upto NonceSize enc), (from NonceSize enc). split; [|split; [|split; [|done]]].
    + unfold gek1_file. rewrite upto_from, <- Hm. unfold enc, slice. replace (4 + SaltSize - 4) with SaltSize by lia.
      rewrite <- from_from, upto_from, upto_from by lia. done.
    + unfold slice. rewrite blen_upto; [lia |]. rewrite blen_from by lia. lia.
    + apply blen_upto. lia.
  - intros (salt & nonce & ct & -> & Hs & Hn & Ho). rewrite unlock_file, Ho by done. apply gcm_open_len in Ho.
    pose proof (blen_nonneg key). destruct (Z.ltb_spec (blen ct) Overhead); [lia | done].
Qed.

(** C19: a key file made for a password unlocks with that password to the
    same master key, whatever the key's length; with another password the outcome
    is exactly what AES-GCM says of the stored ciphertext under the other derived
    key, so that a rejected tag is reported as a wrong password; the file is 64
    bytes longer than the key, and 44 random bytes always suffice to make it. *)
Theorem gek1_roundtrip masterKey password ent : SaltSize + NonceSize <= blen ent ->
  exists salt nonce ct ent1, let data := gek1_file salt nonce ct in
    EncodeGEK1KeyFile masterKey password ent = Ok (data, ent1) /\ ent = salt ++ nonce ++ ent1 /\
    unlock_data data password = Ok masterKey /\ blen data = blen masterKey + 64 /\
    forall other, unlock_data data other =
      match gcm_open (DeriveKeyFromPassword other salt) nonce ct with None => Err WrongPassword | Some k => Ok k end.
Proof.
  intros Hl. destruct (encode_total masterKey password ent Hl) as (data & ent1 & E). pose proof E as (salt & nonce & He & Hs & Hn & Hd)%encode_ok.
  exists salt, nonce, (gcm_seal (DeriveKeyFromPassword password salt) nonce masterKey), ent1. cbn zeta. unfold gek1_file. rewrite <- Hd, E.
  assert (Hct := gcm_seal_len (DeriveKeyFromPassword password salt) nonce masterKey Hn). pose proof (blen_nonneg masterKey).
  assert (Hun : forall other, unlock_data data other = (match gcm_open (DeriveKeyFromPassword other salt) nonce
    (gcm_seal (DeriveKeyFromPassword password salt) nonce masterKey) with None => Err WrongPassword | Some k => Ok k end)).
  { intros other. rewrite Hd. fold (gek1_file salt nonce (gcm_seal (DeriveKeyFromPassword password salt) nonce masterKey)).
    rewrite unlock_file by done. destruct (Z.ltb_spec (blen (gcm_seal (DeriveKeyFromPassword password salt) nonce masterKey)) Overhead); [lia | done]. }
  split; [done |]. split; [done |]. split; [rewrite Hun; by rewrite gcm_open_seal |]. split; [|done].
  rewrite Hd, !blen_app, Hs, Hn, Hct. change (blen gek1_magic) with 4. unfold SaltSize, NonceSize, Overhead. lia.
Qed.
End Gek1.

(** ** The key file on disk *)

Lemma meta_join repoRoot s : normal s -> FpJoin [MetaDir repoRoot; s] = MetaDir repoRoot ++ slash :: s.
Proof.
  intros Hs. apply (FpJoin_nested repoRoot [MetaDirName] s); [done | | done]. repeat constructor; by_decide.
Qed.

Lemma key_path repoRoot : KeyFilePath repoRoot = MetaDir repoRoot ++ slash :: go "repo.key".
Proof. apply meta_join. by_decide. Qed.
Lemma config_path repoRoot : ConfigPath repoRoot = MetaDir repoRoot ++ slash :: go "config.json".
Proof. apply meta_join. by_decide. Qed.

Lemma key_not_staging repoRoot path u : KeyFilePath repoRoot <> staging_name path u.
Proof. rewrite key_path. change (slash :: go "repo.key") with ((slash :: go "repo.ke") ++ [x79]). rewrite app_assoc. by apply not_staging. Qed.
Lemma config_not_staging repoRoot path u : ConfigPath repoRoot <> staging_name path u.
Proof. rewrite config_path. change (slash :: go "config.json") with ((slash :: go "config.jso") ++ [x6e]). rewrite app_assoc. by apply not_staging. Qed.
Lemma key_not_config repoRoot : KeyFilePath repoRoot <> ConfigPath repoRoot.
Proof. rewrite key_path, config_path. by intros E%app_inv_head. Qed.

(** What the key file holds. *)
Definition key_data (repoRoot : bytes) (w : world) : option bytes := f_data <$> w_files w !! KeyFilePath repoRoot.

Lemma untouched_key repoRoot w w' : untouched (ConfigPath repoRoot) w w' ->
  w_files w' !! KeyFilePath repoRoot = w_files w !! KeyFilePath repoRoot.
Proof. intros H. apply H; [apply key_not_config | intros u; apply key_not_staging]. Qed.
Lemma untouched_config `{J : CfgJson} repoRoot w w' : untouched (KeyFilePath repoRoot) w w' -> stored_config repoRoot w' = stored_config repoRoot w.
Proof.
  intros H. unfold stored_config. f_equal. apply H; [intros E; by apply (key_not_config repoRoot) | intros u; apply config_not_staging].
Qed.
Lemma same_key repoRoot w w' : same w w' -> key_data repoRoot w' = key_data repoRoot w.
Proof. intros [H _]. unfold key_data. by rewrite H. Qed.

Section Facts.
Context `{A2 : Argon2} `{A2S : !Argon2Spec A2} `{AE : AEAD} `{AES : !AEADSpec AE}.
Context `{U : Uuid} `{J : CfgJson} `{JS : !CfgJsonSpec J} `{KJ : KeyJson} `{KJS : !KeyJsonSpec KJ}.

Lemma encode_unlocks masterKey password ent data ent1 : EncodeGEK1KeyFile masterKey password ent = Ok (data, ent1) ->
  is_gek1 data = true /\ unlock_data data password = Ok masterKey /\ SaltSize + NonceSize <= blen ent.
Proof.
  intros (salt & nonce & -> & Hs & Hn & ->)%encode_ok. split; [apply is_gek1_magic |]. split.
  - apply unlock_exact. exists salt, nonce, (gcm_seal (DeriveKeyFromPassword password salt) nonce masterKey). by rewrite gcm_open_seal.
  - rewrite !blen_app, Hs, Hn. pose proof (blen_nonneg ent1). lia.
Qed.

(** Saving replaces the key file by one that unlocks to the key, or not at all. *)
Lemma wp_SaveGEK1 repoRoot key password ent Q w :
  (forall e w', untouched (KeyFilePath repoRoot) w w' ->
     (w_files w' !! KeyFilePath repoRoot = w_files w !! KeyFilePath repoRoot \/
      exists d, key_data repoRoot w' = Some d /\ is_gek1 d = true /\ unlock_data d password = Ok key) ->
     (calm w -> blen ent < SaltSize + NonceSize) -> Q (Err e) w') ->
  (forall d ent1 w', untouched (KeyFilePath repoRoot) w w' -> key_data repoRoot w' = Some d -> is_gek1 d = true ->
     unlock_data d password = Ok key -> (calm w -> calm w') -> Q (Ok ent1) w') ->
  wp (SaveGEK1KeyFile repoRoot key password ent) Q w.
Proof.
  intros H1 H2. unfold SaveGEK1KeyFile. do 2 wp_step. destruct (EncodeGEK1KeyFile key password ent) as [[d ent1]|e] eqn:E; cbn beta iota.
  - apply encode_unlocks in E as (Hg & Hu & Hl). do 2 wp_step. apply wp_atomic.
    + intros e w' Hut Ho Hc. apply H1; [done | | done]. destruct Ho as [? | ?]; [by left | right; by exists d].
    + intros w' Hut Hd Hc. cbn beta iota. wp_step. by apply (H2 d).
  - apply H1; [done | by left |]. intros _. destruct (Z.lt_ge_cases (blen ent) (SaltSize + NonceSize)) as [?|Hge]; [done |].
    destruct (encode_total key password ent Hge) as (d & e1 & E'). congruence.
Qed.

Lemma wp_Unlock repoRoot password Q w :
  (forall e w', same w w' -> (calm w -> key_data repoRoot w = None) -> Q (Err (KeyRead e)) w') ->
  (forall d w', same w w' -> key_data repoRoot w = Some d -> Q (unlock_data d password) w') ->
  wp (UnlockRepoWithPassword repoRoot password) Q w.
Proof.
  intros H1 H2. unfold UnlockRepoWithPassword. do 2 wp_step. apply wp_ReadFile.
  - intros e w' Hs He Hc. apply H1; [done |]. intros Hw. unfold key_data. by rewrite (He (Hc Hw)).
  - intros f w' Hs Hf. cbn beta iota. wp_step. apply H2; [done |]. unfold key_data. by rewrite Hf.
Qed.

(** How the key is protected, from the file's content. *)
Definition mode_of (d : option bytes) : option KeyProtection :=
  match d with
  | None => Some KeyProtectionNone
  | Some data => if is_gek1 data then Some KeyProtectionGEK1
                 else match kf_unmarshal data with Some _ => Some KeyProtectionLegacyPlaintext | None => None end
  end.

Lemma wp_Mode repoRoot Q w :
  (forall e w', same w w' -> (calm w -> mode_of (key_data repoRoot w) = None) -> Q (Err e) w') ->
  (forall m w', same w w' -> mode_of (key_data repoRoot w) = Some m -> Q (Ok m) w') ->
  wp (KeyFileProtectionMode repoRoot) Q w.
Proof.
  intros H1 H2. unfold KeyFileProtectionMode. do 2 wp_step. unfold key_data in *. apply wp_ReadFile.
  - intros e w' Hs He Hc. destruct e; wp_step; [apply H2; [done | by rewrite He] | ..]; (apply H1; [done |]; intros Hw; by apply Hc in Hw).
  - intros f w' Hs Hf. rewrite Hf in H1, H2. cbn in H1, H2. cbn beta iota. destruct (is_gek1 (f_data f)); [wp_step; by apply H2 |].
    destruct (kf_unmarshal (f_data f)); wp_step; auto.
Qed.

Lemma wp_LoadKeyFile repoRoot Q w :
  (forall e w', same w w' -> (calm w -> forall d, key_data repoRoot w = Some d -> is_gek1 d = true \/ kf_unmarshal d = None) -> Q (Err e) w') ->
  (forall d kf w', same w w' -> key_data repoRoot w = Some d -> is_gek1 d = false -> kf_unmarshal d = Some kf -> Q (Ok kf) w') ->
  wp (LoadKeyFile repoRoot) Q w.
Proof.
  intros H1 H2. unfold LoadKeyFile. do 2 wp_step. unfold key_data in *. apply wp_ReadFile.
  - intros e w' Hs He Hc. apply H1; [done |]. intros Hw d. by rewrite (He (Hc Hw)).
  - intros f w' Hs Hf. rewrite Hf in H1, H2. cbn in H1, H2. cbn beta iota. destruct (is_gek1 (f_data f)) eqn:Eg; [wp_step; apply H1; [done |]; intros _ d [= <-]; by left |].
    destruct (kf_unmarshal (f_data f)) as [kf|] eqn:Eu; wp_step; [by eapply H2 |]. apply H1; [done |]. intros _ d [= <-]. by right.
Qed.

(** The key file wraps [key] under the password. *)
Definition wrapped (repoRoot password key : bytes) (w : world) : Prop :=
  exists d, key_data repoRoot w = Some d /\ is_gek1 d = true /\ unlock_data d password = Ok key.

(** What is left of a migration: the old key file or the new one, whole. *)
Definition migration (repoRoot password ent key : bytes) (w : world) (r : result kerr unit) (w' : world) : Prop :=
  untouched (KeyFilePath repoRoot) w w' /\
  (w_files w' !! KeyFilePath repoRoot = w_files w !! KeyFilePath repoRoot \/ wrapped repoRoot password key w') /\
  (r = Ok tt -> wrapped repoRoot password key w') /\
  (calm w -> password <> [] -> SaltSize + NonceSize <= blen ent -> r = Ok tt).

Lemma migration_stop repoRoot password ent key w e w' :
  same w w' -> (calm w -> password <> [] -> False) -> migration repoRoot password ent key w (Err e) w'.
Proof.
  intros Hs Hno. split; [by apply same_untouched |]. split; [left; by rewrite (same_files _ _ Hs) |]. split; [done |]. intros; tauto.
Qed.

Lemma migration_end repoRoot password ent key w w1 w2 r :
  untouched (KeyFilePath repoRoot) w w1 -> wrapped repoRoot password key w1 -> same w1 w2 -> (calm w -> r = Ok tt) ->
  migration repoRoot password ent key w r w2.
Proof.
  intros Hu (d & Hd & Hg & Hk) Hs Hr. assert (wrapped repoRoot password key w2) by (exists d; by rewrite (same_key _ _ _ Hs)).
  split; [etrans; [exact Hu | by apply same_untouched] | by auto].
Qed.

(** C18: migrating a legacy key file never loses the master key: whatever fails,
    the key file afterwards is the old one or a complete GEK1 file that unlocks
    with the password to the same key, and only it and its staging file are
    touched; success means the latter, and without failures, with a password and
    44 random bytes the migration succeeds. *)
Theorem migrate_keeps_key repoRoot password ent w data kf key :
  key_data repoRoot w = Some data -> is_gek1 data = false -> kf_unmarshal data = Some kf -> DecodeKey kf = Ok key ->
  wp (MigrateKeyFileToGEK1 repoRoot password ent) (migration repoRoot password ent key w) w.
Proof.
  intros Hd Hg Hu Hk.
  assert (Hmode : mode_of (key_data repoRoot w) = Some KeyProtectionLegacyPlaintext) by (rewrite Hd; cbn; by rewrite Hg, Hu).
  unfold MigrateKeyFileToGEK1. destruct (eqs password []) eqn:Ep; [apply eqs_true in Ep; wp_step; by apply migration_stop |].
  wp_step. apply wp_Mode; [intros e w1 S1 Hn; apply migration_stop; [done |]; intros Hc _; apply Hn in Hc; congruence |].
  intros m w1 S1 Hm. rewrite Hmode in Hm. injection Hm as <-. cbn beta iota. wp_step. apply wp_LoadKeyFile.
  { intros e w2 S2 Hn. apply migration_stop; [by etrans |]. intros Hc _. rewrite (same_key _ _ _ S1) in Hn.
    destruct (Hn (same_faults _ _ S1 Hc) data Hd); congruence. }
  intros d kf' w2 S2 Hd2 _ Hu2. rewrite (same_key _ _ _ S1), Hd in Hd2. injection Hd2 as <-. rewrite Hu in Hu2. injection Hu2 as <-.
  cbn beta iota. do 2 wp_step. rewrite Hk. cbn beta iota. assert (S : same w w2) by (by etrans). wp_step. apply wp_SaveGEK1.
  { intros e w3 Ht Ho Hc. split; [etrans; [by apply same_untouched | done] |]. split; [|split; [done |]].
    - destruct Ho as [Ho | Ho]; [left; by rewrite Ho, (same_files _ _ S) | right; exact Ho].
    - intros Hcw _ Hl. apply (same_faults _ _ S), Hc in Hcw. lia. }
  intros d ent1 w3 Ht Hd3 Hg3 Hu3 Hc3. cbn beta iota. do 2 wp_step. assert (untouched (KeyFilePath repoRoot) w w3) by (etrans; [by apply same_untouched | done]).
  assert (wrapped repoRoot password key w3) by (by exists d). apply wp_Unlock.
  - intros e w4 S4 Hn. eapply migration_end; [done .. |]. intros Hcw. rewrite (Hn (Hc3 (same_faults _ _ S Hcw))) in Hd3. done.
  - intros d' w4 S4 Hd4. assert (d' = d) as -> by congruence. rewrite Hu3. cbn beta iota. rewrite eqs_refl. wp_step. by eapply migration_end.
Qed.

(** Anything but a legacy key file is refused and left alone. *)
Theorem migrate_refuses repoRoot password ent w :
  password = [] \/ mode_of (key_data repoRoot w) <> Some KeyProtectionLegacyPlaintext ->
  wp (MigrateKeyFileToGEK1 repoRoot password ent) (fun r w' => is_ok r = false /\ same w w') w.
Proof.
  intros Hno. unfold MigrateKeyFileToGEK1. destruct (eqs password []) eqn:Ep; [by wp_step |]. apply eqs_false in Ep.
  destruct Hno as [? | Hno]; [done |]. wp_step. apply wp_Mode; [done |]. intros m w1 S1 Hm. destruct m; [by wp_step | done | by wp_step].
Qed.

(** Marking the configuration encrypted leaves the key file alone. *)
Lemma wp_mark repoRoot c Q w : stored_config repoRoot w = Some c -> cfg_text (set_encrypted c) ->
  (forall e w', w_files w' !! KeyFilePath repoRoot = w_files w !! KeyFilePath repoRoot -> ~ calm w -> Q (Err e) w') ->
  (forall w', w_files w' !! KeyFilePath repoRoot = w_files w !! KeyFilePath repoRoot ->
     stored_config repoRoot w' = Some (set_encrypted c) -> Q (Ok tt) w') ->
  wp (mark_encrypted repoRoot) Q w.
Proof.
  intros Hs Ht H1 H2. unfold mark_encrypted. do 2 wp_step. apply wp_LoadConfig.
  { intros e w1 S1 Hn. apply H1; [by rewrite (same_files _ _ S1) |]. intros Hc. rewrite (Hn Hc) in Hs. done. }
  intros c' w1 S1 Hc'. assert (c' = c) as -> by congruence. cbn beta iota. wp_step. apply wp_SaveConfig; [done | |].
  - intros e w2 Hu _ Hc. apply H1; [by rewrite (untouched_key _ _ _ Hu), (same_files _ _ S1) |]. intros Hcw. by apply Hc, (same_faults _ _ S1).
  - intros w2 Hu Hst _. by apply H2; [rewrite (untouched_key _ _ _ Hu), (same_files _ _ S1) |].
Qed.

(** Initialising a repository with a password, whatever fails: the key file
    is as it was or wraps the 32 random bytes drawn for the master key under the
    password, never anything in between and never the key in the clear; success
    means that it is wrapped and that the stored configuration is a marked
    encrypted one; without failures, where there is no repository and with
    76 random bytes, initialisation succeeds. *)
Theorem init_password_wraps repoRoot deviceID password now draw ent w :
  (forall id pol, draw = Some pol -> let c := set_pol pol (DefaultConfig id now deviceID) in cfg_text c /\ cfg_text (set_encrypted c)) ->
  wp (InitRepoWithPassword repoRoot deviceID password now draw ent) (fun r w' =>
    (w_files w' !! KeyFilePath repoRoot = w_files w !! KeyFilePath repoRoot \/ wrapped repoRoot password (upto 32 ent) w') /\
    (r = Ok tt -> wrapped repoRoot password (upto 32 ent) w' /\
       exists c, stored_config repoRoot w' = Some c /\ cf_Format c = FormatGBF /\ cf_Encrypted c = true) /\
    (calm w -> no_repo repoRoot w -> is_Some draw -> 76 <= blen ent -> r = Ok tt)) w.
Proof.
  intros Ht. unfold InitRepoWithPassword. do 2 wp_step. apply wp_InitRepo; [intros; by apply Ht | |].
  { intros e w1 Hu Hn. split; [left; by apply untouched_key |]. split; [done |]. intros Hc Hno [p Hp] _. rewrite (Hn Hc Hno) in Hp. done. }
  intros id pol w1 Hdraw Hu1 Hst1 Hc1. apply untouched_key in Hu1. cbn beta iota. do 2 wp_step. unfold GenerateRandomKey, rand_read.
  destruct (Z.leb_spec 32 (blen ent)) as [Hl|Hl]; cbn beta iota; [|split; [by left |]; split; [done |]; intros; lia].
  wp_step. apply wp_SaveGEK1.
  { intros e w2 Hu Ho Hc. split; [destruct Ho as [Ho | Ho]; [left; congruence | by right] |]. split; [done |]. intros Hcw _ _ Hent.
    apply Hc1, Hc in Hcw. rewrite blen_from in Hcw by lia. unfold SaltSize, NonceSize in Hcw. lia. }
  intros d ent1 w2 Hu2 Hd2 Hg2 Hk2 Hc2. cbn beta iota. destruct (Ht id pol Hdraw) as [_ Hte].
  assert (Hw : forall w3, w_files w3 !! KeyFilePath repoRoot = w_files w2 !! KeyFilePath repoRoot -> wrapped repoRoot password (upto 32 ent) w3).
  { intros w3 E. exists d. unfold key_data in *. by rewrite E. }
  eapply wp_mark; [by rewrite (untouched_config _ _ _ Hu2) | done | |].
  - intros e w3 E Hc. split; [right; by apply Hw |]. split; [done |]. intros Hcw. exfalso. auto.
  - intros w3 E Hst3. split; [right; by apply Hw |]. split; [|done]. intros _. split; [by apply Hw |]. by eexists.
Qed.

(** The same for the legacy variant, which writes the key in base64. *)
Theorem init_keyfile_plain repoRoot deviceID now draw ent w :
  (forall id pol, draw = Some pol -> let c := set_pol pol (DefaultConfig id now deviceID) in cfg_text c /\ cfg_text (set_encrypted c)) ->
  kf_text (legacy_data (upto 32 ent)) ->
  wp (InitRepoWithKeyFile repoRoot deviceID now draw ent) (fun r w' => r = Ok tt ->
    exists d kf, key_data repoRoot w' = Some d /\ is_gek1 d = false /\ kf_unmarshal d = Some kf /\ DecodeKey kf = Ok (upto 32 ent)) w.
Proof.
  intros Ht Hkt. unfold InitRepoWithKeyFile. do 2 wp_step. apply wp_InitRepo; [intros; by apply Ht | done |].
  intros id pol w1 Hdraw Hu1 Hst1 Hc1. cbn beta iota. do 2 wp_step. unfold GenerateRandomKey, rand_read.
  destruct (Z.leb_spec 32 (blen ent)) as [Hl|Hl]; cbn beta iota; [|done]. do 2 wp_step. apply wp_atomic; [done |].
  intros w2 Hu2 Hd2 Hc2. cbn beta iota. destruct (Ht id pol Hdraw) as [_ Hte].
  eapply wp_mark; [by rewrite (untouched_config _ _ _ Hu2) | done | done |].
  intros w3 E Hst3 _. exists (kf_marshal (legacy_data (upto 32 ent))), (legacy_data (upto 32 ent)). unfold key_data. rewrite E. split; [done |]. split.
  - destruct (kf_object (legacy_data (upto 32 ent))) as [t ->]. unfold is_gek1. rewrite bool_decide_false by done. apply andb_false_r.
  - split; [by apply kf_roundtrip |]. apply legacy_decodes. intros E0. apply (f_equal blen) in E0. rewrite blen_upto in E0 by lia. done.
Qed.
End Facts.

(** ** Witnesses *)

Module KeysWitness.
Import ConfigWitness Toy.

#[local] Instance toy_kf : KeyJson := {
  kf_marshal k := x7b :: kf_Key k;
  kf_unmarshal d := match d with b :: r => if bool_decide (b = x7b) then Some (MkKeyFile 1 (go "aes-256-gcm") r []) else None | [] => None end
}.
#[local] Instance toy_kf_spec : KeyJsonSpec toy_kf.
Proof. refine {| kf_text k := exists key, k = legacy_data key |}; [by intros k [key ->] | intros k; by eexists]. Defined.
#[local] Instance key_uuid : Uuid := toy_uuid.

Definition r : bytes := go "/r".
Definition ent (b : byte) : bytes := repeat b 80.

Lemma gek1_roundtrip_witness : exists data e1, EncodeGEK1KeyFile (repeat x07 32) (go "pw") (ent x01) = Ok (data, e1) /\
  unlock_data data (go "pw") = Ok (repeat x07 32) /\ blen data = 96.
Proof.
  destruct (gek1_roundtrip (repeat x07 32) (go "pw") (ent x01) ltac:(by_decide)) as (salt & nonce & ct & e1 & E & _ & Hu & Hl & _).
  exists (gek1_file salt nonce ct), e1. by split.
Defined.

(** A repository with a legacy key file, whose migration is cut off in the
    middle of the write, and one where nothing fails. *)
Definition old_file : bytes := kf_marshal (legacy_data (repeat x07 32)).
Definition w_legacy (faults : list (option fault)) : world :=
  World {[ KeyFilePath r := File old_file 1 ]} faults [] 5 0.
Definition cut : list (option fault) := repeat None 4 ++ repeat (Some (Fault false 10)) 9.

Lemma old_key f : key_data r (w_legacy f) = Some old_file /\ is_gek1 old_file = false /\
  kf_unmarshal old_file = Some (legacy_data (repeat x07 32)) /\ DecodeKey (legacy_data (repeat x07 32)) = Ok (repeat x07 32).
Proof. split; [|split; [|split]]; vm_compute; reflexivity. Qed.

Lemma migrate_keeps_key_witness :
  migration r (go "pw") (ent x01) (repeat x07 32) (w_legacy cut) (Err (KeyWrite EIO)) (MigrateKeyFileToGEK1 r (go "pw") (ent x01) (w_legacy cut)).2 /\
  (MigrateKeyFileToGEK1 r (go "pw") (ent x01) (w_legacy [])).1 = Ok tt.
Proof.
  split.
  - destruct (old_key cut) as (H1 & H2 & H3 & H4). pose proof (migrate_keeps_key r (go "pw") (ent x01) (w_legacy cut) _ _ _ H1 H2 H3 H4) as H.
    unfold wp in H. assert (E : (MigrateKeyFileToGEK1 r (go "pw") (ent x01) (w_legacy cut)).1 = Err (KeyWrite EIO)) by (vm_compute; reflexivity).
    rewrite E in H. exact H.
  - destruct (old_key []) as (H1 & H2 & H3 & H4).
    pose proof (migrate_keeps_key r (go "pw") (ent x01) (w_legacy []) _ _ _ H1 H2 H3 H4) as H. unfold wp in H. destruct H as (_ & _ & _ & H).
    refine (H (conj eq_refl eq_refl) _ _); [discriminate | by_decide].
Defined.

Lemma texts id pol : Some 5 = Some pol ->
  let c := set_pol pol (DefaultConfig id (go "now") (go "dev1")) in cfg_text c /\ cfg_text (set_encrypted c).
Proof. intros [= <-]. split; exists id, 5; (split; [done |]); [by left | by right]. Qed.

Definition repo : world := (InitRepoWithPassword r (go "dev1") (go "pw") (go "now") (Some 5) (ent x01) w_empty).2.

Lemma init_password_wraps_witness :
  (InitRepoWithPassword r (go "dev1") (go "pw") (go "now") (Some 5) (ent x01) w_empty).1 = Ok tt /\
  wrapped r (go "pw") (repeat x01 32) repo.
Proof.
  pose proof (init_password_wraps r (go "dev1") (go "pw") (go "now") (Some 5) (ent x01) w_empty texts) as H. unfold wp in H. destruct H as (_ & H1 & H2).
  assert (E : (InitRepoWithPassword r (go "dev1") (go "pw") (go "now") (Some 5) (ent x01) w_empty).1 = Ok tt).
  { refine (H2 (conj eq_refl eq_refl) _ (ex_intro _ 5 eq_refl) _); [split; vm_compute; reflexivity | by_decide]. }
  split; [exact E | exact (proj1 (H1 E))].
Defined.

(** The same repository with a snapshot in it, met by two failing reads. *)
Definition repo_failing : world :=
  World (<[ManifestsDir (MetaDir r) ++ go "/home/1_dev1.json.zst" := File [] 1]> (w_files repo)) [Some (Fault false 0); Some (Fault false 0)] [] 6 (w_draws repo).

(** An existing repository whose configuration and manifests cannot be read for
    a moment is initialised again: the key file is replaced and the master key
    of every stored blob is gone. *)
Example init_fault_replaces_key :
  exists w', InitRepoWithPassword r (go "dev1") (go "other") (go "now") (Some 5) (ent x02) repo_failing = (Ok tt, w') /\
    (UnlockRepoWithPassword r (go "pw") repo).1 = Ok (repeat x01 32) /\
    (UnlockRepoWithPassword r (go "pw") w').1 = Err WrongPassword /\
    (UnlockRepoWithPassword r (go "other") w').1 = Ok (repeat x02 32).
Proof.
  exists (InitRepoWithPassword r (go "dev1") (go "other") (go "now") (Some 5) (ent x02) repo_failing).2. split; [|split; [|split]]; vm_compute; reflexivity.
Qed.

(** A failure after the key file is written leaves a repository that has a key
    but says it is not encrypted, and that cannot be initialised again. *)
Example init_half_done :
  exists w', InitRepoWithPassword r (go "dev1") (go "pw") (go "now") (Some 5) (ent x01) (World ∅ (repeat None 23 ++ [Some (Fault false 0)]) [] 5 0) = (Err (KeyConfig (CfgRead EIO)), w') /\
    (UnlockRepoWithPassword r (go "pw") w').1 = Ok (repeat x01 32) /\
    cf_Encrypted <$> stored_config r w' = Some false /\
    (InitRepoWithPassword r (go "dev1") (go "pw") (go "now") (Some 5) (ent x01) w').1 = Err (KeyConfig CfgInitialised).
Proof.
  exists (InitRepoWithPassword r (go "dev1") (go "pw") (go "now") (Some 5) (ent x01) (World ∅ (repeat None 23 ++ [Some (Fault false 0)]) [] 5 0)).2.
  split; [|split; [|split]]; vm_compute; reflexivity.
Qed.
End KeysWitness.
