(* ===== verification/GcmCache.v ===== *)
(** GcmCache: the keyed AEAD primitive and its cache ([crypto/aes.go],
    [vault/encryptor.go]).

    [AESEncryptor] keeps one AEAD per key, filed under the SHA-256 of the key,
    for at most 256 keys.  Any number of goroutines call it at once: a
    configuration has the map, the entries it has ever pointed to (shared, and
    compared by identity) and the threads inside [getGCM]; a step is one
    critical section of the mutex, one stage of [sync.Once], or one read.  An
    AEAD is named by the key it was built from. *)

From S2P Require Import Prelude GoStr Externs.
From stdpp Require Import base list gmap strings relations.
From Stdlib.Strings Require Import Byte.
Local Open Scope Z_scope.

Inductive aerr := BadKeySize | AesInit (e : aerr) | NonceFailed | CtTooShort | GcmOpen.

#[export] Instance aerr_eq_dec : EqDecision aerr.
Proof. solve_decision. Defined.

Definition maxGCMCacheEntries : nat := 256.

(** [aes.NewCipher] then [cipher.NewGCM]. *)
Definition newGCM (key : bytes) : result aerr bytes :=
  if (blen key =? 16) || (blen key =? 24) || (blen key =? 32) then Ok key else Err BadKeySize.

(** A [gcmEntry]: its [sync.Once] and what the construction gave. *)
Inductive gcmEntry := ENew | ERunning | EDone (r : result aerr bytes).

(** Where a call of [getGCM] is. *)
Inductive pc :=
| GLookup
| GUncached
| GOnce (id : nat)
| GRun (id : nat)
| GCheck (id : nat)
| GClean (id : nat) (e : aerr)
| GDone (r : result aerr bytes).

Record thread := Thread { t_key : bytes; t_pc : pc }.

Record conf := Conf {
  c_cache : gmap bytes nat;
  c_entries : list gcmEntry;
  c_thr : list thread
}.

Section Cache.
Context `{SH : Sha256}.

(** One step of a call for [key]; [None] when it waits or has returned. *)
Definition getGCM_step (key : bytes) (C : gmap bytes nat) (E : list gcmEntry) (p : pc) : option (gmap bytes nat * list gcmEntry * pc) :=
  let keyStr := sha256 key in
  match p with
  | GLookup =>
      match C !! keyStr with
      | Some entry => Some (C, E, GOnce entry)
      | None => if decide (maxGCMCacheEntries <= size C)%nat then Some (C, E, GUncached)
                else Some (<[keyStr := length E]> C, E ++ [ENew], GOnce (length E))
      end
  | GUncached => Some (C, E, GDone (newGCM key))
  | GOnce id =>
      match E !! id with
      | Some ENew => Some (C, <[id := ERunning]> E, GRun id)
      | Some (EDone _) => Some (C, E, GCheck id)
      | _ => None
      end
  | GRun id => Some (C, <[id := EDone (newGCM key)]> E, GCheck id)
  | GCheck id =>
      match E !! id with
      | Some (EDone (Ok gcm)) => Some (C, E, GDone (Ok gcm))
      | Some (EDone (Err e)) => Some (C, E, GClean id e)
      | _ => None
      end
  | GClean id e =>
      Some (if decide (C !! keyStr = Some id) then delete keyStr C else C, E, GDone (Err e))
  | GDone _ => None
  end.

Definition step (i : nat) (c : conf) : option conf :=
  t ← c_thr c !! i;
  '(C, E, p) ← getGCM_step (t_key t) (c_cache c) (c_entries c) (t_pc t);
  Some (Conf C E (<[i := Thread (t_key t) p]> (c_thr c))).

Definition cstep (c c' : conf) : Prop := exists i, step i c = Some c'.

(** Calls for the given keys on a new encryptor ([NewAESEncryptor]). *)
Definition start (keys : list bytes) : conf := Conf ∅ [] ((fun k => Thread k GLookup) <$> keys).

(** A schedule: which thread moves next; one that cannot move is passed over. *)
Fixpoint run (sched : list nat) (c : conf) : conf :=
  match sched with
  | [] => c
  | i :: l => run l (match step i c with Some c' => c' | None => c end)
  end.
End Cache.

(** ** The encryptor's operations, on what [getGCM] returned *)

Section Ops.
Context `{AE : AEAD} `{HK : Hkdf}.

Definition Encrypt (gcm : result aerr bytes) (plaintext ent : bytes) : result aerr (bytes * bytes) :=
  match gcm with
  | Err e => Err (AesInit e)
  | Ok g =>
      match rand_read NonceSize ent with
      | None => Err NonceFailed
      | Some (nonce, ent') => Ok (nonce ++ gcm_seal g nonce plaintext, ent')
      end
  end.

Definition Decrypt (gcm : result aerr bytes) (ciphertext : bytes) : result aerr bytes :=
  match gcm with
  | Err e => Err (AesInit e)
  | Ok g =>
      if blen ciphertext <? NonceSize then Err CtTooShort
      else match gcm_open g (upto NonceSize ciphertext) (from NonceSize ciphertext) with
           | None => Err GcmOpen
           | Some plaintext => Ok plaintext
           end
  end.

Definition DeriveKey (masterKey purpose : bytes) : bytes := hkdf32 masterKey purpose.
End Ops.

(** * Facts *)

Section Facts.
Context `{SH : Sha256}.

(** The entry a call is working with. *)
Definition at_entry (p : pc) : option nat :=
  match p with GOnce id | GRun id | GCheck id | GClean id _ => Some id | _ => None end.

(** What a call knows: the entry it works with was made for its key's hash
    ([own] gives that hash), it is there and, past the construction, filled; a
    result is the construction for a key of the same hash. *)
Definition thr_ok (keys own : list bytes) (E : list gcmEntry) (t : thread) : Prop :=
  (forall id, at_entry (t_pc t) = Some id -> own !! id = Some (sha256 (t_key t))) /\
  match t_pc t with
  | GRun id => E !! id = Some ERunning
  | GCheck id => exists r, E !! id = Some (EDone r)
  | GClean id e => E !! id = Some (EDone (Err e))
  | GDone r => exists k, k ∈ keys /\ sha256 k = sha256 (t_key t) /\ r = newGCM k
  | _ => True
  end.

Record inv (keys own : list bytes) (c : conf) : Prop := Inv {
  inv_size : (size (c_cache c) <= maxGCMCacheEntries)%nat;
  inv_own : length own = length (c_entries c);
  inv_keys : t_key <$> c_thr c = keys;
  inv_cache h id : c_cache c !! h = Some id -> own !! id = Some h;
  inv_thr i t : c_thr c !! i = Some t -> thr_ok keys own (c_entries c) t;
  inv_one i j k k' id : c_thr c !! i = Some (Thread k (GRun id)) -> c_thr c !! j = Some (Thread k' (GRun id)) -> i = j;
  inv_running id : c_entries c !! id = Some ERunning -> exists i k, c_thr c !! i = Some (Thread k (GRun id));
  inv_done id r : c_entries c !! id = Some (EDone r) -> exists k, k ∈ keys /\ own !! id = Some (sha256 k) /\ r = newGCM k;
  inv_live h id : c_cache c !! h = Some id ->
    (exists g, c_entries c !! id = Some (EDone (Ok g))) \/ exists i t, c_thr c !! i = Some t /\ at_entry (t_pc t) = Some id
}.

Lemma entry_lookup_upd (T : list thread) i j t u : (<[i := t]> T) !! j = Some u -> (i = j /\ u = t) \/ (i <> j /\ T !! j = Some u).
Proof. intros H. apply list_lookup_insert_Some in H. naive_solver. Qed.

Lemma keys_upd (T : list thread) i k p p' : T !! i = Some (Thread k p) -> t_key <$> <[i := Thread k p']> T = t_key <$> T.
Proof.
  intros Hi. rewrite list_fmap_insert. apply list_insert_id. by rewrite list_lookup_fmap, Hi.
Qed.

Lemma prefix_lookup_own (own own' : list bytes) id h : own `prefix_of` own' -> own !! id = Some h -> own' !! id = Some h.
Proof. intros. by eapply prefix_lookup_Some. Qed.

Lemma key_in keys own c i t : inv keys own c -> c_thr c !! i = Some t -> t_key t ∈ keys.
Proof. intros I Hi. rewrite <- (inv_keys _ _ _ I). apply list_elem_of_fmap. exists t. split; [done | by eapply list_elem_of_lookup_2]. Qed.

(** What one thread has to establish so that a step keeps the invariant. *)
Lemma inv_update keys own own' C E T i k p C' E' p' :
  inv keys own (Conf C E T) -> T !! i = Some (Thread k p) ->
  (size C' <= maxGCMCacheEntries)%nat -> length own' = length E' -> own `prefix_of` own' ->
  (forall h id, C' !! h = Some id -> own' !! id = Some h) ->
  (forall id r, E !! id = Some (EDone r) -> E' !! id = Some (EDone r)) ->
  (forall id, E !! id = Some ERunning -> E' !! id = Some ERunning \/ p = GRun id) ->
  (forall id r, E' !! id = Some (EDone r) -> E !! id = Some (EDone r) \/ (p = GRun id /\ r = newGCM k)) ->
  (forall id, E' !! id = Some ERunning -> (E !! id = Some ERunning /\ p <> GRun id) \/ p' = GRun id) ->
  (forall id, p' = GRun id -> E !! id = Some ENew) ->
  thr_ok keys own' E' (Thread k p') ->
  (forall h id, C' !! h = Some id -> at_entry p' = Some id \/
     (C !! h = Some id /\ (at_entry p <> Some id \/ exists g, E' !! id = Some (EDone (Ok g))))) ->
  inv keys own' (Conf C' E' (<[i := Thread k p']> T)).
Proof.
  intros I Hi Hsz Hlen Hpre HC' Hdone Hrun Hdone' Hrun' Hnew Hok Hlive. pose proof (prefix_lookup_own own own') as Hown.
  pose proof (list_lookup_insert_eq T i (Thread k p') (lookup_lt_Some _ _ _ Hi)) as Hi'.
  assert (Hother : forall j u, T !! j = Some u -> j <> i -> <[i := Thread k p']> T !! j = Some u) by (intros; by rewrite list_lookup_insert_ne).
  split; cbn; [done | done | | done | | | | |].
  - rewrite (keys_upd _ _ _ _ _ Hi). apply (inv_keys _ _ _ I).
  - intros j u Hj. apply entry_lookup_upd in Hj as [[<- ->] | [Hne Hj]]; [done |]. destruct (inv_thr _ _ _ I j u Hj) as [H1 H2].
    split; [eauto |]. destruct u as [ku pu]. cbn in *. destruct pu as [| |id|id|id|id e|r]; try done.
    + destruct (Hrun id H2) as [? | ->]; [done |]. destruct Hne. by eapply (inv_one _ _ _ I).
    + destruct H2 as [r H2]. eauto.
    + eauto.
  - intros a b ka kb id Ha Hb. apply entry_lookup_upd in Ha as [[<- Ea] | [Hna Ha]]; apply entry_lookup_upd in Hb as [[<- Eb] | [Hnb Hb]]; [done | | |].
    + injection Ea as _ <-. pose proof (inv_thr _ _ _ I _ _ Hb) as [_ Hr]. cbn in Hr. by rewrite (Hnew id eq_refl) in Hr.
    + injection Eb as _ <-. pose proof (inv_thr _ _ _ I _ _ Ha) as [_ Hr]. cbn in Hr. by rewrite (Hnew id eq_refl) in Hr.
    + by eapply (inv_one _ _ _ I).
  - intros id Hid. destruct (Hrun' id Hid) as [[Hr Hp] | ->]; [|by eexists _, _].
    destruct (inv_running _ _ _ I id Hr) as (j & kj & Hj). exists j, kj. apply Hother; [done |]. intros ->. cbn in Hj. rewrite Hi in Hj. injection Hj as _ E0. by apply Hp.
  - intros id r Hid. destruct (Hdone' id r Hid) as [Hr | [-> ->]].
    + destruct (inv_done _ _ _ I id r Hr) as (k' & ? & ? & ?). exists k'. eauto.
    + exists k. split; [by apply (key_in _ _ _ _ _ I Hi) |]. split; [|done]. apply Hown; [done |]. by apply (inv_thr _ _ _ I _ _ Hi).
  - intros h id Hh. destruct (Hlive h id Hh) as [Hp | [Hc Hp]]; [right; by exists i, (Thread k p') |].
    destruct Hp as [Hp | ?]; [|by left]. destruct (inv_live _ _ _ I h id Hc) as [[g Hg] | (j & u & Hj & Hu)]; [left; eauto |].
    right. exists j, u. split; [|done]. apply Hother; [done |]. intros ->. cbn in Hj. rewrite Hi in Hj. injection Hj as <-. by apply Hp.
Qed.

(** Setting an entry that is not filled keeps the others. *)
Lemma entry_set (E : list gcmEntry) id x y d e : E !! id = Some x -> <[id := y]> E !! d = Some e ->
  (d = id /\ e = y) \/ (d <> id /\ E !! d = Some e).
Proof. intros Hx H. apply list_lookup_insert_Some in H. naive_solver. Qed.


Section Step.
Context {keys own : list bytes} {C : gmap bytes nat} {E : list gcmEntry} {T : list thread} {i : nat} {k : bytes} {p : pc}.
Context (I : inv keys own (Conf C E T)) (Hi : T !! i = Some (Thread k p)).

(** A step that changes nothing shared. *)
Lemma inv_quiet p' : thr_ok keys own E (Thread k p') -> (forall id, p' <> GRun id) -> (forall id, p <> GRun id) ->
  (forall h id, C !! h = Some id -> at_entry p = Some id -> at_entry p' = Some id \/ exists g, E !! id = Some (EDone (Ok g))) ->
  inv keys own (Conf C E (<[i := Thread k p']> T)).
Proof.
  intros Hok Hnr Hnr0 Hl. eapply inv_update; try done; [exact (inv_size _ _ _ I) | exact (inv_own _ _ _ I) | exact (inv_cache _ _ _ I) | by left | by left | by intros id Hid; left | intros id Hid; by apply Hnr in Hid |].
  intros h id Hh. destruct (decide (at_entry p = Some id)) as [Ha|Ha]; [|by auto]. destruct (Hl h id Hh Ha); auto.
Qed.

(** A new entry is filed. *)
Lemma inv_file : p = GLookup -> C !! sha256 k = None -> ~ (maxGCMCacheEntries <= size C)%nat ->
  inv keys (own ++ [sha256 k]) (Conf (<[sha256 k := length E]> C) (E ++ [ENew]) (<[i := Thread k (GOnce (length E))]> T)).
Proof.
  intros -> Ec Hf. pose proof (inv_own _ _ _ I) as Hlen. cbn in Hlen.
  assert (Hlast : (own ++ [sha256 k]) !! length E = Some (sha256 k)) by (by rewrite lookup_app_r, <- Hlen, Nat.sub_diag by lia).
  assert (Hold : forall d e, (E ++ [ENew]) !! d = Some e -> E !! d = Some e \/ e = ENew).
  { intros d e [Hd | [_ Hd]]%lookup_app_Some; [by left |]. apply list_lookup_singleton_Some in Hd as [_ ?]. by right. }
  eapply inv_update; try done.
  - rewrite map_size_insert_None by done. lia.
  - rewrite !length_app. cbn. lia.
  - by apply prefix_app_r.
  - intros h d. destruct (decide (h = sha256 k)) as [-> | Hne]; [rewrite lookup_insert_eq; by intros [= <-] | rewrite lookup_insert_ne by done; intros Hd].
    apply lookup_app_l_Some. exact (inv_cache _ _ _ I _ _ Hd).
  - intros d r Hd. by apply lookup_app_l_Some.
  - intros d Hd. left. by apply lookup_app_l_Some.
  - intros d r Hd. left. by destruct (Hold _ _ Hd).
  - intros d Hd. left. by destruct (Hold _ _ Hd).
  - split; cbn; [|done]. by intros d [= <-].
  - intros h d. destruct (decide (h = sha256 k)) as [-> | Hne]; [rewrite lookup_insert_eq; intros [= <-]; by left |].
    rewrite lookup_insert_ne by done. auto.
Qed.

(** The first call at an entry starts its construction. *)
Lemma cache_inv_begin id : p = GOnce id -> E !! id = Some ENew -> inv keys own (Conf C (<[id := ERunning]> E) (<[i := Thread k (GRun id)]> T)).
Proof.
  intros -> Ee. assert (Hs := entry_set E id ENew ERunning). destruct (inv_thr _ _ _ I _ _ Hi) as [Hat _]. eapply inv_update; try done.
  - exact (inv_size _ _ _ I).
  - rewrite length_insert. exact (inv_own _ _ _ I).
  - exact (inv_cache _ _ _ I).
  - intros d r Hd. rewrite list_lookup_insert_ne; [done | congruence].
  - intros d Hd. left. rewrite list_lookup_insert_ne; [done | congruence].
  - intros d r Hd. destruct (Hs d (EDone r) Ee Hd) as [[_ ?] | [_ ?]]; [done | by left].
  - intros d Hd. destruct (Hs d ERunning Ee Hd) as [[-> _] | [_ ?]]; [by right | by left].
  - by intros d [= <-].
  - split; cbn; [done |]. apply list_lookup_insert_eq. by eapply lookup_lt_Some.
  - intros h d Hd. destruct (decide (d = id)) as [-> | Hne]; [by left | right; split; [done |]; left; cbn; congruence].
Qed.

(** It fills the entry. *)
Lemma inv_fill id : p = GRun id -> inv keys own (Conf C (<[id := EDone (newGCM k)]> E) (<[i := Thread k (GCheck id)]> T)).
Proof.
  intros ->. destruct (inv_thr _ _ _ I _ _ Hi) as [Hat Hp]. cbn in Hat, Hp. assert (Hs := entry_set E id ERunning (EDone (newGCM k))). eapply inv_update; try done.
  - exact (inv_size _ _ _ I).
  - rewrite length_insert. exact (inv_own _ _ _ I).
  - exact (inv_cache _ _ _ I).
  - intros d r Hd. rewrite list_lookup_insert_ne; [done | congruence].
  - intros d Hd. destruct (decide (d = id)) as [-> | Hne]; [by right | left; by rewrite list_lookup_insert_ne].
  - intros d r Hd. destruct (Hs d (EDone r) Hp Hd) as [[-> [= ->]] | [_ ?]]; [by right | by left].
  - intros d Hd. destruct (Hs d ERunning Hp Hd) as [[_ ?] | [Hne ?]]; [done | left; split; [done | congruence]].
  - split; cbn; [done |]. eexists. apply list_lookup_insert_eq. by eapply lookup_lt_Some.
  - intros h d Hd. destruct (decide (d = id)) as [-> | Hne]; [by left | right; split; [done |]; left; cbn; congruence].
Qed.

(** The result of a filled entry is the one for the caller's key hash. *)
Lemma filled_ok id r : at_entry p = Some id -> E !! id = Some (EDone r) -> thr_ok keys own E (Thread k (GDone r)).
Proof.
  intros Ha He. split; cbn; [done |]. destruct (inv_done _ _ _ I id r He) as (k' & Hk & Ho & ->). exists k'. split; [done |]. split; [|done].
  destruct (inv_thr _ _ _ I _ _ Hi) as [Hat _]. specialize (Hat id Ha). cbn in Hat. congruence.
Qed.

(** A failed entry is taken out, unless another one has replaced it. *)
Lemma inv_clean id e : p = GClean id e ->
  inv keys own (Conf (if decide (C !! sha256 k = Some id) then delete (sha256 k) C else C) E (<[i := Thread k (GDone (Err e))]> T)).
Proof.
  intros Ep. destruct (inv_thr _ _ _ I _ _ Hi) as [Hat Hp]. pose proof (inv_cache _ _ _ I) as HC. cbn in Hat, Hp, HC. rewrite Ep in Hat, Hp.
  assert (Hok : thr_ok keys own E (Thread k (GDone (Err e)))) by (eapply filled_ok; [by rewrite Ep | done]).
  pose proof (inv_size _ _ _ I) as Hsz. cbn in Hsz. specialize (Hat id eq_refl). destruct (decide _) as [Hd|Hd].
  - eapply inv_update; try done.
    + rewrite map_size_delete, Hd. cbn. lia.
    + exact (inv_own _ _ _ I).
    + intros h d. rewrite lookup_delete_Some. intros [_ ?]. by apply HC.
    + by left.
    + by left.
    + intros d Hd'. left. by rewrite Ep.
    + intros h d. rewrite lookup_delete_Some. intros [Hne Hc]. right. split; [done |]. left. rewrite Ep. cbn. intros [= <-]. apply HC in Hc, Hd. congruence.
  - apply inv_quiet; try done; [by rewrite Ep |]. rewrite Ep. intros h d Hc [= <-]. exfalso. apply Hd. apply HC in Hc as Hc'. congruence.
Qed.
End Step.

Lemma cache_inv_step keys own c i c' : inv keys own c -> step i c = Some c' -> exists own', inv keys own' c'.
Proof.
  destruct c as [C E T]. intros I Hst. unfold step in Hst. cbn in Hst. destruct (T !! i) as [[k p]|] eqn:Hi; [|done]. cbn in Hst.
  pose proof (inv_thr _ _ _ I _ _ Hi) as [Hat Hp]. cbn in Hat, Hp. destruct p as [| |id|id|id|id e|r]; cbn in Hst.
  - destruct (C !! sha256 k) as [id|] eqn:Ec; [|destruct (decide _) as [Hf|Hf]]; simplify_eq/=.
    + exists own. apply (inv_quiet I Hi); try done. split; cbn; [|done]. intros d [= <-]. by apply (inv_cache _ _ _ I).
    + exists own. by apply (inv_quiet I Hi).
    + eexists. by apply (inv_file I Hi).
  - simplify_eq. exists own. apply (inv_quiet I Hi); try done. split; cbn; [done |]. exists k. by split; [apply (key_in _ _ _ _ _ I Hi) |].
  - destruct (E !! id) as [[| |r]|] eqn:Ee; simplify_eq/=; exists own; [by apply (cache_inv_begin I Hi) |].
    apply (inv_quiet I Hi); try done; [split; cbn; [done | by eexists] |]. intros h d _ Hd. by left.
  - simplify_eq. exists own. by apply (inv_fill I Hi).
  - destruct (E !! id) as [[| |[g|e]]|] eqn:Ee; simplify_eq/=; exists own.
    + apply (inv_quiet I Hi); try done; [by apply (filled_ok I Hi id) |]. intros h d _ [= <-]. right. by eexists.
    + apply (inv_quiet I Hi); try done. intros h d _ Hd. by left.
  - simplify_eq. exists own. by eapply (inv_clean I Hi).
  - done.
Qed.

Lemma cache_inv_start keys : inv keys [] (start keys).
Proof.
  split; cbn; try done.
  - rewrite map_size_empty. unfold maxGCMCacheEntries. lia.
  - rewrite <- list_fmap_compose. apply list_fmap_id.
  - intros i t Ht. apply list_lookup_fmap_Some in Ht as (k & -> & _). by split.
  - intros i j k k' id Ht. by apply list_lookup_fmap_Some in Ht as (? & ? & _).
Qed.

Lemma cache_inv_reach keys c : rtc cstep (start keys) c -> exists own, inv keys own c.
Proof.
  intros Hr. assert (exists own, inv keys own (start keys)) as H0 by (eexists; apply cache_inv_start). revert H0.
  induction Hr as [c|c1 c2 c3 [i Hs] _ IH]; [done |]. intros [own I]. apply IH. by eapply cache_inv_step.
Qed.

Definition returned (t : thread) : bool := match t_pc t with GDone _ => true | _ => false end.

(** C22: in every interleaving of calls the cache has at most 256 entries, also
    for a moment; every call that has returned got what building the AEAD for
    its own key gives, an error for a key of the wrong length, as if there were
    no cache (no two of the keys in use having the same SHA-256); and once all
    calls have returned no failed construction is left in the cache. *)
Theorem gcm_cache_transparent keys c : (forall k k', k ∈ keys -> k' ∈ keys -> sha256 k = sha256 k' -> k = k') ->
  rtc cstep (start keys) c ->
  (size (c_cache c) <= maxGCMCacheEntries)%nat /\
  (forall i k r, keys !! i = Some k -> c_thr c !! i = Some (Thread k (GDone r)) -> r = newGCM k) /\
  (forallb returned (c_thr c) = true -> forall h id, c_cache c !! h = Some id -> exists g, c_entries c !! id = Some (EDone (Ok g))).
Proof.
  intros Hinj [own I]%cache_inv_reach. split; [exact (inv_size _ _ _ I) |]. split.
  - intros i k r Hk Hi. destruct (inv_thr _ _ _ I _ _ Hi) as [_ (k' & Hk' & Hs & ->)]. cbn in Hs.
    by rewrite (Hinj k' k Hk' (list_elem_of_lookup_2 _ _ _ Hk) Hs).
  - intros Hall h id Hh. destruct (inv_live _ _ _ I h id Hh) as [? | (i & t & Hi & Ha)]; [done |]. exfalso.
    rewrite forallb_forall in Hall. specialize (Hall t). rewrite <- list_elem_of_In in Hall. specialize (Hall (list_elem_of_lookup_2 _ _ _ Hi)).
    unfold returned in Hall. by destruct (t_pc t).
Qed.

(** Steps a call still has to take, at most. *)
Definition rank (t : thread) : nat :=
  match t_pc t with GLookup => 5 | GOnce _ => 4 | GRun _ => 3 | GCheck _ => 2 | GUncached | GClean _ _ => 1 | GDone _ => 0 end.
Definition ranks (c : conf) : nat := sum_list_with rank (c_thr c).

Lemma sum_upd {A} (f : A -> nat) (T : list A) i t t' : T !! i = Some t -> (f t' < f t)%nat -> (sum_list_with f (<[i := t']> T) < sum_list_with f T)%nat.
Proof.
  revert i. induction T as [|u T IH]; intros [|i] Hi Hr; [done | done | |].
  - injection Hi as ->. cbn. lia.
  - specialize (IH i Hi Hr). change (f u + sum_list_with f (<[i := t']> T) < f u + sum_list_with f T)%nat. lia.
Qed.

Lemma step_ranks i c c' : step i c = Some c' -> (ranks c' < ranks c)%nat.
Proof.
  unfold step, ranks. destruct (c_thr c !! i) as [[k p]|] eqn:Hi; [|done]. cbn. unfold getGCM_step.
  destruct p as [| |id|id|id|id e|r]; repeat case_match; intros; simplify_eq/=; (eapply sum_upd; [exact Hi |]; cbn; lia).
Qed.

Lemma ranks_start keys : ranks (start keys) = (5 * length keys)%nat.
Proof.
  unfold ranks, start. cbn [c_thr]. induction keys as [|k keys IH]; [done |]. 
  change (5 + sum_list_with rank ((fun k => Thread k GLookup) <$> keys) = 5 * S (length keys))%nat. lia.
Qed.

(** No call waits for ever: from every reachable configuration in which a
    call has not returned some call can take a step, and every step brings the
    calls closer to their end, so that after at most five steps per call all of
    them have returned. *)
Theorem gcm_cache_returns keys c : rtc cstep (start keys) c ->
  (forallb returned (c_thr c) = false -> exists c', cstep c c') /\
  (forall n c', nsteps cstep n (start keys) c' -> (n <= 5 * length keys)%nat).
Proof.
  intros Hr. split.
  - destruct (cache_inv_reach _ _ Hr) as [own I]. intros Hno. assert (exists i t, c_thr c !! i = Some t /\ returned t = false) as (i & [k p] & Hi & Ht).
    { clear -Hno. induction (c_thr c) as [|t T IH]; [done |]. cbn in Hno. destruct (returned t) eqn:E; [|by exists 0%nat, t].
      destruct (IH Hno) as (i & u & ? & ?). by exists (S i), u. }
    pose proof (inv_thr _ _ _ I _ _ Hi) as [Hat Hp]. cbn in Hat, Hp.
    assert (Hgo : forall j kj q, c_thr c !! j = Some (Thread kj q) -> getGCM_step kj (c_cache c) (c_entries c) q <> None -> exists c', cstep c c').
    { intros j kj q Hj Hs. unfold cstep. destruct (getGCM_step kj (c_cache c) (c_entries c) q) as [[[C E] q']|] eqn:Es; [|done].
      exists (Conf C E (<[j := Thread kj q']> (c_thr c))), j. unfold step. rewrite Hj. cbn. by rewrite Es. }
    destruct p as [| |id|id|id|id e|r]; try done.
    + eapply Hgo; [exact Hi |]. cbn. by repeat case_match.
    + by eapply Hgo.
    + specialize (Hat id eq_refl). apply lookup_lt_Some in Hat. rewrite (inv_own _ _ _ I) in Hat. apply lookup_lt_is_Some_2 in Hat as [x Hx].
      destruct x as [| |r]; [eapply Hgo; [exact Hi | cbn; by rewrite Hx] | | eapply Hgo; [exact Hi | cbn; by rewrite Hx]].
      destruct (inv_running _ _ _ I id Hx) as (j & kj & Hj). by eapply Hgo.
    + by eapply Hgo.
    + destruct Hp as [[g|e] Hp]; (eapply Hgo; [exact Hi | cbn; by rewrite Hp]).
    + by eapply Hgo.
  - intros n c' Hn. assert (n + ranks c' <= ranks (start keys))%nat as Hle.
    { clear -Hn. induction Hn as [c|n a b d [i Hs] _ IH]; [lia |]. apply step_ranks in Hs. lia. }
    pose proof (ranks_start keys). lia.
Qed.

(** What one call encrypts any other call with the same key decrypts,
    whichever way their cache accesses interleave with other calls. *)
Theorem vault_roundtrip `{AE : AEAD} `{AES : !AEADSpec AE} keys c i j k ri rj p ent :
  (forall k k', k ∈ keys -> k' ∈ keys -> sha256 k = sha256 k' -> k = k') -> rtc cstep (start keys) c ->
  c_thr c !! i = Some (Thread k (GDone ri)) -> c_thr c !! j = Some (Thread k (GDone rj)) ->
  blen k = 16 \/ blen k = 24 \/ blen k = 32 -> NonceSize <= blen ent ->
  exists ct ent', Encrypt ri p ent = Ok (ct, ent') /\ Decrypt rj ct = Ok p /\ blen ct = blen p + 28.
Proof.
  intros Hinj [own I]%cache_inv_reach Hi Hj Hk He.
  assert (Hres : forall n r, c_thr c !! n = Some (Thread k (GDone r)) -> r = Ok k).
  { intros n r Hn. destruct (inv_thr _ _ _ I _ _ Hn) as [_ (k' & Hk' & Hs & ->)]. cbn in Hs.
    rewrite (Hinj k' k Hk' (key_in _ _ _ _ _ I Hn) Hs). unfold newGCM. destruct Hk as [-> | [-> | ->]]; done. }
  rewrite (Hres i ri Hi), (Hres j rj Hj). unfold Encrypt, rand_read. assert (NonceSize = 12) by done. destruct (Z.leb_spec NonceSize (blen ent)); [|lia].
  assert (Hn : blen (upto NonceSize ent) = NonceSize) by (apply blen_upto; lia). set (nonce := upto NonceSize ent) in *.
  assert (Hct := gcm_seal_len k nonce p Hn). eexists _, _. split; [done |]. split.
  - unfold Decrypt. rewrite upto_app, from_app, gcm_open_seal by done. destruct (Z.ltb_spec (blen (nonce ++ gcm_seal k nonce p)) NonceSize) as [Hlt|_]; [|done].
    rewrite blen_app in Hlt. pose proof (blen_nonneg (gcm_seal k nonce p)). lia.
  - rewrite blen_app, Hct, Hn. unfold NonceSize, Overhead. lia.
Qed.
End Facts.

Lemma cache_run_reach `{SH : Sha256} sched : forall c, rtc cstep c (run sched c).
Proof.
  induction sched as [|i l IH]; intros c; cbn [run]; [done |]. destruct (step i c) as [c'|] eqn:E; [|apply IH].
  eapply rtc_l; [by exists i | apply IH].
Qed.

(** ** Witnesses *)

Module CacheWitness.
Import Toy.

(** Two calls with a good key and two with a short one, interleaved. *)
Definition good : bytes := repeat x05 32.
Definition bad : bytes := go "short".
Definition keys : list bytes := [good; bad; good; bad].
Definition mixed : list nat := [0; 1; 2; 3; 1; 3; 1; 0; 2; 1; 1; 3; 0; 3; 2; 3; 0; 2; 0; 2; 1; 3; 2]%nat.

Lemma keys_apart k k' : k ∈ keys -> k' ∈ keys -> sha256 k = sha256 k' -> k = k'.
Proof.
  assert (Hne : sha256 good <> sha256 bad) by by_decide. assert (Hin : forall x, x ∈ keys -> x = good \/ x = bad).
  { intros x. unfold keys. rewrite !elem_of_cons, elem_of_nil. tauto. }
  intros [-> | ->]%Hin [-> | ->]%Hin; [reflexivity | | | reflexivity];
    intros E; exfalso; apply Hne; [exact E | exact (eq_sym E)].
Qed.

Lemma gcm_cache_transparent_witness :
  let c := run mixed (start keys) in
  (size (c_cache c) <= maxGCMCacheEntries)%nat /\ c_thr c !! 3%nat = Some (Thread bad (GDone (Err BadKeySize))) /\ newGCM bad = Err BadKeySize /\
  exists g, c_entries c !! 0%nat = Some (EDone (Ok g)).
Proof.
  intros c. destruct (gcm_cache_transparent keys c keys_apart (cache_run_reach mixed (start keys))) as (H1 & H2 & H3).
  assert (E3 : c_thr c !! 3%nat = Some (Thread bad (GDone (Err BadKeySize)))) by (vm_compute; reflexivity).
  split; [exact H1 |]. split; [exact E3 |]. split; [symmetry; exact (H2 3%nat bad _ eq_refl E3) |].
  apply (H3 ltac:(vm_compute; reflexivity) (sha256 good) 0%nat). vm_compute. reflexivity.
Defined.

Lemma gcm_cache_returns_witness : exists c', cstep (run [0; 1]%nat (start keys)) c'.
Proof. apply (gcm_cache_returns keys _ (cache_run_reach [0; 1]%nat (start keys))). vm_compute. reflexivity. Defined.

Lemma vault_roundtrip_witness :
  exists ct ent', Encrypt (Ok good) (go "text") (repeat x01 12) = Ok (ct, ent') /\ Decrypt (Ok good) ct = Ok (go "text").
Proof.
  destruct (vault_roundtrip keys (run mixed (start keys)) 0 2 good (Ok good) (Ok good) (go "text") (repeat x01 12) keys_apart (cache_run_reach mixed (start keys))) as (ct & e & H1 & H2 & _).
  - vm_compute. reflexivity.
  - vm_compute. reflexivity.
  - right. right. reflexivity.
  - by_decide.
  - by exists ct, e.
Defined.
End CacheWitness.
