(* ===== verification/Progress.v ===== *)
(** Progress: the counters shown to users ([simple/progress.go]).

    [update] changes the counters under one mutex and calls the callback with
    a copy under another, so calls from many workers interleave in two places.
    A configuration has the counters, the callback's mutex, the copies the
    callback has received and one thread per call.  [int] and [int64] wrap;
    [float64] is the executable IEEE model of the standard library. *)

From S2P Require Import Prelude GoStr.
From stdpp Require Import base list gmap strings relations.
From Stdlib Require Import SpecFloat.
From Stdlib.Strings Require Import Byte.
Local Open Scope Z_scope.

(** ** float64 *)

Definition f64_of_int (z : Z) : spec_float := binary_normalize 53 1024 z 0 false.
Definition f64_div : spec_float -> spec_float -> spec_float := SFdiv 53 1024.
Definition f64_add : spec_float -> spec_float -> spec_float := SFadd 53 1024.
Definition f64_pos (x : spec_float) : bool := SFltb (S754_zero false) x.

(** [Duration.Seconds()] of a duration in nanoseconds. *)
Definition seconds (d : Z) : spec_float :=
  f64_add (f64_of_int (Z.quot d (10 ^ 9))) (f64_div (f64_of_int (Z.rem d (10 ^ 9))) (f64_of_int (10 ^ 9))).

(** ** The counters *)

Inductive Phase := PhaseScanning | PhaseUploading | PhaseComplete | PhaseError.

Record Progress := MkProgress {
  pr_SourceID : Z; pr_SourceName : bytes; pr_Phase : Phase; pr_TotalFiles : Z; pr_ProcessedFiles : Z;
  pr_TotalBytes : Z; pr_ProcessedBytes : Z; pr_NewFiles : Z; pr_ChangedFiles : Z; pr_UnchangedFiles : Z; pr_UploadedBytes : Z;
  pr_CurrentFile : bytes; pr_BytesPerSecond : spec_float; pr_StartedAt : Z; pr_EstimatedEtaSec : spec_float
}.

(** A call of [SetPhase], [SetTotal] or [FileProcessed] with what it reads of
    the clock: the time, or the time since the tracker was made. *)
Inductive call :=
| SetPhase (phase : Phase) (now : Z)
| SetTotal (files bytes : Z)
| FileProcessed (file : bytes) (size : Z) (isNew isChanged : bool) (elapsed : Z).

Definition do_SetPhase (phase : Phase) (now : Z) (p : Progress) : Progress :=
  MkProgress (pr_SourceID p) (pr_SourceName p) phase (pr_TotalFiles p) (pr_ProcessedFiles p) (pr_TotalBytes p) (pr_ProcessedBytes p)
    (pr_NewFiles p) (pr_ChangedFiles p) (pr_UnchangedFiles p) (pr_UploadedBytes p) (pr_CurrentFile p) (pr_BytesPerSecond p)
    (match phase with PhaseScanning => now | _ => pr_StartedAt p end) (pr_EstimatedEtaSec p).

Definition do_SetTotal (files bytes : Z) (p : Progress) : Progress :=
  MkProgress (pr_SourceID p) (pr_SourceName p) (pr_Phase p) files (pr_ProcessedFiles p) bytes (pr_ProcessedBytes p)
    (pr_NewFiles p) (pr_ChangedFiles p) (pr_UnchangedFiles p) (pr_UploadedBytes p) (pr_CurrentFile p) (pr_BytesPerSecond p)
    (pr_StartedAt p) (pr_EstimatedEtaSec p).

Definition do_FileProcessed (file : bytes) (size : Z) (isNew isChanged : bool) (elapsed : Z) (p : Progress) : Progress :=
  let processedBytes := int64 (pr_ProcessedBytes p + size) in
  let newFiles := if isNew then int64 (pr_NewFiles p + 1) else pr_NewFiles p in
  let changedFiles := if negb isNew && isChanged then int64 (pr_ChangedFiles p + 1) else pr_ChangedFiles p in
  let unchangedFiles := if negb isNew && negb isChanged then int64 (pr_UnchangedFiles p + 1) else pr_UnchangedFiles p in
  let uploadedBytes := if isNew || isChanged then int64 (pr_UploadedBytes p + size) else pr_UploadedBytes p in
  let secs := seconds elapsed in
  let rate := if f64_pos secs then f64_div (f64_of_int uploadedBytes) secs else pr_BytesPerSecond p in
  let remaining := int64 (pr_TotalBytes p - processedBytes) in
  let eta := if f64_pos secs && (f64_pos rate && (0 <? remaining)) then f64_div (f64_of_int remaining) rate else pr_EstimatedEtaSec p in
  MkProgress (pr_SourceID p) (pr_SourceName p) (pr_Phase p) (pr_TotalFiles p) (int64 (pr_ProcessedFiles p + 1)) (pr_TotalBytes p) processedBytes
    newFiles changedFiles unchangedFiles uploadedBytes file rate (pr_StartedAt p) eta.

Definition apply_call (c : call) : Progress -> Progress :=
  match c with
  | SetPhase phase now => do_SetPhase phase now
  | SetTotal files bytes => do_SetTotal files bytes
  | FileProcessed file size isNew isChanged elapsed => do_FileProcessed file size isNew isChanged elapsed
  end.

(** ** The tracker under concurrent use *)

(** Before the first mutex; with a copy, before the second; in the callback. *)
Inductive pc := UStart | UWait (snapshot : Progress) | UCall (snapshot : Progress) | UDone.

Record tracker := Tracker {
  tr_progress : Progress;
  tr_callback : bool;
  tr_cbMu : bool;
  tr_received : list Progress;
  tr_thr : list (call * pc)
}.

Definition NewProgress (sourceID : Z) (sourceName : bytes) : Progress :=
  MkProgress sourceID sourceName PhaseScanning 0 0 0 0 0 0 0 0 [] (S754_zero false) 0 (S754_zero false).

Definition NewProgressTracker (sourceID : Z) (sourceName : bytes) (cb : bool) (calls : list call) : tracker :=
  Tracker (NewProgress sourceID sourceName) cb false [] ((fun c => (c, UStart)) <$> calls).

(** One step of the [update] of thread [i]. *)
Definition update_step (i : nat) (t : tracker) : option tracker :=
  '(c, p) ← tr_thr t !! i;
  let at_pc q := <[i := (c, q)]> (tr_thr t) in
  match p with
  | UStart =>
      let snapshot := apply_call c (tr_progress t) in
      Some (Tracker snapshot (tr_callback t) (tr_cbMu t) (tr_received t) (at_pc (if tr_callback t then UWait snapshot else UDone)))
  | UWait snapshot =>
      if tr_cbMu t then None
      else Some (Tracker (tr_progress t) (tr_callback t) true (tr_received t) (at_pc (UCall snapshot)))
  | UCall snapshot =>
      Some (Tracker (tr_progress t) (tr_callback t) false (tr_received t ++ [snapshot]) (at_pc UDone))
  | UDone => None
  end.

Definition GetProgress (t : tracker) : Progress := tr_progress t.

Definition tstep (t t' : tracker) : Prop := exists i, update_step i t = Some t'.

Fixpoint run (sched : list nat) (t : tracker) : tracker :=
  match sched with
  | [] => t
  | i :: l => run l (match update_step i t with Some t' => t' | None => t end)
  end.

(** * Facts *)

(** What a call adds to each counter. *)
Record tally := Tally { ta_files : Z; ta_bytes : Z; ta_new : Z; ta_changed : Z; ta_unchanged : Z; ta_uploaded : Z }.

Definition zero : tally := Tally 0 0 0 0 0 0.
Definition add (a b : tally) : tally :=
  Tally (ta_files a + ta_files b) (ta_bytes a + ta_bytes b) (ta_new a + ta_new b) (ta_changed a + ta_changed b)
    (ta_unchanged a + ta_unchanged b) (ta_uploaded a + ta_uploaded b).

Definition counts (c : call) : tally :=
  match c with
  | FileProcessed _ size isNew isChanged _ =>
      Tally 1 size (if isNew then 1 else 0) (if negb isNew && isChanged then 1 else 0) (if negb isNew && negb isChanged then 1 else 0)
        (if isNew || isChanged then size else 0)
  | _ => zero
  end.

Definition total (l : list call) : tally := foldr (fun c a => add (counts c) a) zero l.

(** The counters hold the sums, at their width. *)
Definition shows (p : Progress) (a : tally) : Prop :=
  pr_ProcessedFiles p = int64 (ta_files a) /\ pr_ProcessedBytes p = int64 (ta_bytes a) /\ pr_NewFiles p = int64 (ta_new a) /\
  pr_ChangedFiles p = int64 (ta_changed a) /\ pr_UnchangedFiles p = int64 (ta_unchanged a) /\ pr_UploadedBytes p = int64 (ta_uploaded a).

Lemma shows_apply c p a : shows p a -> shows (apply_call c p) (add (counts c) a).
Proof.
  intros (H1 & H2 & H3 & H4 & H5 & H6). destruct a as [a1 a2 a3 a4 a5 a6]. destruct c as [ph now|fs bs|f size n ch el]; cbn in *; [done | done |].
  assert (Hadd : forall x y, int64 (int64 x + y) = int64 (y + x)) by (intros; rewrite int64_add; f_equal; lia).
  destruct n, ch; cbn; unfold shows; cbn; rewrite ?H1, ?H2, ?H3, ?H4, ?H5, ?H6, !Hadd; done.
Qed.

Lemma add_swap a b c : add a (add b c) = add b (add a c).
Proof. unfold add. cbn. f_equal; lia. Qed.

Definition begun (x : call * pc) : Prop := x.2 <> UStart.
#[export] Instance begun_dec x : Decision (begun x).
Proof. unfold begun. destruct x as [c []]; solve [right; auto | left; done]. Defined.

(** The calls that have changed the counters. *)
Definition started (t : tracker) : list call := fst <$> filter begun (tr_thr t).
Definition calls_of (t : tracker) : list call := fst <$> tr_thr t.

Lemma upd_split (T : list (call * pc)) i c p q : T !! i = Some (c, p) ->
  exists l1 l2, T = l1 ++ (c, p) :: l2 /\ <[i := (c, q)]> T = l1 ++ (c, q) :: l2.
Proof.
  intros Hi. destruct (list_elem_of_split_length _ _ _ Hi) as (l1 & l2 & -> & ->). exists l1, l2. split; [done |].
  by rewrite insert_app_r_alt, Nat.sub_diag by lia.
Qed.

Lemma total_mid l1 c l2 : total (l1 ++ c :: l2) = add (counts c) (total (l1 ++ l2)).
Proof. unfold total. induction l1 as [|x l1 IH]; [done |]. cbn. rewrite IH. apply add_swap. Qed.

Lemma begun_total l1 c q l2 : q <> UStart ->
  total (fst <$> filter begun (l1 ++ (c, q) :: l2)) = add (counts c) (total (fst <$> filter begun (l1 ++ (c, UStart) :: l2))).
Proof.
  intros Hq. rewrite !filter_app, filter_cons_True, filter_cons_False by (unfold begun; cbn; auto).
  rewrite !fmap_app. cbn. apply total_mid.
Qed.

Lemma begun_same l1 c p q l2 : p <> UStart -> q <> UStart -> fst <$> filter begun (l1 ++ (c, q) :: l2) = fst <$> filter begun (l1 ++ (c, p) :: l2).
Proof. intros Hp Hq. rewrite !filter_app, !filter_cons_True by done. by rewrite !fmap_app. Qed.

(** A copy the callback gets: the counters after some of the calls. *)
Definition honest (calls : list call) (s : Progress) : Prop := exists sub, sub ⊆+ calls /\ shows s (total sub).

Definition carries (p : pc) : option Progress := match p with UWait s | UCall s => Some s | _ => None end.
Definition finished (x : call * pc) : bool := match x.2 with UDone => true | _ => false end.
Definition calling (x : call * pc) : bool := match x.2 with UCall _ => true | _ => false end.
Definition count (f : call * pc -> bool) (T : list (call * pc)) : nat := length (filter (fun x => f x = true) T).

Record inv (calls : list call) (t : tracker) : Prop := Inv {
  inv_calls : calls_of t = calls;
  inv_shows : shows (tr_progress t) (total (started t));
  inv_thr c p s : (c, p) ∈ tr_thr t -> carries p = Some s -> honest calls s;
  inv_received : Forall (honest calls) (tr_received t);
  inv_count : if tr_callback t then length (tr_received t) = count finished (tr_thr t)
              else tr_received t = [] /\ forall c p, (c, p) ∈ tr_thr t -> p = UStart \/ p = UDone;
  inv_mutex : count calling (tr_thr t) = if tr_cbMu t then 1%nat else 0%nat
}.

Lemma count_mid f l1 x l2 : count f (l1 ++ x :: l2) = (count f (l1 ++ l2) + if f x then 1 else 0)%nat.
Proof.
  unfold count. rewrite !filter_app, filter_cons, !length_app. destruct (f x) eqn:E.
  - rewrite decide_True by done. cbn. lia.
  - rewrite decide_False by done. lia.
Qed.

Lemma started_sub t : started t ⊆+ calls_of t.
Proof. unfold started, calls_of. apply fmap_submseteq, sublist_submseteq, sublist_filter. Qed.

Ltac tr_simpl := cbn [tr_progress tr_callback tr_cbMu tr_received tr_thr].

(** Threads other than the stepping one keep what they carry. *)
Lemma carried (P : Progress -> Prop) (l1 l2 : list (call * pc)) c p q :
  (forall c0 p0 s, (c0, p0) ∈ l1 ++ (c, p) :: l2 -> carries p0 = Some s -> P s) -> (forall s, carries q = Some s -> P s) ->
  forall c0 p0 s, (c0, p0) ∈ l1 ++ (c, q) :: l2 -> carries p0 = Some s -> P s.
Proof.
  intros Ht Hq c0 p0 s Hin Hs. rewrite elem_of_app, elem_of_cons in Hin. destruct Hin as [Hin | [[= -> ->] | Hin]]; [|by apply Hq |];
    (eapply (Ht c0 p0); [|done]); rewrite elem_of_app, elem_of_cons; auto.
Qed.

Lemma calls_mid l1 c p q l2 : fst <$> l1 ++ (c, q) :: l2 = fst <$> l1 ++ (c, p) :: (l2 : list (call * pc)).
Proof. by rewrite !fmap_app. Qed.

(** A call under the first mutex. *)
Lemma track_inv_begin calls pr cb mu rc l1 c l2 : inv calls (Tracker pr cb mu rc (l1 ++ (c, UStart) :: l2)) ->
  inv calls (Tracker (apply_call c pr) cb mu rc (l1 ++ (c, if cb then UWait (apply_call c pr) else UDone) :: l2)).
Proof.
  intros [Hc Hsh Ht Hr Hn Hm]. unfold calls_of, started in Hc, Hsh. cbn [tr_progress tr_callback tr_cbMu tr_received tr_thr] in Hc, Hsh, Ht, Hr, Hn, Hm. set (q := if cb then UWait (apply_call c pr) else UDone).
  assert (Hne : q <> UStart) by (unfold q; by destruct cb).
  assert (Hsh' : shows (apply_call c pr) (total (fst <$> filter begun (l1 ++ (c, q) :: l2)))) by (rewrite begun_total by done; by apply shows_apply).
  assert (Hhon : honest calls (apply_call c pr)).
  { exists (fst <$> filter begun (l1 ++ (c, q) :: l2)). split; [|done]. rewrite <- Hc, <- (calls_mid l1 c UStart q l2). apply fmap_submseteq, sublist_submseteq, sublist_filter. }
  split; unfold calls_of, started; tr_simpl; [| done | | done | |].
  - by rewrite (calls_mid l1 c UStart).
  - eapply carried; [exact Ht |]. intros s Hs. unfold q in Hs. destruct cb; [|done]. by injection Hs as <-.
  - unfold q. destruct cb; [by rewrite Hn, !count_mid |]. destruct Hn as [-> Hn]. split; [done |]. intros c0 p0 Hin.
    rewrite elem_of_app, elem_of_cons in Hin. destruct Hin as [Hin | [[= -> ->] | Hin]]; [|by right |]; (eapply Hn; rewrite elem_of_app, elem_of_cons; eauto).
  - rewrite <- Hm, !count_mid. unfold q. by destruct cb.
Qed.

(** The callback is entered and left. *)
Lemma inv_enter calls pr rc cb l1 c s l2 : inv calls (Tracker pr cb false rc (l1 ++ (c, UWait s) :: l2)) ->
  inv calls (Tracker pr cb true rc (l1 ++ (c, UCall s) :: l2)).
Proof.
  intros [Hc Hsh Ht Hr Hn Hm]. unfold calls_of, started in Hc, Hsh. cbn [tr_progress tr_callback tr_cbMu tr_received tr_thr] in Hc, Hsh, Ht, Hr, Hn, Hm. split; unfold calls_of, started; tr_simpl.
  - by rewrite (calls_mid l1 c (UWait s)).
  - by rewrite (begun_same l1 c (UWait s)).
  - eapply carried; [exact Ht |]. intros s0 Hs. eapply (Ht c (UWait s)); [rewrite elem_of_app, elem_of_cons; auto | done].
  - done.
  - destruct cb; [by rewrite Hn, !count_mid |]. destruct Hn as [_ Hn]. destruct (Hn c (UWait s)); [rewrite elem_of_app, elem_of_cons; auto | done | done].
  - rewrite count_mid in Hm |- *. cbn in *. lia.
Qed.

Lemma inv_leave calls pr rc cb l1 c s l2 mu : inv calls (Tracker pr cb mu rc (l1 ++ (c, UCall s) :: l2)) ->
  inv calls (Tracker pr cb false (rc ++ [s]) (l1 ++ (c, UDone) :: l2)).
Proof.
  intros [Hc Hsh Ht Hr Hn Hm]. unfold calls_of, started in Hc, Hsh. cbn [tr_progress tr_callback tr_cbMu tr_received tr_thr] in Hc, Hsh, Ht, Hr, Hn, Hm. split; unfold calls_of, started; tr_simpl.
  - by rewrite (calls_mid l1 c (UCall s)).
  - by rewrite (begun_same l1 c (UCall s)).
  - by eapply carried.
  - apply Forall_app_2; [done |]. apply Forall_singleton. eapply (Ht c (UCall s)); [rewrite elem_of_app, elem_of_cons; auto | done].
  - destruct cb; [rewrite length_app, Hn, !count_mid; cbn; lia |]. destruct Hn as [_ Hn]. destruct (Hn c (UCall s)); [rewrite elem_of_app, elem_of_cons; auto | done | done].
  - rewrite count_mid in Hm |- *. cbn in *. destruct mu; lia.
Qed.

Lemma track_inv_step calls t i t' : inv calls t -> update_step i t = Some t' -> inv calls t' /\ tr_callback t' = tr_callback t.
Proof.
  intros I Hs. unfold update_step in Hs. destruct (tr_thr t !! i) as [[c p]|] eqn:Hi; [|done]. cbn in Hs.
  assert (Hq : forall q, exists l1 l2, tr_thr t = l1 ++ (c, p) :: l2 /\ <[i := (c, q)]> (tr_thr t) = l1 ++ (c, q) :: l2) by (intros; by apply upd_split).
  destruct t as [pr cb mu rc T]. cbn in *. destruct p as [|s|s|]; [| destruct mu | | done]; simplify_eq/=; (split; [|done]).
  - destruct (Hq (if cb then UWait (apply_call c pr) else UDone)) as (l1 & l2 & -> & ->). by apply track_inv_begin.
  - destruct (Hq (UCall s)) as (l1 & l2 & -> & ->). by apply inv_enter.
  - destruct (Hq UDone) as (l1 & l2 & -> & ->). by eapply inv_leave.
Qed.

Lemma track_inv_start id name cb calls : inv calls (NewProgressTracker id name cb calls).
Proof.
  assert (Hf : forall P, (forall c, ~ P (c, UStart)) -> forall (D : forall x, Decision (P x)), filter P ((fun c => (c, UStart)) <$> calls) = []).
  { intros P HP D. induction calls as [|c l IH]; [done |]. rewrite fmap_cons, filter_cons_False by apply HP. exact IH. }
  assert (Hin : forall c p, (c, p) ∈ ((fun c => (c, UStart)) <$> calls) -> p = UStart).
  { intros c p (x & [= _ ->] & _)%list_elem_of_fmap. done. }
  split; unfold calls_of, started, count, NewProgressTracker; cbn.
  - rewrite <- list_fmap_compose. apply list_fmap_id.
  - rewrite Hf by (intros c H; by apply H). done.
  - intros c p s Hp%Hin Hs. by subst.
  - done.
  - destruct cb; [by rewrite Hf | split; [done |]]. intros c p Hp%Hin. by left.
  - by rewrite Hf.
Qed.

Lemma track_inv_reach id name cb calls t : rtc tstep (NewProgressTracker id name cb calls) t -> inv calls t /\ tr_callback t = cb.
Proof.
  intros Hr. assert (H0 : inv calls (NewProgressTracker id name cb calls) /\ tr_callback (NewProgressTracker id name cb calls) = cb) by (split; [apply track_inv_start | done]).
  revert H0. induction Hr as [t|t1 t2 t3 [i Hs] _ IH]; [done |]. intros [I Hcb]. apply IH. destruct (track_inv_step _ _ _ _ I Hs) as [? E]. split; [done | congruence].
Qed.

Lemma all_finished (T : list (call * pc)) : forallb finished T = true -> filter begun T = T /\ count finished T = length T.
Proof.
  unfold count. induction T as [|[c p] T IH]; [done |]. cbn [forallb]. intros [Hf Hall]%andb_true_iff. destruct (IH Hall) as [H1 H2].
  rewrite !filter_cons_True; [split; [by rewrite H1 | cbn; by rewrite H2] | done |]. unfold begun. by destruct p.
Qed.

(** When all calls have returned, the counters are the sums. *)
Lemma finished_shows id name cb calls t : rtc tstep (NewProgressTracker id name cb calls) t -> forallb finished (tr_thr t) = true -> shows (GetProgress t) (total calls).
Proof.
  intros [[Hc Hsh _ _ _ _] _]%track_inv_reach Hall. destruct (all_finished _ Hall) as [Hb _]. unfold started in Hsh. rewrite Hb in Hsh.
  unfold calls_of in Hc. by rewrite Hc in Hsh.
Qed.

(** C36: whatever order the workers' calls take effect in, when all have
    returned the counters are the sums over the calls, at their width: every
    call counts exactly once, as new, changed or unchanged; the callback has been
    called once per call, never twice at a time, and each copy it received is
    the counters after some of the calls. *)
Theorem progress_exact id name cb calls t : rtc tstep (NewProgressTracker id name cb calls) t ->
  (count calling (tr_thr t) <= 1)%nat /\ Forall (honest calls) (tr_received t) /\
  (forallb finished (tr_thr t) = true -> shows (GetProgress t) (total calls) /\ length (tr_received t) = if cb then length calls else 0%nat).
Proof.
  intros Hreach. split; [|split; [|intros Hall; split; [by eapply finished_shows |]]]; apply track_inv_reach in Hreach as [[Hc Hsh Ht Hr Hn Hm] <-].
  - rewrite Hm. by destruct (tr_cbMu t); lia.
  - done.
  - destruct (all_finished _ Hall) as [_ Hcount]. unfold calls_of in Hc. destruct (tr_callback t); [rewrite Hn, Hcount, <- Hc; by rewrite length_fmap | by destruct Hn as [-> _]].
Qed.

(** Every file is in exactly one class. *)
Lemma total_balanced calls : let a := total calls in ta_files a = ta_new a + ta_changed a + ta_unchanged a.
Proof.
  cbn zeta. induction calls as [|c l IH]; [done |]. change (total (c :: l)) with (add (counts c) (total l)).
  destruct (total l) as [a1 a2 a3 a4 a5 a6]. destruct c as [| |f size n ch el]; [exact IH | exact IH |]. destruct n, ch; cbn in *; lia.
Qed.

Lemma track_run_reach sched : forall t, rtc tstep t (run sched t).
Proof.
  induction sched as [|i l IH]; intros t; cbn [run]; [done |]. destruct (update_step i t) as [t'|] eqn:E; [|apply IH].
  eapply rtc_l; [by exists i | apply IH].
Qed.

(** ** Witnesses *)

Module ProgressWitness.
Definition calls : list call :=
  [SetTotal 2 30; FileProcessed (go "a") 10 true false (2 * 10 ^ 9); FileProcessed (go "b") 20 false false (4 * 10 ^ 9)].
Definition sched : list nat := [0; 0; 0; 1; 2; 2; 2; 1; 1]%nat.
Definition last_state : tracker := run sched (NewProgressTracker 1 (go "src") true calls).

Lemma progress_exact_witness : shows (GetProgress last_state) (total calls) /\ length (tr_received last_state) = 3%nat.
Proof.
  destruct (progress_exact 1 (go "src") true calls last_state (track_run_reach sched (NewProgressTracker 1 (go "src") true calls))) as (_ & _ & H).
  apply H. vm_compute. reflexivity.
Defined.

(** The copies can arrive out of order: the last one received need not be the
    final counters. *)
Example stale_copy_last : pr_ProcessedFiles <$> tr_received last_state = [0; 2; 1] /\ pr_ProcessedFiles (GetProgress last_state) = 2.
Proof. split; vm_compute; reflexivity. Qed.

(** 10 bytes in 2 seconds are 5 bytes per second, 20 remaining take 4 seconds. *)
Example rate : let p := GetProgress (run [0; 1]%nat (NewProgressTracker 1 (go "src") false calls)) in
  pr_BytesPerSecond p = f64_of_int 5 /\ pr_EstimatedEtaSec p = f64_of_int 4.
Proof. split; vm_compute; reflexivity. Qed.

(** The estimate is not cleared when nothing remains: it keeps its last value. *)
Example estimate_left_behind : let p := GetProgress (run [0; 1; 2]%nat (NewProgressTracker 1 (go "src") false calls)) in
  pr_TotalBytes p - pr_ProcessedBytes p = 0 /\ pr_EstimatedEtaSec p = f64_of_int 4.
Proof. split; vm_compute; reflexivity. Qed.
End ProgressWitness.
