(* ===== verification/Backup.v ===== *)
(** Backup: a whole run ([PipelineConfig], [PipelineResult], [Run],
    [ensureCDCPolynomial] and [loadPreviousFiles] of [simple/pipeline.go]).

    The state is the file system that holds the repository's metadata.  The
    source tree and the answers of the context are arguments.  The workers are
    the argument [upload]: what they make of the manifest and the counters, and
    [ran] says that a run of the pool in [Pool] gives it; they and the cache
    warming are all that touches the blob store.  Progress reports and log
    messages are left out. *)

From S2P Require Import Prelude GoStr Ignore Externs Compress Crypto Stream FS BlobStore Blob Manifest CloudID ManifestIO RestorePath SecureDir Restore PipeFile Scan Pool Registry Config.
From stdpp Require Import base list gmap strings relations.
From Stdlib.Strings Require Import Byte.
Local Open Scope Z_scope.

Record PipelineConfig := MkPipelineConfig {
  pc_RepoRoot : bytes; pc_SourceID : Z; pc_CloudID : bytes; pc_SourceName : bytes; pc_SourcePath : bytes; pc_ScanPath : bytes;
  pc_DeviceID : bytes; pc_Key : bytes; pc_Excludes : list bytes; pc_ForceFull : bool; pc_AllowScanErrors : bool
}.

Record PipelineResult := MkResult {
  pr_Manifest : Manifest; pr_NewFiles : Z; pr_ChangedFiles : Z; pr_UnchangedFiles : Z; pr_DeletedFiles : Z;
  pr_UploadedBytes : Z; pr_TotalSourceSize : Z;
  pr_FailedFiles : Z; pr_FailedPaths : list bytes; pr_FailedErrors : list bytes; pr_LockedFiles : Z; pr_LockedPaths : list bytes
}.

Inductive runerr :=
| RunPolynomial (e : cfgerr) | RunPrevious (e : merr) | RunWalk | RunScanErrors (n : Z) | RunCancelled | RunSave (e : merr).

(** What differs from run to run outside the repository: the source tree, the
    ignore file, the context during the scan and after the workers, the clock
    and the random draws. *)
Record surroundings := Surroundings {
  sr_root : node; sr_read : bytes -> option bytes; sr_ctx : list bool; sr_stopped : bool;
  sr_now : Z; sr_stamp : bytes; sr_draw : option Z; sr_ent : bytes
}.

Definition total_size (files : list scanEntry) : Z := foldl (fun a fe => int64 (a + se_size fe)) 0 files.

Definition set_scan_errors (m : Manifest) (n : Z) : Manifest :=
  let s := m_Stats m in
  set_dirs m (m_Dirs m) (MkStats (s_FileCount s) (s_TotalSize s) (s_NewFiles s) (s_ChangedFiles s) (s_UnchangedFiles s) (s_DeletedFiles s) (s_NewBytes s) n).

(** The statistics and the completeness that [Run] sets at the end. *)
Definition finish (m : Manifest) (stats : uploadStats) (deleted : Z) : Manifest :=
  let s := m_Stats m in
  let m1 := set_dirs m (m_Dirs m) (MkStats (s_FileCount s) (s_TotalSize s) (us_newFiles stats) (us_changedFiles stats)
              (us_unchangedFiles stats) deleted (us_uploadedBytes stats) (s_ScanErrors s)) in
  MkManifest (m_Version m1) (m_SourceID m1) (m_CloudID m1) (m_SourceName m1) (m_SourcePath m1) (m_Timestamp m1) (m_DeviceID m1)
    (m_Dirs m1) (m_Stats m1) (DeriveCompleteness m1).

Section Ops.
Context `{AE : AEAD, ZS : Zstd, SH : Sha256, HK : Hkdf} `{J : Json, RJ : RegJson, CJ : CfgJson} `{U : Uuid} `{RF : Rfc3339} `{RFF : Rfc3339Format}.
Context (hook : option (bytes -> option bytes)).

(** [ensureCDCPolynomial]: the polynomial of the instance, [own] being the one
    it was constructed with. *)
Definition ensureCDCPolynomial (repoRoot : bytes) (own : Z) (draw : option Z) : eff world runerr Z :=
  pol ← wrap_err RunPolynomial (LoadCDCPolynomial repoRoot draw);
  mret (if own =? 0 then pol else own).

(** The files of the manifest that is the baseline; a nil map is the empty one. *)
Definition loadPreviousFiles (metaDir cloudID : bytes) (forceFull : bool) : eff world runerr (gmap bytes FileEntry) :=
  if forceFull then mret ∅
  else
    r ← attempt (LoadLatestManifest hook metaDir cloudID);
    match r with
    | Err MNotFound => mret ∅
    | Err e => throw (RunPrevious e)
    | Ok m => if 0 <? s_ScanErrors (m_Stats m) then mret ∅ else mret (BuildFileMap m)
    end.

Definition Run (cfg : PipelineConfig) (own : Z) (sr : surroundings)
    (upload : Z -> list scanEntry -> gmap bytes FileEntry -> Manifest -> shared) : eff world runerr PipelineResult :=
  let metaDir := MetaDir (pc_RepoRoot cfg) in
  pol ← ensureCDCPolynomial (pc_RepoRoot cfg) own (sr_draw sr);
  let scanPath := if eqs (pc_ScanPath cfg) [] then pc_SourcePath cfg else pc_ScanPath cfg in
  let ex := loadExcludePatterns (sr_read sr) (pc_Excludes cfg) scanPath in
  let cloudID := if eqs (pc_CloudID cfg) [] then ResolveCloudID (pc_DeviceID cfg) (pc_SourceID cfg) else pc_CloudID cfg in
  prevFiles ← loadPreviousFiles metaDir cloudID (pc_ForceFull cfg);
  let newManifest := NewManifest (sr_stamp sr) (pc_SourceID cfg) cloudID (pc_SourceName cfg) (pc_SourcePath cfg) (pc_DeviceID cfg) in
  match scanSourceTree scanPath ex (sr_root sr) (sr_ctx sr) with
  | Err _ => throw RunWalk
  | Ok (files, dirEntries, scanErrCount) =>
      if (0 <? scanErrCount) && negb (pc_AllowScanErrors cfg) then throw (RunScanErrors scanErrCount)
      else
        let m1 := addEmptyDirs (set_scan_errors newManifest scanErrCount) files dirEntries in
        let '(m2, stats) := upload pol files prevFiles m1 in
        if sr_stopped sr then throw RunCancelled
        else
          let deleted := countDeletedFiles prevFiles files in
          let m3 := finish m2 stats deleted in
          _ ← wrap_err RunSave (SaveManifestWithKey metaDir m3 (pc_Key cfg) (sr_now sr) (sr_ent sr));
          _ ← updateSourceRegistry metaDir cloudID m3;
          mret (MkResult m3 (us_newFiles stats) (us_changedFiles stats) (us_unchangedFiles stats) deleted (us_uploadedBytes stats)
                  (total_size files) (us_failedFiles stats) (us_failedPaths stats) (us_failedErrors stats) (us_lockedFiles stats) (us_lockedPaths stats))
  end.

(** [NewSimplePipeline]; [disableCDC] is the field of the configuration, [env]
    and [globalPol] the environment variable and the package variable that the
    methods consult.  A configuration that cannot be read leaves the polynomial
    zero. *)
Definition NewSimplePipeline {E} (cpus : Z) (cfg : PipelineConfig) (disableCDC : bool) (env : bytes) (globalPol : Z) (draw : option Z) : eff world E pipe :=
  r ← attempt (LoadCDCPolynomial (pc_RepoRoot cfg) draw);
  mret (Pipe (NewEncryptor (pc_Key cfg) Crypto.DefaultChunkSize) (Some (Zstd.NewZstdCompressor cpus 1)) env disableCDC
          (match r with Ok pol => pol | Err _ => 0 end) globalPol).
End Ops.

(** * Facts *)

(** ** Files and directories of the new manifest *)

Lemma flat_addEmptyDirs {X} (g : bytes -> FileEntry -> list X) m files dirs : flat g (m_Dirs (addEmptyDirs m files dirs)) ≡ₚ flat g (m_Dirs m).
Proof.
  unfold addEmptyDirs. generalize (dirHasChildren files dirs) as has. intros has. revert m. induction dirs as [|d ds IH]; intros m; cbn [foldl]; [done |].
  rewrite IH. case_bool_decide; [done |]. destruct (eqs _ _); [done |]. apply flat_AddEmptyDir.
Qed.

Lemma existsb_perm {A} (f : A -> bool) l k : l ≡ₚ k -> existsb f l = existsb f k.
Proof. induction 1 as [| x l k _ IH | x y l | l1 l2 l3 _ IH1 _ IH2]; cbn; [done | by rewrite IH | by destruct (f x), (f y) | by rewrite IH1]. Qed.

Lemma existsb_bind {A B} (f : B -> bool) (g : A -> list B) l : existsb f (l ≫= g) = existsb (fun a => existsb f (g a)) l.
Proof. induction l as [|a l IH]; [done |]. rewrite bind_cons, existsb_app, IH. done. Qed.

Lemma bad_flat D : existsb (fun kd : bytes * Dir => existsb bad_status (d_Files kd.2)) (map_to_list D) = existsb bad_status (flat (fun _ f => [f]) D).
Proof.
  unfold flat. rewrite existsb_bind. apply existsb_ext. intros kd. rewrite existsb_bind. apply existsb_ext. intros f. cbn. by rewrite orb_false_r.
Qed.

(** A worker records a bad status exactly for the files it could not process. *)
Lemma entry_bad outcomes fr : (forall fe o, outcomes fe (Processed o) -> entry_for fe (o.1.1.1)) -> outcomes fr.1 fr.2 ->
  f_Name (entry_of fr) = se_relPath fr.1 /\ (bad_status (entry_of fr) = false <-> exists o, fr.2 = Processed o).
Proof.
  intros Hout Ho. destruct fr as [fe [o | pe tx]]; cbn [entry_of fst snd] in *.
  - destruct (Hout fe o Ho) as (Hn & _ & _ & _ & Hs). split; [done |]. split; [by exists o |]. intros _. unfold bad_status. by destruct Hs as [-> | [-> | ->]].
  - split; [done |]. split; [|by intros [? ?]]. unfold bad_status. cbn. by destruct (isFileLockedError pe tx).
Qed.

Lemma errors_AddFiles es : forall m, s_ScanErrors (m_Stats (foldl AddFile m es)) = s_ScanErrors (m_Stats m).
Proof. induction es as [|e es IH]; intros m; cbn [foldl]; [done |]. rewrite IH. unfold AddFile. by destruct (split_last _). Qed.

Lemma errors_addEmptyDirs m files dirs : s_ScanErrors (m_Stats (addEmptyDirs m files dirs)) = s_ScanErrors (m_Stats m).
Proof.
  unfold addEmptyDirs. generalize (dirHasChildren files dirs) as has. intros has. revert m. induction dirs as [|d ds IH]; intros m; cbn [foldl]; [done |].
  rewrite IH. case_bool_decide; [done |]. destruct (eqs _ _); [done |]. unfold AddEmptyDir. destruct (eqs _ _); [done |]. destruct (split_last _) as [a b]. by destruct (eqs b []).
Qed.

Lemma finish_complete m stats deleted : IsComplete (finish m stats deleted) = true <->
  s_ScanErrors (m_Stats m) <= 0 /\ existsb bad_status (flat (fun _ f => [f]) (m_Dirs (finish m stats deleted))) = false.
Proof.
  unfold IsComplete, EffectiveCompleteness. cbn [m_Completeness finish m_Dirs]. unfold DeriveCompleteness. cbn [m_Stats set_dirs s_ScanErrors m_Dirs]. rewrite bad_flat.
  destruct (Z.ltb_spec 0 (s_ScanErrors (m_Stats m))).
  - change (negb (eqs SnapshotIncomplete [])) with true. change (eqs SnapshotIncomplete SnapshotComplete) with false. split; [done |]. lia.
  - destruct (existsb _ _); [change (eqs (if negb (eqs SnapshotIncomplete []) then SnapshotIncomplete else _) SnapshotComplete) with false; split; [done | by intros []] |].
    change (eqs (if negb (eqs SnapshotComplete []) then SnapshotComplete else _) SnapshotComplete) with true. done.
Qed.

Lemma existsb_false_Forall {A} (f : A -> bool) l : existsb f l = false <-> Forall (fun a => f a = false) l.
Proof. induction l as [|a l IH]; cbn; [done |]. rewrite orb_false_iff, Forall_cons, IH. done. Qed.

(** ** A run *)

Section Built.
Context `{AE : AEAD, ZS : Zstd, SH : Sha256, HK : Hkdf} `{J : Json, RJ : RegJson, CJ : CfgJson} `{U : Uuid} `{RF : Rfc3339} `{RFF : Rfc3339Format}.
Context (outcomes : scanEntry -> presult -> Prop).

(** [sh] is what the pool makes of the manifest [m]. *)
Definition ran (files : list scanEntry) (m : Manifest) (sh : shared) : Prop :=
  exists cap n x p, (0 < n)%nat /\ rtc (step outcomes cap) (start files n x m) p /\ pl_at p = Returned /\ pl_cancelled p = false /\ pl_shared p = sh.

(** The manifest and the counters describe the source tree. *)
Definition snapshot_of (scanPath : bytes) (ex : excludes) (root : node) (allow : bool) (res : PipelineResult) : Prop :=
  exists files dirs errs l, scanned scanPath ex root files dirs errs /\ l.*1 ≡ₚ files /\ Forall (fun fr => outcomes fr.1 fr.2) l /\
    (errs = 0 \/ allow = true) /\
    AllFiles (pr_Manifest res) ≡ₚ (fun fr => listed_as (entry_of fr)) <$> l /\
    (forall d, d ∈ dirs -> is_Some (m_Dirs (pr_Manifest res) !! se_relPath d)) /\
    (forall q, is_Some (m_Dirs (pr_Manifest res) !! q) -> q = [] \/ exists d, d ∈ dirs /\ q = se_relPath d) /\
    (IsComplete (pr_Manifest res) = true <-> errs = 0 /\ Forall (fun fr => exists o, fr.2 = Processed o) l) /\
    pr_NewFiles res + pr_ChangedFiles res + pr_UnchangedFiles res + pr_FailedFiles res + pr_LockedFiles res = Z.of_nat (length files) /\
    ValidateStructure (pr_Manifest res) = Ok tt.

Definition scan_path (cfg : PipelineConfig) : bytes := if eqs (pc_ScanPath cfg) [] then pc_SourcePath cfg else pc_ScanPath cfg.

Lemma wp_Save_valid metaDir m key now ent w : wp (SaveManifestWithKey metaDir m key now ent) (fun r _ => is_ok r = true -> ValidateStructure m = Ok tt) w.
Proof.
  unfold SaveManifestWithKey. destruct (ValidateStructure m) as [[]|e]; [|by wp_step]. unfold wp. by intros _.
Qed.

Lemma wp_any_world {E A} (m : eff world E A) (Q : result E A -> world -> Prop) w : (forall r w', Q r w') -> wp m Q w.
Proof. intros HQ. apply HQ. Qed.

(** The pure part: from the scan to the finished manifest. *)
Lemma snapshot_built scanPath ex root files dirs errs m0 sh deleted : well_formed root ->
  (forall fe o, outcomes fe (Processed o) -> entry_for fe (o.1.1.1)) ->
  scanned scanPath ex root files dirs errs -> m_Dirs m0 = ∅ -> ran files (addEmptyDirs (set_scan_errors m0 errs) files dirs) sh ->
  let m := finish sh.1 sh.2 deleted in
  exists l, l.*1 ≡ₚ files /\ Forall (fun fr => outcomes fr.1 fr.2) l /\
    AllFiles m ≡ₚ (fun fr => listed_as (entry_of fr)) <$> l /\
    (forall d, d ∈ dirs -> is_Some (m_Dirs m !! se_relPath d)) /\
    (forall q, is_Some (m_Dirs m !! q) -> q = [] \/ exists d, d ∈ dirs /\ q = se_relPath d) /\
    (IsComplete m = true <-> errs = 0 /\ Forall (fun fr => exists o, fr.2 = Processed o) l) /\
    done_count sh.2 = Z.of_nat (length files) /\
    sh.1 = foldl AddFile (addEmptyDirs (set_scan_errors m0 errs) files dirs) (entry_of <$> l).
Proof.
  intros Hwf Hout Hsc He (cap & n & x & p & Hn & Hr & Ha & Hc & <-) m. set (m1 := addEmptyDirs _ files dirs) in *.
  destruct (pool_result outcomes cap n files m1 x p Hn Hr Ha) as (l & Hs & Ho & _ & Hp). specialize (Hp Hc). exists l.
  pose proof (record_manifest l (m1, stats0)) as Hm. rewrite <- Hs in Hm. cbn [fst] in Hm.
  assert (Hd : m_Dirs m = m_Dirs (foldl AddFile m1 (entry_of <$> l))) by (by rewrite <- Hm).
  assert (Hflat : forall X (g : bytes -> FileEntry -> list X), flat g (m_Dirs m) ≡ₚ (entry_of <$> l) ≫= fun e => g (home e).1 (set_name e (home e).2)).
  { intros X g. rewrite Hd, flat_AddFiles. subst m1. rewrite flat_addEmptyDirs. cbn [set_scan_errors set_dirs m_Dirs]. by rewrite He. }
  split; [done |]. split; [done |]. split; [|split; [|split; [|split]]].
  - rewrite AllFiles_flat, Hflat. clear. induction l as [|fr l IH]; [done |]. cbn. by rewrite <- IH.
  - intros d Hdin. rewrite Hd. subst m1. destruct Hsc as (Hfiles & Hdirs & _).
    assert (Hrel : forall k, k <> [] -> Forall normal k -> forall fe, se_relPath fe = GoStr.Join s_slash k -> exists k, rel_ok fe k) by (intros k H1 H2 fe H3; by exists k).
    apply dirs_chain_some; [| | | done].
    + intros f (k & i & Hf & _ & Hk & ->)%Hfiles. eapply (Hrel k); [by destruct k | by eapply find_normal | done].
    + intros d' (k & i & cs & Hk & Hf & _ & _ & ->)%Hdirs. eapply (Hrel k); [done | by eapply find_normal | done].
    + intros f Hf. rewrite <- Hp in Hf. apply list_elem_of_fmap in Hf as (fr & -> & Hfr). exists (entry_of fr). split; [by apply list_elem_of_fmap; exists fr |].
      rewrite Forall_forall in Ho. by apply (entry_bad outcomes fr Hout (Ho fr Hfr)).
  - intros q. rewrite Hd. apply (dirs_only scanPath ex root files dirs errs Hwf Hsc); [done |].
    intros e (fr & -> & Hfr)%list_elem_of_fmap. exists fr.1. split; [rewrite <- Hp; apply list_elem_of_fmap; by exists fr |].
    rewrite Forall_forall in Ho. by apply (entry_bad outcomes fr Hout (Ho fr Hfr)).
  - unfold m at 1. rewrite finish_complete. fold m. rewrite Hm, errors_AddFiles. subst m1. rewrite errors_addEmptyDirs. cbn [set_scan_errors set_dirs m_Stats s_ScanErrors].
    rewrite (existsb_perm bad_status _ _ (Hflat _ (fun _ f => [f]))). rewrite existsb_bind, existsb_false_Forall, Forall_fmap.
    destruct Hsc as (_ & _ & _ & Hpos & _). split; (intros [H1 H2]; split; [lia |]); (eapply Forall_impl; [exact (proj2 (Forall_and _ _) (conj Ho H2)) |]);
      intros fr [Hfr Hx]; cbn in *; pose proof (entry_bad outcomes fr Hout Hfr) as [_ Hb]; rewrite orb_false_r in *; by apply Hb.
  - split; [|done]. rewrite Hs. destruct (fold_counts l (m1, stats0)) as [-> _]. rewrite <- Hp, length_fmap. done.
Qed.

End Built.

Section Theorems.
Context `{AE : AEAD, ZS : Zstd, SH : Sha256, HK : Hkdf} `{J : Json, RJ : RegJson, CJ : CfgJson} `{U : Uuid} `{RF : Rfc3339} `{RFF : Rfc3339Format}.
Context (hook : option (bytes -> option bytes)).

Lemma wp_ensure_own repoRoot own draw w : wp (ensureCDCPolynomial repoRoot own draw) (fun r _ => forall pol, r = Ok pol -> own <> 0 -> pol = own) w.
Proof.
  unfold ensureCDCPolynomial. apply wp_bind, wp_any_world. intros [pol|] w1; [|done]. wp_step. intros p ->%ok_inv Hown. by destruct (Z.eqb_spec own 0).
Qed.

(** A pipeline built before a run gives the run the polynomial it uses itself,
    and the encryptor and compressor are those of the configuration. *)
Lemma wp_NewSimplePipeline {E} cpus cfg disableCDC env globalPol draw w :
  wp (NewSimplePipeline (E := E) cpus cfg disableCDC env globalPol draw) (fun r w' => exists p, r = Ok p /\
    pp_enc p = NewEncryptor (pc_Key cfg) Crypto.DefaultChunkSize /\ is_Some (pp_comp p) /\
    (pp_pol p <> 0 -> forall draw', wp (ensureCDCPolynomial (pc_RepoRoot cfg) (pp_pol p) draw') (fun x _ => forall pol, x = Ok pol -> pol = pp_pol p) w')) w.
Proof.
  unfold NewSimplePipeline. do 2 wp_step. apply wp_any_world. intros r w'. cbn beta iota. wp_step. eexists. split; [done |]. cbn. split; [done |]. split; [by eexists |].
  intros Hne draw'. eapply wp_mono; [apply wp_ensure_own |]. intros x w2 Hx pol ->. by apply (Hx pol eq_refl).
Qed.

Lemma ensure_frame repoRoot own draw w : wp (ensureCDCPolynomial repoRoot own draw) (fun _ w' =>
  (forall q, ~ ConfigPath repoRoot `prefix_of` q -> w_files w' !! q = w_files w !! q) /\ (calm w -> calm w')) w.
Proof.
  assert (Hsame : forall w', same w w' -> (forall q, ~ ConfigPath repoRoot `prefix_of` q -> w_files w' !! q = w_files w !! q) /\ (calm w -> calm w')).
  { intros w' Hs. split; [by rewrite (same_files _ _ Hs) | by apply same_faults]. }
  unfold ensureCDCPolynomial, LoadCDCPolynomial. do 3 wp_step. apply wp_LoadConfig; [intros e w1 Hs _; cbn beta iota; by apply Hsame |].
  intros c w1 Hs _. cbn beta iota. destruct (_ =? 0); [|wp_step; cbn beta iota; wp_step; by apply Hsame].
  destruct draw as [pol|]; cbn [GenerateCDCPolynomial]; [|wp_step; by apply Hsame].
  wp_step. unfold SaveConfig. wp_step. eapply wp_mono; [apply wp_WriteFileAtomic |]. intros r w2 [(_ & (u & Hq & _) & _) Hc].
  assert (Hfr : (forall q, ~ ConfigPath repoRoot `prefix_of` q -> w_files w2 !! q = w_files w !! q) /\ (calm w -> calm w2)).
  { split; [|intros ?; by apply Hc, (same_faults _ _ Hs)]. intros q Hn. rewrite Hq, (same_files _ _ Hs); [done | |]; intros ->; apply Hn; [done | by eexists]. }
  destruct r as [[]|]; cbn beta iota; [|exact Hfr]. wp_step. cbn beta iota. wp_step. exact Hfr.
Qed.

(** When nothing fails, the polynomial is there or can be drawn. *)
Lemma ensure_calm repoRoot own draw c w : calm w -> stored_config repoRoot w = Some c -> cf_CDCPolynomial c <> 0 \/ is_Some draw ->
  wp (ensureCDCPolynomial repoRoot own draw) (fun r _ => is_ok r = true) w.
Proof.
  intros Hc Hst Hp. unfold ensureCDCPolynomial, LoadCDCPolynomial. do 3 wp_step. apply wp_LoadConfig; [intros e w1 _ Hno; by rewrite (Hno Hc) in Hst |].
  intros c' w1 Hs Hst'. assert (c' = c) as -> by congruence. cbn beta iota. destruct (Z.eqb_spec (cf_CDCPolynomial c) 0) as [Hz|]; [|by do 2 wp_step].
  destruct Hp as [? | [pol ->]]; [done |]. cbn [GenerateCDCPolynomial]. wp_step. unfold SaveConfig. wp_step. eapply wp_mono; [apply wp_WriteFileAtomic |].
  intros r w2 [(_ & _ & Hok) _]. rewrite (Hok (same_faults _ _ Hs Hc)). by do 2 wp_step.
Qed.

(** The identifier under which the manifests of the source are filed. *)
Definition run_cloud_id (cfg : PipelineConfig) : bytes :=
  if eqs (pc_CloudID cfg) [] then ResolveCloudID (pc_DeviceID cfg) (pc_SourceID cfg) else pc_CloudID cfg.

(** What the run can take as its baseline, starting from [w]: the files of the
    latest manifest, as it finds them when it has fixed the polynomial. *)
Definition baselines (cfg : PipelineConfig) (w : world) (baseline : gmap bytes FileEntry -> Prop) : Prop :=
  forall w1, (forall q, ~ ConfigPath (pc_RepoRoot cfg) `prefix_of` q -> w_files w1 !! q = w_files w !! q) /\ (calm w -> calm w1) ->
    wp (loadPreviousFiles hook (MetaDir (pc_RepoRoot cfg)) (run_cloud_id cfg) (pc_ForceFull cfg)) (fun r _ => forall prev, r = Ok prev -> baseline prev) w1.

(** A full backup has no baseline. *)
Lemma full_baseline cfg w : pc_ForceFull cfg = true -> baselines cfg w (fun prev => prev = ∅).
Proof. intros Hf w1 _. rewrite Hf. unfold loadPreviousFiles. wp_step. by intros prev ->%ok_inv. Qed.

(** The workers get the scanned files, a baseline and the polynomial (the
    instance's own, if it has one). *)
Lemma wp_Run_snapshot (outcomes : gmap bytes FileEntry -> scanEntry -> presult -> Prop) baseline cfg own sr upload w : well_formed (sr_root sr) -> sr_ctx sr = [] ->
  baselines cfg w baseline ->
  (forall prev fe o, baseline prev -> outcomes prev fe (Processed o) -> entry_for fe (o.1.1.1)) ->
  (forall pol files dirs errs prev m, scanSourceTree (scan_path cfg) (loadExcludePatterns (sr_read sr) (pc_Excludes cfg) (scan_path cfg)) (sr_root sr) [] = Ok (files, dirs, errs) ->
     (own <> 0 -> pol = own) -> baseline prev -> sr_stopped sr = false -> ran (outcomes prev) files m (upload pol files prev m)) ->
  wp (Run hook cfg own sr upload) (fun r _ => forall res, r = Ok res -> exists prev, baseline prev /\
    snapshot_of (outcomes prev) (scan_path cfg) (loadExcludePatterns (sr_read sr) (pc_Excludes cfg) (scan_path cfg)) (sr_root sr) (pc_AllowScanErrors cfg) res) w.
Proof.
  intros Hwf Hctx Hbase Hout Hup. unfold Run. fold (scan_path cfg) (run_cloud_id cfg). set (ex := loadExcludePatterns _ _ _) in *. apply wp_bind.
  eapply wp_mono; [apply wp_and; [apply wp_ensure_own | apply ensure_frame] |]. intros [pol|] w1 [Hpol Hfr]; [|done]. specialize (Hpol pol eq_refl).
  cbv beta iota zeta. apply wp_bind. eapply wp_mono; [by apply Hbase |].
  intros [prev|] w2 Hprev; [|done]. specialize (Hprev prev eq_refl). cbv beta iota zeta. rewrite Hctx.
  destruct (scan_result (scan_path cfg) ex (sr_root sr) Hwf) as (files & dirs & errs & Escan & Hsc). rewrite Escan.
  destruct (_ && _) eqn:Ea; [by wp_step |]. set (m0 := NewManifest _ _ _ _ _ _).
  destruct (upload pol files prev (addEmptyDirs (set_scan_errors m0 errs) files dirs)) as [m2 stats] eqn:Eu.
  destruct (sr_stopped sr) eqn:Es; [by wp_step |]. pose proof (Hup pol files dirs errs prev (addEmptyDirs (set_scan_errors m0 errs) files dirs) Escan Hpol Hprev eq_refl) as Hran. rewrite Eu in Hran.
  destruct (snapshot_built (outcomes prev) (scan_path cfg) ex (sr_root sr) files dirs errs m0 (m2, stats) (countDeletedFiles prev files) Hwf (fun fe o => Hout prev fe o Hprev) Hsc eq_refl Hran)
    as (l & Hp & Ho & Hall & Hd & Hdo & Hcomp & Hcnt & _).
  cbn [fst snd] in *. wp_step. wp_step. eapply wp_mono; [apply wp_Save_valid |]. intros [[p e']|] w3 Hv; [|done]. specialize (Hv eq_refl). cbn beta iota.
  apply wp_bind, wp_any_world. intros [?|] w4; [|done]. cbn beta iota. wp_step. intros res ->%ok_inv. exists prev. split; [done |]. exists files, dirs, errs, l.
  split_and!; try done. destruct Hsc as (_ & _ & _ & Hpos & _). destruct (Z.ltb_spec 0 errs); [right | left; lia]. cbn [andb] in Ea. by apply negb_false_iff in Ea.
Qed.

(** C16: a run that succeeds takes a faithful snapshot: its manifest is valid,
    lists exactly one entry for each file the rules keep, under its path, and
    exactly the scanned directories and the root; the counters add up to the number of files; it is
    marked complete just when every path could be read and every file
    processed; and paths were only missed when the caller allowed it. *)
Theorem run_snapshot (outcomes : scanEntry -> presult -> Prop) cfg own sr upload w : well_formed (sr_root sr) -> sr_ctx sr = [] ->
  (forall fe o, outcomes fe (Processed o) -> entry_for fe (o.1.1.1)) ->
  (forall pol files prev m, sr_stopped sr = false -> ran outcomes files m (upload pol files prev m)) ->
  wp (Run hook cfg own sr upload) (fun r _ => forall res, r = Ok res ->
    snapshot_of outcomes (scan_path cfg) (loadExcludePatterns (sr_read sr) (pc_Excludes cfg) (scan_path cfg)) (sr_root sr) (pc_AllowScanErrors cfg) res) w.
Proof.
  intros Hwf Hctx Hout Hup. eapply wp_mono; [apply (wp_Run_snapshot (fun _ => outcomes) (fun _ => True)); [done | done | intros ? _; by apply wp_any_world | by intros _ fe o _; apply Hout |] |].
  - intros pol files dirs errs prev m _ _ _. apply Hup.
  - intros r w' H res ->. by destruct (H res eq_refl) as (_ & _ & ?).
Qed.

(** Effects that do not change the files. *)
Definition reads {E A} (m : eff world E A) : Prop := forall w, w_files (m w).2 = w_files w.

Lemma reads_bind {E A B} (m : eff world E A) (f : A -> eff world E B) : reads m -> (forall a, reads (f a)) -> reads (m ≫= f).
Proof. intros Hm Hf w. specialize (Hm w). unfold mbind, eff_bind. destruct (m w) as [[a|] w1]; cbn in *; [by rewrite Hf | done]. Qed.

Lemma reads_attempt {E E' A} (m : eff world E A) : reads m -> reads (attempt (E' := E') m).
Proof. intros Hm w. specialize (Hm w). unfold attempt. by destruct (m w). Qed.

Lemma reads_wrap {E E' A} (f : E -> E') (m : eff world E A) : reads m -> reads (wrap_err f m).
Proof. intros Hm w. specialize (Hm w). unfold wrap_err. by destruct (m w). Qed.

Lemma reads_ret {E A} (a : A) : reads (E := E) (mret a).
Proof. done. Qed.

Lemma reads_throw {E A} (e : E) : reads (A := A) (throw e).
Proof. done. Qed.

Lemma reads_syscall {A} (k : world -> result oserr A * world) : (forall w, w_files (k w).2 = w_files w) -> reads (syscall k).
Proof.
  intros Hk w. unfold syscall. destruct (take_fault_same w) as [Hs _]. destruct (take_fault w) as [[f|] w1]; cbn in *; [apply (same_files _ _ Hs) |].
  rewrite Hk. apply (same_files _ _ Hs).
Qed.

Lemma reads_ReadFile p : reads (ReadFile p).
Proof. apply reads_syscall. intros w. unfold with_file. by destruct (w_files w !! p). Qed.

Lemma reads_Stat p : reads (Stat p).
Proof. apply reads_syscall. intros w. unfold with_file. by destruct (w_files w !! p). Qed.

Lemma reads_ReadDir d : reads (ReadDir d).
Proof. apply reads_syscall. intros w. by destruct (children d (w_files w)). Qed.

Create HintDb reads.
#[local] Hint Resolve reads_attempt reads_wrap reads_ret reads_throw reads_ReadFile reads_Stat reads_ReadDir : reads.
#[local] Hint Extern 2 (reads (mbind _ _)) => apply reads_bind; [|intros ?] : reads.

Lemma reads_LoadManifest path : reads (LoadManifest hook path).
Proof.
  unfold LoadManifest, verifyManifestChecksum. apply reads_bind; [auto with reads |]. intros data.
  apply reads_bind; [destruct (isGBREnvelope data); [auto with reads |] |]; [|intros ?; destruct (LoadManifestFromData hook data); auto with reads].
  apply reads_bind; [auto with reads |]. intros [x|[]]; auto with reads. destruct (eqs _ _); auto with reads.
Qed.
#[local] Hint Resolve reads_LoadManifest : reads.

Lemma reads_first_loadable dir names : forall fe, reads (first_loadable hook dir fe names).
Proof. induction names as [|nm names IH]; intros fe; cbn [first_loadable]; [auto with reads |]. apply reads_bind; [auto with reads |]. intros [m|e]; auto with reads. Qed.

Lemma reads_candidates dir names : reads (read_candidates dir names).
Proof.
  induction names as [|nm names IH]; cbn [read_candidates]; [auto with reads |]. destruct (ParseManifestFilenameTimestamp nm); [|done].
  apply reads_bind; [auto with reads |]. intros x. apply reads_bind; [done |]. auto with reads.
Qed.
#[local] Hint Resolve reads_first_loadable reads_candidates : reads.

Lemma reads_loadPrevious metaDir cloudID forceFull : reads (loadPreviousFiles hook metaDir cloudID forceFull).
Proof.
  unfold loadPreviousFiles. destruct forceFull; [auto with reads |]. apply reads_bind; [apply reads_attempt |].
  - unfold LoadLatestManifest, readManifestFiles, readManifestDirEntries. apply reads_bind; [auto 10 with reads |]. intros [names|[]]; auto with reads.
    apply reads_bind; [auto with reads |]. intros [|c cs]; [auto with reads |]. apply reads_bind; [auto with reads |]. intros [m|[e|]]; auto with reads.
  - intros [m|[]]; auto with reads. destruct (_ <? _); auto with reads.
Qed.

(** C35: an incomplete scan never becomes a snapshot by default: when some
    path cannot be read and the caller did not allow it, the run fails, and no
    file but the configuration, which may have got its polynomial, is touched. *)
Theorem run_refuses_incomplete cfg own sr upload w files dirs errs : sr_ctx sr = [] -> pc_AllowScanErrors cfg = false ->
  scanSourceTree (scan_path cfg) (loadExcludePatterns (sr_read sr) (pc_Excludes cfg) (scan_path cfg)) (sr_root sr) [] = Ok (files, dirs, errs) -> 0 < errs ->
  wp (Run hook cfg own sr upload) (fun r w' => is_ok r = false /\
    forall q, ~ ConfigPath (pc_RepoRoot cfg) `prefix_of` q -> w_files w' !! q = w_files w !! q) w.
Proof.
  intros Hctx Hallow Hscan Herr. unfold Run. fold (scan_path cfg). wp_step. eapply wp_mono; [apply ensure_frame |]. intros r w1 [H1 _].
  destruct r as [pol|]; [|by split]. cbv beta iota zeta. wp_step. unfold wp at 1.
  pose proof (reads_loadPrevious (MetaDir (pc_RepoRoot cfg)) (if eqs (pc_CloudID cfg) [] then ResolveCloudID (pc_DeviceID cfg) (pc_SourceID cfg) else pc_CloudID cfg) (pc_ForceFull cfg) w1) as H2.
  destruct (loadPreviousFiles _ _ _ _ w1) as [[prev|] w2]; cbn [fst snd] in *; [|split; [done |]; intros q Hq; rewrite H2; by apply H1].
  rewrite Hctx, Hscan. destruct (Z.ltb_spec 0 errs); [|lia]. rewrite Hallow. cbn [andb negb]. wp_step. split; [done |]. intros q Hq. rewrite H2. by apply H1.
Qed.
End Theorems.

(** ** Witnesses *)

Module BackupWitness.
Import Toy.

#[local] Instance bw_json : Json := {
  json_marshal m := x7b :: FormatInt (m_SourceID m);
  json_unmarshal d := None;
  json_unmarshal_v1 d := None
}.
#[local] Instance bw_reg : RegJson := { reg_marshal r := go "r"; reg_unmarshal d := None }.
#[local] Instance bw_cfg : CfgJson := {
  cfg_marshal c := FormatInt (cf_CDCPolynomial c);
  cfg_unmarshal d := (fun pol => set_pol pol (DefaultConfig [] [] [])) <$> ParseInt d
}.
#[local] Instance bw_uuid : Uuid := toy_uuid.
#[local] Instance bw_parse : Rfc3339 := fun s => Some (1767323045 * 10 ^ 9).
#[local] Instance bw_format : Rfc3339Format := FormatInt.

(** A file in a directory, an empty directory, an excluded one. *)
Definition info (n : Z) : finfo := MkInfo n (go "2023-11-14T22:13:20Z") 420.
Definition tree : node := Folder (info 0) (Some [
  (go "docs", Folder (info 0) (Some [(go "a.txt", Leaf (info 5))]));
  (go "empty", Folder (info 0) (Some []));
  (go "tmp", Folder (info 0) (Some [(go "x", Leaf (info 1))])) ]).

Definition repo : world := World {[ ConfigPath (go "/r") := File (FormatInt 7) 1 ]} [] [] 5 0.
Definition config : PipelineConfig := MkPipelineConfig (go "/r") 1 [] (go "home") (go "/home/u") [] (go "dev1") [] [go "tmp"] false false.
Definition around (n : node) : surroundings := Surroundings n (fun _ => None) [] false 0 (go "2026-01-02T03:04:05Z") None [].

(** Every file is new and stored. *)
Definition stored_as (fe : scanEntry) : presult := Processed (makeFileEntry fe (go "00") FileStatusNew, se_size fe, false, true).
Definition outs (fe : scanEntry) (r : presult) : Prop := r = stored_as fe.
Definition results (files : list scanEntry) : list (scanEntry * presult) := (fun fe => (fe, stored_as fe)) <$> files.
Definition upload (_ : Z) (files : list scanEntry) (_ : gmap bytes FileEntry) (m : Manifest) : shared := foldl record (m, stats0) (results files).

Lemma outs_ok fe o : outs fe (Processed o) -> entry_for fe (o.1.1.1).
Proof. intros [= ->]. split_and!; try done. by left. Qed.

Lemma upload_ran pol files prev m : ran outs files m (upload pol files prev m).
Proof.
  exists 1%nat, 1%nat, false. assert (E : (results files).*1 = files) by (unfold results; rewrite <- list_fmap_compose; apply list_fmap_id).
  assert (Ho : Forall (fun fr => outs fr.1 fr.2) (results files)) by (apply Forall_fmap, Forall_forall; done).
  pose proof (one_worker_returns outs (results files) m Ho) as Hr. rewrite E in Hr. eexists. split; [lia |]. split; [exact Hr | done].
Qed.

Lemma tree_ok : well_formed tree.
Proof.
  apply well_formed_folder. split; [by_decide |]. split; [by_decide |]. repeat apply Forall_cons_2; [| | | by apply Forall_nil_2];
    (apply well_formed_folder; split; [by_decide |]; split; [by_decide |]).
  - by apply Forall_singleton.
  - by apply Forall_nil_2.
  - by apply Forall_singleton.
Qed.

Lemma scan_exact_witness : exists files dirs errs, scanSourceTree (go "/home/u") (MkExcludes [go "tmp"] [] []) tree [] = Ok (files, dirs, errs) /\
  se_relPath <$> files = [go "docs/a.txt"] /\ se_relPath <$> dirs = [go "docs"; go "empty"] /\ scanned (go "/home/u") (MkExcludes [go "tmp"] [] []) tree files dirs errs.
Proof.
  destruct (scan_exact (go "/home/u") (MkExcludes [go "tmp"] [] []) tree tree_ok) as (files & dirs & errs & E & Hs). exists files, dirs, errs. split; [exact E |].
  assert (Ef : match scanSourceTree (go "/home/u") (MkExcludes [go "tmp"] [] []) tree [] with Ok (f, d, _) => (se_relPath <$> f, se_relPath <$> d) | Err _ => ([], []) end
    = ([go "docs/a.txt"], [go "docs"; go "empty"])) by (vm_compute; reflexivity).
  rewrite E in Ef. split; [exact (f_equal fst Ef) |]. split; [exact (f_equal snd Ef) | exact Hs].
Defined.

Lemma run_snapshot_witness : exists res w', Run None config 0 (around tree) upload repo = (Ok res, w') /\
  snapshot_of outs (go "/home/u") (loadExcludePatterns (fun _ => None) [go "tmp"] (go "/home/u")) tree false res.
Proof.
  pose proof (run_snapshot None outs config 0 (around tree) upload repo tree_ok eq_refl outs_ok ltac:(intros; apply upload_ran)) as H. unfold wp in H.
  assert (E : is_ok (Run None config 0 (around tree) upload repo).1 = true) by (vm_compute; reflexivity).
  destruct (Run None config 0 (around tree) upload repo) as [[res|] w']; [|discriminate E]. exists res, w'. split; [reflexivity |]. exact (H res eq_refl).
Defined.

(** A directory that cannot be read. *)
Definition locked_tree : node := Folder (info 0) (Some [(go "private", Folder (info 0) None)]).

Lemma run_refuses_incomplete_witness :
  is_ok (Run None config 0 (around locked_tree) upload repo).1 = false /\
  forall q, ~ ConfigPath (go "/r") `prefix_of` q -> w_files (Run None config 0 (around locked_tree) upload repo).2 !! q = w_files repo !! q.
Proof.
  assert (E : scanSourceTree (scan_path config) (loadExcludePatterns (fun _ => None) [go "tmp"] (scan_path config)) locked_tree [] = Ok ([], [], 1)) by (vm_compute; reflexivity).
  exact (run_refuses_incomplete None config 0 (around locked_tree) upload repo [] [] 1 eq_refl eq_refl E eq_refl).
Defined.

Lemma dirs_recorded_witness : is_Some (m_Dirs (foldl AddFile (addEmptyDirs (NewManifest [] 1 [] [] [] []) [] [MkScan (go "e/f") [] 0 [] 0; MkScan (go "e") [] 0 [] 0]) []) !! go "e").
Proof.
  set (ds := [MkScan (go "e/f") [] 0 [] 0; MkScan (go "e") [] 0 [] 0]).
  assert (Hd : forall d, d ∈ ds -> exists k, rel_ok d k).
  { intros d [-> | [-> | ?%elem_of_nil]%elem_of_cons]%elem_of_cons; [exists [go "e"; go "f"] | exists [go "e"] | done]; (split; [done |]; split; [by_decide | vm_compute; reflexivity]). }
  exact (dirs_recorded (NewManifest [] 1 [] [] [] []) [] ds [] ltac:(by intros ? ?%elem_of_nil) Hd ltac:(by intros ? ?%elem_of_nil) (MkScan (go "e") [] 0 [] 0) ltac:(apply elem_of_cons; right; apply elem_of_cons; by left)).
Defined.
End BackupWitness.
