(* ===== verification/Reports.v ===== *)
(** Reports: what a backup run reports to its progress tracker ([WithProgress]
    and the calls of [Run] and [runUploadWorkers] in [simple/pipeline.go]),
    against the counters of its result. *)

From S2P Require Import Prelude GoStr Ignore Externs Compress Crypto Stream FS BlobStore Blob Manifest CloudID ManifestIO RestorePath SecureDir Restore PipeFile Scan Pool Registry Config Progress Backup.
From stdpp Require Import base list gmap strings relations.
From Stdlib.Strings Require Import Byte.
Local Open Scope Z_scope.

(** A worker reports every file it has dealt with; [processFile] returns false
    for both flags with an error. *)
Definition file_call (fr : scanEntry * presult) (elapsed : Z) : call :=
  let '(isChanged, isNew) := match fr.2 with Processed (_, _, isChanged, isNew) => (isChanged, isNew) | FileErr _ _ => (false, false) end in
  FileProcessed (se_relPath fr.1) (se_size fr.1) (isNew || isChanged) isChanged elapsed.

(** The calls of a run that gets through, the files in the order [l] in which
    they were dealt with, at the times [now]. *)
Definition run_calls (files : list scanEntry) (l : list (scanEntry * presult)) (now : nat -> Z) : list call :=
  [SetPhase PhaseScanning (now O); SetPhase PhaseUploading (now O); SetTotal (Z.of_nat (length files)) (total_size files)] ++
  imap (fun i fr => file_call fr (now i)) l ++ [SetPhase PhaseComplete (now (length l))].

(** [WithProgress]. *)
Definition WithProgress (cfg : PipelineConfig) (cb : bool) (calls : list call) : tracker := NewProgressTracker (pc_SourceID cfg) (pc_SourceName cfg) cb calls.

(** * Facts *)

Definition sizes (files : list scanEntry) : Z := foldr (fun fe a => se_size fe + a) 0 files.

Lemma total_app l1 : forall l2, Progress.total (l1 ++ l2) = add (Progress.total l1) (Progress.total l2).
Proof.
  induction l1 as [|c l1 IH]; intros l2; [cbn [app]; by destruct (Progress.total l2) |]. change (add (counts c) (Progress.total (l1 ++ l2)) = add (add (counts c) (Progress.total l1)) (Progress.total l2)). rewrite IH.
  destruct (counts c), (Progress.total l1), (Progress.total l2). unfold add. cbn. f_equal; lia.
Qed.

(** One file, beside the counters that the workers keep. *)
Lemma file_counts sh fr elapsed : let c := counts (file_call fr elapsed) in let s := sh.2 in let s' := (record sh fr).2 in
  ta_files c = 1 /\ ta_bytes c = se_size fr.1 /\ ta_changed c = 0 /\ us_newFiles s' + us_changedFiles s' = us_newFiles s + us_changedFiles s + ta_new c /\
  us_unchangedFiles s' + us_failedFiles s' + us_lockedFiles s' = us_unchangedFiles s + us_failedFiles s + us_lockedFiles s + ta_unchanged c.
Proof.
  destruct sh as [m s], fr as [fe [[[[e u] c] n] | pe tx]]; unfold file_call; cbn [record snd fst].
  - destruct n, c; cbn; lia.
  - destruct (isFileLockedError pe tx); cbn; lia.
Qed.

(** What the files add up to. *)
Lemma file_totals l : forall (now : nat -> Z) (sh : shared), let a := Progress.total (imap (fun i fr => file_call fr (now i)) l) in let s := (foldl record sh l).2 in
  ta_files a = Z.of_nat (length l) /\ ta_bytes a = sizes l.*1 /\ ta_changed a = 0 /\
  us_newFiles s + us_changedFiles s = us_newFiles sh.2 + us_changedFiles sh.2 + ta_new a /\
  us_unchangedFiles s + us_failedFiles s + us_lockedFiles s = us_unchangedFiles sh.2 + us_failedFiles sh.2 + us_lockedFiles sh.2 + ta_unchanged a.
Proof.
  induction l as [|fr l IH]; intros now sh; [cbn; lia |]. cbn zeta. rewrite imap_cons. cbn [foldl length].
  change (Progress.total (file_call fr (now O) :: ?x)) with (add (counts (file_call fr (now O))) (Progress.total x)).
  pose proof (file_counts sh fr (now O)) as (C1 & C2 & C3 & C4 & C5). destruct (IH (now ∘ S) (record sh fr)) as (H1 & H2 & H3 & H4 & H5). unfold compose in *.
  change (sizes (fr :: l).*1) with (se_size fr.1 + sizes l.*1).
  destruct (Progress.total (imap _ l)), (counts (file_call fr (now O))). cbn in *. lia.
Qed.

Lemma sizes_perm l k : l ≡ₚ k -> sizes l = sizes k.
Proof. unfold sizes. induction 1 as [| x l k _ IH | x y l | l1 l2 l3 _ IH1 _ IH2]; cbn; lia. Qed.

(** Whatever order the reports of a run take effect in, at the end the
    tracker shows every file of the source and its bytes as processed, counts as
    new the files that the result counts as new and as changed, counts none as
    changed, and counts as unchanged those that the result counts as unchanged,
    failed or locked. *)
Theorem run_reported (cfg : PipelineConfig) (cb : bool) (files : list scanEntry) (l : list (scanEntry * presult)) (now : nat -> Z) (m : Manifest) t : l.*1 ≡ₚ files ->
  rtc tstep (WithProgress cfg cb (run_calls files l now)) t -> forallb finished (tr_thr t) = true ->
  let p := GetProgress t in let s := (foldl record (m, stats0) l).2 in
  Progress.pr_ProcessedFiles p = int64 (Z.of_nat (length files)) /\ Progress.pr_ProcessedBytes p = int64 (sizes files) /\
  Progress.pr_NewFiles p = int64 (us_newFiles s + us_changedFiles s) /\ Progress.pr_ChangedFiles p = 0 /\
  Progress.pr_UnchangedFiles p = int64 (us_unchangedFiles s + us_failedFiles s + us_lockedFiles s).
Proof.
  intros Hl Hr Hf p s. pose proof (finished_shows _ _ _ _ _ Hr Hf) as (H1 & H2 & H3 & H4 & H5 & _). fold p in H1, H2, H3, H4, H5.
  pose proof (file_totals l now (m, stats0)) as (E1 & E2 & E3 & E4 & E5). cbn [snd us_newFiles us_changedFiles us_unchangedFiles us_failedFiles us_lockedFiles stats0] in E4, E5.
  assert (Ht : Progress.total (run_calls files l now) = Progress.total (imap (fun i fr => file_call fr (now i)) l)).
  { unfold run_calls. rewrite !total_app. destruct (Progress.total (imap _ l)). unfold add. cbn. f_equal; lia. }
  rewrite Ht in H1, H2, H3, H4, H5. rewrite H1, H2, H3, H4, H5, E1, E2, E3. unfold s. rewrite E4, E5, !Z.add_0_l.
  rewrite <- (sizes_perm _ _ Hl), <- (Permutation_length Hl), length_fmap. done.
Qed.
