(* ===== verification/EndToEnd.v ===== *)
(** EndToEnd: a backup and a restore together.  A complete snapshot that [Run]
    of [Backup] takes of a source tree, restored by [restoreManifest] to an
    empty directory, gives the tree back. *)

From S2P Require Import Prelude GoStr Ignore Externs Compress Crypto Stream FS BlobStore LocalStore Blob BlobLocal Manifest CloudID ManifestIO RestorePath SecureDir Restore RestoreTree PipeFile PipeLocal Scan Pool Registry Config Backup.
From stdpp Require Import base list gmap strings.
From Stdlib.Strings Require Import Byte.
Local Open Scope Z_scope.

(** ** Names *)

Lemma full_path_snoc k x : Forall normal k -> full_path (GoStr.Join s_slash k) x = GoStr.Join s_slash (k ++ [x]).
Proof.
  intros Hk. unfold full_path. rewrite Join_nil by done. case_bool_decide as E; [by subst |].
  destruct k as [|y k]; [done |]. unfold s_slash. by rewrite Join_snoc.
Qed.

(** An entry is listed under the path it was added with. *)
Lemma listed_name e k : k <> [] -> Forall normal k -> f_Name e = GoStr.Join s_slash k -> f_Name (listed_as e) = GoStr.Join s_slash k.
Proof.
  intros Hk Hn En. destruct (chain_snoc k Hk) as (k' & x & ->). apply Forall_app in Hn as Hn'. destruct Hn' as [Hk' [Hx _]%Forall_cons].
  unfold listed_as, home. rewrite En, normalize_Join, split_last_Join by done. cbn. by apply full_path_snoc.
Qed.

Lemma NoDup_omap_key {A B C} (p : A -> option B) (h : A -> C) (q : B -> C) (l : list A) :
  (forall a b, a ∈ l -> p a = Some b -> q b = h a) -> NoDup (h <$> l) -> NoDup (omap p l).
Proof.
  induction l as [|a l IH]; intros Hq Hn; cbn; [constructor |]. apply NoDup_cons in Hn as [Ha Hn].
  assert (IH' : NoDup (omap p l)) by (apply IH; [intros a' b Ha'; apply Hq; by right | done]).
  destruct (p a) as [b|] eqn:E; [|done]. apply NoDup_cons. split; [|done]. intros (a' & Ha' & E')%list_elem_of_omap.
  apply Ha, list_elem_of_fmap. exists a'. split; [|done]. rewrite <- (Hq a b), <- (Hq a' b) by (done || by (left + right)). done.
Qed.

(** The time a file with this recorded time is given. *)
Definition time_of `{RF : Rfc3339} (mtime : bytes) : Z := final_time (MkFileEntry [] [] 0 mtime 0 [] []).

Section Theorems.
Context `{AE : AEAD, ZS : Zstd, SH : Sha256, HK : Hkdf, SHS : !Sha256Spec SH} `{J : Json, RJ : RegJson, CJ : CfgJson}.
Context `{WK : Walk} `{U : Uuid} `{RF : Rfc3339} `{RFF : Rfc3339Format}.
Context {S : Type} `{B : BlobStore S, SV : StoreView S, BS : !BlobStoreSpec S}.
Context (hook : option (bytes -> option bytes)) (outcomes : scanEntry -> presult -> Prop) (content : scanEntry -> bytes).

(** Every file the workers report as processed is described by its entry, and
    the blobs of the entry give its content. *)
Definition stored_all (dec : Decryptor) (room : Z) (blob : bytes -> option bytes) : Prop :=
  forall fe o, outcomes fe (Processed o) -> entry_for fe (o.1.1.1) /\ IsRestorable (o.1.1.1) = true /\
    file_content dec room blob (o.1.1.1) = Some (content fe).

(** The target is an empty directory, or is created; nothing interferes. *)
Record empty_target (cwd : bytes) (cfg : RestoreConfig) (f : SecureDir.fs) (r : nat) (t : @rst S) : Prop := {
  et_cwd : IsAbs cwd = true;
  et_uuid : forall n, slash ∉ uuid_string n;
  et_env : sw_env (r_sw t) = [];
  et_good : RestoreTree.good (r_store t) t;
  et_root : root_at (Abs cwd (rc_TargetDir cfg)) (sw_fs (r_sw t)) f r;
  et_tree : treelike f r;
  et_empty : forall l, view f r l = if decide (l = []) then Some TDir else None
}.

(** Names a restore accepts: not like a drive, and no staging name. *)
Definition restorable_names (root : node) : Prop :=
  forall k n, Scan.find root k = Some n -> k <> [] -> rejected_absolute (GoStr.Join s_slash k) = false /\ Forall plain_name k.

Section Tree.
Context (scanPath : bytes) (ex : excludes) (root : node).

(** What the rules keep of the source tree. *)
Definition kept_file (k : list bytes) (i : finfo) : Prop := Scan.find root k = Some (Leaf i) /\ open_above ex [] k /\ file_kept ex k i = true.
Definition kept_dir (k : list bytes) : Prop := k <> [] /\ exists i cs, Scan.find root k = Some (Folder i (Some cs)) /\ open_above ex [] k /\ dir_kept ex k = true.

(** [V] is the source tree: each kept file with its content, mode and time, each
    kept directory, and nothing else. *)
Definition same_tree (V : tree) : Prop :=
  (forall k i, kept_file k i -> V k = Some (TFile (content (file_entry scanPath k i)) (fi_Perm i) (time_of (fi_ModTime i)))) /\
  (forall k, kept_dir k -> V k = Some TDir) /\
  (forall k, k <> [] -> is_Some (V k) -> (exists i, kept_file k i) \/ kept_dir k).

Section Snapshot.
Context (m : Manifest) (files dirs : list scanEntry) (errs : Z) (l : list (scanEntry * presult)).
Context (cwd : bytes) (cfg : RestoreConfig) (dec : Decryptor) (room : Z) (blob : bytes -> option bytes).
Hypothesis Hwf : well_formed root.
Hypothesis Hsc : scanned scanPath ex root files dirs errs.
Hypothesis Hl : l.*1 ≡ₚ files.
Hypothesis Hout : Forall (fun fr => outcomes fr.1 fr.2) l.
Hypothesis Hall : AllFiles m ≡ₚ (fun fr => listed_as (entry_of fr)) <$> l.
Hypothesis Hdirs : forall d, d ∈ dirs -> is_Some (m_Dirs m !! se_relPath d).
Hypothesis Honly : forall q, is_Some (m_Dirs m !! q) -> q = [] \/ exists d, d ∈ dirs /\ q = se_relPath d.
Hypothesis Hproc : Forall (fun fr => exists o, fr.2 = Processed o) l.
Hypothesis Hst : stored_all dec room blob.
Hypothesis Hnames : restorable_names root.
Hypothesis Hcwd : IsAbs cwd = true.
Abbreviation comps_of p := (safeRestoreComponents cwd (rc_TargetDir cfg) p).

Lemma path_accepted k n : Scan.find root k = Some n -> k <> [] -> comps_of (GoStr.Join s_slash k) = Ok k.
Proof. intros Hf Hk. destruct (Hnames k n Hf Hk). apply safe_restore_accepts; try done. by eapply find_normal. Qed.

Lemma kept_nonempty k i : kept_file k i -> k <> [].
Proof. intros (_ & _ & H). by destruct k. Qed.

(** The files of the manifest are the kept files. *)
Lemma listed_files file : file ∈ AllFiles m -> exists k i, kept_file k i /\ f_Name file = GoStr.Join s_slash k /\ place cwd cfg file = Some k /\
  file_content dec room blob file = Some (content (file_entry scanPath k i)) /\ f_Mode file = fi_Perm i /\ final_time file = time_of (fi_ModTime i).
Proof.
  rewrite Hall, list_elem_of_fmap. intros (fr & -> & Hfr). rewrite Forall_forall in Hout, Hproc. destruct (Hproc fr Hfr) as [o Eo].
  pose proof (Hout fr Hfr) as Ho. rewrite Eo in Ho. destruct (Hst _ _ Ho) as ((Hn & _ & Hmt & Hmo & _) & Hres & Hcont).
  assert (Hin : fr.1 ∈ files) by (rewrite <- Hl; apply list_elem_of_fmap; by exists fr). apply (proj1 Hsc) in Hin as (k & i & Hf & Hop & Hk & Efe).
  assert (Hkf : kept_file k i) by done. pose proof (kept_nonempty k i Hkf) as Hne. pose proof (find_normal _ _ _ Hwf Hf) as Hnorm.
  destruct fr as [fe pr]. cbn [fst snd] in *. subst pr fe. cbn [entry_of fst snd].
  assert (Hnm : f_Name (listed_as o.1.1.1) = GoStr.Join s_slash k) by (by apply listed_name).
  exists k, i. split; [done |]. split; [done |]. split.
  - unfold place. rewrite Hnm, (path_accepted k _ Hf Hne). change (IsRestorable (listed_as o.1.1.1)) with (IsRestorable o.1.1.1). by rewrite Hres.
  - split; [exact Hcont |]. split; [exact Hmo |]. unfold time_of, final_time, MtimeTime. cbn. by rewrite Hmt.
Qed.

Lemma files_listed k i : kept_file k i -> exists file, file ∈ AllFiles m /\ place cwd cfg file = Some k.
Proof.
  intros Hkf. pose proof Hkf as (Hf & Ho & Hk). assert (Hin : file_entry scanPath k i ∈ files) by (apply (proj1 Hsc); by exists k, i).
  rewrite <- Hl in Hin. apply list_elem_of_fmap in Hin as (fr & Efr & Hfr). exists (listed_as (entry_of fr)).
  assert (Hin : listed_as (entry_of fr) ∈ AllFiles m) by (rewrite Hall; apply list_elem_of_fmap; by exists fr). split; [done |].
  destruct (listed_files _ Hin) as (k' & i' & Hkf' & Hn' & Hp' & _). rewrite Hp'. f_equal.
  assert (Hnm : f_Name (listed_as (entry_of fr)) = GoStr.Join s_slash k).
  { apply listed_name; [by eapply kept_nonempty | by eapply find_normal |]. rewrite Forall_forall in Hout, Hproc. destruct (Hproc fr Hfr) as [o Eo].
    pose proof (Hout fr Hfr) as Hx. rewrite Eo in Hx. destruct (Hst _ _ Hx) as ((Hn & _) & _). destruct fr as [fe pr]. cbn in *. subst. done. }
  rewrite Hnm in Hn'. destruct Hkf' as (Hf' & _ & Hk'). apply Join_inj; [by destruct k' | by destruct k | by eapply find_normal | by eapply find_normal | done].
Qed.

Lemma dir_kept_path d : d ∈ dirs -> exists k, kept_dir k /\ se_relPath d = GoStr.Join s_slash k /\ comps_of (se_relPath d) = Ok k.
Proof.
  intros (k & i & cs & Hk & Hf & Ho & Hd & ->)%(proj1 (proj2 Hsc)). exists k. split; [split; [done | by exists i, cs] |]. split; [done |]. by eapply path_accepted.
Qed.

Lemma keys_listed q : q ∈ (map_to_list (m_Dirs m)).*1 <-> is_Some (m_Dirs m !! q).
Proof.
  rewrite list_elem_of_fmap. split.
  - intros ([k d] & -> & H%elem_of_map_to_list). by exists d.
  - intros [d H]. exists (q, d). split; [done | by apply elem_of_map_to_list].
Qed.

Lemma above_kept k j n : Scan.find root k = Some n -> open_above ex [] k -> j `prefix_of` k -> j <> k -> j = [] \/ kept_dir j.
Proof.
  intros Hf Ho [t ->] Hne. destruct (decide (j = [])) as [->|Hj]; [by left |]. right. destruct t as [|x t]; [by rewrite app_nil_r in Hne |].
  destruct (find_above _ _ _ _ _ Hf) as (i & cs & Hfj). split; [done |]. exists i, cs. split; [done |]. split; [|by apply (Ho j x t)].
  intros p y u ->. apply (Ho p y (u ++ x :: t)). by rewrite <- app_assoc.
Qed.

Lemma needed_kept k : needed cwd cfg m k -> k = [] \/ kept_dir k.
Proof.
  intros [(d & p & Hd & Hne & Hp & Hk) | (file & ds & name & Hf & Hp & Hk)].
  - apply keys_listed, Honly in Hd as [->|(d' & Hd & ->)]; [done |]. destruct (dir_kept_path d' Hd) as (k' & Hkd & _ & Hc). rewrite Hc in Hp. apply ok_inv in Hp as ->.
    destruct (decide (k = k')) as [->|Hn]; [by right |]. destruct Hkd as (_ & i & cs & Hf & Ho & _). by eapply above_kept.
  - destruct (listed_files file Hf) as (k' & i & (Hfk & Ho & _) & _ & Hp' & _). rewrite Hp in Hp'. injection Hp' as <-.
    eapply (above_kept (ds ++ [name])); [done | done | by apply prefix_app_r |]. intros ->. apply prefix_length in Hk. rewrite length_app in Hk. cbn in Hk. lia.
Qed.

Lemma file_not_dir k i : kept_file k i -> ~ kept_dir k.
Proof. intros (Hf & _) (_ & i' & cs & Hf' & _). congruence. Qed.

(** The snapshot is orderly on an empty tree. *)
Lemma snapshot_orderly V0 : (forall k, V0 k = if decide (k = []) then Some TDir else None) -> orderly cwd cfg dec room blob m V0.
Proof.
  intros HV. split.
  - intros d Hd Hne. apply keys_listed, Honly in Hd as [->|(d' & Hd & ->)]; [done |]. destruct (dir_kept_path d' Hd) as (k & _ & _ & Hc). by exists k.
  - intros file Hf _. destruct (listed_files file Hf) as (k & i & Hk & _ & Hp & Hc & _). destruct (chain_snoc k (kept_nonempty k i Hk)) as (ds & x & ->).
    exists ds, x. split; [done | by rewrite Hc].
  - apply (NoDup_omap_key _ f_Name (GoStr.Join s_slash)).
    + intros file k Hf Hp. destruct (listed_files file Hf) as (k' & i & _ & Hn & Hp' & _). rewrite Hp in Hp'. by injection Hp' as <-.
    + assert (E : f_Name <$> AllFiles m ≡ₚ se_relPath <$> files).
      { rewrite Hall, <- Hl, <- !list_fmap_compose. erewrite list_fmap_ext; [reflexivity |]. intros j fr Hj. unfold compose. cbv beta.
        apply list_elem_of_lookup_2 in Hj. pose proof (proj1 (Forall_forall _ _) Hproc fr Hj) as [o Eo]. pose proof (proj1 (Forall_forall _ _) Hout fr Hj) as Ho. cbn beta in Ho. rewrite Eo in Ho.
        destruct (Hst _ _ Ho) as ((Hn & _) & _). assert (Hin : fr.1 ∈ files) by (rewrite <- Hl; apply list_elem_of_fmap; by exists fr).
        apply (proj1 Hsc) in Hin as (k & i & Hf & Hop & Hk & Efe). assert (Hkf : kept_file k i) by done. destruct fr as [fe pr]. cbn [fst snd entry_of] in *. subst.
        rewrite (listed_name _ k); [done | by eapply kept_nonempty | by eapply find_normal | done]. }
      rewrite E. apply (proj1 (proj2 (proj2 Hsc))).
  - intros file k Hf Hp. destruct (listed_files file Hf) as (k' & i & Hk & _ & Hp' & _). rewrite Hp in Hp'. injection Hp' as <-.
    pose proof (kept_nonempty k i Hk) as Hne. split; [|rewrite HV; by rewrite decide_False]. intros [?|?]%needed_kept; [done |]. by eapply file_not_dir.
  - intros k _. rewrite HV. case_decide; auto.
Qed.

Lemma snapshot_same V V0 : (forall k, V0 k = if decide (k = []) then Some TDir else None) -> rebuilt cwd cfg dec room blob m V0 V -> same_tree V.
Proof.
  intros HV (Hf & Hd & Ho). split_and!.
  - intros k i Hk. destruct (files_listed k i Hk) as (file & Hin & Hp). destruct (Hf file k Hin Hp) as (q & Hq & ->).
    destruct (listed_files file Hin) as (k' & i' & Hk' & _ & Hp' & Hc & Hm & Ht). rewrite Hp in Hp'. injection Hp' as <-.
    assert (i' = i) as -> by (destruct Hk as (E & _), Hk' as (E' & _); congruence). rewrite Hc in Hq. injection Hq as <-. by rewrite Hm, Ht.
  - intros k (Hne & i & cs & Hfk & Hop & Hdk). assert (Hin : dir_entry scanPath k i ∈ dirs) by (apply (proj1 (proj2 Hsc)); by exists k, i, cs).
    apply (Hd (GoStr.Join s_slash k)); [apply keys_listed; exact (Hdirs _ Hin) | | by eapply path_accepted].
    intros E. pose proof (Join_nil k (find_normal _ _ _ Hwf Hfk)) as Hj. rewrite E, bool_decide_false in Hj; done.
  - intros k Hne HVk. destruct (Ho k) as [Hn | [Hin | E]].
    + right. by destruct (needed_kept k Hn).
    + apply list_elem_of_omap in Hin as (file & Hin & Hp). destruct (listed_files file Hin) as (k' & i & Hk & _ & Hp' & _). rewrite Hp in Hp'. injection Hp' as <-. left. by exists i.
    + rewrite E, HV, decide_False in HVk by done. by destruct HVk.
Qed.

Lemma snapshot_start f r t : empty_target cwd cfg f r t -> start_of cwd cfg m f r t.
Proof.
  intros [Hc Hu He Hg Hr Ht Hv]. split; try done.
  - intros k Hk. rewrite Hv in Hk. case_decide; [by subst | by destruct Hk].
  - apply Forall_forall. intros q Hq k Hk. apply keys_listed, Honly in Hq as [->|(d & Hd & ->)]; [done |].
    destruct (dir_kept_path d Hd) as (k' & (Hne & i & cs & Hf & _) & _ & Hc'). rewrite Hc' in Hk. apply ok_inv in Hk as ->. by apply (Hnames _ _ Hf Hne).
  - apply Forall_forall. intros file Hin k Hk. destruct (listed_files file Hin) as (k' & i & Hkf & _ & Hp & _). apply place_comps in Hp. rewrite Hp in Hk. apply ok_inv in Hk as ->.
    apply (Hnames _ _ (proj1 Hkf)). by eapply kept_nonempty.
Qed.
End Snapshot.
End Tree.

(** A complete snapshot restored to an empty directory. *)
Lemma wp_restore_snapshot scanPath ex root allow res cwd cfg room f r (t : @rst S) : well_formed root -> restorable_names root ->
  snapshot_of outcomes scanPath ex root allow res -> IsComplete (pr_Manifest res) = true ->
  stored_all (decryptor_of cfg) room (bs_blob (r_store t)) -> empty_target cwd cfg f r t ->
  wp (restoreManifest cwd cfg room (pr_Manifest res)) (fun x t' => x = Ok (tally (AllFiles (pr_Manifest res)) (r_res t)) /\
    same_tree scanPath ex root (view (sw_fs (r_sw t')) r)) t.
Proof.
  intros Hwf Hnm (files & dirs & errs & l & Hsc & Hl & Hout & _ & Hall & Hd & Hdo & Hcomp & _ & _) Hc Hst Het.
  apply Hcomp in Hc as [_ Hproc]. pose proof Het as [Hcwd _ _ _ _ _ Hemp].
  pose proof (snapshot_orderly scanPath ex root _ _ _ _ _ cwd cfg _ room _ Hwf Hsc Hl Hout Hall Hdo Hproc Hst Hnm Hcwd _ Hemp) as Hord.
  pose proof (snapshot_start scanPath ex root _ _ _ _ _ cwd cfg _ room _ Hwf Hsc Hl Hout Hall Hdo Hproc Hst Hnm Hcwd f r t Het) as Hs.
  eapply wp_mono; [by apply wp_restore_rebuilds |]. intros x t' (-> & Hr & _). split; [done |]. by eapply snapshot_same.
Qed.
End Theorems.

(** ** One worker *)

Section OneWorker.
Context `{AE : AEAD, ZS : Zstd, SH : Sha256, HK : Hkdf} `{AES : !AEADSpec AE, ZSS : !ZstdSpec ZS, SHS : !Sha256Spec SH} `{J : Json, RJ : RegJson, CJ : CfgJson}.
Context `{WK : Walk} `{U : Uuid} `{RF : Rfc3339} `{RFF : Rfc3339Format} `{SF : SourceFS} `{SE : Strerror} `{CK : Chunker} `{CKS : !ChunkerSpec CK}.
Context {S : Type} `{B : BlobStore S, SV : StoreView S, BS : !BlobStoreSpec S} `{BE : BatchExistencer S, BES : !BatchSpec S}.

(** How an error of [processFile] reads to the worker. *)
Context (report : ferr -> option (option Z) * bytes).

Definition result_of (r : result ferr outcome) : presult :=
  match r with Ok o => Processed o | Err e => FileErr (report e).1 (report e).2 end.

(** What a single worker makes of the files it receives, one after the other. *)
Fixpoint process_all (p : pipe) (prevFiles : gmap bytes FileEntry) (files : list scanEntry) : eff (@pst S) ferr (list (scanEntry * presult)) :=
  match files with
  | [] => mret []
  | fe :: rest =>
      r ← attempt (processFile p fe prevFiles);
      l ← process_all p prevFiles rest;
      mret ((fe, result_of r) :: l)
  end.

(** The uploads of a run with one worker, starting from the store of [t]. *)
Definition upload_all (p : pipe) (t : @pst S) (files : list scanEntry) (prevFiles : gmap bytes FileEntry) : list (scanEntry * presult) * @pst S :=
  match process_all p prevFiles files t with (Ok l, t') => (l, t') | (Err _, t') => ([], t') end.

Context (dec : Decryptor) (P : list bytes) (content : scanEntry -> bytes).

(** A processed file is described by its entry and backed up, and it is chunked
    only if it is large. *)
Definition settled (p : pipe) (room : Z) (t : @pst S) (fe : scanEntry) (o : outcome) : Prop :=
  entry_for fe (o.1.1.1) /\ backed_up dec P room (content fe) fe o t /\ (se_size fe < echunkSize (pp_enc p) -> f_Chunks (o.1.1.1) = []).

Lemma wp_process_all p prevFiles room files : forall t, bs_inv (p_store t) -> Forall (consistent (gives dec) (p_store t)) P ->
  (forall fe, fe ∈ files -> setting dec P p fe (content fe) prevFiles t) ->
  wp (process_all p prevFiles files) (fun x t' => bs_inv (p_store t') /\ Forall (consistent (gives dec) (p_store t')) P /\ grows P t t' /\
    exists l, x = Ok l /\ l.*1 = files /\ forall fe o, (fe, Processed o) ∈ l -> settled p room t' fe o) t.
Proof.
  induction files as [|fe files IH]; intros t Hi Hc Hs; cbn [process_all].
  - wp_step. split; [done |]. split; [done |]. split; [done |]. exists []. split; [done |]. split; [done |]. by intros fe o ?%elem_of_nil.
  - wp_step. wp_step. pose proof (Hs fe ltac:(by left)) as [].
    eapply (wp_mono _ (fun r t1 => sound (gives dec) P False t (kept dec P p fe (content fe) room) r t1 /\ entry_post fe r t1)).
    { split; [by apply (sound_processFile dec P False p fe (content fe) room) | apply processFile_entry]. }
    intros r t1 [((Hi1 & Hc1 & _) & Hg1 & Hb1 & _) He1]. cbn beta iota. wp_step.
    eapply wp_mono; [apply (IH t1 Hi1 Hc1) |].
    { intros fe' Hfe'. destruct (Hs fe' ltac:(by right)). by split. }
    intros x t2 (Hi2 & Hc2 & Hg2 & l & -> & Hl & Hall). cbn beta iota. wp_step. split; [done |]. split; [done |]. split; [by etrans |].
    exists ((fe, result_of r) :: l). split; [done |]. split; [cbn; by rewrite Hl |].
    intros fe' o [[= -> E] | Hin]%elem_of_cons; [|by apply Hall]. destruct r as [o'|]; [|done]. cbn in E. injection E as ->. split; [by apply He1 |].
    destruct (Hb1 o' eq_refl) as [Hbu Hw]. split; [|done]. eapply (backed_up_stays dec P False); [by repeat split | exact Hg2 | done].
Qed.

Definition with_pol (p : pipe) (pol : Z) : pipe := Pipe (pp_enc p) (pp_comp p) (pp_env p) (pp_disableCDC p) pol (pp_globalPol p).

(** The workers of [Run], when there is one of them. *)
Definition one_worker_run (p : pipe) (t : @pst S) (pol : Z) (files : list scanEntry) (prevFiles : gmap bytes FileEntry) (m : Manifest) : shared :=
  foldl record (m, stats0) (upload_all (with_pol p pol) t files prevFiles).1.

Lemma one_worker_ran (p : pipe) (pol : Z) (files : list scanEntry) (prev : gmap bytes FileEntry) (m : Manifest) (t0 : @pst S) (l : list (scanEntry * presult)) (t' : @pst S) (outcomes : scanEntry -> presult -> Prop) :
  upload_all (with_pol p pol) t0 files prev = (l, t') -> l.*1 = files -> (forall fe r, (fe, r) ∈ l -> outcomes fe r) ->
  ran outcomes files m (one_worker_run p t0 pol files prev m).
Proof.
  intros El Hl Ho. unfold one_worker_run. rewrite El. cbn [fst]. exists 1%nat, 1%nat, false. eexists. split; [lia |]. rewrite <- Hl.
  split; [apply one_worker_returns; apply Forall_forall; intros [fe r] Hin; by apply Ho | done].
Qed.

Lemma upload_all_stores p files prev (t0 : @pst S) : bs_inv (p_store t0) -> Forall (consistent (gives dec) (p_store t0)) P ->
  (forall fe, fe ∈ files -> setting dec P p fe (content fe) prev t0) ->
  exists l t', upload_all p t0 files prev = (l, t') /\ l.*1 = files /\
    forall room fe o, (fe, Processed o) ∈ l -> settled p room t' fe o.
Proof.
  intros Hinv Hcons Hset. unfold upload_all. destruct (process_all p prev files t0) as [x t'] eqn:E.
  assert (H : forall room, exists l, x = Ok l /\ l.*1 = files /\ forall fe o, (fe, Processed o) ∈ l -> settled p room t' fe o).
  { intros room. pose proof (wp_process_all p prev room files t0 Hinv Hcons Hset) as H. unfold wp in H. rewrite E in H. by destruct H as (_ & _ & _ & H). }
  destruct (H 0) as (l & -> & Hl & _). exists l, t'. split; [done |]. split; [done |]. intros room. by destruct (H room) as (l' & [= <-] & _ & Hall).
Qed.

Lemma wp_backup_restore hook p baseline cfgB own sr w (t0 : @pst S) :
  let ex := loadExcludePatterns (sr_read sr) (pc_Excludes cfgB) (scan_path cfgB) in
  well_formed (sr_root sr) -> sr_ctx sr = [] -> restorable_names (sr_root sr) -> own <> 0 -> baselines hook cfgB w baseline ->
  bs_inv (p_store t0) -> Forall (consistent (gives dec) (p_store t0)) P ->
  (forall files dirs errs fe prev, scanSourceTree (scan_path cfgB) ex (sr_root sr) [] = Ok (files, dirs, errs) -> fe ∈ files -> baseline prev ->
     setting dec P (with_pol p own) fe (content fe) prev t0) ->
  wp (Run hook cfgB own sr (one_worker_run p t0)) (fun x _ => forall res, x = Ok res -> IsComplete (pr_Manifest res) = true ->
    exists prev, baseline prev /\
    forall cwd cfg room f r (rt : @rst S), decryptor_of cfg = dec -> empty_target cwd cfg f r rt ->
    (forall files dirs errs, scanSourceTree (scan_path cfgB) ex (sr_root sr) [] = Ok (files, dirs, errs) ->
       r_store rt = p_store (upload_all (with_pol p own) t0 files prev).2) ->
    wp (restoreManifest cwd cfg room (pr_Manifest res)) (fun y rt' => y = Ok (tally (AllFiles (pr_Manifest res)) (r_res rt)) /\
      same_tree content (scan_path cfgB) ex (sr_root sr) (view (sw_fs (r_sw rt')) r)) rt) w.
Proof.
  intros ex Hwf Hctx Hnm Hown Hbase Hinv Hcons Hset. destruct (scan_result (scan_path cfgB) ex (sr_root sr) Hwf) as (files & dirs & errs & Escan & _).
  pose proof (fun prev Hp => upload_all_stores (with_pol p own) files prev t0 Hinv Hcons (fun fe Hfe => Hset files dirs errs fe prev Escan Hfe Hp)) as Hrun.
  set (outs := fun prev (fe : scanEntry) (r : presult) => (fe, r) ∈ (upload_all (with_pol p own) t0 files prev).1).
  eapply wp_mono; [apply (wp_Run_snapshot hook outs baseline cfgB own sr); [done | done | done | |] |].
  - intros prev fe o Hp Hin. destruct (Hrun prev Hp) as (l & t' & El & _ & Hall). unfold outs in Hin. rewrite El in Hin. by apply (Hall 0).
  - intros pol files' dirs' errs' prev m Escan' Hpol Hprev _. fold ex in Escan'. rewrite Escan in Escan'. apply ok_inv in Escan'. injection Escan' as <- <- <-.
    destruct (Hrun prev Hprev) as (l & t' & El & Hl & _). rewrite Hpol by done.
    eapply one_worker_ran; [exact El | done |]. intros fe r Hin. unfold outs. by rewrite El.
  - intros x _ Hsnap res -> Hcomp. destruct (Hsnap res eq_refl) as (prev & Hp & Hs). exists prev. split; [done |]. intros cwd cfg room f r rt Hdec Het Hstore.
    specialize (Hstore files dirs errs Escan). destruct (Hrun prev Hp) as (l & t' & El & _ & Hall). rewrite El in Hstore. cbn [snd] in Hstore.
    eapply (wp_restore_snapshot (outs prev) content (scan_path cfgB) ex (sr_root sr) (pc_AllowScanErrors cfgB)); [done | done | done | done | | exact Het].
    intros fe o Hin. unfold outs in Hin. rewrite El in Hin. destruct (Hall room fe o Hin) as (He & (Hc & Hr & _) & _). rewrite Hdec, Hstore. done.
Qed.

(** A tree that is backed up comes back: when one worker backs up a source
    tree whose files do not change meanwhile, with or without a previous
    snapshot as its baseline, and the run succeeds with a complete snapshot,
    then restoring that snapshot from the store it left, to an empty directory
    on which nothing interferes, succeeds and the tree below the target is the
    source tree: every file the rules keep, with its content, mode and time,
    every directory they keep, and nothing else. *)
Theorem backup_restore_tree hook p baseline cfgB own sr w (t0 : @pst S) :
  let ex := loadExcludePatterns (sr_read sr) (pc_Excludes cfgB) (scan_path cfgB) in
  well_formed (sr_root sr) -> sr_ctx sr = [] -> restorable_names (sr_root sr) -> own <> 0 -> baselines hook cfgB w baseline ->
  bs_inv (p_store t0) -> Forall (consistent (gives dec) (p_store t0)) P ->
  (forall files dirs errs fe prev, scanSourceTree (scan_path cfgB) ex (sr_root sr) [] = Ok (files, dirs, errs) -> fe ∈ files -> baseline prev ->
     setting dec P (with_pol p own) fe (content fe) prev t0) ->
  wp (Run hook cfgB own sr (one_worker_run p t0)) (fun x _ => forall res, x = Ok res -> IsComplete (pr_Manifest res) = true ->
    exists prev, baseline prev /\
    forall cwd cfg room f r (rt : @rst S), decryptor_of cfg = dec -> empty_target cwd cfg f r rt ->
    (forall files dirs errs, scanSourceTree (scan_path cfgB) ex (sr_root sr) [] = Ok (files, dirs, errs) ->
       r_store rt = p_store (upload_all (with_pol p own) t0 files prev).2) ->
    wp (restoreManifest cwd cfg room (pr_Manifest res)) (fun y rt' => y = Ok (tally (AllFiles (pr_Manifest res)) (r_res rt)) /\
      same_tree content (scan_path cfgB) ex (sr_root sr) (view (sw_fs (r_sw rt')) r)) rt) w.
Proof. apply wp_backup_restore. Qed.
End OneWorker.

Module EndWitness.
Import Toy CryptoWitness BlobWitness.

#[local] Instance ew_json : Json := { json_marshal m := x7b :: FormatInt (m_SourceID m); json_unmarshal d := None; json_unmarshal_v1 d := None }.
#[local] Instance ew_reg : RegJson := { reg_marshal r := go "r"; reg_unmarshal d := None }.
#[local] Instance ew_cfg : CfgJson := {
  cfg_marshal c := FormatInt (cf_CDCPolynomial c);
  cfg_unmarshal d := (fun pol => set_pol pol (DefaultConfig [] [] [])) <$> ParseInt d
}.
#[local] Instance ew_uuid : Uuid := toy_uuid.
#[local] Instance ew_parse : Rfc3339 := fun s => Some (1767323045 * 10 ^ 9).
#[local] Instance ew_format : Rfc3339Format := FormatInt.
#[local] Instance ew_walk : Walk := {
  walk_at := fun _ _ _ => Err NOENT; walk_root := fun _ _ => Ok 1%nat; mkdir_all := fun _ _ => Err IOERR }.
#[local] Instance ew_strerror : Strerror := fun _ => go "input/output error".
#[local] Instance ew_chunker : Chunker := fun _ r => (cut (length (rd_data r)) 3 (rd_data r), rd_fails r).
#[local] Instance ew_chunker_spec : ChunkerSpec ew_chunker.
Proof.
  split; [intros pol d; by apply cut_join | | done]. intros pol r. eapply Forall_impl; [by apply cut_sizes |].
  cbn. unfold cdcMaxSize. lia.
Qed.
(** Every file holds the five bytes [msg]. *)
#[local] Instance ew_source : SourceFS := fun path _ => OpenFile (Reader msg false) true (Reader msg false).

Definition info (n : Z) : finfo := MkInfo n (go "2026-01-02T03:04:05Z") 420.
Definition tree0 : node := Folder (info 0) (Some [
  (go "docs", Folder (info 0) (Some [(go "a.txt", Leaf (info 5))]));
  (go "empty", Folder (info 0) (Some []));
  (go "tmp", Folder (info 0) (Some [(go "x", Leaf (info 1))])) ]).

Definition repo : world := World {[ ConfigPath (go "/r") := File (FormatInt 7) 1 ]} [] [] 5 0.
Definition cfgB : PipelineConfig := MkPipelineConfig (go "/r") 1 [] (go "home") (go "/home/u") [] (go "dev1") [] [go "tmp"] true false.
Definition around : surroundings := Surroundings tree0 (fun _ => None) [] false 0 (go "2026-01-02T03:04:05Z") None [].
Definition pipe0 : pipe := Pipe (NewEncryptor key DefaultChunkSize) None [] false 7 7.
Definition pst0 : @pst sys := PipeFile.PS store0 [] 0 ent.
Definition report0 (e : ferr) : option (option Z) * bytes := (None, []).

Definition rcfg : RestoreConfig := MkRestoreConfig (go "/r") (go "out") 1 [] [] (go "dev1") key false.
Definition blank : SecureDir.fs := {[ 1%nat := IDir 0 ∅ ]}.
Definition fe0 : scanEntry := MkScan (go "docs/a.txt") (go "/home/u/docs/a.txt") 5 (go "2026-01-02T03:04:05Z") 420.
Definition done0 := upload_all report0 (with_pol pipe0 7) pst0 [fe0] ∅.
Definition rt0 : @rst sys := RS (p_store done0.2) (SW blank ∅ [] 0 []) [] (MkRestoreResult 0 0 0).
Abbreviation ex0 := (loadExcludePatterns (sr_read around) (pc_Excludes cfgB) (scan_path cfgB)).

Lemma scan0 : exists dirs, scanSourceTree (scan_path cfgB) ex0 tree0 [] = Ok ([fe0], dirs, 0).
Proof. eexists. vm_compute. reflexivity. Qed.

Lemma tree0_ok : well_formed tree0.
Proof.
  apply well_formed_folder. split; [by_decide |]. split; [by_decide |]. repeat apply Forall_cons_2; [| | | by apply Forall_nil_2];
    (apply well_formed_folder; split; [by_decide |]; split; [by_decide |]).
  - by apply Forall_singleton.
  - by apply Forall_nil_2.
  - by apply Forall_singleton.
Qed.

Lemma run_ok : match (Run None cfgB 7 around (one_worker_run report0 pipe0 pst0) repo).1 with Ok res => IsComplete (pr_Manifest res) = true | Err _ => False end.
Proof. vm_compute. reflexivity. Qed.

(** The paths of a tree. *)
Fixpoint tree_paths (n : node) : list (list bytes) :=
  [] :: match n with
        | Folder _ (Some cs) => (fix go (cs : list (bytes * node)) := match cs with [] => [] | (x, c) :: cs' => (cons x <$> tree_paths c) ++ go cs' end) cs
        | _ => []
        end.

Lemma find_tree_paths n : forall k m, Scan.find n k = Some m -> k ∈ tree_paths n.
Proof.
  induction n as [|i|i|i cs IH] using node_induction; intros [|x k] m Hf; try done; try (by left). cbn [Scan.find] in Hf. cbn [tree_paths]. right.
  destruct (list_find _ cs) as [[a c]|] eqn:E; [|done]. apply list_find_Some in E as (Hc & <- & _). apply list_elem_of_lookup_2 in Hc.
  rewrite Forall_forall in IH. specialize (IH c Hc k m Hf). clear Hf. induction cs as [|[y d] cs IHc]; [by apply elem_of_nil in Hc |]. apply elem_of_app.
  apply elem_of_cons in Hc as [-> | Hc]; [left; by apply list_elem_of_fmap_2 | right; by apply IHc].
Qed.

Definition name_ok (c : bytes) : bool := negb (HasSuffix c (go ".tmp")).

Lemma names_check tree : forallb (fun k => negb (rejected_absolute (GoStr.Join s_slash k)) && forallb name_ok k) (tree_paths tree) = true -> restorable_names tree.
Proof.
  intros E k n Hf _. apply find_tree_paths in Hf. rewrite forallb_forall in E. specialize (E k (proj1 (list_elem_of_In _ _) Hf)). apply andb_true_iff in E as [E1 E2].
  split; [by apply negb_true_iff |]. apply Forall_forall. intros c Hc b u ->. rewrite forallb_forall in E2.
  specialize (E2 _ (proj1 (list_elem_of_In _ _) Hc)). apply negb_true_iff, bool_decide_eq_false in E2. apply E2. rewrite !app_assoc. by eexists.
Qed.

Lemma names0 : restorable_names tree0.
Proof. apply names_check. vm_compute. reflexivity. Qed.

Lemma tree_setting0 : setting (decryptor_of rcfg) [msg] (with_pol pipe0 7) fe0 msg ∅ pst0.
Proof.
  split.
  - reflexivity.
  - reflexivity.
  - vm_compute. split; [reflexivity | discriminate].
  - intros n. reflexivity.
  - reflexivity.
  - apply Forall_singleton. split; vm_compute; [reflexivity | discriminate].
  - intros q q' ->%list_elem_of_singleton ->%list_elem_of_singleton _. reflexivity.
  - apply Forall_singleton. apply list_elem_of_singleton. reflexivity.
  - intros pf Hpf. rewrite lookup_empty in Hpf. discriminate Hpf.
  - exact inv0.
  - apply Forall_singleton. intros c Hc. vm_compute in Hc. discriminate Hc.
Qed.

Lemma blank_walks l j : nofollow blank 1 l = Some j -> l = [] /\ j = 1%nat.
Proof. destruct l as [|c l]; [by intros [= <-] |]. cbn [nofollow]. change (blank !! 1%nat) with (Some (IDir 0 ∅)). cbv iota. by rewrite lookup_empty. Qed.

Lemma done0_inv : bs_inv (p_store done0.2).
Proof.
  pose proof (wp_process_all report0 (decryptor_of rcfg) [msg] (fun _ => msg) (with_pol pipe0 7) ∅ 0 [fe0] pst0 inv0 (st_consistent _ _ _ _ _ _ _ tree_setting0)) as H.
  unfold wp in H. unfold done0, upload_all. destruct (process_all _ _ _ _ pst0) as [[l|] t']; (apply H; intros fe ->%list_elem_of_singleton; exact tree_setting0).
Qed.

(** An empty directory, whatever right store the restore reads from. *)
Lemma empty_for (s : sys) : bs_inv s -> bs_calm s -> empty_target (go "/home/u") rcfg blank 1 (RS s (SW blank ∅ [] 0 []) [] (MkRestoreResult 0 0 0)).
Proof.
  intros Hi Hc. split.
  - reflexivity.
  - intros n. apply SecureWitness.w_uuid_clean.
  - reflexivity.
  - split; [exact Hi |]. split; [exact Hc |]. split; [reflexivity |]. intros k _. reflexivity.
  - split; [reflexivity |]. split; [reflexivity |]. left. reflexivity.
  - split; [intros l j [_ ->]%blank_walks; by eexists |]. intros l l' j [-> _]%blank_walks [-> _]%blank_walks _. reflexivity.
  - intros l. unfold view. destruct (nofollow blank 1 l) as [j|] eqn:E.
    + apply blank_walks in E as [-> ->]. reflexivity.
    + case_decide as H; [subst; discriminate E | reflexivity].
Qed.

Lemma empty0 : empty_target (go "/home/u") rcfg blank 1 rt0.
Proof. apply empty_for; [exact done0_inv | vm_compute; split; reflexivity]. Qed.

Lemma backup_restore_tree_witness : exists res w' rt', Run None cfgB 7 around (one_worker_run report0 pipe0 pst0) repo = (Ok res, w') /\
  restoreManifest (go "/home/u") rcfg 100 (pr_Manifest res) rt0 = (Ok (tally (AllFiles (pr_Manifest res)) (r_res rt0)), rt') /\
  same_tree (fun _ => msg) (scan_path cfgB) ex0 tree0 (view (sw_fs (r_sw rt')) 1).
Proof.
  destruct scan0 as [dirs Escan].
  pose proof (backup_restore_tree report0 (decryptor_of rcfg) [msg] (fun _ => msg) None pipe0 (fun prev => prev = ∅) cfgB 7 around repo pst0 tree0_ok eq_refl names0 ltac:(discriminate) (full_baseline None cfgB repo eq_refl) inv0
    (st_consistent _ _ _ _ _ _ _ tree_setting0)) as H. cbv zeta in H.
  assert (Hset : forall files dirs errs fe prev, scanSourceTree (scan_path cfgB) ex0 tree0 [] = Ok (files, dirs, errs) -> fe ∈ files -> prev = ∅ ->
    setting (decryptor_of rcfg) [msg] (with_pol pipe0 7) fe msg prev pst0).
  { intros files dirs' errs fe prev E Hfe ->. rewrite Escan in E. apply ok_inv in E. injection E as E1 _ _. subst files. apply list_elem_of_singleton in Hfe as ->. exact tree_setting0. }
  specialize (H Hset). unfold wp at 1 in H. pose proof run_ok as Hok.
  destruct (Run None cfgB 7 around _ repo) as [[res|] w']; [|destruct Hok]. cbn [fst snd] in H, Hok.
  destruct (H res eq_refl Hok) as (prev & -> & H1).
  pose proof (H1 (go "/home/u") rcfg 100 blank 1%nat rt0 eq_refl empty0) as H2.
  assert (Hst : forall files dirs errs, scanSourceTree (scan_path cfgB) ex0 tree0 [] = Ok (files, dirs, errs) -> r_store rt0 = p_store (upload_all report0 (with_pol pipe0 7) pst0 files ∅).2).
  { intros files dirs' errs E. rewrite Escan in E. apply ok_inv in E. injection E as E1 _ _. subst files. reflexivity. }
  specialize (H2 Hst). unfold wp in H2. destruct (restoreManifest _ _ _ _ rt0) as [y rt'] eqn:Er. cbn [fst snd] in H2. destruct H2 as [-> Hsame].
  exists res, w', rt'. split; [reflexivity |]. split; [exact Er | exact Hsame].
Defined.
End EndWitness.
