(* ===== verification/EndWorkers.v ===== *)
(** EndWorkers: a backup by any number of workers and a restore.  [Pool] says
    how the workers share the files and the manifest, [Interleave] how their
    calls of [processFile] share the store; together they give what [EndToEnd]
    states for one worker. *)

From S2P Require Import Prelude GoStr Ignore Externs Compress Crypto Stream FS BlobStore LocalStore Blob BlobLocal Manifest CloudID ManifestIO RestorePath SecureDir Restore RestoreTree PipeFile PipeLocal Interleave Scan Pool Registry Config Backup EndToEnd.
From stdpp Require Import base list gmap strings relations.
From Stdlib.Strings Require Import Byte.
Local Open Scope Z_scope.

Section Workers.
Context `{AE : AEAD, ZS : Zstd, SH : Sha256, HK : Hkdf} `{AES : !AEADSpec AE, ZSS : !ZstdSpec ZS, SHS : !Sha256Spec SH} `{J : Json, RJ : RegJson, CJ : CfgJson}.
Context `{WK : Walk} `{U : Uuid} `{RF : Rfc3339} `{RFF : Rfc3339Format} `{SF : SourceFS} `{SE : Strerror} `{CK : Chunker} `{CKS : !ChunkerSpec CK}.
Context {S : Type} `{B : BlobStore S, SV : StoreView S, BS : !BlobStoreSpec S} `{BE : BatchExistencer S, BES : !BatchSpec S}.
Context (report : ferr -> option (option Z) * bytes) (dec : Decryptor) (P : list bytes) (content : scanEntry -> bytes).

(** What the calls have returned, as their workers see it. *)
Definition call_results (p : pipe) (prev : gmap bytes FileEntry) (c : conf S) (fe : scanEntry) (r : presult) : Prop :=
  exists i tk x, cf_tasks c !! i = Some tk /\ tk_file tk = fe /\ returned p prev tk x /\ r = result_of report x.

(** The uploads of a run: from the store [s0] the calls for [files] have
    brought the store and themselves to [c], in some order of their operations,
    and some number of workers recorded what they returned. *)
Definition uploads (p : pipe) (s0 : S) (files : list scanEntry) (prev : gmap bytes FileEntry) (m : Manifest) (c : conf S) (sh : shared) : Prop :=
  (exists c0, beginning s0 files c0 /\ rtc (istep p prev) c0 c) /\ ran (call_results p prev c) files m sh.

Lemma wp_workers_restore (hook : option (bytes -> option bytes)) (p : pipe) (baseline : gmap bytes FileEntry -> Prop) (cfgB : PipelineConfig) (own : Z) (sr : surroundings) (w : world) (s0 : S) (final : gmap bytes FileEntry -> conf S) (upload : Z -> list scanEntry -> gmap bytes FileEntry -> Manifest -> shared) :
  let ex := loadExcludePatterns (sr_read sr) (pc_Excludes cfgB) (scan_path cfgB) in
  well_formed (sr_root sr) -> sr_ctx sr = [] -> restorable_names (sr_root sr) -> own <> 0 -> baselines hook cfgB w baseline ->
  sane (gives dec) P s0 ->
  (forall files dirs errs fe prev, scanSourceTree (scan_path cfgB) ex (sr_root sr) [] = Ok (files, dirs, errs) -> fe ∈ files -> baseline prev ->
     setting dec P (with_pol p own) fe (content fe) prev (PS s0 [] O [])) ->
  (forall files dirs errs prev m, scanSourceTree (scan_path cfgB) ex (sr_root sr) [] = Ok (files, dirs, errs) -> baseline prev ->
     uploads (with_pol p own) s0 files prev m (final prev) (upload own files prev m)) ->
  wp (Run hook cfgB own sr upload) (fun x _ => forall res, x = Ok res -> IsComplete (pr_Manifest res) = true ->
    exists prev, baseline prev /\
    forall cwd cfg room f r (rt : @rst S), decryptor_of cfg = dec -> empty_target cwd cfg f r rt -> r_store rt = cf_store (final prev) ->
    wp (restoreManifest cwd cfg room (pr_Manifest res)) (fun y rt' => y = Ok (tally (AllFiles (pr_Manifest res)) (r_res rt)) /\
      same_tree content (scan_path cfgB) ex (sr_root sr) (view (sw_fs (r_sw rt')) r)) rt) w.
Proof.
  intros ex Hwf Hctx Hnm Hown Hbase Hs Hset Hup. destruct (scan_result (scan_path cfgB) ex (sr_root sr) Hwf) as (files & dirs & errs & Escan & _).
  assert (Hall : forall prev, baseline prev -> sane (gives dec) P (cf_store (final prev)) /\
    forall fe o, call_results (with_pol p own) prev (final prev) fe (Processed o) -> stored P (with_pol p own) content (cf_store (final prev)) fe o).
  { intros prev Hp. destruct (Hup files dirs errs prev (NewManifest [] 0 [] [] [] []) Escan Hp) as [(c0 & Hb & Hr) _].
    destruct (interleaved_stored dec P (with_pol p own) prev content s0 files Hs (fun fe Hfe => Hset files dirs errs fe prev Escan Hfe Hp) c0 _ Hb Hr) as (H1 & _ & H3).
    split; [done |]. intros fe o (i & tk & x & Hi & <- & Hx & E). destruct x as [o'|]; [|done]. injection E as <-. by eapply H3. }
  eapply wp_mono; [apply (wp_Run_snapshot hook (fun prev => call_results (with_pol p own) prev (final prev)) baseline cfgB own sr); [done | done | done | |] |].
  - intros prev fe o Hp Ho. by apply (proj2 (Hall prev Hp) fe o).
  - intros pol files' dirs' errs' prev m Escan' Hpol Hprev _. rewrite Hpol by done. by apply (Hup files' dirs' errs').
  - intros x _ Hsnap res -> Hcomp. destruct (Hsnap res eq_refl) as (prev & Hp & Hsn). exists prev. split; [done |]. intros cwd cfg room f r rt Hdec Het Hstore.
    destruct (Hall prev Hp) as [Hsane Hres].
    eapply (wp_restore_snapshot (call_results (with_pol p own) prev (final prev)) content); [done | done | done | done | | exact Het].
    intros fe o Ho. specialize (Hres fe o Ho). rewrite Hdec, Hstore. split; [apply Hres |]. split; [apply Hres |]. by eapply stored_content.
Qed.

(** A tree that is backed up comes back, however its workers interleave: any
    number of workers back up a source tree whose files do not change meanwhile,
    with or without a previous snapshot as the baseline, each store operation of
    any of them falling between those of the others.  When the run succeeds with
    a complete snapshot, restoring it from the store they left, to an empty
    directory on which nothing interferes, succeeds and the tree below the
    target is the source tree: every file the rules keep, with its content, mode
    and time, every directory they keep, and nothing else. *)
Theorem workers_restore_tree (hook : option (bytes -> option bytes)) (p : pipe) (baseline : gmap bytes FileEntry -> Prop) (cfgB : PipelineConfig) (own : Z) (sr : surroundings) (w : world) (s0 : S) (final : gmap bytes FileEntry -> conf S) (upload : Z -> list scanEntry -> gmap bytes FileEntry -> Manifest -> shared) :
  let ex := loadExcludePatterns (sr_read sr) (pc_Excludes cfgB) (scan_path cfgB) in
  well_formed (sr_root sr) -> sr_ctx sr = [] -> restorable_names (sr_root sr) -> own <> 0 -> baselines hook cfgB w baseline ->
  sane (gives dec) P s0 ->
  (forall files dirs errs fe prev, scanSourceTree (scan_path cfgB) ex (sr_root sr) [] = Ok (files, dirs, errs) -> fe ∈ files -> baseline prev ->
     setting dec P (with_pol p own) fe (content fe) prev (PS s0 [] O [])) ->
  (forall files dirs errs prev m, scanSourceTree (scan_path cfgB) ex (sr_root sr) [] = Ok (files, dirs, errs) -> baseline prev ->
     uploads (with_pol p own) s0 files prev m (final prev) (upload own files prev m)) ->
  wp (Run hook cfgB own sr upload) (fun x _ => forall res, x = Ok res -> IsComplete (pr_Manifest res) = true ->
    exists prev, baseline prev /\
    forall cwd cfg room f r (rt : @rst S), decryptor_of cfg = dec -> empty_target cwd cfg f r rt -> r_store rt = cf_store (final prev) ->
    wp (restoreManifest cwd cfg room (pr_Manifest res)) (fun y rt' => y = Ok (tally (AllFiles (pr_Manifest res)) (r_res rt)) /\
      same_tree content (scan_path cfgB) ex (sr_root sr) (view (sw_fs (r_sw rt')) r)) rt) w.
Proof. apply wp_workers_restore. Qed.
End Workers.

Module WorkersWitness.
Import Toy CryptoWitness BlobWitness EndWitness.
#[local] Existing Instances ew_json ew_reg ew_cfg ew_uuid ew_parse ew_format ew_walk ew_strerror ew_chunker ew_chunker_spec ew_source.

(** Two files with the same content, and an empty directory. *)
Definition tree2 : node := Folder (info 0) (Some [
  (go "a.txt", Leaf (info 5)); (go "b.txt", Leaf (info 5)); (go "empty", Folder (info 0) (Some [])); (go "tmp", Folder (info 0) (Some [])) ]).
Definition around2 : surroundings := Surroundings tree2 (fun _ => None) [] false 0 (go "2026-01-02T03:04:05Z") None [].
Definition fa : scanEntry := MkScan (go "a.txt") (go "/home/u/a.txt") 5 (go "2026-01-02T03:04:05Z") 420.
Definition fb : scanEntry := MkScan (go "b.txt") (go "/home/u/b.txt") 5 (go "2026-01-02T03:04:05Z") 420.
Abbreviation pipe7 := (with_pol pipe0 7).

(** Both look for the blob before either has stored it. *)
Definition begin2 : conf sys := Conf store0 [Task fa store0 [] 0 ent []; Task fb store0 [] 0 ent []].
Definition final2 : conf sys := foldl (turn pipe7 ∅) begin2 [0; 1; 0; 1]%nat.

Definition outcome_at (i : nat) : presult :=
  match cf_tasks final2 !! i with Some tk => result_of report0 (so_far pipe7 ∅ tk).1 | None => FileErr None [] end.
Definition upload2 (_ : Z) (_ : list scanEntry) (_ : gmap bytes FileEntry) (m : Manifest) : shared :=
  foldl record (m, stats0) [(fa, outcome_at 0); (fb, outcome_at 1)].
Definition rt2 : @rst sys := RS (cf_store final2) (SW blank ∅ [] 0 []) [] (MkRestoreResult 0 0 0).

Lemma scan2 : exists dirs, scanSourceTree (scan_path cfgB) ex0 tree2 [] = Ok ([fa; fb], dirs, 0).
Proof. eexists. vm_compute. reflexivity. Qed.

Lemma tree2_ok : well_formed tree2.
Proof.
  apply well_formed_folder. split; [by_decide |]. split; [by_decide |].
  repeat apply Forall_cons_2; [done | done | | | by apply Forall_nil_2]; (apply well_formed_folder; split; [by_decide |]; split; [by_decide |]; by apply Forall_nil_2).
Qed.

Lemma names2 : restorable_names tree2.
Proof. apply names_check. vm_compute. reflexivity. Qed.

Lemma sane2 : sane (gives (decryptor_of rcfg)) [msg] store0.
Proof. split; [exact inv0 | exact (st_consistent _ _ _ _ _ _ _ tree_setting0)]. Qed.

Lemma setting2 fe : fe ∈ [fa; fb] -> setting (decryptor_of rcfg) [msg] pipe7 fe msg ∅ (PipeFile.PS store0 [] 0 []).
Proof.
  destruct tree_setting0 as [H1 H2 H3 H4 H5 H6 H7 H8 _ H10 H11].
  intros [-> | ->%list_elem_of_singleton]%elem_of_cons; (split; first [assumption | intros n; reflexivity | reflexivity | intros pf Hpf; rewrite lookup_empty in Hpf; discriminate Hpf]).
Qed.

Lemma begin2_ok : beginning store0 [fa; fb] begin2.
Proof. split; [reflexivity |]. split; [reflexivity |]. by repeat constructor. Qed.

Lemma final2_sane : sane (gives (decryptor_of rcfg)) [msg] (cf_store final2).
Proof. apply (interleaved_stored _ _ pipe7 ∅ (fun _ => msg) store0 [fa; fb] sane2 setting2 begin2 final2 begin2_ok). apply turns_reach. Qed.

Lemma result2 i fe : (i, fe) ∈ [(0%nat, fa); (1%nat, fb)] -> call_results report0 pipe7 ∅ final2 fe (outcome_at i).
Proof.
  intros Hin. assert (E : match cf_tasks final2 !! i with Some tk => tk_file tk = fe /\ at_request pipe7 ∅ tk = Going | None => False end).
  { apply elem_of_cons in Hin as [[= -> ->] | [= -> ->]%list_elem_of_singleton]; vm_compute; split; reflexivity. }
  unfold outcome_at. destruct (cf_tasks final2 !! i) as [tk|] eqn:Ei; [|destruct E]. destruct E as [Ef Eg].
  exists i, tk, (so_far pipe7 ∅ tk).1. split; [exact Ei |]. split; [exact Ef |]. split; [|reflexivity]. split; [exact Eg | reflexivity].
Qed.

Lemma uploads2 m : uploads report0 pipe7 store0 [fa; fb] ∅ m final2 (upload2 7 [fa; fb] ∅ m).
Proof.
  split; [exists begin2; split; [exact begin2_ok | apply turns_reach] |]. exists 1%nat, 1%nat, false. eexists. split; [lia |].
  split; [apply (one_worker_returns _ [(fa, outcome_at 0); (fb, outcome_at 1)]) | done].
  constructor; [apply (result2 0 fa); set_solver | constructor; [apply (result2 1 fb); set_solver | constructor]].
Qed.

Lemma empty2 : empty_target (go "/home/u") rcfg blank 1 rt2.
Proof.
  apply empty_for; [exact (proj1 final2_sane) | vm_compute; split; reflexivity].
Qed.

Lemma run2_ok : match (Run None cfgB 7 around2 upload2 repo).1 with Ok res => IsComplete (pr_Manifest res) = true | Err _ => False end.
Proof. vm_compute. reflexivity. Qed.

(** All four operations have been done, and both calls have returned. *)
Lemma four_steps : nsteps (istep pipe7 ∅) 4 begin2 final2.
Proof.
  unfold final2. cbn [foldl].
  eapply nsteps_l; [apply (move_step pipe7 ∅ _ 0); vm_compute; reflexivity |]. eapply nsteps_l; [apply (move_step pipe7 ∅ _ 1); vm_compute; reflexivity |].
  eapply nsteps_l; [apply (move_step pipe7 ∅ _ 0); vm_compute; reflexivity |]. eapply nsteps_l; [apply (move_step pipe7 ∅ _ 1); vm_compute; reflexivity |]. apply nsteps_O.
Qed.

Lemma interleaved_uploads_witness : exists tk0 tk1 o0 o1, cf_tasks final2 = [tk0; tk1] /\ returned pipe7 ∅ tk0 (Ok o0) /\ returned pipe7 ∅ tk1 (Ok o1) /\
  file_content (decryptor_of rcfg) 100 (bs_blob (cf_store final2)) (o0.1.1.1) = Some msg /\
  file_content (decryptor_of rcfg) 100 (bs_blob (cf_store final2)) (o1.1.1.1) = Some msg.
Proof.
  destruct (interleaved_uploads (decryptor_of rcfg) [msg] pipe7 ∅ (fun _ => msg) 100 store0 [fa; fb] begin2 final2 sane2 setting2 begin2_ok (turns_reach _ _ _ _)) as (_ & _ & H & _).
  assert (E : match cf_tasks final2 with
    | [a; b] => at_request pipe7 ∅ a = Going /\ at_request pipe7 ∅ b = Going /\ is_ok (so_far pipe7 ∅ a).1 = true /\ is_ok (so_far pipe7 ∅ b).1 = true
    | _ => False end) by (vm_compute; repeat split; reflexivity).
  destruct (cf_tasks final2) as [|a [|b [|]]]; [destruct E | destruct E | | destruct E]. destruct (so_far pipe7 ∅ a).1 as [o0|] eqn:Ea; [|destruct E as (_ & _ & E & _); discriminate E].
  destruct (so_far pipe7 ∅ b).1 as [o1|] eqn:Eb; [|destruct E as (_ & _ & _ & E); discriminate E]. destruct E as (Ga & Gb & _ & _).
  exists a, b, o0, o1. split; [reflexivity |]. split; [split; [exact Ga | exact Ea] |]. split; [split; [exact Gb | exact Eb] |].
  split; [apply (H 0%nat a o0); [reflexivity | split; [exact Ga | exact Ea]] | apply (H 1%nat b o1); [reflexivity | split; [exact Gb | exact Eb]]].
Defined.

Lemma interleaving_ends_witness : (4 <= sum_list_with (fun fe => ops_bound pipe7 ∅ fe msg) [fa; fb])%nat /\
  ((forall c2, ~ istep pipe7 ∅ final2 c2) -> Forall (fun tk => exists r, returned pipe7 ∅ tk r) (cf_tasks final2)).
Proof.
  apply (interleaving_ends pipe7 ∅ (fun _ => msg) store0 [fa; fb] 4 begin2 final2); [reflexivity | | exact begin2_ok | exact four_steps].
  intros fe [-> | ->%list_elem_of_singleton]%elem_of_cons; (split; [intros n; reflexivity | reflexivity]).
Defined.

Lemma workers_restore_tree_witness : exists res w' rt', Run None cfgB 7 around2 upload2 repo = (Ok res, w') /\
  restoreManifest (go "/home/u") rcfg 100 (pr_Manifest res) rt2 = (Ok (tally (AllFiles (pr_Manifest res)) (r_res rt2)), rt') /\
  same_tree (fun _ => msg) (scan_path cfgB) ex0 tree2 (view (sw_fs (r_sw rt')) 1).
Proof.
  destruct scan2 as [dirs Escan].
  assert (Hset : forall files dirs errs fe prev, scanSourceTree (scan_path cfgB) ex0 tree2 [] = Ok (files, dirs, errs) -> fe ∈ files -> prev = ∅ ->
    setting (decryptor_of rcfg) [msg] pipe7 fe msg prev (PipeFile.PS store0 [] 0 [])).
  { intros files dirs' errs fe prev E Hfe ->. rewrite Escan in E. apply ok_inv in E. injection E as E1 _ _. subst files. exact (setting2 fe Hfe). }
  assert (Hup : forall files dirs errs prev m, scanSourceTree (scan_path cfgB) ex0 tree2 [] = Ok (files, dirs, errs) -> prev = ∅ ->
    uploads report0 pipe7 store0 files prev m final2 (upload2 7 files prev m)).
  { intros files dirs' errs prev m E ->. rewrite Escan in E. apply ok_inv in E. injection E as E1 _ _. subst files. exact (uploads2 m). }
  pose proof (workers_restore_tree report0 (decryptor_of rcfg) [msg] (fun _ => msg) None pipe0 (fun prev => prev = ∅) cfgB 7 around2 repo store0 (fun _ => final2) upload2
    tree2_ok eq_refl names2 ltac:(discriminate) (full_baseline None cfgB repo eq_refl) sane2 Hset Hup) as H. unfold wp at 1 in H. pose proof run2_ok as Hok.
  destruct (Run None cfgB 7 around2 upload2 repo) as [[res|] w']; [|destruct Hok]. cbn [fst snd] in H, Hok.
  destruct (H res eq_refl Hok) as (prev & -> & H1). pose proof (H1 (go "/home/u") rcfg 100 blank 1%nat rt2 eq_refl empty2 eq_refl) as H2.
  unfold wp in H2. destruct (restoreManifest _ _ _ _ rt2) as [y rt'] eqn:Er. cbn [fst snd] in H2. destruct H2 as [-> Hsame].
  exists res, w', rt'. split; [reflexivity |]. split; [exact Er | exact Hsame].
Defined.
End WorkersWitness.
