(* ===== verification/Incremental.v ===== *)
(** Incremental: backups that start from an earlier snapshot.  The entries that
    a backup records are good previous entries for a later one, so that an
    incremental backup gives the source tree back as a full one does. *)

From S2P Require Import Prelude GoStr Ignore Externs Compress Crypto Stream FS BlobStore LocalStore Blob BlobLocal Manifest CloudID ManifestIO RestorePath SecureDir Restore RestoreTree PipeFile PipeLocal Scan Pool Registry Trash Config Backup EndToEnd.
From stdpp Require Import base list gmap strings.
From Stdlib.Strings Require Import Byte.
Local Open Scope Z_scope.

(** ** The file map of a manifest *)

Lemma foldl_lookup (l : list FileEntry) : forall (acc : gmap bytes FileEntry) q pf, foldl (fun acc f => <[f_Name f := f]> acc) acc l !! q = Some pf ->
  acc !! q = Some pf \/ pf ∈ l /\ f_Name pf = q.
Proof.
  induction l as [|f l IH]; intros acc q pf; cbn [foldl]; [by left |]. intros [H | [H1 H2]]%IH; [|right; split; [by right | done]].
  apply lookup_insert_Some in H as [[<- <-] | [_ H]]; [right; split; [by left | done] | by left].
Qed.

Lemma BuildFileMap_lookup m q pf : BuildFileMap m !! q = Some pf -> pf ∈ AllFiles m /\ f_Name pf = q.
Proof. intros [H | H]%foldl_lookup; [by rewrite lookup_empty in H | done]. Qed.

(** ** Finding the newest manifest does not depend on other files *)

Section Newest.
Context `{AE : AEAD, ZS : Zstd, SH : Sha256, HK : Hkdf} `{J : Json} `{RF : Rfc3339} `{RFF : Rfc3339Format}.
Context (metaDir cloudID : bytes) (Hid : validateCloudID cloudID = None).
Abbreviation dir := (ManifestDir metaDir cloudID).

(** The manifest files of the directory. *)
Lemma manifest_files_elem files n : n ∈ filter (fun n => isManifestFile n = true) (file_names (children dir files)) <->
  normal n /\ isManifestFile n = true /\ is_Some (files !! (dir ++ slash :: n)).
Proof.
  split.
  - intros Hin. pose proof (manifest_name_normal metaDir cloudID Hid files n Hin) as [Hn Hm]. split; [done |]. split; [done |].
    apply list_elem_of_filter in Hin as [_ Hin]. apply list_elem_of_fmap in Hin as ([n' b] & -> & Hin). apply list_elem_of_filter in Hin as [Hb (p & f & Hp & Hch)%elem_of_children].
    cbn in Hb. subst b. apply child_inv in Hch as [_ ->]; [|by apply plain_src]. by exists f.
  - intros (Hn & Hm & f & Hf). apply list_elem_of_filter. split; [done |]. apply list_elem_of_fmap. exists (n, false). split; [done |].
    apply list_elem_of_filter. split; [done |]. apply elem_of_children. exists (dir ++ slash :: n), f. split; [done |]. apply child_file; [by apply plain_src | by apply Hn].
Qed.

Lemma candidates_elem files c : c ∈ candidates_of files dir <-> exists n f, normal n /\ isManifestFile n = true /\ files !! (dir ++ slash :: n) = Some f /\ cand_of files dir n = Some c.
Proof.
  unfold candidates_of. rewrite list_elem_of_omap. setoid_rewrite manifest_files_elem. split.
  - intros (n & (Hn & Hm & f & Hf) & Hc). by exists n, f.
  - intros (n & f & Hn & Hm & Hf & Hc). exists n. by split_and!.
Qed.

Context (files files' : gmap bytes file).
Hypothesis Hsame : forall r, files' !! (dir ++ slash :: r) = files !! (dir ++ slash :: r).

Lemma cand_agree n : normal n -> cand_of files' dir n = cand_of files dir n.
Proof.
  intros Hn. pose proof (join_src metaDir cloudID Hid n Hn) as E. unfold cand_of. change (FpJoin [dir; n]) with (FpJoin [src_dir metaDir cloudID; n]). rewrite E.
  unfold at_src, src_dir. by rewrite Hsame.
Qed.

Lemma load_agree hook n : normal n -> load_file hook files' (FpJoin [dir; n]) = load_file hook files (FpJoin [dir; n]).
Proof.
  intros Hn. pose proof (join_src metaDir cloudID Hid n Hn) as E. unfold load_file. change (FpJoin [dir; n]) with (FpJoin [src_dir metaDir cloudID; n]). rewrite E, at_src_sum.
  unfold at_src, src_dir. by rewrite !Hsame.
Qed.

Lemma candidates_agree c : c ∈ candidates_of files' dir <-> c ∈ candidates_of files dir.
Proof.
  rewrite !candidates_elem. split; intros (n & f & Hn & Hm & Hf & Hc); exists n, f; [rewrite Hsame in Hf; rewrite cand_agree in Hc by done | rewrite Hsame, cand_agree by done]; done.
Qed.

Lemma cand_normal c : c ∈ candidates_of files dir -> normal (ca_name c).
Proof.
  intros (n & f & Hn & _ & _ & Hc)%candidates_elem. unfold cand_of in Hc. destruct (ParseManifestFilenameTimestamp n); [|done]. by injection Hc as <-.
Qed.

Lemma newest_agree hook m : newest hook files' dir m -> newest hook files dir m.
Proof.
  intros (c & Hc & Hl & Hlate). apply candidates_agree in Hc. pose proof (cand_normal c Hc) as Hn. rewrite load_agree in Hl by done.
  exists c. split; [done |]. split; [done |]. intros c' Hc' Hlt. pose proof (cand_normal c' Hc') as Hn'. rewrite <- load_agree by done. apply Hlate; [by apply candidates_agree | done].
Qed.
End Newest.

(** ** Previous entries *)

Section Previous.
Context `{AE : AEAD, ZS : Zstd, SH : Sha256, HK : Hkdf} `{AES : !AEADSpec AE, ZSS : !ZstdSpec ZS, SHS : !Sha256Spec SH} `{J : Json, RJ : RegJson, CJ : CfgJson}.
Context `{WK : Walk} `{U : Uuid} `{RF : Rfc3339} `{RFF : Rfc3339Format} `{SF : SourceFS} `{SE : Strerror} `{CK : Chunker} `{CKS : !ChunkerSpec CK}.
Context {S : Type} `{B : BlobStore S, SV : StoreView S, BS : !BlobStoreSpec S} `{BE : BatchExistencer S, BES : !BatchSpec S}.
Context (report : ferr -> option (option Z) * bytes) (dec : Decryptor) (P : list bytes).

(** The entry stands for a file that could not be read, or describes a scanned
    file with its content; only files of at least a chunk are chunked. *)
Definition recorded (chunkSize : Z) (content : scanEntry -> bytes) (file : FileEntry) : Prop :=
  (f_ContentHash file = [] /\ f_Chunks file = []) \/
  exists fe, f_Name file = se_relPath fe /\ f_Size file = se_size fe /\ f_Mtime file = se_mtime fe /\ se_size fe = blen (content fe) /\
    describes P file (content fe) /\ (se_size fe < chunkSize -> f_Chunks file = []).

(** What looks unchanged is unchanged: a file with the size and time, or the
    hash, that it had then has its content of then. *)
Definition faithful (content1 : scanEntry -> bytes) (fe : scanEntry) (d : bytes) : Prop :=
  forall fe1, se_relPath fe1 = se_relPath fe ->
    (se_mtime fe1 = se_mtime fe /\ se_size fe1 = se_size fe) \/ SHA256Bytes (content1 fe1) = SHA256Bytes d -> content1 fe1 = d.

Lemma SHA256Bytes_nonempty d : SHA256Bytes d <> [].
Proof. intros E. pose proof (SHA256Bytes_valid d) as [H _]%validateHash_true. by rewrite E in H. Qed.

Lemma recorded_prev p fe d (content1 : scanEntry -> bytes) pf : recorded (echunkSize (pp_enc p)) content1 pf -> f_Name pf = se_relPath fe -> se_size fe = blen d ->
  faithful content1 fe d -> prev_ok P p fe d pf.
Proof.
  intros [[Hh Hc] | (fe1 & Hn & Hs & Ht & Hl & [Hh Hd] & Hw)] Hname Hsize Hf.
  - split; [rewrite Hc; constructor |]. split; [done |]. unfold fast_path. rewrite Hh. intros [E | E]; [by rewrite andb_false_r in E |]. by destruct (SHA256Bytes_nonempty d).
  - assert (Hsame : fast_path fe pf = true \/ f_ContentHash pf = SHA256Bytes d -> content1 fe1 = d).
    { intros H. apply Hf; [congruence |]. destruct H as [H | H]; [left | right; congruence]. unfold fast_path in H. rewrite !andb_true_iff in H.
      destruct H as [[H1%eqs_true H2%Z.eqb_eq] _]. split; congruence. }
    split; [|split].
    + destruct (f_Chunks pf) as [|c cs]; [constructor |]. destruct Hd as (ps & E & _ & _). rewrite E, refs_hashes. apply Forall_fmap, Forall_forall. intros q _. apply SHA256Bytes_valid.
    + intros Hlt E. apply Hw. rewrite Hl, (Hsame (or_intror E)), <- Hsize. done.
    + intros E. rewrite <- (Hsame E). split; [done |]. cbn. rewrite Hsize, <- (Hsame E), <- Hl, <- Hs. done.
Qed.

(** A later backup may start from recorded entries. *)
Lemma recorded_setting (p : pipe) (fe : scanEntry) (d : bytes) (content1 : scanEntry -> bytes) (prev : gmap bytes FileEntry) (t : @pst S) : setting dec P p fe d ∅ t -> faithful content1 fe d ->
  (forall q pf, prev !! q = Some pf -> f_Name pf = q /\ recorded (echunkSize (pp_enc p)) content1 pf) -> setting dec P p fe d prev t.
Proof.
  intros [] Hf Hprev. split; try done. intros pf Hpf. destruct (Hprev _ _ Hpf) as [Hn Hr]. by eapply recorded_prev.
Qed.

(** The baselines there can be: none, or the newest manifest that loads. *)
Definition baseline_of (hook : option (bytes -> option bytes)) (cfg : PipelineConfig) (w : world) (prev : gmap bytes FileEntry) : Prop :=
  prev = ∅ \/ exists m : Manifest, newest hook (w_files w) (ManifestDir (MetaDir (pc_RepoRoot cfg)) (run_cloud_id cfg)) m /\ prev = BuildFileMap m.

Lemma newest_baseline hook cfg w : validateCloudID (run_cloud_id cfg) = None -> calm w -> baselines hook cfg w (baseline_of hook cfg w).
Proof.
  intros Hid Hc w1 [Hfr Hc1]. specialize (Hc1 Hc). unfold loadPreviousFiles. destruct (pc_ForceFull cfg).
  { wp_step. intros prev ->%ok_inv. by left. }
  wp_step. wp_step. eapply wp_mono; [by apply wp_LoadLatest |]. intros r w2 [_ Hr]. cbn beta iota. destruct r as [m|e].
  - destruct (0 <? _); wp_step; intros prev ->%ok_inv; [by left |]. right. exists m. split; [|done].
    eapply (newest_agree _ _ Hid (w_files w) (w_files w1)); [|exact Hr]. intros x. apply Hfr. intros [y E]. revert E.
    unfold ManifestDir. destruct (dir_top (MetaDir (pc_RepoRoot cfg)) (run_cloud_id cfg) Hid (go "manifests")) as [z ->]; [by_decide |].
    unfold ConfigPath. rewrite FpJoin_root by (by_decide). rewrite <- !app_assoc. intros E%app_inv_head. discriminate E.
  - destruct e; wp_step; try done. intros prev ->%ok_inv. by left.
Qed.

Lemma baseline_recorded (hook : option (bytes -> option bytes)) (cfg : PipelineConfig) (w : world) (cs : Z) (content1 : scanEntry -> bytes) (prev : gmap bytes FileEntry) : baseline_of hook cfg w prev ->
  (forall m, newest hook (w_files w) (ManifestDir (MetaDir (pc_RepoRoot cfg)) (run_cloud_id cfg)) m -> Forall (recorded cs content1) (AllFiles m)) ->
  forall q pf, prev !! q = Some pf -> f_Name pf = q /\ recorded cs content1 pf.
Proof.
  intros [-> | (m & Hm & ->)] Hrec q pf H; [by rewrite lookup_empty in H |]. apply BuildFileMap_lookup in H as [Hin Hn]. split; [done |].
  by eapply (proj1 (Forall_forall _ _) (Hrec m Hm)).
Qed.

(** ** Two backups *)

Lemma settled_recorded scanPath ex root content p room (t : @pst S) files dirs errs fe o : well_formed root -> scanned scanPath ex root files dirs errs -> fe ∈ files ->
  se_size fe = blen (content fe) -> settled dec P content p room t fe o -> recorded (echunkSize (pp_enc p)) content (listed_as (o.1.1.1)).
Proof.
  intros Hwf Hsc Hin Hl ((Hn & _) & (_ & _ & _ & _ & Hs & Ht & _ & Hd & _) & Hw). right. exists fe. apply (proj1 Hsc) in Hin as (k & i & Hf & _ & Hk & ->).
  assert (Hne : k <> []) by (by destruct k). split; [by apply listed_name; [| eapply find_normal |] |]. done.
Qed.

(** A run leaves a manifest whose entries are recorded: it may serve as the
    baseline of the next. *)
Theorem run_records hook (p : pipe) content baseline cfg own sr w (t0 : @pst S) :
  let ex := loadExcludePatterns (sr_read sr) (pc_Excludes cfg) (scan_path cfg) in
  well_formed (sr_root sr) -> sr_ctx sr = [] -> own <> 0 -> baselines hook cfg w baseline ->
  bs_inv (p_store t0) -> Forall (consistent (gives dec) (p_store t0)) P ->
  (forall files dirs errs fe prev, scanSourceTree (scan_path cfg) ex (sr_root sr) [] = Ok (files, dirs, errs) -> fe ∈ files -> baseline prev ->
     setting dec P (with_pol p own) fe (content fe) prev t0) ->
  wp (Run hook cfg own sr (one_worker_run report p t0)) (fun x _ => forall res, x = Ok res ->
    Forall (recorded (echunkSize (pp_enc p)) content) (AllFiles (pr_Manifest res))) w.
Proof.
  intros ex Hwf Hctx Hown Hbase Hinv Hcons Hset. destruct (scan_result (scan_path cfg) ex (sr_root sr) Hwf) as (files & dirs & errs & Escan & Hsc).
  pose proof (fun prev Hp => upload_all_stores report dec P content (with_pol p own) files prev t0 Hinv Hcons (fun fe Hfe => Hset files dirs errs fe prev Escan Hfe Hp)) as Hrun.
  set (outs := fun prev (fe : scanEntry) (r : presult) => (fe, r) ∈ (upload_all report (with_pol p own) t0 files prev).1).
  eapply wp_mono; [apply (wp_Run_snapshot hook outs baseline cfg own sr); [done | done | done | |] |].
  - intros prev fe o Hp Hin. destruct (Hrun prev Hp) as (l & t' & El & _ & Hall). unfold outs in Hin. rewrite El in Hin. by apply (Hall 0).
  - intros pol files' dirs' errs' prev m Escan' Hpol Hprev _. fold ex in Escan'. rewrite Escan in Escan'. apply ok_inv in Escan'. injection Escan' as <- <- <-.
    rewrite Hpol by done. destruct (Hrun prev Hprev) as (l & t' & El & Hl & _). eapply one_worker_ran; [exact El | done |]. intros fe r Hin. unfold outs. by rewrite El.
  - intros x _ Hsnap res ->. destruct (Hsnap res eq_refl) as (prev & Hp & files' & dirs' & errs' & l' & _ & _ & Ho & _ & Hall & _).
    destruct (Hrun prev Hp) as (l & t' & El & Hl & Hset'). rewrite Hall, Forall_fmap. eapply Forall_impl; [exact Ho |]. intros [fe r] Hin. unfold outs in Hin. rewrite El in Hin. cbn [fst snd] in Hin |- *.
    assert (Hfe : fe ∈ files) by (rewrite <- Hl; apply list_elem_of_fmap; by exists (fe, r)). destruct r as [o|pe tx]; [|by left].
    eapply (settled_recorded _ _ _ _ _ 0); [done | exact Hsc | exact Hfe | | by apply Hset']. by destruct (Hset files dirs errs fe prev Escan Hfe Hp).
Qed.

(** An incremental backup restores like a full one: when every snapshot
    that the run may take as its baseline was recorded by an earlier backup,
    and every file that looks unchanged since then (same size and time, or same
    hash) is unchanged, then the complete snapshot that the run takes, restored
    to an empty directory, gives the source tree as it is now, whichever blobs
    were uploaded and whichever were kept. *)
Theorem incremental_restore_tree hook (p : pipe) (content1 content : scanEntry -> bytes) cfgB own sr w (t0 : @pst S) :
  let ex := loadExcludePatterns (sr_read sr) (pc_Excludes cfgB) (scan_path cfgB) in
  well_formed (sr_root sr) -> sr_ctx sr = [] -> restorable_names (sr_root sr) -> own <> 0 -> validateCloudID (run_cloud_id cfgB) = None -> calm w ->
  (forall m, newest hook (w_files w) (ManifestDir (MetaDir (pc_RepoRoot cfgB)) (run_cloud_id cfgB)) m -> Forall (recorded (echunkSize (pp_enc p)) content1) (AllFiles m)) ->
  bs_inv (p_store t0) -> Forall (consistent (gives dec) (p_store t0)) P ->
  (forall files dirs errs fe, scanSourceTree (scan_path cfgB) ex (sr_root sr) [] = Ok (files, dirs, errs) -> fe ∈ files ->
     setting dec P (with_pol p own) fe (content fe) ∅ t0 /\ faithful content1 fe (content fe)) ->
  wp (Run hook cfgB own sr (one_worker_run report p t0)) (fun x _ => forall res, x = Ok res -> IsComplete (pr_Manifest res) = true ->
    exists prev, baseline_of hook cfgB w prev /\ forall cwd cfg room f r (rt : @rst S), decryptor_of cfg = dec -> empty_target cwd cfg f r rt ->
    (forall files dirs errs, scanSourceTree (scan_path cfgB) ex (sr_root sr) [] = Ok (files, dirs, errs) ->
       r_store rt = p_store (upload_all report (with_pol p own) t0 files prev).2) ->
    wp (restoreManifest cwd cfg room (pr_Manifest res)) (fun y rt' => y = Ok (tally (AllFiles (pr_Manifest res)) (r_res rt)) /\
      same_tree content (scan_path cfgB) ex (sr_root sr) (view (sw_fs (r_sw rt')) r)) rt) w.
Proof.
  intros ex Hwf Hctx Hnm Hown Hid Hc Hrec Hinv Hcons Hset.
  eapply wp_mono; [eapply (wp_backup_restore report dec P content hook p); [done | done | done | done | by apply newest_baseline | done | done |] |].
  - intros files dirs errs fe prev Escan Hfe Hprev. destruct (Hset files dirs errs fe Escan Hfe) as [Hs Hf]. eapply (recorded_setting _ _ _ content1); [done | done |]. by eapply baseline_recorded.
  - intros x w' H res -> Hcomp. exact (H res eq_refl Hcomp).
Qed.
End Previous.

Module IncWitness.
Import Toy CryptoWitness BlobWitness EndWitness.
#[local] Existing Instances ew_reg ew_cfg ew_uuid ew_parse ew_format ew_walk ew_strerror ew_chunker ew_chunker_spec ew_source.

(** The manifest of a first backup, the only one that is stored. *)
Definition entry1 : FileEntry := makeFileEntry fe0 (SHA256Bytes msg) FileStatusNew.
Definition m1 : Manifest := AddFile (NewManifest (go "2026-01-02T03:04:05Z") 1 [] (go "home") (go "/home/u") (go "dev1")) entry1.
#[local] Instance iw_json : Json := { json_marshal m := go "{"; json_unmarshal d := Some m1; json_unmarshal_v1 d := None }.

Definition cfg2 : PipelineConfig := MkPipelineConfig (go "/r") 1 [] (go "home") (go "/home/u") [] (go "dev1") [] [go "tmp"] false false.
Abbreviation mdir := (ManifestDir (MetaDir (go "/r")) (run_cloud_id cfg2)).
Definition repo1 : world := World {[ ConfigPath (go "/r") := File (FormatInt 7) 1;
  FpJoin [mdir; go "100_dev1.json.zst"] := File (envelope (Zstd.Compress localManifestCompressor (go "{"))) 9 ]} [] [] 5 0.
(** The store that the first backup left. *)
Definition pst1 : @pst sys := done0.2.

Lemma newest_m1 m : newest None (w_files repo1) mdir m -> m = m1.
Proof.
  assert (Ec : candidates_of (w_files repo1) mdir = [MkCand (go "100_dev1.json.zst") 1767323045 9]) by (vm_compute; reflexivity).
  assert (El : load_file None (w_files repo1) (FpJoin [mdir; go "100_dev1.json.zst"]) = Ok m1) by (vm_compute; reflexivity).
  unfold newest. rewrite Ec. intros (c & ->%list_elem_of_singleton & Hl & _). cbn [ca_name] in Hl. rewrite El in Hl. apply ok_inv in Hl. exact Hl.
Qed.

Lemma files_m1 : AllFiles m1 = [listed_as entry1].
Proof. vm_compute. reflexivity. Qed.

Lemma recorded_m1 m : newest None (w_files repo1) mdir m -> Forall (recorded [msg] (echunkSize (pp_enc pipe0)) (fun _ => msg)) (AllFiles m).
Proof.
  intros ->%newest_m1. rewrite files_m1. apply Forall_singleton. right. exists fe0. split; [vm_compute; reflexivity |]. split; [reflexivity |]. split; [reflexivity |]. split; [reflexivity |].
  split; [|intros _; reflexivity]. split; [reflexivity |]. cbn. split; [apply list_elem_of_singleton; reflexivity | vm_compute; reflexivity].
Qed.

Lemma consistent1 : Forall (consistent (gives (decryptor_of rcfg)) (p_store pst1)) [msg].
Proof.
  pose proof (wp_process_all report0 (decryptor_of rcfg) [msg] (fun _ => msg) (with_pol pipe0 7) ∅ 0 [fe0] pst0 inv0 (st_consistent _ _ _ _ _ _ _ tree_setting0)) as H.
  unfold wp in H. unfold pst1, done0, upload_all. destruct (process_all _ _ _ _ pst0) as [[l|] t']; (apply H; intros fe ->%list_elem_of_singleton; exact tree_setting0).
Qed.

Lemma setting1 prev : baseline_of None cfg2 repo1 prev -> setting (decryptor_of rcfg) [msg] (with_pol pipe0 7) fe0 msg prev pst1.
Proof.
  intros Hb. destruct tree_setting0 as [H1 H2 H3 H4 H5 H6 H7 H8 _ _ _]. apply (recorded_setting (decryptor_of rcfg) [msg] (with_pol pipe0 7) fe0 msg (fun _ => msg)).
  - split; try assumption; [intros pf Hpf; rewrite lookup_empty in Hpf; discriminate Hpf | exact done0_inv | exact consistent1].
  - intros fe1 _ _. reflexivity.
  - apply (baseline_recorded [msg] None cfg2 repo1); [exact Hb | exact recorded_m1].
Qed.

Definition rt1 (prev : gmap bytes FileEntry) : @rst sys :=
  RS (p_store (upload_all report0 (with_pol pipe0 7) pst1 [fe0] prev).2) (SW blank ∅ [] 0 []) [] (MkRestoreResult 0 0 0).

Lemma rt1_inv prev : baseline_of None cfg2 repo1 prev -> bs_inv (r_store (rt1 prev)).
Proof.
  intros Hb. pose proof (wp_process_all report0 (decryptor_of rcfg) [msg] (fun _ => msg) (with_pol pipe0 7) prev 0 [fe0] pst1 done0_inv consistent1) as H.
  unfold wp in H. unfold rt1, upload_all. cbn [r_store]. destruct (process_all _ _ _ _ pst1) as [[l|] t']; (apply H; intros fe ->%list_elem_of_singleton; exact (setting1 prev Hb)).
Qed.

Lemma rt1_calm prev : baseline_of None cfg2 repo1 prev -> bs_calm (r_store (rt1 prev)).
Proof. intros [-> | (m & ->%newest_m1 & ->)]; vm_compute; split; reflexivity. Qed.

Lemma empty1 prev : baseline_of None cfg2 repo1 prev -> empty_target (go "/home/u") rcfg blank 1 (rt1 prev).
Proof.
  intros Hb. apply empty_for; [exact (rt1_inv prev Hb) | exact (rt1_calm prev Hb)].
Qed.

Lemma run1_ok : match (Run None cfg2 7 around (one_worker_run report0 pipe0 pst1) repo1).1 with
  Ok res => IsComplete (pr_Manifest res) = true /\ pr_UnchangedFiles res = 1 | Err _ => False end.
Proof. vm_compute. split; reflexivity. Qed.

(** The second backup uploads nothing, and its snapshot restores. *)
Lemma incremental_restore_tree_witness : exists res w' rt rt', Run None cfg2 7 around (one_worker_run report0 pipe0 pst1) repo1 = (Ok res, w') /\ pr_UnchangedFiles res = 1 /\
  restoreManifest (go "/home/u") rcfg 100 (pr_Manifest res) rt = (Ok (tally (AllFiles (pr_Manifest res)) (r_res rt)), rt') /\
  same_tree (fun _ => msg) (scan_path cfg2) ex0 tree0 (view (sw_fs (r_sw rt')) 1).
Proof.
  destruct scan0 as [dirs Escan].
  assert (Hset : forall files dirs errs fe, scanSourceTree (scan_path cfg2) ex0 tree0 [] = Ok (files, dirs, errs) -> fe ∈ files ->
    setting (decryptor_of rcfg) [msg] (with_pol pipe0 7) fe msg ∅ pst1 /\ faithful (fun _ => msg) fe msg).
  { intros files dirs' errs fe E Hfe. change (scan_path cfg2) with (scan_path cfgB) in E. rewrite Escan in E. apply ok_inv in E. injection E as E1 _ _. subst files.
    apply list_elem_of_singleton in Hfe as ->. split; [apply setting1; left; reflexivity |]. intros fe1 _ _. reflexivity. }
  pose proof (incremental_restore_tree report0 (decryptor_of rcfg) [msg] None pipe0 (fun _ => msg) (fun _ => msg) cfg2 7 around repo1 pst1 tree0_ok eq_refl names0 ltac:(discriminate)
    eq_refl (conj eq_refl eq_refl) recorded_m1 done0_inv consistent1 Hset) as H.
  unfold wp at 1 in H. pose proof run1_ok as Hok. destruct (Run None cfg2 7 around _ repo1) as [[res|] w']; [|destruct Hok]. cbn [fst snd] in H, Hok. destruct Hok as [Hcomp Hun].
  destruct (H res eq_refl Hcomp) as (prev & Hb & H1). pose proof (H1 (go "/home/u") rcfg 100 blank 1%nat (rt1 prev) eq_refl (empty1 prev Hb)) as H2.
  assert (Hst : forall files dirs errs, scanSourceTree (scan_path cfg2) ex0 tree0 [] = Ok (files, dirs, errs) -> r_store (rt1 prev) = p_store (upload_all report0 (with_pol pipe0 7) pst1 files prev).2).
  { intros files dirs' errs E. change (scan_path cfg2) with (scan_path cfgB) in E. rewrite Escan in E. apply ok_inv in E. injection E as E1 _ _. subst files. reflexivity. }
  specialize (H2 Hst). unfold wp in H2. destruct (restoreManifest _ _ _ _ (rt1 prev)) as [y rt'] eqn:Er. cbn [fst snd] in H2. destruct H2 as [-> Hsame].
  exists res, w', (rt1 prev), rt'. split; [reflexivity |]. split; [exact Hun |]. split; [exact Er | exact Hsame].
Defined.
End IncWitness.
