(* ===== verification/Cycle.v ===== *)
(** Cycle: a backup and a restore through the repository: the run stores its
    manifest and updates the registry, the restore looks for the newest
    manifest, finds that one and lays the tree out again. *)

From S2P Require Import Prelude GoStr Ignore Externs Compress Crypto Stream FS BlobStore LocalStore Blob BlobLocal Manifest CloudID ManifestIO RestorePath SecureDir Restore RestoreTree PipeFile PipeLocal Interleave Scan Pool Registry Trash RegList Config RestoreRun Backup EndToEnd EndWorkers Incremental.
From stdpp Require Import base list gmap strings relations.
From Stdlib.Strings Require Import Byte.
Local Open Scope Z_scope.

(** ** Names *)

Lemma FormatInt_no c n : is_digit c = false -> c <> x2d -> c ∉ FormatInt n.
Proof.
  intros Hc Hm. unfold FormatInt. destruct (n <? 0); [apply not_elem_of_cons; split; [done |] |]; by apply digits_no_us, not_elem_of_nil.
Qed.

Lemma strip_ext_app a b : a <> [] -> dot ∉ b -> strip_ext (a ++ dot :: b) = a.
Proof.
  intros Ha Hb. unfold strip_ext. rewrite LastIndexByte_app by done. destruct a as [|x a]; [done |]. cbn [length Nat.ltb Nat.leb].
  exact (take_app_length (x :: a) (dot :: b)).
Qed.

(** The name under which [SaveManifestWithKey] stores a manifest. *)
Definition file_name (n : Z) (deviceID : bytes) : bytes := FormatInt n ++ go "_" ++ deviceID ++ jsonZst.

Lemma parse_file_name `{RFF : Rfc3339Format} n dev : MinInt64 <= n <= MaxInt64 -> ParseManifestFilenameTimestamp (file_name n dev) = Some (format_rfc3339 n).
Proof.
  intros Hn. unfold ParseManifestFilenameTimestamp, file_name. change jsonZst with (dot :: go "json" ++ dot :: go "zst").
  replace (FormatInt n ++ go "_" ++ dev ++ dot :: go "json" ++ dot :: go "zst") with (((FormatInt n ++ x5f :: dev) ++ dot :: go "json") ++ dot :: go "zst") by (by rewrite <- !app_assoc).
  assert (Hne : FormatInt n ++ x5f :: dev <> []) by (by destruct (FormatInt n)).
  rewrite strip_ext_app; [|by destruct (FormatInt n) | by_decide]. rewrite strip_ext_app; [|done | by_decide].
  rewrite IndexByte_app by (by apply FormatInt_no). rewrite take_app_length. by rewrite ParseInt_FormatInt.
Qed.

Lemma file_name_normal n dev : slash ∉ dev -> normal (file_name n dev).
Proof.
  intros Hd. assert (Hin : x5f ∈ file_name n dev) by (unfold file_name; set_solver). unfold normal. split_and!.
  1-3: intros E; rewrite E in Hin; revert Hin; by_decide.
  unfold file_name. rewrite !not_elem_of_app. split; [by apply FormatInt_no |]. split; [by_decide |]. split; [done | by_decide].
Qed.

Lemma file_name_manifest n dev : Contains (file_name n dev) (go ".alive.") = false -> isManifestFile (file_name n dev) = true.
Proof.
  intros Hc. unfold isManifestFile. rewrite Hc. apply orb_true_iff. left. apply bool_decide_eq_true. unfold file_name. exists (FormatInt n ++ go "_" ++ dev). by rewrite <- !app_assoc.
Qed.

(** A manifest's name is not a staging name. *)
Lemma manifest_not_staging d n path u : isManifestFile n = true -> d ++ slash :: n <> staging_name path u.
Proof.
  unfold isManifestFile. destruct (Contains _ _); [done |]. intros [[r ->]%bool_decide_eq_true | [r ->]%bool_decide_eq_true]%orb_true_iff.
  - change jsonZst with (go ".json.zs" ++ [x74]). rewrite !app_comm_cons, !app_assoc. by apply not_staging.
  - change (go ".json") with (go ".jso" ++ [x6e]). rewrite !app_comm_cons, !app_assoc. by apply not_staging.
Qed.

(** ** Places *)

Section Places.
Context (metaDir cloudID : bytes) (Hid : validateCloudID cloudID = None).
Abbreviation dir := (ManifestDir metaDir cloudID).

Lemma manifest_dir_at : dir = root_dir metaDir ++ go "manifests/" ++ cloudID.
Proof.
  unfold ManifestDir. rewrite (dir_segs metaDir cloudID Hid) by by_decide. rewrite FpJoin_under; [| by_decide | apply Split_nonempty | by apply valid_segments].
  unfold under, s_slash. rewrite Join_Split. rewrite FpJoin_root by by_decide. by rewrite <- !app_assoc.
Qed.

Lemma registry_at : exists r, registry_path metaDir cloudID = root_dir metaDir ++ go "manifests/_sources/" ++ r.
Proof.
  pose proof (valid_segments cloudID Hid) as Hn. destruct (chain_snoc (Split slash cloudID) (Split_nonempty _ _)) as (k & x & E). rewrite E in Hn.
  apply Forall_app in Hn as [Hk [Hx _]%Forall_cons]. exists (GoStr.Join s_slash (k ++ [x ++ jsonZst])).
  assert (Hl : Forall normal (k ++ [x ++ jsonZst])).
  { apply Forall_app. split; [done |]. apply Forall_singleton. destruct Hx as (H1 & H2 & H3 & H4). unfold normal. split_and!.
    - by destruct x.
    - intros E'. apply (f_equal length) in E'. rewrite length_app in E'. cbn in E'. lia.
    - intros E'. apply (f_equal length) in E'. rewrite length_app in E'. cbn in E'. lia.
    - apply not_elem_of_app. split; [done | by_decide]. }
  assert (Ej : cloudID ++ jsonZst = GoStr.Join s_slash (k ++ [x ++ jsonZst])).
  { rewrite <- (Join_Split slash cloudID), E. destruct k as [|y k]; [done |]. unfold s_slash. rewrite !Join_snoc by done. by rewrite <- app_assoc. }
  unfold registry_path. rewrite Ej. pose proof (FpJoin_join_pre (sourceRegistriesDir metaDir) [] (k ++ [x ++ jsonZst]) ltac:(done) ltac:(by destruct k) Hl) as E2. cbn [app] in E2. rewrite E2.
  destruct (rp_joined metaDir (k ++ [x ++ jsonZst]) Hl ltac:(by destruct k)) as [<- ->].
  unfold under, sourceRegistriesDir. pose proof (FpJoin_snoc metaDir [go "manifests"] (go "_sources") ltac:(done) ltac:(apply Forall_singleton; by_decide) ltac:(by_decide)) as E3. cbn [app] in E3. rewrite E3.
  rewrite FpJoin_root by by_decide. by rewrite <- !app_assoc.
Qed.

(** The registry of the source is not among its manifests. *)
Lemma registry_apart r : ~ go "_sources" `prefix_of` cloudID -> ~ registry_path metaDir cloudID `prefix_of` dir ++ slash :: r.
Proof.
  intros Hn [z E]. destruct registry_at as [y Ey]. rewrite Ey, manifest_dir_at, <- !app_assoc in E. apply app_inv_head in E.
  change (go "manifests/_sources/") with (go "manifests/" ++ go "_sources" ++ [slash]) in E. rewrite <- !app_assoc in E. apply app_inv_head in E.
  apply Hn. apply app_eq_inv in E as [(k & -> & _) | (k & Ek & E)]; [by eexists |]. destruct k as [|b k]; [by rewrite app_nil_r in Ek; rewrite Ek |].
  injection E as <- _. exfalso. assert (Hin : slash ∈ go "_sources") by (rewrite Ek; set_solver). revert Hin. by_decide.
Qed.

End Places.

(** Nor is the configuration of the repository. *)
Lemma config_apart repoRoot cloudID r : validateCloudID cloudID = None -> ~ ConfigPath repoRoot `prefix_of` ManifestDir (MetaDir repoRoot) cloudID ++ slash :: r.
Proof.
  intros Hid [y E]. revert E. rewrite manifest_dir_at by done. unfold ConfigPath. rewrite FpJoin_root by by_decide. rewrite <- !app_assoc. intros E%app_inv_head. discriminate E.
Qed.

(** ** The newest manifest after a save *)

Section Saved.
Context `{AE : AEAD, ZS : Zstd, SH : Sha256, HK : Hkdf} `{J : Json} `{RF : Rfc3339} `{RFF : Rfc3339Format}.
Context (metaDir cloudID : bytes) (Hid : validateCloudID cloudID = None).
Abbreviation dir := (ManifestDir metaDir cloudID).

(** The manifest [m] is stored as [nm], and the other manifests are as they
    were. *)
Definition saved (hook : option (bytes -> option bytes)) (nm : bytes) (files files' : gmap bytes file) (m : Manifest) : Prop :=
  (exists d t, files' !! (dir ++ slash :: nm) = Some (File d t) /\ isGBREnvelope d = true /\ LoadManifestFromData hook d = Ok m) /\
  forall q, normal q -> isManifestFile q = true -> q <> nm -> files' !! (dir ++ slash :: q) = files !! (dir ++ slash :: q).

(** A manifest that is stored under a second after those of all others is the
    newest one. *)
Lemma saved_newest hook files files' n dev m : MinInt64 <= n <= MaxInt64 -> slash ∉ dev -> Contains (file_name n dev) (go ".alive.") = false ->
  saved hook (file_name n dev) files files' m ->
  parse_rfc3339 (format_rfc3339 n) = Some (n * 10 ^ 9) ->
  (forall c, c ∈ candidates_of files dir -> ca_unix c < n) ->
  newest hook files' dir m /\ forall m', newest hook files' dir m' -> m' = m.
Proof.
  intros Hn Hs Hal [(d & t & Hf & Hg & Hl) Hsame] Hclock Hold. set (nm := file_name n dev) in *.
  assert (Hnn : normal nm) by (by apply file_name_normal). assert (Hmf : isManifestFile nm = true) by (by apply file_name_manifest).
  assert (Hj : forall q, normal q -> FpJoin [dir; q] = dir ++ slash :: q) by (intros q Hq; exact (join_src metaDir cloudID Hid q Hq)).
  assert (Hc0 : cand_of files' dir nm = Some (MkCand nm n t)).
  { unfold cand_of. rewrite (parse_file_name n dev Hn). cbn [mbind option_bind]. rewrite Hclock, Hj, Hf by done. unfold unix. by rewrite Z.div_mul. }
  set (c0 := MkCand nm n t) in *.
  assert (Hin : c0 ∈ candidates_of files' dir) by (apply (candidates_elem metaDir cloudID Hid); exists nm, (File d t); done).
  assert (Hload : load_file hook files' (FpJoin [dir; ca_name c0]) = Ok m) by (cbn [c0 ca_name]; unfold load_file; rewrite Hj, Hf by done; cbn [f_data]; by rewrite Hg).
  assert (Hall : forall c, c ∈ candidates_of files' dir -> c = c0 \/ ca_unix c < n).
  { intros c (q & f & Hq & Hqm & Hqf & Hqc)%(candidates_elem metaDir cloudID Hid). destruct (decide (q = nm)) as [->|Hne]; [left; congruence |]. right.
    apply Hold, (candidates_elem metaDir cloudID Hid). exists q, f. rewrite Hsame in Hqf by done. split; [done |]. split; [done |]. split; [done |].
    rewrite <- Hqc. unfold cand_of. by rewrite !Hj, Hsame by done. }
  split.
  - exists c0. split; [done |]. split; [done |]. intros c Hc Hlt. exfalso. destruct (Hall c Hc) as [-> | Hu]; [by destruct (later_newer _ _ Hlt) |].
    destruct Hlt as [Hlt | [Hlt _]]; cbn in Hlt; lia.
  - intros m' (c & Hc & Hlc & Hno). destruct (Hall c Hc) as [-> | Hu]; [congruence |].
    specialize (Hno c0 Hin). rewrite Hload in Hno. discriminate Hno. by left.
Qed.
End Saved.

(** ** The finished manifest is valid *)

(** Names that the checks of a manifest accept. *)
Definition portable (root : node) : Prop := forall k n, Scan.find root k = Some n -> k <> [] -> Forall good_seg k.

(** The chunks of an entry, if it has any, have its size together. *)
Definition sized `{SH : Sha256} (fe : scanEntry) (e : FileEntry) : Prop :=
  f_Size e = se_size fe /\ (f_Chunks e = [] \/ exists ps, f_Chunks e = chunk_ref <$> ps /\ blen (mjoin ps) = se_size fe).

Lemma refs_nonneg `{SH : Sha256} ps : existsb (fun c => c_Size c <? 0) (chunk_ref <$> ps) = false.
Proof. induction ps as [|q ps IH]; [done |]. cbn. pose proof (blen_nonneg q). by destruct (Z.ltb_spec (blen q) 0); [lia |]. Qed.

Lemma sized_checked `{SH : Sha256} dir fe e x : 0 <= se_size fe < 2 ^ 63 -> sized fe e -> check_file dir (set_name e x) = Ok tt.
Proof.
  intros Hs [Hz Hc]. unfold check_file. cbn [f_Size f_Chunks f_Name set_name]. rewrite Hz. destruct (Z.ltb_spec (se_size fe) 0); [lia |]. cbn [check mbind result_bind].
  destruct Hc as [-> | (ps & -> & Hb)]; [done |]. rewrite refs_nonneg. cbn [check mbind result_bind].
  rewrite chunk_sum_refs, Hb, int64_small by lia. rewrite Z.eqb_refl, andb_false_r. done.
Qed.

Section Finished.
Context `{SH : Sha256}.
Context (scanPath : bytes) (ex : excludes) (root : node) (files dirs : list scanEntry) (errs : Z).
Hypothesis Hwf : well_formed root.
Hypothesis Hsc : scanned scanPath ex root files dirs errs.
Hypothesis Hport : portable root.
Hypothesis Hsize : forall fe, fe ∈ files -> 0 <= se_size fe < 2 ^ 63.

Lemma addEmptyDirs_valid m : ValidateStructure m = Ok tt -> ValidateStructure (addEmptyDirs m files dirs) = Ok tt.
Proof.
  assert (Hd : forall d, d ∈ dirs -> validateManifestDirKey (normalizeManifestPath (se_relPath d)) = Ok tt).
  { intros d (k & i & cs & Hk & Hf & _ & _ & ->)%(proj1 (proj2 Hsc)). cbn [se_relPath dir_entry]. rewrite normalize_Join by (by eapply find_normal). by eapply Join_good_key, Hport. }
  unfold addEmptyDirs. generalize (dirHasChildren files dirs) as has. intros has. revert Hd m. clear Hsc. induction dirs as [|d ds IH]; intros Hd m Hm; cbn [foldl]; [done |].
  apply IH; [intros d' Hd'; apply Hd; by right |]. case_bool_decide; [done |]. destruct (eqs _ _); [done |]. apply addemptydir_keeps_valid; [done |]. apply Hd. by left.
Qed.

Lemma addEmptyDirs_nofiles m k : (forall k, files_at (m_Dirs m) k = []) -> files_at (m_Dirs (addEmptyDirs m files dirs)) k = [].
Proof.
  intros Hm. assert (Hno : forall D : gmap bytes Dir, flat (fun _ f => [f]) D ≡ₚ [] <-> forall k, files_at D k = []).
  { intros D. split.
    - intros H q. rewrite (flat_delete _ q) in H. apply Permutation_nil_r, app_eq_nil in H as [H _]. fold (files_at D q) in H. destruct (files_at D q); done.
    - intros H. destruct (flat (fun _ f => [f]) D) as [|f l] eqn:E; [done |]. exfalso. assert (Hf : f ∈ flat (fun _ f => [f]) D) by (rewrite E; by left).
      unfold flat in Hf. apply list_elem_of_bind in Hf as ([q d] & Hf & Hq). apply elem_of_map_to_list in Hq. specialize (H q). unfold files_at in H. rewrite Hq in H.
      cbn in H, Hf. rewrite H in Hf. by apply elem_of_nil in Hf. }
  apply Hno. rewrite flat_addEmptyDirs. by apply Hno.
Qed.

(** The entries of the files are of different names and fit any manifest. *)
Lemma entries_fit (l : list (scanEntry * presult)) : l.*1 ≡ₚ files ->
  Forall (fun fr => f_Name (entry_of fr) = se_relPath fr.1 /\ sized fr.1 (entry_of fr)) l ->
  Forall fits_any (entry_of <$> l) /\ NoDup (home <$> (entry_of <$> l)).
Proof.
  intros Hl He. rewrite Forall_forall in He.
  assert (Hin : forall fr, fr ∈ l -> exists k x i, Forall good_seg (k ++ [x]) /\ f_Name (entry_of fr) = GoStr.Join s_slash (k ++ [x]) /\ fr.1 = file_entry scanPath (k ++ [x]) i).
  { intros fr Hfr. assert (Hf : fr.1 ∈ files) by (rewrite <- Hl; apply list_elem_of_fmap; by exists fr). apply (proj1 Hsc) in Hf as (k & i & Hf & _ & Hk & E).
    assert (Hne : k <> []) by (by destruct k). pose proof (Hport k _ Hf Hne) as Hg. destruct (chain_snoc k Hne) as (k' & x & ->). exists k', x, i.
    split; [done |]. split; [|done]. rewrite (proj1 (He fr Hfr)), E. done. }
  assert (Hhome : forall fr, fr ∈ l -> exists k x, Forall good_seg (k ++ [x]) /\ home (entry_of fr) = (GoStr.Join s_slash k, x) /\ se_relPath fr.1 = full_path (GoStr.Join s_slash k) x).
  { intros fr Hfr. destruct (Hin fr Hfr) as (k & x & i & Hg & En & Ei). exists k, x. split; [done |].
    assert (Hn : Forall normal (k ++ [x])) by (eapply Forall_impl; [exact Hg | by intros ? []]). unfold home. rewrite En, normalize_Join by done.
    apply Forall_app in Hn as [? [? _]%Forall_cons]. split; [by apply split_last_Join |]. rewrite full_path_snoc by done. by rewrite Ei. }
  split.
  - apply Forall_fmap, Forall_forall. intros fr Hfr. destruct (Hhome fr Hfr) as (k & x & Hg & Eh & _). apply Forall_app in Hg as [Hk [Hx _]%Forall_cons].
    unfold compose, fits_any. rewrite Eh. cbn [fst snd]. split; [by apply Join_good_key |]. split; [by apply good_seg_name |]. eapply sized_checked; [|by apply He].
    apply Hsize. rewrite <- Hl. apply list_elem_of_fmap. by exists fr.
  - apply (NoDup_fmap_1 (fun p => full_path p.1 p.2)).
    assert (E : (fun p => full_path p.1 p.2) <$> (home <$> (entry_of <$> l)) = se_relPath <$> l.*1); [|rewrite E, Hl; by apply Hsc].
    clear Hl Hin He. induction l as [|fr l IH]; [done |]. rewrite !fmap_cons, IH by (intros; apply Hhome; by right). f_equal.
    by destruct (Hhome fr ltac:(by left)) as (k & x & _ & -> & ->).
Qed.

Lemma finished_valid (l : list (scanEntry * presult)) m0 (sh : shared) deleted : l.*1 ≡ₚ files -> ValidateStructure m0 = Ok tt -> m_Dirs m0 = ∅ ->
  Forall (fun fr => f_Name (entry_of fr) = se_relPath fr.1 /\ sized fr.1 (entry_of fr)) l ->
  sh.1 = foldl AddFile (addEmptyDirs (set_scan_errors m0 errs) files dirs) (entry_of <$> l) ->
  ValidateStructure (finish sh.1 sh.2 deleted) = Ok tt.
Proof.
  intros Hl Hm H0 He E. change (ValidateStructure sh.1 = Ok tt). rewrite E. destruct (entries_fit l Hl He) as [Hf Hn].
  apply AddFiles_valid; [by apply addEmptyDirs_valid | done | done |]. intros e _. rewrite addEmptyDirs_nofiles; [by apply not_elem_of_nil |].
  intros k. cbn [set_scan_errors set_dirs m_Dirs]. rewrite H0. unfold files_at. by rewrite lookup_empty.
Qed.
End Finished.

(** What adding files and directories does not change. *)
Definition header (m : Manifest) : Z * bytes * bytes * bytes := (m_Version m, m_CloudID m, m_Timestamp m, m_DeviceID m).

Lemma header_AddFiles es : forall m, header (foldl AddFile m es) = header m.
Proof. induction es as [|e es IH]; intros m; cbn [foldl]; [done |]. rewrite IH. unfold AddFile. by destruct (split_last _). Qed.

Lemma header_addEmptyDirs m files dirs : header (addEmptyDirs m files dirs) = header m.
Proof.
  unfold addEmptyDirs. generalize (dirHasChildren files dirs) as has. intros has. revert m. induction dirs as [|d ds IH]; intros m; cbn [foldl]; [done |].
  rewrite IH. case_bool_decide; [done |]. destruct (eqs _ _); [done |]. unfold AddEmptyDir. destruct (eqs _ _); [done |]. destruct (split_last _) as [a b]. by destruct (eqs b []).
Qed.

(** ** A run that stores its snapshot *)

Section Stores.
Context `{AE : AEAD, ZS : Zstd, SH : Sha256, HK : Hkdf} `{AES : !AEADSpec AE, ZSS : !ZstdSpec ZS, SHS : !Sha256Spec SH, HKS : !HkdfSpec HK}.
Context `{J : Json, RJ : RegJson, CJ : CfgJson} `{JS : !JsonSpec J} `{U : Uuid} `{RF : Rfc3339} `{RFF : Rfc3339Format}.
Context (hook : option (bytes -> option bytes)).

Definition manifests_of (cfg : PipelineConfig) : bytes := ManifestDir (MetaDir (pc_RepoRoot cfg)) (run_cloud_id cfg).

(** A full backup is asked for, there is no earlier manifest, or one of them
    loads. *)
Definition baseline_ready (cfg : PipelineConfig) (w : world) : Prop :=
  pc_ForceFull cfg = true \/ candidates_of (w_files w) (manifests_of cfg) = [] \/
  exists c, c ∈ candidates_of (w_files w) (manifests_of cfg) /\ is_ok (load_file hook (w_files w) (FpJoin [manifests_of cfg; ca_name c])) = true.

Lemma wp_baseline cfg w w1 : validateCloudID (run_cloud_id cfg) = None -> calm w1 ->
  (forall r, w_files w1 !! (manifests_of cfg ++ slash :: r) = w_files w !! (manifests_of cfg ++ slash :: r)) -> baseline_ready cfg w ->
  wp (loadPreviousFiles hook (MetaDir (pc_RepoRoot cfg)) (run_cloud_id cfg) (pc_ForceFull cfg)) (fun r w2 => is_ok r = true /\ same w1 w2) w1.
Proof.
  intros Hid Hc Hf Hr. unfold loadPreviousFiles. destruct (pc_ForceFull cfg) eqn:Eff; [by wp_step |]. wp_step. wp_step. eapply wp_mono; [by apply wp_LoadLatest |].
  intros r w2 [Hs Hx]. cbn beta iota. destruct r as [m|e]; [by destruct (0 <? _); wp_step |]. destruct e; try done. exfalso. destruct Hx as [Hne Hx].
  destruct Hr as [Hr | [Hr | (c & Hin & Hl)]]; [congruence | |].
  - apply Hne. destruct (candidates_of (w_files w1) (ManifestDir (MetaDir (pc_RepoRoot cfg)) (run_cloud_id cfg))) as [|c cs] eqn:E; [done |].
    assert (Hin : c ∈ candidates_of (w_files w) (manifests_of cfg)) by (apply (candidates_agree _ _ Hid _ _ Hf); rewrite E; by left). rewrite Hr in Hin. by apply elem_of_nil in Hin.
  - pose proof (proj2 (candidates_agree _ _ Hid _ _ Hf c) Hin) as Hin'. specialize (Hx c Hin'). unfold manifests_of in *.
    rewrite (load_agree _ _ Hid _ _ Hf) in Hx by (by eapply (cand_normal _ _ Hid)). by rewrite Hl in Hx.
Qed.

(** The second that names the run's manifest. *)
Definition second (sr : surroundings) : Z := unix (match parse_rfc3339 (sr_stamp sr) with Some t => t | None => sr_now sr end).

(** What a run needs to get through: nothing fails or is cancelled, the
    configuration is there, the identifiers are valid and the device's is a
    plain name, the key fits, the clock is past every manifest, and there is a
    baseline if one is wanted. *)
Record ready (cfg : PipelineConfig) (sr : surroundings) (w : world) : Prop := {
  rd_calm : calm w;
  rd_running : sr_ctx sr = [] /\ sr_stopped sr = false;
  rd_config : exists c, stored_config (pc_RepoRoot cfg) w = Some c /\ (cf_CDCPolynomial c <> 0 \/ is_Some (sr_draw sr));
  rd_cloud : validateCloudID (run_cloud_id cfg) = None /\ ~ go "_sources" `prefix_of` run_cloud_id cfg;
  rd_device : validateCloudID (pc_DeviceID cfg) = None /\ slash ∉ pc_DeviceID cfg;
  rd_name : Contains (file_name (second sr) (pc_DeviceID cfg)) (go ".alive.") = false;
  rd_key : pc_Key cfg = [] \/ hook = Some (key_hook (pc_Key cfg)) /\ IVSize <= blen (sr_ent sr);
  rd_second : MinInt64 <= second sr <= MaxInt64 /\ parse_rfc3339 (format_rfc3339 (second sr)) = Some (second sr * 10 ^ 9);
  rd_latest : forall c, c ∈ candidates_of (w_files w) (manifests_of cfg) -> ca_unix c < second sr;
  rd_baseline : baseline_ready cfg w
}.

(** The manifest that the run finishes with. *)
Definition final_manifest (cfg : PipelineConfig) (sr : surroundings) (upload : list scanEntry -> gmap bytes FileEntry -> Manifest -> shared)
    (files dirs : list scanEntry) (errs : Z) (prev : gmap bytes FileEntry) : Manifest :=
  let m0 := NewManifest (sr_stamp sr) (pc_SourceID cfg) (run_cloud_id cfg) (pc_SourceName cfg) (pc_SourcePath cfg) (pc_DeviceID cfg) in
  let sh := upload files prev (addEmptyDirs (set_scan_errors m0 errs) files dirs) in
  finish sh.1 sh.2 (countDeletedFiles prev files).

Lemma final_header cfg sr upload files dirs errs prev (l : list (scanEntry * presult)) :
  let m1 := addEmptyDirs (set_scan_errors (NewManifest (sr_stamp sr) (pc_SourceID cfg) (run_cloud_id cfg) (pc_SourceName cfg) (pc_SourcePath cfg) (pc_DeviceID cfg)) errs) files dirs in
  (upload files prev m1).1 = foldl AddFile m1 (entry_of <$> l) ->
  header (final_manifest cfg sr upload files dirs errs prev) = (2, run_cloud_id cfg, sr_stamp sr, pc_DeviceID cfg).
Proof.
  intros m1 E. unfold final_manifest. cbv zeta. fold m1. change (header (upload files prev m1).1 = (2, run_cloud_id cfg, sr_stamp sr, pc_DeviceID cfg)).
  rewrite E, header_AddFiles. subst m1. by rewrite header_addEmptyDirs.
Qed.

(** Saving the manifest and updating the registry, when nothing fails. *)
Lemma wp_store_manifest {A} cfg sr w w2 m (k : eff world runerr A) Q : ready cfg sr w -> calm w2 ->
  (forall r, w_files w2 !! (manifests_of cfg ++ slash :: r) = w_files w !! (manifests_of cfg ++ slash :: r)) ->
  loadable m -> header m = (2, run_cloud_id cfg, sr_stamp sr, pc_DeviceID cfg) ->
  (forall w', calm w' -> saved (MetaDir (pc_RepoRoot cfg)) (run_cloud_id cfg) hook (file_name (second sr) (pc_DeviceID cfg)) (w_files w) (w_files w') m -> wp k Q w') ->
  wp (_ ← wrap_err RunSave (SaveManifestWithKey (MetaDir (pc_RepoRoot cfg)) m (pc_Key cfg) (sr_now sr) (sr_ent sr));
      _ ← updateSourceRegistry (MetaDir (pc_RepoRoot cfg)) (run_cloud_id cfg) m; k) Q w2.
Proof.
  intros [_ _ _ [Hid Hres] [Hdev Hslash] Hname Hkey [Hrange Hclock] Hlate _] Hc Hf Hm Hh HQ. injection Hh as _ Hcl Hts Hdv.
  assert (Hcid : manifest_cloudID m = run_cloud_id cfg).
  { unfold manifest_cloudID. rewrite Hcl. destruct (eqs (run_cloud_id cfg) []) eqn:E; [|done]. apply eqs_true in E. by rewrite E in Hid. }
  assert (Hpath : ManifestFilePath (MetaDir (pc_RepoRoot cfg)) (manifest_cloudID m) (manifest_time m (sr_now sr)) (m_DeviceID m) = manifests_of cfg ++ slash :: file_name (second sr) (pc_DeviceID cfg)).
  { unfold ManifestFilePath. rewrite Hcid, Hdv. unfold manifest_time. rewrite Hts. fold (second sr) (file_name (second sr) (pc_DeviceID cfg)).
    by apply (join_src _ _ Hid), file_name_normal. }
  set (nm := file_name (second sr) (pc_DeviceID cfg)) in *. assert (Hnm : normal nm) by (by apply file_name_normal). assert (Hmf : isManifestFile nm = true) by (by apply file_name_manifest).
  assert (Hfree : w_files w2 !! (manifests_of cfg ++ slash :: nm) = None).
  { rewrite Hf. destruct (w_files w !! _) as [f|] eqn:E; [|done]. exfalso. assert (Hj : FpJoin [manifests_of cfg; nm] = manifests_of cfg ++ slash :: nm) by (by apply (join_src _ _ Hid)).
    specialize (Hlate (MkCand nm (second sr) (f_mtime f))). cbn [ca_unix] in Hlate. apply (Z.lt_irrefl (second sr)), Hlate. apply (candidates_elem _ _ Hid). exists nm, f.
    split; [done |]. split; [done |]. split; [done |]. unfold cand_of. rewrite (parse_file_name (second sr) (pc_DeviceID cfg) Hrange : ParseManifestFilenameTimestamp nm = _). cbn [mbind option_bind]. fold (manifests_of cfg). rewrite Hclock, Hj, E. unfold unix. by rewrite Z.div_mul. }
  do 2 wp_step. eapply wp_mono; [apply (wp_Save_calm hook); [done | by rewrite Hcid | by rewrite Hdv | done | done] |]. rewrite Hpath. intros r w3 (Hc3 & Hok & Hload).
  destruct (Hok Hfree) as [[e' ->] Hfr3]. destruct (Hload _ _ eq_refl) as (payload & ent1 & t & _ & Hd & Hl). cbn beta iota.
  wp_step. eapply wp_mono; [by apply updateSourceRegistry_frame |]. intros r w4 (-> & Hc4 & Hfr4). cbn beta iota.
  assert (Hfr : forall q, w_files w4 !! (manifests_of cfg ++ slash :: q) = w_files w3 !! (manifests_of cfg ++ slash :: q)) by (intros q; by apply Hfr4, registry_apart).
  apply HQ; [by apply Hc4 |]. split.
  - exists (envelope payload), t. split; [rewrite <- Hd; apply Hfr |]. split; [apply envelope_strip | done].
  - intros q Hq Hqm Hne. rewrite <- Hf. etrans; [apply Hfr |]. apply Hfr3; [|intros u; by apply manifest_not_staging].
    intros E%app_inv_head. by injection E.
Qed.

(** A run that is ready gets through: it returns a faithful snapshot and saves
    its manifest. *)
Lemma wp_Run_stores (outcomes : gmap bytes FileEntry -> scanEntry -> presult -> Prop) baseline cfg own sr upload w :
  let ex := loadExcludePatterns (sr_read sr) (pc_Excludes cfg) (scan_path cfg) in
  ready cfg sr w -> well_formed (sr_root sr) -> portable (sr_root sr) -> own <> 0 -> baselines hook cfg w baseline ->
  (forall files dirs errs, scanSourceTree (scan_path cfg) ex (sr_root sr) [] = Ok (files, dirs, errs) ->
     (errs = 0 \/ pc_AllowScanErrors cfg = true) /\ forall fe, fe ∈ files -> 0 <= se_size fe < 2 ^ 63) ->
  (forall prev fe o, baseline prev -> outcomes prev fe (Processed o) -> entry_for fe (o.1.1.1) /\ sized fe (o.1.1.1)) ->
  (forall files dirs errs prev m, scanSourceTree (scan_path cfg) ex (sr_root sr) [] = Ok (files, dirs, errs) -> baseline prev -> ran (outcomes prev) files m (upload own files prev m)) ->
  (forall files dirs errs prev, scanSourceTree (scan_path cfg) ex (sr_root sr) [] = Ok (files, dirs, errs) -> baseline prev ->
     let m := final_manifest cfg sr (upload own) files dirs errs prev in json_text m /\ blen (json_marshal m) <= MaxManifestDecompressedSize) ->
  wp (Run hook cfg own sr upload) (fun x w' => exists res prev, x = Ok res /\ baseline prev /\
    snapshot_of (outcomes prev) (scan_path cfg) ex (sr_root sr) (pc_AllowScanErrors cfg) res /\ calm w' /\
    (forall files dirs errs, scanSourceTree (scan_path cfg) ex (sr_root sr) [] = Ok (files, dirs, errs) -> s_ScanErrors (m_Stats (pr_Manifest res)) = errs) /\
    header (pr_Manifest res) = (2, run_cloud_id cfg, sr_stamp sr, pc_DeviceID cfg) /\
    saved (MetaDir (pc_RepoRoot cfg)) (run_cloud_id cfg) hook (file_name (second sr) (pc_DeviceID cfg)) (w_files w) (w_files w') (pr_Manifest res)) w.
Proof.
  intros ex Hr Hwf Hport Hown Hbase Hscan Hout Hup Hfit. pose proof Hr as [Hc [Hctx Hrun] (c & Hcfg & Hpol) [Hid _] _ _ _ _ _ Hready].
  unfold Run. fold (scan_path cfg) (run_cloud_id cfg) ex. apply wp_bind.
  eapply wp_mono; [apply wp_and; [by eapply ensure_calm | apply wp_and; [apply wp_ensure_own | apply ensure_frame]] |].
  intros [pol|] w1 (Hok & Hpl & Hfr1); [|done]. specialize (Hpl pol eq_refl Hown) as ->. pose proof Hfr1 as [Hf1 Hc1]. specialize (Hc1 Hc).
  assert (Hdir1 : forall r, w_files w1 !! (manifests_of cfg ++ slash :: r) = w_files w !! (manifests_of cfg ++ slash :: r)) by (intros r; by apply Hf1, config_apart).
  cbv beta iota zeta. apply wp_bind. eapply wp_mono; [apply wp_and; [by apply Hbase | by eapply wp_baseline] |].
  intros [prev|] w2 (Hprev & Hok2 & Hs2); [|done]. specialize (Hprev prev eq_refl). cbv beta iota zeta. rewrite Hctx, Hrun.
  destruct (scan_result (scan_path cfg) ex (sr_root sr) Hwf) as (files & dirs & errs & Escan & Hsc). rewrite Escan. destruct (Hscan files dirs errs Escan) as [Hallow Hsz].
  assert (Eg : (0 <? errs) && negb (pc_AllowScanErrors cfg) = false).
  { destruct Hallow as [-> | ->]; [done | by rewrite andb_false_r]. }
  rewrite Eg. set (m0 := NewManifest _ _ _ _ _ _). set (m1 := addEmptyDirs (set_scan_errors m0 errs) files dirs).
  pose proof (Hup files dirs errs prev m1 Escan Hprev) as Hran.
  destruct (snapshot_built (outcomes prev) (scan_path cfg) ex (sr_root sr) files dirs errs m0 (upload own files prev m1) (countDeletedFiles prev files) Hwf (fun fe o Ho => proj1 (Hout prev fe o Hprev Ho)) Hsc eq_refl Hran)
    as (l & Hp & Ho & Hall & Hd & Hdo & Hcomp & Hcnt & Hm).
  pose proof (Hfit files dirs errs prev Escan Hprev) as [Htext Hlen]. pose proof (final_header cfg sr (upload own) files dirs errs prev l Hm) as Hh.
  assert (Hv : ValidateStructure (final_manifest cfg sr (upload own) files dirs errs prev) = Ok tt).
  { apply (finished_valid (scan_path cfg) ex (sr_root sr) files dirs errs Hwf Hsc Hport Hsz l m0); [done | apply valid_new | done | | done].
    eapply Forall_impl; [exact Ho |]. intros [fe [o | pe tx]] Hfr; cbn [fst snd entry_of] in *.
    - destruct (Hout prev fe o Hprev Hfr) as [(Hn & _) Hz]. done.
    - split; [done |]. split; [done | by left]. }
  assert (Herr : s_ScanErrors (m_Stats (upload own files prev m1).1) = errs) by (rewrite Hm, errors_AddFiles; subst m1; by rewrite errors_addEmptyDirs).
  unfold final_manifest in *. cbv zeta in *. fold m0 m1 in Htext, Hlen, Hh, Hv. destruct (upload own files prev m1) as [m2 stats]. cbn [fst snd] in *.
  assert (Hdir2 : forall r, w_files w2 !! (manifests_of cfg ++ slash :: r) = w_files w !! (manifests_of cfg ++ slash :: r)) by (intros r; rewrite (same_files _ _ Hs2); apply Hdir1).
  assert (Hld : loadable (finish m2 stats (countDeletedFiles prev files))).
  { split; [done |]. split; [|done]. injection Hh as Hv2 _ _ _. change (2 <= m_Version m2). rewrite Hv2. lia. }
  apply (wp_store_manifest cfg sr w); [done | by apply (same_faults _ _ Hs2) | done | done | done |]. intros w' Hc' Hsaved. wp_step. eexists _, prev. split; [done |]. split; [done |].
  split; [exists files, dirs, errs, l; by split_and! |]. split; [done |]. split; [|done]. intros f d e E. apply ok_inv in E. injection E as _ _ <-. exact Herr.
Qed.
End Stores.

(** ** There and back through the repository *)

Section Whole.
Context `{AE : AEAD, ZS : Zstd, SH : Sha256, HK : Hkdf} `{AES : !AEADSpec AE, ZSS : !ZstdSpec ZS, SHS : !Sha256Spec SH, HKS : !HkdfSpec HK}.
Context `{J : Json, RJ : RegJson, CJ : CfgJson} `{JS : !JsonSpec J}.
Context `{WK : Walk} `{U : Uuid} `{RF : Rfc3339} `{RFF : Rfc3339Format} `{SF : SourceFS} `{SE : Strerror} `{CK : Chunker} `{CKS : !ChunkerSpec CK}.
Context {S : Type} `{B : BlobStore S, SV : StoreView S, BS : !BlobStoreSpec S} `{BE : BatchExistencer S, BES : !BatchSpec S}.
Context (hook : option (bytes -> option bytes)) (report : ferr -> option (option Z) * bytes) (dec : Decryptor) (P : list bytes) (content : scanEntry -> bytes).

(** [SimpleRestore.Run] restores the manifest it loads. *)
Lemma wp_restore_loaded cwd cfg room m res (G : @rst S -> Prop) (s : @site S) : wp (load_manifest hook cfg) (fun r _ => r = Ok m) (s_meta s) ->
  wp (restoreManifest cwd cfg room m) (fun y t' => y = Ok res /\ G t') (started (s_rst s)) ->
  wp (RestoreRun.Run hook cwd cfg room) (fun y s' => y = Ok res /\ G (s_rst s')) s.
Proof.
  intros Hl Hres. unfold RestoreRun.Run. do 2 wp_step. eapply wp_mono; [exact Hl |]. intros r w' ->. cbn beta iota.
  do 2 wp_step. eapply wp_mono; [exact Hres |]. intros y t' [-> HG]. done.
Qed.

(** Without a time stamp that is the only one that is the newest. *)
Lemma wp_load_newest cfg m w : rc_Timestamp cfg = [] -> calm w ->
  newest hook (w_files w) (manifest_dir cfg) m -> (forall m', newest hook (w_files w) (manifest_dir cfg) m' -> m' = m) ->
  wp (load_manifest hook cfg) (fun r _ => r = Ok m) w.
Proof.
  intros Hts Hc (c0 & Hc0 & Hl0 & _) Huniq. unfold load_manifest. rewrite Hts. change (negb (eqs [] [])) with false. cbv iota. wp_step.
  eapply wp_mono; [by apply wp_LoadLatest |]. fold (manifest_dir cfg). intros x w' [Hs Hx]. destruct x as [m'|e]; cbn beta iota; [by rewrite (Huniq m' Hx) |].
  exfalso. destruct e; try done; [rewrite Hx in Hc0; by apply elem_of_nil in Hc0 |].
  destruct Hx as [_ Hx]. specialize (Hx c0 Hc0). by rewrite Hl0 in Hx.
Qed.

(** The uploads of a run in which no call is cancelled and the cipher does its
    work. *)
Definition quiet_uploads (p : pipe) (s0 : S) (files : list scanEntry) (prev : gmap bytes FileEntry) (m : Manifest) (c : conf S) (sh : shared) : Prop :=
  (exists c0, beginning s0 files c0 /\ Forall (fun tk => tk_ctx tk = []) (cf_tasks c0) /\ rtc (istep p prev) c0 c) /\
  (forall i tk e, cf_tasks c !! i = Some tk -> ~ returned p prev tk (Err (FGcm e))) /\
  ran (call_results report p prev c) files m sh.

Lemma stored_sized (p : pipe) (s : S) fe o : stored P p content s fe o -> se_size fe = blen (content fe) -> sized fe (o.1.1.1).
Proof.
  intros ((_ & Hz & _) & _ & [_ Hd] & _) Hsz. split; [done |]. destruct (f_Chunks o.1.1.1) as [|c cs]; [by left |]. right.
  destruct Hd as (ps & -> & Hj & _). exists ps. split; [done |]. by rewrite Hj.
Qed.

(** What a calm run does: it gets through with a complete snapshot, which it
    saves, and it leaves a store that has the blobs of every file. *)
Lemma wp_run_kept (p : pipe) (baseline : gmap bytes FileEntry -> Prop) (cfgB : PipelineConfig) (own : Z) (sr : surroundings) (w : world) (s0 : S) (final : gmap bytes FileEntry -> conf S) (upload : Z -> list scanEntry -> gmap bytes FileEntry -> Manifest -> shared) :
  let ex := loadExcludePatterns (sr_read sr) (pc_Excludes cfgB) (scan_path cfgB) in
  ready hook cfgB sr w -> well_formed (sr_root sr) -> portable (sr_root sr) ->
  (forall k n, Scan.find (sr_root sr) k = Some n -> n <> NoStat /\ forall i, n <> Folder i None) ->
  (forall k i, Scan.find (sr_root sr) k = Some (Leaf i) -> 0 <= fi_Size i < 2 ^ 63) ->
  own <> 0 -> baselines hook cfgB w baseline -> sane (gives dec) P s0 -> bs_calm s0 ->
  (forall files dirs errs fe prev, scanSourceTree (scan_path cfgB) ex (sr_root sr) [] = Ok (files, dirs, errs) -> fe ∈ files -> baseline prev ->
     setting dec P (with_pol p own) fe (content fe) prev (PS s0 [] O [])) ->
  (forall files dirs errs prev m, scanSourceTree (scan_path cfgB) ex (sr_root sr) [] = Ok (files, dirs, errs) -> baseline prev ->
     quiet_uploads (with_pol p own) s0 files prev m (final prev) (upload own files prev m)) ->
  (forall files dirs errs prev, scanSourceTree (scan_path cfgB) ex (sr_root sr) [] = Ok (files, dirs, errs) -> baseline prev ->
     let m := final_manifest cfgB sr (upload own) files dirs errs prev in json_text m /\ blen (json_marshal m) <= MaxManifestDecompressedSize) ->
  wp (Backup.Run hook cfgB own sr upload) (fun x w' => exists res prev, x = Ok res /\ baseline prev /\ IsComplete (pr_Manifest res) = true /\
    snapshot_of (call_results report (with_pol p own) prev (final prev)) (scan_path cfgB) ex (sr_root sr) (pc_AllowScanErrors cfgB) res /\
    s_ScanErrors (m_Stats (pr_Manifest res)) = 0 /\ header (pr_Manifest res) = (2, run_cloud_id cfgB, sr_stamp sr, pc_DeviceID cfgB) /\ calm w' /\
    saved (MetaDir (pc_RepoRoot cfgB)) (run_cloud_id cfgB) hook (file_name (second sr) (pc_DeviceID cfgB)) (w_files w) (w_files w') (pr_Manifest res) /\
    sane (gives dec) P (cf_store (final prev)) /\ bs_calm (cf_store (final prev)) /\ extends P s0 (cf_store (final prev)) /\
    forall fe o, call_results report (with_pol p own) prev (final prev) fe (Processed o) -> stored P (with_pol p own) content (cf_store (final prev)) fe o /\ se_size fe = blen (content fe)) w.
Proof.
  intros ex Hr Hwf Hport Hread Hsz Hown Hbase Hs Hcalm Hset Hup Hfit. destruct (scan_result (scan_path cfgB) ex (sr_root sr) Hwf) as (files & dirs & errs & Escan & Hsc).
  assert (He0 : errs = 0) by (apply (proj2 (proj2 (proj2 (proj2 Hsc)))); intros k n Hk _; by eapply Hread).
  assert (Huniq : forall files' dirs' errs', scanSourceTree (scan_path cfgB) ex (sr_root sr) [] = Ok (files', dirs', errs') -> files' = files /\ dirs' = dirs /\ errs' = errs).
  { intros files' dirs' errs' E. rewrite Escan in E. apply ok_inv in E. by injection E as -> -> ->. }
  assert (Hall : forall prev, baseline prev -> (sane (gives dec) P (cf_store (final prev)) /\ bs_calm (cf_store (final prev)) /\ extends P s0 (cf_store (final prev))) /\
    (forall fe r, call_results report (with_pol p own) prev (final prev) fe r -> exists o, r = Processed o) /\
    forall fe o, call_results report (with_pol p own) prev (final prev) fe (Processed o) -> stored P (with_pol p own) content (cf_store (final prev)) fe o /\ se_size fe = blen (content fe)).
  { intros prev Hp. destruct (Hup files dirs errs prev (NewManifest [] 0 [] [] [] []) Escan Hp) as ((c0 & Hb & Hctx & Hrt) & Hno & _).
    pose proof (fun fe Hfe => Hset files dirs errs fe prev Escan Hfe Hp) as Hset'.
    destruct (interleaved_stored dec P (with_pol p own) prev content s0 files Hs Hset' c0 _ Hb Hrt) as (H1 & H2 & H3).
    destruct (interleaved_fails dec P (with_pol p own) prev content s0 files Hs Hset' c0 _ Hb Hrt Hcalm Hctx) as [Hcs H4].
    pose proof (reach_conf dec P (with_pol p own) prev content s0 files Hs Hset' c0 _ Hb Hrt) as (_ & Hfiles & _).
    split; [done |]. split.
    - intros fe r (i & tk & x & Hi & _ & Hx & ->). destruct x as [o|e]; [by exists o |]. destruct (H4 i tk e Hi Hx) as [c ->]. by destruct (Hno i tk c Hi).
    - intros fe o (i & tk & x & Hi & <- & Hx & E). destruct x as [o'|]; [|done]. injection E as <-. split; [by eapply H3 |].
      assert (Hfe : tk_file tk ∈ files) by (rewrite <- Hfiles; apply list_elem_of_fmap_2; by eapply list_elem_of_lookup_2). by destruct (Hset' _ Hfe). }
  eapply wp_mono; [eapply (wp_Run_stores hook (fun prev => call_results report (with_pol p own) prev (final prev)) baseline cfgB own sr); [done | done | done | done | done | | | |] |].
  - intros files' dirs' errs' E. destruct (Huniq _ _ _ E) as (-> & -> & ->). split; [by left |]. intros fe (k & i & Hk & _ & _ & ->)%(proj1 Hsc). by apply (Hsz k).
  - intros prev fe o Hp Ho. destruct (proj2 (proj2 (Hall prev Hp)) fe o Ho) as [Hst Hfe]. split; [apply Hst |]. by eapply stored_sized.
  - intros files' dirs' errs' prev m E Hp. by apply (Hup files' dirs' errs' prev m E Hp).
  - done.
  - intros x w' (res & prev & -> & Hp & Hsnap & Hc' & Herr & Hhead & Hsaved). destruct (Hall prev Hp) as ((Hsane & Hcs & Hext) & Hproc & Hst). exists res, prev.
    split; [done |]. split; [done |]. split; [|by rewrite (Herr files dirs errs Escan)].
    destruct Hsnap as (files' & dirs' & errs' & l & Hsc' & _ & Ho & _ & _ & _ & _ & Hc & _ & _). apply Hc. split.
    + apply (proj2 (proj2 (proj2 (proj2 Hsc')))). intros k n Hk _. by eapply Hread.
    + eapply Forall_impl; [exact Ho |]. intros fr Hfr. exact (Hproc fr.1 fr.2 Hfr).
Qed.

Lemma wp_cycle (p : pipe) (baseline : gmap bytes FileEntry -> Prop) (cfgB : PipelineConfig) (own : Z) (sr : surroundings) (w : world) (s0 : S) (final : gmap bytes FileEntry -> conf S) (upload : Z -> list scanEntry -> gmap bytes FileEntry -> Manifest -> shared) :
  let ex := loadExcludePatterns (sr_read sr) (pc_Excludes cfgB) (scan_path cfgB) in
  ready hook cfgB sr w -> well_formed (sr_root sr) -> portable (sr_root sr) -> restorable_names (sr_root sr) ->
  (forall k n, Scan.find (sr_root sr) k = Some n -> n <> NoStat /\ forall i, n <> Folder i None) ->
  (forall k i, Scan.find (sr_root sr) k = Some (Leaf i) -> 0 <= fi_Size i < 2 ^ 63) ->
  own <> 0 -> baselines hook cfgB w baseline -> sane (gives dec) P s0 -> bs_calm s0 ->
  (forall files dirs errs fe prev, scanSourceTree (scan_path cfgB) ex (sr_root sr) [] = Ok (files, dirs, errs) -> fe ∈ files -> baseline prev ->
     setting dec P (with_pol p own) fe (content fe) prev (PS s0 [] O [])) ->
  (forall files dirs errs prev m, scanSourceTree (scan_path cfgB) ex (sr_root sr) [] = Ok (files, dirs, errs) -> baseline prev ->
     quiet_uploads (with_pol p own) s0 files prev m (final prev) (upload own files prev m)) ->
  (forall files dirs errs prev, scanSourceTree (scan_path cfgB) ex (sr_root sr) [] = Ok (files, dirs, errs) -> baseline prev ->
     let m := final_manifest cfgB sr (upload own) files dirs errs prev in json_text m /\ blen (json_marshal m) <= MaxManifestDecompressedSize) ->
  wp (Backup.Run hook cfgB own sr upload) (fun x w' => exists res prev, x = Ok res /\ baseline prev /\ IsComplete (pr_Manifest res) = true /\
    forall cwd cfg room f r (rt : @rst S), rc_RepoRoot cfg = pc_RepoRoot cfgB -> RestoreRun.cloud_id cfg = run_cloud_id cfgB -> rc_Timestamp cfg = [] ->
      decryptor_of cfg = dec -> empty_target cwd cfg f r (started rt) -> r_store rt = cf_store (final prev) ->
    wp (RestoreRun.Run hook cwd cfg room) (fun y s' => y = Ok (tally (AllFiles (pr_Manifest res)) no_result) /\
      same_tree content (scan_path cfgB) ex (sr_root sr) (view (sw_fs (r_sw (s_rst s'))) r)) (Site w' rt)) w.
Proof.
  intros ex Hr Hwf Hport Hnm Hread Hsz Hown Hbase Hs Hcalm Hset Hup Hfit.
  eapply wp_mono; [by apply (wp_run_kept p baseline cfgB own sr w s0 final upload) |].
  intros x w' (res & prev & -> & Hp & Hcomp & Hsnap & _ & _ & Hc' & Hsaved & Hsane & _ & _ & Hst). exists res, prev. split; [done |]. split; [done |].
  split; [done |]. intros cwd cfg room f r rt Hroot Hcid Hts Hdec Het Hstore. destruct Hr as [_ _ _ [Hid _] [_ Hslash] Hname _ [Hrange Hclock] Hlate _].
  destruct (saved_newest _ _ Hid hook _ _ _ _ _ Hrange Hslash Hname Hsaved Hclock Hlate) as [Hnew Hone].
  assert (Edir : manifest_dir cfg = manifests_of cfgB) by (unfold manifest_dir, manifests_of; by rewrite Hroot, Hcid).
  apply (wp_restore_loaded cwd cfg room (pr_Manifest res) _ (fun t' => same_tree content (scan_path cfgB) ex (sr_root sr) (view (sw_fs (r_sw t')) r))).
  { apply wp_load_newest; [done | done | by rewrite Edir | by rewrite Edir]. }
  apply (wp_restore_snapshot (call_results report (with_pol p own) prev (final prev)) content (scan_path cfgB) ex (sr_root sr) (pc_AllowScanErrors cfgB) res cwd cfg room f r (started rt)); try done.
  intros fe o Ho. destruct (Hst fe o Ho) as [Hx _]. rewrite Hdec. cbn [started r_store]. rewrite Hstore. split; [apply Hx |]. split; [apply Hx |]. by eapply stored_content.
Qed.

(** C2: a tree that is backed up to a repository comes back from it, under
    conditions that the code needs: the repository is initialised (the record
    [ready]), nothing fails or is cancelled; every path of the source can be
    read and its files do not change meanwhile; no piece of content that is
    stored as a blob (a file below the chunk size, or a chunk) starts with the
    zstd magic number, and no two have the same hash; the key has 16, 24 or 32
    bytes and is the one that the restore and the registered manifest hook use,
    and the chunk size is at most 4 MiB; no name has a colon or a backslash,
    starts like a drive, or ends like a staging file (a dot, a UUID, .tmp);
    names, device and source are valid UTF-8, the device has no slash and no
    .alive., both identifiers are valid and the cloud one does not start with
    _sources, and the manifest is at most 256 MiB; what an earlier snapshot says
    of a file that looks unchanged is true, and it is of an earlier second.
    Then the run gets through with a complete snapshot, whether it starts from
    an earlier one or not and however its workers interleave; and a restore of
    the latest snapshot, from that repository and that store to an empty
    directory on which nothing interferes, finds this snapshot, succeeds and
    lays out the source tree: every file the rules keep, with its content, mode
    and time, every directory they keep, and nothing else. *)
Theorem cycle_restores_tree (p : pipe) (baseline : gmap bytes FileEntry -> Prop) (cfgB : PipelineConfig) (own : Z) (sr : surroundings) (w : world) (s0 : S) (final : gmap bytes FileEntry -> conf S) (upload : Z -> list scanEntry -> gmap bytes FileEntry -> Manifest -> shared) :
  let ex := loadExcludePatterns (sr_read sr) (pc_Excludes cfgB) (scan_path cfgB) in
  ready hook cfgB sr w -> well_formed (sr_root sr) -> portable (sr_root sr) -> restorable_names (sr_root sr) ->
  (forall k n, Scan.find (sr_root sr) k = Some n -> n <> NoStat /\ forall i, n <> Folder i None) ->
  (forall k i, Scan.find (sr_root sr) k = Some (Leaf i) -> 0 <= fi_Size i < 2 ^ 63) ->
  own <> 0 -> baselines hook cfgB w baseline -> sane (gives dec) P s0 -> bs_calm s0 ->
  (forall files dirs errs fe prev, scanSourceTree (scan_path cfgB) ex (sr_root sr) [] = Ok (files, dirs, errs) -> fe ∈ files -> baseline prev ->
     setting dec P (with_pol p own) fe (content fe) prev (PS s0 [] O [])) ->
  (forall files dirs errs prev m, scanSourceTree (scan_path cfgB) ex (sr_root sr) [] = Ok (files, dirs, errs) -> baseline prev ->
     quiet_uploads (with_pol p own) s0 files prev m (final prev) (upload own files prev m)) ->
  (forall files dirs errs prev, scanSourceTree (scan_path cfgB) ex (sr_root sr) [] = Ok (files, dirs, errs) -> baseline prev ->
     let m := final_manifest cfgB sr (upload own) files dirs errs prev in json_text m /\ blen (json_marshal m) <= MaxManifestDecompressedSize) ->
  wp (Backup.Run hook cfgB own sr upload) (fun x w' => exists res prev, x = Ok res /\ baseline prev /\ IsComplete (pr_Manifest res) = true /\
    forall cwd cfg room f r (rt : @rst S), rc_RepoRoot cfg = pc_RepoRoot cfgB -> RestoreRun.cloud_id cfg = run_cloud_id cfgB -> rc_Timestamp cfg = [] ->
      decryptor_of cfg = dec -> empty_target cwd cfg f r (started rt) -> r_store rt = cf_store (final prev) ->
    wp (RestoreRun.Run hook cwd cfg room) (fun y s' => y = Ok (tally (AllFiles (pr_Manifest res)) no_result) /\
      same_tree content (scan_path cfgB) ex (sr_root sr) (view (sw_fs (r_sw (s_rst s'))) r)) (Site w' rt)) w.
Proof. apply wp_cycle. Qed.
End Whole.

Module CycleWitness.
Import Toy CryptoWitness BlobWitness EndWitness WorkersWitness.
#[local] Existing Instances ew_reg ew_cfg ew_uuid ew_parse ew_format ew_walk ew_strerror ew_chunker ew_chunker_spec ew_source.

(** An encrypted repository without manifests, and the two racing workers. *)
Definition cfgC : PipelineConfig := MkPipelineConfig (go "/r") 1 [] (go "home") (go "/home/u") [] (go "dev1") key [go "tmp"] true false.
Definition aroundC : surroundings := Surroundings tree2 (fun _ => None) [] false 0 (go "2026-01-02T03:04:05Z") None ent.
Abbreviation exC := (loadExcludePatterns (sr_read aroundC) (pc_Excludes cfgC) (scan_path cfgC)).
Definition dirsC : list scanEntry := match scanSourceTree (scan_path cfgC) exC tree2 [] with Ok (_, dirs, _) => dirs | Err _ => [] end.
Definition snapC : Manifest := final_manifest cfgC aroundC (upload2 7) [fa; fb] dirsC 0 ∅.

#[local] Instance cw_json : Json := { json_marshal m := x7b :: FormatInt (m_SourceID m); json_unmarshal d := Some snapC; json_unmarshal_v1 d := None }.
#[local] Instance cw_json_spec : JsonSpec cw_json.
Proof. unshelve econstructor; [exact (fun m => m = snapC) | intros m ->; reflexivity | done]. Defined.

Definition hookC : option (bytes -> option bytes) := Some (key_hook key).

Lemma scanC : scanSourceTree (scan_path cfgC) exC tree2 [] = Ok ([fa; fb], dirsC, 0).
Proof. vm_compute. reflexivity. Qed.

Lemma readyC : ready hookC cfgC aroundC repo.
Proof.
  split.
  - split; reflexivity.
  - split; reflexivity.
  - eexists. split; [vm_compute; reflexivity | left; discriminate].
  - split; [vm_compute; reflexivity | by_decide].
  - split; [vm_compute; reflexivity | by_decide].
  - vm_compute. reflexivity.
  - right. split; [reflexivity | vm_compute; discriminate].
  - split; [vm_compute; split; discriminate | vm_compute; reflexivity].
  - intros c Hc. exfalso. assert (E : candidates_of (w_files repo) (manifests_of cfgC) = []) by (vm_compute; reflexivity). rewrite E in Hc. by apply elem_of_nil in Hc.
  - left. reflexivity.
Qed.

Lemma portable_check tree : well_formed tree -> forallb (fun k => is_ok (validateManifestDirKey (GoStr.Join s_slash k))) (tree_paths tree) = true -> portable tree.
Proof.
  intros Hwf E k n Hf Hk. pose proof (find_normal _ _ _ Hwf Hf) as Hn. apply find_tree_paths in Hf. rewrite forallb_forall in E. specialize (E k (proj1 (list_elem_of_In _ _) Hf)).
  destruct (validateManifestDirKey (GoStr.Join s_slash k)) as [[]|] eqn:Ev; [|discriminate E]. apply validateManifestDirKey_ok in Ev as [Ej | Hg].
  - exfalso. pose proof (Join_nil k Hn) as Hj. rewrite Ej, bool_decide_false in Hj; done.
  - unfold s_slash in Hg. rewrite Split_Join in Hg; [done | done |]. eapply Forall_impl; [exact Hn | by intros ? ?%normal_noslash].
Qed.

Lemma portableC : portable tree2.
Proof. apply portable_check; [exact tree2_ok | vm_compute; reflexivity]. Qed.

(** Everything in the tree can be read, and the sizes fit. *)
Definition node_fine (n : node) : bool :=
  match n with NoStat => false | Folder _ None => false | Leaf i => (0 <=? fi_Size i) && (fi_Size i <? 2 ^ 63) | _ => true end.
Definition tree_fine (tree : node) : bool := forallb (fun k => match Scan.find tree k with Some n => node_fine n | None => true end) (tree_paths tree).

Lemma fine_node tree k n : tree_fine tree = true -> Scan.find tree k = Some n -> node_fine n = true.
Proof.
  intros E Hf. pose proof Hf as Hin. apply find_tree_paths in Hin. unfold tree_fine in E. rewrite forallb_forall in E. specialize (E k (proj1 (list_elem_of_In _ _) Hin)). by rewrite Hf in E.
Qed.

Lemma fine_read tree k n : tree_fine tree = true -> Scan.find tree k = Some n -> n <> NoStat /\ forall i, n <> Folder i None.
Proof. intros E Hf%(fine_node tree k n E). split; [intros -> | intros i ->]; discriminate Hf. Qed.

Lemma fine_size tree k i : tree_fine tree = true -> Scan.find tree k = Some (Leaf i) -> 0 <= fi_Size i < 2 ^ 63.
Proof. intros E Hf%(fine_node tree k _ E). apply andb_true_iff in Hf as [H1 H2]. split; [by apply Z.leb_le | by apply Z.ltb_lt]. Qed.

Lemma fineC : tree_fine tree2 = true.
Proof. vm_compute. reflexivity. Qed.

Lemma quietC m : quiet_uploads report0 pipe7 store0 [fa; fb] ∅ m final2 (upload2 7 [fa; fb] ∅ m).
Proof.
  split; [exists begin2; split; [exact begin2_ok | split; [by repeat constructor | apply turns_reach]] |]. split; [|exact (proj2 (uploads2 m))].
  assert (E : forallb (fun tk => is_ok (so_far pipe7 ∅ tk).1) (cf_tasks final2) = true) by (vm_compute; reflexivity).
  intros i tk e Hi [_ He]. rewrite forallb_forall in E. specialize (E tk (proj1 (list_elem_of_In _ _) (list_elem_of_lookup_2 _ _ _ Hi))). rewrite He in E. discriminate E.
Qed.

Lemma cycle_restores_tree_witness : exists res w' s', Backup.Run hookC cfgC 7 aroundC upload2 repo = (Ok res, w') /\ IsComplete (pr_Manifest res) = true /\
  RestoreRun.Run hookC (go "/home/u") rcfg 100 (Site w' rt2) = (Ok (tally (AllFiles (pr_Manifest res)) no_result), s') /\
  same_tree (fun _ => msg) (scan_path cfgC) exC tree2 (view (sw_fs (r_sw (s_rst s'))) 1).
Proof.
  assert (Hset : forall files dirs errs fe prev, scanSourceTree (scan_path cfgC) exC tree2 [] = Ok (files, dirs, errs) -> fe ∈ files -> prev = ∅ ->
    setting (decryptor_of rcfg) [msg] pipe7 fe msg prev (PipeFile.PS store0 [] 0 [])).
  { intros files dirs errs fe prev E Hfe ->. rewrite scanC in E. apply ok_inv in E. injection E as E1 _ _. subst files. exact (setting2 fe Hfe). }
  assert (Hup : forall files dirs errs prev m, scanSourceTree (scan_path cfgC) exC tree2 [] = Ok (files, dirs, errs) -> prev = ∅ ->
    quiet_uploads report0 pipe7 store0 files prev m final2 (upload2 7 files prev m)).
  { intros files dirs errs prev m E ->. rewrite scanC in E. apply ok_inv in E. injection E as E1 _ _. subst files. exact (quietC m). }
  assert (Hfit : forall files dirs errs prev, scanSourceTree (scan_path cfgC) exC tree2 [] = Ok (files, dirs, errs) -> prev = ∅ ->
    let m := final_manifest cfgC aroundC (upload2 7) files dirs errs prev in json_text m /\ blen (json_marshal m) <= MaxManifestDecompressedSize).
  { intros files dirs errs prev E ->. rewrite scanC in E. apply ok_inv in E. injection E as E1 E2 E3. subst files dirs errs. split; [reflexivity | vm_compute; discriminate]. }
  pose proof (cycle_restores_tree hookC report0 (decryptor_of rcfg) [msg] (fun _ => msg) pipe0 (fun prev => prev = ∅) cfgC 7 aroundC repo store0 (fun _ => final2) upload2
    readyC tree2_ok portableC names2) as H. cbv zeta in H.
  specialize (H (fun k n => fine_read tree2 k n fineC) (fun k i => fine_size tree2 k i fineC) ltac:(discriminate) (full_baseline hookC cfgC repo eq_refl) sane2 ltac:(vm_compute; split; reflexivity) Hset Hup Hfit). unfold wp at 1 in H.
  destruct (Backup.Run hookC cfgC 7 aroundC upload2 repo) as [x w']. cbn [fst snd] in H. destruct H as (res & prev & -> & -> & Hcomp & H).
  specialize (H (go "/home/u") rcfg 100 blank 1%nat rt2 eq_refl eq_refl eq_refl eq_refl empty2 eq_refl). unfold wp in H.
  destruct (RestoreRun.Run _ _ _ _ (Site w' rt2)) as [y s'] eqn:Er. cbn [fst snd] in H. destruct H as [-> Hsame]. exists res, w', s'. split; [reflexivity |]. split; [exact Hcomp |]. split; [exact Er | exact Hsame].
Defined.
End CycleWitness.
