(* ===== verification/History.v ===== *)
(** History: a repository over time.  The backups of a source that a repository
    takes one after the other, each of the source tree as it is then, full or
    incremental; whatever others do meanwhile to the rest of the repository and
    of the store; the removal of backups, and of blobs that no backup needs any
    more; and the restore of any backup that is left. *)

From S2P Require Import Prelude GoStr Ignore Externs Compress Crypto Stream FS BlobStore LocalStore Blob BlobLocal Manifest CloudID ManifestIO Collect RestorePath SecureDir Restore RestoreTree PipeFile PipeLocal Interleave Scan Pool Registry Trash Config RestoreRun Backup EndToEnd EndWorkers Incremental Cycle.
From stdpp Require Import base list gmap strings sorting.
From Stdlib.Strings Require Import Byte.
Local Open Scope Z_scope.

(** A backup that was taken: its configuration, what surrounded it, the
    contents of the files then, and the manifest it returned. *)
Record past := Past { ps_cfg : PipelineConfig; ps_sr : surroundings; ps_content : scanEntry -> bytes; ps_manifest : Manifest }.

Definition ps_ex (x : past) : excludes := loadExcludePatterns (sr_read (ps_sr x)) (pc_Excludes (ps_cfg x)) (scan_path (ps_cfg x)).

(** The files that the next run takes as its baseline; the latest backup is the
    first of the list. *)
Definition starts_from (cfg : PipelineConfig) (h : list past) : gmap bytes FileEntry :=
  if pc_ForceFull cfg then ∅ else match h with [] => ∅ | x :: _ => BuildFileMap (ps_manifest x) end.

Section History.
Context `{AE : AEAD, ZS : Zstd, SH : Sha256, HK : Hkdf} `{AES : !AEADSpec AE, ZSS : !ZstdSpec ZS, SHS : !Sha256Spec SH, HKS : !HkdfSpec HK}.
Context `{J : Json, RJ : RegJson, CJ : CfgJson} `{JS : !JsonSpec J} `{L : LiteJson} `{LS : !LiteJsonSpec J L} `{MO : Mounts}.
Context `{WK : Walk} `{U : Uuid} `{RF : Rfc3339} `{RFF : Rfc3339Format} `{SE : Strerror} `{CK : Chunker} `{CKS : !ChunkerSpec CK}.
Context {S : Type} `{B : BlobStore S, SV : StoreView S, BS : !BlobStoreSpec S} `{BE : BatchExistencer S, BES : !BatchSpec S}.
Context (hook : option (bytes -> option bytes)) (report : ferr -> option (option Z) * bytes) (dec : Decryptor) (P : list bytes).
Context (p : pipe) (own : Z) (root cloud : bytes).

Abbreviation mdir := (ManifestDir (MetaDir root) cloud).
Abbreviation pipe_now := (with_pol p own).

Definition ps_name (x : past) : bytes := file_name (second (ps_sr x)) (pc_DeviceID (ps_cfg x)).

(** The backups that are not of this time and device. *)
Definition without (ts dev : bytes) (h : list past) : list past := filter (fun x => ~ is_it ts dev (ps_manifest x)) h.

(** ** What happens to a repository *)

(** A run of the source can come next: it is ready, everything in the tree can
    be read, its files do not change meanwhile, what looks as in the latest
    backup is as it was then, and the uploads are undisturbed. *)
Record next (SF : SourceFS) (cfg : PipelineConfig) (sr : surroundings) (content : scanEntry -> bytes) (final : conf S)
    (upload : Z -> list scanEntry -> gmap bytes FileEntry -> Manifest -> shared) (w : world) (s : S) (h : list past) : Prop := {
  nx_place : pc_RepoRoot cfg = root /\ run_cloud_id cfg = cloud;
  nx_own : own <> 0;
  nx_ready : ready hook cfg sr w;
  nx_tree : well_formed (sr_root sr) /\ portable (sr_root sr) /\ restorable_names (sr_root sr);
  nx_read : forall k n, Scan.find (sr_root sr) k = Some n -> n <> NoStat /\ forall i, n <> Folder i None;
  nx_size : forall k i, Scan.find (sr_root sr) k = Some (Leaf i) -> 0 <= fi_Size i < 2 ^ 63;
  nx_files : forall files dirs errs fe, scanSourceTree (scan_path cfg) (loadExcludePatterns (sr_read sr) (pc_Excludes cfg) (scan_path cfg)) (sr_root sr) [] = Ok (files, dirs, errs) ->
    fe ∈ files -> setting dec P pipe_now fe (content fe) ∅ (PS s [] O []) /\ forall x, head h = Some x -> faithful (ps_content x) fe (content fe);
  nx_uploads : forall files dirs errs m, scanSourceTree (scan_path cfg) (loadExcludePatterns (sr_read sr) (pc_Excludes cfg) (scan_path cfg)) (sr_root sr) [] = Ok (files, dirs, errs) ->
    quiet_uploads report pipe_now s files (starts_from cfg h) m final (upload own files (starts_from cfg h) m);
  nx_fits : forall files dirs errs, scanSourceTree (scan_path cfg) (loadExcludePatterns (sr_read sr) (pc_Excludes cfg) (scan_path cfg)) (sr_root sr) [] = Ok (files, dirs, errs) ->
    let m := final_manifest cfg sr (upload own) files dirs errs (starts_from cfg h) in json_text m /\ blen (json_marshal m) <= MaxManifestDecompressedSize
}.

(** The repository and the store after the backups [h] of the source: none at
    first; others may do anything that leaves the source's manifests alone and
    takes no blob away; a run adds its backup; a backup may be deleted or
    trashed by its time and device, or all of them; and once the live hashes
    have been collected, blobs that are not among them may be taken away. *)
Inductive history : world -> S -> list past -> Prop :=
| hist_start w s : validateCloudID cloud = None -> calm w -> sane (gives dec) P s -> bs_calm s ->
    (forall n, isManifestFile n = true -> w_files w !! (mdir ++ slash :: n) = None) -> history w s []
| hist_other w s h w' s' : history w s h -> calm w' -> sane (gives dec) P s' -> bs_calm s' -> extends P s s' ->
    (forall n, isManifestFile n = true -> w_files w' !! (mdir ++ slash :: n) = w_files w !! (mdir ++ slash :: n)) -> history w' s' h
| hist_run SF cfg sr content final upload w s h res w' : history w s h -> next SF cfg sr content final upload w s h ->
    Backup.Run hook cfg own sr upload w = (Ok res, w') -> history w' (cf_store final) (Past cfg sr content (pr_Manifest res) :: h)
| hist_remove ts dev trash w s h r w' : history w s h -> is_Some (parse_rfc3339 ts) ->
    deleteOrTrashManifest hook (MetaDir root) cloud ts dev trash w = (r, w') -> history w' s (without ts dev h)
| hist_remove_all trash w s h r w' : history w s h -> deleteOrTrashAllManifests (MetaDir root) cloud trash w = (r, w') -> history w' s []
| hist_collect w s h alive errs w' s' : history w s h -> CollectAliveHashesStreaming hook (MetaDir root) cloud w = (Ok (alive, errs), w') ->
    sane (gives dec) P s' -> bs_calm s' -> (forall k, k ∈ alive -> present s k -> present s' k) -> history w' s' h.

(** The restore asks for [x]: by a time stamp, or for the latest. *)
Definition asks_for (cfg : RestoreConfig) (h : list past) (x : past) : Prop :=
  (rc_Timestamp cfg = [] /\ head h = Some x) \/
  (rc_Timestamp cfg <> [] /\ x ∈ h /\ exists t, parse_rfc3339 (rc_Timestamp cfg) = Some t /\ unix t = second (ps_sr x)).

(** ** The invariant *)

(** What is kept of a backup. *)
Record keeps (w : world) (s : S) (x : past) : Prop := {
  kp_file : exists d t, w_files w !! (mdir ++ slash :: ps_name x) = Some (File d t) /\ isGBREnvelope d = true /\ LoadManifestFromData hook d = Ok (ps_manifest x);
  kp_snapshot : exists l allow res, ps_manifest x = pr_Manifest res /\
    snapshot_of (fun fe r => (fe, r) ∈ l) (scan_path (ps_cfg x)) (ps_ex x) (sr_root (ps_sr x)) allow res /\
    AllFiles (ps_manifest x) ≡ₚ (fun fr => listed_as (entry_of fr)) <$> l /\ forall fe o, (fe, Processed o) ∈ l -> stored P pipe_now (ps_content x) s fe o;
  kp_complete : IsComplete (ps_manifest x) = true;
  kp_errors : s_ScanErrors (m_Stats (ps_manifest x)) = 0;
  kp_tree : well_formed (sr_root (ps_sr x)) /\ restorable_names (sr_root (ps_sr x));
  kp_stamp : m_Timestamp (ps_manifest x) = sr_stamp (ps_sr x);
  kp_second : MinInt64 <= second (ps_sr x) <= MaxInt64;
  kp_clock : parse_rfc3339 (format_rfc3339 (second (ps_sr x))) = Some (second (ps_sr x) * 10 ^ 9);
  kp_name : (slash ∉ pc_DeviceID (ps_cfg x)) /\ Contains (ps_name x) (go ".alive.") = false;
  kp_recorded : Forall (recorded P (echunkSize (pp_enc p)) (ps_content x)) (AllFiles (ps_manifest x))
}.

Record intact (w : world) (s : S) (h : list past) : Prop := {
  in_cloud : validateCloudID cloud = None;
  in_calm : calm w /\ bs_calm s;
  in_sane : sane (gives dec) P s;
  in_kept : Forall (keeps w s) h;
  in_only : forall n, normal n -> isManifestFile n = true -> is_Some (w_files w !! (mdir ++ slash :: n)) -> exists x, x ∈ h /\ n = ps_name x;
  in_order : StronglySorted (fun x y => second (ps_sr y) < second (ps_sr x)) h
}.

(** A stored file of the snapshot is among what its manifest references. *)
Lemma listed_refs m (l : list (scanEntry * presult)) fr k : AllFiles m ≡ₚ (fun fr => listed_as (entry_of fr)) <$> l -> fr ∈ l ->
  k ∈ checked (entry_of fr) (f_ContentHash (entry_of fr)) -> k <> [] -> k ∈ refs m.
Proof.
  intros Hall Hfr Hk Hne. assert (Hin : listed_as (entry_of fr) ∈ AllFiles m) by (rewrite Hall; by apply (list_elem_of_fmap_2 (fun fr => listed_as (entry_of fr)))).
  rewrite AllFiles_flat in Hin. apply list_elem_of_bind in Hin as ([d dir] & (f & E%list_elem_of_singleton & Hf)%list_elem_of_bind & Hd).
  apply elem_of_refs. split; [|done]. apply list_elem_of_bind. exists (d, dir). split; [|done]. apply list_elem_of_bind. exists f. split; [|done].
  pose proof (f_equal f_ContentHash E) as E1. pose proof (f_equal f_Chunks E) as E2. unfold listed_as in E1, E2. cbn [f_ContentHash f_Chunks set_name] in E1, E2. unfold checked in Hk. unfold file_hashes. rewrite <- E1, <- E2.
  destruct (f_Chunks (entry_of fr)); [|done]. destruct (eqs _ _) eqn:Ee; [|done]. apply eqs_true in Ee. apply list_elem_of_singleton in Hk. congruence.
Qed.

Lemma stored_needs s s' content (fe : scanEntry) (o : outcome) : stored P pipe_now content s fe o ->
  (forall k, k ∈ checked (o.1.1.1) (f_ContentHash (o.1.1.1)) -> present s k -> present s' k) -> stored P pipe_now content s' fe o.
Proof.
  intros (H1 & H2 & H3 & H4 & H5) Hx. do 3 (split; [done |]). split; [|done]. rewrite Forall_forall in H4. apply Forall_forall. intros k Hk. apply Hx; [done | by apply H4].
Qed.

(** A backup is kept as long as its manifest file is as it was and the blobs it
    references are there. *)
Lemma keeps_on w s w' s' x : w_files w' !! (mdir ++ slash :: ps_name x) = w_files w !! (mdir ++ slash :: ps_name x) ->
  (forall k, k ∈ refs (ps_manifest x) -> present s k -> present s' k) -> keeps w s x -> keeps w' s' x.
Proof.
  intros Hf Hx [Hk (l & allow & res & Em & Hs & Hall & Ho) H3 H4 H5 H6 H7 H8 H9 H10]. split; try done; [by rewrite Hf |].
  exists l, allow, res. split; [done |]. split; [done |]. split; [done |]. intros fe o Hfe. eapply stored_needs; [by apply Ho |]. intros k Hk' Hp. apply Hx; [|done].
  eapply (listed_refs _ l (fe, Processed o)); [exact Hall | done | done |]. intros ->. by destruct Hp as [Hp _].
Qed.

Lemma kept_name w s x : keeps w s x -> normal (ps_name x) /\ isManifestFile (ps_name x) = true.
Proof. intros []. unfold ps_name in *. destruct kp_name0. split; [by apply file_name_normal | by apply file_name_manifest]. Qed.

Lemma sorted_sublist (R : past -> past -> Prop) h h' : h' `sublist_of` h -> StronglySorted R h -> StronglySorted R h'.
Proof.
  induction 1 as [|x h' h Hs IH|x h' h _ IH]; [done | |]; intros [H1 H2]%StronglySorted_inv; [|by apply IH]. constructor; [by apply IH |].
  rewrite Forall_forall in H2. apply Forall_forall. intros y Hy. apply H2. by eapply elem_of_sublist.
Qed.

(** What is left of an intact repository is intact. *)
Lemma intact_less w s h w' s' h' : intact w s h -> calm w' -> sane (gives dec) P s' -> bs_calm s' -> h' `sublist_of` h ->
  (forall x k, x ∈ h' -> k ∈ refs (ps_manifest x) -> present s k -> present s' k) ->
  (forall x, x ∈ h' -> w_files w' !! (mdir ++ slash :: ps_name x) = w_files w !! (mdir ++ slash :: ps_name x)) ->
  (forall n, normal n -> isManifestFile n = true -> is_Some (w_files w' !! (mdir ++ slash :: n)) -> exists x, x ∈ h' /\ n = ps_name x) -> intact w' s' h'.
Proof.
  intros [H1 _ _ H4 H5 H6] Hc Hs Hcs Hsub Hx Hf Ho. split; try done; [|by eapply sorted_sublist]. rewrite Forall_forall in H4. apply Forall_forall. intros x Hin.
  apply (keeps_on w s); [by apply Hf | intros k; by apply Hx |]. apply H4. by eapply elem_of_sublist.
Qed.

Lemma intact_other w s h w' s' : intact w s h -> calm w' -> sane (gives dec) P s' -> bs_calm s' -> extends P s s' ->
  (forall n, isManifestFile n = true -> w_files w' !! (mdir ++ slash :: n) = w_files w !! (mdir ++ slash :: n)) -> intact w' s' h.
Proof.
  intros Hin Hc Hs Hcs [Hx _] Hf. apply (intact_less w s h); try done.
  - intros x k _ _. apply Hx.
  - intros x Hxh. apply Hf. eapply kept_name, (proj1 (Forall_forall _ _) (in_kept _ _ _ Hin)), Hxh.
  - intros n Hn Hm. rewrite Hf by done. by apply (in_only _ _ _ Hin).
Qed.

Lemma in_second h x y : StronglySorted (fun x y => second (ps_sr y) < second (ps_sr x)) h -> x ∈ h -> y ∈ h -> second (ps_sr x) = second (ps_sr y) -> x = y.
Proof.
  induction 1 as [|z h _ IH Hz]; [by intros ?%elem_of_nil |]. rewrite Forall_forall in Hz.
  intros [-> | Hx]%elem_of_cons [-> | Hy]%elem_of_cons E; [done | | | by apply IH]; [specialize (Hz y Hy) | specialize (Hz x Hx)]; lia.
Qed.

Lemma join_mdir n : validateCloudID cloud = None -> normal n -> FpJoin [mdir; n] = mdir ++ slash :: n.
Proof. intros Hid Hn. exact (join_src (MetaDir root) cloud Hid n Hn). Qed.

Lemma kept_loads w s x : validateCloudID cloud = None -> keeps w s x -> load_file hook (w_files w) (FpJoin [mdir; ps_name x]) = Ok (ps_manifest x).
Proof.
  intros Hid Hk. destruct (kept_name w s x Hk) as [Hn _]. destruct (kp_file _ _ _ Hk) as (d & t & Hf & Hg & Hl).
  unfold load_file. rewrite join_mdir, Hf by done. cbn [f_data]. by rewrite Hg.
Qed.

(** The candidates are the manifests of the backups. *)
Lemma intact_candidates w s h files c : intact w s h -> (forall n, is_Some (files !! (mdir ++ slash :: n)) -> is_Some (w_files w !! (mdir ++ slash :: n))) ->
  c ∈ candidates_of files mdir -> is_Some (files !! (mdir ++ slash :: ca_name c)) /\ exists x, x ∈ h /\ ca_name c = ps_name x /\ ca_unix c = second (ps_sr x).
Proof.
  intros [Hid _ _ Hk Ho _] Hsub (n & f & Hn & Hm & Hf & Hc)%(candidates_elem _ _ Hid). destruct (Ho n Hn Hm) as (x & Hx & ->); [by apply Hsub; exists f |].
  rewrite Forall_forall in Hk. pose proof (Hk x Hx) as [_ _ _ _ _ _ Hr Hcl _ _]. unfold cand_of in Hc.
  rewrite (parse_file_name _ (pc_DeviceID (ps_cfg x)) Hr : ParseManifestFilenameTimestamp (ps_name x) = _) in Hc. cbn [mbind option_bind] in Hc. rewrite Hcl in Hc.
  injection Hc as <-. cbn [ca_name ca_unix]. split; [by exists f |]. exists x. split; [done |]. split; [done |]. unfold unix. by rewrite Z.div_mul.
Qed.

(** The latest backup has the newest manifest. *)
Lemma intact_newest w s x h : intact w s (x :: h) -> newest hook (w_files w) mdir (ps_manifest x) /\ forall m, newest hook (w_files w) mdir m -> m = ps_manifest x.
Proof.
  intros Hin. pose proof Hin as [Hid _ _ Hk Ho Hs]. apply Forall_cons in Hk as [Hx _]. apply StronglySorted_inv in Hs as [_ Hs]. rewrite Forall_forall in Hs.
  pose proof Hx as [Hf _ _ _ _ _ Hr Hcl [Hd Ha] _]. set (files := delete (mdir ++ slash :: ps_name x) (w_files w)).
  apply (saved_newest (MetaDir root) cloud Hid hook files (w_files w) (second (ps_sr x)) (pc_DeviceID (ps_cfg x))); try done.
  - split; [done |]. intros q _ _ Hne. unfold files. rewrite lookup_delete_ne; [done |]. intros E%app_inv_head. injection E as E. by apply Hne.
  - intros c Hc. destruct (intact_candidates w s (x :: h) files c Hin) as ([f Hlk] & y & Hy & En & ->); [|done |].
    + intros n [f Hlk]. unfold files in Hlk. apply lookup_delete_Some in Hlk as [_ Hlk]. by exists f.
    + apply elem_of_cons in Hy as [-> | Hy]; [|by apply Hs]. unfold files in Hlk. rewrite En, lookup_delete_eq in Hlk. done.
Qed.

(** What the next run starts from. *)
Lemma intact_baseline w s h cfg : intact w s h -> pc_RepoRoot cfg = root -> run_cloud_id cfg = cloud -> baselines hook cfg w (fun prev => prev = starts_from cfg h).
Proof.
  intros Hin Hroot Hcl w1 [Hfr Hc1]. pose proof Hin as [Hid [Hc Hcs] Hsane _ _ _]. specialize (Hc1 Hc). rewrite Hroot, Hcl. unfold loadPreviousFiles, starts_from.
  destruct (pc_ForceFull cfg); [wp_step; by intros prev ->%ok_inv |].
  assert (Hin1 : intact w1 s h).
  { apply (intact_other w s h); try done. intros n _. apply Hfr. rewrite Hroot. by apply config_apart. }
  do 2 wp_step. eapply wp_mono; [by apply wp_LoadLatest |]. intros r w2 [_ Hr]. cbn beta iota.
  destruct h as [|x h].
  - assert (Hno : forall c, c ∉ candidates_of (w_files w1) mdir).
    { intros c Hx. by destruct (intact_candidates w1 s [] (w_files w1) c Hin1 ltac:(auto) Hx) as (_ & y & ?%elem_of_nil & _). }
    destruct r as [m|e]; [by destruct Hr as (c & Hx & _); destruct (Hno c Hx) |]. destruct e; wp_step; try done. by intros prev ->%ok_inv.
  - destruct (intact_newest w1 s x h Hin1) as [Hn Hu]. destruct r as [m|e].
    + rewrite (Hu m Hr). pose proof (in_kept _ _ _ Hin) as [Hx _]%Forall_cons. rewrite (kp_errors _ _ _ Hx). change (0 <? 0) with false. cbv iota. wp_step. by intros prev ->%ok_inv.
    + destruct e; wp_step; try done. destruct Hn as (c & Hx & _). rewrite Hr in Hx. by apply elem_of_nil in Hx.
Qed.

(** ** A run *)

(** The entries of a snapshot whose files are stored may serve a later run. *)
Lemma snapshot_recorded (outs : scanEntry -> presult -> Prop) scanPath ex tree allow res content s : well_formed tree -> snapshot_of outs scanPath ex tree allow res ->
  (forall fe o, outs fe (Processed o) -> stored P pipe_now content s fe o /\ se_size fe = blen (content fe)) ->
  Forall (recorded P (echunkSize (pp_enc p)) content) (AllFiles (pr_Manifest res)).
Proof.
  intros Hwf (files & dirs & errs & l & Hsc & Hl & Ho & _ & Hall & _) Hst. rewrite Hall, Forall_fmap. apply Forall_forall. intros fr Hfr. rewrite Forall_forall in Ho.
  specialize (Ho fr Hfr). destruct fr as [fe [o | pe tx]]; cbn [fst snd] in Ho; [|by left]. destruct (Hst fe o Ho) as [((Hn & Hz & Ht & _) & _ & Hd & _ & Hw) Hsz].
  right. exists fe. assert (Hfe : fe ∈ files) by (rewrite <- Hl; apply list_elem_of_fmap; by exists (fe, Processed o)).
  apply (proj1 Hsc) in Hfe as (k & i & Hf & _ & Hk & ->). assert (Hne : k <> []) by (by destruct k).
  split; [by apply listed_name; [| eapply find_normal |] |]. done.
Qed.

(** A snapshot has the entries of the calls it took in. *)
Lemma snapshot_listed outs scanPath ex tree allow res : snapshot_of outs scanPath ex tree allow res -> exists l,
  snapshot_of (fun fe r => (fe, r) ∈ l) scanPath ex tree allow res /\ AllFiles (pr_Manifest res) ≡ₚ (fun fr => listed_as (entry_of fr)) <$> l /\ Forall (fun fr => outs fr.1 fr.2) l.
Proof.
  intros (files & dirs & errs & l & Hsc & Hl & Ho & Herr & Hall & Hrest). exists l. split; [|done]. exists files, dirs, errs, l. split; [done |]. split; [done |].
  split; [|done]. apply Forall_forall. by intros [fe r].
Qed.

Lemma intact_run (SF : SourceFS) cfg sr content final upload w s h : intact w s h -> next SF cfg sr content final upload w s h ->
  wp (Backup.Run hook cfg own sr upload) (fun y w' => exists res, y = Ok res /\ IsComplete (pr_Manifest res) = true /\
    intact w' (cf_store final) (Past cfg sr content (pr_Manifest res) :: h)) w.
Proof.
  intros Hin [[Hroot Hcl] Hown Hready (Hwf & Hport & Hnm) Hread Hsize Hfiles Hup Hfit]. pose proof Hin as [Hid [Hc Hcs] Hsane Hk Honly Hord].
  eapply wp_mono; [apply (wp_run_kept hook report dec P content p (fun prev => prev = starts_from cfg h) cfg own sr w s (fun _ => final) upload); try done |].
  - by eapply intact_baseline.
  - intros files dirs errs fe prev Escan Hfe ->. destruct (Hfiles files dirs errs fe Escan Hfe) as [Hset Hfaith].
    unfold starts_from. destruct (pc_ForceFull cfg); [done |]. destruct h as [|x h]; [done |]. apply Forall_cons in Hk as [Hx _].
    apply (recorded_setting dec P pipe_now fe (content fe) (ps_content x)); [done | by apply Hfaith |].
    intros q pf [Hpf Hq]%BuildFileMap_lookup. split; [done |]. by eapply (proj1 (Forall_forall _ _) (kp_recorded _ _ _ Hx)).
  - intros files dirs errs prev m Escan ->. by eapply Hup.
  - intros files dirs errs prev Escan ->. by eapply Hfit.
  - intros y w' (res & prev & -> & _ & Hcomp & Hsnap & Herr & Hhead & Hc' & Hsaved & Hsane' & Hcs' & Hext & Hst). exists res. split; [done |]. split; [done |].
    rewrite Hroot, Hcl in Hsaved. destruct Hsaved as [Hfile Hoth]. destruct Hready as [_ _ _ _ [_ Hslash] Hname _ [Hrange Hclock] Hlate _]. unfold manifests_of in Hlate. rewrite Hroot, Hcl in Hlate.
    assert (Hold : forall x, x ∈ h -> second (ps_sr x) < second sr).
    { intros x Hx. rewrite Forall_forall in Hk. specialize (Hk x Hx). destruct (kept_name _ _ _ Hk) as [Hn Hm]. destruct (kp_file _ _ _ Hk) as (d & t & Hf & _).
      apply (Hlate (MkCand (ps_name x) (second (ps_sr x)) t)). apply (candidates_elem _ _ Hid). exists (ps_name x), (File d t). split; [done |]. split; [done |]. split; [done |].
      unfold cand_of. rewrite (parse_file_name _ (pc_DeviceID (ps_cfg x)) (kp_second _ _ _ Hk) : ParseManifestFilenameTimestamp (ps_name x) = _). cbn [mbind option_bind].
      rewrite (kp_clock _ _ _ Hk), join_mdir, Hf by done. unfold unix. by rewrite Z.div_mul. }
    assert (Hne : forall x, x ∈ h -> ps_name x <> file_name (second sr) (pc_DeviceID cfg)).
    { intros x Hx E. specialize (Hold x Hx). rewrite Forall_forall in Hk. specialize (Hk x Hx).
      pose proof (parse_file_name _ (pc_DeviceID (ps_cfg x)) (kp_second _ _ _ Hk)) as E1. fold (ps_name x) in E1. rewrite E, parse_file_name in E1 by done. injection E1 as E1.
      pose proof (kp_clock _ _ _ Hk) as E2. rewrite <- E1, Hclock in E2. injection E2 as E2. lia. }
    split; [done | done | done | | |].
    + constructor; [split; try done|].
      * destruct (snapshot_listed _ _ _ _ _ _ Hsnap) as (l & Hl & Hall & Ho). exists l, (pc_AllowScanErrors cfg), res. split; [done |]. split; [done |]. split; [done |].
        rewrite Forall_forall in Ho. intros fe o Hfe. by apply Hst, (Ho (fe, Processed o)).
      * by injection Hhead as _ _ Hts _.
      * by eapply snapshot_recorded.
      * apply Forall_forall. intros x Hx. rewrite Forall_forall in Hk. specialize (Hk x Hx). destruct (kept_name _ _ _ Hk) as [Hn Hm].
        eapply keeps_on; [| |exact Hk]; [apply Hoth; [done | done | by apply Hne] | intros k _; apply Hext].
    + intros n Hn Hm Hf. destruct (decide (n = file_name (second sr) (pc_DeviceID cfg))) as [-> | Hx]; [eexists; split; [by left | done] |].
      rewrite Hoth in Hf by done. destruct (Honly n Hn Hm Hf) as (x & Hin' & ->). exists x. split; [by right | done].
    + constructor; [done |]. apply Forall_forall. intros x Hx. by apply Hold.
Qed.

(** ** Removing backups and blobs *)

(** The manifests of the source are those of its backups. *)
Lemma intact_names w s h n : intact w s h -> n ∈ manifest_names (MetaDir root) cloud (w_files w) <-> exists x, x ∈ h /\ n = ps_name x.
Proof.
  intros Hin. pose proof Hin as [Hid _ _ Hk Ho _]. rewrite Forall_forall in Hk. unfold manifest_names. rewrite (manifest_files_elem _ _ Hid). split.
  - intros (Hn & Hm & Hf). by apply Ho.
  - intros (x & Hx & ->). destruct (kept_name _ _ _ (Hk x Hx)) as [Hn Hm]. destruct (kp_file _ _ _ (Hk x Hx)) as (d & t & Hf & _). split_and!; [done | done | by eexists].
Qed.

Lemma intact_load w s h x : intact w s h -> x ∈ h -> load_named hook (MetaDir root) cloud (w_files w) (ps_name x) = Ok (ps_manifest x).
Proof. intros Hin Hx. eapply kept_loads; [apply Hin | eapply (proj1 (Forall_forall _ _) (in_kept _ _ _ Hin)), Hx]. Qed.

Lemma same_time h w s x y ts : intact w s h -> is_Some (parse_rfc3339 ts) -> x ∈ h -> y ∈ h -> m_Timestamp (ps_manifest x) = ts -> m_Timestamp (ps_manifest y) = ts -> x = y.
Proof.
  intros Hin [t Ht] Hx Hy E1 E2. pose proof (in_kept _ _ _ Hin) as Hk. rewrite Forall_forall in Hk. apply (in_second h); [apply Hin | done | done |].
  unfold second. by rewrite <- (kp_stamp _ _ _ (Hk x Hx)), <- (kp_stamp _ _ _ (Hk y Hy)), E1, E2, Ht.
Qed.

(** Files of the source's manifests go, and the backups they are of. *)
Lemma intact_gone w s h w' ns h' : intact w s h -> calm w' -> gone_only (MetaDir root) cloud ns w w' -> h' `sublist_of` h ->
  (forall x, x ∈ h -> x ∈ h' <-> ps_name x ∉ ns) -> intact w' s h'.
Proof.
  intros Hin Hc Hg Hsub Hns.
  change (forall k, isManifestFile k = true -> (k ∈ ns -> w_files w' !! (mdir ++ slash :: k) = None) /\ (k ∉ ns -> w_files w' !! (mdir ++ slash :: k) = w_files w !! (mdir ++ slash :: k))) in Hg.
  pose proof Hin as [Hid [_ Hcs] Hs Hk Ho _]. rewrite Forall_forall in Hk. apply (intact_less w s h); try done.
  - intros x Hx. pose proof (elem_of_sublist _ _ _ Hx Hsub) as Hxh. destruct (kept_name _ _ _ (Hk x Hxh)) as [_ Hm]. apply (Hg _ Hm). by apply Hns.
  - intros n Hn Hm Hf. destruct (decide (n ∈ ns)) as [Hd | Hd].
    + rewrite (proj1 (Hg n Hm) Hd) in Hf. by destruct Hf.
    + rewrite (proj2 (Hg n Hm) Hd) in Hf. destruct (Ho n Hn Hm Hf) as (x & Hx & ->). exists x. split; [by apply Hns | done].
Qed.

Lemma intact_remove w s h ts dev trash : intact w s h -> is_Some (parse_rfc3339 ts) ->
  wp (deleteOrTrashManifest hook (MetaDir root) cloud ts dev trash) (fun _ w' => intact w' s (without ts dev h)) w.
Proof.
  intros Hin Hts. pose proof Hin as [Hid [Hc _] _ _ _ _]. eapply wp_mono; [by apply (wp_take_one _ _ Hid hook) |]. intros r w' [Hc' H]. unfold without.
  destruct H as [(n & m & (pre & post & En & Hl & Him & _) & Hg) | [Hno Hg]].
  - assert (Hn : n ∈ manifest_names (MetaDir root) cloud (w_files w)) by (rewrite En; set_solver). apply (intact_names _ _ _ _ Hin) in Hn as (y & Hy & ->).
    rewrite (intact_load _ _ _ _ Hin Hy) in Hl. injection Hl as <-. eapply (intact_gone w s h w' [ps_name y]); [done | done | done | apply sublist_filter |].
    intros x Hx. rewrite list_elem_of_filter, not_elem_of_cons. split.
    + intros [Hi _]. split; [|apply not_elem_of_nil]. intros E. apply Hi. pose proof (intact_load _ _ _ _ Hin Hx) as E1. rewrite E, (intact_load _ _ _ _ Hin Hy) in E1. by injection E1 as <-.
    + intros [Hne _]. split; [|done]. intros [Hi _]. apply Hne. f_equal. by eapply same_time; [done | exact Hts | done | done | done | apply Him].
  - eapply (intact_gone w s h w' []); [done | done | done | apply sublist_filter |]. intros x Hx. rewrite list_elem_of_filter. split; [intros _; apply not_elem_of_nil |]. intros _. split; [|done].
    apply (Hno (ps_name x)); [apply (intact_names _ _ _ _ Hin); by exists x | by eapply intact_load].
Qed.

Lemma intact_remove_all w s h trash : intact w s h -> wp (deleteOrTrashAllManifests (MetaDir root) cloud trash) (fun _ w' => intact w' s []) w.
Proof.
  intros Hin. pose proof Hin as [Hid [Hc _] _ _ _ _]. eapply wp_mono; [by apply (wp_take_all _ _ Hid) |]. intros r w' [Hc' Hg].
  eapply (intact_gone w s h); [done | done | done | apply sublist_nil_l |]. intros x Hx. split; [by intros ?%elem_of_nil |]. intros Hn. destruct Hn. apply (intact_names _ _ _ _ Hin). by exists x.
Qed.

(** What the backups reference is among the live hashes. *)
Lemma intact_collect w s h : intact w s h ->
  wp (CollectAliveHashesStreaming hook (MetaDir root) cloud) (fun r w' => same w w' /\ forall alive errs x, r = Ok (alive, errs) -> x ∈ h -> refs (ps_manifest x) ⊆ alive) w.
Proof.
  intros Hin. eapply wp_mono; [apply wp_live_hashes |]. intros r w' (Hs & _ & H). split; [done |]. intros alive errs x -> Hx. destruct (H alive errs eq_refl) as [Hcov Hbad].
  pose proof (intact_load _ _ _ _ Hin Hx) as Hl. destruct (Hcov (ps_name x) (ps_manifest x)) as [? | He]; [apply (intact_names _ _ _ _ Hin); by exists x | done | done |].
  specialize (Hbad (proj1 (in_calm _ _ _ Hin)) _ He). by rewrite Hl in Hbad.
Qed.

Lemma history_intact w s h : history w s h -> intact w s h.
Proof.
  induction 1 as [w s Hid Hc Hs Hcs Hno | w s h w' s' _ IH Hc Hs Hcs Hx Hf | SF cfg sr content final upload w s h res w' _ IH Hn Er
    | ts dev trash w s h r w' _ IH Hts Er | trash w s h r w' _ IH Er | w s h alive errs w' s' _ IH Er Hs' Hcs' Hx'].
  - split; [done | done | done | by apply Forall_nil | | by apply SSorted_nil]. intros n _ Hm [f Hf]. by rewrite Hno in Hf.
  - by eapply intact_other.
  - pose proof (intact_run SF cfg sr content final upload w s h IH Hn) as H. unfold wp in H. rewrite Er in H. destruct H as (res' & [= <-] & _ & H). exact H.
  - pose proof (intact_remove w s h ts dev trash IH Hts) as H. unfold wp in H. by rewrite Er in H.
  - pose proof (intact_remove_all w s h trash IH) as H. unfold wp in H. by rewrite Er in H.
  - pose proof (intact_collect w s h IH) as H. unfold wp in H. rewrite Er in H. destruct H as [Hsame Hcov]. cbn [fst snd] in *.
    eapply (intact_less w s h); [done | by apply (same_faults _ _ Hsame), IH | done | done | done | | |].
    + intros x k Hx Hk. apply Hx'. by eapply Hcov.
    + intros x Hx. by rewrite (same_files _ _ Hsame).
    + intros n Hn Hm. rewrite (same_files _ _ Hsame). by apply (in_only _ _ _ IH).
Qed.

(** ** A restore *)

Lemma second_prefix a b dev : MinInt64 <= a <= MaxInt64 -> MinInt64 <= b <= MaxInt64 -> HasPrefix (file_name a dev) (FormatInt b ++ go "_") = true -> a = b.
Proof.
  intros Ha Hb [z E]%bool_decide_eq_true. apply (f_equal (fun l => match IndexByte l x5f with Some i => take i l | None => l end)) in E. unfold file_name in E.
  change (go "_") with [x5f] in E. rewrite <- app_assoc in E. cbn [app] in E. rewrite !IndexByte_app, !take_app_length in E by (by apply FormatInt_no).
  apply (f_equal ParseInt) in E. rewrite !ParseInt_FormatInt in E by done. by injection E.
Qed.

(** Asked for by its second, a backup's manifest is the one that is loaded. *)
Lemma wp_LoadByTime w s h x ts t : intact w s h -> x ∈ h -> parse_rfc3339 ts = Some t -> unix t = second (ps_sr x) ->
  wp (LoadManifestByTimestamp hook (MetaDir root) cloud ts) (fun r _ => r = Ok (ps_manifest x)) w.
Proof.
  intros Hin Hx Hts Ht. pose proof Hin as [Hid [Hc _] _ Hk Honly Hord]. rewrite Forall_forall in Hk. pose proof (Hk x Hx) as Hkx.
  destruct (kept_name _ _ _ Hkx) as [Hn Hm]. destruct (kp_file _ _ _ Hkx) as (d & t0 & Hf & _).
  set (names := filter (fun n => HasPrefix n (FormatInt (unix t) ++ go "_") = true) (filter (fun n => isManifestFile n = true) (file_names (children mdir (w_files w))))).
  assert (Hname : ps_name x ∈ names).
  { apply list_elem_of_filter. split; [|apply (manifest_files_elem _ _ Hid); split_and!; [done | done | by eexists]].
    apply bool_decide_eq_true. rewrite Ht. unfold ps_name, file_name. eexists. by rewrite <- !app_assoc. }
  assert (Hall : forall n, n ∈ names -> load_file hook (w_files w) (FpJoin [mdir; n]) = Ok (ps_manifest x)).
  { intros n [Hp (Hnn & Hnm & Hnf)%(manifest_files_elem _ _ Hid)]%list_elem_of_filter. destruct (Honly n Hnn Hnm Hnf) as (y & Hy & ->).
    rewrite Ht in Hp. apply second_prefix in Hp; [|by eapply kp_second, Hk | by eapply kp_second].
    rewrite (in_second h x y) by done. by eapply kept_loads, Hk. }
  unfold LoadManifestByTimestamp, readManifestFiles, readManifestDirEntries. rewrite Hts. do 4 wp_step. apply wp_ReadDir; cbn beta iota.
  - intros e w' Hs He _. destruct (He Hc) as [_ Hch]. unfold names in Hname. rewrite Hch in Hname. by apply elem_of_nil in Hname.
  - intros w' Hs. do 3 wp_step. fold names. eapply wp_mono; [apply wp_first_loadable, (same_faults _ _ Hs Hc) |]. intros r w2 [_ Hr]. rewrite (same_files _ _ Hs) in Hr.
    destruct r as [[m|oe]|]; [| |done]; cbn beta iota; cbn [tried] in Hr.
    + destruct Hr as (pre & n & post & E & Hl & _). rewrite Hall in Hl by (rewrite E; set_solver). injection Hl as <-. by wp_step.
    + destruct Hr as [Hno _]. rewrite Forall_forall in Hno. specialize (Hno _ Hname). by rewrite Hall in Hno.
Qed.

Lemma wp_load_asked cfg w s h x : intact w s h -> rc_RepoRoot cfg = root -> RestoreRun.cloud_id cfg = cloud -> asks_for cfg h x -> wp (load_manifest hook cfg) (fun r _ => r = Ok (ps_manifest x)) w.
Proof.
  intros Hin Hroot Hcl [[Hts Hx] | (Hts & Hx & t & Ht & Hu)].
  - destruct h as [|y h]; [done |]. injection Hx as ->. destruct (intact_newest w s x h Hin) as [Hn Hone]. pose proof (in_calm _ _ _ Hin) as [Hc _].
    apply wp_load_newest; unfold manifest_dir; by rewrite ?Hroot, ?Hcl.
  - unfold load_manifest. rewrite Hroot, Hcl. destruct (eqs (rc_Timestamp cfg) []) eqn:E; [by apply eqs_true in E |]. cbn [negb]. wp_step.
    eapply wp_mono; [by eapply wp_LoadByTime |]. by intros r w' ->.
Qed.

Lemma asked_in cfg h x : asks_for cfg h x -> x ∈ h.
Proof. intros [[_ Hx] | (_ & Hx & _)]; [|done]. destruct h; [done |]. injection Hx as ->. by left. Qed.

(** C1: backups stay restorable for as long as the repository lives.  After any
    number of backups of a source, each of the tree as it was then, full or
    incremental, by any number of interleaving workers; whatever others did
    between them to the rest of the repository and of the store, short of taking
    blobs away; after any backups were deleted or trashed by their time stamp
    and device, or all of them; and after any blobs were taken away that are not
    among the live hashes the source's manifests were found to have: a restore
    that asks for one of the remaining backups by its second, or for the latest,
    to an empty directory on which nothing interferes, succeeds and lays out
    exactly the tree that was backed up then; and a further run that is ready
    gets through with a complete snapshot.  This is for backups under the
    following conditions.  The repository is initialised, nothing fails and
    nothing is cancelled.  Every path of the tree can be read, the files do not
    change during the run, and one that looks as in the backup before (same size
    and time, or same hash) has its content of then.  No piece of content that
    is stored as a blob (a file below the chunk size, or a chunk) starts with
    the zstd magic number, and no two have the same hash.  The key has 16, 24 or
    32 bytes, is the one that the restore and the registered manifest hook use,
    and the chunk size is at most 4 MiB.  No name has a colon or a backslash,
    starts like a drive, or ends like a staging file (a dot, a UUID, .tmp);
    names, device and source are valid UTF-8, the device has no slash and no
    .alive., the cloud and device identifiers are valid and the former does not
    start with _sources, and the manifest is at most 256 MiB.  Each run has a
    later second than the backups before it. *)
Theorem history_restorable w s h : history w s h ->
  (forall x cwd cfg room f r (rt : @rst S), rc_RepoRoot cfg = root -> RestoreRun.cloud_id cfg = cloud -> asks_for cfg h x ->
     decryptor_of cfg = dec -> empty_target cwd cfg f r (started rt) -> r_store rt = s ->
     wp (RestoreRun.Run hook cwd cfg room) (fun y s' => y = Ok (tally (AllFiles (ps_manifest x)) no_result) /\
       same_tree (ps_content x) (scan_path (ps_cfg x)) (ps_ex x) (sr_root (ps_sr x)) (view (sw_fs (r_sw (s_rst s'))) r)) (Site w rt)) /\
  (forall SF cfg sr content final upload, next SF cfg sr content final upload w s h ->
     exists res w', Backup.Run hook cfg own sr upload w = (Ok res, w') /\ IsComplete (pr_Manifest res) = true).
Proof.
  intros Hin%history_intact. split.
  - intros x cwd cfg room f r rt Hroot Hcl Hask Hdec Het Hstore. pose proof (in_kept _ _ _ Hin) as Hk. rewrite Forall_forall in Hk. specialize (Hk x (asked_in _ _ _ Hask)).
    destruct Hk as [_ (l & allow & res & Em & Hsnap & _ & Ho) Hcomp _ [Hwf Hnm] _ _ _ _ _].
    apply (wp_restore_loaded hook cwd cfg room (ps_manifest x) _ (fun t' => same_tree (ps_content x) (scan_path (ps_cfg x)) (ps_ex x) (sr_root (ps_sr x)) (view (sw_fs (r_sw t')) r))); [by eapply wp_load_asked |].
    rewrite Em in Hcomp |- *. apply (wp_restore_snapshot (fun fe r => (fe, r) ∈ l) (ps_content x) (scan_path (ps_cfg x)) (ps_ex x) (sr_root (ps_sr x)) allow res cwd cfg room f r (started rt)); try done.
    intros fe o Hfo. specialize (Ho fe o Hfo). rewrite Hdec. cbn [started r_store]. rewrite Hstore. split; [apply Ho |]. split; [apply Ho |]. eapply stored_content; [apply Hin | done].
  - intros SF cfg sr content final upload Hn. pose proof (intact_run SF cfg sr content final upload w s h Hin Hn) as H. unfold wp in H.
    destruct (Backup.Run hook cfg own sr upload w) as [y w']. cbn [fst snd] in H. destruct H as (res & -> & Hcomp & _). by exists res, w'.
Qed.
End History.

Module HistoryWitness.
Import Toy CryptoWitness BlobWitness EndWitness CycleWitness.
#[local] Existing Instances ew_reg ew_cfg ew_uuid ew_format ew_walk ew_strerror ew_chunker ew_chunker_spec.

(** Times are numbers of seconds, the first day apart. *)
Definition day1 : bytes := go "2026-01-02T03:04:05Z".
Definition day2 : bytes := go "2026-01-03T03:04:05Z".
#[local] Instance hw_parse : Rfc3339 := fun s =>
  if eqs s day2 then Some (1767409445 * 10 ^ 9) else match ParseInt s with Some n => Some (n * 10 ^ 9) | None => Some (1767323045 * 10 ^ 9) end.

Definition msg2 : bytes := go "other".

(** A file has its second content from the second day on. *)
Definition contentH (fe : scanEntry) : bytes := if eqs (se_mtime fe) day2 then msg2 else msg.
Definition source1 : SourceFS := fun path _ => OpenFile (Reader msg false) true (Reader msg false).
Definition source2 : SourceFS := fun path _ => let d := if eqs path (go "/home/u/a.txt") then msg2 else msg in OpenFile (Reader d false) true (Reader d false).

Definition infoH (day : bytes) (n : Z) : finfo := MkInfo n day 420.
Definition treeH (day : bytes) : node := Folder (infoH day1 0) (Some [(go "a.txt", Leaf (infoH day 5)); (go "b.txt", Leaf (infoH day1 5)); (go "empty", Folder (infoH day1 0) (Some []))]).
Definition cfgH (full : bool) : PipelineConfig := MkPipelineConfig (go "/r") 1 [] (go "home") (go "/home/u") [] (go "dev1") key [go "tmp"] full false.
Definition srH (day : bytes) : surroundings := Surroundings (treeH day) (fun _ => None) [] false 0 day None ent.
Definition fileA (day : bytes) : scanEntry := MkScan (go "a.txt") (go "/home/u/a.txt") 5 day 420.
Definition fileB : scanEntry := MkScan (go "b.txt") (go "/home/u/b.txt") 5 day1 420.
Abbreviation exH day := (loadExcludePatterns (sr_read (srH day)) (pc_Excludes (cfgH true)) (scan_path (cfgH true))).
Abbreviation pipe7 := (with_pol pipe0 7).
Definition PH : list bytes := [msg; msg2].

(** The calls of a run on the store [s], in the order of the turns. *)
Definition startH (s : sys) (day : bytes) : conf sys := Conf s [Task (fileA day) s [] 0 ent []; Task fileB s [] 0 ent []].
Definition finalH (SF : SourceFS) (s : sys) (day : bytes) (prev : gmap bytes FileEntry) : conf sys := foldl (turn pipe7 prev) (startH s day) [0; 1; 0; 1; 0; 1]%nat.
Definition uploadH (SF : SourceFS) (s : sys) (day : bytes) (_ : Z) (_ : list scanEntry) (prev : gmap bytes FileEntry) (m : Manifest) : shared :=
  foldl record (m, stats0) ((fun tk => (tk_file tk, result_of report0 (so_far pipe7 prev tk).1)) <$> cf_tasks (finalH SF s day prev)).

Definition dirsH (day : bytes) : list scanEntry := match scanSourceTree (scan_path (cfgH true)) (exH day) (treeH day) [] with Ok (_, dirs, _) => dirs | Err _ => [] end.
Lemma scanH day : day = day1 \/ day = day2 -> scanSourceTree (scan_path (cfgH true)) (exH day) (treeH day) [] = Ok ([fileA day; fileB], dirsH day, 0).
Proof. intros [-> | ->]; vm_compute; reflexivity. Qed.

(** The first backup, and the second, which starts from it. *)
Definition snap1 : Manifest := final_manifest (cfgH true) (srH day1) (uploadH source1 store0 day1 7) [fileA day1; fileB] (dirsH day1) 0 ∅.
Definition store1 : sys := cf_store (finalH source1 store0 day1 ∅).
Definition prev2 : gmap bytes FileEntry := BuildFileMap snap1.
Definition snap2 : Manifest := final_manifest (cfgH false) (srH day2) (uploadH source2 store1 day2 7) [fileA day2; fileB] (dirsH day2) 0 prev2.
Definition store2 : sys := cf_store (finalH source2 store1 day2 prev2).

#[local] Instance hw_json : Json := { json_marshal m := x7b :: m_Timestamp m; json_unmarshal d := if eqs d (x7b :: day2) then Some snap2 else Some snap1; json_unmarshal_v1 d := None }.
#[local] Instance hw_json_spec : JsonSpec hw_json.
Proof. unshelve econstructor; [exact (fun m => m = snap1 \/ m = snap2) | intros m [-> | ->]; vm_compute; reflexivity | done]. Defined.

#[local] Instance hw_lite : LiteJson := fun d => (fun m => MkLite ((fun dir => Some (lite <$> d_Files dir)) <$> m_Dirs m) []) <$> json_unmarshal d.
#[local] Instance hw_lite_spec : LiteJsonSpec hw_json hw_lite.
Proof. split; [|done]. intros d m E. unfold json_lite, hw_lite. rewrite E. eexists. split; [reflexivity | reflexivity]. Defined.
#[local] Instance hw_mounts : Mounts := fun _ => 0.

Definition hookH : option (bytes -> option bytes) := Some (key_hook key).
Definition cloudH : bytes := run_cloud_id (cfgH true).
Definition run1 := Backup.Run hookH (cfgH true) 7 (srH day1) (uploadH source1 store0 day1) repo.
(** In between someone leaves a file in the repository. *)
Definition world1 : world := set_files (<[go "/r/note.txt" := File msg 9]> (w_files run1.2)) run1.2.
Definition run2 := Backup.Run hookH (cfgH false) 7 (srH day2) (uploadH source2 store1 day2) world1.

Lemma treeH_ok day : well_formed (treeH day).
Proof.
  apply well_formed_folder. split; [by_decide |]. split; [by_decide |]. repeat apply Forall_cons_2; [done | done | | by apply Forall_nil_2].
  apply well_formed_folder. split; [by_decide |]. split; [by_decide |]. by apply Forall_nil_2.
Qed.

(** A run that all its calls return from. *)
Lemma quietH SF s day prev m :
  forallb (fun tk => is_ok (so_far pipe7 prev tk).1 && match at_request pipe7 prev tk with Going => true | _ => false end) (cf_tasks (finalH SF s day prev)) = true ->
  tk_file <$> cf_tasks (finalH SF s day prev) = [fileA day; fileB] ->
  quiet_uploads report0 pipe7 s [fileA day; fileB] prev m (finalH SF s day prev) (uploadH SF s day 7 [fileA day; fileB] prev m).
Proof.
  intros E Ef. rewrite forallb_forall in E. assert (Hok : forall i tk, cf_tasks (finalH SF s day prev) !! i = Some tk -> is_ok (so_far pipe7 prev tk).1 = true /\ at_request pipe7 prev tk = Going).
  { intros i tk Hi. specialize (E tk (proj1 (list_elem_of_In _ _) (list_elem_of_lookup_2 _ _ _ Hi))). apply andb_true_iff in E as [E1 E2]. split; [exact E1 |]. by destruct (at_request pipe7 prev tk). }
  split; [|split].
  - exists (startH s day). split; [split; [reflexivity |]; split; [reflexivity |]; by repeat constructor |]. split; [by repeat constructor | apply turns_reach].
  - intros i tk e Hi [_ He]. destruct (Hok i tk Hi) as [Hx _]. rewrite He in Hx. discriminate Hx.
  - set (l := (fun tk => (tk_file tk, result_of report0 (so_far pipe7 prev tk).1)) <$> cf_tasks (finalH SF s day prev)).
    assert (El : l.*1 = [fileA day; fileB]) by (rewrite <- Ef; unfold l; rewrite <- list_fmap_compose; done).
    exists 1%nat, 1%nat, false. eexists. split; [lia |]. rewrite <- El. split; [apply (one_worker_returns _ l); unfold l; apply Forall_fmap, Forall_forall | done].
    intros tk Htk. apply list_elem_of_lookup in Htk as [i Hi]. exists i, tk, (so_far pipe7 prev tk).1. split; [exact Hi |]. split; [reflexivity |]. split; [|reflexivity]. split; [by eapply Hok | reflexivity].
Qed.

Lemma settingH SF day s fe : (day = day1 /\ SF = source1) \/ (day = day2 /\ SF = source2) -> sane (gives (decryptor_of rcfg)) PH s -> fe ∈ [fileA day; fileB] ->
  setting (decryptor_of rcfg) PH pipe7 fe (contentH fe) ∅ (PipeFile.PS s [] O []).
Proof.
  intros Hday [Hi Hc] Hfe. split; [reflexivity | reflexivity | vm_compute; split; [reflexivity | discriminate] | | | | | | | exact Hi | exact Hc].
  - apply elem_of_cons in Hfe as [-> | ->%list_elem_of_singleton]; destruct Hday as [[-> ->] | [-> ->]]; intros n; reflexivity.
  - apply elem_of_cons in Hfe as [-> | ->%list_elem_of_singleton]; destruct Hday as [[-> ->] | [-> ->]]; reflexivity.
  - repeat apply Forall_cons_2; [| | by apply Forall_nil_2]; (split; vm_compute; [reflexivity | discriminate]).
  - intros q q' Hq Hq' E. apply elem_of_cons in Hq as [-> | ->%list_elem_of_singleton]; apply elem_of_cons in Hq' as [-> | ->%list_elem_of_singleton]; try reflexivity; vm_compute in E; discriminate E.
  - apply elem_of_cons in Hfe as [-> | ->%list_elem_of_singleton]; destruct Hday as [[-> ->] | [-> ->]]; (apply Forall_singleton; by_decide).
  - intros pf Hpf. rewrite lookup_empty in Hpf. discriminate Hpf.
Qed.

Lemma faithfulH day fe : day = day1 \/ day = day2 -> fe ∈ [fileA day; fileB] -> faithful contentH fe (contentH fe).
Proof.
  intros Hday Hfe fe1 _ [[Hm _] | E]; [unfold contentH; by rewrite Hm |].
  unfold contentH in *. destruct (eqs (se_mtime fe1) day2), (eqs (se_mtime fe) day2); try reflexivity; vm_compute in E; discriminate E.
Qed.

Lemma all_before (l : list candidate) n : forallb (fun c => ca_unix c <? n) l = true -> forall c, c ∈ l -> ca_unix c < n.
Proof. intros E c Hc. rewrite forallb_forall in E. by apply Z.ltb_lt, E, list_elem_of_In. Qed.

Lemma some_loads (l : list candidate) (f : candidate -> bool) : existsb f l = true -> exists c, c ∈ l /\ f c = true.
Proof. intros (c & Hc & Hl)%existsb_exists. exists c. by rewrite list_elem_of_In. Qed.

Lemma ready1 : ready hookH (cfgH true) (srH day1) repo.
Proof.
  split.
  - split; reflexivity.
  - split; reflexivity.
  - eexists. split; [vm_compute; reflexivity | left; discriminate].
  - split; [vm_compute; reflexivity | by_decide].
  - split; [vm_compute; reflexivity | by_decide].
  - vm_compute. reflexivity.
  - right. split; [reflexivity | vm_compute; discriminate].
  - split; [vm_compute; split; discriminate | vm_compute; reflexivity].
  - intros c Hc. exfalso. assert (E : candidates_of (w_files repo) (manifests_of (cfgH true)) = []) by (vm_compute; reflexivity). rewrite E in Hc. by apply elem_of_nil in Hc.
  - left. reflexivity.
Qed.

Lemma ready2 : ready hookH (cfgH false) (srH day2) world1.
Proof.
  split.
  - split; vm_compute; reflexivity.
  - split; reflexivity.
  - eexists. split; [vm_compute; reflexivity | left; discriminate].
  - split; [vm_compute; reflexivity | by_decide].
  - split; [vm_compute; reflexivity | by_decide].
  - vm_compute. reflexivity.
  - right. split; [reflexivity | vm_compute; discriminate].
  - split; [vm_compute; split; discriminate | vm_compute; reflexivity].
  - assert (E : forallb (fun c => ca_unix c <? second (srH day2)) (candidates_of (w_files world1) (manifests_of (cfgH false))) = true) by (vm_compute; reflexivity).
    exact (all_before _ _ E).
  - right. right. assert (E : existsb (fun c => is_ok (load_file hookH (w_files world1) (FpJoin [manifests_of (cfgH false); ca_name c]))) (candidates_of (w_files world1) (manifests_of (cfgH false))) = true) by (vm_compute; reflexivity).
    exact (some_loads _ _ E).
Qed.

(** The first backup can be taken. *)
Lemma sane_start : sane (gives (decryptor_of rcfg)) PH store0.
Proof. split; [exact inv0 |]. repeat apply Forall_cons_2; [| | by apply Forall_nil_2]; intros c Hc; vm_compute in Hc; discriminate Hc. Qed.

Lemma first_next : next hookH report0 (decryptor_of rcfg) PH pipe0 7 (go "/r") cloudH source1 (cfgH true) (srH day1) contentH (finalH source1 store0 day1 ∅) (uploadH source1 store0 day1) repo store0 [].
Proof.
  split.
  - split; reflexivity.
  - discriminate.
  - exact ready1.
  - split; [apply treeH_ok |]. split; [apply portable_check; [apply treeH_ok | vm_compute; reflexivity] | apply names_check; vm_compute; reflexivity].
  - intros k n. apply fine_read. vm_compute. reflexivity.
  - intros k i. apply fine_size. vm_compute. reflexivity.
  - intros files dirs errs fe E Hfe. pose proof (eq_trans (eq_sym (scanH day1 (or_introl eq_refl))) E) as E1. apply ok_inv in E1. injection E1 as E1 _ _; subst files.
    split; [|done]. apply (settingH source1 day1); [left; done | exact sane_start | exact Hfe].
  - intros files dirs errs m E. pose proof (eq_trans (eq_sym (scanH day1 (or_introl eq_refl))) E) as E1. apply ok_inv in E1. injection E1 as E1 _ _; subst files.
    apply quietH; vm_compute; reflexivity.
  - intros files dirs errs E. pose proof (eq_trans (eq_sym (scanH day1 (or_introl eq_refl))) E) as E1. apply ok_inv in E1. injection E1 as E1 E2 E3; subst files dirs errs.
    split; [left; reflexivity | vm_compute; discriminate].
Qed.

Lemma run1_done : match run1.1 with Ok res => pr_Manifest res = snap1 | Err _ => False end.
Proof. vm_compute. reflexivity. Qed.
Lemma mdirH : exists r, ManifestDir (MetaDir (go "/r")) cloudH = go "/r/.ginkgo-backup/m" ++ r.
Proof. eexists. vm_compute. reflexivity. Qed.

Lemma history1 : history hookH report0 (decryptor_of rcfg) PH pipe0 7 (go "/r") cloudH world1 store1 [Past (cfgH true) (srH day1) contentH snap1].
Proof.
  assert (H1 : history hookH report0 (decryptor_of rcfg) PH pipe0 7 (go "/r") cloudH run1.2 store1 [Past (cfgH true) (srH day1) contentH snap1]).
  { pose proof run1_done as Hok. destruct run1 as [[res|] w'] eqn:Er; [|destruct Hok]. cbn [fst] in Hok. rewrite <- Hok. eapply hist_run; [|exact first_next | exact Er].
    apply hist_start; [vm_compute; reflexivity | split; reflexivity | exact sane_start | vm_compute; split; reflexivity |].
    intros n _. destruct mdirH as [r ->]. unfold repo. cbn [w_files]. apply lookup_singleton_ne. intros E. vm_compute in E. discriminate E. }
  pose proof (history_intact _ _ _ _ _ _ _ _ _ _ _ H1) as Hin. eapply hist_other; [exact H1 | vm_compute; split; reflexivity | apply Hin | apply Hin | reflexivity |].
  intros n _. unfold world1. cbn [w_files]. destruct mdirH as [r ->]. apply lookup_insert_ne. intros E. vm_compute in E. discriminate E.
Qed.

Definition past1 : past := Past (cfgH true) (srH day1) contentH snap1.
Definition past2 : past := Past (cfgH false) (srH day2) contentH snap2.

Lemma second_next : next hookH report0 (decryptor_of rcfg) PH pipe0 7 (go "/r") cloudH source2 (cfgH false) (srH day2) contentH (finalH source2 store1 day2 prev2) (uploadH source2 store1 day2) world1 store1 [past1].
Proof.
  split.
  - split; reflexivity.
  - discriminate.
  - exact ready2.
  - split; [apply treeH_ok |]. split; [apply portable_check; [apply treeH_ok | vm_compute; reflexivity] | apply names_check; vm_compute; reflexivity].
  - intros k n. apply fine_read. vm_compute. reflexivity.
  - intros k i. apply fine_size. vm_compute. reflexivity.
  - intros files dirs errs fe E Hfe. pose proof (eq_trans (eq_sym (scanH day2 (or_intror eq_refl))) E) as E1. apply ok_inv in E1. injection E1 as E1 _ _; subst files.
    split; [|intros x Hx; injection Hx as <-; apply (faithfulH day2); [right; reflexivity | exact Hfe]].
    apply (settingH source2 day2); [right; done | exact (in_sane _ _ _ _ _ _ _ _ _ _ (history_intact _ _ _ _ _ _ _ _ _ _ _ history1)) | exact Hfe].
  - intros files dirs errs m E. pose proof (eq_trans (eq_sym (scanH day2 (or_intror eq_refl))) E) as E1. apply ok_inv in E1. injection E1 as E1 _ _; subst files.
    apply quietH; vm_compute; reflexivity.
  - intros files dirs errs E. pose proof (eq_trans (eq_sym (scanH day2 (or_intror eq_refl))) E) as E1. apply ok_inv in E1. injection E1 as E1 E2 E3; subst files dirs errs.
    split; [right; reflexivity | vm_compute; discriminate].
Qed.

Lemma run2_done : match run2.1 with Ok res => pr_Manifest res = snap2 | Err _ => False end.
Proof. vm_compute. reflexivity. Qed.

Lemma history2 : history hookH report0 (decryptor_of rcfg) PH pipe0 7 (go "/r") cloudH run2.2 store2 [past2; past1].
Proof.
  pose proof run2_done as Hok. destruct run2 as [[res|] w'] eqn:Er; [|destruct Hok]. cbn [fst] in Hok. unfold past2. rewrite <- Hok. eapply hist_run; [exact history1 | exact second_next | exact Er].
Qed.

(** Later the second backup is trashed, the live hashes are collected, and the
    blob that only the second backup had is deleted from the store. *)
Definition run3 := deleteOrTrashManifest hookH (MetaDir (go "/r")) cloudH day2 (go "dev1") true run2.2.
Definition live3 := CollectAliveHashesStreaming hookH (MetaDir (go "/r")) cloudH run3.2.
Definition store3 : sys := (bs_Delete (SHA256Bytes msg2) store2).2.

Lemma store3_blobs : bs_inv store3 /\ (forall k, validateHash k = true -> k <> SHA256Bytes msg2 -> bs_blob store3 k = bs_blob store2 k) /\ bs_blob store3 (SHA256Bytes msg2) = None.
Proof.
  pose proof (in_sane _ _ _ _ _ _ _ _ _ _ (history_intact _ _ _ _ _ _ _ _ _ _ _ history2)) as [Hi _].
  pose proof (bs_Delete_ok (SHA256Bytes msg2) store2 Hi) as H. unfold wp in H. cbv beta in H. destruct H as (H1 & H2 & _ & H4). unfold store3.
  split; [exact H1 |]. split; [exact H2 |]. apply H4. vm_compute. reflexivity.
Qed.

Lemma without2 : without day2 (go "dev1") [past2; past1] = [past1].
Proof. unfold without. rewrite filter_cons_False, filter_cons_True; [reflexivity | |]; [by_decide | by_decide]. Qed.

Lemma history_trashed : history hookH report0 (decryptor_of rcfg) PH pipe0 7 (go "/r") cloudH run3.2 store2 (without day2 (go "dev1") [past2; past1]).
Proof.
  destruct run3 as [r w'] eqn:Er. cbn [snd]. unfold run3 in Er.
  refine (hist_remove hookH report0 (decryptor_of rcfg) PH pipe0 7 (go "/r") cloudH day2 (go "dev1") true run2.2 store2 [past2; past1] r w' history2 _ Er). eexists. vm_compute. reflexivity.
Qed.

Lemma history3 : history hookH report0 (decryptor_of rcfg) PH pipe0 7 (go "/r") cloudH live3.2 store3 [past1].
Proof.
  rewrite <- without2. assert (E : match live3.1 with Ok (a, _) => bool_decide (SHA256Bytes msg2 ∉ a) | Err _ => false end = true) by (vm_compute; reflexivity).
  destruct live3 as [[[alive errs]|] w'] eqn:El; [|discriminate E]. cbn [fst snd] in E |- *. apply bool_decide_eq_true in E. destruct store3_blobs as (Hi & Hk & Hno).
  unfold live3 in El.
  refine (hist_collect hookH report0 (decryptor_of rcfg) PH pipe0 7 (go "/r") cloudH run3.2 store2 (without day2 (go "dev1") [past2; past1]) alive errs w' store3 history_trashed El _ _ _); [| vm_compute; split; reflexivity |].
  - pose proof (in_sane _ _ _ _ _ _ _ _ _ _ (history_intact _ _ _ _ _ _ _ _ _ _ _ history2)) as [_ Hc]. split; [exact Hi |].
    apply Forall_cons in Hc as [Hc _]. apply Forall_cons_2; [|apply Forall_singleton; intros c Hc'; rewrite Hno in Hc'; discriminate Hc'].
    intros c Hc'. rewrite Hk in Hc'; [by apply Hc | vm_compute; reflexivity | intros E2; vm_compute in E2; discriminate E2].
  - intros k Hin [Hv Hp]. split; [exact Hv |]. rewrite Hk; [exact Hp | exact Hv |]. intros ->. by apply E.
Qed.

Definition rcfg_at (stamp : bytes) : RestoreConfig := MkRestoreConfig (go "/r") (go "out") 1 [] stamp (go "dev1") key false.
Definition rtH (s : sys) : @rst sys := RS s (SW blank ∅ [] 0 []) [] (MkRestoreResult 0 0 0).

Lemma emptyH w s h stamp : history hookH report0 (decryptor_of rcfg) PH pipe0 7 (go "/r") cloudH w s h -> empty_target (go "/home/u") (rcfg_at stamp) blank 1 (started (rtH s)).
Proof.
  intros Hh. pose proof (history_intact _ _ _ _ _ _ _ _ _ _ _ Hh) as Hin. destruct (empty_for s (proj1 (in_sane _ _ _ _ _ _ _ _ _ _ Hin)) (proj2 (in_calm _ _ _ _ _ _ _ _ _ _ Hin))) as [H1 H2 H3 H4 H5 H6 H7].
  split; [exact H1 | exact H2 | exact H3 | exact H4 | exact H5 | exact H6 | exact H7].
Qed.

(** The backups come back: the first by its time stamp, with the content that
    [a.txt] had then, the second as the latest; and when the second is gone, and
    with it its blob, the first as the latest. *)
Lemma history_restorable_witness : exists w2 w3 y1 y2 y3, history hookH report0 (decryptor_of rcfg) PH pipe0 7 (go "/r") cloudH w2 store2 [past2; past1] /\
  RestoreRun.Run hookH (go "/home/u") (rcfg_at day1) 100 (Site w2 (rtH store2)) = (Ok (tally (AllFiles snap1) no_result), y1) /\
  same_tree contentH (scan_path (cfgH true)) (exH day1) (treeH day1) (view (sw_fs (r_sw (s_rst y1))) 1) /\
  RestoreRun.Run hookH (go "/home/u") (rcfg_at []) 100 (Site w2 (rtH store2)) = (Ok (tally (AllFiles snap2) no_result), y2) /\
  same_tree contentH (scan_path (cfgH false)) (exH day2) (treeH day2) (view (sw_fs (r_sw (s_rst y2))) 1) /\
  history hookH report0 (decryptor_of rcfg) PH pipe0 7 (go "/r") cloudH w3 store3 [past1] /\
  RestoreRun.Run hookH (go "/home/u") (rcfg_at []) 100 (Site w3 (rtH store3)) = (Ok (tally (AllFiles snap1) no_result), y3) /\
  same_tree contentH (scan_path (cfgH true)) (exH day1) (treeH day1) (view (sw_fs (r_sw (s_rst y3))) 1).
Proof.
  destruct (history_restorable hookH report0 (decryptor_of rcfg) PH pipe0 7 (go "/r") cloudH run2.2 store2 [past2; past1] history2) as [H _].
  destruct (history_restorable hookH report0 (decryptor_of rcfg) PH pipe0 7 (go "/r") cloudH live3.2 store3 [past1] history3) as [H' _].
  assert (A1 : asks_for (rcfg_at day1) [past2; past1] past1).
  { right. split; [discriminate |]. split; [right; left |]. eexists. split; [vm_compute; reflexivity | vm_compute; reflexivity]. }
  pose proof (H past1 (go "/home/u") (rcfg_at day1) 100 blank 1%nat (rtH store2) eq_refl eq_refl A1 eq_refl (emptyH _ _ _ day1 history2) eq_refl) as H1.
  pose proof (H past2 (go "/home/u") (rcfg_at []) 100 blank 1%nat (rtH store2) eq_refl eq_refl (or_introl (conj eq_refl eq_refl)) eq_refl (emptyH _ _ _ [] history2) eq_refl) as H2.
  pose proof (H' past1 (go "/home/u") (rcfg_at []) 100 blank 1%nat (rtH store3) eq_refl eq_refl (or_introl (conj eq_refl eq_refl)) eq_refl (emptyH _ _ _ [] history3) eq_refl) as H3.
  unfold wp in H1, H2, H3. exists run2.2, live3.2.
  destruct (RestoreRun.Run hookH (go "/home/u") (rcfg_at day1) 100 (Site run2.2 (rtH store2))) as [r1 y1]. destruct (RestoreRun.Run hookH (go "/home/u") (rcfg_at []) 100 (Site run2.2 (rtH store2))) as [r2 y2].
  destruct (RestoreRun.Run hookH (go "/home/u") (rcfg_at []) 100 (Site live3.2 (rtH store3))) as [r3 y3].
  cbn [fst snd] in H1, H2, H3. destruct H1 as [-> S1], H2 as [-> S2], H3 as [-> S3]. exists y1, y2, y3. split; [exact history2 |]. split; [reflexivity |]. split; [exact S1 |]. split; [reflexivity |].
  split; [exact S2 |]. split; [exact history3 |]. split; [reflexivity | exact S3].
Defined.
End HistoryWitness.
